(* ===== verification/_CoqProject ===== *)
-Q . S2P
Prelude.v
CString.v
TopicFilter.v
MQTTPacket.v
MQTTConnect.v
MQTTPublish.v
MQTTSubscribe.v
Timer.v
Network.v
MQTTClient.v
Simulation.v
MQTTClientProofs.v
MQTTClientRuns.v
CayenneUtils.v
CayenneDataArray.v
CayenneMQTTClient.v
CayenneProofs.v
CayenneRuns.v
Storage.v
HttpServer.v
Double.v
Bluetooth.v
BluetoothProofs.v
BluetoothEvents.v
BluetoothRuns.v
MultiPrecision.v
MultiPrecisionProofs.v
MultiPrecisionSpec.v
Aes.v
AesProofs.v
AesSpec.v
Cmac.v
CmacProofs.v
Smp.v
SmpProofs.v
Ecc.v
EccProofs.v
EccSpec.v
SmpTables.v
SmpCb.v
SmpCommands.v
SmpAct.v
SmpEvents.v
SmpWf.v
SmpLab.v
SmpEngine.v
SmpActProofs.v
SmpReturns.v
SmpPairing.v
SmpFailures.v
SmpPasskey.v
SmpModels.v
SmpRuns.v
CayenneTask.v
LiveSocket.v
Frame.v
WiFi.v
WiFiProofs.v
HttpDispatch.v
HttpProofs.v
HttpForms.v
Main.v
SystemRuns.v
