(* ===== verification/Prelude.v ===== *)
(** * ESP32 Smart Home firmware: verification library

    The firmware (src/main) connects an ESP32 to a WiFi network, keeps its
    settings in flash, serves a configuration page, reads the sensors of a
    Bluetooth tag and exchanges data with the Cayenne service over MQTT.  This
    library models the application from the bytes on the wire up to [app_main],
    and proves what its parts do and how they work together.

    ** The parts and where they are modelled

    - [Prelude]: outcomes and faults, the state monad [M], machine integers,
      bit fields, byte objects, the classes [Emits] and [Reads] for code that
      writes or reads a buffer through an advancing pointer, the judgements
      [wp] (finishes correctly or stops at a fault, never out of fuel) and
      [twp] (finishes correctly).
    - [CString]: the functions of the C library on strings and numbers.
    - [TopicFilter]: [isTopicMatched] of MQTTClient.c and [topicMatches] of
      CayenneUtils.c.
    - [MQTTPacket]: MQTTPacket.c, the primitives of the packet format and the
      blocking and the non-blocking packet reader.
    - [MQTTConnect], [MQTTPublish], [MQTTSubscribe]: the serializers and
      deserializers of MQTTConnectClient.c, MQTTSerializePublish.c,
      MQTTDeserializePublish.c, MQTTSubscribeClient.c and
      MQTTUnsubscribeClient.c.
    - [Timer], [Network]: Platform/esp32/Timer.c and Network.c.  The clock and
      the lwIP socket calls are classes ([Clock], [Lwip]) with laws
      ([ClockLaws], [LwipLaws], [LwipTime]); [NetOps] with [NetLaws] and
      [TimedNet] is the interface the MQTT client uses, which [Network]
      implements.
    - [MQTTClient]: MQTTClient.c, the client structure as a record and every
      operation as a state transformer on the client, the world (clock and
      network) and the user data; a message handler is a parameter, the class
      [Callbacks].
    - [Simulation]: a concrete clock and network on which the model runs.
    - [MQTTClientProofs]: termination of every call and the invariant of the
      client structure.
    - [MQTTClientRuns]: what is sent and received on a responsive network, the
      class [ResponsiveNet]: while the connection is alive, the bytes of the
      peer are there and everything is written.
    - [CayenneUtils], [CayenneDataArray]: CayenneUtils.c and
      CayenneDataArray.c.
    - [CayenneMQTTClient]: CayenneMQTTClient.c; its [MQTTMessageArrived] is the
      instance of [Callbacks] for the MQTT client.  The application's handlers
      are the class [CayenneCallbacks].
    - [CayenneProofs], [CayenneRuns]: the theorems about it.
    - [Storage]: esp32iot_storage.c; the NVS library is the class [Nvs] with
      the laws [NvsLaws].
    - [Double]: the arithmetic of C [double], rounded to nearest even.
    - [Bluetooth]: esp32iot_bluetooth.c, the two callbacks of the Bluetooth
      stack as transformers of the client's variables, and the search in
      advertising data of the stack; requests to the stack are the class
      [Bluedroid].  [BluetoothProofs]: the conversions of the sensor values;
      [BluetoothEvents]: sequences of events; [BluetoothRuns]: initialisation
      and a concrete stack.
    - The cryptography of pairing in the Bluetooth stack of the firmware
      (src/components/bt/bluedroid/stack/smp).  [MultiPrecision],
      [MultiPrecisionProofs], [MultiPrecisionSpec]: p_256_multprecision.c, numbers
      as arrays of words.  [Ecc], [EccProofs], [EccSpec]: p_256_ecc_pp.c, points of
      the curve and Diffie-Hellman keys.  [Aes], [AesProofs], [AesSpec]: aes.c,
      with FIPS 197 as a reference.  [Cmac], [CmacProofs]: smp_cmac.c, with RFC
      4493 as a reference.  [Smp], [SmpProofs]: the key functions of smp_keys.c
      and smp_utils.c, with those of the Core Specification as a reference.
    - The state machine of pairing over Bluetooth LE, from the same directory.
      [SmpTables]: the states, events and tables of smp_main.c.  [SmpCb]: the
      control block tSMP_CB and the types of smp_int.h and smp_api.h; the answers of
      the rest of the stack and of the application are the class [Host], what is
      asked of them is a list of [effect]s.  [SmpCommands]: smp_utils.c, the
      commands, their checks and the association model.  [SmpAct]: the actions of
      smp_act.c, the requests of smp_keys.c for random numbers, and smp_sm_event.
      [SmpEvents]: what enters the machine, smp_l2c.c, smp_api.c and the callbacks;
      [input] is the sum of all entries, [handle] their dispatch.
      [SmpWf], [SmpActProofs]: the type invariant [cb_wf] of the control block and its
      preservation by every action, on a host with the types of the code ([HostTypes]).
      [SmpEngine], [SmpReturns]: which events an action may raise in which state, and
      how deep they nest.  [SmpPairing], [SmpFailures]: what a pairing accepts, and how
      it fails.  [SmpPasskey]: two devices joined by a link, one of which shows a
      passkey, on any two hosts.  [SmpModels]: the association model of the
      specification.  [SmpLab], [SmpRuns]: a concrete host, and runs of whole pairings.
    - [CayenneTask]: esp32iot_cayenne.c, the connection to the server and the
      task that publishes the sensor values; the scheduler is the class
      [Scheduler].
    - [LiveSocket]: a connected socket (class [LiveSocket]) implements the
      interface [ResponsiveNet], and the session with the Cayenne server over it.
    - [WiFi], [WiFiProofs]: esp32iot_wifi.c, the configuration of the driver and
      the event handler.  The state of the application is the record [App]: the
      credentials in use, the strings of the form, the flash, the Bluetooth
      client and the drivers of the ESP-IDF, which are the class [Idf].
    - [Frame]: what the calls of the Cayenne client leave alone.
    - [HttpServer]: the form parsers of esp32iot_http_server.c.
      [HttpDispatch]: the rest of the file, on the class [Netconn];
      [HttpProofs], [HttpForms]: what a request does.
    - [Main]: main.c, the start of the firmware.
    - [SystemRuns]: the whole device on concrete drivers.

    How they interact: [app_main] mounts [Storage], starts [WiFi] and creates the
    task of the HTTP server.  The event handler of [WiFi] stores a network that
    was joined, and with an address starts the Cayenne client with the stored
    account, then the Bluetooth client and the Cayenne task.  The HTTP server
    calls [WiFi], [Storage], [CayenneTask] and [Bluetooth] on requests.  The
    Cayenne task reads the variables the Bluetooth callbacks write.  The stack
    below the Bluetooth client pairs with the machine of [SmpAct]: commands of the
    peer, random numbers, the encryption of the link and calls of the application
    enter it through [SmpEvents], an event finds its row in [SmpTables], the actions of
    the row call the key functions of [Smp], those [Cmac] and through it [Aes], and
    [Ecc] on [MultiPrecision], and may raise further events.

    ** How the code is translated

    A C function is a definition of the same name.  A buffer is the list of its
    bytes; an access outside it is a fault, as are a NULL dereference, a signed
    overflow and an abort through ESP_ERROR_CHECK ([fault]).  A pointer into a
    buffer is an offset; a pointer argument that may be NULL is an option.  [int]
    and [long] have 32 bits and [char] is unsigned, as on the Xtensa target;
    integers are [Z] with the wrap-around written out where it can matter.  A
    structure handed by pointer is the state of [M].  Uninitialised locals that
    can be read are parameters ([stack_out], [stack_message] and the like).

    Configuration: no MQTT_TASK, MAX_MESSAGE_HANDLERS 0 (PlatformHeader.h), no
    DIGITAL_AND_ANALOG_SUPPORT, no PARSE_INFO_PAYLOADS (CayenneDefines.h).

    ** Fuel

    Loops over data have enough fuel by construction: the remaining length
    loops have at most five rounds, the scans one round per byte of memory.
    The loops that poll the clock or a socket take the parameter [fuel]; the
    termination theorems show that one round per microsecond of the timeout is
    enough ([client_calls_return], [cayenne_calls_return]), since every clock
    reading or network call moves the time, and [OutOfFuel] never occurs then.
    [esp32_read_spins] is a loop that no fuel is enough for, and so are, as the
    code means them, the loop of the Cayenne task ([cayenne_task_rounds] has the
    number of rounds as an argument), the repeated attempts to connect and the
    accept loop of the HTTP server, which last as long as their conditions.  The
    loops of the pairing arithmetic run at most 513 rounds (the inverse) and 257
    (the digits of a scalar), the rounds of an authentication code 256, since
    their counter has eight bits.  [engine] nests the events that actions of the
    pairing machine raise; [engine_depth], 12 levels, is enough from every state and
    for every input ([pairing_returns]).

    ** What the theorems show

    Packet format: lengths, PUBLISH packets and acknowledgements survive the
    round trip; the serializers write exactly the packet and stay within the
    buffer; the readers frame a stream and are memory safe.  Client: every call
    returns, the structure is an invariant, the handshake and publishing put
    exactly the right bytes on the wire.  Cayenne: topics survive the round
    trip, payloads are exact, the data array refines a list of pairs, a command
    reaches exactly its handlers, subscriptions register and clear them.
    Storage: the settings survive the round trip, the restart counter counts.
    Bluetooth: the values of the sensors are those of the data sheets, the tag is
    found by its name, a service is discovered, connections are attempted once,
    and the variables keep the ranges of their types.  Cayenne task: each round
    puts exactly eight packets on the wire, after the CONNECT packet and the
    information packets of the session.  WiFi: the device joins the network
    it was connected to, or opens its own.  HTTP: the form parsers return exactly
    the field; each request is answered at most once and closed exactly once; the
    forms join the network and store the account.  Main: the order of a start.
    Pairing: the ciphers are AES and the codes AES-CMAC, encryption is undone by
    decryption, the key functions are those of the Core Specification, and two
    devices that have exchanged their values agree on what they compare and on
    their keys.  The pairing machine handles every input and keeps the types of its
    control block ([pairing_returns]), chooses the model of the specification
    ([association_model_correct]), accepts the confirm value of the right temporary
    key only ([random_decides]), and with a passkey two devices on a link get the key
    of the specification when it is entered right and none when the confirm values
    differ ([passkey_entry_decides]); [devices_pair] are runs to the exchange of all
    keys.  The arithmetic is exact on integers, the inverse modulo the
    prime is one, the digits of a scalar are its non-adjacent form, the
    multiplication of a point always stops, and it refines the arithmetic of
    tangents and chords wherever the products modulo the prime are right, which
    they are not on all residues: the product is off by the borrows that small words
    miscount and the carries that the last loops forget ([mersenns_mult_mod_exact]).
    The theorems across parts are [app_main_boot], [network_remembered],
    [wifi_form_joins], [mqtt_form_remembered], [got_ip_blocks] and
    [cayenne_session].
    Several theorems state precisely where the code fails: the overruns of
    [readPacket], [buildTopic], [MQTTDeserialize_suback],
    [get_last_connected_wifi] and the forms, the partial write of [sendPacket],
    the lost read error of [MQTTYield], the endless [esp32_read], the NULL client
    id of a subscription, the abort of [save_wifi] for long names, the signed
    words of the HTU21D, the overflow of the MS5637 conversion, the connection
    that is never attempted again, the event handler that does not return, the
    passkey that can be passed over ([passkey_bypassed]), the failed pairing that a
    slave does not report ([failure_reported]), the commands that are read beyond
    their end ([short_frame_overruns]), and the machine that stays busy
    ([refused_commitment_sticks]).

    ** Not modelled

    Logging and console output; the order in which the tasks of FreeRTOS run,
    except that the sensor values may change before each reading; what an ESP-IDF
    driver does with a request (the classes); pairing over BR/EDR, which the firmware
    does not bring up, and calls of the pairing interface from within the
    application's own callback; the other protocol layers of the Bluedroid stack, the
    toolchain and the build files, which are vendored; the web pages, which are data
    and appear by name. *)

From Stdlib Require Export ZArith Lia.
From stdpp Require Export base numbers list strings gmap.

#[global] Open Scope Z_scope.

(** ** Outcomes of C code

    A run of a C function either finishes with a value or stops at a fault:
    undefined behaviour of the C abstract machine, a call of [abort] through
    [ESP_ERROR_CHECK], a restart of the device, or the exhaustion of the fuel
    that bounds a loop of the model. *)

Inductive fault :=
| OobRead | OobWrite | NullDeref | UninitRead | BadAlloc | IntOverflow
| EspAbort | EspRestart | OutOfFuel.

#[export] Instance fault_eq_dec : EqDecision fault.
Proof. solve_decision. Defined.

Inductive outcome (A : Type) :=
| Ok (a : A)
| Fault (f : fault).
Arguments Ok {A} a.
Arguments Fault {A} f.

#[export] Instance outcome_ret : MRet outcome := λ A a, Ok a.
#[export] Instance outcome_bind : MBind outcome := λ A B k m,
  match m with Ok a => k a | Fault f => Fault f end.

(** State passing over outcomes: the effect of a C function on the object it
    is handed by pointer. *)
Definition M (S A : Type) : Type := S → outcome (A * S).

#[export] Instance M_ret {S} : MRet (M S) := λ A a s, Ok (a, s).
#[export] Instance M_bind {S} : MBind (M S) := λ A B k m s,
  match m s with Ok (a, s') => k a s' | Fault f => Fault f end.

Definition get {S} : M S S := λ s, Ok (s, s).
Definition put {S} (s : S) : M S () := λ _, Ok ((), s).
Definition modify {S} (g : S → S) : M S () := λ s, Ok ((), g s).
Definition gets {S A} (g : S → A) : M S A := λ s, Ok (g s, s).
Definition lift {S A} (o : outcome A) : M S A := λ s,
  match o with Ok a => Ok (a, s) | Fault f => Fault f end.
Definition fail {S A} (f : fault) : M S A := λ _, Fault f.

(** The number of rounds granted to the loops of the code that poll a clock or
    a socket. *)
Class Fuel := fuel : nat.

(** ** Machine integers *)

Definition u8 (z : Z) : Z := z mod 256.
Definition u16 (z : Z) : Z := z mod 65536.
Definition u32 (z : Z) : Z := z mod 4294967296.
Definition s16 (z : Z) : Z := (z + 32768) mod 65536 - 32768.
Definition s32 (z : Z) : Z := (z + 2147483648) mod 4294967296 - 2147483648.

Definition INT_MAX : Z := 2147483647.
Definition INT_MIN : Z := -2147483648.

(** Signed 32-bit arithmetic whose overflow is undefined behaviour. *)
Definition chk32 (z : Z) : outcome Z :=
  if decide (INT_MIN ≤ z ≤ INT_MAX) then Ok z else Fault IntOverflow.

(** A bit field of width [w] at bit [lo] of a word: the members of the unions
    [MQTTHeader], [MQTTConnectFlags] and [MQTTConnackFlags]. *)
Definition bits_get (lo w word : Z) : Z := Z.land (Z.shiftr word lo) (Z.ones w).
Definition bits_set (lo w v word : Z) : Z :=
  Z.lor (Z.ldiff word (Z.shiftl (Z.ones w) lo)) (Z.shiftl (Z.land v (Z.ones w)) lo).

(** Length as an integer. *)
Abbreviation zlen l := (Z.of_nat (length l)).

(** ** Memory objects

    A byte object is the list of its bytes; an access outside it is a fault. *)

Definition load (b : list Z) (i : Z) : outcome Z :=
  if decide (0 ≤ i) then
    match b !! Z.to_nat i with Some v => Ok v | None => Fault OobRead end
  else Fault OobRead.

Definition store (b : list Z) (i v : Z) : outcome (list Z) :=
  if decide (0 ≤ i < zlen b) then Ok (<[Z.to_nat i := v]> b) else Fault OobWrite.

(** [memcpy] of the bytes [d] to offset [i], and the bytes [memcpy] reads. *)
Definition store_bytes (b : list Z) (i : Z) (d : list Z) : outcome (list Z) :=
  if decide (0 ≤ i ∧ i + zlen d ≤ zlen b) then
    Ok (take (Z.to_nat i) b ++ d ++ drop (Z.to_nat i + length d) b)
  else Fault OobWrite.

Definition load_bytes (b : list Z) (i n : Z) : outcome (list Z) :=
  if decide (0 ≤ i ∧ 0 ≤ n ∧ i + n ≤ zlen b) then
    Ok (take (Z.to_nat n) (drop (Z.to_nat i) b))
  else Fault OobRead.

(** Element [i] of an array of objects. *)
Definition index {A} (l : list A) (i : Z) : outcome A :=
  if decide (0 ≤ i) then
    match l !! Z.to_nat i with Some x => Ok x | None => Fault OobRead end
  else Fault OobRead.

(** [for (i = i0; ...; ++i) body(i)], [n] rounds. *)
Fixpoint forM {S} (n : nat) (i : Z) (body : Z → M S ()) : M S () :=
  match n with
  | O => mret ()
  | Datatypes.S n => body i ;; forM n (i + 1) body
  end.

(** A byte string literal. *)
Fixpoint bytes (s : string) : list Z :=
  match s with
  | EmptyString => []
  | String a s' => Z.of_nat (Ascii.nat_of_ascii a) :: bytes s'
  end.

Definition is_byte (z : Z) : Prop := 0 ≤ z < 256.
(** A C string: bytes without the terminator. *)
Definition is_cstring (l : list Z) : Prop := Forall (λ z, 0 < z < 256) l.

#[export] Instance is_byte_dec z : Decision (is_byte z) := _.
#[export] Instance is_cstring_dec l : Decision (is_cstring l) := _.

(** ** Tactics and hint databases *)

Create Rewrite HintDb cmem.

(** One step of case analysis on a guard of the code. *)
Ltac split_guard :=
  match goal with
  | |- context [decide ?P] => destruct (decide P)
  | |- context [if ?b then _ else _] => destruct b eqn:?
  end.

(** Splits the hypothesis that a bind succeeded into its two halves. *)
Ltac inv_bind H :=
  match type of H with
  | mbind _ ?m = Ok _ =>
      let E := fresh "E" in destruct m eqn:E; [cbn [mbind outcome_bind] in H | discriminate H]
  end.

Ltac zb := repeat match goal with
  | H : (_ <? _) = true |- _ => apply Z.ltb_lt in H
  | H : (_ <? _) = false |- _ => apply Z.ltb_ge in H
  | H : (_ <=? _) = true |- _ => apply Z.leb_le in H
  | H : (_ <=? _) = false |- _ => apply Z.leb_gt in H
  | H : (_ =? _) = true |- _ => apply Z.eqb_eq in H
  | H : (_ =? _) = false |- _ => apply Z.eqb_neq in H
  end.

(** Proves a decidable proposition on concrete data by evaluation. *)
Ltac decide_vm :=
  match goal with |- ?P => refine (bool_decide_eq_true_1 P _); vm_compute; reflexivity end.

(** Discharges the hypotheses of [H] on concrete data one by one; the conclusion
    agrees with the goal up to computation. *)
Ltac conclude_with H tac :=
  cbv zeta in H;
  repeat match type of H with
    | ?P → _ => specialize (H ltac:(tac))
    end;
  exact H.

(** Rewriting with this equation keeps large terms folded. *)
Lemma bind_ok {A B} (a : A) (k : A → outcome B) : (Ok a ≫= k) = k a.
Proof. reflexivity. Qed.

Lemma bind_inv {A B} (o : outcome A) (k : A → outcome B) b :
  (o ≫= k) = Ok b → ∃ a, o = Ok a ∧ k a = Ok b.
Proof. destruct o as [a|f]; [by exists a|done]. Qed.

Lemma pair_ok_inv {A B} (a a' : A) (b b' : B) : Ok (a, b) = Ok (a', b') → a = a' ∧ b = b'.
Proof. by intros [= -> ->]. Qed.

(** ** Bit fields *)

Lemma bits_get_alt lo w word :
  0 ≤ lo → 0 ≤ w → bits_get lo w word = word / 2 ^ lo mod 2 ^ w.
Proof. intros. unfold bits_get. by rewrite Z.land_ones, Z.shiftr_div_pow2. Qed.

Lemma bits_get_range lo w word : 0 ≤ lo → 0 ≤ w → 0 ≤ bits_get lo w word < 2 ^ w.
Proof. intros. rewrite bits_get_alt by lia. apply Z.mod_pos_bound. lia. Qed.

Lemma bits_set_testbit lo w v word i :
  0 ≤ lo → 0 ≤ w → 0 ≤ i →
  Z.testbit (bits_set lo w v word) i =
  if decide (lo ≤ i < lo + w) then Z.testbit v (i - lo) else Z.testbit word i.
Proof.
  intros. unfold bits_set.
  rewrite Z.lor_spec, Z.ldiff_spec, !Z.shiftl_spec, Z.land_spec by lia.
  rewrite Z.testbit_ones by lia.
  destruct (decide (lo ≤ i < lo + w)) as [Hin|Hout].
  - replace (0 <=? i - lo) with true by (symmetry; apply Z.leb_le; lia).
    replace (i - lo <? w) with true by (symmetry; apply Z.ltb_lt; lia).
    cbn. by rewrite andb_false_r, andb_true_r.
  - replace ((0 <=? i - lo) && (i - lo <? w)) with false by
      (symmetry; apply andb_false_iff; rewrite Z.leb_gt, Z.ltb_ge; lia).
    cbn. by rewrite andb_false_r, andb_true_r, orb_false_r.
Qed.

Lemma bits_get_testbit lo w word i :
  0 ≤ lo → 0 ≤ w → 0 ≤ i →
  Z.testbit (bits_get lo w word) i =
  if decide (i < w) then Z.testbit word (i + lo) else false.
Proof.
  intros. unfold bits_get.
  rewrite Z.land_spec, Z.shiftr_spec, Z.testbit_ones by lia.
  replace (0 <=? i) with true by (symmetry; apply Z.leb_le; lia).
  destruct (decide (i < w)).
  - replace (i <? w) with true by (symmetry; apply Z.ltb_lt; lia). by rewrite andb_true_r.
  - replace (i <? w) with false by (symmetry; apply Z.ltb_ge; lia). by rewrite andb_false_r.
Qed.

(** A field reads back what was stored in it, truncated to its width. *)
Lemma bits_get_set_same lo w v word :
  0 ≤ lo → 0 ≤ w → bits_get lo w (bits_set lo w v word) = v mod 2 ^ w.
Proof.
  intros. rewrite <- Z.land_ones by lia. apply Z.bits_inj'. intros i Hi.
  rewrite bits_get_testbit, Z.land_spec, Z.testbit_ones by lia.
  destruct (decide (i < w)) as [Hw|Hw].
  - rewrite bits_set_testbit by lia. rewrite decide_True by lia.
    replace (i + lo - lo) with i by lia.
    replace ((0 <=? i) && (i <? w)) with true by
      (symmetry; apply andb_true_iff; rewrite Z.leb_le, Z.ltb_lt; lia).
    by rewrite andb_true_r.
  - replace (i <? w) with false by (symmetry; apply Z.ltb_ge; lia).
    by rewrite !andb_false_r.
Qed.

(** Storing one field leaves a disjoint field alone. *)
Lemma bits_get_set_other lo w v lo' w' word :
  0 ≤ lo → 0 ≤ w → 0 ≤ lo' → 0 ≤ w' → (lo + w ≤ lo' ∨ lo' + w' ≤ lo) →
  bits_get lo' w' (bits_set lo w v word) = bits_get lo' w' word.
Proof.
  intros. apply Z.bits_inj'. intros i Hi.
  rewrite !bits_get_testbit by lia. case_decide; [|done].
  rewrite bits_set_testbit by lia. by rewrite decide_False by lia.
Qed.

Lemma bits_set_range lo w v word n :
  0 ≤ lo → 0 ≤ w → lo + w ≤ n → 0 ≤ word < 2 ^ n → 0 ≤ bits_set lo w v word < 2 ^ n.
Proof.
  intros ??? Hw. replace (bits_set lo w v word) with (bits_set lo w v word mod 2 ^ n).
  { apply Z.mod_pos_bound. lia. }
  apply Z.bits_inj'. intros i Hi. rewrite Z.testbit_mod_pow2 by lia.
  destruct (Z.ltb_spec i n); [done|]. cbn.
  rewrite bits_set_testbit, decide_False by lia.
  destruct (decide (word = 0)) as [->|]; [by rewrite Z.testbit_0_l|].
  symmetry. apply Z.bits_above_log2; [lia|].
  apply Z.lt_le_trans with n; [|lia]. apply Z.log2_lt_pow2; lia.
Qed.

(** ** Access to a byte object *)

Lemma load_app pre x post : load (pre ++ x :: post) (zlen pre) = Ok x.
Proof.
  unfold load. rewrite decide_True by lia.
  by rewrite Nat2Z.id, lookup_app_r, Nat.sub_diag by lia.
Qed.

Lemma load_head x l : load (x :: l) 0 = Ok x.
Proof. apply (load_app [] x l). Qed.

Lemma load_Ok b i v : load b i = Ok v → 0 ≤ i ∧ b !! Z.to_nat i = Some v.
Proof.
  unfold load. case_decide; [|done]. destruct (b !! Z.to_nat i) eqn:E; [|done].
  by intros [= <-].
Qed.

Lemma load_lookup b i v : 0 ≤ i → b !! Z.to_nat i = Some v → load b i = Ok v.
Proof. intros ? E. unfold load. by rewrite decide_True, E by lia. Qed.

Lemma load_oob b i : zlen b ≤ i → load b i = Fault OobRead.
Proof.
  intros. unfold load. case_decide; [|done]. by rewrite lookup_ge_None_2 by lia.
Qed.

Lemma index_lookup {A} (l : list A) (k : nat) x : l !! k = Some x → index l (Z.of_nat k) = Ok x.
Proof. intros E. unfold index. by rewrite decide_True, Nat2Z.id, E by lia. Qed.

Lemma store_app pre x post v : store (pre ++ x :: post) (zlen pre) v = Ok (pre ++ v :: post).
Proof.
  unfold store. rewrite decide_True by (rewrite length_app; cbn; lia).
  f_equal. rewrite Nat2Z.id, insert_app_r_alt, Nat.sub_diag by lia. done.
Qed.

Lemma store_Ok b i v b' :
  store b i v = Ok b' → 0 ≤ i < zlen b ∧ b' = <[Z.to_nat i := v]> b.
Proof. unfold store. case_decide; [|done]. by intros [= <-]. Qed.

Lemma store_length b i v b' : store b i v = Ok b' → length b' = length b.
Proof. intros [? ->]%store_Ok. apply length_insert. Qed.

Lemma store_oob b i v : zlen b ≤ i → store b i v = Fault OobWrite.
Proof. intros. unfold store. by rewrite decide_False by lia. Qed.

Lemma store_bytes_app pre old post d :
  length old = length d →
  store_bytes (pre ++ old ++ post) (zlen pre) d = Ok (pre ++ d ++ post).
Proof.
  intros Hl. unfold store_bytes. rewrite decide_True by (rewrite !length_app; lia).
  rewrite Nat2Z.id, take_app_length, <- Hl.
  by rewrite (app_assoc pre old post), <- length_app, drop_app_length.
Qed.

Lemma store_bytes_length b i d b' : store_bytes b i d = Ok b' → length b' = length b.
Proof.
  unfold store_bytes. case_decide; [|done]. intros [= <-].
  rewrite !length_app, length_take, length_drop. lia.
Qed.

Lemma store_bytes_oob b i d : zlen b < i + zlen d → store_bytes b i d = Fault OobWrite.
Proof. intros. unfold store_bytes. by rewrite decide_False by lia. Qed.

Lemma load_bytes_app pre d post :
  load_bytes (pre ++ d ++ post) (zlen pre) (zlen d) = Ok d.
Proof.
  unfold load_bytes. rewrite decide_True by (rewrite !length_app; lia).
  by rewrite !Nat2Z.id, drop_app_length, take_app_length.
Qed.

(** The same at a given offset of a given object. *)
Lemma load_bytes_at b pre d post off n :
  b = pre ++ d ++ post → off = zlen pre → n = zlen d → load_bytes b off n = Ok d.
Proof. intros -> -> ->. apply load_bytes_app. Qed.

#[export] Hint Rewrite load_app store_app store_bytes_app load_bytes_app : cmem.

(** ** Writers: code that appends to a buffer through an advancing pointer *)

Record wbuf := WBuf { wb_buf : list Z; wb_ptr : Z }.

(** [Emits w bs]: run anywhere in a buffer with room for [bs], the writer [w]
    replaces exactly the bytes under its pointer by [bs] and advances. *)
Class Emits (w : M wbuf ()) (bs : list Z) : Prop :=
  emits pre old post : length old = length bs →
    w (WBuf (pre ++ old ++ post) (zlen pre)) =
    Ok ((), WBuf (pre ++ bs ++ post) (zlen pre + zlen bs)).

#[export] Instance emits_ret : Emits (mret ()) [].
Proof. intros pre [|] post H; [|done]. cbn. by rewrite Z.add_0_r. Qed.

#[export] Instance emits_seq w1 w2 b1 b2 :
  Emits w1 b1 → Emits w2 b2 → Emits (w1 ≫= λ _, w2) (b1 ++ b2).
Proof.
  intros H1 H2 pre old post Hl. rewrite length_app in Hl.
  rewrite <- (take_drop (length b1) old), <- app_assoc.
  unfold mbind, M_bind.
  rewrite (H1 pre (take (length b1) old)) by (rewrite length_take; lia).
  rewrite app_assoc. replace (zlen pre + zlen b1) with (zlen (pre ++ b1))
    by (rewrite length_app; lia).
  rewrite (H2 (pre ++ b1)) by (rewrite length_drop; lia).
  rewrite !length_app, <- !app_assoc. do 3 f_equal. lia.
Qed.

#[export] Instance emits_if (b : bool) w1 w2 b1 b2 :
  Emits w1 b1 → Emits w2 b2 → Emits (if b then w1 else w2) (if b then b1 else b2).
Proof. by destruct b. Qed.

(** A loop over an array emits the images of its elements in order. *)
Lemma emits_forM {A} (f : A → list Z) (l : list A) i body :
  (∀ (k : nat) x, l !! k = Some x → Emits (body (i + Z.of_nat k)) (f x)) →
  Emits (forM (length l) i body) (concat (f <$> l)).
Proof.
  revert i. induction l as [|x l IH]; intros i Hb; cbn [forM length fmap list_fmap concat].
  - apply emits_ret.
  - apply emits_seq.
    + replace i with (i + Z.of_nat 0) by lia. by apply Hb.
    + apply IH. intros k y Hy. replace (i + 1 + Z.of_nat k) with (i + Z.of_nat (S k)) by lia.
      by apply Hb.
Qed.

Create HintDb emits.
#[export] Hint Resolve emits_ret emits_if | 1 : emits.
#[export] Hint Resolve emits_seq | 5 : emits.

(** A writer started at the head of a buffer that is large enough. *)
Lemma emits_run w bs `{!Emits w bs} buf :
  zlen bs ≤ zlen buf →
  w (WBuf buf 0) = Ok ((), WBuf (bs ++ drop (length bs) buf) (zlen bs)).
Proof.
  intros Hl. rewrite <- (take_drop (length bs) buf) at 1.
  apply (emits [] (take (length bs) buf)). rewrite length_take. lia.
Qed.

(** ** Readers: code that consumes a buffer through an advancing pointer *)

Record rbuf := RBuf { rb_buf : list Z; rb_ptr : Z }.

(** [Reads r bs a]: at the bytes [bs], the reader [r] returns [a] and stops
    right behind them. *)
Class Reads {A} (r : M rbuf A) (bs : list Z) (a : A) : Prop :=
  reads pre post :
    r (RBuf (pre ++ bs ++ post) (zlen pre)) =
    Ok (a, RBuf (pre ++ bs ++ post) (zlen pre + zlen bs)).

Lemma reads_bind {A B} (r : M rbuf A) (k : A → M rbuf B) b1 b2 a c :
  Reads r b1 a → Reads (k a) b2 c → Reads (r ≫= k) (b1 ++ b2) c.
Proof.
  intros H1 H2 pre post. unfold mbind, M_bind. rewrite <- app_assoc, (H1 pre).
  rewrite app_assoc. replace (zlen pre + zlen b1) with (zlen (pre ++ b1))
    by (rewrite length_app; lia).
  rewrite (H2 (pre ++ b1)), !length_app. do 2 f_equal. f_equal. lia.
Qed.

Lemma reads_at {A} (r : M rbuf A) bs a `{!Reads r bs a} b pre post off :
  b = pre ++ bs ++ post → off = zlen pre → r (RBuf b off) = Ok (a, RBuf b (off + zlen bs)).
Proof. intros -> ->. apply reads. Qed.

(** ** Reasoning about state passing *)

(** [wp m Q s]: run from [s], [m] does not run out of fuel, and if it finishes,
    its result and final state satisfy [Q]. *)
Definition wp {S A} (m : M S A) (Q : A → S → Prop) (s : S) : Prop :=
  match m s with Ok (a, s') => Q a s' | Fault f => f ≠ OutOfFuel end.

Section Wp.
Context {S A B : Type}.
Implicit Types (m : M S A) (Q : A → S → Prop).

Lemma wp_ret (a : A) Q (s : S) : Q a s → wp (mret a) Q s.
Proof. done. Qed.

Lemma wp_bind m (k : A → M S B) (Q : B → S → Prop) s :
  wp m (λ a, wp (k a) Q) s → wp (m ≫= k) Q s.
Proof. unfold wp, mbind, M_bind. by destruct (m s) as [[a s']|f]. Qed.

Lemma wp_mono m Q Q' s : wp m Q s → (∀ a s', Q a s' → Q' a s') → wp m Q' s.
Proof. unfold wp. destruct (m s) as [[a s']|f]; auto. Qed.

Lemma wp_gets (g : S → A) Q s : Q (g s) s → wp (gets g) Q s.
Proof. done. Qed.

Lemma wp_modify (g : S → S) (Q : () → S → Prop) s : Q () (g s) → wp (modify g) Q s.
Proof. done. Qed.

Lemma wp_lift (o : outcome A) Q s :
  match o with Ok a => Q a s | Fault f => f ≠ OutOfFuel end → wp (lift o) Q s.
Proof. unfold wp, lift. by destruct o. Qed.

(** What [wp] says of a run. *)
Lemma wp_run m Q s : wp m Q s → m s ≠ Fault OutOfFuel.
Proof. unfold wp. intros H E. by rewrite E in H. Qed.

Lemma wp_result m Q s a s' : wp m Q s → m s = Ok (a, s') → Q a s'.
Proof. unfold wp. intros H E. by rewrite E in H. Qed.
End Wp.

Create HintDb wp.
#[export] Hint Resolve wp_ret wp_gets wp_modify : wp.

(** Memory accesses and binds never run out of fuel. *)
Lemma store_fault b i v : store b i v ≠ Fault OutOfFuel.
Proof. unfold store. by case_decide. Qed.
Lemma load_fault b i : load b i ≠ Fault OutOfFuel.
Proof. unfold load. case_decide; [|done]. by destruct (b !! _). Qed.
Lemma store_bytes_fault b i d : store_bytes b i d ≠ Fault OutOfFuel.
Proof. unfold store_bytes. by case_decide. Qed.
Lemma load_bytes_fault b i n : load_bytes b i n ≠ Fault OutOfFuel.
Proof. unfold load_bytes. by case_decide. Qed.
Lemma index_fault {A} (l : list A) i : index l i ≠ Fault OutOfFuel.
Proof. unfold index. case_decide; [|done]. by destruct (l !! _). Qed.
Lemma chk32_fault z : chk32 z ≠ Fault OutOfFuel.
Proof. unfold chk32. by case_decide. Qed.
#[export] Hint Resolve store_fault load_fault store_bytes_fault load_bytes_fault
  index_fault chk32_fault : wp.

(** A bind of outcomes that cannot run out of fuel. *)
Lemma bind_fault {A B} (o : outcome A) (k : A → outcome B) :
  o ≠ Fault OutOfFuel → (∀ a, o = Ok a → k a ≠ Fault OutOfFuel) → (o ≫= k) ≠ Fault OutOfFuel.
Proof. destruct o as [a|f]; cbn; [by eauto|congruence]. Qed.

(** [twp m Q s]: run from [s], [m] finishes, with a result and a state that
    satisfy [Q]. *)
Definition twp {S A} (m : M S A) (Q : A → S → Prop) (s : S) : Prop :=
  match m s with Ok (a, s') => Q a s' | Fault _ => False end.

Section Twp.
Context {S A B : Type}.
Implicit Types (m : M S A) (Q : A → S → Prop).

Lemma twp_ret (a : A) Q (s : S) : Q a s → twp (mret a) Q s.
Proof. done. Qed.

Lemma twp_bind m (k : A → M S B) (Q : B → S → Prop) s :
  twp m (λ a, twp (k a) Q) s → twp (m ≫= k) Q s.
Proof. unfold twp, mbind, M_bind. by destruct (m s) as [[a s']|f]. Qed.

Lemma twp_mono m Q Q' s : twp m Q s → (∀ a s', Q a s' → Q' a s') → twp m Q' s.
Proof. unfold twp. destruct (m s) as [[a s']|f]; auto. Qed.

Lemma twp_gets (g : S → A) Q s : Q (g s) s → twp (gets g) Q s.
Proof. done. Qed.

Lemma twp_modify (g : S → S) (Q : () → S → Prop) s : Q () (g s) → twp (modify g) Q s.
Proof. done. Qed.

Lemma twp_lift (a : A) o Q s : o = Ok a → Q a s → twp (lift o) Q s.
Proof. by intros ->. Qed.

Lemma twp_run m Q s : twp m Q s → ∃ a s', m s = Ok (a, s') ∧ Q a s'.
Proof. unfold twp. destruct (m s) as [[a s']|f]; [by eauto|done]. Qed.

(** The same computation in another form. *)
Lemma twp_eq m m' Q s s' : m s = m' s' → twp m' Q s' → twp m Q s.
Proof. unfold twp. by intros ->. Qed.

Lemma twp_then_fault m (k : A → M S B) e s : twp m (λ a s', k a s' = Fault e) s → (m ≫= k) s = Fault e.
Proof. unfold twp, mbind, M_bind. by destruct (m s) as [[a s']|]. Qed.

(** Stepping through a run by equations. *)
Lemma bind_run m (k : A → M S B) a s s' : m s = Ok (a, s') → (m ≫= k) s = k a s'.
Proof. intros E. unfold mbind, M_bind. by rewrite E. Qed.
Lemma lift_run (o : outcome A) (k : A → M S B) a s : o = Ok a → (lift o ≫= k) s = k a s.
Proof. by intros ->. Qed.
Lemma lift_fault (o : outcome A) (k : A → M S B) e s : o = Fault e → (lift o ≫= k) s = Fault e.
Proof. by intros ->. Qed.
End Twp.
