(* ===== verification/CString.v ===== *)
(** * C strings

    The functions of <string.h>, <stdlib.h> and <stdio.h> the sources use on
    NUL-terminated strings.  Memory is the list of bytes from a pointer to the
    end of the object; a scan that meets the end before a terminator is a
    fault.  [char] is unsigned on this target. *)

From S2P Require Import Prelude.

(** The string at the head of the memory [l]. *)
Fixpoint cstr (l : list Z) : outcome (list Z) :=
  match l with
  | [] => Fault OobRead
  | c :: l => if c =? 0 then Ok [] else s ← cstr l; Ok (c :: s)
  end.

Definition cstr_at (b : list Z) (off : Z) : outcome (list Z) :=
  if decide (0 ≤ off) then cstr (drop (Z.to_nat off) b) else Fault OobRead.

(** [strcat(b, s)]: [s] is the source string. *)
Definition strcat (b s : list Z) : outcome (list Z) :=
  d ← cstr b; store_bytes b (zlen d) (s ++ [0]).

(** [strcpy(b, s)] *)
Definition strcpy (b s : list Z) : outcome (list Z) := store_bytes b 0 (s ++ [0]).

(** [strncmp] of two areas of memory: it stops at a difference, at a
    terminator or after [n] bytes. *)
Fixpoint strncmp (n : nat) (l1 l2 : list Z) : outcome Z :=
  match n with
  | O => Ok 0
  | S n =>
      match l1, l2 with
      | c1 :: l1, c2 :: l2 =>
          if negb (c1 =? c2) then Ok (c1 - c2)
          else if c1 =? 0 then Ok 0 else strncmp n l1 l2
      | _, _ => Fault OobRead
      end
  end.

(** [strcmp] of two strings is zero. *)
Definition streq (s1 s2 : list Z) : bool := bool_decide (s1 = s2).

(** [strchr]: offset of the first [c] before the terminator. *)
Fixpoint strchr (l : list Z) (c : Z) : outcome (option Z) :=
  match l with
  | [] => Fault OobRead
  | x :: l => if x =? c then Ok (Some 0) else if x =? 0 then Ok None
              else o ← strchr l c; Ok (option_map Z.succ o)
  end.

(** [strrchr] on a string without its terminator: offset of the last [c]. *)
Fixpoint strrchr (s : list Z) (c : Z) : option Z :=
  match s with
  | [] => None
  | x :: s => match strrchr s c with
              | Some i => Some (i + 1)
              | None => if x =? c then Some 0 else None
              end
  end.

(** Decimal digits, at most [fuel] of them; an [unsigned int] has ten. *)
Fixpoint dec_digits (fuel : nat) (n : Z) : list Z :=
  match fuel with
  | O => []
  | S fuel => (if n <? 10 then [] else dec_digits fuel (n / 10)) ++ [48 + n mod 10]
  end.
Definition udec (n : Z) : list Z := dec_digits 10 n.

(** [snprintf(b + off, size, "%u", n)] *)
Definition snprintf_u (b : list Z) (off size n : Z) : outcome (list Z) :=
  if size =? 0 then Ok b
  else store_bytes b off (take (Z.to_nat (size - 1)) (udec n) ++ [0]).

(** The text ["%d"] prints. *)
Definition sdec (n : Z) : list Z := if n <? 0 then 45 :: udec (- n) else udec n.

(** The string in a buffer of [size] bytes after [snprintf(b, size, ...)] of a
    text. *)
Definition snprintf_str (size : Z) (text : list Z) : list Z := take (Z.to_nat (size - 1)) text.

(** A [double]: [(-1)^s * m * 2^e], an infinity or a NaN with its sign bit. *)
Inductive double :=
| Finite (s : bool) (m e : Z)
| Infinity (s : bool)
| NaN (s : bool).

(** [n / d] rounded to the nearest integer, ties to even: the rounding of the
    last digit printed. *)
Definition div_even (n d : Z) : Z :=
  let q := n / d in
  let r := n mod d in
  if 2 * r <? d then q else if d <? 2 * r then q + 1 else if Z.even q then q else q + 1.

Definition digits (n : Z) : list Z := dec_digits (S (Z.to_nat (Z.log2 n))) n.

(** The text ["%2.3f"] prints: it is never shorter than the field width. *)
Definition fixed3 (x : double) : list Z :=
  let sign (s : bool) := if s then [45] else [] in
  match x with
  | Finite s m e =>
      let n := div_even (m * 1000 * 2 ^ Z.max 0 e) (2 ^ Z.max 0 (- e)) in
      sign s ++ digits (n / 1000) ++
      [46; 48 + n mod 1000 / 100; 48 + n mod 100 / 10; 48 + n mod 10]
  | Infinity s => sign s ++ bytes "inf"
  | NaN s => sign s ++ bytes "nan"
  end.

Definition is_digit (c : Z) : bool := (48 <=? c) && (c <=? 57).
Definition is_space (c : Z) : bool := (c =? 32) || ((9 <=? c) && (c <=? 13)).

Definition ULONG_MAX : Z := 4294967295.

(** The digits of [strtoul] in base 10: value (saturated) and count. *)
Fixpoint digits_value (s : list Z) (v n : Z) : Z * Z :=
  match s with
  | c :: s => if is_digit c then digits_value s (v * 10 + (c - 48)) (n + 1) else (v, n)
  | [] => (v, n)
  end.

(** White space and sign in front of the digits: what is skipped and whether the
    value is negated. *)
Fixpoint skip_space (s : list Z) (n : Z) : list Z * Z :=
  match s with
  | c :: s' => if is_space c then skip_space s' (n + 1) else (s, n)
  | [] => ([], n)
  end.

(** [strtoul(s, &end, 10)]: the value and the offset of [end]. *)
Definition strtoul (s : list Z) : Z * Z :=
  let '(s1, n1) := skip_space s 0 in
  let '(neg, s2, n2) := match s1 with
    | c :: s' => if c =? 45 then (true, s', n1 + 1) else if c =? 43 then (false, s', n1 + 1)
                 else (false, s1, n1)
    | [] => (false, s1, n1)
    end in
  let '(v, k) := digits_value s2 0 0 in
  if k =? 0 then (0, 0)
  else if ULONG_MAX <? v then (ULONG_MAX, n2 + k)
  else (if neg : bool then u32 (- v) else v, n2 + k).

(** ** Facts *)

Lemma cstr_app s rest : is_cstring s → cstr (s ++ 0 :: rest) = Ok s.
Proof.
  induction 1 as [|c s Hc _ IH]; cbn; [done|].
  rewrite (proj2 (Z.eqb_neq c 0)) by lia. by rewrite IH.
Qed.

(** [strcat] onto a string in a buffer with [rest] behind its terminator. *)
Lemma strcat_app s d rest :
  is_cstring s →
  strcat (s ++ 0 :: rest) d =
  if zlen d <=? zlen rest then Ok ((s ++ d) ++ 0 :: drop (length d) rest) else Fault OobWrite.
Proof.
  intros Hs. unfold strcat. rewrite cstr_app by done. cbn [mbind outcome_bind].
  destruct (Z.leb_spec (zlen d) (zlen rest)).
  - rewrite <- (take_drop (length d) rest) at 1.
    change (s ++ 0 :: take (length d) rest ++ drop (length d) rest) with
      (s ++ (0 :: take (length d) rest) ++ drop (length d) rest).
    rewrite store_bytes_app by (cbn [length]; rewrite length_app, length_take; cbn; lia).
    by rewrite <- !app_assoc.
  - apply store_bytes_oob. rewrite !length_app. cbn [length]. lia.
Qed.

Lemma is_cstring_app s d : is_cstring (s ++ d) ↔ is_cstring s ∧ is_cstring d.
Proof. apply Forall_app. Qed.

Lemma strchr_app s c rest :
  Forall (λ x, x ≠ 0 ∧ x ≠ c) s → strchr (s ++ c :: rest) c = Ok (Some (zlen s)).
Proof.
  induction 1 as [|x s [Hx Hc] _ IH]; cbn [app strchr]; [by rewrite Z.eqb_refl|].
  rewrite (proj2 (Z.eqb_neq x c)), (proj2 (Z.eqb_neq x 0)) by done. rewrite IH.
  cbn [mbind outcome_bind option_map length]. do 2 f_equal. lia.
Qed.

Lemma strncmp_prefix s rest1 rest2 : is_cstring s → strncmp (length s) (s ++ rest1) (s ++ rest2) = Ok 0.
Proof.
  induction 1 as [|c s Hc _ IH]; cbn [length strncmp app]; [done|].
  rewrite Z.eqb_refl, (proj2 (Z.eqb_neq c 0)) by lia. exact IH.
Qed.

Lemma strncmp_fault n l1 l2 : strncmp n l1 l2 ≠ Fault OutOfFuel.
Proof. revert l1 l2. induction n; intros [|] [|]; cbn; repeat case_match; by auto. Qed.

(** Comparison of as many bytes as a string has with another area. *)
Lemma strncmp_equal s d rest1 rest2 :
  is_cstring s → length d = length s →
  ∃ r, strncmp (length s) (d ++ rest1) (s ++ rest2) = Ok r ∧ (r = 0 ↔ d = s).
Proof.
  intros Hs. revert d. induction Hs as [|c s Hc _ IH]; intros [|x d] Hd; try done; cbn [length strncmp app].
  { by exists 0. }
  destruct (Z.eqb_spec x c) as [->|Hne]; cbn [negb].
  - rewrite (proj2 (Z.eqb_neq c 0)) by lia. destruct (IH d ltac:(cbn in Hd; lia)) as (r & E & Hr).
    exists r. split; [done|]. rewrite Hr. split; [by intros ->|by intros [=]].
  - exists (x - c). split; [done|]. split; [lia|]. by intros [=].
Qed.

Lemma strrchr_none s c : Forall (λ x, x ≠ c) s → strrchr s c = None.
Proof.
  induction 1 as [|x s Hx _ IH]; cbn; [done|]. by rewrite IH, (proj2 (Z.eqb_neq x c)).
Qed.

Lemma strrchr_app s c t : Forall (λ x, x ≠ c) t → strrchr (s ++ c :: t) c = Some (zlen s).
Proof.
  intros Ht. induction s as [|x s IH]; cbn [app strrchr].
  - by rewrite strrchr_none, Z.eqb_refl.
  - rewrite IH. f_equal. cbn [length]. lia.
Qed.

(** ** Decimal numbers *)

Lemma dec_digits_digit fuel n : 0 ≤ n → Forall (λ c, 48 ≤ c ≤ 57) (dec_digits fuel n).
Proof.
  revert n. induction fuel as [|fuel IH]; intros n Hn; cbn [dec_digits]; [constructor|].
  apply Forall_app. split.
  - destruct (n <? 10); [constructor|]. apply IH, Z.div_pos; lia.
  - repeat constructor; pose proof (Z.mod_pos_bound n 10 ltac:(lia)); lia.
Qed.

Lemma udec_cstring n : 0 ≤ n → is_cstring (udec n).
Proof.
  intros Hn. apply (Forall_impl _ _ _ (dec_digits_digit 10 n Hn)). cbn. lia.
Qed.

Lemma digits_value_app s t v n :
  Forall (λ c, 48 ≤ c ≤ 57) s →
  digits_value (s ++ t) v n =
  digits_value t (fold_left (λ v c, v * 10 + (c - 48)) s v) (n + zlen s).
Proof.
  intros Hs. revert v n. induction Hs as [|c s Hc _ IH]; intros v n; cbn [app digits_value fold_left length].
  { by rewrite Z.add_0_r. }
  unfold is_digit. rewrite !(proj2 (Z.leb_le _ _)) by lia. cbn [andb]. rewrite IH. f_equal. lia.
Qed.

Lemma fold_dec_digits fuel n v :
  0 ≤ n < 10 ^ Z.of_nat fuel → (0 < fuel)%nat →
  fold_left (λ v c, v * 10 + (c - 48)) (dec_digits fuel n) v =
  v * 10 ^ zlen (dec_digits fuel n) + n.
Proof.
  revert n. induction fuel as [|fuel IH]; intros n Hn Hf; [lia|]. cbn [dec_digits].
  rewrite fold_left_app, length_app. cbn [fold_left length].
  pose proof (Z.div_mod n 10 ltac:(lia)). pose proof (Z.mod_pos_bound n 10 ltac:(lia)).
  destruct (Z.ltb_spec n 10) as [Hs|Hs].
  - cbn [fold_left length]. rewrite Z.mod_small in * by lia. change (10 ^ Z.of_nat (0 + 1)) with 10. lia.
  - rewrite Nat2Z.inj_succ, Z.pow_succ_r in Hn by lia.
    assert (n / 10 < 10 ^ Z.of_nat fuel) by (apply Z.div_lt_upper_bound; lia).
    destruct fuel as [|fuel]; [cbn in *; lia|]. rewrite IH by lia.
    rewrite Nat2Z.inj_add, Z.pow_add_r by lia. change (10 ^ Z.of_nat 1) with 10. lia.
Qed.

Lemma dec_digits_length fuel n : (0 < fuel)%nat → (0 < length (dec_digits fuel n) ≤ fuel)%nat.
Proof.
  revert n. induction fuel as [|fuel IH]; intros n Hf; [lia|]. cbn [dec_digits]. rewrite length_app.
  destruct (n <? 10); cbn [length]; [lia|]. destruct fuel; [cbn; lia|].
  specialize (IH (n / 10) ltac:(lia)). lia.
Qed.

(** A decimal number has no leading zero, unless it is zero. *)
Lemma dec_digits_head fuel n :
  0 < n < 10 ^ Z.of_nat fuel → ∃ c t, dec_digits fuel n = c :: t ∧ 49 ≤ c ≤ 57.
Proof.
  revert n. induction fuel as [|fuel IH]; intros n Hn; [cbn in Hn; lia|]. cbn [dec_digits].
  pose proof (Z.div_mod n 10 ltac:(lia)). pose proof (Z.mod_pos_bound n 10 ltac:(lia)).
  destruct (Z.ltb_spec n 10) as [Hs|Hs].
  - rewrite Z.mod_small by lia. eexists _, _. split; [done|]. lia.
  - rewrite Nat2Z.inj_succ, Z.pow_succ_r in Hn by lia.
    destruct (IH (n / 10)) as (c & t & -> & Hc).
    { split; [lia|]. apply Z.div_lt_upper_bound; lia. }
    eexists _, _. split; [done|done].
Qed.

(** [strtoul] reads back what ["%u"] printed. *)
Lemma strtoul_udec n : 0 ≤ n ≤ ULONG_MAX → strtoul (udec n) = (n, zlen (udec n)).
Proof.
  intros Hn. unfold ULONG_MAX in Hn. pose proof (dec_digits_digit 10 n ltac:(lia)) as Hd.
  pose proof (dec_digits_length 10 n ltac:(lia)) as Hl.
  pose proof (digits_value_app (udec n) [] 0 0 Hd) as Hv. rewrite app_nil_r in Hv.
  unfold udec in *. rewrite fold_dec_digits in Hv by (cbn; lia).
  cbn [digits_value] in Hv. unfold strtoul.
  destruct (dec_digits 10 n) as [|c t]; [cbn in Hl; lia|].
  inversion Hd as [|? ? Hc _]; subst. cbn [skip_space].
  unfold is_space. rewrite !(proj2 (Z.eqb_neq _ _)), (proj2 (Z.leb_gt c 13)) by lia.
  rewrite andb_false_r. cbn [orb]. rewrite !(proj2 (Z.eqb_neq _ _)) by lia. rewrite Hv.
  rewrite (proj2 (Z.eqb_neq _ _)) by (cbn [length]; lia).
  rewrite (proj2 (Z.ltb_ge _ _)) by (unfold ULONG_MAX; lia). f_equal; lia.
Qed.

(** ** Printed texts are C strings *)

Lemma snprintf_str_cstring size s : is_cstring s → is_cstring (snprintf_str size s).
Proof. apply Forall_take. Qed.

Lemma sdec_cstring n : is_cstring (sdec n).
Proof.
  unfold sdec. destruct (Z.ltb_spec n 0); [constructor; [lia|]|]; apply udec_cstring; lia.
Qed.

Lemma sign_cstring (s : bool) : is_cstring (if s then [45] else []).
Proof. destruct s; decide_vm. Qed.

Lemma div_even_pos n d : 0 ≤ n → 0 < d → 0 ≤ div_even n d.
Proof. intros. unfold div_even. pose proof (Z.div_pos n d). repeat split_guard; lia. Qed.

Lemma fraction_cstring n :
  is_cstring [46; 48 + n mod 1000 / 100; 48 + n mod 100 / 10; 48 + n mod 10].
Proof.
  pose proof (Z.mod_pos_bound n 1000). pose proof (Z.mod_pos_bound n 100).
  pose proof (Z.mod_pos_bound n 10).
  pose proof (Z.div_pos (n mod 1000) 100). pose proof (Z.div_pos (n mod 100) 10).
  pose proof (Z.div_lt_upper_bound (n mod 1000) 100 10).
  pose proof (Z.div_lt_upper_bound (n mod 100) 10 10).
  repeat constructor; lia.
Qed.

(** The mantissa of a [double] is not negative. *)
Definition double_ok (x : double) : Prop :=
  match x with Finite _ m _ => 0 ≤ m | _ => True end.

Lemma fixed3_cstring x : double_ok x → is_cstring (fixed3 x).
Proof.
  intros Hx. destruct x as [s m e|s|s]; unfold fixed3; cbn zeta.
  2, 3: apply is_cstring_app; split; [apply sign_cstring|decide_vm].
  cbn in Hx. assert (0 ≤ div_even (m * 1000 * 2 ^ Z.max 0 e) (2 ^ Z.max 0 (- e))) as Hn.
  { apply div_even_pos; [apply Z.mul_nonneg_nonneg|]; lia. }
  revert Hn. generalize (div_even (m * 1000 * 2 ^ Z.max 0 e) (2 ^ Z.max 0 (- e))). intros n Hn.
  apply is_cstring_app. split; [apply sign_cstring|]. apply is_cstring_app.
  split; [|apply fraction_cstring].
  apply (Forall_impl (λ c, 48 ≤ c ≤ 57)); [|cbn; lia]. apply dec_digits_digit, Z.div_pos; lia.
Qed.

Example fixed3_ex1 : fixed3 (Finite true 1 (-3)) = bytes "-0.125".
Proof. reflexivity. Qed.
Example fixed3_ex2 : fixed3 (Finite false 6755399441055744 (-48)) = bytes "24.000".
Proof. reflexivity. Qed.
Example fixed3_ex3 : fixed3 (Finite false 1 (-4)) = bytes "0.062".
Proof. reflexivity. Qed.
