(* ===== verification/TopicFilter.v ===== *)
(** * Topic filters

    The matching of a topic name against a filter with wildcards, which the
    sources contain twice: [isTopicMatched] of MQTTClient.c and [topicMatches]
    of CayenneUtils.c. *)

From S2P Require Import Prelude.

(** ** MQTTClient.c *)

(** ["/"], ["+"] and ["#"] *)
Definition SLASH : Z := 47.
Definition PLUS : Z := 43.
Definition HASH : Z := 35.

(** Up to the next separator: the inner loop of [isTopicMatched]. *)
Fixpoint skip_level (n : list Z) : list Z :=
  match n with
  | [] => []
  | c :: n' => if c =? SLASH then n else skip_level n'
  end.

(** [f] is the filter from [curf] on, [n] the topic name from [curn] to
    [curn_end]. *)
Fixpoint isTopicMatched (f n : list Z) : bool :=
  match f, n with
  | [], [] => true
  | [], _ :: _ => false
  | _ :: _, [] => false
  | cf :: f', cn :: n' =>
      if (cn =? SLASH) && negb (cf =? SLASH) then false
      else if negb (cf =? PLUS) && negb (cf =? HASH) && negb (cf =? cn) then false
      else if cf =? PLUS then isTopicMatched f' (skip_level n')
      else if cf =? HASH then isTopicMatched f' []
      else isTopicMatched f' n'
  end.

(** ** CayenneUtils.c *)

(** The inner loop for ["+"]: [curn] moves up to the byte before the next
    separator or before [curn_end].  A round reads one byte of [mem], so its
    length is enough fuel. *)
Fixpoint skip_plus (fuel : nat) (mem : list Z) (curn curn_end : Z) : outcome Z :=
  let nextpos := curn + 1 in
  if nextpos <? curn_end then
    match fuel with
    | O => Fault OutOfFuel
    | S fuel =>
        c ← load mem nextpos;
        if c =? SLASH then Ok curn else skip_plus fuel mem (curn + 1) curn_end
    end
  else Ok curn.

(** [curf] is the rest of the filter; [mem] the memory the topic name lies in. *)
Fixpoint topic_matches (curf mem : list Z) (curn curn_end : Z) : outcome bool :=
  match curf with
  | [] => Ok (curn =? curn_end)
  | cf :: curf' =>
      if curn <? curn_end then
        cn ← load mem curn;
        if (cn =? SLASH) && negb (cf =? SLASH) then Ok false
        else if negb (cf =? PLUS) && negb (cf =? HASH) && negb (cf =? cn) then Ok false
        else if cf =? PLUS then
          curn ← skip_plus (length mem) mem curn curn_end;
          topic_matches curf' mem (curn + 1) curn_end
        else if cf =? HASH then topic_matches curf' mem curn_end curn_end
        else topic_matches curf' mem (curn + 1) curn_end
      else Ok false
  end.

(** The end of the topic name has to lie in the same object as its start. *)
Definition topicMatches (filter mem : list Z) (topicName topicNameLen : Z) : outcome bool :=
  if decide (0 ≤ topicName ∧ topicName + topicNameLen ≤ zlen mem)
  then topic_matches filter mem topicName (topicName + topicNameLen)
  else Fault OobRead.

(** ** The two are the same function *)

Lemma skip_plus_level t : ∀ fuel pre c post,
  (length t ≤ fuel)%nat →
  ∃ u, t = u ++ skip_level t ∧
    skip_plus fuel (pre ++ c :: t ++ post) (zlen pre) (zlen pre + 1 + zlen t) =
    Ok (zlen pre + zlen u).
Proof.
  induction t as [|x t IH]; intros fuel pre c post Hf; cbn [skip_level length] in *.
  - exists []. split; [done|]. destruct fuel; cbn [skip_plus];
      rewrite (proj2 (Z.ltb_ge _ _)) by (cbn; lia); cbn [length]; by rewrite Z.add_0_r.
  - destruct fuel as [|fuel]; [lia|]. cbn [skip_plus]. rewrite (proj2 (Z.ltb_lt _ _)) by lia.
    pose proof (load_app (pre ++ [c]) x (t ++ post)) as Hl. rewrite length_app, <- app_assoc in Hl.
    cbn [app length] in *. replace (Z.of_nat (length pre + 1)) with (zlen pre + 1) in Hl by lia.
    rewrite Hl. cbn [mbind outcome_bind].
    destruct (Z.eqb_spec x SLASH); [exists []; split; [done|]; cbn [length]; by rewrite Z.add_0_r|].
    destruct (IH fuel (pre ++ [c]) x post ltac:(lia)) as (u & Hu & E).
    exists (x :: u). split; [by rewrite Hu at 1|].
    rewrite length_app, <- app_assoc in E. cbn [app length] in *.
    replace (Z.of_nat (length pre + 1)) with (zlen pre + 1) in E by lia.
    replace (zlen pre + 1 + Z.of_nat (S (length t))) with (zlen pre + 1 + 1 + zlen t) by lia.
    rewrite E. f_equal. lia.
Qed.

Lemma topic_matches_name f : ∀ pre name post,
  topic_matches f (pre ++ name ++ post) (zlen pre) (zlen pre + zlen name) =
  Ok (isTopicMatched f name).
Proof.
  induction f as [|cf f IH]; intros pre name post; cbn [topic_matches isTopicMatched].
  { destruct name; cbn [length]; f_equal; [by rewrite Z.add_0_r, Z.eqb_refl|].
    rewrite (proj2 (Z.eqb_neq _ _)) by lia. done. }
  destruct name as [|cn name]; cbn [length].
  { by rewrite (proj2 (Z.ltb_ge _ _)) by (cbn; lia). }
  rewrite (proj2 (Z.ltb_lt _ _)) by lia. cbn [app]. rewrite load_app. cbn [mbind outcome_bind].
  destruct ((cn =? SLASH) && negb (cf =? SLASH)); [done|].
  destruct (negb (cf =? PLUS) && negb (cf =? HASH) && negb (cf =? cn)); [done|].
  destruct (cf =? PLUS).
  - destruct (skip_plus_level name (length (pre ++ cn :: name ++ post)) pre cn post)
      as (u & Hu & E); [rewrite length_app; cbn [length]; rewrite length_app; lia|].
    replace (zlen pre + Z.of_nat (S (length name))) with (zlen pre + 1 + zlen name) by lia.
    rewrite E. cbn [mbind outcome_bind]. specialize (IH (pre ++ cn :: u) (skip_level name) post).
    rewrite <- app_assoc, length_app in IH. cbn [app length] in IH. rewrite (app_assoc u), <- Hu in IH.
    rewrite <- IH. assert (length name = (length u + length (skip_level name))%nat) as Hn
      by (rewrite <- length_app; by rewrite <- Hu).
    f_equal; lia.
  - destruct (cf =? HASH).
    + specialize (IH (pre ++ cn :: name) [] post). rewrite <- app_assoc, length_app in IH.
      cbn [app length] in IH. rewrite <- IH. f_equal; lia.
    + specialize (IH (pre ++ [cn]) name post). rewrite <- app_assoc, length_app in IH.
      cbn [app length] in IH. rewrite <- IH. f_equal; lia.
Qed.

(** ** What a filter means *)

(** Levels joined by separators; the functions work on the joined text. *)
Fixpoint join (ls : list (list Z)) : list Z :=
  match ls with
  | [] => []
  | [l] => l
  | l :: ls => l ++ SLASH :: join ls
  end.

(** A level of a topic name, and one of a filter: a text without wildcards, a
    ["+"], or a ["#"] in the last place. *)
Definition name_level (l : list Z) : Prop := Forall (λ c, c ≠ SLASH) l.
Definition text_level (l : list Z) : Prop := Forall (λ c, c ≠ SLASH ∧ c ≠ PLUS ∧ c ≠ HASH) l.

Fixpoint filter_ok (fs : list (list Z)) : Prop :=
  match fs with
  | [] => True
  | [l] => text_level l ∨ l = [PLUS] ∨ l = [HASH]
  | l :: fs => (text_level l ∨ l = [PLUS]) ∧ filter_ok fs
  end.

(** Level by level: a text stands for itself, ["+"] for any level that is not
    empty, ["#"] for the rest of the name if the level in its place is not
    empty. *)
Fixpoint levels_match (fs ns : list (list Z)) : bool :=
  match fs, ns with
  | [], [] => true
  | f :: fs', n :: ns' =>
      if bool_decide (f = [HASH]) then bool_decide (n ≠ [])
      else (if bool_decide (f = [PLUS]) then bool_decide (n ≠ []) else bool_decide (f = n)) &&
           levels_match fs' ns'
  | _, _ => false
  end.

(** What follows a level: nothing, or a separator and the next levels. *)
Definition tail_of (ls : list (list Z)) : list Z :=
  match ls with [] => [] | _ => SLASH :: join ls end.

Lemma join_cons l ls : join (l :: ls) = l ++ tail_of ls.
Proof. destruct ls; cbn; [by rewrite app_nil_r|done]. Qed.

Lemma match_text l F n G :
  text_level l → name_level n →
  (F = [] ∨ ∃ F', F = SLASH :: F') → (G = [] ∨ ∃ G', G = SLASH :: G') →
  isTopicMatched (l ++ F) (n ++ G) = bool_decide (l = n) && isTopicMatched F G.
Proof.
  intros Hl. revert n. induction Hl as [|c l (H1 & H2 & H3) _ IH]; intros n Hn HF HG; cbn [app].
  - destruct n as [|x n]; [by rewrite bool_decide_eq_true_2|].
    rewrite bool_decide_eq_false_2 by done. inversion Hn; subst.
    destruct HF as [->|[F' ->]]; cbn [isTopicMatched app]; [done|].
    rewrite (proj2 (Z.eqb_neq x SLASH)), (proj2 (Z.eqb_neq SLASH x)) by done. done.
  - destruct n as [|x n]; cbn [app].
    + rewrite bool_decide_eq_false_2 by done. destruct HG as [->|[G' ->]]; cbn [isTopicMatched]; [done|].
      rewrite Z.eqb_refl, (proj2 (Z.eqb_neq c SLASH)) by done. done.
    + inversion Hn; subst. cbn [isTopicMatched].
      rewrite (proj2 (Z.eqb_neq x SLASH)), (proj2 (Z.eqb_neq c PLUS)), (proj2 (Z.eqb_neq c HASH)) by done.
      cbn [andb negb]. destruct (Z.eqb_spec c x) as [->|Hc]; cbn [negb].
      * rewrite IH by done. f_equal. apply bool_decide_ext. split; congruence.
      * rewrite bool_decide_eq_false_2; [done|congruence].
Qed.

Lemma skip_level_name n G : name_level n → (G = [] ∨ ∃ G', G = SLASH :: G') → skip_level (n ++ G) = G.
Proof.
  intros Hn HG. induction Hn as [|c n Hc _ IH]; cbn [app skip_level].
  - by destruct HG as [->|[G' ->]].
  - by rewrite (proj2 (Z.eqb_neq c SLASH)).
Qed.

Lemma match_plus F n G :
  name_level n → (G = [] ∨ ∃ G', G = SLASH :: G') →
  isTopicMatched (PLUS :: F) (n ++ G) = bool_decide (n ≠ []) && isTopicMatched F G.
Proof.
  intros Hn HG. destruct n as [|x n]; cbn [app].
  - rewrite bool_decide_eq_false_2 by (by intros []). by destruct HG as [->|[G' ->]].
  - rewrite bool_decide_eq_true_2 by done. inversion Hn; subst. cbn [isTopicMatched].
    rewrite (proj2 (Z.eqb_neq x SLASH)) by done. cbn [andb negb Z.eqb PLUS Pos.eqb].
    by rewrite skip_level_name.
Qed.

Lemma tail_of_shape ls : tail_of ls = [] ∨ ∃ G', tail_of ls = SLASH :: G'.
Proof. destruct ls; [by left|right]. by eexists. Qed.

Lemma isTopicMatched_levels fs ns :
  fs ≠ [] → ns ≠ [] → filter_ok fs → Forall name_level ns →
  isTopicMatched (join fs) (join ns) = levels_match fs ns.
Proof.
  intros Hfs Hns Hok Hn. revert ns Hns Hn. induction fs as [|f fs IH]; intros ns Hns Hn; [done|].
  destruct ns as [|n ns]; [done|]. inversion Hn as [|? ? Hn1 Hn2]; subst.
  rewrite !join_cons. cbn [levels_match].
  assert (Hrest : fs ≠ [] ∨ ns = [] ∨ fs = [] ∧ ns ≠ []) by (destruct fs, ns; auto).
  assert (Htail : filter_ok fs → isTopicMatched (tail_of fs) (tail_of ns) = levels_match fs ns).
  { intros Hok'. destruct fs as [|f2 fs]; destruct ns as [|n2 ns]; try done.
    change (tail_of (f2 :: fs)) with (SLASH :: join (f2 :: fs)).
    change (tail_of (n2 :: ns)) with (SLASH :: join (n2 :: ns)).
    cbn [isTopicMatched]. rewrite Z.eqb_refl. cbn [negb andb Z.eqb SLASH PLUS HASH Pos.eqb].
    by apply IH. }
  pose proof (tail_of_shape fs). pose proof (tail_of_shape ns).
  assert (Hcase : f = [HASH] ∧ fs = [] ∨ (text_level f ∨ f = [PLUS]) ∧ filter_ok fs).
  { destruct fs; [destruct Hok as [?|[?|?]]; [right|right|left]; split; by auto|]. right. by destruct Hok. }
  destruct Hcase as [[-> ->]|[[Ht| ->] Hok']].
  - rewrite bool_decide_eq_true_2 by done. cbn [tail_of app].
    destruct n as [|x n]; cbn [app].
    + rewrite bool_decide_eq_false_2 by (by intros []). by destruct ns.
    + rewrite bool_decide_eq_true_2 by done. inversion Hn1; subst. cbn [isTopicMatched].
      rewrite (proj2 (Z.eqb_neq x SLASH)) by done. done.
  - rewrite match_text by done. rewrite Htail by done.
    assert (f ≠ [HASH]) by (intros ->; inversion Ht as [|? ? (_ & _ & ?) _]; done).
    assert (f ≠ [PLUS]) by (intros ->; inversion Ht as [|? ? (_ & ? & _) _]; done).
    by rewrite (bool_decide_eq_false_2 (f = [HASH])), (bool_decide_eq_false_2 (f = [PLUS])).
  - rewrite (bool_decide_eq_false_2 ([PLUS] = [HASH])), (bool_decide_eq_true_2 ([PLUS] = [PLUS])) by done.
    cbn [app]. rewrite match_plus by done. by rewrite Htail.
Qed.

(** Topic filters mean what MQTT says level by level: for a well-formed
    filter (["+"] a level of its own, ["#"] the last one) and a topic name of
    any number of levels lying anywhere in memory, both [topicMatches] and
    [isTopicMatched] return the level-wise match, in which ["+"] stands for one
    level and ["#"] for the rest.  Unlike the standard, neither wildcard matches
    an empty level, and "a/#" does not match "a". *)
Theorem topic_filters_levels (fs ns : list (list Z)) (pre post : list Z) :
  fs ≠ [] → ns ≠ [] → filter_ok fs → Forall name_level ns →
  topicMatches (join fs) (pre ++ join ns ++ post) (zlen pre) (zlen (join ns)) =
    Ok (levels_match fs ns) ∧
  isTopicMatched (join fs) (join ns) = levels_match fs ns.
Proof.
  intros. split; [|by apply isTopicMatched_levels].
  unfold topicMatches. rewrite decide_True by (rewrite !length_app; lia).
  by rewrite topic_matches_name, isTopicMatched_levels.
Qed.

Lemma topic_filters_levels_witness :
  topicMatches (bytes "cmd/+") ([1; 2] ++ bytes "cmd/17" ++ [3]) 2 6 = Ok true ∧
  isTopicMatched (bytes "cmd/+") (bytes "cmd/17") = true.
Proof.
  apply (topic_filters_levels [bytes "cmd"; [PLUS]] [bytes "cmd"; bytes "17"] [1; 2] [3]);
    [done|done| |decide_vm].
  split; [left|right; by left]. unfold text_level. decide_vm.
Defined.
