(* ===== verification/MQTTPacket.v ===== *)
(** * MQTTPacket.c: the primitives of the MQTT wire format

    Models [src/main/src/MQTTCommon/MQTTPacket.c] and the types of
    [MQTTPacket.h]: the remaining-length field, the readers and writers that
    move a pointer through a packet buffer, MQTT strings, and the blocking and
    non-blocking packet readers.  A pointer into a buffer is an offset; an
    access outside the buffer is a fault. *)

From S2P Require Import Prelude CString.

(** ** Constants *)

Definition MQTTPACKET_BUFFER_TOO_SHORT : Z := -2.
Definition MQTTPACKET_READ_ERROR : Z := -1.
Definition MQTTPACKET_READ_COMPLETE : Z := 0.

Definition CONNECT_MSG : Z := 1.
Definition CONNACK_MSG : Z := 2.
Definition PUBLISH_MSG : Z := 3.
Definition PUBACK_MSG : Z := 4.
Definition PUBREC_MSG : Z := 5.
Definition PUBREL_MSG : Z := 6.
Definition PUBCOMP_MSG : Z := 7.
Definition SUBSCRIBE_MSG : Z := 8.
Definition SUBACK_MSG : Z := 9.
Definition UNSUBSCRIBE_MSG : Z := 10.
Definition UNSUBACK_MSG : Z := 11.
Definition PINGREQ_MSG : Z := 12.
Definition PINGRESP_MSG : Z := 13.
Definition DISCONNECT_MSG : Z := 14.

(** ** The header byte: [retain] is bit 0, [qos] bits 1-2, [dup] bit 3 and
    [type] bits 4-7 (the layout of the union without [REVERSED]). *)

Definition header_retain (b : Z) : Z := bits_get 0 1 b.
Definition header_qos (b : Z) : Z := bits_get 1 2 b.
Definition header_dup (b : Z) : Z := bits_get 3 1 b.
Definition header_type (b : Z) : Z := bits_get 4 4 b.

Definition set_header_retain (v b : Z) : Z := bits_set 0 1 v b.
Definition set_header_qos (v b : Z) : Z := bits_set 1 2 v b.
Definition set_header_dup (v b : Z) : Z := bits_set 3 1 v b.
Definition set_header_type (v b : Z) : Z := bits_set 4 4 v b.

(** ** Strings: [P] is the representation of the [data] pointer, the bytes it
    points to in a string that is sent, an offset in one that was received. *)

Record MQTTLenString (P : Type) := { len : Z; data : option P }.
Record MQTTString (P : Type) := { cstring : option (list Z); lenstring : MQTTLenString P }.
Arguments len {P}. Arguments data {P}.
Arguments cstring {P}. Arguments lenstring {P}.
Arguments Build_MQTTLenString {P}. Arguments Build_MQTTString {P}.

Definition MQTTString_initializer {P} : MQTTString P :=
  Build_MQTTString None (Build_MQTTLenString 0 None).

(** ** Remaining length *)

(** The [do]-[while] loop of [MQTTPacket_encode]; an [int] has at most five
    base-128 digits, so five rounds are enough. *)
Fixpoint encode_loop (fuel : nat) (buf : list Z) (off length rc : Z) : outcome (Z * list Z) :=
  match fuel with
  | O => Fault OutOfFuel
  | S fuel =>
      let d := u8 (Z.rem length 128) in
      let length := Z.quot length 128 in
      let d := if 0 <? length then Z.lor d 128 else d in
      buf ← store buf (off + rc) d;
      if 0 <? length then encode_loop fuel buf off length (rc + 1)
      else Ok (rc + 1, buf)
  end.

Definition MQTTPacket_encode (buf : list Z) (off length : Z) : outcome (Z * list Z) :=
  encode_loop 5 buf off length 0.

Section Decode.
Context {S : Type}.
(** [getcharfn] returns its result code, the byte it stored and the source
    after the call. *)
Variable getcharfn : S → outcome (Z * Z * S).

Definition MAX_NO_OF_REMAINING_LENGTH_BYTES : Z := 4.

Fixpoint decode_loop (fuel : nat) (s : S) (value multiplier len : Z) : outcome (Z * Z * S) :=
  match fuel with
  | O => Fault OutOfFuel
  | Datatypes.S fuel =>
      let len := len + 1 in
      if MAX_NO_OF_REMAINING_LENGTH_BYTES <? len then Ok (len, value, s) else
      '(rc, c, s) ← getcharfn s;
      if negb (rc =? 1) then Ok (len, value, s) else
      value ← chk32 (value + Z.land c 127 * multiplier);
      multiplier ← chk32 (multiplier * 128);
      if negb (Z.land c 128 =? 0) then decode_loop fuel s value multiplier len
      else Ok (len, value, s)
  end.

(** Returns the number of bytes consumed (as the code counts them), the
    decoded value and the source.  The fifth round always leaves. *)
Definition MQTTPacket_decode (s : S) : outcome (Z * Z * S) := decode_loop 5 s 0 1 0.
End Decode.

Definition MQTTPacket_len (rem_len : Z) : Z :=
  let rem_len := rem_len + 1 in
  if rem_len <? 128 then rem_len + 1
  else if rem_len <? 16384 then rem_len + 2
  else if rem_len <? 2097151 then rem_len + 3
  else rem_len + 4.

(** ** Reading through a pointer *)

Definition readChar : M rbuf Z := λ r,
  c ← load (rb_buf r) (rb_ptr r);
  Ok (c, RBuf (rb_buf r) (rb_ptr r + 1)).

Definition readInt : M rbuf Z := λ r,
  c0 ← load (rb_buf r) (rb_ptr r);
  c1 ← load (rb_buf r) (rb_ptr r + 1);
  Ok (256 * c0 + c1, RBuf (rb_buf r) (rb_ptr r + 2)).

(** [bufchar] copies [count] bytes to the same place: the last one stays. *)
Fixpoint bufchar_loop (count : nat) (c : Z) : M rbuf Z :=
  match count with
  | O => mret c
  | Datatypes.S count => c ← readChar; bufchar_loop count c
  end.

Definition bufchar (count : Z) (r : rbuf) : outcome (Z * Z * rbuf) :=
  '(c, r) ← bufchar_loop (Z.to_nat count) 0 r;
  Ok (count, c, r).

Definition MQTTPacket_decodeBuf (buf : list Z) (off : Z) : outcome (Z * Z) :=
  '(rc, value, _) ← MQTTPacket_decode (bufchar 1) (RBuf buf off);
  Ok (rc, value).

(** ** Writing through a pointer *)

Definition writeChar (c : Z) : M wbuf () := λ w,
  b ← store (wb_buf w) (wb_ptr w) (u8 c);
  Ok ((), WBuf b (wb_ptr w + 1)).

Definition writeInt (anInt : Z) : M wbuf () :=
  writeChar (Z.quot anInt 256) ;; writeChar (Z.rem anInt 256).

(** [memcpy (ptr, d, n)] followed by [ptr += n]. *)
Definition write_bytes (d : list Z) : M wbuf () := λ w,
  b ← store_bytes (wb_buf w) (wb_ptr w) d;
  Ok ((), WBuf b (wb_ptr w + zlen d)).

Definition writeCString (string : list Z) : M wbuf () :=
  writeInt (zlen string) ;; write_bytes string.

(** [ptr += MQTTPacket_encode(ptr, len)] *)
Definition write_encoded (length : Z) : M wbuf () := λ w,
  '(n, b) ← MQTTPacket_encode (wb_buf w) (wb_ptr w) length;
  Ok ((), WBuf b (wb_ptr w + n)).

Definition getLenStringLen (buf : list Z) (off : Z) : outcome Z :=
  c0 ← load buf off; c1 ← load buf (off + 1); Ok (256 * c0 + c1).

Definition writeMQTTString (s : MQTTString (list Z)) : M wbuf () :=
  if 0 <? len (lenstring s) then
    writeInt (len (lenstring s)) ;;
    match data (lenstring s) with
    | None => fail NullDeref
    | Some d => lift (load_bytes d 0 (len (lenstring s))) ≫= write_bytes
    end
  else match cstring s with
       | Some c => writeCString c
       | None => writeInt 0
       end.

(** [readMQTTLenString]: the result code and the string read. A length that
    was not read, or a text that does not fit before [enddata], leaves the
    corresponding field of the caller's structure ([old]) alone. *)
Definition readMQTTLenString (old : MQTTLenString Z) (enddata : Z) : M rbuf (Z * MQTTString Z) := λ r,
  if 1 <? enddata - rb_ptr r then
    '(n, r) ← readInt r;
    if rb_ptr r + n <=? enddata then
      Ok ((1, Build_MQTTString None (Build_MQTTLenString n (Some (rb_ptr r)))),
          RBuf (rb_buf r) (rb_ptr r + n))
    else Ok ((0, Build_MQTTString None (Build_MQTTLenString n (data old))), r)
  else Ok ((0, Build_MQTTString None old), r).

Definition MQTTstrlen {P} (s : MQTTString P) : Z :=
  match cstring s with
  | Some c => zlen c
  | None => len (lenstring s)
  end.

(** Compares an MQTT string, its [data] the memory from the pointer on, with
    the C string [b]. *)
Definition MQTTPacket_equals (a : MQTTString (list Z)) (b : list Z) : outcome bool :=
  '(aptr, alen) ← match cstring a with
    | Some c => Ok (c ++ [0], zlen c)
    | None => match data (lenstring a) with
              | Some d => Ok (d, len (lenstring a))
              | None => Ok ([], len (lenstring a))
              end
    end;
  let blen := zlen b in
  if alen =? blen then
    r ← strncmp (Z.to_nat alen) aptr (b ++ [0]);
    Ok (r =? 0)
  else Ok false.

(** ** Reading a packet from a byte source *)

(** A source of bytes: a read of [n] bytes returns the result code, the bytes
    stored in the caller's buffer and the source afterwards. *)
Class Source (S : Type) := getfn : S → Z → Z * list Z * S.

Section PacketRead.
Context {S : Type} `{!Source S}.

(** [getfn(&c, 1)] *)
Definition get1 (s : S) : outcome (Z * Z * S) :=
  let '(rc, d, s) := getfn s 1 in Ok (rc, default 0 (head d), s).

Definition MQTTPacket_read (buf : list Z) (buflen : Z) (s : S) : outcome (Z * list Z * S) :=
  let '(rc, d, s) := getfn s 1 in
  buf ← store_bytes buf 0 d;
  if negb (rc =? 1) then Ok (-1, buf, s) else
  let len := 1 in
  '(_, rem_len, s) ← MQTTPacket_decode get1 s;
  '(n, buf) ← MQTTPacket_encode buf 1 rem_len;
  let len := len + n in
  if buflen <? rem_len + len then Ok (-1, buf, s) else
  let '(rc, d, s) := getfn s rem_len in
  buf ← store_bytes buf len d;
  if negb (rc =? rem_len) then Ok (-1, buf, s) else
  byte ← load buf 0;
  Ok (header_type byte, buf, s).

(** The transport of the non-blocking reader: [getfn] returns -1 for an
    error, 0 for "call again", or the number of bytes read. *)
Record MQTTTransport := {
  sck : S; trp_multiplier : Z; trp_rem_len : Z; trp_len : Z; trp_state : Z }.

Fixpoint decodenb_loop (fuel : nat) (trp : MQTTTransport) : outcome (Z * MQTTTransport) :=
  match fuel with
  | O => Fault OutOfFuel
  | Datatypes.S fuel =>
      let '(Build_MQTTTransport s mul rem len st) := trp in
      let len := len + 1 in
      if MAX_NO_OF_REMAINING_LENGTH_BYTES <? len then
        Ok (MQTTPACKET_READ_ERROR, Build_MQTTTransport s mul rem len st) else
      '(frc, c, s) ← get1 s;
      if frc =? -1 then
        Ok (MQTTPACKET_READ_ERROR, Build_MQTTTransport s mul rem len st) else
      if frc =? 0 then Ok (0, Build_MQTTTransport s mul rem len st) else
      rem ← chk32 (rem + Z.land c 127 * mul);
      mul ← chk32 (mul * 128);
      let trp := Build_MQTTTransport s mul rem len st in
      if negb (Z.land c 128 =? 0) then decodenb_loop fuel trp else Ok (len, trp)
  end.

Definition MQTTPacket_decodenb (trp : MQTTTransport) : outcome (Z * MQTTTransport) :=
  let trp := if trp_len trp =? 0 then Build_MQTTTransport (sck trp) 1 0 0 (trp_state trp)
             else trp in
  decodenb_loop 5 trp.

Definition set_state (st : Z) (trp : MQTTTransport) : MQTTTransport :=
  Build_MQTTTransport (sck trp) (trp_multiplier trp) (trp_rem_len trp) (trp_len trp) st.

(** [exit: trp->state = 0; return rc;] *)
Definition readnb_exit (rc : Z) (buf : list Z) (trp : MQTTTransport) :
  outcome (Z * list Z * MQTTTransport) := Ok (rc, buf, set_state 0 trp).

Definition readnb_case2 (buf : list Z) (trp : MQTTTransport) :
    outcome (Z * list Z * MQTTTransport) :=
  let '(frc, d, s) := getfn (sck trp) (trp_rem_len trp) in
  buf ← store_bytes buf (trp_len trp) d;
  let trp := Build_MQTTTransport s (trp_multiplier trp) (trp_rem_len trp) (trp_len trp)
               (trp_state trp) in
  if frc =? -1 then readnb_exit (-1) buf trp else
  if frc =? 0 then Ok (0, buf, trp) else
  let trp := Build_MQTTTransport (sck trp) (trp_multiplier trp) (trp_rem_len trp - frc)
               (trp_len trp + frc) (trp_state trp) in
  if negb (trp_rem_len trp =? 0) then Ok (0, buf, trp) else
  byte ← load buf 0;
  readnb_exit (header_type byte) buf trp.

Definition readnb_case1 (buf : list Z) (buflen : Z) (trp : MQTTTransport) :
    outcome (Z * list Z * MQTTTransport) :=
  '(frc, trp) ← MQTTPacket_decodenb trp;
  if frc =? MQTTPACKET_READ_ERROR then readnb_exit (-1) buf trp else
  if frc =? 0 then Ok (0, buf, trp) else
  '(n, buf) ← MQTTPacket_encode buf 1 (trp_rem_len trp);
  let trp := Build_MQTTTransport (sck trp) (trp_multiplier trp) (trp_rem_len trp) (1 + n)
               (trp_state trp) in
  if buflen <? trp_rem_len trp + trp_len trp then readnb_exit (-1) buf trp else
  readnb_case2 buf (set_state (trp_state trp + 1) trp).

Definition readnb_case0 (buf : list Z) (buflen : Z) (trp : MQTTTransport) :
    outcome (Z * list Z * MQTTTransport) :=
  let '(frc, d, s) := getfn (sck trp) 1 in
  buf ← store_bytes buf 0 d;
  let trp := Build_MQTTTransport s (trp_multiplier trp) (trp_rem_len trp) (trp_len trp)
               (trp_state trp) in
  if frc =? -1 then readnb_exit (-1) buf trp else
  if frc =? 0 then Ok (0, buf, trp) else
  readnb_case1 buf buflen
    (Build_MQTTTransport s (trp_multiplier trp) (trp_rem_len trp) 0 (trp_state trp + 1)).

(** The [switch] falls through from one case to the next. *)
Definition MQTTPacket_readnb (buf : list Z) (buflen : Z) (trp : MQTTTransport) :
    outcome (Z * list Z * MQTTTransport) :=
  if trp_state trp =? 1 then readnb_case1 buf buflen trp
  else if trp_state trp =? 2 then readnb_case2 buf trp
  else readnb_case0 buf buflen (set_state 0 trp).
End PacketRead.
Arguments MQTTTransport : clear implicits.
Arguments Build_MQTTTransport {S}.

(** ** Reference definitions *)

(** The remaining-length field of the MQTT standard: base-128 digits, least
    significant first, the top bit set on all but the last. *)
Fixpoint remlen_digits (fuel : nat) (n : Z) : list Z :=
  match fuel with
  | O => []
  | S fuel => if n <? 128 then [n] else (n mod 128 + 128) :: remlen_digits fuel (n / 128)
  end.
Definition remlen_bytes (n : Z) : list Z := remlen_digits 5 n.

(** Two bytes, most significant first. *)
Definition int_bytes (n : Z) : list Z := [u8 (Z.quot n 256); u8 (Z.rem n 256)].

(** What [writeMQTTString] puts on the wire. *)
Definition mqttstring_text (s : MQTTString (list Z)) : list Z :=
  if 0 <? len (lenstring s) then take (Z.to_nat (len (lenstring s))) (default [] (data (lenstring s)))
  else default [] (cstring s).

(** A string the library can send: a counted string has its bytes, a C string
    carries no count of its own. *)
Definition mqttstring_ok (s : MQTTString (list Z)) : Prop :=
  match cstring s with
  | Some _ => len (lenstring s) ≤ 0
  | None => 0 ≤ len (lenstring s) ≤ zlen (default [] (data (lenstring s))) ∧
            (0 < len (lenstring s) → is_Some (data (lenstring s)))
  end.
#[export] Instance mqttstring_ok_dec s : Decision (mqttstring_ok s).
Proof.
  unfold mqttstring_ok. destruct (cstring s); [apply _|].
  destruct (data (lenstring s)); cbn.
  - destruct (decide (0 ≤ len (lenstring s) ≤ zlen l)); [left|right; by intros [? _]].
    split; [done|]. by intros; eexists.
  - destruct (decide (len (lenstring s) = 0)) as [e|n]; [left|right].
    + rewrite e. split; [done|]. by intros.
    + intros [? _]. lia.
Defined.

(** ** Writers *)

#[export] Instance emits_writeChar c : Emits (writeChar c) [u8 c].
Proof.
  intros pre [|x [|]] post Hl; try done. unfold writeChar; cbn [wb_buf wb_ptr app].
  by rewrite store_app.
Qed.

#[export] Instance emits_writeInt n : Emits (writeInt n) (int_bytes n).
Proof. unfold writeInt, int_bytes. apply (emits_seq _ _ [_] [_]); apply _. Qed.

#[export] Instance emits_write_bytes d : Emits (write_bytes d) d.
Proof.
  intros pre old post Hl. unfold write_bytes; cbn [wb_buf wb_ptr].
  by rewrite store_bytes_app.
Qed.

#[export] Instance emits_writeCString s : Emits (writeCString s) (int_bytes (zlen s) ++ s).
Proof. apply _. Qed.

Lemma mqttstring_text_length s : mqttstring_ok s → zlen (mqttstring_text s) = MQTTstrlen s.
Proof.
  unfold mqttstring_ok, mqttstring_text, MQTTstrlen.
  destruct (cstring s) as [c|].
  - intros. by rewrite (proj2 (Z.ltb_ge 0 _)).
  - intros [[? ?] ?]. destruct (Z.ltb_spec 0 (len (lenstring s))).
    + rewrite length_take. lia.
    + cbn. lia.
Qed.

Lemma emits_writeMQTTString s :
  mqttstring_ok s → Emits (writeMQTTString s) (int_bytes (MQTTstrlen s) ++ mqttstring_text s).
Proof.
  intros Hok. pose proof (mqttstring_text_length s Hok) as Hlen. revert Hok Hlen.
  unfold mqttstring_ok, mqttstring_text, MQTTstrlen, writeMQTTString.
  destruct (Z.ltb_spec 0 (len (lenstring s))) as [Hp|Hp].
  - destruct (cstring s); [lia|]. intros [[H1 H2] H3] Hlen.
    destruct (H3 Hp) as [d Hd]. rewrite Hd in *. change (default [] (Some d)) with d in *.
    apply emits_seq; [apply _|]. intros pre old post Hl.
    unfold mbind, M_bind, lift, load_bytes. rewrite decide_True by lia.
    rewrite drop_0. by apply emits_write_bytes.
  - destruct (cstring s); cbn [default]; intros Hok Hlen; [apply _|].
    cbn in Hlen. rewrite <- Hlen. rewrite app_nil_r. apply _.
Qed.

Lemma digit_land d : 0 ≤ d < 128 → Z.land d 128 = 0.
Proof.
  intros. change 128 with (2 ^ 7). apply Z.bits_inj'; intros i Hi.
  rewrite Z.land_spec, Z.testbit_0_l, Z.pow2_bits_eqb by lia.
  destruct (Z.eqb_spec 7 i); [subst|by rewrite andb_false_r].
  rewrite (Z.testbit_eqb d 7) by lia. by rewrite Z.div_small by lia.
Qed.

Lemma digit_lor d : 0 ≤ d < 128 → Z.lor (u8 d) 128 = d + 128.
Proof.
  intros. unfold u8. rewrite Z.mod_small by lia.
  rewrite <- Z.lxor_lor by (by apply digit_land).
  symmetry. apply Z.add_nocarry_lxor. by apply digit_land.
Qed.

Lemma encode_loop_emits fuel pre old post acc n :
  0 ≤ n < 128 ^ Z.of_nat fuel → (0 < fuel)%nat →
  length old = length (remlen_digits fuel n) →
  encode_loop fuel (pre ++ acc ++ old ++ post) (zlen pre) n (zlen acc) =
  Ok (zlen acc + zlen (remlen_digits fuel n), pre ++ acc ++ remlen_digits fuel n ++ post).
Proof.
  revert old acc n. induction fuel as [|fuel IH]; intros old acc n Hn Hf Hl; [lia|].
  cbn [encode_loop remlen_digits] in *.
  rewrite Z.rem_mod_nonneg, Z.quot_div_nonneg by lia.
  destruct (Z.ltb_spec n 128) as [Hs|Hs].
  - destruct old as [|x [|]]; try done.
    rewrite Z.div_small, Z.mod_small by lia. cbn [Z.ltb Z.compare].
    rewrite !(app_assoc pre acc). replace (zlen pre + zlen acc) with (zlen (pre ++ acc))
      by (rewrite length_app; lia).
    unfold u8. rewrite Z.mod_small by lia. cbn [app].
    by rewrite store_app.
  - assert (0 < n / 128) by (apply Z.div_str_pos; lia).
    rewrite (proj2 (Z.ltb_lt 0 _)) by done. rewrite digit_lor by (apply Z.mod_pos_bound; lia).
    destruct old as [|x old]; [done|]. injection Hl as Hl. cbn [app].
    rewrite app_assoc. replace (zlen pre + zlen acc) with (zlen (pre ++ acc))
      by (rewrite length_app; lia).
    rewrite store_app. cbn [mbind outcome_bind].
    rewrite <- app_assoc. replace (acc ++ (n mod 128 + 128) :: old ++ post) with
      ((acc ++ [n mod 128 + 128]) ++ old ++ post) by (by rewrite <- app_assoc).
    replace (zlen acc + 1) with (zlen (acc ++ [n mod 128 + 128])) by (rewrite length_app; cbn [length]; lia).
    assert (0 < fuel)%nat. { destruct fuel; [cbn in Hn; lia|lia]. }
    rewrite IH; [|split; [lia|]|done|done].
    + rewrite length_app, <- app_assoc. cbn [length app]. do 2 f_equal. lia.
    + apply Z.div_lt_upper_bound; [lia|].
      replace (128 * 128 ^ Z.of_nat fuel) with (128 ^ Z.of_nat (S fuel)); [lia|].
      rewrite Nat2Z.inj_succ, Z.pow_succ_r by lia. done.
Qed.

Lemma emits_write_encoded n : 0 ≤ n < 2 ^ 31 → Emits (write_encoded n) (remlen_bytes n).
Proof.
  intros Hn pre old post Hl. unfold write_encoded, MQTTPacket_encode; cbn [wb_buf wb_ptr].
  pose proof (encode_loop_emits 5 pre old post [] n ltac:(lia) ltac:(lia) Hl) as H.
  cbn [app length] in H. change (Z.of_nat 0) with 0 in H.
  rewrite H. cbn [mbind outcome_bind]. by rewrite Z.add_0_l.
Qed.

#[export] Hint Resolve emits_writeChar emits_writeInt emits_write_bytes emits_writeCString
  emits_writeMQTTString emits_write_encoded : emits.

(** ** Decoding the remaining length *)

Lemma chk32_ok z : INT_MIN ≤ z ≤ INT_MAX → chk32 z = Ok z.
Proof. intros. unfold chk32. by rewrite decide_True. Qed.

Lemma land_127_range c : 0 ≤ Z.land c 127 < 128.
Proof. change 127 with (Z.ones 7). rewrite Z.land_ones by lia. apply Z.mod_pos_bound. lia. Qed.

Lemma pow128_le (k : nat) : (k ≤ 4)%nat → 1 ≤ 128 ^ Z.of_nat k ≤ 268435456.
Proof. intros. do 5 (destruct k as [|k]; [cbn; lia|]). lia. Qed.

Lemma pow128_S (k : nat) : 128 ^ Z.of_nat (S k) = 128 * 128 ^ Z.of_nat k.
Proof. rewrite Nat2Z.inj_succ, Z.pow_succ_r by lia. done. Qed.

Lemma digit_low n : 0 ≤ n < 128 → Z.land n 127 = n.
Proof. intros. change 127 with (Z.ones 7). by rewrite Z.land_ones, Z.mod_small by lia. Qed.

Lemma digit_cont_low n : Z.land (n mod 128 + 128) 127 = n mod 128.
Proof.
  change 127 with (Z.ones 7). rewrite Z.land_ones by lia. change (2 ^ 7) with 128.
  rewrite <- Z.add_mod_idemp_r, Z.mod_same, Z.add_0_r by lia. by rewrite !Z.mod_mod by lia.
Qed.

Lemma digit_cont_high n : Z.land (n mod 128 + 128) 128 = 128.
Proof.
  pose proof (Z.mod_pos_bound n 128 ltac:(lia)).
  rewrite <- digit_lor by lia. unfold u8. rewrite (Z.mod_small _ 256) by lia.
  by rewrite Z.land_lor_distr_l, digit_land by lia.
Qed.

Section DecodeFacts.
Context {S : Type} (getc : S → outcome (Z * Z * S)).

(** Whatever the source delivers, the loop leaves within five rounds, no
    [int] overflows and the value stays below [128 ^ 4]. *)
Lemma decode_loop_bounds (Hget : ∀ s, ∃ x, getc s = Ok x) (fuel k : nat) s v :
  (fuel + k)%nat = 5%nat → (k ≤ 4)%nat → 0 ≤ v < 128 ^ Z.of_nat k →
  ∃ l v' s', decode_loop getc fuel s v (128 ^ Z.of_nat k) (Z.of_nat k) = Ok (l, v', s') ∧
    1 ≤ l ≤ 5 ∧ 0 ≤ v' < 268435456.
Proof.
  revert k s v. induction fuel as [|fuel IH]; intros k s v Hf Hk Hv; [lia|].
  pose proof (pow128_le k Hk). cbn [decode_loop].
  unfold MAX_NO_OF_REMAINING_LENGTH_BYTES.
  destruct (Z.ltb_spec 4 (Z.of_nat k + 1)); [eexists _, _, _; split; [done|lia]|].
  destruct (Hget s) as [[[rc c] s'] ->]; cbn [mbind outcome_bind].
  destruct (negb (rc =? 1)); [eexists _, _, _; split; [done|lia]|].
  pose proof (land_127_range c). pose proof (pow128_S k) as HS.
  pose proof (pow128_le (Datatypes.S k) ltac:(lia)).
  assert (0 ≤ v + Z.land c 127 * 128 ^ Z.of_nat k < 128 ^ Z.of_nat (Datatypes.S k)) by nia.
  rewrite chk32_ok by (unfold INT_MIN, INT_MAX; lia). cbn [mbind outcome_bind].
  replace (128 ^ Z.of_nat k * 128) with (128 ^ Z.of_nat (Datatypes.S k)) by lia.
  rewrite chk32_ok by (unfold INT_MIN, INT_MAX; lia).
  cbn [mbind outcome_bind].
  destruct (negb (Z.land c 128 =? 0)); [|eexists _, _, _; split; [done|lia]].
  replace (Z.of_nat k + 1) with (Z.of_nat (Datatypes.S k)) by lia.
  apply IH; lia.
Qed.

(** [delivers s bs s']: from [s] the source yields the bytes [bs] one by one. *)
Inductive delivers : S → list Z → S → Prop :=
| delivers_nil s : delivers s [] s
| delivers_cons s c s1 bs s2 :
    getc s = Ok (1, c, s1) → delivers s1 bs s2 → delivers s (c :: bs) s2.

Lemma decode_loop_delivers (fuel k : nat) s s' v n :
  (fuel + k)%nat = 5%nat → 0 ≤ v < 128 ^ Z.of_nat k → (2 ≤ fuel)%nat →
  0 ≤ n < 128 ^ Z.of_nat (Nat.pred fuel) → delivers s (remlen_digits fuel n) s' →
  decode_loop getc fuel s v (128 ^ Z.of_nat k) (Z.of_nat k) =
  Ok (Z.of_nat k + zlen (remlen_digits fuel n), v + 128 ^ Z.of_nat k * n, s').
Proof.
  revert k s v n. induction fuel as [|fuel IH]; intros k s v n Hf Hv Hp Hn Hd; [lia|].
  cbn [decode_loop remlen_digits Nat.pred] in *. unfold MAX_NO_OF_REMAINING_LENGTH_BYTES.
  pose proof (pow128_le k ltac:(lia)). pose proof (pow128_S k) as HS.
  pose proof (pow128_le (Datatypes.S k) ltac:(lia)).
  rewrite (proj2 (Z.ltb_ge _ _)) by lia.
  destruct (Z.ltb_spec n 128) as [Hs|Hs];
    inversion Hd as [|? c s1 bs ? Hg Hd']; subst; clear Hd; rewrite Hg; cbn [mbind outcome_bind negb Z.eqb].
  - inversion Hd'; subst. rewrite digit_low by lia.
    rewrite !chk32_ok by (unfold INT_MIN, INT_MAX; nia). cbn [mbind outcome_bind].
    rewrite digit_land by lia. cbn [Z.eqb negb length]. do 3 f_equal; lia.
  - pose proof (Z.mod_pos_bound n 128 ltac:(lia)).
    rewrite digit_cont_low, digit_cont_high. cbn [Z.eqb negb].
    rewrite !chk32_ok by (unfold INT_MIN, INT_MAX; nia). cbn [mbind outcome_bind].
    replace (128 ^ Z.of_nat k * 128) with (128 ^ Z.of_nat (Datatypes.S k)) by lia.
    replace (Z.of_nat k + 1) with (Z.of_nat (Datatypes.S k)) by lia.
    assert (2 ≤ fuel)%nat by (destruct fuel as [|[|]]; cbn in Hn; lia).
    rewrite (IH (Datatypes.S k) _ _ (n / 128)); [|lia|nia|done| |done].
    + cbn [length]. pose proof (Z.div_mod n 128 ltac:(lia)). do 3 f_equal; [lia|nia].
    + split; [apply Z.div_pos; lia|]. apply Z.div_lt_upper_bound; [lia|].
      rewrite <- pow128_S. replace (Datatypes.S (Nat.pred fuel)) with fuel by lia. lia.
Qed.

Lemma decode_delivers s s' n :
  0 ≤ n < 268435456 → delivers s (remlen_bytes n) s' →
  MQTTPacket_decode getc s = Ok (zlen (remlen_bytes n), n, s').
Proof.
  intros Hn Hd.
  pose proof (decode_loop_delivers 5 0 s s' 0 n eq_refl ltac:(done) ltac:(lia) Hn Hd) as H.
  etransitivity; [exact H|]. do 3 f_equal. change (128 ^ Z.of_nat 0) with 1. lia.
Qed.
End DecodeFacts.

Lemma remlen_digits_byte fuel n : 0 ≤ n → Forall is_byte (remlen_digits fuel n).
Proof.
  revert n. induction fuel as [|fuel IH]; intros n Hn; cbn; [constructor|].
  destruct (Z.ltb_spec n 128).
  - repeat constructor; lia.
  - constructor; [pose proof (Z.mod_pos_bound n 128); unfold is_byte; lia|].
    apply IH, Z.div_pos; lia.
Qed.

(** The number of digits of the remaining length. *)
Lemma remlen_length n : 0 ≤ n < 268435456 →
  zlen (remlen_bytes n) =
  if n <? 128 then 1 else if n <? 16384 then 2 else if n <? 2097152 then 3 else 4.
Proof.
  intros Hn. unfold remlen_bytes. cbn [remlen_digits].
  pose proof (Z.div_mod n 128 ltac:(lia)); pose proof (Z.mod_pos_bound n 128 ltac:(lia)).
  pose proof (Z.div_mod (n / 128) 128 ltac:(lia)).
  pose proof (Z.mod_pos_bound (n / 128) 128 ltac:(lia)).
  pose proof (Z.div_mod (n / 128 / 128) 128 ltac:(lia)).
  pose proof (Z.mod_pos_bound (n / 128 / 128) 128 ltac:(lia)).
  repeat match goal with
    | |- context [?x <? ?y] => destruct (Z.ltb_spec x y); try lia; try done
    end.
Qed.

Lemma remlen_length_pos n : (0 < length (remlen_bytes n))%nat.
Proof. unfold remlen_bytes. cbn [remlen_digits]. destruct (n <? 128); cbn; lia. Qed.

Lemma bufchar_delivers pre bs post :
  delivers (bufchar 1) (RBuf (pre ++ bs ++ post) (zlen pre)) bs
    (RBuf (pre ++ bs ++ post) (zlen pre + zlen bs)).
Proof.
  revert pre. induction bs as [|c bs IH]; intros pre; cbn [app length].
  - rewrite Z.add_0_r. constructor.
  - econstructor.
    + unfold bufchar. change (Z.to_nat 1) with 1%nat. cbn [bufchar_loop].
      unfold mbind, M_bind, outcome_bind, readChar; cbn [rb_buf rb_ptr].
      by rewrite load_app.
    + specialize (IH (pre ++ [c])). rewrite <- app_assoc, length_app in IH. cbn [app length] in IH.
      replace (zlen pre + 1) with (Z.of_nat (length pre + 1)) by lia.
      replace (zlen pre + Z.of_nat (S (length bs))) with
        (Z.of_nat (length pre + 1) + zlen bs) by lia.
      exact IH.
Qed.

Lemma decodeBuf_remlen pre n post :
  0 ≤ n < 268435456 →
  MQTTPacket_decodeBuf (pre ++ remlen_bytes n ++ post) (zlen pre) = Ok (zlen (remlen_bytes n), n).
Proof.
  intros Hn. unfold MQTTPacket_decodeBuf.
  by rewrite (decode_delivers _ _ _ n Hn (bufchar_delivers pre _ post)).
Qed.

(** The digits of an encoding are read back one by one. *)
Lemma MQTTPacket_encode_bytes pre old post n :
  0 ≤ n < 2 ^ 31 → length old = length (remlen_bytes n) →
  MQTTPacket_encode (pre ++ old ++ post) (zlen pre) n =
  Ok (zlen (remlen_bytes n), pre ++ remlen_bytes n ++ post).
Proof.
  intros Hn Hl. pose proof (encode_loop_emits 5 pre old post [] n ltac:(lia) ltac:(lia) Hl) as H.
  etransitivity; [exact H|]. done.
Qed.

(** The length of a packet with remaining length [n]. *)
Definition packet_length (n : Z) : Z := 1 + zlen (remlen_bytes n) + n.

Lemma remlen_length_bounds n : 0 ≤ n < 268435456 → 1 ≤ zlen (remlen_bytes n) ≤ 4.
Proof. intros. rewrite remlen_length by done. repeat case_match; lia. Qed.

(** A buffer split around the [n] bytes at offset [off]. *)
Lemma split_buffer (buf : list Z) off n :
  0 ≤ off → 0 ≤ n → off + n ≤ zlen buf →
  ∃ pre old post, buf = pre ++ old ++ post ∧ zlen pre = off ∧ zlen old = n.
Proof.
  intros. exists (take (Z.to_nat off) buf), (take (Z.to_nat n) (drop (Z.to_nat off) buf)),
    (drop (Z.to_nat n) (drop (Z.to_nat off) buf)).
  rewrite !take_drop, !length_take, length_drop. split_and!; [done|lia|lia].
Qed.

(** [C1] Remaining-length round trip: for every length MQTT can express,
    [MQTTPacket_encode] writes between one and four bytes at the given offset
    of any buffer with room for four, touches nothing else, and
    [MQTTPacket_decodeBuf] reads the same length and byte count back. *)
Theorem remaining_length_roundtrip (buf : list Z) (off n : Z) :
  0 ≤ n < 268435456 → 0 ≤ off → off + 4 ≤ zlen buf →
  ∃ k buf', MQTTPacket_encode buf off n = Ok (k, buf') ∧ 1 ≤ k ≤ 4 ∧
    MQTTPacket_decodeBuf buf' off = Ok (k, n) ∧
    take (Z.to_nat off) buf' = take (Z.to_nat off) buf ∧
    drop (Z.to_nat (off + k)) buf' = drop (Z.to_nat (off + k)) buf.
Proof.
  intros Hn Ho Hb. pose proof (remlen_length_bounds n Hn) as Hk.
  destruct (split_buffer buf off (zlen (remlen_bytes n))) as (pre & old & post & -> & <- & Hl); try lia.
  rewrite MQTTPacket_encode_bytes by lia. eexists _, _. split; [done|]. split; [done|].
  split; [by apply decodeBuf_remlen|]. rewrite Nat2Z.id, !take_app_length. split; [done|].
  rewrite !app_assoc, !drop_app_ge; rewrite ?length_app; [|lia|lia]. f_equal. lia.
Qed.

Lemma remaining_length_roundtrip_witness :
  ∃ k buf', MQTTPacket_encode (replicate 6 7) 1 321 = Ok (k, buf') ∧ 1 ≤ k ≤ 4 ∧
    MQTTPacket_decodeBuf buf' 1 = Ok (k, 321) ∧
    take (Z.to_nat 1) buf' = take (Z.to_nat 1) (replicate 6 7) ∧
    drop (Z.to_nat (1 + k)) buf' = drop (Z.to_nat (1 + k)) (replicate 6 7).
Proof. apply (remaining_length_roundtrip (replicate 6 7) 1 321); [lia|lia|cbn; lia]. Defined.

(** [MQTTPacket_len] never underestimates: the size the serializers check
    the buffer against is the true packet length, or one more at the four
    remaining lengths next to a digit boundary. *)
Theorem MQTTPacket_len_sufficient (n : Z) :
  0 ≤ n < 268435456 →
  MQTTPacket_len n =
  packet_length n + (if decide (n = 127 ∨ n = 16383 ∨ n = 2097150 ∨ n = 2097151) then 1 else 0).
Proof.
  intros Hn. unfold packet_length, MQTTPacket_len. rewrite remlen_length by done.
  case_decide; repeat match goal with
    | |- context [?x <? ?y] => destruct (Z.ltb_spec x y)
    end; lia.
Qed.

Lemma MQTTPacket_len_sufficient_witness :
  MQTTPacket_len 127 = packet_length 127 + 1 ∧ MQTTPacket_len 128 = packet_length 128.
Proof.
  split; [exact (MQTTPacket_len_sufficient 127 ltac:(lia))|].
  rewrite (MQTTPacket_len_sufficient 128 ltac:(lia)). done.
Defined.

Lemma MQTTPacket_len_ge n : 0 ≤ n < 268435456 → packet_length n ≤ MQTTPacket_len n.
Proof.
  intros Hn. unfold packet_length, MQTTPacket_len. rewrite remlen_length by done.
  repeat match goal with
    | |- context [?x <? ?y] => destruct (Z.ltb_spec x y)
    end; lia.
Qed.

(** Decoding terminates on every input: whatever bytes and result codes a
    source delivers, [MQTTPacket_decode] returns after at most five rounds,
    without signed overflow, with a value an MQTT length can have. *)
Theorem MQTTPacket_decode_total {S} (getc : S → outcome (Z * Z * S)) (s : S) :
  (∀ s, ∃ x, getc s = Ok x) →
  ∃ l v s', MQTTPacket_decode getc s = Ok (l, v, s') ∧ 1 ≤ l ≤ 5 ∧ 0 ≤ v < 268435456.
Proof. intros Hg. apply (decode_loop_bounds getc Hg 5 0 s 0); [done|lia|done]. Qed.

Lemma MQTTPacket_decode_total_witness :
  ∃ l v s', MQTTPacket_decode (λ s : (), Ok (1, 255, s)) () = Ok (l, v, s') ∧
    1 ≤ l ≤ 5 ∧ 0 ≤ v < 268435456.
Proof. apply MQTTPacket_decode_total. intros s. by eexists. Defined.

(** ** Packet readers *)

(** What a reader relies on: a read never stores more than it was asked for
    (the contract of [getfn] in MQTTPacket.c and of [mqttread] in
    PlatformHeader.h). *)
Class SourceLaws (S : Type) `{!Source S} : Prop :=
  getfn_bound (s : S) n : 0 ≤ n → zlen (getfn s n).1.2 ≤ n.

(** The simplest source: a stream of bytes that are all available. *)
#[export] Instance stream_source : Source (list Z) := λ s n,
  (zlen (take (Z.to_nat n) s), take (Z.to_nat n) s, drop (Z.to_nat n) s).
#[export] Instance stream_source_laws : SourceLaws (list Z).
Proof. intros s n ?. cbn. rewrite length_take. lia. Qed.

Lemma stream_delivers bs rest : delivers (get1 (S := list Z)) (bs ++ rest) bs rest.
Proof. induction bs as [|c bs IH]; cbn; [constructor|]. by econstructor. Qed.

Lemma stream_get bs rest : getfn (S := list Z) (bs ++ rest) (zlen bs) = (zlen bs, bs, rest).
Proof.
  unfold getfn, stream_source. by rewrite Nat2Z.id, take_app_length, drop_app_length.
Qed.

Lemma stream_get1 h t : getfn (S := list Z) (h :: t) 1 = (1, [h], t).
Proof. apply (stream_get [h] t). Qed.

Lemma store_bytes_head x buf h : store_bytes (x :: buf) 0 [h] = Ok (h :: buf).
Proof. apply (store_bytes_app [] [x] buf [h]). done. Qed.

Lemma store_bytes_fits b i d :
  0 ≤ i → i + zlen d ≤ zlen b → ∃ b', store_bytes b i d = Ok b' ∧ length b' = length b.
Proof.
  intros. eexists. unfold store_bytes at 1. rewrite decide_True by lia. split; [done|].
  rewrite !length_app, length_take, length_drop. lia.
Qed.

Lemma encode_fits buf off n :
  0 ≤ n < 268435456 → 0 ≤ off → off + 4 ≤ zlen buf →
  ∃ buf', MQTTPacket_encode buf off n = Ok (zlen (remlen_bytes n), buf') ∧ length buf' = length buf.
Proof.
  intros Hn Ho Hb. pose proof (remlen_length_bounds n Hn).
  destruct (split_buffer buf off (zlen (remlen_bytes n))) as (pre & old & post & -> & <- & Hl); try lia.
  rewrite MQTTPacket_encode_bytes by lia. eexists. split; [done|]. rewrite !length_app. lia.
Qed.

Lemma get1_decode {S} `{!Source S} (s : S) :
  ∃ l v s', MQTTPacket_decode get1 s = Ok (l, v, s') ∧ 1 ≤ l ≤ 5 ∧ 0 ≤ v < 268435456.
Proof.
  apply (decode_loop_bounds get1 (λ t, ltac:(unfold get1; destruct (getfn t 1) as [[??]?]; by eexists))
    5 0 s 0); [done|lia|done].
Qed.

(** The blocking packet reader is memory safe for every source that
    respects its contract: with a buffer of at least five bytes, no smaller
    than [buflen], it returns a result code and never writes outside. *)
Theorem MQTTPacket_read_safe {S} `{SourceLaws S} (buf : list Z) (buflen : Z) (s : S) :
  5 ≤ zlen buf → buflen ≤ zlen buf →
  ∃ rc buf' s', MQTTPacket_read buf buflen s = Ok (rc, buf', s') ∧ -1 ≤ rc < 16 ∧
    length buf' = length buf.
Proof.
  intros H5 Hbl. unfold MQTTPacket_read.
  pose proof (getfn_bound s 1 ltac:(lia)) as Hd1. destruct (getfn s 1) as [[rc d] s1]; cbn in Hd1.
  destruct (store_bytes_fits buf 0 d) as (b1 & -> & Hb1); [lia..|]. cbn [mbind outcome_bind].
  destruct (negb (rc =? 1)); [by eexists _, _, _|].
  destruct (get1_decode s1) as (l & v & s2 & -> & Hl & Hv). cbn [mbind outcome_bind].
  destruct (encode_fits b1 1 v) as (b2 & -> & Hb2); [lia..|]. cbn [mbind outcome_bind].
  destruct (Z.ltb_spec buflen (v + (1 + zlen (remlen_bytes v)))); [by eexists _, _, _; split_and!; [done|lia|lia|lia]|].
  pose proof (getfn_bound s2 v ltac:(lia)) as Hd2. destruct (getfn s2 v) as [[rc2 d2] s3]; cbn in Hd2.
  destruct (store_bytes_fits b2 (1 + zlen (remlen_bytes v)) d2) as (b3 & -> & Hb3); [lia..|].
  cbn [mbind outcome_bind]. destruct (negb (rc2 =? v)); [by eexists _, _, _; split_and!; [done|lia|lia|lia]|].
  destruct b3 as [|x b3]; [cbn in *; lia|]. cbn. eexists _, _, _. split; [done|].
  pose proof (bits_get_range 4 4 x ltac:(lia) ltac:(lia)). unfold header_type. cbn in *; lia.
Qed.

Lemma MQTTPacket_read_safe_witness :
  ∃ rc buf' s', MQTTPacket_read (replicate 8 0) 8 (bytes "0zzz") = Ok (rc, buf', s') ∧
    -1 ≤ rc < 16 ∧ length buf' = length (replicate 8 0).
Proof. apply MQTTPacket_read_safe; cbn; lia. Defined.

(** The blocking reader receives what a peer sent: on a stream that starts
    with a packet of header [h] and body [body] it returns the packet's type,
    leaves exactly the packet in the buffer and the rest of the stream unread;
    a packet larger than [buflen] is refused before its body is read. *)
Theorem MQTTPacket_read_stream (buf : list Z) (buflen h : Z) (body rest : list Z) :
  is_byte h → zlen body < 268435456 → 5 ≤ zlen buf → buflen ≤ zlen buf →
  let pkt := h :: remlen_bytes (zlen body) ++ body in
  if buflen <? zlen pkt then
    ∃ buf', MQTTPacket_read buf buflen (pkt ++ rest) = Ok (-1, buf', body ++ rest)
  else MQTTPacket_read buf buflen (pkt ++ rest) =
    Ok (header_type h, pkt ++ drop (length pkt) buf, rest).
Proof.
  intros Hh Hn H5 Hbl pkt. set (n := zlen body) in *. set (rl := remlen_bytes n) in *.
  pose proof (remlen_length_bounds n ltac:(lia)) as Hrl. fold rl in Hrl.
  destruct buf as [|x buf]; [cbn in H5; lia|].
  unfold MQTTPacket_read. subst pkt. cbn [app]. rewrite stream_get1, store_bytes_head.
  cbn [mbind outcome_bind Z.eqb Pos.eqb negb]. rewrite <- app_assoc.
  rewrite (decode_delivers get1 _ _ n ltac:(lia) (stream_delivers rl (body ++ rest))).
  cbn [mbind outcome_bind].
  destruct (split_buffer buf 0 (zlen rl)) as (pre & old & post & Eb & Hp & Ho);
    [cbn [length] in *; lia..|].
  destruct pre; [|cbn in Hp; lia]. cbn [app] in Eb. subst buf.
  pose proof (MQTTPacket_encode_bytes [h] old post n ltac:(lia) ltac:(fold rl; lia)) as Henc.
  cbn [app length] in Henc. change (Z.of_nat 1) with 1 in Henc. rewrite Henc. cbn [mbind outcome_bind].
  fold rl. cbn [length]. rewrite length_app.
  destruct (Z.ltb_spec buflen (n + (1 + zlen rl))), (Z.ltb_spec buflen (Z.of_nat (S (length rl + length body)))); try lia.
  { by eexists. }
  rewrite stream_get. cbn [mbind outcome_bind].
  destruct (split_buffer post 0 n) as (pre & old2 & post2 & Ep & Hp2 & Ho2).
  { lia. } { lia. } { cbn [length] in *. rewrite length_app in *. lia. }
  destruct pre; [|cbn in Hp2; lia]. cbn [app] in Ep. subst post.
  replace (h :: rl ++ old2 ++ post2) with ((h :: rl) ++ old2 ++ post2) by done.
  replace (1 + zlen rl) with (zlen (h :: rl)) by (cbn [length]; lia).
  rewrite store_bytes_app by lia. cbn [mbind outcome_bind].
  rewrite Z.eqb_refl. cbn [negb app]. rewrite load_head. cbn [mbind outcome_bind drop].
  do 4 f_equal. rewrite <- app_assoc. do 2 f_equal.
  by rewrite app_assoc, drop_app_length' by (rewrite !length_app; lia).
Qed.

Lemma MQTTPacket_read_stream_witness :
  MQTTPacket_read (replicate 8 0) 8 ((48 :: remlen_bytes 3 ++ [1; 2; 3]) ++ [9]) =
  Ok (3, (48 :: remlen_bytes 3 ++ [1; 2; 3]) ++ drop 5 (replicate 8 0), [9]).
Proof.
  apply (MQTTPacket_read_stream (replicate 8 0) 8 48 [1; 2; 3] [9]);
    unfold is_byte; cbn; lia.
Defined.

(** ** The non-blocking reader *)

(** A source that delivers its bytes in pieces: an empty piece is a read that
    would block ("call again"). *)
#[export] Instance chunk_source : Source (list (list Z)) := λ s n,
  match s with
  | [] => (0, [], [])
  | c :: cs =>
      (zlen (take (Z.to_nat n) c), take (Z.to_nat n) c,
       match drop (Z.to_nat n) c with [] => cs | r => r :: cs end)
  end.
#[export] Instance chunk_source_laws : SourceLaws (list (list Z)).
Proof. intros [|c s] n ?; cbn; [lia|]. rewrite length_take. lia. Qed.

(** A caller that polls until the reader reports something. *)
Fixpoint run_nb {S} `{!Source S} (calls : nat) (buf : list Z) (buflen : Z)
    (trp : MQTTTransport S) : outcome (Z * list Z * MQTTTransport S) :=
  match calls with
  | O => Ok (0, buf, trp)
  | Datatypes.S calls =>
      '(rc, buf, trp) ← MQTTPacket_readnb buf buflen trp;
      if rc =? 0 then run_nb calls buf buflen trp else Ok (rc, buf, trp)
  end.

Lemma decodenb_loop_delivers {S} `{!Source S} (fuel k : nat) (s s' : S) v n st :
  (fuel + k)%nat = 5%nat → 0 ≤ v < 128 ^ Z.of_nat k → (2 ≤ fuel)%nat →
  0 ≤ n < 128 ^ Z.of_nat (Nat.pred fuel) → delivers get1 s (remlen_digits fuel n) s' →
  ∃ mul, decodenb_loop fuel (Build_MQTTTransport s (128 ^ Z.of_nat k) v (Z.of_nat k) st) =
    Ok (Z.of_nat k + zlen (remlen_digits fuel n),
        Build_MQTTTransport s' mul (v + 128 ^ Z.of_nat k * n)
          (Z.of_nat k + zlen (remlen_digits fuel n)) st).
Proof.
  revert k s v n. induction fuel as [|fuel IH]; intros k s v n Hf Hv Hp Hn Hd; [lia|].
  cbn [decodenb_loop remlen_digits Nat.pred] in *. unfold MAX_NO_OF_REMAINING_LENGTH_BYTES.
  pose proof (pow128_le k ltac:(lia)). pose proof (pow128_S k) as HS.
  pose proof (pow128_le (Datatypes.S k) ltac:(lia)).
  rewrite (proj2 (Z.ltb_ge _ _)) by lia.
  destruct (Z.ltb_spec n 128) as [Hs|Hs];
    inversion Hd as [|? c s1 bs ? Hg Hd']; subst; clear Hd; rewrite Hg;
    cbn [mbind outcome_bind negb Z.eqb Pos.eqb].
  - inversion Hd'; subst. rewrite digit_low by lia.
    rewrite !chk32_ok by (unfold INT_MIN, INT_MAX; nia). cbn [mbind outcome_bind].
    rewrite digit_land by lia. cbn [Z.eqb negb length]. eexists. f_equal. f_equal. f_equal; lia.
  - pose proof (Z.mod_pos_bound n 128 ltac:(lia)). rewrite digit_cont_low, digit_cont_high.
    cbn [Z.eqb negb]. rewrite !chk32_ok by (unfold INT_MIN, INT_MAX; nia). cbn [mbind outcome_bind].
    replace (128 ^ Z.of_nat k * 128) with (128 ^ Z.of_nat (Datatypes.S k)) by lia.
    replace (Z.of_nat k + 1) with (Z.of_nat (Datatypes.S k)) by lia.
    assert (2 ≤ fuel)%nat by (destruct fuel as [|[|]]; cbn in Hn; lia).
    destruct (IH (Datatypes.S k) s1 (v + n mod 128 * 128 ^ Z.of_nat k) (n / 128)) as [mul ->];
      [lia|nia|done| |done|].
    + split; [apply Z.div_pos; lia|]. apply Z.div_lt_upper_bound; [lia|].
      rewrite <- pow128_S. replace (Datatypes.S (Nat.pred fuel)) with fuel by lia. lia.
    + exists mul. cbn [length]. pose proof (Z.div_mod n 128 ltac:(lia)).
      f_equal. f_equal; [lia|]. f_equal; [nia|lia].
Qed.

(** Bytes that arrive in non-empty pieces are delivered one by one. *)
Lemma chunk_get1 hs cs h t :
  Forall (λ c, c ≠ []) hs → concat hs = h :: t →
  ∃ hs', getfn (hs ++ cs) 1 = (1, [h], hs' ++ cs) ∧ Forall (λ c, c ≠ []) hs' ∧ concat hs' = t.
Proof.
  intros Hne Hc. destruct hs as [|[|x c] hs]; [done|by inversion Hne|].
  cbn in Hc. injection Hc as -> Hc. inversion Hne; subst.
  unfold getfn, chunk_source. cbn [app]. change (Z.to_nat 1) with 1%nat. cbn [take drop].
  destruct c as [|y c].
  - by exists hs.
  - exists ((y :: c) :: hs). split; [done|]. split; [|done]. by constructor.
Qed.

Lemma chunk_delivers hs cs bs :
  Forall (λ c, c ≠ []) hs → concat hs = bs → delivers get1 (hs ++ cs) bs cs.
Proof.
  revert hs. induction bs as [|b bs IH]; intros hs Hne Hc.
  - destruct hs as [|[|] ?]; [constructor|by inversion Hne|done].
  - destruct (chunk_get1 hs cs b bs Hne Hc) as (hs' & E & Hne' & Hc').
    econstructor; [|by apply (IH hs')]. unfold get1. by rewrite E.
Qed.

Lemma readnb_case2_stall buf s mul rem len st :
  0 ≤ len ≤ zlen buf →
  readnb_case2 buf (Build_MQTTTransport ([] :: s) mul rem len st) =
  Ok (0, buf, Build_MQTTTransport s mul rem len st).
Proof.
  intros. unfold readnb_case2, getfn, chunk_source; cbn [sck trp_rem_len trp_len].
  rewrite take_nil, drop_nil. unfold store_bytes. cbn [length Z.of_nat app].
  rewrite decide_True by lia. cbn -[take drop]. by rewrite Nat.add_0_r, take_drop.
Qed.

(** One piece of the body, no longer than what is missing. *)
Lemma readnb_case2_chunk pre old old' post c s mul st h t :
  pre = h :: t → c ≠ [] → length old = length c →
  readnb_case2 (pre ++ old ++ old' ++ post)
    (Build_MQTTTransport (c :: s) mul (zlen (old ++ old')) (zlen pre) st) =
  let trp := Build_MQTTTransport s mul (zlen old') (zlen (pre ++ c)) st in
  let buf := (pre ++ c) ++ old' ++ post in
  if decide (old' = []) then Ok (header_type h, buf, set_state 0 trp) else Ok (0, buf, trp).
Proof.
  intros -> Hc Hl. unfold readnb_case2, getfn, chunk_source.
  cbn [sck trp_rem_len trp_len trp_multiplier trp_state].
  rewrite length_app. rewrite take_ge, drop_ge by lia.
  rewrite store_bytes_app by done. cbn [mbind outcome_bind].
  assert (0 < zlen c) by (destruct c; [done|cbn; lia]).
  rewrite !(proj2 (Z.eqb_neq _ _)) by lia.
  cbn [sck trp_rem_len trp_len trp_multiplier trp_state].
  replace (Z.of_nat (length old + length old') - zlen c) with (zlen old') by lia.
  replace (zlen (h :: t) + zlen c) with (zlen ((h :: t) ++ c)) by (rewrite length_app; lia).
  rewrite app_assoc. destruct old' as [|x old']; cbn [decide length].
  - rewrite decide_True by done. cbn [Z.of_nat Z.eqb negb app]. by rewrite load_head.
  - rewrite decide_False by done. by rewrite (proj2 (Z.eqb_neq _ _)) by (cbn; lia).
Qed.

Lemma run_nb_body cs : ∀ pre old post more mul buflen h t,
  pre = h :: t → concat cs ≠ [] → length old = length (concat cs) → header_type h ≠ 0 →
  ∃ trp, run_nb (length cs) (pre ++ old ++ post) buflen
    (Build_MQTTTransport (cs ++ more) mul (zlen old) (zlen pre) 2) =
    Ok (header_type h, pre ++ concat cs ++ post, trp) ∧ trp_state trp = 0.
Proof.
  induction cs as [|c cs IH]; intros pre old post more mul buflen h t Hp Hc Hl Hh; [done|].
  cbn [run_nb length app concat] in *. unfold MQTTPacket_readnb; cbn [trp_state Z.eqb Pos.eqb].
  destruct c as [|x c].
  - rewrite readnb_case2_stall by (rewrite length_app; lia).
    cbn [mbind outcome_bind Z.eqb app] in *. by apply (IH pre old post more mul buflen h t).
  - rewrite <- (take_drop (length (x :: c)) old).
    rewrite length_app in Hl. rewrite <- app_assoc.
    rewrite (readnb_case2_chunk pre _ _ post (x :: c) (cs ++ more) mul 2 h t Hp)
      by (done || rewrite length_take; lia). cbn zeta.
    destruct (decide (drop (length (x :: c)) old = [])) as [E|E].
    + cbn [mbind outcome_bind]. rewrite (proj2 (Z.eqb_neq _ _)) by done.
      apply (f_equal length) in E. rewrite length_drop in E. cbn [length] in *.
      destruct (concat cs); [|cbn in *; lia]. eexists.
      rewrite drop_ge by lia. rewrite app_nil_r, <- app_assoc. split; done.
    + cbn [mbind outcome_bind Z.eqb].
      assert (concat cs ≠ []).
      { intros E'. rewrite E' in Hl. apply E, drop_ge. cbn [length] in *. lia. }
      destruct (IH (pre ++ x :: c) (drop (length (x :: c)) old) post more mul buflen h (t ++ x :: c))
        as (trp & -> & Ht); [by subst|done|rewrite length_drop; lia|done|].
      exists trp. by rewrite <- !app_assoc.
Qed.

(** Non-blocking reception is independent of how the bytes arrive: a packet
    with a non-empty body whose header and length field come in any non-empty
    pieces [hs], and whose body comes in any pieces [cs] with reads that would
    block in between, is returned by polling [MQTTPacket_readnb], with the same
    result as the blocking reader and the transport back in its first state. *)
Theorem MQTTPacket_readnb_chunks (buf : list Z) (buflen h mul rem len st : Z)
    (hs cs more : list (list Z)) :
  let body := concat cs in
  let pkt := h :: remlen_bytes (zlen body) ++ body in
  Forall (λ c, c ≠ []) hs → concat hs = h :: remlen_bytes (zlen body) →
  is_byte h → header_type h ≠ 0 → body ≠ [] → zlen body < 268435456 →
  zlen pkt ≤ buflen → buflen ≤ zlen buf → st ≠ 1 → st ≠ 2 →
  ∃ trp, run_nb (length cs) buf buflen
    (Build_MQTTTransport (hs ++ cs ++ more) mul rem len st) =
    Ok (header_type h, pkt ++ drop (length pkt) buf, trp) ∧ trp_state trp = 0.
Proof.
  intros body pkt Hne Hc Hh Hty Hb Hn Hfit Hbl H1 H2.
  destruct cs as [|c cs]; [done|]. cbn [run_nb length].
  assert (Hpos : 0 < zlen body) by (destruct body; [done|cbn; lia]).
  pose proof (remlen_length_bounds (zlen body) ltac:(lia)) as Hrl.
  set (rl := remlen_bytes (zlen body)) in *.
  subst pkt. cbn [length] in Hfit. rewrite length_app in Hfit.
  destruct (chunk_get1 hs ((c :: cs) ++ more) h rl Hne Hc) as (hs' & Eg & Hne' & Hc').
  assert (Hd := chunk_delivers hs' ((c :: cs) ++ more) rl Hne' Hc').
  unfold MQTTPacket_readnb; cbn [trp_state]. rewrite !(proj2 (Z.eqb_neq _ _)) by done.
  destruct buf as [|x buf]; [cbn [length] in *; lia|].
  unfold readnb_case0, set_state; cbn [sck trp_multiplier trp_rem_len trp_len trp_state].
  rewrite Eg, store_bytes_head. cbn [mbind outcome_bind Z.eqb Pos.eqb].
  unfold readnb_case1, MQTTPacket_decodenb; cbn [sck trp_multiplier trp_rem_len trp_len trp_state Z.eqb].
  change (0 + 1) with 1.
  destruct (decodenb_loop_delivers 5 0 (hs' ++ (c :: cs) ++ more) _ 0 (zlen body) 1
    eq_refl ltac:(done) ltac:(lia) (conj (Nat2Z.is_nonneg _) Hn) Hd) as [mul' E].
  change (128 ^ Z.of_nat 0) with 1 in E. change (Z.of_nat 0) with 0 in E.
  fold (remlen_bytes (zlen body)) in E. fold rl in E. rewrite E. clear E.
  cbn [mbind outcome_bind]. unfold MQTTPACKET_READ_ERROR.
  rewrite !(proj2 (Z.eqb_neq _ _)) by lia.
  destruct (split_buffer buf 0 (zlen rl)) as (pre & old & post & Eb & Hp & Ho);
    [cbn [length] in *; lia..|].
  destruct pre; [|cbn in Hp; lia]. cbn [app] in Eb. subst buf.
  pose proof (MQTTPacket_encode_bytes [h] old post (zlen body) ltac:(lia) ltac:(fold rl; lia)) as Henc.
  cbn [app length] in Henc. change (Z.of_nat 1) with 1 in Henc.
  cbn [trp_rem_len]. replace (0 + 1 * zlen body) with (zlen body) by lia.
  rewrite Henc. fold rl. cbn [mbind outcome_bind sck trp_multiplier trp_rem_len trp_len trp_state].
  rewrite (proj2 (Z.ltb_ge _ _)) by lia.
  destruct (split_buffer post 0 (zlen body)) as (pre & old2 & post2 & Ep & Hp2 & Ho2).
  { lia. } { lia. } { cbn [length] in *. rewrite length_app in *. lia. }
  destruct pre; [|cbn in Hp2; lia]. cbn [app] in Ep. subst post.
  destruct (run_nb_body (c :: cs) (h :: rl) old2 post2 more mul' buflen h rl)
    as (trp & Hrun & Ht); [done..|fold body; lia|done|].
  cbn [run_nb length app MQTTPacket_readnb trp_state Z.eqb Pos.eqb] in Hrun.
  replace (Z.of_nat (S (length rl))) with (1 + zlen rl) in Hrun by lia.
  rewrite Ho2 in Hrun. exists trp. split; [|done].
  etransitivity; [exact Hrun|]. fold body. do 2 f_equal. f_equal. cbn [app length drop]. f_equal. rewrite <- app_assoc.
  do 2 f_equal. by rewrite app_assoc, drop_app_length' by (rewrite !length_app; lia).
Qed.

Lemma MQTTPacket_readnb_chunks_witness :
  ∃ trp, run_nb 3 (replicate 8 0) 8
    (Build_MQTTTransport ([[48]; [3]] ++ [[1; 2]; []; [3]] ++ [[7]]) 0 0 0 0) =
    Ok (3, [48; 3; 1; 2; 3] ++ drop 5 (replicate 8 0), trp) ∧ trp_state trp = 0.
Proof.
  apply (MQTTPacket_readnb_chunks (replicate 8 0) 8 48 0 0 0 0 [[48]; [3]] [[1; 2]; []; [3]] [[7]]);
    unfold is_byte; cbn; try done. by repeat constructor.
Defined.

(** A packet without a body is never completed by the non-blocking reader
    (PINGRESP and the other two-byte packets): reading its zero bytes returns
    0, which the code takes for "call again", so the transport stays in its
    last state and every further poll returns 0. *)
Theorem MQTTPacket_readnb_empty_body_stuck (calls : nat) (buf : list Z) (buflen : Z)
    (s : list (list Z)) (mul len : Z) :
  0 ≤ len ≤ zlen buf →
  ∃ s', run_nb calls buf buflen (Build_MQTTTransport s mul 0 len 2) =
    Ok (0, buf, Build_MQTTTransport s' mul 0 len 2).
Proof.
  intros Hl. revert s. induction calls as [|calls IH]; intros s; cbn [run_nb]; [by eexists|].
  unfold MQTTPacket_readnb; cbn [trp_state Z.eqb Pos.eqb].
  unfold readnb_case2. cbn [sck trp_rem_len trp_len trp_multiplier trp_state].
  assert (∃ s', getfn s 0 = (0, [], s')) as [s' ->].
  { destruct s as [|c s]; unfold getfn, chunk_source; [by eexists|].
    change (Z.to_nat 0) with 0%nat. rewrite take_0, drop_0. by eexists. }
  unfold store_bytes. rewrite decide_True by (cbn; lia). cbn [length app mbind outcome_bind].
  rewrite Nat.add_0_r, take_drop. apply IH.
Qed.

Lemma MQTTPacket_readnb_empty_body_stuck_witness :
  ∃ s', run_nb 3 [208; 0] 2 (Build_MQTTTransport [[1]; []; []] 128 0 2 2) =
    Ok (0, [208; 0], Build_MQTTTransport s' 128 0 2 2).
Proof. apply MQTTPacket_readnb_empty_body_stuck. cbn. lia. Defined.

(** Reads that would block use up the length field: in the state where the
    remaining length is awaited, four polls without data exhaust the four
    bytes the field may have, and the fifth poll reports an error whatever
    arrives then. *)
Theorem MQTTPacket_readnb_stall_fails (buf : list Z) (buflen : Z) (s : list (list Z)) (mul rem : Z) :
  ∃ trp, run_nb 5 buf buflen (Build_MQTTTransport ([[]; []; []; []] ++ s) mul rem 0 1) =
    Ok (-1, buf, trp) ∧ trp_state trp = 0 ∧ sck trp = s.
Proof. eexists. by split. Qed.

(** ** Readers *)

#[export] Instance reads_readChar c : Reads readChar [c] c.
Proof.
  intros pre post. unfold readChar; cbn [rb_buf rb_ptr app]. by rewrite load_app.
Qed.

Lemma int_bytes_nonneg n : 0 ≤ n < 65536 → int_bytes n = [n / 256; n mod 256].
Proof.
  intros. unfold int_bytes, u8. rewrite Z.quot_div_nonneg, Z.rem_mod_nonneg by lia.
  rewrite Z.mod_mod by lia. rewrite (Z.mod_small (n / 256)); [done|].
  split; [apply Z.div_pos; lia|apply Z.div_lt_upper_bound; lia].
Qed.

Lemma reads_readInt c0 c1 : Reads readInt [c0; c1] (256 * c0 + c1).
Proof.
  intros pre post. unfold readInt; cbn [rb_buf rb_ptr app]. rewrite load_app.
  cbn [mbind outcome_bind]. replace (pre ++ c0 :: c1 :: post) with ((pre ++ [c0]) ++ c1 :: post)
    by (by rewrite <- app_assoc).
  replace (zlen pre + 1) with (zlen (pre ++ [c0])) by (rewrite length_app; cbn [length]; lia).
  by rewrite load_app.
Qed.

(** What [writeInt] wrote is what [readInt] reads. *)
#[export] Instance reads_int_bytes n : Reads readInt (int_bytes (u16 n)) (u16 n).
Proof.
  pose proof (Z.mod_pos_bound n 65536 ltac:(lia)). unfold u16.
  rewrite int_bytes_nonneg by lia.
  replace (n mod 65536) with (256 * (n mod 65536 / 256) + (n mod 65536) mod 256) at 3
    by (symmetry; apply Z.div_mod; lia).
  apply reads_readInt.
Qed.

(** Composition of a header byte by the serializers. *)
Definition header_byte (type dup qos retain : Z) : Z :=
  set_header_retain retain (set_header_qos qos (set_header_dup dup (set_header_type type 0))).

Lemma header_byte_range t d q r : is_byte (header_byte t d q r).
Proof.
  unfold header_byte, set_header_retain, set_header_qos, set_header_dup, set_header_type, is_byte.
  change 256 with (2 ^ 8).
  repeat (apply bits_set_range; [lia..|]). lia.
Qed.

Lemma header_byte_fields t d q r :
  header_type (header_byte t d q r) = t mod 16 ∧ header_dup (header_byte t d q r) = d mod 2 ∧
  header_qos (header_byte t d q r) = q mod 4 ∧ header_retain (header_byte t d q r) = r mod 2.
Proof.
  unfold header_byte, header_type, header_dup, header_qos, header_retain,
    set_header_retain, set_header_qos, set_header_dup, set_header_type.
  repeat split; repeat (rewrite bits_get_set_other by lia);
    rewrite bits_get_set_same by lia; done.
Qed.

(** The retain bit of a header built from zero is clear. *)
Lemma set_header_retain_0 q d t :
  set_header_retain 0 (set_header_qos q (set_header_dup d (set_header_type t 0))) =
  set_header_qos q (set_header_dup d (set_header_type t 0)).
Proof.
  unfold set_header_retain, set_header_qos, set_header_dup, set_header_type.
  apply Z.bits_inj'. intros i Hi. rewrite !bits_set_testbit by lia.
  repeat case_decide; try lia; try done. by rewrite !Z.testbit_0_l.
Qed.

Lemma readChar_0 c l : readChar (RBuf (c :: l) 0) = Ok (c, RBuf (c :: l) 1).
Proof. apply (reads_readChar c [] l). Qed.

(** A one-byte remaining length at offset 1. *)
Lemma decodeBuf_short h n rest :
  0 ≤ n < 128 → MQTTPacket_decodeBuf (h :: n :: rest) 1 = Ok (1, n).
Proof.
  intros. pose proof (decodeBuf_remlen [h] n rest ltac:(lia)) as H0.
  unfold remlen_bytes in H0. cbn [remlen_digits] in H0.
  rewrite (proj2 (Z.ltb_lt n 128)) in H0 by lia. exact H0.
Qed.

Lemma header_type_shift t : 0 ≤ t < 16 → set_header_type t 0 = 16 * t.
Proof.
  intros. unfold set_header_type, bits_set. rewrite Z.land_ones, Z.mod_small by lia.
  rewrite Z.ldiff_0_l, Z.lor_0_l, Z.shiftl_mul_pow2 by lia. lia.
Qed.

Lemma reads_int n : 0 ≤ n < 65536 → Reads readInt (int_bytes n) n.
Proof.
  intros. pose proof (reads_int_bytes n) as H0. unfold u16 in H0. by rewrite Z.mod_small in H0.
Qed.

(** A counted string inside a packet is found and lies before the end. *)
Lemma readMQTTLenString_text old enddata text pre post :
  zlen text < 65536 → zlen pre + 2 + zlen text ≤ enddata →
  readMQTTLenString old enddata (RBuf (pre ++ int_bytes (zlen text) ++ text ++ post) (zlen pre)) =
  Ok ((1, Build_MQTTString None (Build_MQTTLenString (zlen text) (Some (zlen pre + 2)))),
      RBuf (pre ++ int_bytes (zlen text) ++ text ++ post) (zlen pre + 2 + zlen text)).
Proof.
  intros Ht He. unfold readMQTTLenString; cbn [rb_ptr rb_buf].
  rewrite (proj2 (Z.ltb_lt _ _)) by lia.
  rewrite (reads_int (zlen text) ltac:(lia) pre (text ++ post)). cbn [mbind outcome_bind rb_ptr rb_buf].
  change (zlen (int_bytes (zlen text))) with 2. by rewrite (proj2 (Z.leb_le _ _)) by lia.
Qed.
