(* ===== verification/MQTTConnect.v ===== *)
(** * MQTTConnectClient.c: CONNECT, CONNACK and the two-byte packets

    Models [src/main/src/MQTTCommon/MQTTConnectClient.c] and the types of
    [MQTTConnect.h]. *)

From S2P Require Import Prelude MQTTPacket.

(** ** Types *)

Record MQTTPacket_willOptions := {
  will_struct_id : list Z;
  will_struct_version : Z;
  topicName : MQTTString (list Z);
  message : MQTTString (list Z);
  retained : Z;
  qos : Z }.

Definition MQTTPacket_willOptions_initializer : MQTTPacket_willOptions :=
  {| will_struct_id := bytes "MQTW"; will_struct_version := 0;
     topicName := MQTTString_initializer; message := MQTTString_initializer;
     retained := 0; qos := 0 |}.

Record MQTTPacket_connectData := {
  struct_id : list Z;
  struct_version : Z;
  MQTTVersion : Z;
  clientID : MQTTString (list Z);
  keepAliveInterval : Z;
  cleansession : Z;
  willFlag : Z;
  will : MQTTPacket_willOptions;
  username : MQTTString (list Z);
  password : MQTTString (list Z) }.

Definition MQTTPacket_connectData_initializer : MQTTPacket_connectData :=
  {| struct_id := bytes "MQTC"; struct_version := 0; MQTTVersion := 4;
     clientID := MQTTString_initializer; keepAliveInterval := 60; cleansession := 1;
     willFlag := 0; will := MQTTPacket_willOptions_initializer;
     username := MQTTString_initializer; password := MQTTString_initializer |}.

(** The bit fields of [MQTTConnectFlags] and [MQTTConnackFlags]. *)
Definition set_flag_cleansession (v b : Z) : Z := bits_set 1 1 v b.
Definition set_flag_will (v b : Z) : Z := bits_set 2 1 v b.
Definition set_flag_willQoS (v b : Z) : Z := bits_set 3 2 v b.
Definition set_flag_willRetain (v b : Z) : Z := bits_set 5 1 v b.
Definition set_flag_password (v b : Z) : Z := bits_set 6 1 v b.
Definition set_flag_username (v b : Z) : Z := bits_set 7 1 v b.
Definition connack_sessionpresent (b : Z) : Z := bits_get 7 1 b.

(** [s.cstring || s.lenstring.data] *)
Definition present (s : MQTTString (list Z)) : bool :=
  match cstring s, data (lenstring s) with None, None => false | _, _ => true end.

(** ** Operations *)

Definition MQTTSerialize_connectLength (o : MQTTPacket_connectData) : Z :=
  let len := if MQTTVersion o =? 3 then 12 else if MQTTVersion o =? 4 then 10 else 0 in
  let len := len + (MQTTstrlen (clientID o) + 2) in
  let len := if negb (willFlag o =? 0) then
      len + (MQTTstrlen (topicName (will o)) + 2 + MQTTstrlen (message (will o)) + 2) else len in
  let len := if present (username o) then len + (MQTTstrlen (username o) + 2) else len in
  if present (password o) then len + (MQTTstrlen (password o) + 2) else len.

Definition connect_flags (o : MQTTPacket_connectData) : Z :=
  let f := set_flag_cleansession (cleansession o) 0 in
  let f := set_flag_will (if negb (willFlag o =? 0) then 1 else 0) f in
  let f := if negb (bits_get 2 1 f =? 0) then
      set_flag_willRetain (retained (will o)) (set_flag_willQoS (qos (will o)) f) else f in
  let f := if present (username o) then set_flag_username 1 f else f in
  if present (password o) then set_flag_password 1 f else f.

(** The writes of [MQTTSerialize_connect] after its size check. *)
Definition connect_writer (o : MQTTPacket_connectData) (len : Z) : M wbuf () :=
  let flags := connect_flags o in
  writeChar (set_header_type CONNECT_MSG 0) ;;
  write_encoded len ;;
  (if MQTTVersion o =? 4 then writeCString (bytes "MQTT") ;; writeChar 4
   else writeCString (bytes "MQIsdp") ;; writeChar 3) ;;
  writeChar flags ;;
  writeInt (keepAliveInterval o) ;;
  writeMQTTString (clientID o) ;;
  (if negb (willFlag o =? 0) then
     writeMQTTString (topicName (will o)) ;; writeMQTTString (message (will o))
   else mret ()) ;;
  (if negb (bits_get 7 1 flags =? 0) then writeMQTTString (username o) else mret ()) ;;
  (if negb (bits_get 6 1 flags =? 0) then writeMQTTString (password o) else mret ()).

Definition MQTTSerialize_connect (buf : list Z) (buflen : Z) (o : MQTTPacket_connectData) :
    outcome (Z * list Z) :=
  let len := MQTTSerialize_connectLength o in
  if buflen <? MQTTPacket_len len then Ok (MQTTPACKET_BUFFER_TOO_SHORT, buf)
  else '(_, w) ← connect_writer o len (WBuf buf 0); Ok (wb_ptr w, wb_buf w).

(** Result code, session-present flag and CONNACK return code; the last two
    keep the caller's values when nothing is stored. *)
Definition MQTTDeserialize_connack (sessionPresent connack_rc : Z) (buf : list Z) :
    outcome (Z * Z * Z) :=
  '(byte, r) ← readChar (RBuf buf 0);
  if negb (header_type byte =? CONNACK_MSG) then Ok (0, sessionPresent, connack_rc) else
  '(rc, mylen) ← MQTTPacket_decodeBuf buf (rb_ptr r);
  let curdata := rb_ptr r + rc in
  let enddata := curdata + mylen in
  if enddata - curdata <? 2 then Ok (rc, sessionPresent, connack_rc) else
  '(flags, r) ← readChar (RBuf buf curdata);
  '(c, r) ← readChar r;
  Ok (1, connack_sessionpresent flags, c).

Definition MQTTSerialize_zero (buf : list Z) (buflen packettype : Z) : outcome (Z * list Z) :=
  if buflen <? 2 then Ok (MQTTPACKET_BUFFER_TOO_SHORT, buf)
  else '(_, w) ← (writeChar (set_header_type packettype 0) ;; write_encoded 0) (WBuf buf 0);
       Ok (wb_ptr w, wb_buf w).

Definition MQTTSerialize_disconnect (buf : list Z) (buflen : Z) : outcome (Z * list Z) :=
  MQTTSerialize_zero buf buflen DISCONNECT_MSG.
Definition MQTTSerialize_pingreq (buf : list Z) (buflen : Z) : outcome (Z * list Z) :=
  MQTTSerialize_zero buf buflen PINGREQ_MSG.

(** ** The CONNECT packet of the MQTT standard *)

(** A length-prefixed string. *)
Definition str_bytes (s : MQTTString (list Z)) : list Z :=
  int_bytes (MQTTstrlen s) ++ mqttstring_text s.

(** Everything that follows the remaining length. *)
Definition connect_body (o : MQTTPacket_connectData) : list Z :=
  (if MQTTVersion o =? 4 then [0; 4] ++ bytes "MQTT" ++ [4] else [0; 6] ++ bytes "MQIsdp" ++ [3]) ++
  [connect_flags o] ++ int_bytes (keepAliveInterval o) ++ str_bytes (clientID o) ++
  (if negb (willFlag o =? 0) then str_bytes (topicName (will o)) ++ str_bytes (message (will o)) else []) ++
  (if present (username o) then str_bytes (username o) else []) ++
  (if present (password o) then str_bytes (password o) else []).

Definition connect_packet (o : MQTTPacket_connectData) : list Z :=
  [16] ++ remlen_bytes (zlen (connect_body o)) ++ connect_body o.

(** Options the library can serialize: a protocol version it knows and strings
    that are well formed. *)
Definition connect_ok (o : MQTTPacket_connectData) : Prop :=
  (MQTTVersion o = 3 ∨ MQTTVersion o = 4) ∧
  mqttstring_ok (clientID o) ∧ mqttstring_ok (topicName (will o)) ∧
  mqttstring_ok (message (will o)) ∧ mqttstring_ok (username o) ∧ mqttstring_ok (password o).
#[export] Instance connect_ok_dec o : Decision (connect_ok o) := _.

Lemma str_bytes_length s : mqttstring_ok s → zlen (str_bytes s) = MQTTstrlen s + 2.
Proof.
  intros H. unfold str_bytes. rewrite length_app, Nat2Z.inj_add, mqttstring_text_length by done.
  cbn. lia.
Qed.

(** [MQTTSerialize_connectLength] computes the length of the body. *)
Lemma connectLength_body o :
  connect_ok o → MQTTSerialize_connectLength o = zlen (connect_body o).
Proof.
  intros (Hv & ? & ? & ? & ? & ?). unfold MQTTSerialize_connectLength, connect_body.
  rewrite !length_app, !Nat2Z.inj_add, str_bytes_length by done.
  replace (zlen (int_bytes (keepAliveInterval o))) with 2 by done.
  replace (zlen (if negb (willFlag o =? 0) then _ else _)) with
    (if negb (willFlag o =? 0) then MQTTstrlen (topicName (will o)) + 2 + (MQTTstrlen (message (will o)) + 2) else 0)
    by (case_match; [rewrite length_app, Nat2Z.inj_add, !str_bytes_length by done|]; done).
  replace (zlen (if present (username o) then _ else _)) with
    (if present (username o) then MQTTstrlen (username o) + 2 else 0)
    by (case_match; [by rewrite str_bytes_length by done|done]).
  replace (zlen (if present (password o) then _ else _)) with
    (if present (password o) then MQTTstrlen (password o) + 2 else 0)
    by (case_match; [by rewrite str_bytes_length by done|done]).
  destruct Hv as [-> | ->]; cbn [Z.eqb Pos.eqb app length bytes]; repeat case_match; lia.
Qed.

Lemma connect_flags_user o : negb (bits_get 7 1 (connect_flags o) =? 0) = present (username o).
Proof.
  unfold connect_flags, set_flag_password, set_flag_username, set_flag_willRetain,
    set_flag_willQoS, set_flag_will, set_flag_cleansession.
  repeat case_match; repeat (rewrite bits_get_set_other by lia);
    rewrite ?bits_get_set_same by lia; done.
Qed.

Lemma connect_flags_password o : negb (bits_get 6 1 (connect_flags o) =? 0) = present (password o).
Proof.
  unfold connect_flags, set_flag_password, set_flag_username, set_flag_willRetain,
    set_flag_willQoS, set_flag_will, set_flag_cleansession.
  repeat case_match; repeat (rewrite bits_get_set_other by lia);
    rewrite ?bits_get_set_same by lia; done.
Qed.

Lemma connect_flags_byte o : is_byte (connect_flags o).
Proof.
  unfold connect_flags, set_flag_password, set_flag_username, set_flag_willRetain,
    set_flag_willQoS, set_flag_will, set_flag_cleansession, is_byte. change 256 with (2 ^ 8).
  repeat case_match; repeat (apply bits_set_range; [lia..|]); lia.
Qed.

Lemma emits_str s : mqttstring_ok s → Emits (writeMQTTString s) (str_bytes s).
Proof. apply emits_writeMQTTString. Qed.
#[export] Hint Resolve emits_str : emits.

Lemma connect_writer_emits o :
  connect_ok o → zlen (connect_body o) < 2 ^ 31 →
  Emits (connect_writer o (zlen (connect_body o))) (connect_packet o).
Proof.
  intros (Hv & ? & ? & ? & ? & ?) Hn. unfold connect_writer, connect_packet, connect_body.
  cbn zeta. rewrite connect_flags_user, connect_flags_password.
  apply (emits_seq _ _ [16]); [apply (emits_writeChar 16)|].
  apply emits_seq; [apply emits_write_encoded; fold (connect_body o); lia|].
  apply emits_seq.
  { apply emits_if.
    - exact (emits_seq _ _ (int_bytes 4 ++ bytes "MQTT") [4]
        (emits_writeCString (bytes "MQTT")) (emits_writeChar 4)).
    - exact (emits_seq _ _ (int_bytes 6 ++ bytes "MQIsdp") [3]
        (emits_writeCString (bytes "MQIsdp")) (emits_writeChar 3)). }
  apply (emits_seq _ _ [connect_flags o]).
  { pose proof (connect_flags_byte o) as Hb. pose proof (emits_writeChar (connect_flags o)) as He.
    unfold u8 in He. by rewrite Z.mod_small in He. }
  eauto 20 with emits.
Qed.

Lemma packet_fits (body buf : list Z) buflen :
  zlen body < 268435456 → buflen ≤ zlen buf → MQTTPacket_len (zlen body) ≤ buflen →
  zlen ([16] ++ remlen_bytes (zlen body) ++ body) ≤ zlen buf.
Proof.
  intros. pose proof (MQTTPacket_len_ge (zlen body) ltac:(lia)). unfold packet_length in *.
  rewrite !length_app. cbn [length]. lia.
Qed.

Lemma serialize_connect_fits buf buflen o :
  connect_ok o → zlen (connect_body o) < 268435456 → buflen ≤ zlen buf →
  MQTTPacket_len (zlen (connect_body o)) ≤ buflen →
  MQTTSerialize_connect buf buflen o =
  Ok (zlen (connect_packet o), connect_packet o ++ drop (length (connect_packet o)) buf).
Proof.
  intros Hok Hn Hbl Hfit. unfold MQTTSerialize_connect. cbn zeta. rewrite connectLength_body by done.
  rewrite (proj2 (Z.ltb_ge _ _)) by done.
  pose proof (connect_writer_emits o Hok ltac:(lia)).
  rewrite (emits_run _ (connect_packet o)); [done|]. by apply (packet_fits _ _ buflen).
Qed.

(** CONNECT is serialized exactly and never overruns: for every set of
    options the library supports, [MQTTSerialize_connect] either reports that
    the buffer is too short and leaves it alone, or writes the CONNECT packet
    of the MQTT standard (flags, keep-alive, client id, will, user name,
    password) at its start, changes nothing behind it and returns its length. *)
Theorem MQTTSerialize_connect_correct (buf : list Z) (buflen : Z) (o : MQTTPacket_connectData) :
  connect_ok o → zlen (connect_body o) < 268435456 → buflen ≤ zlen buf →
  MQTTSerialize_connect buf buflen o =
  if buflen <? MQTTPacket_len (zlen (connect_body o)) then Ok (MQTTPACKET_BUFFER_TOO_SHORT, buf)
  else Ok (zlen (connect_packet o), connect_packet o ++ drop (length (connect_packet o)) buf).
Proof.
  intros Hok Hn Hbl.
  destruct (Z.ltb_spec buflen (MQTTPacket_len (zlen (connect_body o))));
    [|by apply serialize_connect_fits].
  unfold MQTTSerialize_connect. cbn zeta. rewrite connectLength_body by done.
  by rewrite (proj2 (Z.ltb_lt _ _)).
Qed.

(** A connection request such as the firmware makes: protocol 3, client id,
    user name and password. *)
Definition example_options : MQTTPacket_connectData :=
  {| struct_id := bytes "MQTC"; struct_version := 0; MQTTVersion := 3;
     clientID := Build_MQTTString (Some (bytes "id")) (Build_MQTTLenString 0 None);
     keepAliveInterval := 60; cleansession := 1; willFlag := 0;
     will := MQTTPacket_willOptions_initializer;
     username := Build_MQTTString (Some (bytes "u")) (Build_MQTTLenString 0 None);
     password := Build_MQTTString (Some (bytes "p")) (Build_MQTTLenString 0 None) |}.

Lemma MQTTSerialize_connect_correct_witness :
  MQTTSerialize_connect (replicate 40 0) 40 example_options =
  Ok (24, [16; 22; 0; 6] ++ bytes "MQIsdp" ++ [3; 194; 0; 60; 0; 2] ++ bytes "id" ++
          [0; 1] ++ bytes "u" ++ [0; 1] ++ bytes "p" ++ replicate 16 0).
Proof.
  rewrite (MQTTSerialize_connect_correct (replicate 40 0) 40 example_options).
  - vm_compute. reflexivity.
  - decide_vm.
  - vm_compute. reflexivity.
  - vm_compute. discriminate.
Defined.

(** ** CONNACK and the packets without a body *)

Lemma deserialize_connack_body sp crc h fl code rest :
  header_type h = CONNACK_MSG →
  MQTTDeserialize_connack sp crc (h :: 2 :: fl :: code :: rest) =
  Ok (1, connack_sessionpresent fl, code).
Proof.
  intros Hh. unfold MQTTDeserialize_connack. rewrite readChar_0. cbn [mbind outcome_bind].
  rewrite Hh. cbn [Z.eqb Pos.eqb CONNACK_MSG negb rb_ptr]. by rewrite decodeBuf_short by lia.
Qed.

(** CONNACK: a well-formed acknowledgement yields 1 and its return code;
    any other packet type yields 0; an acknowledgement whose remaining length
    is below 2 also yields 1, the success code, but stores nothing, so the
    caller's initial return code (255 in [MQTTConnect]) decides. *)
Theorem MQTTDeserialize_connack_cases (sp crc h n fl code : Z) (rest : list Z) :
  0 ≤ n < 128 →
  MQTTDeserialize_connack sp crc (h :: n :: fl :: code :: rest) =
  if negb (header_type h =? CONNACK_MSG) then Ok (0, sp, crc)
  else if n <? 2 then Ok (1, sp, crc)
  else Ok (1, connack_sessionpresent fl, code).
Proof.
  intros Hn. unfold MQTTDeserialize_connack. rewrite readChar_0. cbn [mbind outcome_bind].
  destruct (negb _); [done|]. cbn [rb_ptr]. rewrite decodeBuf_short by lia.
  cbn [mbind outcome_bind]. replace (1 + 1 + n - (1 + 1)) with n by lia.
  by destruct (n <? 2).
Qed.

Lemma MQTTDeserialize_connack_cases_witness :
  MQTTDeserialize_connack 0 255 [32; 2; 0; 5] = Ok (1, 0, 5) ∧
  MQTTDeserialize_connack 0 255 [32; 1; 0; 0] = Ok (1, 0, 255).
Proof.
  split; [exact (MQTTDeserialize_connack_cases 0 255 32 2 0 5 [] ltac:(lia))|].
  exact (MQTTDeserialize_connack_cases 0 255 32 1 0 0 [] ltac:(lia)).
Defined.

Lemma MQTTSerialize_zero_correct buf buflen t :
  0 ≤ t < 16 → buflen ≤ zlen buf →
  MQTTSerialize_zero buf buflen t =
  if buflen <? 2 then Ok (MQTTPACKET_BUFFER_TOO_SHORT, buf)
  else Ok (2, [16 * t; 0] ++ drop 2 buf).
Proof.
  intros Ht Hb. unfold MQTTSerialize_zero. destruct (Z.ltb_spec buflen 2); [done|].
  assert (E : Emits (writeChar (set_header_type t 0) ;; write_encoded 0) [16 * t; 0]).
  { apply (emits_seq _ _ [16 * t] [0]).
    - pose proof (emits_writeChar (set_header_type t 0)) as He.
      rewrite header_type_shift in * by lia. unfold u8 in He. by rewrite Z.mod_small in He by lia.
    - apply (emits_write_encoded 0). lia. }
  rewrite (emits_run _ [16 * t; 0]) by (cbn; lia). done.
Qed.
