(* ===== verification/MQTTPublish.v ===== *)
(** * MQTTSerializePublish.c and MQTTDeserializePublish.c

    PUBLISH and the acknowledgement packets, in both directions. *)

From S2P Require Import Prelude MQTTPacket.

(** ** Operations *)

Definition MQTTSerialize_publishLength (qos : Z) (topicName : MQTTString (list Z)) (payloadlen : Z) : Z :=
  let len := 2 + MQTTstrlen topicName + payloadlen in
  if 0 <? qos then len + 2 else len.

(** The writes after the size check; [payload] is the memory the pointer
    designates, [payloadlen] bytes of which are copied. *)
Definition publish_writer (dup qos retained packetid : Z) (topicName : MQTTString (list Z))
    (payload : list Z) (payloadlen rem_len : Z) : M wbuf () :=
  writeChar (set_header_retain retained (set_header_qos qos (set_header_dup dup
    (set_header_type PUBLISH_MSG 0)))) ;;
  write_encoded rem_len ;;
  writeMQTTString topicName ;;
  (if 0 <? qos then writeInt packetid else mret ()) ;;
  (lift (load_bytes payload 0 payloadlen) ≫= write_bytes).

Definition MQTTSerialize_publish (buf : list Z) (buflen dup qos retained packetid : Z)
    (topicName : MQTTString (list Z)) (payload : list Z) (payloadlen : Z) : outcome (Z * list Z) :=
  let rem_len := MQTTSerialize_publishLength qos topicName payloadlen in
  if buflen <? MQTTPacket_len rem_len then Ok (MQTTPACKET_BUFFER_TOO_SHORT, buf)
  else '(_, w) ← publish_writer dup qos retained packetid topicName payload payloadlen rem_len
         (WBuf buf 0);
       Ok (wb_ptr w, wb_buf w).

Definition MQTTSerialize_ack (buf : list Z) (buflen packettype dup packetid : Z) :
    outcome (Z * list Z) :=
  if buflen <? 4 then Ok (MQTTPACKET_BUFFER_TOO_SHORT, buf)
  else
    let byte := set_header_qos (if packettype =? PUBREL_MSG then 1 else 0)
      (set_header_dup dup (set_header_type packettype 0)) in
    '(_, w) ← (writeChar byte ;; write_encoded 2 ;; writeInt packetid) (WBuf buf 0);
    Ok (wb_ptr w, wb_buf w).

Definition MQTTSerialize_puback (buf : list Z) (buflen packetid : Z) : outcome (Z * list Z) :=
  MQTTSerialize_ack buf buflen PUBACK_MSG 0 packetid.
Definition MQTTSerialize_pubrel (buf : list Z) (buflen dup packetid : Z) : outcome (Z * list Z) :=
  MQTTSerialize_ack buf buflen PUBREL_MSG dup packetid.
Definition MQTTSerialize_pubcomp (buf : list Z) (buflen packetid : Z) : outcome (Z * list Z) :=
  MQTTSerialize_ack buf buflen PUBCOMP_MSG 0 packetid.

(** The out parameters of [MQTTDeserialize_publish]: topic and payload are
    positions in the buffer. *)
Record publish_out := {
  pub_dup : Z; pub_qos : Z; pub_retained : Z; pub_packetid : Z;
  pub_topicName : MQTTString Z; pub_payload : Z; pub_payloadlen : Z }.

(** Returns the result code and the out parameters, [o] being their values
    before the call. *)
Definition MQTTDeserialize_publish (o : publish_out) (buf : list Z) : outcome (Z * publish_out) :=
  '(byte, r) ← readChar (RBuf buf 0);
  if negb (header_type byte =? PUBLISH_MSG) then Ok (0, o) else
  let qos := header_qos byte in
  '(rc, mylen) ← MQTTPacket_decodeBuf buf (rb_ptr r);
  let curdata := rb_ptr r + rc in
  let enddata := curdata + mylen in
  '((ok, topicName), r) ← readMQTTLenString (lenstring (pub_topicName o)) enddata (RBuf buf curdata);
  let o := {| pub_dup := header_dup byte; pub_qos := qos; pub_retained := header_retain byte;
              pub_packetid := pub_packetid o; pub_topicName := topicName;
              pub_payload := pub_payload o; pub_payloadlen := pub_payloadlen o |} in
  if (ok =? 0) || (enddata - rb_ptr r <? 0) then Ok (rc, o) else
  '(packetid, r) ← (if 0 <? qos then readInt r else Ok (pub_packetid o, r));
  Ok (1, {| pub_dup := pub_dup o; pub_qos := qos; pub_retained := pub_retained o;
            pub_packetid := packetid; pub_topicName := topicName;
            pub_payload := rb_ptr r; pub_payloadlen := enddata - rb_ptr r |}).

(** Result code, packet type, dup flag and packet id. *)
Definition MQTTDeserialize_ack (packetid : Z) (buf : list Z) : outcome (Z * Z * Z * Z) :=
  '(byte, r) ← readChar (RBuf buf 0);
  '(rc, mylen) ← MQTTPacket_decodeBuf buf (rb_ptr r);
  let curdata := rb_ptr r + rc in
  let enddata := curdata + mylen in
  if enddata - curdata <? 2 then Ok (rc, header_type byte, header_dup byte, packetid) else
  '(id, _) ← readInt (RBuf buf curdata);
  Ok (1, header_type byte, header_dup byte, id).

(** ** The PUBLISH packet of the MQTT standard *)

Definition publish_body (qos packetid : Z) (topic : MQTTString (list Z)) (payload : list Z) : list Z :=
  (int_bytes (MQTTstrlen topic) ++ mqttstring_text topic) ++
  (if 0 <? qos then int_bytes packetid else []) ++ payload.

Definition publish_packet (dup qos retained packetid : Z) (topic : MQTTString (list Z))
    (payload : list Z) : list Z :=
  header_byte PUBLISH_MSG dup qos retained ::
  remlen_bytes (zlen (publish_body qos packetid topic payload)) ++
  publish_body qos packetid topic payload.

Lemma publishLength_body qos packetid topic payload :
  mqttstring_ok topic →
  MQTTSerialize_publishLength qos topic (zlen payload) =
  zlen (publish_body qos packetid topic payload).
Proof.
  intros Hok. unfold MQTTSerialize_publishLength, publish_body.
  rewrite !length_app, !Nat2Z.inj_add, mqttstring_text_length by done.
  change (zlen (int_bytes (MQTTstrlen topic))) with 2.
  destruct (0 <? qos); [change (zlen (int_bytes packetid)) with 2|change (zlen (@nil Z)) with 0]; lia.
Qed.

(** Only the first [payloadlen] bytes behind the payload pointer matter. *)
Lemma serialize_publish_slack buf buflen dup qos retained packetid topic payload slack :
  MQTTSerialize_publish buf buflen dup qos retained packetid topic (payload ++ slack) (zlen payload) =
  MQTTSerialize_publish buf buflen dup qos retained packetid topic payload (zlen payload).
Proof.
  assert (E : load_bytes (payload ++ slack) 0 (zlen payload) = load_bytes payload 0 (zlen payload)).
  { rewrite (load_bytes_at (payload ++ slack) [] payload slack) by done.
    by rewrite (load_bytes_at payload [] payload []) by (by rewrite ?app_nil_r). }
  unfold MQTTSerialize_publish, publish_writer. by rewrite E.
Qed.

Lemma publish_writer_emits dup qos retained packetid topic payload :
  mqttstring_ok topic → zlen (publish_body qos packetid topic payload) < 2 ^ 31 →
  Emits (publish_writer dup qos retained packetid topic payload (zlen payload)
           (zlen (publish_body qos packetid topic payload)))
        (publish_packet dup qos retained packetid topic payload).
Proof.
  intros Hok Hn. unfold publish_writer, publish_packet.
  apply (emits_seq _ _ [header_byte PUBLISH_MSG dup qos retained]).
  { pose proof (header_byte_range PUBLISH_MSG dup qos retained) as Hb.
    pose proof (emits_writeChar (header_byte PUBLISH_MSG dup qos retained)) as He.
    unfold u8 in He. by rewrite Z.mod_small in He. }
  apply emits_seq; [apply emits_write_encoded; lia|]. unfold publish_body.
  apply emits_seq; [by apply emits_writeMQTTString|].
  apply emits_seq; [apply emits_if; apply _|].
  intros pre old post Hl. unfold mbind, M_bind, lift.
  rewrite <- (app_nil_r payload) at 1.
  replace (load_bytes (payload ++ []) 0 (zlen payload)) with (Ok payload)
    by (symmetry; apply (load_bytes_app [] payload [])).
  by apply emits_write_bytes.
Qed.

Lemma serialize_publish_fits (buf : list Z) (buflen dup qos retained packetid : Z)
    (topic : MQTTString (list Z)) (payload : list Z) :
  mqttstring_ok topic → zlen (publish_body qos packetid topic payload) < 268435456 →
  buflen ≤ zlen buf →
  MQTTPacket_len (zlen (publish_body qos packetid topic payload)) ≤ buflen →
  let pkt := publish_packet dup qos retained packetid topic payload in
  MQTTSerialize_publish buf buflen dup qos retained packetid topic payload (zlen payload) =
  Ok (zlen pkt, pkt ++ drop (length pkt) buf).
Proof.
  intros Hok Hn Hbl Hfit pkt. unfold MQTTSerialize_publish. cbn zeta.
  rewrite (publishLength_body qos packetid), (proj2 (Z.ltb_ge _ _)) by done.
  pose proof (publish_writer_emits dup qos retained packetid topic payload Hok ltac:(lia)).
  rewrite (emits_run _ pkt); [done|].
  pose proof (MQTTPacket_len_ge (zlen (publish_body qos packetid topic payload)) ltac:(lia)).
  unfold packet_length in *. unfold pkt, publish_packet. cbn [length]. rewrite length_app. lia.
Qed.

(** [C8] PUBLISH is serialized exactly and never overruns: either the buffer is
    reported too short and left alone, or its start becomes the PUBLISH packet
    (header with dup, QoS and retain, topic, packet id only for QoS above 0,
    payload), the rest of the buffer is unchanged and the packet's length is
    returned. *)
Theorem MQTTSerialize_publish_correct (buf : list Z) (buflen dup qos retained packetid : Z)
    (topic : MQTTString (list Z)) (payload : list Z) :
  mqttstring_ok topic → zlen (publish_body qos packetid topic payload) < 268435456 →
  buflen ≤ zlen buf →
  let pkt := publish_packet dup qos retained packetid topic payload in
  MQTTSerialize_publish buf buflen dup qos retained packetid topic payload (zlen payload) =
  if buflen <? MQTTPacket_len (zlen (publish_body qos packetid topic payload))
  then Ok (MQTTPACKET_BUFFER_TOO_SHORT, buf)
  else Ok (zlen pkt, pkt ++ drop (length pkt) buf).
Proof.
  intros Hok Hn Hbl pkt.
  destruct (Z.ltb_spec buflen (MQTTPacket_len (zlen (publish_body qos packetid topic payload))));
    [|by apply serialize_publish_fits].
  unfold MQTTSerialize_publish. rewrite (publishLength_body qos packetid) by done.
  by rewrite (proj2 (Z.ltb_lt _ _)).
Qed.

(** The packet the firmware sends for one sensor value, QoS 1. *)
Lemma MQTTSerialize_publish_correct_witness :
  MQTTSerialize_publish (replicate 16 0) 16 0 1 1 258
    (Build_MQTTString (Some (bytes "t/1")) (Build_MQTTLenString 0 None)) (bytes "c=21") 4 =
  Ok (13, [51; 11; 0; 3] ++ bytes "t/1" ++ [1; 2] ++ bytes "c=21" ++ [0; 0; 0]).
Proof.
  etransitivity.
  - apply (MQTTSerialize_publish_correct (replicate 16 0) 16 0 1 1 258
      (Build_MQTTString (Some (bytes "t/1")) (Build_MQTTLenString 0 None)) (bytes "c=21"));
      [decide_vm|decide_vm|decide_vm].
  - vm_compute. reflexivity.
Defined.

(** Where the parts of a received PUBLISH lie. *)
Definition received_publish (dup qos retained packetid : Z) (topic payload : list Z)
    (b : list Z) (o : publish_out) : Prop :=
  pub_dup o = dup ∧ pub_qos o = qos ∧ pub_retained o = retained ∧
  (0 < qos → pub_packetid o = packetid) ∧
  cstring (pub_topicName o) = None ∧
  (∃ off, data (lenstring (pub_topicName o)) = Some off ∧
     load_bytes b off (len (lenstring (pub_topicName o))) = Ok topic) ∧
  load_bytes b (pub_payload o) (pub_payloadlen o) = Ok payload.

Section Received.
Variables (dup qos retained packetid : Z) (topic : MQTTString (list Z)) (payload post : list Z).
Hypotheses (Hq : 0 ≤ qos < 4) (Hid : 0 ≤ packetid < 65536) (Hok : mqttstring_ok topic)
  (Ht : MQTTstrlen topic < 65536)
  (Hn : zlen (publish_body qos packetid topic payload) < 268435456).

Let text := mqttstring_text topic.
Let body := publish_body qos packetid topic payload.
Let rl := remlen_bytes (zlen body).
Let h := header_byte PUBLISH_MSG dup qos retained.
Let idb := if 0 <? qos then int_bytes packetid else [].
Let b := publish_packet dup qos retained packetid topic payload ++ post.

Lemma text_strlen : zlen text = MQTTstrlen topic.
Proof. by apply mqttstring_text_length. Qed.

Lemma received_layout :
  b = ([h] ++ rl) ++ int_bytes (zlen text) ++ text ++ (idb ++ payload ++ post).
Proof.
  subst b. unfold publish_packet. fold body h rl. cbn [app]. f_equal.
  rewrite <- !app_assoc. f_equal. unfold body, publish_body. rewrite text_strlen.
  fold text idb. by rewrite <- !app_assoc.
Qed.

Lemma received_length : zlen body = 2 + zlen text + zlen idb + zlen payload.
Proof.
  unfold body, publish_body. fold text idb. rewrite !length_app.
  change (length (int_bytes _)) with 2%nat. lia.
Qed.

(** The packet id is read where the topic ends, if there is one. *)
Lemma received_id old :
  (if 0 <? qos then readInt (RBuf b (1 + zlen rl + 2 + zlen text))
   else Ok (old, RBuf b (1 + zlen rl + 2 + zlen text))) =
  Ok (if 0 <? qos then packetid else old, RBuf b (1 + zlen rl + 2 + zlen text + zlen idb)).
Proof.
  unfold idb. case_eq (0 <? qos); intros E; [|by rewrite Z.add_0_r].
  pose proof (reads_int packetid Hid) as Hr.
  apply (reads_at _ (int_bytes packetid) packetid _ (([h] ++ rl) ++ int_bytes (zlen text) ++ text)
    (payload ++ post)).
  - rewrite received_layout. unfold idb. rewrite E. by rewrite <- !app_assoc.
  - rewrite !length_app. change (length (int_bytes _)) with 2%nat.
    change (length [h]) with 1%nat. lia.
Qed.

Lemma deserialize_publish_packet o0 :
  ∃ o, MQTTDeserialize_publish o0 b = Ok (1, o) ∧
    received_publish (dup mod 2) qos (retained mod 2) packetid text payload b o.
Proof.
  destruct (header_byte_fields PUBLISH_MSG dup qos retained) as (Fty & Fd & Fq & Fr).
  fold h in Fty, Fd, Fq, Fr. rewrite Z.mod_small in Fq by lia.
  pose proof received_length as Hbl. pose proof text_strlen as Htl. fold body in Hn.
  unfold MQTTDeserialize_publish.
  replace (readChar (RBuf b 0)) with (Ok (h, RBuf b 1)) by
    (rewrite received_layout; symmetry; apply readChar_0).
  cbn [mbind outcome_bind]. rewrite Fty.
  change (PUBLISH_MSG mod 16 =? PUBLISH_MSG) with true. cbn [negb rb_ptr].
  replace (MQTTPacket_decodeBuf b 1) with (Ok (zlen rl, zlen body)) by
    (rewrite received_layout, <- app_assoc; symmetry; apply (decodeBuf_remlen [h]); lia).
  cbn [mbind outcome_bind].
  pose proof (readMQTTLenString_text (lenstring (pub_topicName o0)) (1 + zlen rl + zlen body) text
    ([h] ++ rl) (idb ++ payload ++ post) ltac:(lia)) as Hs.
  rewrite length_app in Hs. change (length [h]) with 1%nat in Hs.
  replace (Z.of_nat (1 + length rl)) with (1 + zlen rl) in Hs by lia.
  rewrite <- received_layout in Hs. rewrite Hs by lia. cbn [mbind outcome_bind rb_ptr rb_buf].
  change (1 =? 0) with false. cbn [orb].
  rewrite (proj2 (Z.ltb_ge _ _)) by lia. rewrite Fq, Fd, Fr. cbn [pub_packetid].
  rewrite received_id. cbn [mbind outcome_bind rb_ptr pub_dup pub_retained].
  eexists. split; [done|]. unfold received_publish.
  cbn [pub_dup pub_qos pub_retained pub_packetid pub_topicName pub_payload pub_payloadlen
    cstring lenstring len data].
  split_and!; [done|done|done| |done| |].
  - intros Hp. by rewrite (proj2 (Z.ltb_lt 0 qos)).
  - eexists. split; [done|].
    apply (load_bytes_at _ (([h] ++ rl) ++ int_bytes (zlen text)) _ (idb ++ payload ++ post));
      [by rewrite received_layout, <- !app_assoc| |done].
    rewrite !length_app. change (length (int_bytes _)) with 2%nat. change (length [h]) with 1%nat. lia.
  - apply (load_bytes_at _ (([h] ++ rl) ++ int_bytes (zlen text) ++ text ++ idb) _ post);
      [by rewrite received_layout, <- !app_assoc| |lia].
    rewrite !length_app. change (length (int_bytes _)) with 2%nat. change (length [h]) with 1%nat. lia.
Qed.
End Received.

(** [C2] PUBLISH round trip: the packet [MQTTSerialize_publish] leaves in a
    buffer that is large enough is deserialized with result 1 into the same
    dup and retain flags, QoS and packet id, and the topic and payload
    positions it returns hold the bytes that were published, whatever the
    packet is followed by and whatever the out parameters held before. *)
Theorem publish_roundtrip (buf : list Z) (buflen dup qos retained packetid : Z)
    (topic : MQTTString (list Z)) (payload : list Z) (o0 : publish_out) :
  0 ≤ qos < 4 → 0 ≤ packetid < 65536 → mqttstring_ok topic → MQTTstrlen topic < 65536 →
  zlen (publish_body qos packetid topic payload) < 268435456 → buflen ≤ zlen buf →
  MQTTPacket_len (zlen (publish_body qos packetid topic payload)) ≤ buflen →
  ∃ n b o, MQTTSerialize_publish buf buflen dup qos retained packetid topic payload (zlen payload) =
             Ok (n, b) ∧
    MQTTDeserialize_publish o0 b = Ok (1, o) ∧
    received_publish (dup mod 2) qos (retained mod 2) packetid (mqttstring_text topic) payload b o.
Proof.
  intros Hq Hid Hok Ht Hn Hbl Hfit.
  destruct (deserialize_publish_packet dup qos retained packetid topic payload
    (drop (length (publish_packet dup qos retained packetid topic payload)) buf)
    Hq Hid Hok Ht Hn o0) as (o & Ho & Hr).
  eexists _, _, o. split; [|split; [exact Ho|exact Hr]].
  by apply serialize_publish_fits.
Qed.

Lemma publish_roundtrip_witness :
  let topic := Build_MQTTString (Some (bytes "t/1")) (Build_MQTTLenString 0 None) in
  let o0 := Build_publish_out 0 0 0 0 MQTTString_initializer 0 0 in
  ∃ n b o, MQTTSerialize_publish (replicate 16 0) 16 0 1 1 258 topic (bytes "c=21") 4 = Ok (n, b) ∧
    MQTTDeserialize_publish o0 b = Ok (1, o) ∧
    received_publish (0 mod 2) 1 (1 mod 2) 258 (mqttstring_text topic) (bytes "c=21") b o.
Proof.
  intros topic o0.
  apply (publish_roundtrip (replicate 16 0) 16 0 1 1 258 topic (bytes "c=21") o0); decide_vm.
Defined.

(** ** Acknowledgements *)

Definition ack_packet (packettype dup packetid : Z) : list Z :=
  header_byte packettype dup (if packettype =? PUBREL_MSG then 1 else 0) 0 :: 2 :: int_bytes packetid.

Lemma MQTTSerialize_ack_packet buf buflen ty dup id :
  4 ≤ buflen → buflen ≤ zlen buf →
  MQTTSerialize_ack buf buflen ty dup id = Ok (4, ack_packet ty dup id ++ drop 4 buf).
Proof.
  intros H4 Hbl. unfold MQTTSerialize_ack. rewrite (proj2 (Z.ltb_ge _ _)) by lia. cbn zeta.
  set (q := if ty =? PUBREL_MSG then 1 else 0).
  assert (He : Emits (writeChar (set_header_qos q (set_header_dup dup (set_header_type ty 0))) ;;
    write_encoded 2 ;; writeInt id) (ack_packet ty dup id)).
  { apply (emits_seq _ _ [header_byte ty dup q 0] (remlen_bytes 2 ++ int_bytes id)).
    - replace (set_header_qos q _) with (header_byte ty dup q 0).
      + pose proof (emits_writeChar (header_byte ty dup q 0)) as He.
        unfold u8 in He. by rewrite Z.mod_small in He by apply header_byte_range.
      + unfold header_byte. apply set_header_retain_0.
    - apply emits_seq; [by apply emits_write_encoded|apply _]. }
  rewrite (emits_run _ _ buf) by (cbn; lia). done.
Qed.

Lemma deserialize_ack_packet id0 ty dup id post :
  0 ≤ ty < 16 → 0 ≤ id < 65536 →
  MQTTDeserialize_ack id0 (ack_packet ty dup id ++ post) = Ok (1, ty, dup mod 2, id).
Proof.
  intros Hty Hid. unfold MQTTDeserialize_ack, ack_packet. cbn [app]. rewrite readChar_0.
  cbn [mbind outcome_bind rb_ptr]. rewrite decodeBuf_short by lia. cbn [mbind outcome_bind].
  change (1 + 1 + 2 - (1 + 1) <? 2) with false. cbv iota.
  destruct (header_byte_fields ty dup (if ty =? PUBREL_MSG then 1 else 0) 0) as (-> & -> & _ & _).
  rewrite (Z.mod_small ty) by lia.
  by rewrite (reads_at readInt (int_bytes id) id (Reads0 := reads_int id Hid) _
    [header_byte ty dup (if ty =? PUBREL_MSG then 1 else 0) 0; 2] post (1 + 1)).
Qed.

(** The acknowledgement packets are exact and round trip: PUBACK, PUBREC,
    PUBREL, PUBCOMP and UNSUBACK packets (the QoS bits set for PUBREL only) are
    four bytes long and are deserialized into the same packet type, dup flag
    and packet id with result 1; a buffer shorter than four bytes is refused. *)
Theorem ack_roundtrip (buf : list Z) (buflen packettype dup packetid id0 : Z) :
  0 ≤ packettype < 16 → 0 ≤ dup < 2 → 0 ≤ packetid < 65536 → buflen ≤ zlen buf →
  MQTTSerialize_ack buf buflen packettype dup packetid =
    (if buflen <? 4 then Ok (MQTTPACKET_BUFFER_TOO_SHORT, buf)
     else Ok (4, ack_packet packettype dup packetid ++ drop 4 buf)) ∧
  MQTTDeserialize_ack id0 (ack_packet packettype dup packetid ++ drop 4 buf) =
    Ok (1, packettype, dup, packetid).
Proof.
  intros Hty Hd Hid Hbl. split.
  - destruct (Z.ltb_spec buflen 4); [|by apply MQTTSerialize_ack_packet].
    unfold MQTTSerialize_ack. by rewrite (proj2 (Z.ltb_lt _ _)).
  - rewrite deserialize_ack_packet by done. by rewrite Z.mod_small.
Qed.

Lemma ack_roundtrip_witness :
  MQTTSerialize_ack (replicate 5 9) 5 PUBREL_MSG 0 513 = Ok (4, [98; 2; 2; 1; 9]) ∧
  MQTTDeserialize_ack 0 [98; 2; 2; 1; 9] = Ok (1, PUBREL_MSG, 0, 513).
Proof.
  exact (ack_roundtrip (replicate 5 9) 5 PUBREL_MSG 0 513 0 ltac:(decide_vm) ltac:(decide_vm)
    ltac:(decide_vm) ltac:(decide_vm)).
Defined.
