(* ===== verification/MQTTSubscribe.v ===== *)
(** * MQTTSubscribeClient.c and MQTTUnsubscribeClient.c

    SUBSCRIBE and UNSUBSCRIBE serialization, SUBACK and UNSUBACK
    deserialization.  The arrays of topic filters and QoS values are lists
    indexed by the loops of the code; [count] is passed beside them. *)

From S2P Require Import Prelude MQTTPacket MQTTPublish.

(** ** Operations *)

(** The loops that sum up the lengths of the topic filters, [extra] bytes
    apiece besides the two-byte length prefix. *)
Fixpoint filters_length (n : nat) (i : Z) (extra : Z) (topicFilters : list (MQTTString (list Z)))
    (acc : Z) : outcome Z :=
  match n with
  | O => Ok acc
  | S n => t ← index topicFilters i;
           filters_length n (i + 1) extra topicFilters (acc + (2 + MQTTstrlen t + extra))
  end.

Definition MQTTSerialize_subscribeLength (count : Z) (topicFilters : list (MQTTString (list Z))) :
    outcome Z := filters_length (Z.to_nat count) 0 1 topicFilters 2.

Definition MQTTSerialize_unsubscribeLength (count : Z) (topicFilters : list (MQTTString (list Z))) :
    outcome Z := filters_length (Z.to_nat count) 0 0 topicFilters 2.

Definition MQTTSerialize_subscribe (buf : list Z) (buflen dup packetid count : Z)
    (topicFilters : list (MQTTString (list Z))) (requestedQoSs : list Z) : outcome (Z * list Z) :=
  rem_len ← MQTTSerialize_subscribeLength count topicFilters;
  if buflen <? MQTTPacket_len rem_len then Ok (MQTTPACKET_BUFFER_TOO_SHORT, buf) else
  '(_, w) ← (writeChar (set_header_qos 1 (set_header_dup dup (set_header_type SUBSCRIBE_MSG 0))) ;;
             write_encoded rem_len ;;
             writeInt packetid ;;
             forM (Z.to_nat count) 0 (λ i,
               (lift (index topicFilters i) ≫= writeMQTTString) ;;
               (lift (index requestedQoSs i) ≫= writeChar))) (WBuf buf 0);
  Ok (wb_ptr w, wb_buf w).

Definition MQTTSerialize_unsubscribe (buf : list Z) (buflen dup packetid count : Z)
    (topicFilters : list (MQTTString (list Z))) : outcome (Z * list Z) :=
  rem_len ← MQTTSerialize_unsubscribeLength count topicFilters;
  if buflen <? MQTTPacket_len rem_len then Ok (MQTTPACKET_BUFFER_TOO_SHORT, buf) else
  '(_, w) ← (writeChar (set_header_qos 1 (set_header_dup dup (set_header_type UNSUBSCRIBE_MSG 0))) ;;
             write_encoded rem_len ;;
             writeInt packetid ;;
             forM (Z.to_nat count) 0 (λ i, lift (index topicFilters i) ≫= writeMQTTString))
            (WBuf buf 0);
  Ok (wb_ptr w, wb_buf w).

(** The out parameters of [MQTTDeserialize_suback]; [sub_granted] is the
    caller's array. *)
Record suback_out := { sub_packetid : Z; sub_count : Z; sub_granted : list Z }.

(** The [while (curdata < enddata)] loop: every round consumes a byte, so
    [enddata - curdata] rounds are enough.  The result is [-1] or [1]. *)
Fixpoint suback_loop (fuel : nat) (maxcount enddata : Z) (r : rbuf) (o : suback_out) :
    outcome (Z * suback_out) :=
  if rb_ptr r <? enddata then
    match fuel with
    | O => Fault OutOfFuel
    | S fuel =>
        if maxcount <? sub_count o then Ok (-1, o) else
        '(c, r) ← readChar r;
        g ← store (sub_granted o) (sub_count o) c;
        suback_loop fuel maxcount enddata r
          {| sub_packetid := sub_packetid o; sub_count := sub_count o + 1; sub_granted := g |}
    end
  else Ok (1, o).

Definition MQTTDeserialize_suback (maxcount : Z) (o : suback_out) (buf : list Z) :
    outcome (Z * suback_out) :=
  '(byte, r) ← readChar (RBuf buf 0);
  if negb (header_type byte =? SUBACK_MSG) then Ok (0, o) else
  '(rc, mylen) ← MQTTPacket_decodeBuf buf (rb_ptr r);
  let curdata := rb_ptr r + rc in
  let enddata := curdata + mylen in
  if enddata - curdata <? 2 then Ok (rc, o) else
  '(packetid, r) ← readInt (RBuf buf curdata);
  suback_loop (Z.to_nat (enddata - rb_ptr r)) maxcount enddata r
    {| sub_packetid := packetid; sub_count := 0; sub_granted := sub_granted o |}.

(** Result code and packet id. *)
Definition MQTTDeserialize_unsuback (packetid : Z) (buf : list Z) : outcome (Z * Z) :=
  '(rc, type, _, packetid) ← MQTTDeserialize_ack packetid buf;
  Ok (if type =? UNSUBACK_MSG then 1 else rc, packetid).

(** ** The packets of the MQTT standard *)

Definition filter_bytes (t : MQTTString (list Z)) : list Z :=
  int_bytes (MQTTstrlen t) ++ mqttstring_text t.

Definition request_bytes (tq : MQTTString (list Z) * Z) : list Z :=
  filter_bytes tq.1 ++ [u8 tq.2].

Definition subscribe_body (packetid : Z) (reqs : list (MQTTString (list Z) * Z)) : list Z :=
  int_bytes packetid ++ concat (request_bytes <$> reqs).

Definition unsubscribe_body (packetid : Z) (filters : list (MQTTString (list Z))) : list Z :=
  int_bytes packetid ++ concat (filter_bytes <$> filters).

(** A SUBSCRIBE or UNSUBSCRIBE packet: QoS 1 in the header, then the body. *)
Definition request_packet (type dup : Z) (body : list Z) : list Z :=
  header_byte type dup 1 0 :: remlen_bytes (zlen body) ++ body.

Definition suback_packet (packetid : Z) (granted : list Z) : list Z :=
  header_byte SUBACK_MSG 0 0 0 :: remlen_bytes (2 + zlen granted) ++ int_bytes packetid ++ granted.

(** ** Serialization *)

Lemma filters_length_sum extra (done todo : list (MQTTString (list Z))) acc :
  filters_length (length todo) (zlen done) extra (done ++ todo) acc =
  Ok (acc + foldr (λ t n, 2 + MQTTstrlen t + extra + n) 0 todo).
Proof.
  revert done acc. induction todo as [|t todo IH]; intros done acc; cbn [filters_length length foldr].
  { by rewrite Z.add_0_r. }
  rewrite (index_lookup _ _ t) by (by rewrite lookup_app_r, Nat.sub_diag by lia).
  cbn [mbind outcome_bind]. specialize (IH (done ++ [t])). rewrite length_app, <- app_assoc in IH.
  replace (zlen done + 1) with (Z.of_nat (length done + length [t])) by (cbn; lia).
  rewrite IH. f_equal. lia.
Qed.

Lemma filter_bytes_length t : mqttstring_ok t → zlen (filter_bytes t) = 2 + MQTTstrlen t.
Proof.
  intros Hok. unfold filter_bytes. rewrite length_app, Nat2Z.inj_add, mqttstring_text_length by done.
  done.
Qed.

Lemma filters_total filters : Forall mqttstring_ok filters →
  foldr (λ t n, 2 + MQTTstrlen t + 0 + n) 0 filters = zlen (concat (filter_bytes <$> filters)).
Proof.
  induction 1 as [|t l Ht _ IH]; [done|]. cbn [foldr fmap list_fmap concat].
  rewrite length_app, Nat2Z.inj_add, filter_bytes_length, IH by done. lia.
Qed.

Lemma requests_total reqs : Forall (λ r, mqttstring_ok r.1) reqs →
  foldr (λ t n, 2 + MQTTstrlen t + 1 + n) 0 reqs.*1 = zlen (concat (request_bytes <$> reqs)).
Proof.
  induction 1 as [|r l Hr _ IH]; [done|]. rewrite !fmap_cons. cbn [foldr concat]. rewrite IH.
  rewrite length_app, Nat2Z.inj_add. change (request_bytes r) with (filter_bytes r.1 ++ [u8 r.2]).
  rewrite length_app, Nat2Z.inj_add, filter_bytes_length by done.
  change (zlen [u8 r.2]) with 1. lia.
Qed.

(** A packet with the common prefix of SUBSCRIBE and UNSUBSCRIBE fits where
    [MQTTPacket_len] says so and is then written exactly. *)
Lemma request_run type dup packetid rest w body buf buflen :
  body = int_bytes packetid ++ rest → Emits w rest → zlen body < 268435456 →
  buflen ≤ zlen buf → MQTTPacket_len (zlen body) ≤ buflen →
  (writeChar (set_header_qos 1 (set_header_dup dup (set_header_type type 0))) ;;
   write_encoded (zlen body) ;; writeInt packetid ;; w) (WBuf buf 0) =
  Ok ((), WBuf (request_packet type dup body ++ drop (length (request_packet type dup body)) buf)
            (zlen (request_packet type dup body))).
Proof.
  intros Hb Hw Hn Hbl Hfit. apply emits_run.
  - apply (emits_seq _ _ [header_byte type dup 1 0] (remlen_bytes (zlen body) ++ body)).
    + unfold header_byte. rewrite set_header_retain_0.
      pose proof (emits_writeChar (header_byte type dup 1 0)) as He. unfold u8 in He.
      rewrite Z.mod_small in He by apply header_byte_range.
      unfold header_byte in He. by rewrite set_header_retain_0 in He.
    + apply emits_seq; [apply emits_write_encoded; lia|]. rewrite Hb.
      apply emits_seq; [apply _|done].
  - pose proof (MQTTPacket_len_ge (zlen body) ltac:(lia)). unfold packet_length, request_packet in *.
    cbn [length]. rewrite length_app. lia.
Qed.

(** SUBSCRIBE is serialized exactly: for every array of topic filters with
    their requested QoS, the buffer is reported too short and left alone, or
    its start becomes the SUBSCRIBE packet (header with QoS 1, packet id, each
    filter with its QoS byte in order) and the rest is unchanged. *)
Theorem MQTTSerialize_subscribe_correct (buf : list Z) (buflen dup packetid : Z)
    (reqs : list (MQTTString (list Z) * Z)) :
  Forall (λ r, mqttstring_ok r.1) reqs → zlen (subscribe_body packetid reqs) < 268435456 →
  buflen ≤ zlen buf →
  let pkt := request_packet SUBSCRIBE_MSG dup (subscribe_body packetid reqs) in
  MQTTSerialize_subscribe buf buflen dup packetid (zlen reqs) reqs.*1 reqs.*2 =
  if buflen <? MQTTPacket_len (zlen (subscribe_body packetid reqs))
  then Ok (MQTTPACKET_BUFFER_TOO_SHORT, buf)
  else Ok (zlen pkt, pkt ++ drop (length pkt) buf).
Proof.
  intros Hok Hn Hbl pkt. unfold MQTTSerialize_subscribe, MQTTSerialize_subscribeLength.
  rewrite Nat2Z.id. pose proof (filters_length_sum 1 [] reqs.*1 2) as Hlen.
  rewrite length_fmap in Hlen. cbn [app length] in Hlen. change (Z.of_nat 0) with 0 in Hlen.
  rewrite Hlen, requests_total by done. cbn [mbind outcome_bind].
  assert (Hz : 2 + zlen (concat (request_bytes <$> reqs)) = zlen (subscribe_body packetid reqs)).
  { unfold subscribe_body. rewrite length_app. change (length (int_bytes _)) with 2%nat. lia. }
  rewrite Hz. destruct (Z.ltb_spec buflen (MQTTPacket_len (zlen (subscribe_body packetid reqs)))); [done|].
  rewrite (request_run SUBSCRIBE_MSG dup packetid (concat (request_bytes <$> reqs))) with (buflen := buflen);
    try done.
  apply emits_forM. intros k [t q] E. rewrite Z.add_0_l.
  rewrite (index_lookup _ _ t), (index_lookup _ _ q) by (by rewrite list_lookup_fmap, E).
  apply emits_seq; [|apply emits_writeChar]. apply emits_writeMQTTString.
  by apply (Forall_lookup_1 _ _ _ _ Hok E).
Qed.

Lemma MQTTSerialize_subscribe_correct_witness :
  MQTTSerialize_subscribe (replicate 10 7) 10 0 5 1
    [Build_MQTTString (Some (bytes "a/#")) (Build_MQTTLenString 0 None)] [1] =
  Ok (10, [130; 8; 0; 5; 0; 3] ++ bytes "a/#" ++ [1]).
Proof.
  etransitivity.
  - apply (MQTTSerialize_subscribe_correct (replicate 10 7) 10 0 5
      [(Build_MQTTString (Some (bytes "a/#")) (Build_MQTTLenString 0 None), 1)]); decide_vm.
  - vm_compute. reflexivity.
Defined.

(** UNSUBSCRIBE is serialized exactly, in the same sense. *)
Theorem MQTTSerialize_unsubscribe_correct (buf : list Z) (buflen dup packetid : Z)
    (filters : list (MQTTString (list Z))) :
  Forall mqttstring_ok filters → zlen (unsubscribe_body packetid filters) < 268435456 →
  buflen ≤ zlen buf →
  let pkt := request_packet UNSUBSCRIBE_MSG dup (unsubscribe_body packetid filters) in
  MQTTSerialize_unsubscribe buf buflen dup packetid (zlen filters) filters =
  if buflen <? MQTTPacket_len (zlen (unsubscribe_body packetid filters))
  then Ok (MQTTPACKET_BUFFER_TOO_SHORT, buf)
  else Ok (zlen pkt, pkt ++ drop (length pkt) buf).
Proof.
  intros Hok Hn Hbl pkt. unfold MQTTSerialize_unsubscribe, MQTTSerialize_unsubscribeLength.
  rewrite Nat2Z.id. pose proof (filters_length_sum 0 [] filters 2) as Hlen.
  cbn [app length] in Hlen. change (Z.of_nat 0) with 0 in Hlen.
  rewrite Hlen, filters_total by done. cbn [mbind outcome_bind].
  assert (Hz : 2 + zlen (concat (filter_bytes <$> filters)) = zlen (unsubscribe_body packetid filters)).
  { unfold unsubscribe_body. rewrite length_app. change (length (int_bytes _)) with 2%nat. lia. }
  rewrite Hz. destruct (Z.ltb_spec buflen (MQTTPacket_len (zlen (unsubscribe_body packetid filters)))); [done|].
  rewrite (request_run UNSUBSCRIBE_MSG dup packetid (concat (filter_bytes <$> filters)))
    with (buflen := buflen); try done.
  apply emits_forM. intros k t E. rewrite Z.add_0_l, (index_lookup _ _ t) by done.
  apply emits_writeMQTTString. by apply (Forall_lookup_1 _ _ _ _ Hok E).
Qed.

Lemma MQTTSerialize_unsubscribe_correct_witness :
  MQTTSerialize_unsubscribe (replicate 12 7) 12 1 5 1
    [Build_MQTTString (Some (bytes "a/#")) (Build_MQTTLenString 0 None)] =
  Ok (9, [170; 7; 0; 5; 0; 3] ++ bytes "a/#" ++ [7; 7; 7]).
Proof.
  etransitivity.
  - apply (MQTTSerialize_unsubscribe_correct (replicate 12 7) 12 1 5
      [Build_MQTTString (Some (bytes "a/#")) (Build_MQTTLenString 0 None)]); decide_vm.
  - vm_compute. reflexivity.
Defined.

(** ** Deserialization *)

(** The loop on the codes [todo], with an array of [maxcount] cells of which
    [got] are filled. *)
Lemma suback_loop_array fuel id maxcount pre todo post got old :
  length todo = fuel → maxcount = zlen (got ++ old) →
  suback_loop fuel maxcount (zlen pre + zlen todo) (RBuf (pre ++ todo ++ post) (zlen pre))
    (Build_suback_out id (zlen got) (got ++ old)) =
  if zlen todo <=? zlen old
  then Ok (1, Build_suback_out id (zlen (got ++ todo)) (got ++ todo ++ drop (length todo) old))
  else Fault OobWrite.
Proof.
  intros <- ->. revert pre got old.
  induction todo as [|c todo IH]; intros pre got old; cbn [suback_loop length rb_ptr].
  - rewrite Z.add_0_r, Z.ltb_irrefl, (proj2 (Z.leb_le _ _)) by lia. by rewrite app_nil_r, drop_0.
  - rewrite (proj2 (Z.ltb_lt _ _)) by lia. cbn [sub_count sub_granted sub_packetid].
    rewrite (proj2 (Z.ltb_ge _ _)) by (rewrite length_app; lia). cbn [app].
    pose proof (reads_readChar c pre (todo ++ post)) as Hc. cbn [app] in Hc.
    change (zlen [c]) with 1 in Hc. rewrite Hc. cbn [mbind outcome_bind app length].
    destruct old as [|x old].
    { rewrite app_nil_r, store_oob by lia. by rewrite (proj2 (Z.leb_gt _ _)) by (cbn; lia). }
    rewrite store_app. cbn [mbind outcome_bind].
    specialize (IH (pre ++ [c]) (got ++ [c]) old).
    rewrite <- !app_assoc, !length_app in IH. cbn [app length] in *.
    rewrite !length_app. cbn [length].
    replace (zlen pre + 1) with (Z.of_nat (length pre + 1)) by lia.
    replace (zlen pre + Z.of_nat (S (length todo)))
      with (Z.of_nat (length pre + 1) + zlen todo) by lia.
    replace (zlen got + 1) with (Z.of_nat (length got + 1)) by lia.
    change (S (length old)) with (1 + length old)%nat.
    rewrite IH. cbn [drop].
    destruct (Z.leb_spec (zlen todo) (zlen old)), (Z.leb_spec (Z.of_nat (S (length todo)))
      (Z.of_nat (1 + length old))); try lia; [|done]. done.
Qed.

(** SUBACK and the caller's array: with an array of exactly [maxcount]
    cells, as the interface asks for, a SUBACK that carries at most [maxcount]
    return codes is received with result 1, its packet id, its number of codes
    and the codes at the head of the array; the first code beyond that is
    written outside the array (the guard [*count > maxcount] comes one code too
    late). *)
Theorem MQTTDeserialize_suback_array (packetid : Z) (granted post : list Z) (o : suback_out) :
  0 ≤ packetid < 65536 → zlen granted < 268435000 →
  MQTTDeserialize_suback (zlen (sub_granted o)) o (suback_packet packetid granted ++ post) =
  if zlen granted <=? zlen (sub_granted o)
  then Ok (1, Build_suback_out packetid (zlen granted)
               (granted ++ drop (length granted) (sub_granted o)))
  else Fault OobWrite.
Proof.
  intros Hid Hn. unfold MQTTDeserialize_suback, suback_packet.
  set (rl := remlen_bytes (2 + zlen granted)). cbn [app]. rewrite readChar_0.
  cbn [mbind outcome_bind rb_ptr].
  destruct (header_byte_fields SUBACK_MSG 0 0 0) as (-> & _). cbn [Z.modulo].
  change (SUBACK_MSG mod 16 =? SUBACK_MSG) with true. cbn [negb].
  set (h := header_byte SUBACK_MSG 0 0 0).
  rewrite <- !app_assoc.
  pose proof (decodeBuf_remlen [h] (2 + zlen granted) (int_bytes packetid ++ granted ++ post)
    ltac:(lia)) as Hd. fold rl in Hd. cbn [app] in Hd.
  change (zlen [h]) with 1 in Hd. rewrite Hd. cbn [mbind outcome_bind].
  rewrite (proj2 (Z.ltb_ge _ _)) by lia.
  rewrite (reads_at readInt (int_bytes packetid) packetid (Reads0 := reads_int packetid Hid) _
    (h :: rl) (granted ++ post)) by (done || cbn [length]; lia).
  cbn [mbind outcome_bind rb_ptr]. change (zlen (int_bytes packetid)) with 2.
  pose proof (suback_loop_array (length granted) packetid (zlen (sub_granted o))
    ((h :: rl) ++ int_bytes packetid) granted post [] (sub_granted o) eq_refl eq_refl) as Hs.
  rewrite <- app_assoc, length_app in Hs. cbn [app length] in Hs.
  change (length (int_bytes packetid)) with 2%nat in Hs. change (Z.of_nat 0) with 0 in Hs.
  replace (Z.of_nat (S (length rl) + 2)) with (1 + zlen rl + 2) in Hs by lia.
  rewrite <- Hs. f_equal; lia.
Qed.

(** One topic was subscribed to, the server answers with two codes. *)
Lemma MQTTDeserialize_suback_array_witness :
  MQTTDeserialize_suback 1 (Build_suback_out 0 0 [0]) (suback_packet 5 [1] ++ []) =
    Ok (1, Build_suback_out 5 1 [1]) ∧
  MQTTDeserialize_suback 1 (Build_suback_out 0 0 [0]) (suback_packet 5 [1; 1] ++ []) =
    Fault OobWrite.
Proof.
  split.
  - exact (MQTTDeserialize_suback_array 5 [1] [] (Build_suback_out 0 0 [0])
      ltac:(decide_vm) ltac:(decide_vm)).
  - exact (MQTTDeserialize_suback_array 5 [1; 1] [] (Build_suback_out 0 0 [0])
      ltac:(decide_vm) ltac:(decide_vm)).
Defined.

(** UNSUBACK: a well-formed packet gives result 1 and its packet id; a
    truncated one (remaining length 0 or 1) is also reported as success, and
    the packet id the caller passed in is left as it was; a well-formed
    acknowledgement of another type gives 1 as well. *)
Theorem MQTTDeserialize_unsuback_cases (type dup packetid id0 short : Z) (post : list Z) :
  0 ≤ type < 16 → 0 ≤ packetid < 65536 → 0 ≤ short < 2 →
  MQTTDeserialize_unsuback id0 (ack_packet type dup packetid ++ post) = Ok (1, packetid) ∧
  MQTTDeserialize_unsuback id0 (header_byte UNSUBACK_MSG dup 0 0 :: short :: post) = Ok (1, id0).
Proof.
  intros Hty Hid Hs. unfold MQTTDeserialize_unsuback. split.
  - rewrite deserialize_ack_packet by done. cbn [mbind outcome_bind]. by case_match.
  - unfold MQTTDeserialize_ack. rewrite readChar_0. cbn [mbind outcome_bind rb_ptr].
    rewrite decodeBuf_short by lia. cbn [mbind outcome_bind].
    rewrite (proj2 (Z.ltb_lt _ _)) by lia. cbn [mbind outcome_bind].
    by destruct (header_byte_fields UNSUBACK_MSG dup 0 0) as (-> & _).
Qed.

Lemma MQTTDeserialize_unsuback_cases_witness :
  MQTTDeserialize_unsuback 9 (ack_packet UNSUBACK_MSG 0 77 ++ []) = Ok (1, 77) ∧
  MQTTDeserialize_unsuback 9 (header_byte UNSUBACK_MSG 0 0 0 :: 0 :: []) = Ok (1, 9).
Proof. apply MQTTDeserialize_unsuback_cases; decide_vm. Defined.
