(* ===== verification/Timer.v ===== *)
(** * Timer.c: countdown timers

    Models [src/main/src/Platform/esp32/Timer.c].  The clock behind
    [gettimeofday] belongs to the world [W] the firmware runs in; [time_t] and
    [suseconds_t] are the 32-bit [long] of the target, whose signed overflow is
    a fault.  [timeradd] and [timersub] are the macros of <sys/time.h>. *)

From S2P Require Import Prelude.

Record timeval := { tv_sec : Z; tv_usec : Z }.

(** The wall clock: a reading and the world after the call. *)
Class Clock (W : Type) := gettimeofday : W → timeval * W.

Definition timeradd (a b : timeval) : outcome timeval :=
  sec ← chk32 (tv_sec a + tv_sec b);
  usec ← chk32 (tv_usec a + tv_usec b);
  if 1000000 <=? usec then
    sec ← chk32 (sec + 1); Ok {| tv_sec := sec; tv_usec := usec - 1000000 |}
  else Ok {| tv_sec := sec; tv_usec := usec |}.

Definition timersub (a b : timeval) : outcome timeval :=
  sec ← chk32 (tv_sec a - tv_sec b);
  usec ← chk32 (tv_usec a - tv_usec b);
  if usec <? 0 then
    sec ← chk32 (sec - 1); Ok {| tv_sec := sec; tv_usec := usec + 1000000 |}
  else Ok {| tv_sec := sec; tv_usec := usec |}.

Record Timer := { end_time : timeval }.

Section Timer.
Context {W : Type} `{!Clock W}.

Definition now_of_day : M W timeval := λ w, Ok (gettimeofday w).

Definition TimerInit : Timer := {| end_time := {| tv_sec := 0; tv_usec := 0 |} |}.

Definition TimerIsExpired (timer : Timer) : M W bool :=
  now ← now_of_day;
  res ← lift (timersub (end_time timer) now);
  mret ((tv_sec res <? 0) || ((tv_sec res =? 0) && (tv_usec res <=? 0))).

(** [timeout] is an [unsigned int]; storing it in the [long] members wraps. *)
Definition TimerCountdownMS (timeout : Z) : M W Timer :=
  now ← now_of_day;
  let interval := {| tv_sec := s32 (timeout / 1000); tv_usec := s32 (timeout mod 1000 * 1000) |} in
  e ← lift (timeradd now interval);
  mret {| end_time := e |}.

Definition TimerCountdown (timeout : Z) : M W Timer :=
  now ← now_of_day;
  e ← lift (timeradd now {| tv_sec := s32 timeout; tv_usec := 0 |});
  mret {| end_time := e |}.

Definition TimerLeftMS (timer : Timer) : M W Z :=
  now ← now_of_day;
  res ← lift (timersub (end_time timer) now);
  if tv_sec res <? 0 then mret 0
  else ms ← lift (chk32 (tv_sec res * 1000));
       lift (chk32 (ms + Z.quot (tv_usec res) 1000)).
End Timer.

(** ** Specification: time in microseconds *)

Definition timeval_us (t : timeval) : Z := tv_sec t * 1000000 + tv_usec t.

Definition timeval_norm (t : timeval) : Prop := 0 ≤ tv_sec t ∧ 0 ≤ tv_usec t < 1000000.

(** The last microsecond of a 32-bit [time_t]. *)
Definition CLOCK_END : Z := 2147483647999999.

(** The wall clock reads non-negative, normalized times and does not run
    backwards; [now w] is the time of the world [w] in microseconds.  At the end
    of the range of [time_t], in 2038, the clock is taken to stop. *)
Class ClockLaws (W : Type) `{!Clock W} := {
  now : W → Z;
  clock_norm w : timeval_norm (gettimeofday w).1;
  clock_reads w : timeval_us (gettimeofday w).1 = Z.min (now (gettimeofday w).2) CLOCK_END;
  clock_mono w : now w ≤ now (gettimeofday w).2 }.

Lemma clock_width {W} `{ClockLaws W} w : tv_sec (gettimeofday w).1 ≤ INT_MAX.
Proof.
  pose proof (clock_reads w). pose proof (clock_norm w).
  unfold timeval_us, timeval_norm, CLOCK_END, INT_MAX in *. lia.
Qed.

(** The deadline of a timer, in microseconds. *)
Definition deadline (t : Timer) : Z := timeval_us (end_time t).

Definition timer_ok (t : Timer) : Prop := timeval_norm (end_time t) ∧ tv_sec (end_time t) ≤ INT_MAX.

Lemma s32_small z : INT_MIN ≤ z ≤ INT_MAX → s32 z = z.
Proof. unfold s32, INT_MIN, INT_MAX. intros. rewrite Z.mod_small; lia. Qed.

Lemma timeradd_us a b :
  timeval_norm a → timeval_norm b → tv_sec a + tv_sec b + 1 ≤ INT_MAX →
  ∃ r, timeradd a b = Ok r ∧ timeval_norm r ∧ tv_sec r ≤ INT_MAX ∧
    timeval_us r = timeval_us a + timeval_us b.
Proof.
  unfold timeval_norm, timeradd, timeval_us, chk32, INT_MIN, INT_MAX. intros.
  rewrite !decide_True by lia. cbn [mbind outcome_bind].
  destruct (Z.leb_spec 1000000 (tv_usec a + tv_usec b)).
  - rewrite decide_True by lia. cbn [mbind outcome_bind]. eexists. split; [done|]. cbn. lia.
  - eexists. split; [done|]. cbn. lia.
Qed.

(** A sum that did not overflow is exact. *)
Lemma timeradd_Ok a b r :
  timeradd a b = Ok r → timeval_norm a → timeval_norm b →
  timeval_norm r ∧ tv_sec r ≤ INT_MAX ∧ timeval_us r = timeval_us a + timeval_us b.
Proof.
  unfold timeradd, timeval_norm, timeval_us, chk32. intros E Ha Hb.
  destruct (decide (INT_MIN ≤ tv_sec a + tv_sec b ≤ INT_MAX)); [|done]. cbn [mbind outcome_bind] in E.
  destruct (decide (INT_MIN ≤ tv_usec a + tv_usec b ≤ INT_MAX)); [|done]. cbn [mbind outcome_bind] in E.
  destruct (Z.leb_spec 1000000 (tv_usec a + tv_usec b)).
  - destruct (decide (INT_MIN ≤ tv_sec a + tv_sec b + 1 ≤ INT_MAX)); [|done].
    cbn [mbind outcome_bind] in E. injection E as <-. cbn [tv_sec tv_usec]. lia.
  - injection E as <-. cbn [tv_sec tv_usec]. lia.
Qed.

Lemma timersub_us a b :
  timeval_norm a → timeval_norm b → tv_sec a ≤ INT_MAX → tv_sec b ≤ INT_MAX →
  ∃ r, timersub a b = Ok r ∧ 0 ≤ tv_usec r < 1000000 ∧ INT_MIN ≤ tv_sec r ≤ INT_MAX ∧
    timeval_us r = timeval_us a - timeval_us b.
Proof.
  unfold timeval_norm, timersub, timeval_us, chk32, INT_MIN, INT_MAX. intros.
  rewrite !decide_True by lia. cbn [mbind outcome_bind].
  destruct (Z.ltb_spec (tv_usec a - tv_usec b) 0).
  - rewrite decide_True by lia. cbn [mbind outcome_bind]. eexists. split; [done|]. cbn. lia.
  - eexists. split; [done|]. cbn. lia.
Qed.

Section TimerFacts.
Context {W : Type} `{ClockLaws W}.

Lemma TimerIsExpired_spec t w :
  timer_ok t →
  TimerIsExpired t w =
  Ok (bool_decide (deadline t ≤ now (gettimeofday w).2), (gettimeofday w).2).
Proof.
  intros [Hn Hs]. unfold TimerIsExpired, now_of_day, mbind, M_bind, lift, deadline.
  pose proof (clock_reads w) as Hr. pose proof (clock_norm w) as Hc. pose proof (clock_width w) as Hw.
  destruct (gettimeofday w) as [tv w']; cbn [fst snd] in *.
  destruct (timersub_us (end_time t) tv) as (r & -> & Hu & Hv & Hd); try done.
  unfold mret, M_ret. do 2 f_equal.
  unfold timeval_us, timeval_norm, CLOCK_END, INT_MAX in *.
  case_bool_decide; repeat match goal with
    | |- context [?x <? ?y] => destruct (Z.ltb_spec x y)
    | |- context [?x =? ?y] => destruct (Z.eqb_spec x y)
    | |- context [?x <=? ?y] => destruct (Z.leb_spec x y)
    end; cbn; try done; lia.
Qed.

Lemma TimerLeftMS_spec t w :
  timer_ok t → deadline t - now (gettimeofday w).2 < 2147483648000 →
  TimerLeftMS t w =
  Ok (Z.max 0 ((deadline t - now (gettimeofday w).2) / 1000), (gettimeofday w).2).
Proof.
  intros [Hn Hs]. unfold TimerLeftMS, now_of_day, mbind, M_bind, lift, deadline.
  pose proof (clock_reads w) as Hr. pose proof (clock_norm w) as Hc. pose proof (clock_width w) as Hw.
  destruct (gettimeofday w) as [tv w']; cbn [fst snd] in *. intros Hb.
  destruct (timersub_us (end_time t) tv) as (r & -> & Hu & Hv & Hd); try done.
  assert (Hmax : Z.max 0 ((timeval_us (end_time t) - now w') / 1000) =
                 Z.max 0 (timeval_us r / 1000) ∧ timeval_us r < 2147483648000).
  { rewrite Hd, Hr. unfold timeval_us, timeval_norm, CLOCK_END, INT_MAX in *.
    destruct (Z.min_spec (now w') 2147483647999999) as [[? ->]|[? ->]]; [by split|].
    set (e := tv_sec (end_time t) * 1000000 + tv_usec (end_time t)) in *.
    assert (e ≤ 2147483647999999) by lia. split; [|lia].
    rewrite !Z.max_l; [done| |]; apply Z.div_le_upper_bound; lia. }
  destruct Hmax as [-> Hb']. unfold timeval_us in *.
  pose proof (Z.div_mod (tv_usec r) 1000 ltac:(lia)).
  pose proof (Z.mod_pos_bound (tv_usec r) 1000 ltac:(lia)).
  replace (tv_sec r * 1000000 + tv_usec r) with (tv_usec r + tv_sec r * 1000 * 1000) by lia.
  rewrite Z.div_add by lia.
  destruct (Z.ltb_spec (tv_sec r) 0).
  - unfold mret, M_ret. do 2 f_equal. lia.
  - rewrite Z.quot_div_nonneg by lia. unfold chk32, INT_MIN, INT_MAX in *.
    rewrite !decide_True by lia. do 2 f_equal. lia.
Qed.

(** A countdown from the time [now w'] of the reading. *)
Lemma TimerCountdownMS_spec timeout w :
  0 ≤ timeout < 4294967296 → now (gettimeofday w).2 + 1000 * timeout < 2147483646000000 →
  ∃ t, TimerCountdownMS timeout w = Ok (t, (gettimeofday w).2) ∧ timer_ok t ∧
    deadline t = now (gettimeofday w).2 + 1000 * timeout.
Proof.
  intros Ht. unfold TimerCountdownMS, now_of_day, mbind, M_bind, lift, deadline.
  pose proof (clock_reads w) as Hr. pose proof (clock_norm w) as Hc.
  destruct (gettimeofday w) as [tv w']; cbn [fst snd] in *. intros Hb.
  rewrite Z.min_l in Hr by (unfold CLOCK_END; lia). rewrite <- Hr in *.
  pose proof (Z.div_mod timeout 1000 ltac:(lia)) as Hd.
  pose proof (Z.mod_pos_bound timeout 1000 ltac:(lia)).
  rewrite !s32_small by (unfold INT_MIN, INT_MAX; lia). unfold timeval_us, timeval_norm in *.
  destruct (timeradd_us tv {| tv_sec := timeout / 1000; tv_usec := timeout mod 1000 * 1000 |})
    as (r & -> & Hn & Hs & Hu); unfold timeval_norm, INT_MAX in *; cbn [tv_sec tv_usec] in *; try lia.
  eexists. split; [done|]. split; [done|]. cbn [end_time]. unfold timeval_us in *.
  cbn [tv_sec tv_usec] in *. lia.
Qed.

Lemma TimerCountdown_spec timeout w :
  0 ≤ timeout → now (gettimeofday w).2 + 1000000 * timeout < 2147483646000000 →
  ∃ t, TimerCountdown timeout w = Ok (t, (gettimeofday w).2) ∧ timer_ok t ∧
    deadline t = now (gettimeofday w).2 + 1000000 * timeout.
Proof.
  intros Ht. unfold TimerCountdown, now_of_day, mbind, M_bind, lift, deadline.
  pose proof (clock_reads w) as Hr. pose proof (clock_norm w) as Hc.
  destruct (gettimeofday w) as [tv w']; cbn [fst snd] in *. intros Hb.
  rewrite Z.min_l in Hr by (unfold CLOCK_END; lia). rewrite <- Hr in *.
  unfold timeval_us, timeval_norm in *.
  rewrite s32_small by (unfold INT_MIN, INT_MAX; lia).
  destruct (timeradd_us tv {| tv_sec := timeout; tv_usec := 0 |})
    as (r & -> & Hn & Hs & Hu); unfold timeval_norm, INT_MAX in *; cbn [tv_sec tv_usec] in *; try lia.
  eexists. split; [done|]. split; [done|]. cbn [end_time]. unfold timeval_us in *.
  cbn [tv_sec tv_usec] in *. lia.
Qed.

(** Countdown timers keep time: started with [timeout] milliseconds at
    the time [t0] of its clock reading, a timer is expired at a later reading
    [t1] exactly when [t0 + timeout] has been reached, and [TimerLeftMS] then
    reports the whole milliseconds left, never a negative number.  The times
    are within the 32-bit clock and the number of milliseconds within an
    [int]. *)
Theorem timer_keeps_time (timeout : Z) (w0 w1 : W) :
  let t0 := now (gettimeofday w0).2 in
  let t1 := now (gettimeofday w1).2 in
  0 ≤ timeout < 4294967296 → t0 + 1000 * timeout < 2147483646000000 →
  t0 + 1000 * timeout - t1 < 2147483648000 →
  ∃ timer, TimerCountdownMS timeout w0 = Ok (timer, (gettimeofday w0).2) ∧
    TimerIsExpired timer w1 =
      Ok (bool_decide (t0 + 1000 * timeout ≤ t1), (gettimeofday w1).2) ∧
    TimerLeftMS timer w1 =
      Ok (Z.max 0 ((t0 + 1000 * timeout - t1) / 1000), (gettimeofday w1).2).
Proof.
  intros t0 t1 Ht H0 H1. destruct (TimerCountdownMS_spec timeout w0 Ht H0) as (t & E & Hok & Hd).
  exists t. split; [done|]. fold t0 in Hd. rewrite <- Hd. split; [by apply TimerIsExpired_spec|].
  apply TimerLeftMS_spec; [done|]. by rewrite Hd.
Qed.
End TimerFacts.

(** A clock that advances by one microsecond per reading. *)
Definition clock_reading (t : Z) : timeval :=
  let t := Z.max 0 (Z.min t CLOCK_END) in
  {| tv_sec := t / 1000000; tv_usec := t mod 1000000 |}.

#[export] Instance tick_clock : Clock Z := λ t, (clock_reading (t + 1), t + 1).

Lemma clock_reading_norm t : timeval_norm (clock_reading t).
Proof.
  unfold timeval_norm, clock_reading; cbn. set (u := Z.max _ _).
  split; [apply Z.div_pos; lia|apply Z.mod_pos_bound; lia].
Qed.

Lemma clock_reading_us t : timeval_us (clock_reading t) = Z.min (Z.max 0 t) CLOCK_END.
Proof.
  unfold timeval_us, clock_reading; cbn [tv_sec tv_usec]. set (u := Z.max _ _).
  pose proof (Z.div_mod u 1000000 ltac:(lia)). unfold CLOCK_END in *. lia.
Qed.

#[export] Instance tick_laws : ClockLaws Z := {|
  now := Z.max 0;
  clock_norm t := clock_reading_norm (t + 1);
  clock_reads t := clock_reading_us (t + 1);
  clock_mono t := Z.max_le_compat_l t (t + 1) 0 (Z.le_succ_diag_r t) |}.

Lemma timer_keeps_time_witness :
  ∃ timer, TimerCountdownMS 1500 999999 = Ok (timer, 1000000) ∧
    TimerIsExpired timer 2499998 = Ok (false, 2499999) ∧
    TimerLeftMS timer 2499998 = Ok (0, 2499999).
Proof.
  destruct (timer_keeps_time 1500 999999 2499998) as (t & H1 & H2 & H3);
    [cbn; lia|cbn; lia|cbn; lia|].
  exists t. split_and!; [etransitivity; [exact H1|]|etransitivity; [exact H2|]|
    etransitivity; [exact H3|]]; vm_compute; reflexivity.
Defined.
