(* ===== verification/Network.v ===== *)
(** * Network.c: the TCP connection under the MQTT client

    Models [src/main/src/Platform/esp32/Network.c].  The lwIP socket calls are
    operations of the world [W] (class [Lwip]); what the code relies on of them
    is in [LwipLaws].  The function pointers [mqttread] and [mqttwrite] of the
    [Network] structure only ever hold [esp32_read] and [esp32_write]; the MQTT
    client sees them through the class [NetOps], whose laws [NetLaws] are
    proved here for the two functions. *)

From S2P Require Import Prelude Timer.

(** ** The interface of lwIP *)

Definition AF_INET : Z := 2.
Definition SOCK_STREAM : Z := 1.
Definition ECONNRESET : Z := 104.
Definition ENOTCONN : Z := 128.
Definition EPIPE : Z := 32.

Inductive sockopt := SO_RCVTIMEO | SO_SNDTIMEO.

(** A node of the list [getaddrinfo] returns: family and address. *)
Record addrinfo := { ai_family : Z; ai_addr : Z }.
Record sockaddr_in := { sin_family : Z; sin_port : Z; sin_addr : Z }.

Class Lwip (W : Type) := {
  errno : W → Z;
  setsockopt : Z → sockopt → timeval → W → W;
  (** [recv(socket, mem, size)]: result, the bytes stored at [mem]. *)
  recv : Z → Z → W → Z * list Z * W;
  sock_write : Z → list Z → W → Z * W;
  getaddrinfo : list Z → W → Z * list addrinfo * W;
  freeaddrinfo : list addrinfo → W → W;
  socket : Z → Z → W → Z * W;
  connect : Z → sockaddr_in → W → Z * W;
  close : Z → W → W }.

(** [recv] stores what it reports and no more than it was asked for; [write]
    reports no more than it was given; -1 is the error result of both. *)
Class LwipLaws (W : Type) `{!Lwip W} : Prop := {
  recv_law s n w : 0 ≤ n → let '(rc, d, _) := recv s n w in
    (rc = -1 ∧ d = []) ∨ (rc = zlen d ∧ zlen d ≤ n);
  write_law s d w : -1 ≤ (sock_write s d w).1 ≤ zlen d }.

(** ** The structure and its operations *)

Record Network := { my_socket : Z; connected : Z }.

Section Network.
Context {W : Type} `{!Lwip W, !Fuel}.
Implicit Type s : Network * W.

(** The timeout of a socket operation, at least 100 microseconds. *)
Definition socket_interval (timeout_ms : Z) : timeval :=
  let interval := {| tv_sec := Z.quot timeout_ms 1000; tv_usec := Z.rem timeout_ms 1000 * 1000 |} in
  if (tv_sec interval <? 0) || ((tv_sec interval =? 0) && (tv_usec interval <=? 0))
  then {| tv_sec := 0; tv_usec := 100 |} else interval.

(** The [while] loop of [esp32_read]: [bytes] is the count so far, [got] what
    has been stored in the buffer. *)
Fixpoint read_loop (fuel : nat) (len bytes : Z) (got : list Z) : M (Network * W) (Z * list Z) := λ '(n, w),
  if (bytes <? len) && negb (connected n =? 0) then
    match fuel with
    | O => Fault OutOfFuel
    | S fuel =>
        let '(rc, d, w) := recv (my_socket n) (len - bytes) w in
        let got := take (Z.to_nat bytes) got ++ d in
        if rc =? -1 then
          if negb (errno w =? ENOTCONN) && negb (errno w =? ECONNRESET)
          then Ok ((-1, got), (n, w))
          else read_loop fuel len bytes got (n, w)
        else if ((rc =? 0) && negb (len =? 0)) || (errno w =? ENOTCONN)
                || (errno w =? ECONNRESET) || (errno w =? EPIPE)
        then read_loop fuel len bytes got ({| my_socket := my_socket n; connected := 0 |}, w)
        else read_loop fuel len (bytes + rc) got (n, w)
    end
  else Ok ((bytes, got), (n, w)).

Definition esp32_read (len timeout_ms : Z) : M (Network * W) (Z * list Z) := λ '(n, w),
  let w := setsockopt (my_socket n) SO_RCVTIMEO (socket_interval timeout_ms) w in
  read_loop fuel len 0 [] (n, w).

Definition esp32_write (buffer : list Z) (timeout_ms : Z) : M (Network * W) Z := λ '(n, w),
  let w := setsockopt (my_socket n) SO_SNDTIMEO (socket_interval timeout_ms) w in
  let '(rc, w) := sock_write (my_socket n) buffer w in
  let n := if (rc =? -1) && ((errno w =? ENOTCONN) || (errno w =? ECONNRESET) || (errno w =? EPIPE))
           then {| my_socket := my_socket n; connected := 0 |} else n in
  Ok (rc, (n, w)).

Definition NetworkInit : M (Network * W) () := λ '(_, w),
  Ok ((), ({| my_socket := 0; connected := 0 |}, w)).

(** The first IPv4 node and what follows it, the whole list if there is none. *)
Fixpoint prefer_ip4 (res : list addrinfo) : option (list addrinfo) :=
  match res with
  | [] => None
  | a :: res' => if ai_family a =? AF_INET then Some res else prefer_ip4 res'
  end.

(** [htons]: the port in network byte order on the little-endian target. *)
Definition htons (p : Z) : Z := u8 p * 256 + u8 (p / 256).

Definition NetworkConnect (addr : list Z) (port : Z) : M (Network * W) Z := λ '(n, w),
  let '(rc, result, w) := getaddrinfo addr w in
  '(rc, address, w) ←
    (if rc =? 0 then
       let result := default result (prefer_ip4 result) in
       match result with
       | [] => Fault NullDeref
       | a :: _ =>
           let w' := freeaddrinfo result w in
           if ai_family a =? AF_INET
           then Ok (0, {| sin_family := AF_INET; sin_port := htons port; sin_addr := ai_addr a |}, w')
           else Ok (-1, {| sin_family := 0; sin_port := 0; sin_addr := 0 |}, w')
       end
     else Ok (rc, {| sin_family := 0; sin_port := 0; sin_addr := 0 |}, w));
  if rc =? 0 then
    let '(sock, w) := socket AF_INET SOCK_STREAM w in
    if negb (sock =? -1) then
      let '(rc, w) := connect sock address w in
      Ok (rc, ({| my_socket := sock; connected := if rc =? 0 then 1 else connected n |}, w))
    else Ok (rc, ({| my_socket := sock; connected := connected n |}, w))
  else Ok (rc, (n, w)).

Definition NetworkDisconnect : M (Network * W) () := λ '(n, w),
  Ok ((), ({| my_socket := my_socket n; connected := 0 |}, close (my_socket n) w)).

Definition NetworkConnected : M (Network * W) Z := gets (λ s, connected s.1).
End Network.

(** ** What the MQTT client relies on *)

(** The [mqttread] and [mqttwrite] members: a read returns its result and the
    bytes it stored at the start of the caller's buffer. *)
Class NetOps (N : Type) := {
  mqttread : Z → Z → M N (Z * list Z);
  mqttwrite : list Z → Z → M N Z }.

Class NetLaws (N : Type) `{!NetOps N} : Prop := {
  mqttread_bound n t s rc d s' :
    mqttread n t s = Ok ((rc, d), s') → 0 ≤ n → -1 ≤ rc ≤ zlen d ∧ zlen d ≤ n;
  mqttwrite_bound d t s rc s' : mqttwrite d t s = Ok (rc, s') → -1 ≤ rc ≤ zlen d }.

(** Network calls take time, and the calls themselves do not run out of fuel. *)
Class TimedNet (N : Type) `{ClockLaws N, !NetOps N} : Prop := {
  mqttread_time n t w : n < 268435456 → wp (mqttread n t) (λ _ w', now w + 1 ≤ now w') w;
  mqttwrite_time d t w : wp (mqttwrite d t) (λ _ w', now w + 1 ≤ now w') w }.

#[export] Instance esp32_net {W} `{!Lwip W, !Fuel} : NetOps (Network * W) := {|
  mqttread := esp32_read;
  mqttwrite := esp32_write |}.

(** Socket calls take time, and the connection is not reset. *)
Class LwipTime (W : Type) `{!Clock W, !ClockLaws W, !Lwip W} : Prop := {
  setsockopt_time s o v w : now w + 1 ≤ now (setsockopt s o v w);
  recv_time s n w : now w ≤ now (recv s n w).2;
  write_time s d w : now w ≤ now (sock_write s d w).2;
  recv_open s n w : (recv s n w).1.1 = -1 →
    errno (recv s n w).2 ≠ ENOTCONN ∧ errno (recv s n w).2 ≠ ECONNRESET }.

Section NetworkFacts.
Context {W : Type} `{LwipLaws W, !Fuel}.

(** The loop invariant: what was counted has been stored, and nothing beyond
    the requested length. *)
Lemma read_loop_bound k len bytes got n w rc d s' :
  read_loop k len bytes got (n, w) = Ok ((rc, d), s') →
  0 ≤ bytes ≤ zlen got → zlen got ≤ len → -1 ≤ rc ≤ zlen d ∧ zlen d ≤ len.
Proof.
  revert bytes got n w. induction k as [|k IH]; intros bytes got n w; cbn [read_loop];
    (destruct (Z.ltb_spec bytes len) as [Hlt|Hge];
      [|cbn [andb]; intros [= <- <- <-]; lia]);
    (destruct (negb (connected n =? 0)); [cbn [andb]|intros [= <- <- <-]; lia]); [done|].
  pose proof (recv_law (my_socket n) (len - bytes) w ltac:(lia)) as Hr.
  destruct (recv (my_socket n) (len - bytes) w) as [[c dd] w1].
  intros E Hb1 Hb2.
  assert (Hg : bytes ≤ zlen (take (Z.to_nat bytes) got ++ dd) ≤ len ∧
               zlen (take (Z.to_nat bytes) got ++ dd) = bytes + zlen dd).
  { rewrite length_app, length_take. destruct Hr as [[-> ->]|[-> ?]]; cbn [length]; lia. }
  repeat case_match; simplify_eq/=; try lia; (eapply IH; [exact E|lia|lia]).
Qed.

#[export] Instance esp32_net_laws : NetLaws (Network * W).
Proof.
  split.
  - intros len t [n w] rc d s' E Hn. apply (read_loop_bound _ _ _ _ _ _ _ _ _ E); cbn; lia.
  - intros d t [n w] rc s' E. cbn in E. unfold esp32_write in E.
    pose proof (write_law (my_socket n) d (setsockopt (my_socket n) SO_SNDTIMEO (socket_interval t) w)).
    destruct (sock_write _ _ _) as [c w1]. by simplify_eq/=.
Qed.

(** The loop ends within one round per missing byte and one more, as long as
    no receive fails with a reset or unconnected socket. *)
Lemma read_loop_total len n w k bytes got :
  (∀ s i v, (recv s i v).1.1 = -1 →
     errno (recv s i v).2 ≠ ENOTCONN ∧ errno (recv s i v).2 ≠ ECONNRESET) →
  0 ≤ bytes → len - bytes < Z.of_nat k → ∃ x, read_loop k len bytes got (n, w) = Ok x.
Proof.
  intros He. revert bytes got n w. induction k as [|k IH]; intros bytes got n w Hb Hk;
    cbn [read_loop]; (destruct (Z.ltb_spec bytes len) as [Hlt|Hge]; [|by eexists]); [lia|].
  destruct (negb (connected n =? 0)); [cbn [andb]|by eexists].
  pose proof (recv_law (my_socket n) (len - bytes) w ltac:(lia)) as Hr.
  pose proof (He (my_socket n) (len - bytes) w) as Hx.
  destruct (recv (my_socket n) (len - bytes) w) as [[c dd] w1]. cbn [fst snd] in Hx.
  destruct (Z.eqb_spec c (-1)) as [->|Hc].
  - destruct (Hx eq_refl). rewrite !(proj2 (Z.eqb_neq _ _)) by done. by eexists.
  - destruct Hr as [[? ?]|[-> Hr]]; [done|].
    destruct (Z.eqb_spec (zlen dd) 0) as [->|Hd].
    + rewrite (proj2 (Z.eqb_neq len 0)) by lia. cbn [negb andb orb].
      destruct k; cbn [read_loop connected Z.eqb negb]; rewrite andb_false_r; by eexists.
    + destruct (_ || _).
      * destruct k; cbn [read_loop connected Z.eqb negb]; rewrite andb_false_r; by eexists.
      * apply IH; lia.
Qed.

(** The time of the connection is the time of the world. *)
#[export] Instance net_clock `{!Clock W} : Clock (Network * W) := λ s,
  ((gettimeofday s.2).1, (s.1, (gettimeofday s.2).2)).
#[export] Instance net_clock_laws `{!Clock W, !ClockLaws W} : ClockLaws (Network * W) := {|
  now s := now s.2;
  clock_norm s := clock_norm s.2;
  clock_reads s := clock_reads s.2;
  clock_mono s := clock_mono s.2 |}.

Lemma read_loop_time `{!Clock W, !ClockLaws W, !LwipTime W} k len bytes got n w x n' w' :
  read_loop k len bytes got (n, w) = Ok (x, (n', w')) → now w ≤ now w'.
Proof.
  revert bytes got n w. induction k as [|k IH]; intros bytes got n w; cbn [read_loop];
    (destruct ((bytes <? len) && _); [|by intros [= _ _ ->]]); [done|].
  pose proof (recv_time (my_socket n) (len - bytes) w) as Hr.
  destruct (recv (my_socket n) (len - bytes) w) as [[c dd] w1]. cbn [snd] in Hr.
  intros E. repeat case_match; simplify_eq; try done; apply IH in E; lia.
Qed.

(** On a socket that stays connected, the functions of Network.c are a network
    in the sense the MQTT client needs, given a round per byte of the largest
    packet. *)
Lemma esp32_timed `{!Clock W, !ClockLaws W, !LwipTime W} :
  268435456 ≤ Z.of_nat fuel → TimedNet (Network * W).
Proof.
  intros Hf. split.
  - intros len t [n w] Hn. unfold wp. cbn [mqttread esp32_net]. unfold esp32_read.
    set (w1 := setsockopt _ _ _ w).
    pose proof (setsockopt_time (my_socket n) SO_RCVTIMEO (socket_interval t) w) as Ht. fold w1 in Ht.
    destruct (read_loop_total len n w1 fuel 0 [] recv_open ltac:(lia)) as [[x [n' w']] E].
    { rewrite Z.sub_0_r. eapply Z.lt_le_trans; [exact Hn|exact Hf]. }
    rewrite E. apply read_loop_time in E. cbn. lia.
  - intros d t [n w]. unfold wp. cbn [mqttwrite esp32_net]. unfold esp32_write.
    set (w1 := setsockopt _ _ _ w).
    pose proof (setsockopt_time (my_socket n) SO_SNDTIMEO (socket_interval t) w) as Ht. fold w1 in Ht.
    pose proof (write_time (my_socket n) d w1) as Hw. destruct (sock_write _ _ _) as [rc w2].
    cbn in *. lia.
Qed.

(** [esp32_read] honours the contract of [mqttread]: it returns, within
    one receive per requested byte and one more, unless a receive fails with
    [ENOTCONN] or [ECONNRESET]; the result is -1 or the number of bytes
    stored, at most the number requested. *)
Theorem esp32_read_contract (len timeout_ms : Z) (n : Network) (w : W) :
  0 ≤ len → len < Z.of_nat fuel →
  (∀ s i v, (recv s i v).1.1 = -1 →
     errno (recv s i v).2 ≠ ENOTCONN ∧ errno (recv s i v).2 ≠ ECONNRESET) →
  ∃ rc d s', esp32_read len timeout_ms (n, w) = Ok ((rc, d), s') ∧
    -1 ≤ rc ≤ zlen d ∧ zlen d ≤ len.
Proof.
  intros Hl Hf He. assert (Hf' : len - 0 < Z.of_nat fuel) by (rewrite Z.sub_0_r; exact Hf).
  destruct (read_loop_total len n (setsockopt (my_socket n) SO_RCVTIMEO (socket_interval timeout_ms) w)
    fuel 0 [] He ltac:(lia) Hf') as [[[rc d] s'] E].
  exists rc, d, s'. split; [exact E|]. by apply (mqttread_bound len timeout_ms (n, w) rc d s').
Qed.
End NetworkFacts.

(** A world that holds the time, the bytes the peer has sent and the bytes
    written to it; a receive from an empty stream fails with error [e]. *)
Record peer := { ptime : Z; inbox : list Z; outbox : list Z }.

#[export] Instance peer_clock : Clock peer := λ w,
  (clock_reading (ptime w + 1),
   {| ptime := ptime w + 1; inbox := inbox w; outbox := outbox w |}).

#[export] Program Instance peer_clock_laws : ClockLaws peer := {| now w := Z.max 0 (ptime w) |}.
Next Obligation. intros w. apply clock_reading_norm. Qed.
Next Obligation. intros w. apply clock_reading_us. Qed.
Next Obligation. intros w. cbn. lia. Qed.

Definition peer_lwip (e : Z) : Lwip peer := {|
  errno _ := e;
  setsockopt _ _ _ w := {| ptime := Z.max 0 (ptime w) + 1; inbox := inbox w; outbox := outbox w |};
  recv _ n w := match inbox w with
                | [] => (-1, [], w)
                | l => (zlen (take (Z.to_nat n) l), take (Z.to_nat n) l,
                        {| ptime := ptime w; inbox := drop (Z.to_nat n) l; outbox := outbox w |})
                end;
  sock_write _ d w := (zlen d, {| ptime := ptime w; inbox := inbox w; outbox := outbox w ++ d |});
  getaddrinfo _ w := (0, [{| ai_family := AF_INET; ai_addr := 7 |}], w);
  freeaddrinfo _ w := w;
  socket _ _ w := (3, w);
  connect _ _ w := (0, w);
  close _ w := w |}.

Lemma peer_lwip_laws e : @LwipLaws peer (peer_lwip e).
Proof.
  split.
  - intros s n w Hn. cbn. destruct (inbox w) as [|x l]; [by left|right].
    split; [done|]. rewrite length_take. lia.
  - intros s d w. cbn. lia.
Qed.

Lemma esp32_read_contract_witness :
  ∃ rc d s', @esp32_read peer (peer_lwip 11) 6%nat 5 1000
    ({| my_socket := 3; connected := 1 |}, {| ptime := 0; inbox := [1; 2; 3]; outbox := [] |}) = Ok ((rc, d), s') ∧
    -1 ≤ rc ≤ zlen d ∧ zlen d ≤ 5.
Proof.
  pose proof (peer_lwip_laws 11). apply (@esp32_read_contract peer (peer_lwip 11) _ 6%nat);
    [lia|vm_compute; done|done].
Defined.

Section NetworkErrors.
Context {W : Type} `{!Lwip W, !Fuel}.

Lemma read_loop_spins k len got n w :
  (∀ s i v, (recv s i v).1.1 = -1 ∧
     (errno (recv s i v).2 = ENOTCONN ∨ errno (recv s i v).2 = ECONNRESET)) →
  0 < len → connected n ≠ 0 → read_loop k len 0 got (n, w) = Fault OutOfFuel.
Proof.
  intros He Hl Hc. revert got w. induction k as [|k IH]; intros got w; cbn [read_loop];
    rewrite (proj2 (Z.ltb_lt 0 len)), (proj2 (Z.eqb_neq (connected n) 0)) by done; [done|].
  cbn [negb andb]. pose proof (He (my_socket n) (len - 0) w) as [Hr Hx].
  destruct (recv (my_socket n) (len - 0) w) as [[c dd] w1]. cbn [fst snd] in *. subst c.
  cbn [Z.eqb Pos.eqb]. destruct Hx as [-> | ->]; apply IH.
Qed.

(** [C29] A reset connection is never noticed: when every receive on the
    socket fails with [ENOTCONN] or [ECONNRESET], [esp32_read] keeps calling
    [recv] and no number of rounds is enough for it to return, although the
    two errors are singled out to mark the connection as closed. *)
Theorem esp32_read_spins (len timeout_ms : Z) (n : Network) (w : W) :
  (∀ s i v, (recv s i v).1.1 = -1 ∧
     (errno (recv s i v).2 = ENOTCONN ∨ errno (recv s i v).2 = ECONNRESET)) →
  0 < len → connected n ≠ 0 → esp32_read len timeout_ms (n, w) = Fault OutOfFuel.
Proof. intros. by apply read_loop_spins. Qed.

(** [NetworkConnect] in full: it fails without touching the structure
    when the name does not resolve to an IPv4 address (and dereferences a null
    pointer when the resolver succeeds with an empty list); the connection is
    marked as open exactly when [connect] succeeds; when no socket can be
    created the result is 0, the code of success, and the connection is not
    marked as open. *)
Theorem NetworkConnect_cases (addr : list Z) (port : Z) (n : Network) (w : W) :
  let '(rc, res, w1) := getaddrinfo addr w in
  NetworkConnect addr port (n, w) =
  if negb (rc =? 0) then Ok (rc, (n, w1)) else
  match prefer_ip4 res, res with
  | None, [] => Fault NullDeref
  | None, _ => Ok (-1, (n, freeaddrinfo res w1))
  | Some l, _ =>
      let w2 := freeaddrinfo l w1 in
      let '(sock, w3) := socket AF_INET SOCK_STREAM w2 in
      let address := {| sin_family := AF_INET; sin_port := htons port;
                        sin_addr := default 0 (ai_addr <$> head l) |} in
      if sock =? -1 then Ok (0, ({| my_socket := -1; connected := connected n |}, w3)) else
      let '(rc, w4) := connect sock address w3 in
      Ok (rc, ({| my_socket := sock; connected := if rc =? 0 then 1 else connected n |}, w4))
  end.
Proof.
  unfold NetworkConnect. destruct (getaddrinfo addr w) as [[rc res] w1].
  destruct (Z.eqb_spec rc 0) as [->|Hr]; cbn [negb mbind outcome_bind]; [|by rewrite (proj2 (Z.eqb_neq rc 0))].
  assert (Hp : match prefer_ip4 res with
    | Some l => ∃ a l', l = a :: l' ∧ ai_family a = AF_INET
    | None => match res with a :: _ => ai_family a ≠ AF_INET | [] => True end end).
  { induction res as [|a res IH]; cbn; [done|]. destruct (Z.eqb_spec (ai_family a) AF_INET) as [E|E].
    - by exists a, res.
    - by destruct (prefer_ip4 res). }
  destruct (prefer_ip4 res) as [l|]; cbn [from_option id].
  - destruct Hp as (a & l' & -> & Ha). rewrite Ha. cbn [mbind outcome_bind Z.eqb Pos.eqb AF_INET].
    destruct (socket _ _ _) as [sock w3]. by destruct (Z.eqb_spec sock (-1)) as [->|].
  - destruct res as [|a res]; [done|]. by rewrite (proj2 (Z.eqb_neq _ _) Hp).
Qed.
End NetworkErrors.

(** A socket whose peer has reset the connection. *)
Definition reset_lwip : Lwip () := {|
  errno _ := ECONNRESET;
  setsockopt _ _ _ w := w;
  recv _ _ w := (-1, [], w);
  sock_write _ _ w := (-1, w);
  getaddrinfo _ w := (0, [{| ai_family := AF_INET; ai_addr := 7 |}], w);
  freeaddrinfo _ w := w;
  socket _ _ w := (3, w);
  connect _ _ w := (-1, w);
  close _ w := w |}.

Lemma esp32_read_spins_witness :
  @esp32_read () reset_lwip 1000%nat 1 1000 ({| my_socket := 3; connected := 1 |}, ()) =
  Fault OutOfFuel.
Proof. apply (@esp32_read_spins () reset_lwip 1000%nat); cbn; [intros; by auto|lia|lia]. Defined.
