(* ===== verification/MQTTClient.v ===== *)
(** * MQTTClient.c: the MQTT client

    Models [src/main/src/CayenneMQTTClient/MQTTClient.c] and the types of
    [MQTTClient.h] as this firmware builds them (no [MQTT_TASK],
    [MAX_MESSAGE_HANDLERS] 0 from PlatformHeader.h).

    The code runs on a state of three parts: the [MQTTClient] structure, the
    world [N] with the clock and the network it is connected to, and the data
    [X] behind the [userData] pointer.  The [ipstack] and [userData] members are
    the last two parts, not fields.  A message handler is named by a value of
    type [H]; what it does, [run_handler], is a parameter that may change the
    whole state, as a C callback that is handed the client may. *)

From S2P Require Import Prelude TopicFilter MQTTPacket MQTTConnect MQTTPublish MQTTSubscribe Timer Network.

Definition MAX_PACKET_ID : Z := 65535.
Definition MAX_MESSAGE_HANDLERS : Z := 0.

Definition QOS0 : Z := 0.
Definition QOS1 : Z := 1.
Definition QOS2 : Z := 2.
Definition MQTT_BUFFER_OVERFLOW : Z := -2.
Definition MQTT_FAILURE : Z := -1.
Definition MQTT_SUCCESS : Z := 0.

(** [P] is the representation of the payload pointer: the bytes of a message
    that is sent, an offset in the read buffer for one that was received. *)
Record MQTTMessage (P : Type) := {
  m_qos : Z; m_retained : Z; m_dup : Z; m_id : Z; m_payload : P; m_payloadlen : Z }.
Arguments Build_MQTTMessage {P}. Arguments m_qos {P}. Arguments m_retained {P}.
Arguments m_dup {P}. Arguments m_id {P}. Arguments m_payload {P}. Arguments m_payloadlen {P}.

Record MessageHandlers (H : Type) := { topicFilter : option (list Z); fp : option H }.
Arguments topicFilter {H}. Arguments fp {H}.

Section ClientRecord.
Context {H : Type}.

Record MQTTClient := {
  c_next_packetid : Z;
  c_command_timeout_ms : Z;
  c_buf_size : Z;
  c_readbuf_size : Z;
  c_buf : list Z;
  c_readbuf : list Z;
  c_keepAliveInterval : Z;
  c_ping_outstanding : bool;
  c_isconnected : bool;
  c_connAckReceived : bool;
  c_subAckReceived : bool;
  c_unsubAckReceived : bool;
  c_pubAckReceived : bool;
  c_pubCompReceived : bool;
  c_messageHandlers : list (MessageHandlers H);
  c_defaultMessageHandler : option H;
  c_ping_timer : Timer;
  c_last_received_timer : Timer;
  c_ping_response_timer : Timer }.

Definition set_next_packetid (v : Z) (c : MQTTClient) : MQTTClient :=
  Build_MQTTClient v (c_command_timeout_ms c) (c_buf_size c) (c_readbuf_size c) (c_buf c)
    (c_readbuf c) (c_keepAliveInterval c) (c_ping_outstanding c) (c_isconnected c)
    (c_connAckReceived c) (c_subAckReceived c) (c_unsubAckReceived c) (c_pubAckReceived c)
    (c_pubCompReceived c) (c_messageHandlers c) (c_defaultMessageHandler c) (c_ping_timer c)
    (c_last_received_timer c) (c_ping_response_timer c).
Definition set_buf (v : list Z) (c : MQTTClient) : MQTTClient :=
  Build_MQTTClient (c_next_packetid c) (c_command_timeout_ms c) (c_buf_size c) (c_readbuf_size
    c) v (c_readbuf c) (c_keepAliveInterval c) (c_ping_outstanding c) (c_isconnected c)
    (c_connAckReceived c) (c_subAckReceived c) (c_unsubAckReceived c) (c_pubAckReceived c)
    (c_pubCompReceived c) (c_messageHandlers c) (c_defaultMessageHandler c) (c_ping_timer c)
    (c_last_received_timer c) (c_ping_response_timer c).
Definition set_readbuf (v : list Z) (c : MQTTClient) : MQTTClient :=
  Build_MQTTClient (c_next_packetid c) (c_command_timeout_ms c) (c_buf_size c) (c_readbuf_size
    c) (c_buf c) v (c_keepAliveInterval c) (c_ping_outstanding c) (c_isconnected c)
    (c_connAckReceived c) (c_subAckReceived c) (c_unsubAckReceived c) (c_pubAckReceived c)
    (c_pubCompReceived c) (c_messageHandlers c) (c_defaultMessageHandler c) (c_ping_timer c)
    (c_last_received_timer c) (c_ping_response_timer c).
Definition set_keepAliveInterval (v : Z) (c : MQTTClient) : MQTTClient :=
  Build_MQTTClient (c_next_packetid c) (c_command_timeout_ms c) (c_buf_size c) (c_readbuf_size
    c) (c_buf c) (c_readbuf c) v (c_ping_outstanding c) (c_isconnected c) (c_connAckReceived c)
    (c_subAckReceived c) (c_unsubAckReceived c) (c_pubAckReceived c) (c_pubCompReceived c)
    (c_messageHandlers c) (c_defaultMessageHandler c) (c_ping_timer c) (c_last_received_timer c)
    (c_ping_response_timer c).
Definition set_ping_outstanding (v : bool) (c : MQTTClient) : MQTTClient :=
  Build_MQTTClient (c_next_packetid c) (c_command_timeout_ms c) (c_buf_size c) (c_readbuf_size
    c) (c_buf c) (c_readbuf c) (c_keepAliveInterval c) v (c_isconnected c) (c_connAckReceived c)
    (c_subAckReceived c) (c_unsubAckReceived c) (c_pubAckReceived c) (c_pubCompReceived c)
    (c_messageHandlers c) (c_defaultMessageHandler c) (c_ping_timer c) (c_last_received_timer c)
    (c_ping_response_timer c).
Definition set_isconnected (v : bool) (c : MQTTClient) : MQTTClient :=
  Build_MQTTClient (c_next_packetid c) (c_command_timeout_ms c) (c_buf_size c) (c_readbuf_size
    c) (c_buf c) (c_readbuf c) (c_keepAliveInterval c) (c_ping_outstanding c) v
    (c_connAckReceived c) (c_subAckReceived c) (c_unsubAckReceived c) (c_pubAckReceived c)
    (c_pubCompReceived c) (c_messageHandlers c) (c_defaultMessageHandler c) (c_ping_timer c)
    (c_last_received_timer c) (c_ping_response_timer c).
Definition set_connAckReceived (v : bool) (c : MQTTClient) : MQTTClient :=
  Build_MQTTClient (c_next_packetid c) (c_command_timeout_ms c) (c_buf_size c) (c_readbuf_size
    c) (c_buf c) (c_readbuf c) (c_keepAliveInterval c) (c_ping_outstanding c) (c_isconnected c)
    v (c_subAckReceived c) (c_unsubAckReceived c) (c_pubAckReceived c) (c_pubCompReceived c)
    (c_messageHandlers c) (c_defaultMessageHandler c) (c_ping_timer c) (c_last_received_timer c)
    (c_ping_response_timer c).
Definition set_subAckReceived (v : bool) (c : MQTTClient) : MQTTClient :=
  Build_MQTTClient (c_next_packetid c) (c_command_timeout_ms c) (c_buf_size c) (c_readbuf_size
    c) (c_buf c) (c_readbuf c) (c_keepAliveInterval c) (c_ping_outstanding c) (c_isconnected c)
    (c_connAckReceived c) v (c_unsubAckReceived c) (c_pubAckReceived c) (c_pubCompReceived c)
    (c_messageHandlers c) (c_defaultMessageHandler c) (c_ping_timer c) (c_last_received_timer c)
    (c_ping_response_timer c).
Definition set_unsubAckReceived (v : bool) (c : MQTTClient) : MQTTClient :=
  Build_MQTTClient (c_next_packetid c) (c_command_timeout_ms c) (c_buf_size c) (c_readbuf_size
    c) (c_buf c) (c_readbuf c) (c_keepAliveInterval c) (c_ping_outstanding c) (c_isconnected c)
    (c_connAckReceived c) (c_subAckReceived c) v (c_pubAckReceived c) (c_pubCompReceived c)
    (c_messageHandlers c) (c_defaultMessageHandler c) (c_ping_timer c) (c_last_received_timer c)
    (c_ping_response_timer c).
Definition set_pubAckReceived (v : bool) (c : MQTTClient) : MQTTClient :=
  Build_MQTTClient (c_next_packetid c) (c_command_timeout_ms c) (c_buf_size c) (c_readbuf_size
    c) (c_buf c) (c_readbuf c) (c_keepAliveInterval c) (c_ping_outstanding c) (c_isconnected c)
    (c_connAckReceived c) (c_subAckReceived c) (c_unsubAckReceived c) v (c_pubCompReceived c)
    (c_messageHandlers c) (c_defaultMessageHandler c) (c_ping_timer c) (c_last_received_timer c)
    (c_ping_response_timer c).
Definition set_pubCompReceived (v : bool) (c : MQTTClient) : MQTTClient :=
  Build_MQTTClient (c_next_packetid c) (c_command_timeout_ms c) (c_buf_size c) (c_readbuf_size
    c) (c_buf c) (c_readbuf c) (c_keepAliveInterval c) (c_ping_outstanding c) (c_isconnected c)
    (c_connAckReceived c) (c_subAckReceived c) (c_unsubAckReceived c) (c_pubAckReceived c) v
    (c_messageHandlers c) (c_defaultMessageHandler c) (c_ping_timer c) (c_last_received_timer c)
    (c_ping_response_timer c).
Definition set_messageHandlers (v : list (MessageHandlers H)) (c : MQTTClient) : MQTTClient :=
  Build_MQTTClient (c_next_packetid c) (c_command_timeout_ms c) (c_buf_size c) (c_readbuf_size
    c) (c_buf c) (c_readbuf c) (c_keepAliveInterval c) (c_ping_outstanding c) (c_isconnected c)
    (c_connAckReceived c) (c_subAckReceived c) (c_unsubAckReceived c) (c_pubAckReceived c)
    (c_pubCompReceived c) v (c_defaultMessageHandler c) (c_ping_timer c) (c_last_received_timer
    c) (c_ping_response_timer c).
Definition set_ping_timer (v : Timer) (c : MQTTClient) : MQTTClient :=
  Build_MQTTClient (c_next_packetid c) (c_command_timeout_ms c) (c_buf_size c) (c_readbuf_size
    c) (c_buf c) (c_readbuf c) (c_keepAliveInterval c) (c_ping_outstanding c) (c_isconnected c)
    (c_connAckReceived c) (c_subAckReceived c) (c_unsubAckReceived c) (c_pubAckReceived c)
    (c_pubCompReceived c) (c_messageHandlers c) (c_defaultMessageHandler c) v
    (c_last_received_timer c) (c_ping_response_timer c).
Definition set_last_received_timer (v : Timer) (c : MQTTClient) : MQTTClient :=
  Build_MQTTClient (c_next_packetid c) (c_command_timeout_ms c) (c_buf_size c) (c_readbuf_size
    c) (c_buf c) (c_readbuf c) (c_keepAliveInterval c) (c_ping_outstanding c) (c_isconnected c)
    (c_connAckReceived c) (c_subAckReceived c) (c_unsubAckReceived c) (c_pubAckReceived c)
    (c_pubCompReceived c) (c_messageHandlers c) (c_defaultMessageHandler c) (c_ping_timer c) v
    (c_ping_response_timer c).
Definition set_ping_response_timer (v : Timer) (c : MQTTClient) : MQTTClient :=
  Build_MQTTClient (c_next_packetid c) (c_command_timeout_ms c) (c_buf_size c) (c_readbuf_size
    c) (c_buf c) (c_readbuf c) (c_keepAliveInterval c) (c_ping_outstanding c) (c_isconnected c)
    (c_connAckReceived c) (c_subAckReceived c) (c_unsubAckReceived c) (c_pubAckReceived c)
    (c_pubCompReceived c) (c_messageHandlers c) (c_defaultMessageHandler c) (c_ping_timer c)
    (c_last_received_timer c) v.
Definition set_defaultMessageHandler (v : option H) (c : MQTTClient) : MQTTClient :=
  Build_MQTTClient (c_next_packetid c) (c_command_timeout_ms c) (c_buf_size c) (c_readbuf_size
    c) (c_buf c) (c_readbuf c) (c_keepAliveInterval c) (c_ping_outstanding c) (c_isconnected c)
    (c_connAckReceived c) (c_subAckReceived c) (c_unsubAckReceived c) (c_pubAckReceived c)
    (c_pubCompReceived c) (c_messageHandlers c) v (c_ping_timer c) (c_last_received_timer c)
    (c_ping_response_timer c).
End ClientRecord.
Arguments MQTTClient : clear implicits.

(** The state a client operation runs on. *)
Record St (N X H : Type) := MkSt { client : MQTTClient H; world : N; user : X }.
Arguments MkSt {N X H}. Arguments client {N X H}. Arguments world {N X H}. Arguments user {N X H}.

(** What the client calls back, and what the uninitialised locals of [cycle]
    and of the operations that wait for an acknowledgement hold. *)
Class Callbacks (N X H : Type) := {
  run_handler : H → MQTTString Z → MQTTMessage Z → M (St N X H) ();
  stack_out : publish_out;
  stack_id : Z }.

Section MQTTClientOps.
Context {N X H : Type} `{!Clock N, !NetOps N, !Fuel, !Callbacks N X H}.

Abbreviation MC := (M (St N X H)).

Definition cget {A} (f : MQTTClient H → A) : MC A := gets (λ s, f (client s)).
Definition cset (g : MQTTClient H → MQTTClient H) : MC () :=
  modify (λ s, MkSt (g (client s)) (world s) (user s)).
Definition onWorld {A} (m : M N A) : MC A := λ s,
  match m (world s) with
  | Ok (a, w) => Ok (a, MkSt (client s) w (user s))
  | Fault f => Fault f
  end.

Definition getNextPacketId : MC Z :=
  id ← cget c_next_packetid;
  let id := if id =? MAX_PACKET_ID then 1 else u32 (id + 1) in
  cset (set_next_packetid id) ;;
  mret id.

(** The [while] loop: [rc] is the result of the last write, [sent] the bytes
    counted so far. *)
Fixpoint send_loop (k : nat) (length : Z) (timer : Timer) (sent : Z) : MC Z :=
  if sent <? length then
    expired ← onWorld (TimerIsExpired timer);
    if expired : bool then mret sent else
    match k with
    | O => fail OutOfFuel
    | S k =>
        left ← onWorld (TimerLeftMS timer);
        b ← cget c_buf;
        d ← lift (load_bytes b sent length);
        rc ← onWorld (mqttwrite d left);
        if rc <? 0 then mret sent else send_loop k length timer (sent + rc)
    end
  else mret sent.

Definition sendPacket (length : Z) (timer : Timer) : MC Z :=
  sent ← send_loop fuel length timer 0;
  if sent =? length then
    keepAlive ← cget c_keepAliveInterval;
    t ← onWorld (TimerCountdown keepAlive);
    cset (set_ping_timer t) ;;
    mret MQTT_SUCCESS
  else mret MQTT_FAILURE.

(** The structure after the call; [messageHandlers] has [MAX_MESSAGE_HANDLERS]
    entries. *)
Definition MQTTClientInit (command_timeout_ms : Z) (sendbuf : list Z) (sendbuf_size : Z)
    (readbuf : list Z) (readbuf_size keepAlive : Z) : MQTTClient H :=
  {| c_next_packetid := 1; c_command_timeout_ms := command_timeout_ms;
     c_buf_size := sendbuf_size; c_readbuf_size := readbuf_size;
     c_buf := sendbuf; c_readbuf := readbuf; c_keepAliveInterval := keepAlive;
     c_ping_outstanding := false; c_isconnected := false; c_connAckReceived := false;
     c_subAckReceived := false; c_unsubAckReceived := false; c_pubAckReceived := false;
     c_pubCompReceived := false;
     c_messageHandlers := replicate (Z.to_nat MAX_MESSAGE_HANDLERS)
       {| topicFilter := None; fp := None |};
     c_defaultMessageHandler := None;
     c_ping_timer := TimerInit; c_last_received_timer := TimerInit;
     c_ping_response_timer := TimerInit |}.

(** One byte from the network: [mqttread(&i, 1, timeout)]. *)
Definition read_byte (timeout : Z) (w : N) : outcome (Z * Z * N) :=
  '((rc, d), w) ← mqttread 1 timeout w;
  Ok (rc, default 0 (head d), w).

(** The loop of [decodePacket] is that of [MQTTPacket_decode]. *)
Definition decodePacket (timeout : Z) : MC Z := onWorld (λ w,
  '(_, value, w) ← MQTTPacket_decode (read_byte timeout) w;
  Ok (value, w)).

(** [mqttread] into [c->readbuf + off]. *)
Definition read_into (off n timeout : Z) : MC Z :=
  '(rc, d) ← onWorld (mqttread n timeout);
  b ← cget c_readbuf;
  b ← lift (store_bytes b off d);
  cset (set_readbuf b) ;;
  mret rc.

(** Step 3 of [readPacket]: the body and the record of the reception. *)
Definition readPacket_body (timer : Timer) (len rem_len : Z) : MC Z :=
  ok ← (if 0 <? rem_len then
          left ← onWorld (TimerLeftMS timer);
          rc ← read_into len rem_len left;
          mret (rc =? rem_len)
        else mret true);
  if negb ok then mret MQTT_FAILURE else
  b ← cget c_readbuf;
  byte ← lift (load b 0);
  keepAlive ← cget c_keepAliveInterval;
  (if 0 <? keepAlive then
     t ← onWorld (TimerCountdown keepAlive); cset (set_last_received_timer t)
   else mret ()) ;;
  mret (header_type byte).

Definition readPacket (timer : Timer) : MC Z :=
  left ← onWorld (TimerLeftMS timer);
  rc ← read_into 0 1 left;
  if negb (rc =? 1) then mret MQTT_FAILURE else
  left ← onWorld (TimerLeftMS timer);
  rem_len ← decodePacket left;
  b ← cget c_readbuf;
  '(n, b) ← lift (MQTTPacket_encode b 1 rem_len);
  cset (set_readbuf b) ;;
  readPacket_body timer (1 + n) rem_len.

(** The topic name as the comparisons read it from the read buffer. *)
Definition topic_memory (b : list Z) (t : MQTTString Z) : MQTTString (list Z) :=
  Build_MQTTString (cstring t)
    (Build_MQTTLenString (len (lenstring t)) ((λ off, drop (Z.to_nat off) b) <$> data (lenstring t))).

Definition topic_name (b : list Z) (t : MQTTString Z) : list Z :=
  match data (lenstring t) with
  | Some off => take (Z.to_nat (len (lenstring t))) (drop (Z.to_nat off) b)
  | None => []
  end.

(** The loop over the handler table. *)
Fixpoint deliver_loop (k : nat) (i : Z) (t : MQTTString Z) (m : MQTTMessage Z) (rc : Z) : MC Z :=
  match k with
  | O => mret rc
  | S k =>
      h ← cget c_messageHandlers ≫= λ l, lift (index l i);
      matched ← match topicFilter h with
                | None => mret false
                | Some f =>
                    b ← cget c_readbuf;
                    eq ← lift (MQTTPacket_equals (topic_memory b t) f);
                    mret (eq || isTopicMatched f (topic_name b t))
                end;
      rc ← match matched : bool, fp h with
           | true, Some g => run_handler g t m ;; mret MQTT_SUCCESS
           | _, _ => mret rc
           end;
      deliver_loop k (i + 1) t m rc
  end.

Definition deliverMessage (t : MQTTString Z) (m : MQTTMessage Z) : MC Z :=
  rc ← deliver_loop (Z.to_nat MAX_MESSAGE_HANDLERS) 0 t m MQTT_FAILURE;
  dflt ← cget c_defaultMessageHandler;
  match dflt with
  | Some g => if rc =? MQTT_FAILURE then run_handler g t m ;; mret MQTT_SUCCESS else mret rc
  | None => mret rc
  end.

(** A serializer run on the client's send buffer; its result is the length. *)
Definition serialize (f : list Z → Z → outcome (Z * list Z)) : MC Z :=
  b ← cget c_buf;
  size ← cget c_buf_size;
  '(len, b) ← lift (f b (s32 size));
  cset (set_buf b) ;;
  mret len.

(** The branch of [keepalive] that sends a ping. *)
Definition send_ping (timer : Timer) : MC Z :=
  len ← serialize MQTTSerialize_pingreq;
  if 0 <? len then
    rc ← sendPacket len timer;
    if rc =? MQTT_SUCCESS then
      interval ← cget c_keepAliveInterval;
      t ← onWorld (TimerCountdown interval);
      cset (set_ping_response_timer t) ;;
      cset (set_ping_outstanding true) ;;
      mret rc
    else mret rc
  else mret MQTT_FAILURE.

Definition keepalive : MC Z :=
  interval ← cget c_keepAliveInterval;
  if interval =? 0 then mret MQTT_SUCCESS else
  t ← cget c_ping_timer;
  e1 ← onWorld (TimerIsExpired t);
  expired ← (if e1 : bool then mret true
             else t ← cget c_last_received_timer; onWorld (TimerIsExpired t));
  if expired : bool then
    outstanding ← cget c_ping_outstanding;
    if negb outstanding then onWorld (TimerCountdownMS 1000) ≫= send_ping
    else
      t ← cget c_ping_response_timer;
      e ← onWorld (TimerIsExpired t);
      (if e : bool then cset (set_isconnected false) else mret ()) ;;
      mret MQTT_FAILURE
  else mret MQTT_FAILURE.

(** The [PUBLISH_MSG] case of [cycle]: the result code, and whether the code
    leaves by [goto exit]. *)
Definition cycle_publish (timer : Timer) : MC (Z * bool) :=
  b ← cget c_readbuf;
  '(ok, o) ← lift (MQTTDeserialize_publish stack_out b);
  if negb (ok =? 1) then mret (MQTT_SUCCESS, true) else
  let msg := {| m_qos := pub_qos o; m_retained := pub_retained o; m_dup := pub_dup o;
                m_id := pub_packetid o; m_payload := pub_payload o;
                m_payloadlen := pub_payloadlen o |} in
  deliverMessage (pub_topicName o) msg ;;
  if negb (m_qos msg =? QOS0) then
    len ← (if m_qos msg =? QOS1 then
             serialize (λ b n, MQTTSerialize_ack b n PUBACK_MSG 0 (m_id msg))
           else if m_qos msg =? QOS2 then
             serialize (λ b n, MQTTSerialize_ack b n PUBREC_MSG 0 (m_id msg))
           else mret 0);
    rc ← (if len <=? 0 then mret MQTT_FAILURE else sendPacket len timer);
    mret (rc, rc =? MQTT_FAILURE)
  else mret (MQTT_SUCCESS, false).

Definition cycle_pubrec (timer : Timer) : MC (Z * bool) :=
  b ← cget c_readbuf;
  '(ok, _, _, mypacketid) ← lift (MQTTDeserialize_ack stack_id b);
  rc ← (if negb (ok =? 1) then mret MQTT_FAILURE else
        len ← serialize (λ b n, MQTTSerialize_ack b n PUBREL_MSG 0 mypacketid);
        if len <=? 0 then mret MQTT_FAILURE else
        rc ← sendPacket len timer;
        mret (if negb (rc =? MQTT_SUCCESS) then MQTT_FAILURE else rc));
  mret (rc, rc =? MQTT_FAILURE).

(** The [switch] of [cycle]. *)
Definition cycle_dispatch (packet_type : Z) (timer : Timer) : MC (Z * bool) :=
  if packet_type =? CONNACK_MSG then cset (set_connAckReceived true) ;; mret (MQTT_SUCCESS, false)
  else if packet_type =? PUBACK_MSG then cset (set_pubAckReceived true) ;; mret (MQTT_SUCCESS, false)
  else if packet_type =? SUBACK_MSG then cset (set_subAckReceived true) ;; mret (MQTT_SUCCESS, false)
  else if packet_type =? UNSUBACK_MSG then cset (set_unsubAckReceived true) ;; mret (MQTT_SUCCESS, false)
  else if packet_type =? PUBLISH_MSG then cycle_publish timer
  else if packet_type =? PUBREC_MSG then cycle_pubrec timer
  else if packet_type =? PUBCOMP_MSG then cset (set_pubCompReceived true) ;; mret (MQTT_SUCCESS, false)
  else if packet_type =? PINGRESP_MSG then cset (set_ping_outstanding false) ;; mret (MQTT_SUCCESS, false)
  else mret (MQTT_SUCCESS, false).

(** What follows the read in [cycle]. *)
Definition cycle_work (packet_type : Z) (timer : Timer) : MC Z :=
  '(rc, leave) ← cycle_dispatch packet_type timer;
  (if leave : bool then mret () else keepalive ;; mret ()) ;;
  mret (if rc =? MQTT_SUCCESS then packet_type else rc).

(** [packet_type] is an [unsigned short]: a failed read becomes 65535. *)
Definition cycle (timer : Timer) : MC Z :=
  r ← readPacket timer;
  cycle_work (u16 r) timer.

Fixpoint yield_loop (k : nat) (timer : Timer) : MC Z :=
  match k with
  | O => fail OutOfFuel
  | S k =>
      r ← cycle timer;
      if r =? MQTT_FAILURE then mret MQTT_FAILURE else
      e ← onWorld (TimerIsExpired timer);
      if e : bool then mret MQTT_SUCCESS else yield_loop k timer
  end.

(** The [int] argument is passed to an [unsigned int] parameter. *)
Definition MQTTYield (timeout_ms : Z) : MC Z :=
  timer ← onWorld (TimerCountdownMS (u32 timeout_ms));
  yield_loop fuel timer.

(** [rounds] rounds of the endless loop of [MQTTRun]. *)
Fixpoint MQTTRun (rounds : nat) : MC () :=
  match rounds with
  | O => mret ()
  | S rounds =>
      timer ← onWorld (TimerCountdownMS 500);
      cycle timer ;;
      MQTTRun rounds
  end.

(** The flag a packet type is awaited on, and its update. *)
Definition ack_flag (packet_type : Z) : option ((MQTTClient H → bool) * (bool → MQTTClient H → MQTTClient H)) :=
  if packet_type =? CONNACK_MSG then Some (c_connAckReceived, set_connAckReceived)
  else if packet_type =? SUBACK_MSG then Some (c_subAckReceived, set_subAckReceived)
  else if packet_type =? UNSUBACK_MSG then Some (c_unsubAckReceived, set_unsubAckReceived)
  else if packet_type =? PUBACK_MSG then Some (c_pubAckReceived, set_pubAckReceived)
  else if packet_type =? PUBCOMP_MSG then Some (c_pubCompReceived, set_pubCompReceived)
  else None.

Fixpoint waitfor_loop (k : nat) (packet_type : Z) (timer : Timer) : MC Z :=
  received ← match ack_flag packet_type with
             | Some (f, _) => cget f
             | None => mret false
             end;
  if received : bool then
    match ack_flag packet_type with Some (_, g) => cset (g false) | None => mret () end ;;
    mret packet_type
  else
    e ← onWorld (TimerIsExpired timer);
    if e : bool then mret MQTT_FAILURE else
    match k with
    | O => fail OutOfFuel
    | S k => cycle timer ;; waitfor_loop k packet_type timer
    end.

Definition waitfor (packet_type : Z) (timer : Timer) : MC Z :=
  match ack_flag packet_type with Some (_, g) => cset (g false) | None => mret () end ;;
  waitfor_loop fuel packet_type timer.

(** The second half of [MQTTConnect], once the CONNECT packet is sent. *)
Definition connect_await (connect_timer : Timer) : MC Z :=
  keepAlive ← cget c_keepAliveInterval;
  (if 0 <? keepAlive then
     t ← onWorld (TimerCountdown keepAlive); cset (set_last_received_timer t)
   else mret ()) ;;
  r ← waitfor CONNACK_MSG connect_timer;
  if r =? CONNACK_MSG then
    b ← cget c_readbuf;
    '(ok, _, connack_rc) ← lift (MQTTDeserialize_connack 0 255 b);
    mret (if ok =? 1 then connack_rc else MQTT_FAILURE)
  else mret MQTT_FAILURE.

Definition MQTTConnect (options : option MQTTPacket_connectData) : MC Z :=
  con ← cget c_isconnected;
  rc ← (if con : bool then mret MQTT_FAILURE else
    ms ← cget c_command_timeout_ms;
    connect_timer ← onWorld (TimerCountdownMS ms);
    let options := default MQTTPacket_connectData_initializer options in
    cset (set_keepAliveInterval (keepAliveInterval options)) ;;
    t ← onWorld (TimerCountdown (keepAliveInterval options));
    cset (set_ping_timer t) ;;
    len ← serialize (λ b n, MQTTSerialize_connect b n options);
    if len <=? 0 then mret MQTT_FAILURE else
    rc ← sendPacket len connect_timer;
    if negb (rc =? MQTT_SUCCESS) then mret rc else
    connect_await connect_timer);
  (if rc =? MQTT_SUCCESS then cset (set_isconnected true) else mret ()) ;;
  mret rc.

(** The loop that looks for a free entry of the handler table. *)
Fixpoint register_loop (k : nat) (i : Z) (filter : option (list Z)) (h : option H) (rc : Z) : MC Z :=
  match k with
  | O => mret rc
  | S k =>
      l ← cget c_messageHandlers;
      e ← lift (index l i);
      match topicFilter e with
      | None => cset (set_messageHandlers (<[Z.to_nat i := {| topicFilter := filter; fp := h |}]> l)) ;;
                mret 0
      | Some _ => register_loop k (i + 1) filter h rc
      end
  end.

Definition cstring_topic (t : option (list Z)) : MQTTString (list Z) :=
  Build_MQTTString t (Build_MQTTLenString 0 None).

Definition MQTTSubscribe (filter : option (list Z)) (qos : Z) (h : option H) : MC Z :=
  con ← cget c_isconnected;
  if negb con then mret MQTT_FAILURE else
  ms ← cget c_command_timeout_ms;
  timer ← onWorld (TimerCountdownMS ms);
  id ← getNextPacketId;
  len ← serialize (λ b n, MQTTSerialize_subscribe b n 0 (u16 id) 1 [cstring_topic filter] [qos]);
  if len <=? 0 then mret MQTT_FAILURE else
  rc ← sendPacket len timer;
  if negb (rc =? MQTT_SUCCESS) then mret rc else
  r ← waitfor SUBACK_MSG timer;
  if r =? SUBACK_MSG then
    b ← cget c_readbuf;
    '(ok, o) ← lift (MQTTDeserialize_suback 1
                 {| sub_packetid := stack_id; sub_count := 0; sub_granted := [-1] |} b);
    grantedQoS ← lift (load (sub_granted o) 0);
    let rc := if ok =? 1 then grantedQoS else rc in
    if negb (rc =? 128) then register_loop (Z.to_nat MAX_MESSAGE_HANDLERS) 0 filter h rc
    else mret rc
  else mret MQTT_FAILURE.

Definition MQTTUnsubscribe (filter : option (list Z)) : MC Z :=
  con ← cget c_isconnected;
  if negb con then mret MQTT_FAILURE else
  ms ← cget c_command_timeout_ms;
  timer ← onWorld (TimerCountdownMS ms);
  id ← getNextPacketId;
  len ← serialize (λ b n, MQTTSerialize_unsubscribe b n 0 (u16 id) 1 [cstring_topic filter]);
  if len <=? 0 then mret MQTT_FAILURE else
  rc ← sendPacket len timer;
  if negb (rc =? MQTT_SUCCESS) then mret rc else
  r ← waitfor UNSUBACK_MSG timer;
  if r =? UNSUBACK_MSG then
    b ← cget c_readbuf;
    '(ok, _) ← lift (MQTTDeserialize_unsuback stack_id b);
    mret (if ok =? 1 then 0 else rc)
  else mret MQTT_FAILURE.

(** The wait for the acknowledgement of a published message. *)
Definition await_ack (packet_type : Z) (timer : Timer) (rc : Z) : MC Z :=
  r ← waitfor packet_type timer;
  if r =? packet_type then
    b ← cget c_readbuf;
    '(ok, _, _, _) ← lift (MQTTDeserialize_ack stack_id b);
    mret (if negb (ok =? 1) then MQTT_FAILURE else rc)
  else mret MQTT_FAILURE.

(** The result code and the message's id, which the call may set. *)
Definition MQTTPublish (topicName : option (list Z)) (message : MQTTMessage (list Z)) : MC (Z * Z) :=
  con ← cget c_isconnected;
  if negb con then mret (MQTT_FAILURE, m_id message) else
  ms ← cget c_command_timeout_ms;
  timer ← onWorld (TimerCountdownMS ms);
  id ← (if (m_qos message =? QOS1) || (m_qos message =? QOS2)
        then i ← getNextPacketId; mret (u16 i) else mret (m_id message));
  len ← serialize (λ b n, MQTTSerialize_publish b n 0 (m_qos message) (m_retained message) id
          (cstring_topic topicName) (m_payload message) (m_payloadlen message));
  if len <=? 0 then mret (MQTT_FAILURE, id) else
  rc ← sendPacket len timer;
  if negb (rc =? MQTT_SUCCESS) then mret (rc, id) else
  rc ← (if m_qos message =? QOS1 then await_ack PUBACK_MSG timer rc
        else if m_qos message =? QOS2 then await_ack PUBCOMP_MSG timer rc
        else mret rc);
  mret (rc, id).

Definition MQTTDisconnect : MC Z :=
  ms ← cget c_command_timeout_ms;
  timer ← onWorld (TimerCountdownMS ms);
  len ← serialize MQTTSerialize_disconnect;
  rc ← (if 0 <? len then sendPacket len timer else mret MQTT_FAILURE);
  cset (set_isconnected false) ;;
  cset (set_ping_outstanding false) ;;
  mret rc.

(** The calls of the library's interface, and a sequence of them. *)
Inductive api_call :=
| CallConnect (options : option MQTTPacket_connectData)
| CallSubscribe (filter : option (list Z)) (qos : Z) (h : option H)
| CallUnsubscribe (filter : option (list Z))
| CallPublish (topicName : option (list Z)) (message : MQTTMessage (list Z))
| CallYield (timeout_ms : Z)
| CallDisconnect.

Definition run_call (a : api_call) : MC Z :=
  match a with
  | CallConnect o => MQTTConnect o
  | CallSubscribe f q h => MQTTSubscribe f q h
  | CallUnsubscribe f => MQTTUnsubscribe f
  | CallPublish t m => '(rc, _) ← MQTTPublish t m; mret rc
  | CallYield ms => MQTTYield ms
  | CallDisconnect => MQTTDisconnect
  end.

Fixpoint run_calls (l : list api_call) : MC (list Z) :=
  match l with
  | [] => mret []
  | a :: l => rc ← run_call a; rcs ← run_calls l; mret (rc :: rcs)
  end.
End MQTTClientOps.
Arguments api_call : clear implicits.
