(* ===== verification/Simulation.v ===== *)
(** * A concrete world

    A clock, the bytes a peer has sent and the bytes sent to it.  The theorems
    about the client are stated for every world that satisfies the classes of
    Timer.v and Network.v; this is one on which they can be run. *)

From S2P Require Import Prelude MQTTPacket MQTTPublish Timer Network MQTTClient.

Record sim := { sim_time : Z; sim_in : list Z; sim_out : list Z }.

#[export] Instance sim_clock : Clock sim := λ w,
  (clock_reading (sim_time w + 1),
   {| sim_time := sim_time w + 1; sim_in := sim_in w; sim_out := sim_out w |}).

#[export] Program Instance sim_clock_laws : ClockLaws sim := {| now w := Z.max 0 (sim_time w) |}.
Next Obligation. intros w. apply clock_reading_norm. Qed.
Next Obligation. intros w. apply clock_reading_us. Qed.
Next Obligation. intros w. cbn. lia. Qed.

(** A read of bytes that are there takes a microsecond, any other one lasts
    until its timeout and fails; a write takes everything. *)
#[export] Instance sim_net : NetOps sim := {|
  mqttread n t := λ w,
    if n <=? zlen (sim_in w) then
      Ok ((n, take (Z.to_nat n) (sim_in w)),
          {| sim_time := Z.max 0 (sim_time w) + 1; sim_in := drop (Z.to_nat n) (sim_in w);
             sim_out := sim_out w |})
    else Ok ((-1, []), {| sim_time := Z.max 0 (sim_time w) + 1000 * Z.max 0 t + 1;
                          sim_in := sim_in w; sim_out := sim_out w |});
  mqttwrite d t := λ w,
    Ok (zlen d, {| sim_time := Z.max 0 (sim_time w) + 1; sim_in := sim_in w;
                   sim_out := sim_out w ++ d |}) |}.

#[export] Instance sim_timed : TimedNet sim.
Proof.
  split.
  - intros n t w _. unfold wp. cbn. destruct (n <=? _); cbn; lia.
  - intros d t w. unfold wp. cbn. lia.
Qed.

(** The first write on a connection takes three bytes only. *)
Definition choppy_net : NetOps sim := {|
  mqttread := mqttread (NetOps := sim_net);
  mqttwrite d t := λ w,
    let k := if decide (sim_out w = []) then Z.min 3 (zlen d) else zlen d in
    Ok (k, {| sim_time := sim_time w; sim_in := sim_in w;
              sim_out := sim_out w ++ take (Z.to_nat k) d |}) |}.

(** A handler that records the packet id of each message in the user data. *)
#[export] Instance sim_callbacks : Callbacks sim (list Z) () := {|
  run_handler _ _ m := modify (λ s, MkSt (client s) (world s) (m_id m :: user s));
  stack_out := Build_publish_out 0 0 0 0 MQTTString_initializer 0 0;
  stack_id := 0 |}.

(** A client with buffers of [n] bytes, a command timeout of one second and a
    keep-alive interval of [ka] seconds. *)
Definition sim_client (n : nat) (ka : Z) (con : bool) : MQTTClient () :=
  set_isconnected con
    (MQTTClientInit 1000 (replicate n 0) (Z.of_nat n) (replicate n 0) (Z.of_nat n) ka).

Definition sim_state (n : nat) (ka : Z) (con : bool) (i : list Z) : St sim (list Z) () :=
  MkSt (sim_client n ka con) {| sim_time := 0; sim_in := i; sim_out := [] |} [].
