(* ===== verification/MQTTClientProofs.v ===== *)
(** * The MQTT client: structure, termination

    Every call of the client returns within the time its timers allow and
    leaves the client structure well formed.  The network and the clock are
    used through the classes [ClockLaws] and [TimedNet]. *)

From S2P Require Import Prelude CString MQTTPacket MQTTConnect MQTTPublish MQTTSubscribe Timer Network MQTTClient Simulation.

(** ** Fuel of the packet routines *)

(** A buffer writer that does not run out of fuel and keeps the buffer's size. *)
Class KeepsLen {A} (w : M wbuf A) : Prop :=
  keeps_len b : wp w (λ _ b', length (wb_buf b') = length (wb_buf b)) b.

#[export] Instance keepslen_ret {A} (a : A) : KeepsLen (mret a).
Proof. done. Qed.

#[export] Instance keepslen_bind {A B} (w : M wbuf A) (k : A → M wbuf B) :
  KeepsLen w → (∀ a, KeepsLen (k a)) → KeepsLen (w ≫= k).
Proof.
  intros Hw Hk b. apply wp_bind. eapply wp_mono; [apply Hw|]. intros a b1 H1.
  eapply wp_mono; [apply Hk|]. cbn. congruence.
Qed.

#[export] Instance keepslen_if {A} (c : bool) (w1 w2 : M wbuf A) :
  KeepsLen w1 → KeepsLen w2 → KeepsLen (if c then w1 else w2).
Proof. by destruct c. Qed.

#[export] Instance keepslen_forM n i body :
  (∀ j, KeepsLen (body j)) → KeepsLen (forM n i body).
Proof. revert i. induction n; intros i Hb; cbn; apply _. Qed.

Lemma keepslen_lift {A} (o : outcome A) : o ≠ Fault OutOfFuel → KeepsLen (lift o).
Proof. intros Ho b. apply wp_lift. by destruct o; [|intros ->]. Qed.

#[export] Instance keepslen_writeChar c : KeepsLen (writeChar c).
Proof.
  intros b. unfold wp, writeChar. pose proof (store_fault (wb_buf b) (wb_ptr b) (u8 c)).
  destruct (store _ _ _) as [b'|f] eqn:E; cbn; [by apply store_length in E|congruence].
Qed.
#[export] Instance keepslen_writeInt n : KeepsLen (writeInt n).
Proof. apply _. Qed.
#[export] Instance keepslen_write_bytes d : KeepsLen (write_bytes d).
Proof.
  intros b. unfold wp, write_bytes. pose proof (store_bytes_fault (wb_buf b) (wb_ptr b) d).
  destruct (store_bytes _ _ _) as [b'|f] eqn:E; cbn; [by apply store_bytes_length in E|congruence].
Qed.
#[export] Instance keepslen_writeMQTTString s : KeepsLen (writeMQTTString s).
Proof.
  unfold writeMQTTString. apply keepslen_if.
  - apply keepslen_bind; [apply _|]. intros _. destruct (data (lenstring s)) as [d|].
    + apply keepslen_bind; [apply keepslen_lift, load_bytes_fault|apply _].
    + by intros b.
  - destruct (cstring s); unfold writeCString; apply _.
Qed.

Lemma encode_loop_fuel k buf off n rc :
  n < 128 ^ Z.of_nat k → (0 < k)%nat →
  match encode_loop k buf off n rc with
  | Ok (_, buf') => length buf' = length buf | Fault f => f ≠ OutOfFuel end.
Proof.
  revert buf n rc. induction k as [|k IH]; intros buf n rc Hn Hk; [lia|]. cbn [encode_loop].
  set (d := if 0 <? Z.quot n 128 then _ else _).
  pose proof (store_fault buf (off + rc) d).
  destruct (store buf (off + rc) d) as [b1|f] eqn:E; cbn [mbind outcome_bind]; [|congruence].
  apply store_length in E. destruct (Z.ltb_spec 0 (Z.quot n 128)) as [Hp|Hp]; [|done].
  assert (Hpos : 128 ≤ n).
  { destruct (Z.le_gt_cases 128 n); [done|]. destruct (Z.le_gt_cases 0 n).
    - rewrite Z.quot_small in Hp by lia. lia.
    - pose proof (Z.quot_opp_l n 128 ltac:(lia)).
      pose proof (Z.quot_pos (- n) 128 ltac:(lia) ltac:(lia)). lia. }
  rewrite Z.quot_div_nonneg by lia. specialize (IH b1 (n / 128) (rc + 1)).
  rewrite Nat2Z.inj_succ, Z.pow_succ_r in Hn by lia.
  destruct k as [|k]; [cbn in Hn; lia|].
  pose proof (Z.div_lt_upper_bound n 128 (128 ^ Z.of_nat (S k)) ltac:(lia) Hn).
  specialize (IH ltac:(lia) ltac:(lia)). destruct (encode_loop _ _ _ _ _) as [[]|]; congruence.
Qed.

Lemma encode_fuel buf off n : n < 2 ^ 35 →
  match MQTTPacket_encode buf off n with
  | Ok (_, buf') => length buf' = length buf | Fault f => f ≠ OutOfFuel end.
Proof. intros. apply encode_loop_fuel; [done|lia]. Qed.

Lemma keepslen_write_encoded n : n < 2 ^ 35 → KeepsLen (write_encoded n).
Proof.
  intros Hn b. unfold wp, write_encoded. pose proof (encode_fuel (wb_buf b) (wb_ptr b) n Hn).
  by destruct (MQTTPacket_encode _ _ _) as [[]|].
Qed.

(** A serializer of the client: for every buffer and size it either fails or
    returns the buffer with its size unchanged. *)
Class SerOk (f : list Z → Z → outcome (Z * list Z)) : Prop :=
  ser_ok b n : n ≤ INT_MAX →
    match f b n with Ok (_, b') => length b' = length b | Fault e => e ≠ OutOfFuel end.

Lemma writer_ser (w : M wbuf ()) b :
  KeepsLen w →
  match ('(_, wb) ← w (WBuf b 0); Ok (wb_ptr wb, wb_buf wb)) with
  | Ok (_, b') => length b' = length b | Fault e => e ≠ OutOfFuel end.
Proof.
  intros Hw. specialize (Hw (WBuf b 0)). unfold wp in Hw.
  destruct (w (WBuf b 0)) as [[[] wb]|f]; exact Hw.
Qed.

Lemma MQTTPacket_len_fits n : MQTTPacket_len n ≤ INT_MAX → n < 2 ^ 35.
Proof. unfold MQTTPacket_len, INT_MAX. repeat case_match; zb; lia. Qed.

Ltac ser_guard :=
  match goal with |- context [if ?x <? ?y then _ else _] =>
    destruct (Z.ltb_spec x y); [done|] end;
  apply writer_ser;
  repeat first [apply _ | apply keepslen_bind; intros | apply keepslen_if];
  try (apply keepslen_write_encoded; first [lia | apply MQTTPacket_len_fits; lia]).

#[export] Instance serok_zero t : SerOk (λ b n, MQTTSerialize_zero b n t).
Proof. intros b n Hn. unfold MQTTSerialize_zero. ser_guard. Qed.
#[export] Instance serok_pingreq : SerOk MQTTSerialize_pingreq := serok_zero PINGREQ_MSG.
#[export] Instance serok_disconnect : SerOk MQTTSerialize_disconnect := serok_zero DISCONNECT_MSG.

#[export] Instance serok_ack t d i : SerOk (λ b n, MQTTSerialize_ack b n t d i).
Proof. intros b n Hn. unfold MQTTSerialize_ack. ser_guard. Qed.

#[export] Instance serok_connect o : SerOk (λ b n, MQTTSerialize_connect b n o).
Proof.
  intros b n Hn. unfold MQTTSerialize_connect, connect_writer. cbn zeta.
  unfold writeCString. ser_guard.
Qed.

#[export] Instance serok_publish d q r i t p n : SerOk (λ b s, MQTTSerialize_publish b s d q r i t p n).
Proof.
  intros b s Hn. unfold MQTTSerialize_publish, publish_writer. cbn zeta. ser_guard.
  apply keepslen_lift, load_bytes_fault.
Qed.

Lemma filters_length_fuel k i e l acc : filters_length k i e l acc ≠ Fault OutOfFuel.
Proof.
  revert i acc. induction k; intros; cbn; [done|]. apply bind_fault; [apply index_fault|auto].
Qed.

Lemma index_lift_fault {A B} (l : list A) i (g : A → M wbuf B) :
  (∀ a, KeepsLen (g a)) → KeepsLen (lift (index l i) ≫= g).
Proof. intros. apply keepslen_bind; [apply keepslen_lift, index_fault|done]. Qed.

#[export] Instance serok_subscribe d i c t q : SerOk (λ b n, MQTTSerialize_subscribe b n d i c t q).
Proof.
  intros b n Hn. unfold MQTTSerialize_subscribe, MQTTSerialize_subscribeLength.
  pose proof (filters_length_fuel (Z.to_nat c) 0 1 t 2).
  destruct (filters_length _ _ _ _ _) as [l|f]; cbn [mbind outcome_bind]; [|congruence].
  ser_guard. apply keepslen_forM. intros j. apply keepslen_bind; intros;
    apply index_lift_fault; apply _.
Qed.

#[export] Instance serok_unsubscribe d i c t : SerOk (λ b n, MQTTSerialize_unsubscribe b n d i c t).
Proof.
  intros b n Hn. unfold MQTTSerialize_unsubscribe, MQTTSerialize_unsubscribeLength.
  pose proof (filters_length_fuel (Z.to_nat c) 0 0 t 2).
  destruct (filters_length _ _ _ _ _) as [l|f]; cbn [mbind outcome_bind]; [|congruence].
  ser_guard. apply keepslen_forM. intros j. apply index_lift_fault; apply _.
Qed.

(** ** Fuel of the deserializers *)

(** The remaining-length loop leaves after five rounds and its value stays
    below [128 ^ 4]; [R] relates the sources before and after a read. *)
Lemma decode_loop_rel {T} (R : T → T → Prop) `{!PreOrder R} (getc : T → outcome (Z * Z * T)) (k j : nat) s v :
  (∀ s, match getc s with Ok (_, _, s') => R s s' | Fault f => f ≠ OutOfFuel end) →
  (k + j)%nat = 5%nat → (j ≤ 4)%nat → v < 128 ^ Z.of_nat j →
  match decode_loop getc k s v (128 ^ Z.of_nat j) (Z.of_nat j) with
  | Ok (_, v', s') => R s s' ∧ v' < 268435456 | Fault f => f ≠ OutOfFuel end.
Proof.
  intros Hg. revert j s v. induction k as [|k IH]; intros j s v Hk Hj Hv; [lia|].
  cbn [decode_loop]. unfold MAX_NO_OF_REMAINING_LENGTH_BYTES.
  pose proof (pow128_le j ltac:(lia)). pose proof (pow128_S j) as HS.
  destruct (Z.ltb_spec 4 (Z.of_nat j + 1)); [split; [reflexivity|lia]|].
  specialize (Hg s) as Hgs. destruct (getc s) as [[[rc c] s1]|f]; cbn [mbind outcome_bind]; [|done].
  destruct (negb (rc =? 1)); [split; [done|lia]|].
  pose proof (land_127_range c). pose proof (pow128_le (S j) ltac:(lia)).
  pose proof (chk32_fault (v + Z.land c 127 * 128 ^ Z.of_nat j)).
  destruct (chk32 (v + _)) as [v1|f] eqn:E; [|cbn; congruence].
  assert (v1 = v + Z.land c 127 * 128 ^ Z.of_nat j) as ->
    by (unfold chk32 in E; case_decide; by simplify_eq).
  cbn [mbind outcome_bind]. rewrite chk32_ok by (unfold INT_MIN, INT_MAX; lia).
  cbn [mbind outcome_bind]. destruct (negb (Z.land c 128 =? 0)); [|split; [done|nia]].
  specialize (IH (S j) s1 (v + Z.land c 127 * 128 ^ Z.of_nat j) ltac:(lia) ltac:(lia) ltac:(nia)).
  rewrite pow128_S, Nat2Z.inj_succ, (Z.mul_comm 128) in IH. unfold Z.succ in IH.
  destruct (decode_loop _ _ _ _ _ _) as [[[? v'] s']|]; [|done].
  destruct IH. split; [by etransitivity|done].
Qed.

Lemma readChar_fault r : readChar r ≠ Fault OutOfFuel.
Proof. unfold readChar. apply bind_fault; [apply load_fault|done]. Qed.
Lemma readInt_fault r : readInt r ≠ Fault OutOfFuel.
Proof. unfold readInt. repeat (apply bind_fault; [apply load_fault|intros]). done. Qed.

Lemma decodeBuf_fault buf off : MQTTPacket_decodeBuf buf off ≠ Fault OutOfFuel.
Proof.
  unfold MQTTPacket_decodeBuf, MQTTPacket_decode.
  assert (PreOrder (λ _ _ : rbuf, True)) by (by split).
  pose proof (decode_loop_rel (λ _ _, True) (bufchar 1) 5 0 (RBuf buf off) 0) as Hd.
  apply bind_fault; [|by intros [[] ]].
  intros E. change (128 ^ Z.of_nat 0) with 1 in Hd. change (Z.of_nat 0) with 0 in Hd.
  rewrite E in Hd. apply Hd; try done; [|lia].
  intros r. unfold bufchar. change (Z.to_nat 1) with 1%nat. cbn [bufchar_loop].
  unfold mbind, M_bind, outcome_bind. pose proof (readChar_fault r).
  by destruct (readChar r) as [[]|f]; [|congruence].
Qed.
#[export] Hint Resolve readChar_fault readInt_fault decodeBuf_fault : wp.

(** Walks through a sequence of outcomes none of which runs out of fuel. *)
Ltac no_fuel :=
  repeat first
    [ done
    | apply bind_fault; [solve [eauto with wp]|intros; destruct_and?]
    | match goal with
      | |- (match ?x with _ => _ end) ≠ _ => destruct x
      | |- (if ?x then _ else _) ≠ _ => destruct x
      end ].

Lemma readMQTTLenString_fault old e r : readMQTTLenString old e r ≠ Fault OutOfFuel.
Proof. unfold readMQTTLenString. no_fuel. Qed.
#[export] Hint Resolve readMQTTLenString_fault : wp.

Lemma deserialize_publish_fault o b : MQTTDeserialize_publish o b ≠ Fault OutOfFuel.
Proof.
  unfold MQTTDeserialize_publish. no_fuel.
  apply bind_fault; [destruct (0 <? _); eauto with wp|]. by intros [].
Qed.

Lemma deserialize_ack_fault i b : MQTTDeserialize_ack i b ≠ Fault OutOfFuel.
Proof. unfold MQTTDeserialize_ack. no_fuel. Qed.

Lemma deserialize_connack_fault s c b : MQTTDeserialize_connack s c b ≠ Fault OutOfFuel.
Proof. unfold MQTTDeserialize_connack. no_fuel. Qed.

Lemma suback_loop_fuel k m e r o :
  e - rb_ptr r ≤ Z.of_nat k → suback_loop k m e r o ≠ Fault OutOfFuel.
Proof.
  revert r o. induction k as [|k IH]; intros r o Hk; cbn [suback_loop];
    (destruct (Z.ltb_spec (rb_ptr r) e); [|done]); [lia|].
  destruct (m <? sub_count o); [done|].
  apply bind_fault; [apply readChar_fault|]. intros [c r1] E.
  apply bind_fault; [apply store_fault|]. intros g _. apply IH.
  unfold readChar in E. destruct (load _ _); [|done]. simplify_eq/=. lia.
Qed.

Lemma deserialize_suback_fault m o b : MQTTDeserialize_suback m o b ≠ Fault OutOfFuel.
Proof.
  unfold MQTTDeserialize_suback. no_fuel. apply suback_loop_fuel. lia.
Qed.

Lemma deserialize_unsuback_fault i b : MQTTDeserialize_unsuback i b ≠ Fault OutOfFuel.
Proof. unfold MQTTDeserialize_unsuback. pose proof deserialize_ack_fault. no_fuel. Qed.

Lemma equals_fault a b : MQTTPacket_equals a b ≠ Fault OutOfFuel.
Proof.
  unfold MQTTPacket_equals. apply bind_fault; [by repeat case_match|]. intros [aptr alen] _.
  destruct (alen =? zlen b); [|done]. by apply bind_fault; [apply strncmp_fault|].
Qed.
#[export] Hint Resolve deserialize_publish_fault deserialize_ack_fault deserialize_connack_fault
  deserialize_suback_fault deserialize_unsuback_fault equals_fault : wp.

(** ** Time and structure *)

(** What no operation of the client changes: the sizes of its buffers, its
    configuration and handlers; a packet id in range stays in range. *)
Record same_shape {H} (c c' : MQTTClient H) : Prop := {
  shape_buf : length (c_buf c') = length (c_buf c);
  shape_readbuf : length (c_readbuf c') = length (c_readbuf c);
  shape_buf_size : c_buf_size c' = c_buf_size c;
  shape_readbuf_size : c_readbuf_size c' = c_readbuf_size c;
  shape_timeout : c_command_timeout_ms c' = c_command_timeout_ms c;
  shape_handler : c_defaultMessageHandler c' = c_defaultMessageHandler c;
  shape_handlers : length (c_messageHandlers c') = length (c_messageHandlers c);
  shape_packetid : 1 ≤ c_next_packetid c ≤ 65535 → 1 ≤ c_next_packetid c' ≤ 65535 }.

#[export] Instance same_shape_preorder {H} : PreOrder (@same_shape H).
Proof.
  split; [by split|]. intros c1 c2 c3 [] []. split; try congruence. by auto.
Qed.

Section Evolution.
Context {N X H : Type} `{!Clock N, !ClockLaws N, !NetOps N, !TimedNet N, !Fuel, !Callbacks N X H}.
Implicit Types s : St N X H.

Definition evolves (s s' : St N X H) : Prop :=
  same_shape (client s) (client s') ∧ now (world s) ≤ now (world s').

#[export] Instance evolves_preorder : PreOrder evolves.
Proof.
  split; [intros s; by split|]. intros s1 s2 s3 [] []. split; [by etransitivity|lia].
Qed.

(** [evo P m]: from a state where [P] holds, [m] does not run out of fuel and
    the state evolves; [P] is an assumption that time does not invalidate. *)
Definition stable (P : St N X H → Prop) : Prop := ∀ s s', P s → evolves s s' → P s'.
Definition evo {A} (P : St N X H → Prop) (m : M (St N X H) A) : Prop :=
  ∀ s, P s → wp m (λ _ s', evolves s s') s.

Context (P : St N X H → Prop) (HP : stable P).

Lemma evo_ret {A} (a : A) : evo P (mret a).
Proof. intros s _. by apply wp_ret. Qed.

Lemma evo_bind {A B} (m : M _ A) (k : A → M _ B) :
  evo P m → (∀ a, evo P (k a)) → evo P (m ≫= k).
Proof.
  intros Hm Hk s Hs. apply wp_bind. eapply wp_mono; [by apply Hm|]. intros a s1 Hs1.
  eapply wp_mono; [apply Hk; by eapply HP|]. intros b s2 Hs2.
  exact (transitivity Hs1 Hs2).
Qed.

Lemma evo_if {A} (b : bool) (m1 m2 : M _ A) : evo P m1 → evo P m2 → evo P (if b then m1 else m2).
Proof. by destruct b. Qed.

Lemma evo_cget {A} (f : MQTTClient H → A) : evo P (cget f).
Proof. intros s _. by apply wp_gets. Qed.

Lemma evo_cset g : (∀ c, same_shape c (g c)) → evo P (cset g).
Proof. intros Hg s _. apply wp_modify. split; [apply Hg|done]. Qed.

Lemma evo_lift {A} (o : outcome A) : o ≠ Fault OutOfFuel → evo P (lift o).
Proof. intros Ho s _. apply wp_lift. destruct o; [done|congruence]. Qed.

Lemma evo_world {A} (m : M N A) :
  (∀ w, wp m (λ _ w', now w ≤ now w') w) → evo P (onWorld m).
Proof.
  intros Hm s _. specialize (Hm (world s)). unfold wp, onWorld in *.
  destruct (m (world s)) as [[a w]|f]; [|done]. by split.
Qed.

(** The clock only moves forward under the timer operations. *)
Lemma now_time w : wp now_of_day (λ _ w', now w ≤ now w') w.
Proof. unfold wp, now_of_day. pose proof (clock_mono w). by destruct (gettimeofday w). Qed.

Lemma timed_lift {A} (m : M N A) w : wp m (λ _ w', now w ≤ now w') w →
  ∀ B (k : A → M N B), (∀ a v, wp (k a) (λ _ v', now v ≤ now v') v) →
  wp (m ≫= k) (λ _ w', now w ≤ now w') w.
Proof.
  intros Hm B k Hk. apply wp_bind. eapply wp_mono; [apply Hm|]. intros a v Hv. cbn in Hv.
  eapply wp_mono; [apply Hk|]. cbn. lia.
Qed.

Lemma timersub_fault a b : timersub a b ≠ Fault OutOfFuel.
Proof. unfold timersub. no_fuel. Qed.
Lemma timeradd_fault a b : timeradd a b ≠ Fault OutOfFuel.
Proof. unfold timeradd. no_fuel. Qed.

Lemma lift_time {A} (o : outcome A) v : o ≠ Fault OutOfFuel → wp (lift o) (λ _ v', now v ≤ now v') v.
Proof. intros Ho. apply wp_lift. destruct o; [lia|congruence]. Qed.

Lemma evo_TimerIsExpired t : evo P (onWorld (TimerIsExpired t)).
Proof.
  apply evo_world. intros w. apply timed_lift; [apply now_time|]. intros a v.
  apply timed_lift; [apply lift_time, timersub_fault|]. intros. apply wp_ret. lia.
Qed.
Lemma evo_TimerLeftMS t : evo P (onWorld (TimerLeftMS t)).
Proof.
  apply evo_world. intros w. apply timed_lift; [apply now_time|]. intros a v.
  apply timed_lift; [apply lift_time, timersub_fault|]. intros r u.
  destruct (tv_sec r <? 0); [apply wp_ret; lia|].
  apply timed_lift; [apply lift_time, chk32_fault|]. intros. apply lift_time, chk32_fault.
Qed.
Lemma evo_TimerCountdown i : evo P (onWorld (TimerCountdown i)).
Proof.
  apply evo_world. intros w. apply timed_lift; [apply now_time|]. intros a v.
  apply timed_lift; [apply lift_time, timeradd_fault|]. intros. apply wp_ret. lia.
Qed.
Lemma evo_TimerCountdownMS i : evo P (onWorld (TimerCountdownMS i)).
Proof.
  apply evo_world. intros w. apply timed_lift; [apply now_time|]. intros a v.
  apply timed_lift; [apply lift_time, timeradd_fault|]. intros. apply wp_ret. lia.
Qed.
End Evolution.

#[export] Hint Resolve evo_ret evo_cget evo_lift evo_TimerIsExpired evo_TimerLeftMS
  evo_TimerCountdown evo_TimerCountdownMS : wp.

Lemma s32_le z : s32 z ≤ INT_MAX.
Proof.
  unfold s32, INT_MAX. pose proof (Z.mod_pos_bound (z + 2147483648) 4294967296 ltac:(lia)). lia.
Qed.

(** Walks through the body of an operation. *)
Ltac evo_step :=
  first
    [ solve [eauto with wp]
    | apply evo_bind; [assumption| |intros ?]
    | apply evo_if
    | apply evo_cset; intros ?; by split
    | match goal with
      | |- evo _ (let '(_, _) := ?x in _) => destruct x
      | |- evo _ (match ?x with _ => _ end) => destruct x
      end ].
Ltac evo_steps := repeat evo_step.

Section Loops.
Context {N X H : Type} `{!Clock N, !ClockLaws N, !NetOps N, !TimedNet N, !Fuel, !Callbacks N X H}.
Implicit Types s : St N X H.

(** There is fuel for one round per microsecond until the timer expires. *)
Definition budget (timer : Timer) s : Prop :=
  timer_ok timer ∧ deadline timer - now (world s) < Z.of_nat fuel.

Lemma budget_stable timer : stable (budget timer).
Proof. intros s s' [Ht Hb] [_ He]. split; [done|lia]. Qed.

(** One poll of the timer: not expired means before the deadline. *)
Lemma poll_wp timer s (Q : bool → St N X H → Prop) :
  timer_ok timer →
  (∀ b s', evolves s s' → (b = false → now (world s') < deadline timer) → Q b s') →
  wp (onWorld (TimerIsExpired timer)) Q s.
Proof.
  intros Hok HQ. unfold wp, onWorld. rewrite TimerIsExpired_spec by done.
  apply HQ; [by split; [|apply clock_mono]|]. cbn [world]. intros Hb%bool_decide_eq_false. lia.
Qed.

Lemma send_loop_wp k length timer sent s :
  timer_ok timer → deadline timer - now (world s) < Z.of_nat k →
  wp (send_loop k length timer sent) (λ _ s', evolves s s') s.
Proof.
  revert sent s. induction k as [|k IH]; intros sent s Hok Hk; cbn [send_loop];
    (destruct (sent <? length); [|by apply wp_ret]);
    apply wp_bind, (poll_wp timer s _ Hok); intros [] s1 He Hx; try by apply wp_ret.
  - destruct He as [_ He]. specialize (Hx eq_refl). lia.
  - apply wp_bind. eapply wp_mono; [by apply (evo_TimerLeftMS (λ _, True))|]. intros left s2 He2.
    apply wp_bind, wp_gets, wp_bind, wp_lift.
    pose proof (load_bytes_fault (c_buf (client s2)) sent length).
    destruct (load_bytes _ _ _) as [d|f]; [|congruence].
    apply wp_bind. unfold wp, onWorld. pose proof (mqttwrite_time d left (world s2)) as Ht.
    unfold wp in Ht. destruct (mqttwrite d left (world s2)) as [[rc w]|f]; [|done].
    assert (He3 : evolves s (MkSt (client s2) w (user s2))).
    { etransitivity; [exact He|]. etransitivity; [exact He2|]. split; [done|]. cbn. lia. }
    destruct (rc <? 0); [exact He3|]. eapply wp_mono; [apply IH; [done|]|].
    + destruct He, He2. cbn [world]. lia.
    + intros a s4 H4. exact (transitivity He3 H4).
Qed.

Lemma evo_sendPacket length timer : evo (budget timer) (sendPacket length timer : M (St N X H) Z).
Proof.
  pose proof (budget_stable timer). unfold sendPacket. apply evo_bind; [done| |].
  - intros s [Hok Hb]. by apply send_loop_wp.
  - intros sent. evo_steps.
Qed.

Lemma evo_serialize (P : St N X H → Prop) f : SerOk f → evo P (serialize f).
Proof.
  intros Hf s _. unfold serialize.
  apply wp_bind, wp_gets, wp_bind, wp_gets, wp_bind, wp_lift.
  pose proof (Hf (c_buf (client s)) (s32 (c_buf_size (client s))) (s32_le _)) as Hs.
  destruct (f _ _) as [[n b]|e]; [|done].
  apply wp_bind, wp_modify, wp_ret. by split; [split|].
Qed.

(** A countdown that does not overflow the clock ends when it says. *)
Lemma countdown_wp ms s (Q : Timer → St N X H → Prop) :
  0 ≤ ms < 4294967296 →
  (∀ t s', evolves s s' → timer_ok t → deadline t ≤ now (world s') + 1000 * ms → Q t s') →
  wp (onWorld (TimerCountdownMS ms)) Q s.
Proof.
  intros Hms HQ. unfold wp, onWorld, TimerCountdownMS, now_of_day, mbind, M_bind, lift.
  pose proof (clock_reads (world s)) as Hr. pose proof (clock_norm (world s)) as Hc.
  pose proof (clock_mono (world s)) as Hm.
  destruct (gettimeofday (world s)) as [tv w]; cbn [fst snd] in *.
  pose proof (Z.div_mod ms 1000 ltac:(lia)). pose proof (Z.mod_pos_bound ms 1000 ltac:(lia)).
  rewrite !s32_small by (unfold INT_MIN, INT_MAX; lia).
  set (i := {| tv_sec := ms / 1000; tv_usec := ms mod 1000 * 1000 |}).
  pose proof (timeradd_fault tv i). destruct (timeradd tv i) as [e|f] eqn:E; [|congruence].
  destruct (timeradd_Ok tv i e E Hc) as (Hn & Hs & Hu).
  { unfold timeval_norm; cbn [tv_sec tv_usec i]. lia. }
  apply HQ; [by split|by split|]. unfold deadline. cbn [end_time world]. rewrite Hu.
  unfold timeval_us, CLOCK_END in *. cbn [tv_sec tv_usec i]. lia.
Qed.

Definition adv (s s' : St N X H) : Prop :=
  evolves s s' ∧ now (world s) + 1 ≤ now (world s').

Lemma read_into_wp off n t s : n < 268435456 → wp (read_into off n t) (λ _ s', adv s s') s.
Proof.
  intros Hn.
  unfold read_into. apply wp_bind. unfold wp at 1, onWorld.
  pose proof (mqttread_time n t (world s) Hn) as Ht. unfold wp in Ht.
  destruct (mqttread n t (world s)) as [[[rc d] w]|f]; [|done].
  apply wp_bind, wp_gets, wp_bind, wp_lift. cbn [client].
  pose proof (store_bytes_fault (c_readbuf (client s)) off d).
  destruct (store_bytes _ _ _) as [b|f] eqn:E; [|congruence].
  apply store_bytes_length in E. apply wp_bind, wp_modify, wp_ret.
  split; [split; [by split|cbn; lia]|done].
Qed.

Lemma evo_read_into P off n t : n < 268435456 → evo P (read_into off n t : M (St N X H) Z).
Proof. intros Hn s _. eapply wp_mono; [by apply read_into_wp|]. by intros ? ? []. Qed.

Lemma decodePacket_wp t s (Q : Z → St N X H → Prop) :
  (∀ v s', evolves s s' → v < 268435456 → Q v s') → wp (decodePacket t) Q s.
Proof.
  intros HQ. assert (PreOrder (λ v w : N, now v ≤ now w)) by (split; intros ?; lia).
  pose proof (decode_loop_rel (λ v w : N, now v ≤ now w) (read_byte t) 5 0 (world s) 0) as Hd.
  unfold wp, decodePacket, onWorld, MQTTPacket_decode.
  change (128 ^ Z.of_nat 0) with 1 in Hd. change (Z.of_nat 0) with 0 in Hd.
  destruct (decode_loop _ _ _ _ _ _) as [[[l v] w]|f]; cbn.
  1: destruct Hd; [|done|lia|lia|apply HQ; [by split|lia]].
  2: apply Hd; [|done|lia|lia].
  all: intros w'; unfold read_byte; pose proof (mqttread_time 1 t w' ltac:(lia)) as Ht; unfold wp in Ht;
    destruct (mqttread 1 t w') as [[[rc d] w'']|f']; cbn; [lia|done].
Qed.

Lemma wp_evo {A B} (P : St N X H → Prop) (m : M (St N X H) A) (k : A → M (St N X H) B) s s0
    (R : St N X H → St N X H → Prop) :
  evo P m → P s → evolves s0 s →
  (∀ a s', evolves s0 s' → evolves s s' → wp (k a) (λ _ t, R s0 t) s') →
  wp (m ≫= k) (λ _ t, R s0 t) s.
Proof.
  intros Hm Hs He Hk. apply wp_bind. eapply wp_mono; [by apply Hm|]. intros a s' Hs'.
  apply Hk; [exact (transitivity He Hs')|done].
Qed.

Lemma evo_readPacket_body timer len n : n < 268435456 → evo (λ _, True) (readPacket_body timer len n : M (St N X H) Z).
Proof.
  intros Hn. assert (HP : stable (λ _ : St N X H, True)) by done. pose proof evo_read_into.
  unfold readPacket_body. evo_steps.
Qed.

(** A packet read takes time, whatever its result. *)
Lemma readPacket_wp timer s : wp (readPacket timer) (λ _ s', adv s s') s.
Proof.
  unfold readPacket. eapply (wp_evo (λ _, True)); [apply evo_TimerLeftMS|done|done|].
  intros left s1 He1 _. apply wp_bind. eapply wp_mono; [by apply read_into_wp|].
  intros rc s2 [He2 Ht2]. assert (Ha : adv s s2)
    by (split; [exact (transitivity He1 He2)|destruct He1; lia]).
  clear s1 He1 He2 Ht2. destruct (negb (rc =? 1)); [by apply wp_ret|].
  eapply (wp_mono _ (λ _ s', evolves s2 s')); [|intros a s3 [Hs3 Hs4]; destruct Ha as [Ha1 Ha2];
    split; [by etransitivity; [exact Ha1|split]|lia]].
  eapply (wp_evo (λ _, True)); [apply evo_TimerLeftMS|done|done|]. intros left1 s3 He3 _.
  apply wp_bind, decodePacket_wp. intros v s4 He4 Hv. apply wp_bind, wp_gets, wp_bind, wp_lift.
  pose proof (encode_fuel (c_readbuf (client s4)) 1 v ltac:(lia)).
  destruct (MQTTPacket_encode _ _ _) as [[n b]|f]; [|done]. apply wp_bind, wp_modify.
  assert (He5 : evolves s2 (MkSt (set_readbuf b (client s4)) (world s4) (user s4))).
  { etransitivity; [exact He3|]. etransitivity; [exact He4|]. by split; [split|]. }
  eapply wp_mono; [by apply evo_readPacket_body|]. intros a s6 He6. exact (transitivity He5 He6).
Qed.
End Loops.

#[export] Hint Resolve evo_sendPacket evo_serialize evo_read_into : wp.
#[export] Hint Extern 0 (SerOk _) => apply _ : wp.

Section Calls.
Context {N X H : Type} `{!Clock N, !ClockLaws N, !NetOps N, !TimedNet N, !Fuel, !Callbacks N X H}.
(** Handlers return and respect the client structure. *)
Hypothesis handlers_return : ∀ h t m,
  evo (λ _, True) (run_handler h t m : M (St N X H) ()).
(** One round per microsecond of the second a ping may take. *)
Hypothesis enough_fuel : 1000000 < Z.of_nat fuel.

Lemma evo_weaken {A} (P Q : St N X H → Prop) (m : M (St N X H) A) :
  evo P m → (∀ s, Q s → P s) → evo Q m.
Proof. intros Hm HPQ s Hs. by apply Hm, HPQ. Qed.

Lemma evo_handler P h t m : evo P (run_handler h t m : M (St N X H) ()).
Proof. apply (evo_weaken (λ _, True)); [apply handlers_return|done]. Qed.
#[local] Hint Resolve evo_handler : wp.

Lemma evo_deliverMessage P t m : stable P → evo P (deliverMessage t m).
Proof.
  intros HP. unfold deliverMessage. change (Z.to_nat MAX_MESSAGE_HANDLERS) with 0%nat.
  cbn [deliver_loop]. evo_steps.
Qed.

(** A call that starts a countdown of [ms] milliseconds. *)
Lemma evo_countdown {A} P ms (k : Timer → M (St N X H) A) :
  0 ≤ ms < 4294967296 → 1000 * ms < Z.of_nat fuel → (∀ t, evo (budget t) (k t)) →
  evo P (onWorld (TimerCountdownMS ms) ≫= k).
Proof.
  intros Hms Hf Hk s _. apply wp_bind, countdown_wp; [done|]. intros t s1 He1 Hok Hd.
  eapply wp_mono; [apply Hk; split; [done|lia]|]. intros a s2 He2. exact (transitivity He1 He2).
Qed.

Lemma evo_ping P : evo P (onWorld (TimerCountdownMS 1000) ≫= send_ping : M (St N X H) Z).
Proof.
  apply evo_countdown; [lia|lia|]. intros t. pose proof (budget_stable (X := X) (H := H) t).
  unfold send_ping. evo_steps.
Qed.

Lemma evo_keepalive P : stable P → evo P (keepalive : M (St N X H) Z).
Proof. intros HP. pose proof (evo_ping P). unfold keepalive. evo_steps. Qed.

Lemma evo_dispatch ty timer : evo (budget timer) (cycle_dispatch ty timer : M (St N X H) (Z * bool)).
Proof.
  assert (Hst : stable (budget timer : St N X H → Prop)) by apply budget_stable.
  pose proof (evo_deliverMessage (budget timer)).
  unfold cycle_dispatch, cycle_publish, cycle_pubrec. evo_steps.
Qed.

(** One cycle takes time and keeps the structure. *)
Lemma cycle_wp timer s : budget timer s → wp (cycle timer) (λ _ s', adv s s') s.
Proof.
  intros Hb. unfold cycle. apply wp_bind. eapply wp_mono; [apply readPacket_wp|].
  intros r s1 [He1 Ht1]. pose proof (budget_stable timer _ _ Hb He1) as Hb1.
  assert (Hst : stable (budget timer : St N X H → Prop)) by apply budget_stable.
  pose proof (evo_keepalive (budget timer) Hst). pose proof (evo_dispatch (u16 r) timer).
  assert (He : evo (budget timer) (cycle_work (u16 r) timer : M (St N X H) Z))
    by (unfold cycle_work; evo_steps).
  eapply wp_mono; [by apply He|]. intros a s2 He2.
  split; [exact (transitivity He1 He2)|destruct He2; lia].
Qed.

Lemma yield_loop_wp k timer s :
  budget timer s → 0 < Z.of_nat k → deadline timer - now (world s) < Z.of_nat k →
  wp (yield_loop k timer) (λ _ s', evolves s s') s.
Proof.
  revert s. induction k as [|k IH]; intros s Hb Hp Hk; [done|]. cbn [yield_loop].
  apply wp_bind. eapply wp_mono; [by apply cycle_wp|]. intros r s1 [He1 Ht1].
  destruct (r =? MQTT_FAILURE); [by apply wp_ret|].
  apply wp_bind, (poll_wp timer s1); [apply Hb|]. intros [] s2 He2 Hx.
  - apply wp_ret. exact (transitivity He1 He2).
  - specialize (Hx eq_refl). pose proof (transitivity He1 He2) as He.
    assert (now (world s1) ≤ now (world s2)) by (by destruct He2).
    eapply wp_mono; [apply IH; [by eapply budget_stable| |]|]; [lia|lia|].
    intros a s3 He3. exact (transitivity He He3).
Qed.

Lemma evo_clear_flag P ty (b : bool) : evo P (match ack_flag ty with
  | Some (_, g) => cset (g b) | None => mret () end : M (St N X H) ()).
Proof.
  unfold ack_flag. repeat match goal with |- context [if ?b then _ else _] => destruct b end;
    first [apply evo_ret | apply evo_cset; intros c; by split].
Qed.

Lemma waitfor_loop_wp k ty timer s :
  budget timer s → deadline timer - now (world s) < Z.of_nat k →
  wp (waitfor_loop k ty timer) (λ _ s', evolves s s') s.
Proof.
  revert s. induction k as [|k IH]; intros s Hb Hk; cbn [waitfor_loop];
    (eapply (wp_evo (budget timer)); [|done|done|intros rcv s1 He1 _];
      [destruct (ack_flag ty) as [[f g]|]; eauto with wp|]);
    (destruct rcv; [eapply wp_mono;
      [apply (evo_bind (budget timer) (budget_stable timer) _ _ (evo_clear_flag _ ty false)
        (λ _, evo_ret _ ty)); by eapply budget_stable|intros a s2 He2; exact (transitivity He1 He2)]|]);
    apply wp_bind, (poll_wp timer s1); try apply Hb; intros [] s2 He2 Hx;
    pose proof (transitivity He1 He2) as He; try (by apply wp_ret).
  - specialize (Hx eq_refl). destruct He as [_ He]. lia.
  - apply wp_bind. eapply wp_mono; [apply cycle_wp; by eapply budget_stable|].
    intros r s3 [He3 Ht3]. pose proof (transitivity He He3) as He'.
    eapply wp_mono; [apply IH; [by eapply budget_stable|]|].
    + destruct He. lia.
    + intros a s4 He4. exact (transitivity He' He4).
Qed.

Lemma evo_waitfor ty timer : evo (budget timer) (waitfor ty timer : M (St N X H) Z).
Proof.
  unfold waitfor. apply evo_bind; [apply budget_stable|apply evo_clear_flag|].
  intros _ s Hb. apply waitfor_loop_wp; [done|apply Hb].
Qed.

Lemma evo_await_ack ty timer rc : evo (budget timer) (await_ack ty timer rc : M (St N X H) Z).
Proof.
  pose proof (budget_stable (X := X) (H := H) timer). pose proof (evo_waitfor ty timer).
  unfold await_ack. evo_steps.
Qed.

Lemma evo_getNextPacketId P : stable P → evo P (getNextPacketId : M (St N X H) Z).
Proof.
  intros HP s _. unfold getNextPacketId. apply wp_bind, wp_gets, wp_bind, wp_modify, wp_ret.
  split; [split; try done|done]. cbn. unfold MAX_PACKET_ID, u32. intros.
  destruct (Z.eqb_spec (c_next_packetid (client s)) 65535); [lia|]. rewrite Z.mod_small; lia.
Qed.
#[local] Hint Resolve evo_waitfor evo_await_ack evo_getNextPacketId : wp.

(** The command timeout is an [unsigned int] and there is a round of fuel for
    each of its microseconds. *)
Definition timeout_ok (s : St N X H) : Prop :=
  0 ≤ c_command_timeout_ms (client s) < 4294967296 ∧
  1000 * c_command_timeout_ms (client s) < Z.of_nat fuel.

Lemma timeout_ok_stable : stable timeout_ok.
Proof. intros s s' Ht [[] _]. unfold timeout_ok in *. by rewrite shape_timeout0. Qed.

(** An operation that starts its timer with the command timeout. *)
Lemma evo_command {A} (k : Timer → M (St N X H) A) :
  (∀ t, evo (budget t) (k t)) →
  evo timeout_ok (ms ← cget c_command_timeout_ms; onWorld (TimerCountdownMS ms) ≫= k).
Proof.
  intros Hk s [Hs Hf]. apply wp_bind, wp_gets.
  by apply (evo_countdown (λ _, True) (c_command_timeout_ms (client s)) k).
Qed.

Lemma evo_connect o : evo timeout_ok (MQTTConnect o : M (St N X H) Z).
Proof.
  pose proof timeout_ok_stable. unfold MQTTConnect, connect_await. evo_step; [evo_steps|].
  evo_step; [|evo_steps]. evo_step; [evo_steps|]. apply evo_command. intros t.
  pose proof (budget_stable (X := X) (H := H) t). evo_steps.
Qed.

Lemma evo_subscribe f q h : evo timeout_ok (MQTTSubscribe f q h : M (St N X H) Z).
Proof.
  pose proof timeout_ok_stable. unfold MQTTSubscribe. evo_step; [evo_steps|].
  evo_step; [evo_steps|]. apply evo_command. intros t.
  pose proof (budget_stable (X := X) (H := H) t).
  change (Z.to_nat MAX_MESSAGE_HANDLERS) with 0%nat. cbn [register_loop]. evo_steps.
Qed.

Lemma evo_unsubscribe f : evo timeout_ok (MQTTUnsubscribe f : M (St N X H) Z).
Proof.
  pose proof timeout_ok_stable. unfold MQTTUnsubscribe. evo_step; [evo_steps|].
  evo_step; [evo_steps|]. apply evo_command. intros t.
  pose proof (budget_stable (X := X) (H := H) t). evo_steps.
Qed.

Lemma evo_publish t m : evo timeout_ok (MQTTPublish t m : M (St N X H) (Z * Z)).
Proof.
  pose proof timeout_ok_stable. unfold MQTTPublish. evo_step; [evo_steps|].
  evo_step; [evo_steps|]. apply evo_command. intros tm.
  pose proof (budget_stable (X := X) (H := H) tm). evo_steps.
Qed.

Lemma evo_disconnect : evo timeout_ok (MQTTDisconnect : M (St N X H) Z).
Proof.
  pose proof timeout_ok_stable. unfold MQTTDisconnect. apply evo_command. intros t.
  pose proof (budget_stable (X := X) (H := H) t). evo_steps.
Qed.

Lemma evo_yield ms : 1000 * u32 ms < Z.of_nat fuel → evo timeout_ok (MQTTYield ms : M (St N X H) Z).
Proof.
  intros Hf. unfold MQTTYield. apply evo_countdown; [unfold u32; apply Z.mod_pos_bound; lia|done|].
  intros t s Hb. apply yield_loop_wp; [done|lia|apply Hb].
Qed.

(** A sequence of calls whose yields have fuel for their time. *)
Definition call_ok (a : api_call H) : Prop :=
  match a with CallYield ms => 1000 * u32 ms < Z.of_nat fuel | _ => True end.

Lemma evo_calls l : Forall call_ok l → evo timeout_ok (run_calls l : M (St N X H) (list Z)).
Proof.
  pose proof timeout_ok_stable. induction 1 as [|a l Ha _ IH]; cbn [run_calls]; [apply evo_ret|].
  apply evo_bind; [done| |intros; evo_steps].
  destruct a; cbn [run_call]; eauto using evo_connect, evo_subscribe, evo_unsubscribe, evo_disconnect, evo_yield.
  apply evo_bind; [done|apply evo_publish|]. intros []. apply evo_ret.
Qed.

(** [C3] Every call returns: whatever the network delivers, a sequence of
    MQTTConnect, MQTTSubscribe, MQTTUnsubscribe, MQTTPublish, MQTTYield and
    MQTTDisconnect calls never runs out of one loop round per microsecond of
    its timeouts (and of the one second a ping may take).  The network calls
    take time and the message handlers return. *)
Theorem client_calls_return (l : list (api_call H)) (s : St N X H) :
  Forall call_ok l → timeout_ok s → run_calls l s ≠ Fault OutOfFuel.
Proof. intros Hl Hs. eapply wp_run. by apply evo_calls. Qed.

(** [C6] The client structure is an invariant: over any sequence of calls that
    finishes, whatever the peer sends, the buffers keep their sizes, the
    configuration and the message handlers stay as they were set, and the
    next packet id stays within 1 and 65535, never 0. *)
Theorem client_shape_invariant (l : list (api_call H)) (s s' : St N X H) (rcs : list Z) :
  Forall call_ok l → timeout_ok s → run_calls l s = Ok (rcs, s') →
  same_shape (client s) (client s').
Proof. intros Hl Hs E. by apply (wp_result _ _ _ _ _ (evo_calls l Hl s Hs) E). Qed.
End Calls.

(** A session: connect, publish with QoS 1, yield and disconnect, against a peer
    that sends a CONNACK and a PUBACK. *)
Definition session : list (api_call ()) :=
  [CallConnect None; CallPublish (Some (bytes "t")) (Build_MQTTMessage 1 0 0 0 (bytes "v") 1);
   CallYield 5; CallDisconnect].
Definition session_start : St sim (list Z) () := sim_state 64 0 false [32; 2; 0; 0; 64; 2; 0; 2].
Definition session_fuel : Fuel := Z.to_nat 1000001.

Lemma session_fuel_Z : Z.of_nat (fuel (Fuel := session_fuel)) = 1000001.
Proof. unfold fuel, session_fuel. by rewrite Z2Nat.id. Qed.

Lemma sim_handlers_return h t m :
  evo (λ _, True) (run_handler h t m : M (St sim (list Z) ()) ()).
Proof. intros s _. apply wp_modify. by split; [split|]. Qed.

Lemma session_ok : Forall (@call_ok () session_fuel) session ∧ @timeout_ok sim (list Z) () session_fuel session_start.
Proof.
  unfold timeout_ok. rewrite session_fuel_Z. split; [|cbn; lia].
  unfold session. repeat constructor; cbn [call_ok]; rewrite ?session_fuel_Z; by vm_compute.
Qed.

Lemma client_calls_return_witness :
  @run_calls sim (list Z) () _ _ session_fuel _ session session_start ≠ Fault OutOfFuel.
Proof.
  apply (@client_calls_return sim (list Z) () _ _ _ _ session_fuel _).
  - exact sim_handlers_return.
  - rewrite session_fuel_Z. lia.
  - apply session_ok.
  - apply session_ok.
Defined.

Lemma client_shape_invariant_witness :
  match @run_calls sim (list Z) () _ _ session_fuel _ session session_start with
  | Ok (rcs, s') => rcs = [0; 0; 0; 0] ∧ same_shape (client session_start) (client s')
  | Fault _ => False
  end.
Proof.
  destruct (run_calls session session_start) as [[rcs s']|f] eqn:E.
  - split.
    + assert (Hr : match @run_calls sim (list Z) () _ _ session_fuel _ session session_start with
        | Ok (rcs, _) => rcs = [0; 0; 0; 0] | Fault _ => False end) by (vm_compute; reflexivity).
      by rewrite E in Hr.
    + apply (@client_shape_invariant sim (list Z) () _ _ _ _ session_fuel _ sim_handlers_return
        ltac:(rewrite session_fuel_Z; lia) session session_start s' rcs); [apply session_ok..|exact E].
  - assert (Hr : match @run_calls sim (list Z) () _ _ session_fuel _ session session_start with
      | Ok _ => True | Fault _ => False end) by (vm_compute; exact I).
    by rewrite E in Hr.
Defined.
