(* ===== verification/MQTTClientRuns.v ===== *)
(** * The MQTT client on a responsive network

    What the client puts on the wire and what it makes of what it receives, on
    a network that has the peer's bytes ready, takes what it is given and does
    either within a millisecond (class [ResponsiveNet]). *)

From S2P Require Import Prelude MQTTPacket MQTTConnect MQTTPublish MQTTSubscribe Timer Network MQTTClient Simulation.

(** [alive w]: the connection is open.  It stays so. *)
Class ResponsiveNet (N : Type) `{!Clock N, !ClockLaws N, !NetOps N} := {
  pending : N → list Z;
  sent : N → list Z;
  alive : N → Prop;
  read_ready n t w : alive w → 0 ≤ n ≤ zlen (pending w) →
    twp (mqttread n t) (λ r w', r = (n, take (Z.to_nat n) (pending w)) ∧
      pending w' = drop (Z.to_nat n) (pending w) ∧ sent w' = sent w ∧
      now w ≤ now w' ≤ now w + 1000 ∧ alive w') w;
  write_ready d t w : alive w →
    twp (mqttwrite d t) (λ rc w', rc = zlen d ∧ pending w' = pending w ∧
      sent w' = sent w ++ d ∧ now w ≤ now w' ≤ now w + 1000 ∧ alive w') w;
  clock_ready w : pending (gettimeofday w).2 = pending w ∧ sent (gettimeofday w).2 = sent w ∧
    now (gettimeofday w).2 ≤ now w + 1000 ∧ (alive w → alive (gettimeofday w).2) }.

Section Runs.
Context {N X H : Type} `{!Clock N, !ClockLaws N, !NetOps N, !ResponsiveNet N, !Fuel, !Callbacks N X H}.
Implicit Types (c : MQTTClient H) (x : X) (i o : list Z).

(** The state has the client structure [c], the unread bytes [i], the bytes [o]
    sent so far, and a time between [lo] and [hi]. *)
Record at_state c x i o (lo hi : Z) (s : St N X H) : Prop := {
  at_client : client s = c;
  at_user : user s = x;
  at_pending : pending (world s) = i;
  at_sent : sent (world s) = o;
  at_time : lo ≤ now (world s) ≤ hi;
  at_alive : alive (world s) }.

Lemma twp_world {A} (m : M N A) (Q : A → St N X H → Prop) s :
  twp m (λ a w, Q a (MkSt (client s) w (user s))) (world s) → twp (onWorld m) Q s.
Proof. unfold twp, onWorld. by destruct (m (world s)) as [[a w]|f]. Qed.

Lemma twp_cget {A} (f : MQTTClient H → A) (Q : A → St N X H → Prop) c x i o lo hi s :
  at_state c x i o lo hi s → Q (f c) s → twp (cget f) Q s.
Proof. intros [<- _ _ _ _ _] HQ. by apply twp_gets. Qed.

Lemma twp_cset g (Q : () → St N X H → Prop) c x i o lo hi s :
  at_state c x i o lo hi s → (∀ s', at_state (g c) x i o lo hi s' → Q () s') →
  twp (cset g) Q s.
Proof. intros [<- ? ? ? ? ?] HQ. apply twp_modify, HQ. by split. Qed.

Lemma twp_poll timer (Q : bool → St N X H → Prop) c x i o lo hi s :
  at_state c x i o lo hi s → timer_ok timer → hi + 1000 < deadline timer →
  (∀ s', at_state c x i o lo (hi + 1000) s' → Q false s') →
  twp (onWorld (TimerIsExpired timer)) Q s.
Proof.
  intros [? ? ? ? ? ?] Hok Hd HQ. apply twp_world. unfold twp.
  rewrite TimerIsExpired_spec by done.
  pose proof (clock_ready (world s)) as (? & ? & ? & ?). pose proof (clock_mono (world s)).
  rewrite bool_decide_eq_false_2 by lia. apply HQ. split; cbn; (solve [auto] || congruence || lia).
Qed.

Lemma twp_left timer (Q : Z → St N X H → Prop) c x i o lo hi s :
  at_state c x i o lo hi s → timer_ok timer → deadline timer - lo < 2147483648000 →
  (∀ ms s', at_state c x i o lo (hi + 1000) s' → Q ms s') →
  twp (onWorld (TimerLeftMS timer)) Q s.
Proof.
  intros [? ? ? ? ? ?] Hok Hd HQ. apply twp_world. unfold twp.
  pose proof (clock_ready (world s)) as (? & ? & ? & ?). pose proof (clock_mono (world s)).
  rewrite TimerLeftMS_spec by (done || lia). apply HQ. split; cbn; (solve [auto] || congruence || lia).
Qed.

Lemma twp_countdown_ms ms (Q : Timer → St N X H → Prop) c x i o lo hi s :
  at_state c x i o lo hi s → 0 ≤ ms < 4294967296 → hi + 1000 + 1000 * ms < 2147483646000000 →
  (∀ t s', at_state c x i o lo (hi + 1000) s' → timer_ok t →
     lo + 1000 * ms ≤ deadline t ≤ hi + 1000 + 1000 * ms → Q t s') →
  twp (onWorld (TimerCountdownMS ms)) Q s.
Proof.
  intros [? ? ? ? ? ?] Hms Hd HQ. apply twp_world. unfold twp.
  pose proof (clock_ready (world s)) as (? & ? & ? & ?). pose proof (clock_mono (world s)).
  destruct (TimerCountdownMS_spec ms (world s)) as (t & -> & Hok & Ht); [done|lia|].
  apply HQ; [|done|lia]. split; cbn; (solve [auto] || congruence || lia).
Qed.

Lemma twp_countdown sec (Q : Timer → St N X H → Prop) c x i o lo hi s :
  at_state c x i o lo hi s → 0 ≤ sec → hi + 1000 + 1000000 * sec < 2147483646000000 →
  (∀ t s', at_state c x i o lo (hi + 1000) s' → timer_ok t →
     lo + 1000000 * sec ≤ deadline t ≤ hi + 1000 + 1000000 * sec → Q t s') →
  twp (onWorld (TimerCountdown sec)) Q s.
Proof.
  intros [? ? ? ? ? ?] Hs Hd HQ. apply twp_world. unfold twp.
  pose proof (clock_ready (world s)) as (? & ? & ? & ?). pose proof (clock_mono (world s)).
  destruct (TimerCountdown_spec sec (world s)) as (t & -> & Hok & Ht); [done|lia|].
  apply HQ; [|done|lia]. split; cbn; (solve [auto] || congruence || lia).
Qed.

Lemma twp_write d ms (Q : Z → St N X H → Prop) c x i o lo hi s :
  at_state c x i o lo hi s →
  (∀ s', at_state c x i (o ++ d) lo (hi + 1000) s' → Q (zlen d) s') →
  twp (onWorld (mqttwrite d ms)) Q s.
Proof.
  intros [? ? ? ? ? ?] HQ. apply twp_world. eapply twp_mono; [by apply write_ready|].
  intros rc w (-> & ? & ? & ? & ?). apply HQ. split; cbn; (solve [auto] || congruence || lia).
Qed.

Lemma twp_read d ms (Q : Z * list Z → St N X H → Prop) c x rest o lo hi s :
  at_state c x (d ++ rest) o lo hi s →
  (∀ s', at_state c x rest o lo (hi + 1000) s' → Q (zlen d, d) s') →
  twp (onWorld (mqttread (zlen d) ms)) Q s.
Proof.
  intros [? ? Hp ? ? ?] HQ. apply twp_world. eapply twp_mono; [apply read_ready; [done|]|].
  { rewrite Hp, length_app. lia. }
  intros [rc d'] w ([= -> ->] & Hp' & ? & ? & ?). rewrite Hp, Nat2Z.id, take_app_length.
  rewrite Hp, Nat2Z.id, drop_app_length in Hp'.
  apply HQ. split; cbn; (solve [auto] || congruence || lia).
Qed.

(** ** Sending *)

(** A packet of [n] bytes at the head of the send buffer goes out whole, in one
    write, and the ping timer is restarted. *)
Lemma twp_sendPacket pkt post timer (Q : Z → St N X H → Prop) c x i o lo hi s :
  at_state c x i o lo hi s → c_buf c = pkt ++ post → pkt ≠ [] → (0 < fuel)%nat →
  timer_ok timer → hi + 1000 < deadline timer → deadline timer - lo < 2147483648000 →
  0 ≤ c_keepAliveInterval c → hi + 4000 + 1000000 * c_keepAliveInterval c < 2147483646000000 →
  (∀ t s', timer_ok t → lo + 1000000 * c_keepAliveInterval c ≤ deadline t →
     at_state (set_ping_timer t c) x i (o ++ pkt) lo (hi + 4000) s' → Q MQTT_SUCCESS s') →
  twp (sendPacket (zlen pkt) timer) Q s.
Proof.
  intros Hs Hb Hne Hf Hok Hd1 Hd2 Hk1 Hk2 HQ. unfold sendPacket.
  assert (0 < zlen pkt) by (destruct pkt; [done|cbn; lia]).
  destruct fuel as [|k]; [lia|]. apply twp_bind. cbn [send_loop].
  rewrite (proj2 (Z.ltb_lt _ _)) by lia.
  eapply twp_bind, twp_poll; [done..|]. intros s1 Hs1. cbv iota.
  eapply twp_bind, twp_left; [done..|]. intros ms s2 Hs2.
  eapply twp_bind, twp_cget; [done|].
  eapply twp_bind, twp_lift.
  { rewrite Hb. apply (load_bytes_at _ [] pkt post); done. }
  eapply twp_bind, twp_write; [done|]. intros s3 Hs3.
  rewrite (proj2 (Z.ltb_ge _ _)) by lia. rewrite Z.add_0_l.
  destruct k; cbn [send_loop]; rewrite Z.ltb_irrefl; apply twp_ret; rewrite Z.eqb_refl;
    (eapply twp_bind, twp_cget; [done|]);
    (eapply twp_bind, twp_countdown; [done|done|lia|]); intros t s4 Hs4 Ht Hdl;
    (eapply twp_bind, twp_cset; [done|]); intros s5 Hs5; apply twp_ret, (HQ t); try done; try lia;
    by replace (hi + 4000) with (hi + 1000 + 1000 + 1000 + 1000) by lia.
Qed.

(** ** Receiving *)

Lemma twp_read_into pre d old post ms (Q : Z → St N X H → Prop) c x rest o lo hi s :
  at_state c x (d ++ rest) o lo hi s → c_readbuf c = pre ++ old ++ post → length old = length d →
  (∀ s', at_state (set_readbuf (pre ++ d ++ post) c) x rest o lo (hi + 1000) s' → Q (zlen d) s') →
  twp (read_into (zlen pre) (zlen d) ms) Q s.
Proof.
  intros Hs Hb Hl HQ. unfold read_into. eapply twp_bind, twp_read; [done|]. intros s1 Hs1.
  eapply twp_bind, twp_cget; [done|]. eapply twp_bind, twp_lift.
  { rewrite Hb. by apply store_bytes_app. }
  eapply twp_bind, twp_cset; [done|]. intros s2 Hs2. by apply twp_ret, HQ.
Qed.

Lemma delivers_ready bs rest o ms w :
  pending w = bs ++ rest → sent w = o → alive w →
  ∃ w', delivers (read_byte ms) w bs w' ∧ pending w' = rest ∧ sent w' = o ∧
    now w ≤ now w' ≤ now w + 1000 * zlen bs ∧ alive w'.
Proof.
  revert w. induction bs as [|b bs IH]; intros w Hp Hs Ha; cbn [app] in Hp.
  { exists w. split_and!; [constructor|done|done|lia|cbn; lia|done]. }
  pose proof (read_ready 1 ms w Ha) as Hr. rewrite Hp in Hr. specialize (Hr ltac:(cbn [length]; lia)).
  apply twp_run in Hr as (r & w1 & E & -> & Hp1 & Hs1 & Ht1 & Ha1).
  change (drop (Z.to_nat 1) (b :: bs ++ rest)) with (bs ++ rest) in Hp1.
  destruct (IH w1 Hp1) as (w2 & Hd & Hp2 & Hs2 & Ht2 & Ha2); [congruence|done|].
  exists w2. split_and!; [|done|done|lia|cbn [length]; lia|done].
  econstructor; [|exact Hd]. unfold read_byte. by rewrite E.
Qed.

Lemma twp_decodePacket n ms (Q : Z → St N X H → Prop) c x rest o lo hi s :
  at_state c x (remlen_bytes n ++ rest) o lo hi s → 0 ≤ n < 268435456 →
  (∀ s', at_state c x rest o lo (hi + 4000) s' → Q n s') → twp (decodePacket ms) Q s.
Proof.
  intros [? ? Hp Hs ? Ha] Hn HQ. apply twp_world.
  destruct (delivers_ready _ _ o ms (world s) Hp Hs Ha) as (w' & Hd & ? & ? & ? & ?).
  unfold twp. rewrite (decode_delivers _ _ _ n Hn Hd). cbn [mbind outcome_bind].
  pose proof (remlen_length_bounds n Hn). apply HQ. split; cbn; (solve [auto] || congruence || lia).
Qed.

(** What [readPacket] records of a reception. *)
Definition received (t : Timer) c : MQTTClient H :=
  if 0 <? c_keepAliveInterval c then set_last_received_timer t c else c.

Lemma twp_readPacket_body pre h t body old post timer (Q : Z → St N X H → Prop) c x rest o lo hi s :
  at_state c x (body ++ rest) o lo hi s → pre = h :: t → c_readbuf c = pre ++ old ++ post →
  length old = length body → timer_ok timer → deadline timer - lo < 2147483648000 →
  0 ≤ c_keepAliveInterval c → hi + 3000 + 1000000 * c_keepAliveInterval c < 2147483646000000 →
  (∀ tm s', (0 < c_keepAliveInterval c →
       timer_ok tm ∧ lo + 1000000 * c_keepAliveInterval c ≤ deadline tm) →
     at_state (received tm (set_readbuf (pre ++ body ++ post) c)) x rest o lo (hi + 3000) s' →
     Q (header_type h) s') →
  twp (readPacket_body timer (zlen pre) (zlen body)) Q s.
Proof.
  intros Hs Hpre Hb Hl Hok Hd Hk1 Hk2 HQ. unfold readPacket_body. apply twp_bind.
  eapply (twp_mono _ (λ ok s', ok = true ∧
    at_state (set_readbuf (pre ++ body ++ post) c) x rest o lo (hi + 2000) s')).
  { destruct (Z.ltb_spec 0 (zlen body)).
    - eapply twp_bind, twp_left; [done..|]. intros ms s1 Hs1.
      eapply twp_bind, twp_read_into; [done..|]. intros s2 Hs2. apply twp_ret.
      rewrite Z.eqb_refl. split; [done|]. by replace (hi + 2000) with (hi + 1000 + 1000) by lia.
    - apply twp_ret. split; [done|].
      assert (body = []) as -> by (destruct body; [done|cbn in *; lia]).
      destruct old; [|done]. cbn [app] in *. destruct Hs as [Hc ? ? ? ? ?].
      split; [|done|done|done|lia|done]. rewrite Hc, <- Hb. by destruct c. }
  intros ok s1 [-> Hs1]. cbn [negb]. eapply twp_bind, twp_cget; [done|].
  eapply twp_bind, twp_lift; [subst pre; apply load_head|].
  eapply twp_bind, twp_cget; [done|]. cbn [c_keepAliveInterval set_readbuf].
  destruct (Z.ltb_spec 0 (c_keepAliveInterval c)) as [Hka|Hka].
  - apply twp_bind. eapply twp_bind, twp_countdown; [done|done|lia|]. intros tm s2 Hs2 Htm Hdl.
    eapply twp_cset; [done|]. intros s3 Hs3. apply twp_ret, (HQ tm); [split; [done|lia]|].
    unfold received. cbn [c_keepAliveInterval set_readbuf].
    rewrite (proj2 (Z.ltb_lt _ _)) by lia.
    by replace (hi + 3000) with (hi + 2000 + 1000) by lia.
  - apply twp_bind, twp_ret, twp_ret, (HQ TimerInit); [lia|].
    unfold received. cbn [c_keepAliveInterval set_readbuf].
    rewrite (proj2 (Z.ltb_ge _ _)) by lia. destruct Hs1. split; solve [done|lia].
Qed.

(** A packet that fits into the read buffer. *)
Lemma twp_readPacket h body timer (Q : Z → St N X H → Prop) c x rest o lo hi s :
  let pkt := h :: remlen_bytes (zlen body) ++ body in
  at_state c x (pkt ++ rest) o lo hi s → is_byte h → zlen body < 268435456 →
  zlen pkt ≤ zlen (c_readbuf c) → timer_ok timer → deadline timer - lo < 2147483648000 →
  0 ≤ c_keepAliveInterval c → hi + 10000 + 1000000 * c_keepAliveInterval c < 2147483646000000 →
  (∀ tm s', (0 < c_keepAliveInterval c →
       timer_ok tm ∧ lo + 1000000 * c_keepAliveInterval c ≤ deadline tm) →
     at_state (received tm (set_readbuf (pkt ++ drop (length pkt) (c_readbuf c)) c)) x rest o
       lo (hi + 10000) s' → Q (header_type h) s') →
  twp (readPacket timer) Q s.
Proof.
  intros pkt Hs Hh Hn Hfit Hok Hd Hk1 Hk2 HQ. set (rl := remlen_bytes (zlen body)) in *.
  destruct (split_buffer (c_readbuf c) 0 (zlen pkt)) as (pre0 & old & post & Hb & Hp0 & Ho); [lia..|].
  destruct pre0; [|cbn in Hp0; lia]. cbn [app] in Hb. clear Hp0.
  assert (Hpl : length pkt = S (length rl + length body)) by (subst pkt; cbn; by rewrite length_app).
  rewrite Hpl in Ho. destruct old as [|o0 old]; [cbn in Ho; lia|]. cbn [length] in Ho.
  set (old1 := take (length rl) old). set (old2 := drop (length rl) old).
  assert (Hold : old = old1 ++ old2) by (symmetry; apply take_drop).
  assert (Hl1 : length old1 = length rl) by (subst old1; rewrite length_take; lia).
  assert (Hl2 : length old2 = length body) by (subst old2; rewrite length_drop; lia).
  clearbody old1 old2. subst old. unfold readPacket.
  assert (Hpk : pkt ++ rest = [h] ++ rl ++ body ++ rest)
    by (subst pkt; cbn [app]; by rewrite <- app_assoc). rewrite Hpk in Hs.
  eapply twp_bind, twp_left; [done..|]. intros ms s1 Hs1. apply twp_bind.
  eapply (twp_read_into [] [h] [o0] (old1 ++ old2 ++ post)); [exact Hs1|rewrite Hb; cbn [app]; by rewrite <- ?app_assoc|done|].
  intros s2 Hs2. cbn [app] in Hs2. change (negb (zlen [h] =? 1)) with false. cbv iota.
  eapply twp_bind, twp_left; [done..|]. intros ms2 s3 Hs3.
  eapply twp_bind, twp_decodePacket; [done|lia|]. intros s4 Hs4.
  eapply twp_bind, twp_cget; [done|]. cbn [c_readbuf set_readbuf].
  eapply twp_bind, (twp_lift (zlen rl, [h] ++ rl ++ old2 ++ post)).
  { apply (MQTTPacket_encode_bytes [h] old1 (old2 ++ post) (zlen body)); [lia|done]. }
  eapply twp_bind, twp_cset; [done|]. intros s5 Hs5.
  replace (1 + zlen rl) with (zlen (h :: rl)) by (cbn [length]; lia).
  eapply (twp_readPacket_body (h :: rl) h rl body old2 post);
    [exact Hs5|done|done|done|done|done|done|cbn [c_keepAliveInterval set_readbuf]; lia|].
  cbn [c_keepAliveInterval set_readbuf]. intros tm s6 Htm Hs6. apply (HQ tm s6 Htm).
  replace (hi + 10000) with (hi + 1000 + 1000 + 1000 + 4000 + 3000) by lia.
  assert (Hbuf : pkt ++ drop (length pkt) (c_readbuf c) = (h :: rl) ++ body ++ post).
  { subst pkt. rewrite Hb. cbn [app length drop]. rewrite <- !app_assoc. do 3 f_equal.
    rewrite length_app, <- Hl1, <- Hl2, <- length_app, app_assoc. apply drop_app_length. }
  rewrite Hbuf. by destruct c.
Qed.

Lemma at_state_here s : alive (world s) →
  at_state (client s) (user s) (pending (world s)) (sent (world s)) (now (world s)) (now (world s)) s.
Proof. by split. Qed.

Lemma bind_faults {A B} (m : M (St N X H) A) (k : A → M (St N X H) B) s f :
  twp m (λ a s', k a s' = Fault f) s → (m ≫= k) s = Fault f.
Proof. unfold twp, mbind, M_bind. by destruct (m s) as [[a s']|]. Qed.

Lemma read_into_overflow off d ms c x rest o lo hi s :
  at_state c x (d ++ rest) o lo hi s → zlen (c_readbuf c) < off + zlen d →
  read_into off (zlen d) ms s = Fault OobWrite.
Proof.
  intros Hs Hl. unfold read_into. eapply bind_faults, twp_read; [done|]. intros s1 [Hc ? ? ? ? ?].
  unfold mbind, M_bind, cget, gets, lift. rewrite Hc. by rewrite store_bytes_oob.
Qed.

(** A packet that does not fit: its body runs over the end of the buffer. *)
Lemma readPacket_overflow h body timer c x rest o lo hi s :
  let pkt := h :: remlen_bytes (zlen body) ++ body in
  at_state c x (pkt ++ rest) o lo hi s → zlen body < 268435456 → 5 ≤ zlen (c_readbuf c) →
  zlen (c_readbuf c) < zlen pkt → timer_ok timer → deadline timer - lo < 2147483648000 →
  readPacket timer s = Fault OobWrite.
Proof.
  intros pkt Hs Hn H5 Hbig Hok Hd. unfold pkt in *. set (rl := remlen_bytes (zlen body)) in *.
  pose proof (remlen_length_bounds (zlen body) ltac:(lia)) as Hrl. fold rl in Hrl.
  assert (Hz : zlen (h :: rl ++ body) = 1 + zlen rl + zlen body)
    by (cbn [length]; rewrite length_app; lia).
  destruct (split_buffer (c_readbuf c) 1 (zlen rl)) as (pre & old & post & Hb & Hpl & Ho); [lia..|].
  destruct pre as [|o0 [|]]; [done| |cbn in Hpl; lia].
  assert (Hpk : (h :: rl ++ body) ++ rest = [h] ++ rl ++ body ++ rest)
    by (cbn [app]; by rewrite <- app_assoc). rewrite Hpk in Hs.
  unfold readPacket. eapply bind_faults, twp_left; [done..|]. intros ms s1 Hs1.
  apply bind_faults. eapply (twp_read_into [] [h] [o0] (old ++ post)); [exact Hs1|done|done|].
  intros s2 Hs2. change (negb (zlen [h] =? 1)) with false. cbv iota.
  eapply bind_faults, twp_left; [done..|]. intros ms2 s3 Hs3.
  eapply bind_faults, twp_decodePacket; [done|lia|]. intros s4 Hs4.
  eapply bind_faults, twp_cget; [done|]. cbn [c_readbuf set_readbuf].
  eapply bind_faults, (twp_lift (zlen rl, [h] ++ rl ++ post)).
  { apply (MQTTPacket_encode_bytes [h] old post (zlen body)); [lia|fold rl; lia]. }
  eapply bind_faults, twp_cset; [done|]. intros s5 Hs5. unfold readPacket_body.
  rewrite (proj2 (Z.ltb_lt 0 (zlen body))) by lia.
  enough (E : (left ← onWorld (TimerLeftMS timer); rc ← read_into (1 + zlen rl) (zlen body) left;
    mret (rc =? zlen body)) s5 = Fault OobWrite) by (unfold mbind, M_bind in *; by rewrite E).
  eapply bind_faults, twp_left; [done..|]. intros ms3 s6 Hs6.
  unfold mbind, M_bind. erewrite read_into_overflow; [done|exact Hs6|].
  cbn [c_readbuf set_readbuf]. rewrite Hb in Hbig. rewrite !length_app in *.
  cbn [length] in *. lia.
Qed.

(** Reception on a responsive network: when the peer's next bytes are a
    packet (header byte, remaining length, body) that fits into the read
    buffer, [readPacket] returns its type, the buffer starts with exactly the
    packet and exactly the packet is consumed.  A packet larger than the
    buffer is not refused: its body is written past the end of the buffer,
    [readbuf_size] is never consulted. *)
Theorem readPacket_frame (timer : Timer) (h : Z) (body rest : list Z) (s : St N X H) :
  let pkt := h :: remlen_bytes (zlen body) ++ body in
  let c := client s in
  alive (world s) → pending (world s) = pkt ++ rest → is_byte h → zlen body < 268435456 → 5 ≤ zlen (c_readbuf c) →
  timer_ok timer → deadline timer - now (world s) < 2147483648000 → 0 ≤ c_keepAliveInterval c →
  now (world s) + 10000 + 1000000 * c_keepAliveInterval c < 2147483646000000 →
  if zlen pkt <=? zlen (c_readbuf c) then
    ∃ s', readPacket timer s = Ok (header_type h, s') ∧
      c_readbuf (client s') = pkt ++ drop (length pkt) (c_readbuf c) ∧
      pending (world s') = rest ∧ sent (world s') = sent (world s) ∧ user s' = user s
  else readPacket timer s = Fault OobWrite.
Proof.
  intros pkt c Ha Hp Hh Hn H5 Hok Hd Hk1 Hk2. pose proof (at_state_here s Ha) as Hs. fold c in Hs.
  rewrite Hp in Hs. destruct (Z.leb_spec (zlen pkt) (zlen (c_readbuf c))) as [Hfit|Hbig].
  - enough (Ht : twp (readPacket timer) (λ r s', r = header_type h ∧
      c_readbuf (client s') = pkt ++ drop (length pkt) (c_readbuf c) ∧
      pending (world s') = rest ∧ sent (world s') = sent (world s) ∧ user s' = user s) s).
    { apply twp_run in Ht as (r & s' & E & -> & ?). by exists s'. }
    eapply twp_readPacket; [exact Hs|done..|]. intros tm s' _ [Hc ? ? ? ? ?]. split_and!; try done.
    rewrite Hc. unfold received. by destruct (0 <? _).
  - by eapply readPacket_overflow.
Qed.

(** ** Operations *)

Lemma twp_serialize f n b (Q : Z → St N X H → Prop) c x i o lo hi s :
  at_state c x i o lo hi s → f (c_buf c) (s32 (c_buf_size c)) = Ok (n, b) →
  (∀ s', at_state (set_buf b c) x i o lo hi s' → Q n s') → twp (serialize f) Q s.
Proof.
  intros Hs Hf HQ. unfold serialize. eapply twp_bind, twp_cget; [done|].
  eapply twp_bind, twp_cget; [done|]. eapply twp_bind, twp_lift; [exact Hf|].
  eapply twp_bind, twp_cset; [done|]. intros s1 Hs1. by apply twp_ret, HQ.
Qed.

(** The client is idle: nothing is due within [d] microseconds after [hi]. *)
Definition idle c (t : Z) : Prop :=
  c_keepAliveInterval c = 0 ∨
  (timer_ok (c_ping_timer c) ∧ t < deadline (c_ping_timer c) ∧
   timer_ok (c_last_received_timer c) ∧ t < deadline (c_last_received_timer c)).

Lemma twp_keepalive_idle (Q : Z → St N X H → Prop) c x i o lo hi s :
  at_state c x i o lo hi s → idle c (hi + 2000) →
  (∀ r s', at_state c x i o lo (hi + 2000) s' → Q r s') → twp keepalive Q s.
Proof.
  intros Hs Hi HQ. unfold keepalive. eapply twp_bind, twp_cget; [done|].
  destruct Hi as [Hi|(H1 & H2 & H3 & H4)].
  { rewrite Hi. cbn [Z.eqb]. apply twp_ret, HQ. destruct Hs. split; solve [done|lia]. }
  destruct (_ =? 0); [apply twp_ret, HQ; destruct Hs; split; solve [done|lia]|].
  eapply twp_bind, twp_cget; [done|]. eapply twp_bind, twp_poll; [done|done|lia|]. intros s1 Hs1.
  cbv iota. apply twp_bind. eapply twp_bind, twp_cget; [done|]. eapply twp_poll; [done|done|lia|].
  intros s2 Hs2. apply twp_ret, HQ. by replace (hi + 2000) with (hi + 1000 + 1000) by lia.
Qed.

(** The send buffer is as large as the client believes. *)
Definition buf_ok c : Prop := 0 ≤ c_buf_size c ≤ INT_MAX ∧ c_buf_size c ≤ zlen (c_buf c).

Definition times_ok c (t : Z) : Prop :=
  100 ≤ c_command_timeout_ms c < 2147483000 ∧
  t + 1000 * c_command_timeout_ms c + 100000 < 2147483646000000.

Lemma publish_packet_nonempty d q r id t p : publish_packet d q r id t p ≠ [].
Proof. done. Qed.

Lemma cstring_topic_ok t : mqttstring_ok (cstring_topic (Some t)).
Proof. done. Qed.

(** What a publication leaves as it was, and how long it takes. *)
Record published (s s' : St N X H) : Prop := {
  pub_user : user s' = user s;
  pub_pending : pending (world s') = pending (world s);
  pub_connected : c_isconnected (client s') = c_isconnected (client s);
  pub_buf : buf_ok (client s) → buf_ok (client s');
  pub_buf_size : c_buf_size (client s') = c_buf_size (client s);
  pub_timeout : c_command_timeout_ms (client s') = c_command_timeout_ms (client s);
  pub_interval : c_keepAliveInterval (client s') = c_keepAliveInterval (client s);
  pub_time : now (world s) ≤ now (world s') ≤ now (world s) + 5000;
  pub_alive : alive (world s') }.

Lemma published_at c o s s' :
  at_state c (user s) (pending (world s)) o (now (world s)) (now (world s) + 5000) s' →
  c_isconnected c = c_isconnected (client s) → zlen (c_buf (client s)) ≤ zlen (c_buf c) →
  c_buf_size c = c_buf_size (client s) → c_command_timeout_ms c = c_command_timeout_ms (client s) →
  c_keepAliveInterval c = c_keepAliveInterval (client s) → published s s'.
Proof.
  intros [Hc ? ? ? ? ?] H1 H2 H3 H4 H5. split; rewrite ?Hc; try done. intros [? ?]. unfold buf_ok. rewrite H3. lia.
Qed.

(** Publishing with QoS 0, the payload followed by other bytes in memory. *)
Lemma twp_publish_qos0 (topic payload slack : list Z) (m : MQTTMessage (list Z)) (s : St N X H) :
  let c := client s in
  let t := cstring_topic (Some topic) in
  let body := publish_body 0 (m_id m) t payload in
  let fits := c_isconnected c && (MQTTPacket_len (zlen body) <=? c_buf_size c) in
  alive (world s) → m_qos m = 0 → m_payload m = payload ++ slack → m_payloadlen m = zlen payload →
  zlen body < 268435456 →
  buf_ok c → times_ok c (now (world s)) → (0 < fuel)%nat → 0 ≤ c_keepAliveInterval c →
  now (world s) + 100000 + 1000000 * c_keepAliveInterval c < 2147483646000000 →
  twp (MQTTPublish (Some topic) m) (λ r s',
    r = (if fits then MQTT_SUCCESS else MQTT_FAILURE, m_id m) ∧
    sent (world s') = sent (world s) ++
      (if fits then publish_packet 0 0 (m_retained m) (m_id m) t payload else []) ∧
    published s s') s.
Proof.
  intros c t body fits Ha Hq Hmp Hpl Hn [Hb1 Hb2] [Ht1 Ht2] Hf Hk1 Hk2. subst fits.
  pose proof (at_state_here s Ha) as Hs. fold c in Hs.
  unfold MQTTPublish. eapply twp_bind, twp_cget; [done|].
  destruct (c_isconnected c); cbn [negb andb].
  2: { apply twp_ret. rewrite app_nil_r. do 2 (split; [done|]). eapply (published_at c); [split; solve [done|lia]|done..]. }
  eapply twp_bind, twp_cget; [done|]. eapply twp_bind, twp_countdown_ms; [done|lia|lia|].
  intros tm s1 Hs1 Htm Hdl. rewrite Hq. cbn [Z.eqb QOS1 QOS2 orb]. apply twp_bind, twp_ret.
  fold t. rewrite Hpl, Hmp. apply twp_bind.
  destruct (Z.leb_spec (MQTTPacket_len (zlen body)) (c_buf_size c)) as [Hfit|Hfit].
  - eapply twp_serialize; [done| |].
    { rewrite s32_small by (unfold INT_MIN; lia). rewrite serialize_publish_slack.
      apply serialize_publish_fits; [done|done|done|exact Hfit]. }
    intros s2 Hs2. set (pkt := publish_packet 0 0 (m_retained m) (m_id m) t payload) in *.
    rewrite (proj2 (Z.leb_gt _ _)) by (unfold pkt, publish_packet; cbn [length]; lia).
    apply twp_bind. eapply (twp_sendPacket pkt); [exact Hs2|done|done|done|done|lia|lia|done|
      cbn [c_keepAliveInterval set_buf]; lia|].
    intros t3 s3 _ _ Hs3. cbn [Z.eqb MQTT_SUCCESS negb]. apply twp_bind, twp_ret, twp_ret.
    split; [done|]. split; [apply Hs3|].
    eapply published_at; [destruct Hs3; split; solve [done|lia]|done| |done..]. cbn [c_buf set_ping_timer set_buf].
    rewrite length_app, length_drop. fold c. lia.
  - eapply twp_serialize; [done| |].
    { rewrite s32_small by (unfold INT_MIN; lia). unfold MQTTSerialize_publish.
      rewrite (publishLength_body 0 (m_id m)) by done. fold body.
      by rewrite (proj2 (Z.ltb_lt _ _)). }
    intros s2 Hs2. apply twp_ret. rewrite app_nil_r. split; [done|]. split; [apply Hs2|].
    eapply published_at; [destruct Hs2; split; solve [done|lia]|done..].
Qed.

(** [C10] Publishing with QoS 0 on a responsive network: a client that is not
    connected refuses without any effect; a connected one whose send buffer
    holds the packet returns success and puts exactly the PUBLISH packet on
    the wire, reading nothing; a buffer that is too small is reported as a
    failure and nothing is sent. *)
Theorem MQTTPublish_qos0 (topic : list Z) (m : MQTTMessage (list Z)) (s : St N X H) :
  let c := client s in
  let t := cstring_topic (Some topic) in
  let body := publish_body 0 (m_id m) t (m_payload m) in
  alive (world s) → m_qos m = 0 → m_payloadlen m = zlen (m_payload m) → zlen body < 268435456 →
  buf_ok c → times_ok c (now (world s)) → (0 < fuel)%nat → 0 ≤ c_keepAliveInterval c →
  now (world s) + 100000 + 1000000 * c_keepAliveInterval c < 2147483646000000 →
  ∃ s', MQTTPublish (Some topic) m s =
      Ok ((if c_isconnected c && (MQTTPacket_len (zlen body) <=? c_buf_size c) then MQTT_SUCCESS
           else MQTT_FAILURE, m_id m), s') ∧
    sent (world s') = sent (world s) ++
      (if c_isconnected c && (MQTTPacket_len (zlen body) <=? c_buf_size c)
       then publish_packet 0 0 (m_retained m) (m_id m) t (m_payload m) else []) ∧
    pending (world s') = pending (world s) ∧ user s' = user s.
Proof.
  intros c t body Ha Hq Hpl Hn Hb Ht Hf Hk1 Hk2.
  pose proof (twp_publish_qos0 topic (m_payload m) [] m s Ha Hq ltac:(by rewrite app_nil_r)
    Hpl Hn Hb Ht Hf Hk1 Hk2) as Hr.
  apply twp_run in Hr as (r & s' & E & -> & ? & []). by exists s'.
Qed.

(** ** The connection handshake *)

(** What the reception of a CONNACK leaves as it was. *)
Definition kept c c' : Prop :=
  c_isconnected c' = c_isconnected c ∧ c_buf c' = c_buf c ∧ c_buf_size c' = c_buf_size c ∧
  c_command_timeout_ms c' = c_command_timeout_ms c ∧ c_keepAliveInterval c' = c_keepAliveInterval c.
Lemma kept_trans c c' c'' : kept c c' → kept c' c'' → kept c c''.
Proof. intros (? & ? & ? & ? & ?) (? & ? & ? & ? & ?). split_and!; congruence. Qed.
Lemma kept_received t c : kept c (received t c).
Proof. unfold received. by destruct (0 <? _). Qed.

(** One cycle that receives a CONNACK. *)
Lemma twp_cycle_connack h body timer (Q : Z → St N X H → Prop) c x rest o lo hi s :
  let pkt := h :: remlen_bytes (zlen body) ++ body in
  at_state c x (pkt ++ rest) o lo hi s → is_byte h → header_type h = CONNACK_MSG →
  zlen body < 268435456 → zlen pkt ≤ zlen (c_readbuf c) →
  timer_ok timer → deadline timer - lo < 2147483648000 → 0 ≤ c_keepAliveInterval c →
  hi + 10000 + 1000000 * c_keepAliveInterval c < 2147483646000000 →
  (0 < c_keepAliveInterval c → timer_ok (c_ping_timer c) ∧ hi + 12000 < deadline (c_ping_timer c) ∧
     hi + 12000 < lo + 1000000 * c_keepAliveInterval c) →
  (∀ r c' s', at_state c' x rest o lo (hi + 12000) s' →
     c_connAckReceived c' = true → kept c c' →
     c_readbuf c' = pkt ++ drop (length pkt) (c_readbuf c) → Q r s') →
  twp (cycle timer) Q s.
Proof.
  intros pkt Hs Hh Hty Hn Hfit Hok Hd Hk1 Hk2 Hk3 HQ. unfold cycle. apply twp_bind.
  eapply twp_readPacket; [exact Hs|done..|]. intros tm s1 Htm Hs1. rewrite Hty.
  change (u16 CONNACK_MSG) with 2. unfold cycle_work, cycle_dispatch. cbn [Z.eqb Pos.eqb CONNACK_MSG].
  apply twp_bind. eapply twp_bind, twp_cset; [exact Hs1|]. intros s2 Hs2. apply twp_ret.
  apply twp_bind, twp_bind.
  eapply twp_keepalive_idle; [exact Hs2| |].
  - unfold idle, received. cbn [c_keepAliveInterval set_readbuf].
    destruct (Z.ltb_spec 0 (c_keepAliveInterval c)) as [Hp|Hp];
      cbn [set_connAckReceived c_keepAliveInterval c_ping_timer c_last_received_timer
           set_last_received_timer set_readbuf]; [right|left; lia].
    destruct (Hk3 Hp) as (? & ? & ?), (Htm Hp). split_and!; try done; lia.
  - intros r s3 Hs3. apply twp_ret, twp_ret. eapply HQ.
    + replace (hi + 12000) with (hi + 10000 + 2000) by lia. exact Hs3.
    + done.
    + unfold received. by destruct (0 <? _).
    + unfold received. by destruct (0 <? _).
Qed.

Lemma twp_waitfor_connack h body timer (Q : Z → St N X H → Prop) c x rest o lo hi s :
  let pkt := h :: remlen_bytes (zlen body) ++ body in
  at_state c x (pkt ++ rest) o lo hi s → is_byte h → header_type h = CONNACK_MSG →
  zlen body < 268435456 → zlen pkt ≤ zlen (c_readbuf c) → (0 < fuel)%nat →
  timer_ok timer → hi + 1000 < deadline timer → deadline timer - lo < 2147483648000 →
  0 ≤ c_keepAliveInterval c → hi + 11000 + 1000000 * c_keepAliveInterval c < 2147483646000000 →
  (0 < c_keepAliveInterval c → timer_ok (c_ping_timer c) ∧ hi + 13000 < deadline (c_ping_timer c) ∧
     hi + 13000 < lo + 1000000 * c_keepAliveInterval c) →
  (∀ c' s', at_state c' x rest o lo (hi + 13000) s' → kept c c' →
     c_readbuf c' = pkt ++ drop (length pkt) (c_readbuf c) → Q CONNACK_MSG s') →
  twp (waitfor CONNACK_MSG timer) Q s.
Proof.
  intros pkt Hs Hh Hty Hn Hfit Hf Hok Hd1 Hd2 Hk1 Hk2 Hk3 HQ. unfold waitfor.
  change (ack_flag CONNACK_MSG) with
    (Some (c_connAckReceived (H := H), set_connAckReceived (H := H))).
  eapply twp_bind, twp_cset; [exact Hs|]. intros s1 Hs1.
  destruct fuel as [|k]; [lia|]. cbn [waitfor_loop].
  change (ack_flag CONNACK_MSG) with
    (Some (c_connAckReceived (H := H), set_connAckReceived (H := H))). cbv iota beta.
  eapply twp_bind, twp_cget; [exact Hs1|]. cbn [c_connAckReceived set_connAckReceived].
  eapply twp_bind, twp_poll; [exact Hs1|done|done|]. intros s2 Hs2. cbv iota.
  apply twp_bind. eapply (twp_cycle_connack h body); [exact Hs2|done|done|done|exact Hfit|done|done|done| | |].
  { cbn [c_keepAliveInterval set_connAckReceived]. lia. }
  { cbn [c_keepAliveInterval set_connAckReceived c_ping_timer]. intros Hp.
    destruct (Hk3 Hp) as (? & ? & ?). split_and!; [done|lia|lia]. }
  intros r c' s3 Hs3 Hack Hcon Hrb.
  assert (Hend : twp (cset (set_connAckReceived false) ;; mret CONNACK_MSG) Q s3).
  { eapply twp_bind, twp_cset; [exact Hs3|]. intros s4 Hs4. apply twp_ret, (HQ (set_connAckReceived false c')).
    - by replace (hi + 13000) with (hi + 1000 + 12000) by lia.
    - done.
    - done. }
  destruct k as [|k]; cbn [waitfor_loop];
    change (ack_flag CONNACK_MSG) with
      (Some (c_connAckReceived (H := H), set_connAckReceived (H := H))); cbv iota beta;
    (eapply twp_bind, twp_cget; [exact Hs3|]); rewrite Hack; exact Hend.
Qed.

(** The second half of [MQTTConnect]. *)
Lemma twp_connect_await h fl code timer (Q : Z → St N X H → Prop) c x rest o lo hi s :
  at_state c x ([h; 2; fl; code] ++ rest) o lo hi s → 4 ≤ zlen (c_readbuf c) → is_byte h →
  header_type h = CONNACK_MSG → (0 < fuel)%nat →
  timer_ok timer → hi + 2000 < deadline timer → deadline timer - lo < 2147483648000 →
  0 ≤ c_keepAliveInterval c → hi + 12000 + 1000000 * c_keepAliveInterval c < 2147483646000000 →
  (0 < c_keepAliveInterval c → timer_ok (c_ping_timer c) ∧ hi + 14000 < deadline (c_ping_timer c) ∧
     hi + 14000 < lo + 1000000 * c_keepAliveInterval c) →
  (∀ c' s', at_state c' x rest o lo (hi + 14000) s' → kept c c' → Q code s') →
  twp (connect_await timer) Q s.
Proof.
  intros Hs Hrb Hh Hty Hf Hok Hd1 Hd2 Hk1 Hk2 Hk3 HQ. unfold connect_await.
  eapply twp_bind, twp_cget; [exact Hs|]. apply twp_bind.
  eapply (twp_mono _ (λ _ s', ∃ t, at_state (received t c) x ([h; 2; fl; code] ++ rest) o lo (hi + 1000) s')).
  { unfold received. destruct (Z.ltb_spec 0 (c_keepAliveInterval c)).
    - eapply twp_bind, twp_countdown; [exact Hs|done|lia|]. intros t s1 Hs1 _ _.
      eapply twp_cset; [exact Hs1|]. intros s2 Hs2. by exists t.
    - apply twp_ret. exists TimerInit. destruct Hs. split; solve [done|lia]. }
  intros _ s1 [t Hs1].
  assert (E : c_keepAliveInterval (received t c) = c_keepAliveInterval c ∧
    c_ping_timer (received t c) = c_ping_timer c ∧ c_readbuf (received t c) = c_readbuf c ∧
    kept c (received t c)) by (unfold kept, received; by destruct (0 <? _)).
  destruct E as (E1 & E2 & E3 & E4). apply twp_bind.
  eapply (twp_waitfor_connack h [fl; code]); [exact Hs1|done|done|done|rewrite E3; exact Hrb|done|
    done|lia|lia|by rewrite E1|rewrite E1; lia| |].
  { rewrite E1, E2. intros Hp. destruct (Hk3 Hp) as (? & ? & ?). split_and!; [done|lia|lia]. }
  intros c' s2 Hs2 Hc' Hb'. rewrite Z.eqb_refl. eapply twp_bind, twp_cget; [exact Hs2|].
  eapply twp_bind, twp_lift; [rewrite Hb'; by apply deserialize_connack_body|].
  apply twp_ret. cbn [Z.eqb Pos.eqb]. eapply HQ; [|by eapply kept_trans].
  by replace (hi + 14000) with (hi + 1000 + 13000) by lia.
Qed.

(** The handshake: the CONNECT packet goes out, the CONNACK is consumed, and
    publications can follow. *)
Record handshaken (opts : MQTTPacket_connectData) (code : Z) rest (s s' : St N X H) : Prop := {
  hs_connected : c_isconnected (client s') = (code =? MQTT_SUCCESS);
  hs_sent : sent (world s') = sent (world s) ++ connect_packet opts;
  hs_pending : pending (world s') = rest;
  hs_user : user s' = user s;
  hs_buf : buf_ok (client s');
  hs_buf_size : c_buf_size (client s') = c_buf_size (client s);
  hs_timeout : c_command_timeout_ms (client s') = c_command_timeout_ms (client s);
  hs_interval : c_keepAliveInterval (client s') = keepAliveInterval opts;
  hs_time : now (world s) ≤ now (world s') ≤ now (world s) + 20000;
  hs_alive : alive (world s') }.

Lemma twp_handshake (opts : MQTTPacket_connectData) (h fl code : Z) (rest : list Z) (s : St N X H) :
  let c := client s in
  c_isconnected c = false → connect_ok opts → zlen (connect_body opts) < 268435456 →
  MQTTPacket_len (zlen (connect_body opts)) ≤ c_buf_size c → buf_ok c →
  4 ≤ zlen (c_readbuf c) → times_ok c (now (world s)) → (0 < fuel)%nat →
  0 ≤ keepAliveInterval opts < 65536 → now (world s) < 2000000000000000 →
  alive (world s) → pending (world s) = [h; 2; fl; code] ++ rest → is_byte h → header_type h = CONNACK_MSG →
  twp (MQTTConnect (Some opts)) (λ r s', r = code ∧ handshaken opts code rest s s') s.
Proof.
  intros c Hcon Hok Hn Hfit [Hb1 Hb2] Hrb [Ht1 Ht2] Hf Hka Hnow Ha Hp Hh Hty.
  pose proof (at_state_here s Ha) as Hs. fold c in Hs. rewrite Hp in Hs.
  unfold MQTTConnect. eapply twp_bind, twp_cget; [done|]. rewrite Hcon. apply twp_bind.
  eapply twp_bind, twp_cget; [done|]. eapply twp_bind, twp_countdown_ms; [done|lia|lia|].
  intros tm s1 Hs1 Htm Hdl. cbn [from_option id].
  eapply twp_bind, twp_cset; [exact Hs1|]. intros s2 Hs2.
  eapply twp_bind, twp_countdown; [exact Hs2|lia|lia|]. intros t3 s3 Hs3 _ _.
  eapply twp_bind, twp_cset; [exact Hs3|]. intros s4 Hs4. apply twp_bind.
  eapply twp_serialize; [exact Hs4| |].
  { cbn [c_buf c_buf_size set_ping_timer set_keepAliveInterval].
    rewrite s32_small by (unfold INT_MIN; lia). by apply serialize_connect_fits. }
  intros s5 Hs5. set (pkt := connect_packet opts) in *.
  rewrite (proj2 (Z.leb_gt _ _)) by (unfold pkt, connect_packet; cbn [app length]; lia).
  apply twp_bind. eapply (twp_sendPacket pkt); [exact Hs5|done|done|done|done|lia|lia| | |];
    cbn [c_keepAliveInterval set_buf set_ping_timer set_keepAliveInterval]; [lia|lia|].
  intros t6 s6 Hok6 Hd6 Hs6. cbn [Z.eqb MQTT_SUCCESS negb].
  eapply (twp_connect_await h fl code); [exact Hs6|exact Hrb|done|done|done|done|lia|lia| | | |];
    cbn [c_keepAliveInterval c_ping_timer set_buf set_ping_timer set_keepAliveInterval]; [lia|lia| |].
  - intros Hp0. split_and!; [done|lia|lia].
  - intros c' s' Hs' (Hk1 & Hk2 & Hk3 & Hk4 & Hk5).
    cbn [c_isconnected c_buf c_buf_size c_command_timeout_ms c_keepAliveInterval set_buf set_ping_timer
      set_keepAliveInterval] in *.
    assert (Hbuf : buf_ok c').
    { unfold buf_ok. rewrite Hk2, Hk3, length_app, length_drop. fold c. unfold pkt, connect_packet in *. lia. }
    assert (Hend : ∀ r s9, r = code → at_state (set_isconnected (code =? MQTT_SUCCESS) c') (user s) rest
      (sent (world s) ++ pkt) (now (world s)) (now (world s) + 20000) s9 → r = code ∧ handshaken opts code rest s s9).
    { intros r s9 -> [E ? ? ? ? ?]. split; [done|]. split; rewrite ?E; try done. }
    destruct (Z.eqb_spec code MQTT_SUCCESS) as [->|Hcode].
    + apply twp_bind. eapply twp_cset; [exact Hs'|]. intros s9 Hs9. apply twp_ret, Hend; [done|].
      destruct Hs9. split; solve [done|lia].
    + apply twp_bind, twp_ret, twp_ret, Hend; [done|]. destruct Hs'. split; try solve [done|lia].
      rewrite at_client0, <- Hcon, <- Hk1. by destruct c'.
Qed.

(** [C9] The connection handshake on a responsive network: a client that is
    not connected sends exactly the CONNECT packet of its options; when the
    peer answers with a CONNACK, the result is the return code the CONNACK
    carries, exactly the CONNACK is consumed, and the client counts as
    connected if and only if the code is 0. *)
Theorem MQTTConnect_handshake (opts : MQTTPacket_connectData) (h fl code : Z) (rest : list Z)
    (s : St N X H) :
  let c := client s in
  c_isconnected c = false → connect_ok opts → zlen (connect_body opts) < 268435456 →
  MQTTPacket_len (zlen (connect_body opts)) ≤ c_buf_size c → buf_ok c →
  4 ≤ zlen (c_readbuf c) → times_ok c (now (world s)) → (0 < fuel)%nat →
  0 ≤ keepAliveInterval opts < 65536 → now (world s) < 2000000000000000 →
  alive (world s) → pending (world s) = [h; 2; fl; code] ++ rest → is_byte h → header_type h = CONNACK_MSG →
  ∃ s', MQTTConnect (Some opts) s = Ok (code, s') ∧
    c_isconnected (client s') = (code =? MQTT_SUCCESS) ∧
    sent (world s') = sent (world s) ++ connect_packet opts ∧
    pending (world s') = rest ∧ user s' = user s.
Proof.
  intros c ? ? ? ? ? ? ? ? ? ? ? Hp ? ?.
  pose proof (twp_handshake opts h fl code rest s) as Ht. cbv zeta in Ht.
  destruct (twp_run _ _ _ (Ht ltac:(done) ltac:(done) ltac:(done) ltac:(done) ltac:(done) ltac:(done) ltac:(done) ltac:(done)
    ltac:(done) ltac:(done) ltac:(done) Hp ltac:(done) ltac:(done))) as (r & s' & E & -> & []). by exists s'.
Qed.
End Runs.

(** ** A network that is not so responsive *)

Section Failures.
Context {N X H : Type} `{!Clock N, !NetOps N, !Fuel, !Callbacks N X H}.

(** One round of the send loop before the timer expires. *)
Lemma send_round k length timer sent (s : St N X H) w1 w2 left :
  sent < length → TimerIsExpired timer (world s) = Ok (false, w1) →
  TimerLeftMS timer w1 = Ok (left, w2) →
  send_loop (S k) length timer sent s =
  (d ← load_bytes (c_buf (client s)) sent length;
   '(rc, w3) ← mqttwrite d left w2;
   let s3 := MkSt (client s) w3 (user s) in
   if rc <? 0 then Ok (sent, s3) else send_loop k length timer (sent + rc) s3).
Proof.
  intros Hl E1 E2. cbn [send_loop]. rewrite (proj2 (Z.ltb_lt sent length)) by done.
  unfold mbind, M_bind, onWorld, cget, gets, lift, outcome_bind. rewrite E1. cbn [world].
  rewrite E2. cbn [client world user].
  destruct (load_bytes _ _ _) as [d|]; [|done]. cbn [client world user].
  destruct (mqttwrite d left w2) as [[rc w3]|]; [|done]. by destruct (rc <? 0).
Qed.

(** A partial write breaks the packet: when the network takes only the
    first [k] bytes of a packet, [sendPacket] offers it [length] more bytes
    from offset [k] instead of the [length - k] that are missing.  If these run
    past the end of the send buffer, memory outside it is read; otherwise a
    network that takes them all has been sent bytes that are not part of the
    packet and the call fails. *)
Theorem sendPacket_partial_write (length k left1 left2 : Z) (timer : Timer) (s : St N X H)
    (w1 w2 w3 w4 w5 w6 : N) :
  0 < k < length → length ≤ zlen (c_buf (client s)) → (2 ≤ fuel)%nat →
  TimerIsExpired timer (world s) = Ok (false, w1) → TimerLeftMS timer w1 = Ok (left1, w2) →
  mqttwrite (take (Z.to_nat length) (c_buf (client s))) left1 w2 = Ok (k, w3) →
  TimerIsExpired timer w3 = Ok (false, w4) → TimerLeftMS timer w4 = Ok (left2, w5) →
  (k + length ≤ zlen (c_buf (client s)) →
   mqttwrite (take (Z.to_nat length) (drop (Z.to_nat k) (c_buf (client s)))) left2 w5 =
     Ok (length, w6)) →
  sendPacket length timer s =
  if zlen (c_buf (client s)) <? k + length then Fault OobRead
  else Ok (MQTT_FAILURE, MkSt (client s) w6 (user s)).
Proof.
  intros Hk Hl Hf E1 E2 E3 E4 E5 E6. unfold sendPacket, mbind, M_bind.
  destruct fuel as [|[|n]]; [lia|lia|].
  rewrite (send_round _ _ _ _ s w1 w2 left1); [|lia|done..].
  replace (load_bytes (c_buf (client s)) 0 length)
    with (Ok (take (Z.to_nat length) (c_buf (client s))))
    by (unfold load_bytes; rewrite decide_True by lia; by rewrite drop_0).
  cbn [mbind outcome_bind]. rewrite E3. cbn [mbind outcome_bind].
  rewrite (proj2 (Z.ltb_ge k 0)), Z.add_0_l by lia.
  rewrite (send_round _ _ _ _ _ w4 w5 left2); [|lia|done..]. cbn [client user].
  unfold load_bytes. destruct (Z.ltb_spec (zlen (c_buf (client s))) (k + length)).
  - by rewrite decide_False by lia.
  - rewrite decide_True by lia. cbn [mbind outcome_bind].
    rewrite E6 by lia. cbn [mbind outcome_bind].
    rewrite (proj2 (Z.ltb_ge length 0)) by lia.
    destruct n; cbn [send_loop]; rewrite (proj2 (Z.ltb_ge (k + length) length)) by lia;
      unfold mret, M_ret; by rewrite (proj2 (Z.eqb_neq (k + length) length)) by lia.
Qed.

(** Nothing is ever received. *)
Definition deaf : Prop := ∀ t (w : N) r d w', mqttread 1 t w = Ok ((r, d), w') → r ≠ 1.

Lemma readPacket_deaf timer (s : St N X H) r s' : deaf → readPacket timer s = Ok (r, s') → r = MQTT_FAILURE.
Proof.
  intros Hd. unfold readPacket, mbind, M_bind. destruct (onWorld _ s) as [[ms s1]|]; [|done].
  unfold read_into, mbind, M_bind, onWorld.
  destruct (mqttread 1 ms (world s1)) as [[[rc d] w]|] eqn:E; [|done].
  apply Hd in E. unfold cget, gets, lift, cset, modify, mret, M_ret.
  destruct (store_bytes _ _ _); [|done]. rewrite (proj2 (Z.eqb_neq rc 1)) by done.
  cbn [negb]. by intros [= <- _].
Qed.

Lemma cycle_deaf timer (s : St N X H) r s' : deaf → cycle timer s = Ok (r, s') → r = 65535.
Proof.
  intros Hd. unfold cycle, mbind, M_bind. destruct (readPacket timer s) as [[p s1]|] eqn:E; [|done].
  apply readPacket_deaf in E as ->; [|done]. change (u16 MQTT_FAILURE) with 65535.
  unfold cycle_work, cycle_dispatch, mbind, M_bind. cbn [Z.eqb Pos.eqb CONNACK_MSG PUBACK_MSG
    SUBACK_MSG UNSUBACK_MSG PUBLISH_MSG PUBREC_MSG PUBCOMP_MSG PINGRESP_MSG].
  unfold mret, M_ret. destruct (keepalive s1) as [[a s2]|]; [|done]. by intros [= <- _].
Qed.

(** A lost connection is not reported: on a network from which no byte
    ever arrives, whether it is silent or every read fails, each [MQTTYield]
    that returns reports success, because [cycle] keeps the -1 of a failed
    read in an [unsigned short]. *)
Theorem MQTTYield_deaf (timeout_ms rc : Z) (s s' : St N X H) :
  deaf → MQTTYield timeout_ms s = Ok (rc, s') → rc = MQTT_SUCCESS.
Proof.
  intros Hd. unfold MQTTYield, mbind, M_bind. destruct (onWorld _ s) as [[t s1]|]; [|done].
  generalize (fuel : nat). intros k. revert s1. induction k as [|k IH]; intros s1; cbn [yield_loop]; [done|].
  unfold mbind, M_bind. destruct (cycle t s1) as [[r s2]|] eqn:E; [|done].
  apply cycle_deaf in E as ->; [|done]. change (65535 =? MQTT_FAILURE) with false. cbv iota.
  cbv beta. destruct (onWorld (TimerIsExpired t) s2) as [[[] s3]|]; [|apply IH|done].
  by intros [= <- _].
Qed.
End Failures.

(** ** Runs in a concrete world *)

#[export] Program Instance sim_responsive : ResponsiveNet sim := {|
  pending := sim_in; sent := sim_out; alive _ := True |}.
Next Obligation.
  intros n t w _ Hn. unfold twp. cbn. rewrite (proj2 (Z.leb_le _ _)) by lia. cbn.
  split_and!; [done|done|done|lia|lia|done].
Qed.
Next Obligation. intros d t w _. unfold twp. cbn. split_and!; [done|done|done|lia|lia|done]. Qed.
Next Obligation. intros w. cbn. split_and!; [done|done|lia|done]. Qed.

Definition second_timer : Timer := {| end_time := {| tv_sec := 1; tv_usec := 0 |} |}.

Lemma second_timer_ok : timer_ok second_timer.
Proof. by split; [split|]. Qed.

(** A PUBACK fits into 16 bytes, a message of 20 bytes does not. *)
Lemma readPacket_frame_witness :
  (∃ s', readPacket second_timer (sim_state 16 60 true ([64; 2; 0; 7] ++ [])) = Ok (4, s') ∧
    c_readbuf (client s') = [64; 2; 0; 7] ++ drop 4 (replicate 16 0) ∧
    pending (world s') = [] ∧ sent (world s') = [] ∧ user s' = []) ∧
  readPacket second_timer (sim_state 16 60 true ((48 :: remlen_bytes 20 ++ replicate 20 1) ++ [])) =
    Fault OobWrite.
Proof.
  split.
  - exact (readPacket_frame second_timer 64 [0; 7] [] (sim_state 16 60 true ([64; 2; 0; 7] ++ []))
      I eq_refl ltac:(done) ltac:(done) ltac:(done) second_timer_ok ltac:(done) ltac:(done) ltac:(done)).
  - exact (readPacket_frame second_timer 48 (replicate 20 1) []
      (sim_state 16 60 true ((48 :: remlen_bytes 20 ++ replicate 20 1) ++ []))
      I eq_refl ltac:(done) ltac:(done) ltac:(done) second_timer_ok ltac:(done) ltac:(done) ltac:(done)).
Defined.

Lemma MQTTPublish_qos0_witness :
  let s := sim_state 32 60 true [] in
  ∃ s', @MQTTPublish sim (list Z) () _ _ 1%nat _ (Some (bytes "t/1"))
      (Build_MQTTMessage 0 1 0 0 (bytes "c=21") 4) s = Ok ((0, 0), s') ∧
    sent (world s') = [49; 9; 0; 3] ++ bytes "t/1" ++ bytes "c=21" ∧
    pending (world s') = [] ∧ user s' = [].
Proof.
  intros s. pose proof (@MQTTPublish_qos0 sim (list Z) () _ _ _ _ 1%nat _ (bytes "t/1")
    (Build_MQTTMessage 0 1 0 0 (bytes "c=21") 4) s) as Hr.
  conclude_with Hr ltac:(first [done | vm_compute; intuition discriminate | unfold fuel; lia]).
Defined.

Lemma MQTTConnect_handshake_witness :
  let s := sim_state 64 60 false [32; 2; 0; 5; 99] in
  ∃ s', @MQTTConnect sim (list Z) () _ _ 1%nat _ (Some example_options) s = Ok (5, s') ∧
    c_isconnected (client s') = false ∧ sent (world s') = [] ++ connect_packet example_options ∧
    pending (world s') = [99] ∧ user s' = [].
Proof.
  intros s. pose proof (@MQTTConnect_handshake sim (list Z) () _ _ _ _ 1%nat _ example_options
    32 0 5 [99] s) as Hr.
  conclude_with Hr ltac:(first [done | decide_vm | vm_compute; intuition discriminate | unfold fuel; lia]).
Defined.

(** A packet of eight bytes, of which three are taken at first, in a buffer of
    ten bytes and in one of twelve. *)
Lemma sendPacket_partial_write_witness :
  @sendPacket sim (list Z) () _ choppy_net 2%nat 8 second_timer (sim_state 10 60 true []) =
    Fault OobRead ∧
  @sendPacket sim (list Z) () _ choppy_net 2%nat 8 second_timer (sim_state 12 60 true []) =
    Ok (MQTT_FAILURE, MkSt (sim_client 12 60 true)
      {| sim_time := 4; sim_in := []; sim_out := replicate 11 0 |} []).
Proof.
  split.
  - pose proof (@sendPacket_partial_write sim (list Z) () _ choppy_net 2%nat 8 3 999 999 second_timer
      (sim_state 10 60 true [])
      {| sim_time := 1; sim_in := []; sim_out := [] |} {| sim_time := 2; sim_in := []; sim_out := [] |}
      {| sim_time := 2; sim_in := []; sim_out := [0; 0; 0] |}
      {| sim_time := 3; sim_in := []; sim_out := [0; 0; 0] |}
      {| sim_time := 4; sim_in := []; sim_out := [0; 0; 0] |}
      {| sim_time := 4; sim_in := []; sim_out := [0; 0; 0] |}) as Hr.
    conclude_with Hr ltac:(first [done | vm_compute; intuition discriminate | unfold fuel; lia]).
  - pose proof (@sendPacket_partial_write sim (list Z) () _ choppy_net 2%nat 8 3 999 999 second_timer
      (sim_state 12 60 true [])
      {| sim_time := 1; sim_in := []; sim_out := [] |} {| sim_time := 2; sim_in := []; sim_out := [] |}
      {| sim_time := 2; sim_in := []; sim_out := [0; 0; 0] |}
      {| sim_time := 3; sim_in := []; sim_out := [0; 0; 0] |}
      {| sim_time := 4; sim_in := []; sim_out := [0; 0; 0] |}
      {| sim_time := 4; sim_in := []; sim_out := replicate 11 0 |}) as Hr.
    conclude_with Hr ltac:(first [done | vm_compute; intuition discriminate | unfold fuel; lia]).
Defined.

(** A silent network on which a yield of two milliseconds returns. *)
Definition mute_net : NetOps sim := {|
  mqttread n t := λ w, Ok ((-1, []), {| sim_time := sim_time w + 1000; sim_in := []; sim_out := [] |});
  mqttwrite d t := λ w, Ok (-1, w) |}.

Lemma MQTTYield_deaf_witness :
  @deaf sim mute_net ∧
  match @MQTTYield sim (list Z) () _ mute_net 9%nat sim_callbacks 2 (sim_state 16 0 true []) with
  | Ok (rc, _) => rc = MQTT_SUCCESS
  | Fault _ => False
  end.
Proof.
  assert (Hd : @deaf sim mute_net) by (by intros t w r d w' [= <- _ _]). split; [exact Hd|].
  destruct (@MQTTYield sim (list Z) () _ mute_net 9%nat sim_callbacks 2 (sim_state 16 0 true []))
    as [[rc s']|f] eqn:E.
  - exact (@MQTTYield_deaf sim (list Z) () _ mute_net 9%nat sim_callbacks 2 rc _ s' Hd E).
  - revert E. vm_compute. discriminate.
Defined.
