(* ===== verification/CayenneUtils.v ===== *)
(** * CayenneUtils.c: topics and payloads of the Cayenne protocol

    Models [src/main/src/CayenneUtils/CayenneUtils.c] in the configuration of
    CayenneDefines.h: neither [DIGITAL_AND_ANALOG_SUPPORT] nor
    [PARSE_INFO_PAYLOADS] is defined.  A buffer is the list of its bytes;
    strings that are only read are lists without terminator; a pointer into the
    topic or payload that is parsed in place is an offset. *)

From S2P Require Import Prelude CString TopicFilter.

Definition CAYENNE_BUFFER_OVERFLOW : Z := -2.
Definition CAYENNE_FAILURE : Z := -1.
Definition CAYENNE_SUCCESS : Z := 0.

Definition CAYENNE_VERSION : list Z := bytes "v1".
Definition THINGS_STRING : list Z := bytes "/things/".
Definition CAYENNE_MAX_MESSAGE_SIZE : Z := 134.
Definition CAYENNE_ALL_CHANNELS : Z := 65535.
Definition CAYENNE_NO_CHANNEL : Z := 65534.
Definition UNIT_UNDEFINED : list Z := bytes "null".
Definition PARSE_TOPICS_COUNT : Z := 2.

Definition COMMA : Z := 44.

Inductive CayenneTopic :=
| UNDEFINED_TOPIC | DATA_TOPIC | COMMAND_TOPIC | CONFIG_TOPIC | RESPONSE_TOPIC
| SYS_MODEL_TOPIC | SYS_VERSION_TOPIC | SYS_CPU_MODEL_TOPIC | SYS_CPU_SPEED_TOPIC.

#[export] Instance CayenneTopic_eq_dec : EqDecision CayenneTopic.
Proof. solve_decision. Defined.

(** ** Building topics *)

(** The arguments are pointers, [None] for NULL; the result code and the buffer
    behind [topic]. *)
Definition buildTopic (topic : option (list Z)) (length : Z) (username clientID suffix : option (list Z)) :
    outcome (Z * option (list Z)) :=
  match topic, username, clientID, suffix with
  | Some t, Some u, Some c, Some s =>
      let topicLength := zlen u + zlen c + zlen s + 11 in
      if length <? topicLength then Ok (CAYENNE_BUFFER_OVERFLOW, topic) else
      t ← store t 0 0;
      t ← strcat t CAYENNE_VERSION;
      t ← strcat t (bytes "/");
      t ← strcat t u;
      t ← strcat t THINGS_STRING;
      t ← strcat t c;
      t ← strcat t (bytes "/");
      t ← strcat t s;
      Ok (CAYENNE_SUCCESS, Some t)
  | _, _, _, _ => Ok (CAYENNE_FAILURE, topic)
  end.

Definition topic_string (topic : CayenneTopic) : option (list Z) :=
  match topic with
  | COMMAND_TOPIC => Some (bytes "cmd")
  | CONFIG_TOPIC => Some (bytes "conf")
  | DATA_TOPIC => Some (bytes "data")
  | RESPONSE_TOPIC => Some (bytes "response")
  | SYS_MODEL_TOPIC => Some (bytes "sys/model")
  | SYS_VERSION_TOPIC => Some (bytes "sys/version")
  | SYS_CPU_MODEL_TOPIC => Some (bytes "sys/cpu/model")
  | SYS_CPU_SPEED_TOPIC => Some (bytes "sys/cpu/speed")
  | UNDEFINED_TOPIC => None
  end.

(** [suffix] is the caller's buffer, never NULL in this file. *)
Definition buildSuffix (suffix : list Z) (length : Z) (topic : CayenneTopic) (channel : Z) :
    outcome (Z * list Z) :=
  match topic_string topic with
  | None => Ok (CAYENNE_FAILURE, suffix)
  | Some topicString =>
      if length <=? zlen topicString then Ok (CAYENNE_BUFFER_OVERFLOW, suffix) else
      s ← store suffix 0 0;
      s ← strcat s topicString;
      if negb (channel =? CAYENNE_NO_CHANNEL) then
        s ← strcat s (bytes "/");
        if channel =? CAYENNE_ALL_CHANNELS then
          s ← strcat s (bytes "+");
          Ok (CAYENNE_SUCCESS, s)
        else
          str ← cstr s;
          s ← snprintf_u s (zlen str) (u32 (length - zlen str)) channel;
          Ok (CAYENNE_SUCCESS, s)
      else Ok (CAYENNE_SUCCESS, s)
  end.

Definition CayenneBuildTopic (topicName : option (list Z)) (length : Z)
    (username clientID : option (list Z)) (topic : CayenneTopic) (channel : Z) :
    outcome (Z * option (list Z)) :=
  '(result, channelSuffix) ← buildSuffix (replicate 20 0) 20 topic channel;
  if negb (result =? CAYENNE_SUCCESS) then Ok (result, topicName) else
  suffix ← cstr channelSuffix;
  buildTopic topicName length username clientID (Some suffix).

(** ** Payloads *)

(** A unit/value pair that is sent. *)
Record CayenneValuePair := { unit : option (list Z); value : option (list Z) }.

(** A unit/value pair that was parsed: offsets in the payload. *)
Record ParsedPair := { p_unit : option Z; p_value : option Z }.

(** Number of values, or failure: the scan of [getValueCount]. *)
Fixpoint count_loop (payload : list Z) (token unitCount valueCount : Z) (counting : bool) :
    outcome (Z * Z * bool) :=
  match payload with
  | [] => Fault OobRead
  | c :: payload =>
      if c =? 0 then Ok (unitCount, valueCount, counting)
      else if c =? COMMA then
        if counting then count_loop payload token unitCount (valueCount + 1) counting
        else count_loop payload token (unitCount + 1) valueCount counting
      else if c =? token then count_loop payload token unitCount (valueCount + 1) true
      else count_loop payload token unitCount valueCount counting
  end.

(** Result code and [*count]. *)
Definition getValueCount (payload : list Z) (token : Z) : outcome (Z * Z) :=
  if token =? 0 then Ok (CAYENNE_SUCCESS, 1) else
  '(unitCount, valueCount, counting) ← count_loop payload token 0 0 false;
  if counting : bool then
    if negb (valueCount =? unitCount) && negb ((unitCount =? 0) && (valueCount =? 1))
    then Ok (CAYENNE_FAILURE, 0) else Ok (CAYENNE_SUCCESS, valueCount)
  else Ok (CAYENNE_SUCCESS, 1).

(** The state of [parsePayload]: the payload, the array, [*type]. *)
Record parse_state := {
  ps_payload : list Z; ps_values : list ParsedPair; ps_type : option Z }.

Definition set_value (l : list ParsedPair) (i v : Z) : outcome (list ParsedPair) :=
  p ← index l i; Ok (<[Z.to_nat i := {| p_unit := p_unit p; p_value := Some v |}]> l).
Definition set_unit (l : list ParsedPair) (i v : Z) : outcome (list ParsedPair) :=
  p ← index l i; Ok (<[Z.to_nat i := {| p_unit := Some v; p_value := p_value p |}]> l).

(** The [while] loop of [parsePayload]; it moves through the payload byte by
    byte, so the payload's length is enough fuel. *)
Fixpoint parse_loop (fuel : nat) (valuesSize count token index valueIndex : Z) (parsing : bool)
    (st : parse_state) : outcome parse_state :=
  match fuel with
  | O => Fault OutOfFuel
  | S fuel =>
      c ← load (ps_payload st) index;
      if c =? 0 then Ok st else
      if c =? COMMA then
        vs ← (if valueIndex <? valuesSize then
                if parsing then set_value (ps_values st) valueIndex (index + 1)
                else set_unit (ps_values st) valueIndex (index + 1)
              else Ok (ps_values st));
        pl ← store (ps_payload st) index 0;
        let st := {| ps_payload := pl; ps_values := vs; ps_type := Some 0 |} in
        if token =? 0 then Ok st
        else parse_loop fuel valuesSize count token (index + 1) (valueIndex + 1) parsing st
      else if (c =? token) && negb parsing then
        vs ← set_value (ps_values st) 0 (index + 1);
        pl ← store (ps_payload st) index 0;
        let st := {| ps_payload := pl; ps_values := vs; ps_type := Some 0 |} in
        if count =? 1 then Ok st
        else parse_loop fuel valuesSize count token (index + 1) 1 true st
      else parse_loop fuel valuesSize count token (index + 1) valueIndex parsing st
  end.

(** [valuesSize] is the value behind the pointer; it becomes [count]. *)
Definition parsePayload (values : list ParsedPair) (valuesSize : Z) (payload : list Z) (token : Z) :
    outcome (Z * Z * parse_state) :=
  let count := 1 in
  p0 ← index values 0;
  let vs := <[0%nat := {| p_unit := None; p_value := None |}]> values in
  st ← parse_loop (S (length payload)) valuesSize count token 0 0 (token =? 0)
         {| ps_payload := payload; ps_values := vs; ps_type := None |};
  Ok (CAYENNE_SUCCESS, count, st).

(** ** Building payloads *)

Definition opt_len (s : option (list Z)) : Z := match s with Some l => zlen l + 1 | None => 0 end.

Fixpoint payload_length (type : option (list Z)) (values : list CayenneValuePair) (acc : Z) : Z :=
  match values with
  | [] => acc + opt_len type
  | v :: values =>
      let acc := match unit v with
                 | Some u => acc + (zlen u + 1)
                 | None => match type with Some _ => acc + (zlen UNIT_UNDEFINED + 1) | None => acc end
                 end in
      payload_length type values (acc + opt_len (value v))
  end.

(** The loop that appends the units. *)
Fixpoint append_units (type : option (list Z)) (values : list CayenneValuePair) (payload : list Z) :
    outcome (list Z) :=
  match values with
  | [] => Ok payload
  | v :: values =>
      c ← load payload 0;
      payload ← (if negb (c =? 0) then strcat payload (bytes ",") else Ok payload);
      payload ← match unit v with
                | Some u => strcat payload u
                | None => match type with Some _ => strcat payload UNIT_UNDEFINED | None => Ok payload end
                end;
      append_units type values payload
  end.

(** The loop that appends the values, up to the first one that is NULL. *)
Fixpoint append_values (values : list CayenneValuePair) (payload : list Z) : outcome (list Z) :=
  match values with
  | [] => Ok payload
  | v :: values =>
      match value v with
      | None => Ok payload
      | Some s =>
          payload ← strcat payload s;
          payload ← (match values with [] => Ok payload | _ => strcat payload (bytes ",") end);
          append_values values payload
      end
  end.

(** The array has [valueCount] elements.  Result code, [*length] and payload. *)
Definition CayenneBuildDataPayload (payload : list Z) (length : Z) (type : option (list Z))
    (values : list CayenneValuePair) : outcome (Z * Z * list Z) :=
  let payloadLength := payload_length type values 0 in
  if length <? payloadLength then Ok (CAYENNE_BUFFER_OVERFLOW, length, payload) else
  payload ← store payload 0 0;
  payload ← match type with Some t => strcat payload t | None => Ok payload end;
  payload ← append_units type values payload;
  c ← load payload 0;
  payload ← match values with
            | v :: _ => match value v with
                        | Some _ => if negb (c =? 0) then strcat payload (bytes "=") else Ok payload
                        | None => Ok payload
                        end
            | [] => Ok payload
            end;
  payload ← append_values values payload;
  Ok (CAYENNE_SUCCESS, u32 (payloadLength - 1), payload).

Definition CayenneBuildResponsePayload (payload : list Z) (length : Z) (id error : option (list Z)) :
    outcome (Z * Z * list Z) :=
  let values := [{| unit := id; value := error |}] in
  match error with
  | Some _ => CayenneBuildDataPayload payload length (Some (bytes "error")) values
  | None => CayenneBuildDataPayload payload length (Some (bytes "ok")) values
  end.

(** ** Parsing *)

(** The out parameters of [CayenneParseTopic] and the topic memory after the
    call. *)
Record parsed_topic := {
  pt_topic : CayenneTopic; pt_channel : Z; pt_clientID : option Z; pt_mem : list Z }.

Definition parseTopics : list (CayenneTopic * Z) :=
  [(COMMAND_TOPIC, CAYENNE_ALL_CHANNELS); (CONFIG_TOPIC, CAYENNE_ALL_CHANNELS)].

(** The loop over [parseTopics]: the topic that matches, with its channel. *)
Fixpoint find_topic (l : list (CayenneTopic * Z)) (mem : list Z) (index length : Z) :
    outcome (option (CayenneTopic * Z)) :=
  match l with
  | [] => Ok None
  | (topic, channel) :: l =>
      '(r, channelSuffix) ← buildSuffix (replicate 32 0) 32 topic channel;
      m ← (if r =? CAYENNE_SUCCESS then
             f ← cstr channelSuffix; topicMatches f mem index length
           else Ok false);
      if m : bool then Ok (Some (topic, channel)) else find_topic l mem index length
  end.

(** The channel number behind the last separator of the suffix, [old] if it is
    not a plain decimal number. *)
Definition parse_channel (buffer : list Z) (old : Z) : Z :=
  match strrchr buffer SLASH with
  | None => old
  | Some i =>
      let s := drop (Z.to_nat (i + 1)) buffer in
      let '(channelNumber, indexEnd) := strtoul s in
      if indexEnd =? zlen s then
        let c := default 0 (head s) in
        if (negb (channelNumber =? 0) && negb (c =? 48)) ||
           ((channelNumber =? 0) && (c =? 48) && (indexEnd =? 1))
        then channelNumber else old
      else old
  end.

(** The second half of [CayenneParseTopic], behind the client id: the topic and
    the channel in the suffix of [length] bytes at [index]. *)
Definition parse_suffix (mem : list Z) (clientID index length : Z) : outcome (Z * parsed_topic) :=
  found ← find_topic parseTopics mem index length;
  match found with
  | None => Ok (CAYENNE_FAILURE,
      {| pt_topic := UNDEFINED_TOPIC; pt_channel := CAYENNE_NO_CHANNEL;
         pt_clientID := Some clientID; pt_mem := mem |})
  | Some (topic, channel) =>
      let res ch := {| pt_topic := topic; pt_channel := ch; pt_clientID := Some clientID;
                       pt_mem := mem |} in
      if negb (channel =? CAYENNE_NO_CHANNEL) then
        if (length =? 0) || (31 <? length) then Ok (CAYENNE_FAILURE, res CAYENNE_NO_CHANNEL) else
        d ← load_bytes mem index length;
        buffer ← store_bytes (replicate 32 0) 0 d;
        buffer ← store buffer length 0;
        buffer ← cstr buffer;
        Ok (CAYENNE_SUCCESS, res (parse_channel buffer CAYENNE_NO_CHANNEL))
      else Ok (CAYENNE_SUCCESS, res CAYENNE_NO_CHANNEL)
  end.

(** [topicName] is the memory from the pointer on, [None] for NULL; [o] holds the
    out parameters and the topic memory before the call. *)
Definition CayenneParseTopic (o : parsed_topic) (username topicName : option (list Z)) (length : Z) :
    outcome (Z * parsed_topic) :=
  match topicName with None => Ok (CAYENNE_FAILURE, o) | Some mem =>
  if CAYENNE_MAX_MESSAGE_SIZE <? length then Ok (CAYENNE_BUFFER_OVERFLOW, o) else
  r ← strncmp (Datatypes.length CAYENNE_VERSION) (CAYENNE_VERSION ++ [0]) mem;
  if negb (r =? 0) then Ok (CAYENNE_FAILURE, o) else
  let index := zlen CAYENNE_VERSION + 1 in
  match username with None => Fault NullDeref | Some username =>
  r ← strncmp (Datatypes.length username) (username ++ [0]) (drop (Z.to_nat index) mem);
  if negb (r =? 0) then Ok (CAYENNE_FAILURE, o) else
  let index := index + zlen username in
  r ← strncmp (Datatypes.length THINGS_STRING) (drop (Z.to_nat index) mem) (THINGS_STRING ++ [0]);
  if negb (r =? 0) then Ok (CAYENNE_FAILURE, o) else
  let index := index + zlen THINGS_STRING in
  e ← strchr (drop (Z.to_nat index) mem) SLASH;
  match e with
  | None => Ok (CAYENNE_FAILURE, o)
  | Some k =>
      let deviceIDEnd := index + k in
      mem ← store mem deviceIDEnd 0;
      parse_suffix mem index (deviceIDEnd + 1) (u32 (length - (deviceIDEnd + 1)))
  end end end.

(** The out parameters of [CayenneParsePayload]. *)
Record parsed_payload := {
  pp_values : list ParsedPair; pp_valuesSize : Z; pp_type : option Z; pp_id : option Z;
  pp_payload : list Z }.

Definition clear_pairs (n : Z) (l : list ParsedPair) : outcome (list ParsedPair) :=
  if zlen l <? n then Fault OobWrite
  else Ok (replicate (Z.to_nat n) {| p_unit := None; p_value := None |} ++ drop (Z.to_nat n) l).

(** The fallback for a payload that was not split. *)
Definition whole_payload (vs : list ParsedPair) (size : Z) (type id : option Z) (payload : list Z) :
    outcome (Z * parsed_payload) :=
  p0 ← index vs 0;
  match p_value p0 with
  | Some _ => Ok (CAYENNE_SUCCESS, {| pp_values := vs; pp_valuesSize := size; pp_type := type;
                                      pp_id := id; pp_payload := payload |})
  | None => Ok (CAYENNE_SUCCESS,
      {| pp_values := <[0%nat := {| p_unit := None; p_value := Some 0 |}]> vs; pp_valuesSize := 1;
         pp_type := None; pp_id := None; pp_payload := payload |})
  end.

Definition CayenneParsePayload (o : parsed_payload) (topic : CayenneTopic) :
    outcome (Z * parsed_payload) :=
  if pp_valuesSize o =? 0 then Ok (CAYENNE_FAILURE, o) else
  vs ← clear_pairs (pp_valuesSize o) (pp_values o);
  match topic with
  | COMMAND_TOPIC =>
      '(_, size, st) ← parsePayload vs (pp_valuesSize o) (pp_payload o) 0;
      p0 ← index (ps_values st) 0;
      match p_value p0 with
      | None => Ok (CAYENNE_FAILURE,
          {| pp_values := ps_values st; pp_valuesSize := size; pp_type := None;
             pp_id := ps_type st; pp_payload := ps_payload st |})
      | Some _ => whole_payload (ps_values st) size None (ps_type st) (ps_payload st)
      end
  | _ => whole_payload vs (pp_valuesSize o) None None (pp_payload o)
  end.

(** ** Topics: facts *)

(** A sequence of [strcat] calls. *)
Fixpoint strcats (l : list (list Z)) (b : list Z) : outcome (list Z) :=
  match l with
  | [] => Ok b
  | d :: l => b ← strcat b d; strcats l b
  end.

Lemma strcats_app l s rest :
  is_cstring s → Forall is_cstring l →
  strcats l (s ++ 0 :: rest) =
  if zlen (concat l) <=? zlen rest
  then Ok ((s ++ concat l) ++ 0 :: drop (length (concat l)) rest) else Fault OobWrite.
Proof.
  intros Hs Hl. revert s rest Hs. induction Hl as [|d l Hd _ IH]; intros s rest Hs; cbn [strcats concat].
  { rewrite (proj2 (Z.leb_le _ _)) by (cbn; lia). by rewrite app_nil_r. }
  rewrite strcat_app by done. rewrite length_app.
  destruct (Z.leb_spec (zlen d) (zlen rest)) as [Hd1|Hd1].
  - cbn [mbind outcome_bind]. rewrite IH by (by apply is_cstring_app).
    rewrite length_drop, (app_assoc s d), drop_drop.
    destruct (Z.leb_spec (zlen (concat l)) (Z.of_nat (length rest - length d))),
      (Z.leb_spec (Z.of_nat (length d + length (concat l))) (zlen rest)); try lia; done.
  - cbn [mbind outcome_bind]. by rewrite (proj2 (Z.leb_gt _ _)) by lia.
Qed.

(** The text of a topic. *)
Definition topic_text (username clientID suffix : list Z) : list Z :=
  CAYENNE_VERSION ++ bytes "/" ++ username ++ THINGS_STRING ++ clientID ++ bytes "/" ++ suffix.

Lemma topic_text_length u c s : zlen (topic_text u c s) = zlen u + zlen c + zlen s + 12.
Proof.
  unfold topic_text. rewrite !length_app. change (length CAYENNE_VERSION) with 2%nat.
  change (length THINGS_STRING) with 8%nat. change (length (bytes "/")) with 1%nat. lia.
Qed.

(** Past its length check, [buildTopic] writes the text or overruns. *)
Lemma buildTopic_writes t u c s :
  is_cstring u → is_cstring c → is_cstring s →
  let text := topic_text u c s in
  zlen text - 1 ≤ zlen t →
  buildTopic (Some t) (zlen t) (Some u) (Some c) (Some s) =
  if zlen text + 1 <=? zlen t then Ok (CAYENNE_SUCCESS, Some (text ++ 0 :: drop (S (length text)) t))
  else Fault OobWrite.
Proof.
  intros Hu Hc Hs text Hge. pose proof (topic_text_length u c s) as Hlen. fold text in Hlen.
  unfold buildTopic. cbn zeta. rewrite (proj2 (Z.ltb_ge _ _)) by lia.
  destruct t as [|x t]; [cbn [length] in Hge; lia|].
  pose proof (store_app [] x t 0) as Hst. cbn [app] in Hst. change (zlen []) with 0 in Hst.
  rewrite Hst. cbn [mbind outcome_bind].
  pose proof (strcats_app [CAYENNE_VERSION; bytes "/"; u; THINGS_STRING; c; bytes "/"; s]
    [] t ltac:(constructor)) as Hcat.
  specialize (Hcat ltac:(repeat constructor; done || decide_vm)).
  assert (Ht : concat [CAYENNE_VERSION; bytes "/"; u; THINGS_STRING; c; bytes "/"; s] = text)
    by (cbn [concat]; by rewrite app_nil_r).
  rewrite Ht in Hcat. cbn [app] in Hcat. cbn [length] in *.
  destruct (Z.leb_spec (zlen text + 1) (Z.of_nat (S (length t)))) as [Hfit|Hno];
    [rewrite (proj2 (Z.leb_le _ _)) in Hcat by lia|rewrite (proj2 (Z.leb_gt _ _)) in Hcat by lia];
    revert Hcat; cbn [strcats];
    repeat match goal with |- context [strcat ?b ?d] =>
      destruct (strcat b d); cbn [mbind outcome_bind]; [|congruence] end;
    cbn [drop]; congruence.
Qed.

(** Building a topic: the string "v1/user/things/client/suffix" is built
    exactly in a buffer with room for it and its terminator, and a buffer that
    is three or more bytes too short is refused.  In between the check lets the
    code write past the buffer: it adds 11 to the lengths of the three parts
    where the fixed text and the terminator take 13. *)
Theorem buildTopic_exact (t username clientID suffix : list Z) :
  is_cstring username → is_cstring clientID → is_cstring suffix →
  let text := topic_text username clientID suffix in
  buildTopic (Some t) (zlen t) (Some username) (Some clientID) (Some suffix) =
  if zlen text + 1 <=? zlen t then Ok (CAYENNE_SUCCESS, Some (text ++ 0 :: drop (S (length text)) t))
  else if zlen text - 1 <=? zlen t then Fault OobWrite
  else Ok (CAYENNE_BUFFER_OVERFLOW, Some t).
Proof.
  intros Hu Hc Hs text. pose proof (topic_text_length username clientID suffix) as Hlen. fold text in Hlen.
  destruct (Z.leb_spec (zlen text - 1) (zlen t)) as [Hge|Hlt].
  - rewrite buildTopic_writes by done. by destruct (_ <=? _).
  - rewrite (proj2 (Z.leb_gt (zlen text + 1) _)) by lia. unfold buildTopic.
    by rewrite (proj2 (Z.ltb_lt _ _)) by lia.
Qed.

Lemma buildTopic_exact_witness :
  buildTopic (Some (replicate 18 7)) 18 (Some (bytes "u")) (Some (bytes "c")) (Some (bytes "cmd")) =
    Ok (CAYENNE_SUCCESS, Some (bytes "v1/u/things/c/cmd" ++ [0])) ∧
  buildTopic (Some (replicate 17 7)) 17 (Some (bytes "u")) (Some (bytes "c")) (Some (bytes "cmd")) =
    Fault OobWrite ∧
  buildTopic (Some (replicate 15 7)) 15 (Some (bytes "u")) (Some (bytes "c")) (Some (bytes "cmd")) =
    Ok (CAYENNE_BUFFER_OVERFLOW, Some (replicate 15 7)).
Proof.
  split_and!.
  - exact (buildTopic_exact (replicate 18 7) (bytes "u") (bytes "c") (bytes "cmd")
      ltac:(decide_vm) ltac:(decide_vm) ltac:(decide_vm)).
  - exact (buildTopic_exact (replicate 17 7) (bytes "u") (bytes "c") (bytes "cmd")
      ltac:(decide_vm) ltac:(decide_vm) ltac:(decide_vm)).
  - exact (buildTopic_exact (replicate 15 7) (bytes "u") (bytes "c") (bytes "cmd")
      ltac:(decide_vm) ltac:(decide_vm) ltac:(decide_vm)).
Defined.

(** ** Building and parsing topics *)

Lemma udec_length n : (0 < length (udec n) ≤ 10)%nat.
Proof. apply dec_digits_length. lia. Qed.

(** The suffix of a topic on a numbered channel. *)
Definition channel_suffix (tstr : list Z) (ch : Z) : list Z := tstr ++ SLASH :: udec ch.

Lemma channel_suffix_length tstr ch :
  zlen tstr + 2 ≤ zlen (channel_suffix tstr ch) ≤ zlen tstr + 11.
Proof. unfold channel_suffix. rewrite length_app. cbn [length]. pose proof (udec_length ch). lia. Qed.

Lemma buildSuffix_channel topic tstr ch n :
  topic_string topic = Some tstr → is_cstring tstr → zlen tstr + 12 ≤ Z.of_nat n < 4294967296 →
  0 ≤ ch → ch ≠ CAYENNE_NO_CHANNEL → ch ≠ CAYENNE_ALL_CHANNELS →
  ∃ rest, buildSuffix (replicate n 0) (Z.of_nat n) topic ch =
    Ok (CAYENNE_SUCCESS, channel_suffix tstr ch ++ 0 :: rest).
Proof.
  intros Ht Hc Hn H0 H1 H2. unfold buildSuffix. rewrite Ht, (proj2 (Z.leb_gt _ _)) by lia.
  destruct n as [|n]; [lia|]. pose proof (store_app [] 0 (replicate n 0) 0) as Hst.
  cbn [replicate app length] in *. change (Z.of_nat 0) with 0 in Hst. rewrite Hst. cbn [mbind outcome_bind].
  pose proof (strcat_app [] tstr (replicate n 0) ltac:(constructor)) as Hcat. cbn [app] in Hcat.
  rewrite Hcat, length_replicate.
  rewrite (proj2 (Z.leb_le _ _)) by lia. cbn [mbind outcome_bind app].
  rewrite (proj2 (Z.eqb_neq _ _) H1). cbn [negb]. rewrite drop_replicate.
  rewrite strcat_app by done. rewrite length_replicate, (proj2 (Z.leb_le _ _)) by (cbn; lia).
  cbn [mbind outcome_bind]. rewrite (proj2 (Z.eqb_neq _ _) H2). rewrite drop_replicate.
  rewrite cstr_app by (apply is_cstring_app; split; [done|decide_vm]). cbn [mbind outcome_bind].
  pose proof (udec_length ch) as Hl. unfold snprintf_u, u32.
  rewrite length_app. change (length (bytes "/")) with 1%nat.
  rewrite Z.mod_small by lia. rewrite (proj2 (Z.eqb_neq _ _)) by lia. rewrite take_ge by lia.
  set (r := replicate _ 0).
  assert (Hr : zlen r = Z.of_nat n - zlen tstr - 1) by (subst r; rewrite length_replicate; lia).
  exists (drop (length (udec ch)) r).
  replace (0 :: r) with ((0 :: take (length (udec ch)) r) ++ drop (length (udec ch)) r)
    by (cbn [app]; by rewrite take_drop).
  replace (Z.of_nat (length tstr + 1)) with (zlen (tstr ++ bytes "/"))
    by (rewrite length_app; reflexivity).
  rewrite store_bytes_app by (cbn [length]; rewrite length_take, length_app; cbn [length]; lia).
  cbn [mbind outcome_bind]. unfold channel_suffix. do 2 f_equal.
  rewrite <- !app_assoc. done.
Qed.

Lemma parse_channel_suffix tstr ch old :
  0 ≤ ch ≤ ULONG_MAX → parse_channel (channel_suffix tstr ch) old = ch.
Proof.
  intros Hch. unfold parse_channel, channel_suffix.
  pose proof (dec_digits_digit 10 ch ltac:(lia)) as Hd.
  rewrite strrchr_app by (apply (Forall_impl _ _ _ Hd); unfold SLASH; intros; lia).
  replace (drop (Z.to_nat (zlen tstr + 1)) (tstr ++ SLASH :: udec ch)) with (udec ch).
  2: { replace (Z.to_nat (zlen tstr + 1)) with (length tstr + 1)%nat by lia.
       rewrite <- drop_drop, drop_app_length. done. }
  rewrite strtoul_udec by done. rewrite Z.eqb_refl.
  destruct (decide (ch = 0)) as [->|Hz]; [done|].
  destruct (dec_digits_head 10 ch) as (c & t & E & Hc); [split; [lia|]; unfold ULONG_MAX in *; cbn; lia|].
  unfold udec. rewrite E. cbn [head default from_option id].
  rewrite (proj2 (Z.eqb_neq ch 0)), (proj2 (Z.eqb_neq c 48)) by lia. done.
Qed.

(** The topics the firmware subscribes to. *)
Lemma find_topic_suffix topic tstr ch pre post :
  topic = COMMAND_TOPIC ∨ topic = CONFIG_TOPIC → topic_string topic = Some tstr →
  0 ≤ ch ≤ ULONG_MAX →
  find_topic parseTopics (pre ++ channel_suffix tstr ch ++ post) (zlen pre)
    (zlen (channel_suffix tstr ch)) = Ok (Some (topic, CAYENNE_ALL_CHANNELS)).
Proof.
  intros Ht Hs Hch. pose proof (udec_length ch) as Hl.
  assert (Hn : name_level (udec ch)).
  { apply (Forall_impl _ _ _ (dec_digits_digit 10 ch ltac:(lia))). unfold SLASH. cbn. lia. }
  assert (Hm : ∀ f, f = bytes "cmd" ∨ f = bytes "conf" →
    topicMatches (f ++ bytes "/+") (pre ++ channel_suffix tstr ch ++ post) (zlen pre)
      (zlen (channel_suffix tstr ch)) = Ok (bool_decide (f = tstr))).
  { intros f Hf. unfold topicMatches. rewrite decide_True by (rewrite !length_app; lia).
    rewrite topic_matches_name.
    change (f ++ bytes "/+") with (join [f; [PLUS]]).
    change (channel_suffix tstr ch) with (join [tstr; udec ch]).
    rewrite isTopicMatched_levels; try done.
    - cbn [levels_match]. destruct Hf as [-> | ->]; rewrite (bool_decide_eq_false_2 (_ = [HASH])),
        (bool_decide_eq_false_2 (_ = [PLUS])) by done;
        rewrite (bool_decide_eq_true_2 (udec ch ≠ [])) by (destruct (udec ch); [cbn in Hl; lia|done]);
        by rewrite andb_true_r.
    - split; [left|right; by left]. destruct Hf as [-> | ->]; unfold text_level; decide_vm.
    - constructor; [|by constructor]. unfold name_level.
      destruct Ht as [-> | ->]; injection Hs as <-; decide_vm. }
  unfold find_topic, parseTopics.
  change (buildSuffix (replicate 32 0) 32 COMMAND_TOPIC CAYENNE_ALL_CHANNELS) with
    (Ok (CAYENNE_SUCCESS, bytes "cmd/+" ++ replicate 27 0)).
  change (buildSuffix (replicate 32 0) 32 CONFIG_TOPIC CAYENNE_ALL_CHANNELS) with
    (Ok (CAYENNE_SUCCESS, bytes "conf/+" ++ replicate 26 0)).
  cbn [mbind outcome_bind]. change (CAYENNE_SUCCESS =? CAYENNE_SUCCESS) with true. cbv iota.
  change (cstr (bytes "cmd/+" ++ replicate 27 0)) with (Ok (bytes "cmd" ++ bytes "/+")).
  change (cstr (bytes "conf/+" ++ replicate 26 0)) with (Ok (bytes "conf" ++ bytes "/+")).
  cbn [mbind outcome_bind]. rewrite !Hm by auto. cbn [mbind outcome_bind].
  by destruct Ht as [-> | ->]; injection Hs as <-.
Qed.

Lemma strncmp_self s l1 l2 : is_cstring s → strncmp (length s) (s ++ l1) (s ++ l2) = Ok 0.
Proof. apply strncmp_prefix. Qed.

(** The copy of the suffix that the channel is read from. *)
Lemma channel_buffer d :
  is_cstring d → zlen d ≤ 31 →
  (b ← store_bytes (replicate 32 0) 0 d; b ← store b (zlen d) 0; cstr b) = Ok d.
Proof.
  intros Hd Hl. assert (E : replicate 32 0 = replicate (length d) 0 ++ replicate (32 - length d) 0)
    by (rewrite <- replicate_add; f_equal; lia).
  rewrite E. pose proof (store_bytes_app [] (replicate (length d) 0) (replicate (32 - length d) 0) d) as Hs.
  cbn [app length] in Hs. change (Z.of_nat 0) with 0 in Hs. rewrite Hs by apply length_replicate.
  cbn [mbind outcome_bind]. replace (32 - length d)%nat with (S (31 - length d)) by lia.
  cbn [replicate]. rewrite store_app. cbn [mbind outcome_bind]. by rewrite cstr_app.
Qed.

Lemma parse_suffix_text topic tstr ch pre post clientID :
  topic = COMMAND_TOPIC ∨ topic = CONFIG_TOPIC → topic_string topic = Some tstr →
  0 ≤ ch ≤ ULONG_MAX →
  let suffix := channel_suffix tstr ch in
  parse_suffix (pre ++ suffix ++ post) clientID (zlen pre) (zlen suffix) =
  Ok (CAYENNE_SUCCESS, {| pt_topic := topic; pt_channel := ch; pt_clientID := Some clientID;
                          pt_mem := pre ++ suffix ++ post |}).
Proof.
  intros Ht Hs Hch suffix.
  assert (Hts : zlen tstr ≤ 4 ∧ is_cstring tstr)
    by (destruct Ht as [-> | ->]; injection Hs as <-; split; [cbn; lia|decide_vm|cbn; lia|decide_vm]).
  pose proof (channel_suffix_length tstr ch) as Hl. fold suffix in Hl.
  assert (Hsc : is_cstring suffix).
  { apply is_cstring_app. split; [apply Hts|]. constructor; [unfold SLASH; lia|]. apply udec_cstring. lia. }
  unfold parse_suffix.
  pose proof (find_topic_suffix topic tstr ch pre post Ht Hs Hch) as Hf. fold suffix in Hf.
  rewrite Hf. cbn [mbind outcome_bind].
  cbn [Z.eqb Pos.eqb CAYENNE_ALL_CHANNELS CAYENNE_NO_CHANNEL negb].
  rewrite (proj2 (Z.eqb_neq (zlen suffix) 0)), (proj2 (Z.ltb_ge 31 _)) by lia. cbn [orb].
  rewrite load_bytes_app. cbn [mbind outcome_bind].
  pose proof (channel_buffer suffix Hsc ltac:(lia)) as Hb.
  destruct (store_bytes (replicate 32 0) 0 suffix) as [b1|]; [|done]. cbn [mbind outcome_bind] in *.
  destruct (store b1 (zlen suffix) 0) as [b2|]; [|done]. cbn [mbind outcome_bind] in *.
  rewrite Hb. cbn [mbind outcome_bind]. unfold suffix at 1. by rewrite parse_channel_suffix.
Qed.

(** What the parser makes of a topic the firmware would build. *)
Lemma parse_topic_text o user client topic tstr ch post :
  topic = COMMAND_TOPIC ∨ topic = CONFIG_TOPIC → topic_string topic = Some tstr →
  0 ≤ ch ≤ ULONG_MAX → is_cstring user → is_cstring client → Forall (λ c, c ≠ SLASH) client →
  let suffix := channel_suffix tstr ch in
  let text := topic_text user client suffix in
  let head := CAYENNE_VERSION ++ bytes "/" ++ user ++ THINGS_STRING in
  zlen text ≤ CAYENNE_MAX_MESSAGE_SIZE →
  CayenneParseTopic o (Some user) (Some (text ++ post)) (zlen text) =
  Ok (CAYENNE_SUCCESS,
    {| pt_topic := topic; pt_channel := ch; pt_clientID := Some (zlen head);
       pt_mem := head ++ client ++ 0 :: suffix ++ post |}).
Proof.
  intros Ht Hs Hch Hu Hc Hns suffix text head Hlen.
  assert (Hh : zlen head = 11 + zlen user).
  { unfold head. rewrite !length_app. change (length CAYENNE_VERSION) with 2%nat.
    change (length THINGS_STRING) with 8%nat. change (length (bytes "/")) with 1%nat. lia. }
  assert (Htx : text ++ post = head ++ client ++ SLASH :: suffix ++ post).
  { unfold text, topic_text, head. rewrite <- !app_assoc. done. }
  pose proof (topic_text_length user client suffix) as Htl. fold text in Htl.
  unfold CayenneParseTopic. rewrite (proj2 (Z.ltb_ge _ _)) by lia.
  rewrite Htx. set (mem := head ++ client ++ SLASH :: suffix ++ post).
  assert (E1 : strncmp (length CAYENNE_VERSION) (CAYENNE_VERSION ++ [0]) mem = Ok 0).
  { unfold mem, head. rewrite <- !app_assoc. apply strncmp_self. decide_vm. }
  assert (E2 : strncmp (length user) (user ++ [0]) (drop (Z.to_nat (zlen CAYENNE_VERSION + 1)) mem) = Ok 0).
  { unfold mem, head. rewrite <- !app_assoc. by apply strncmp_self. }
  assert (Hd : drop (Z.to_nat (zlen CAYENNE_VERSION + 1 + zlen user)) mem =
    THINGS_STRING ++ client ++ SLASH :: suffix ++ post).
  { unfold mem, head. replace (Z.to_nat _) with (length (CAYENNE_VERSION ++ bytes "/" ++ user))
      by (rewrite !length_app; change (length CAYENNE_VERSION) with 2%nat;
          change (length (bytes "/")) with 1%nat; lia).
    rewrite <- !app_assoc, !(app_assoc CAYENNE_VERSION), (app_assoc (CAYENNE_VERSION ++ bytes "/")).
    apply drop_app_length. }
  rewrite E1. cbn [mbind outcome_bind Z.eqb negb]. rewrite E2. cbn [mbind outcome_bind Z.eqb negb].
  rewrite Hd, strncmp_self by decide_vm. cbn [mbind outcome_bind Z.eqb negb].
  replace (zlen CAYENNE_VERSION + 1 + zlen user + zlen THINGS_STRING) with (zlen head)
    by (rewrite Hh; change (zlen CAYENNE_VERSION) with 2; change (zlen THINGS_STRING) with 8; lia).
  replace (drop (Z.to_nat (zlen head)) mem) with (client ++ SLASH :: suffix ++ post)
    by (unfold mem; by rewrite Nat2Z.id, drop_app_length).
  rewrite strchr_app.
  2: { apply Forall_and. split; [apply (Forall_impl _ _ _ Hc); cbn; lia|done]. }
  cbn [mbind outcome_bind]. unfold mem. rewrite (app_assoc head client).
  replace (zlen head + zlen client) with (zlen (head ++ client)) by (rewrite length_app; lia).
  rewrite store_app. cbn [mbind outcome_bind].
  pose proof (parse_suffix_text topic tstr ch ((head ++ client) ++ [0]) post (zlen head) Ht Hs Hch) as Hp.
  fold suffix in Hp. rewrite length_app in Hp. cbn [length] in Hp. rewrite Nat2Z.inj_add in Hp.
  replace (u32 _) with (zlen suffix).
  2: { unfold u32. rewrite length_app, Z.mod_small by (unfold CAYENNE_MAX_MESSAGE_SIZE in *; lia). lia. }
  rewrite <- !app_assoc in *. exact Hp.
Qed.

(** What [CayenneBuildTopic] writes for a numbered channel. *)
Lemma build_topic_text t user client topic tstr ch :
  topic_string topic = Some tstr → is_cstring tstr → zlen tstr ≤ 8 → 0 ≤ ch →
  ch ≠ CAYENNE_NO_CHANNEL → ch ≠ CAYENNE_ALL_CHANNELS → is_cstring user → is_cstring client →
  let text := topic_text user client (channel_suffix tstr ch) in
  zlen text + 1 ≤ zlen t →
  CayenneBuildTopic (Some t) (zlen t) (Some user) (Some client) topic ch =
  Ok (CAYENNE_SUCCESS, Some (text ++ 0 :: drop (S (length text)) t)).
Proof.
  intros Hs Hts H8 Hch H1 H2 Hu Hc text Hl. unfold CayenneBuildTopic.
  destruct (buildSuffix_channel topic tstr ch 20 Hs Hts ltac:(lia) ltac:(lia) H1 H2) as [r E].
  change (Z.of_nat 20) with 20 in E. rewrite E. cbn [mbind outcome_bind].
  change (CAYENNE_SUCCESS =? CAYENNE_SUCCESS) with true. cbn [negb].
  assert (Hsc : is_cstring (channel_suffix tstr ch)).
  { apply is_cstring_app. split; [done|]. constructor; [unfold SLASH; lia|]. by apply udec_cstring. }
  rewrite cstr_app by done. cbn [mbind outcome_bind]. fold text.
  rewrite buildTopic_writes by (done || (fold text; lia)). fold text.
  by rewrite (proj2 (Z.leb_le _ _)) by lia.
Qed.

(** The same without a channel. *)
Lemma buildSuffix_plain topic tstr n :
  topic_string topic = Some tstr → is_cstring tstr → zlen tstr < Z.of_nat n →
  ∃ rest, buildSuffix (replicate n 0) (Z.of_nat n) topic CAYENNE_NO_CHANNEL = Ok (CAYENNE_SUCCESS, tstr ++ 0 :: rest).
Proof.
  intros Ht Hc Hn. unfold buildSuffix. rewrite Ht, (proj2 (Z.leb_gt _ _)) by lia. destruct n as [|n]; [lia|].
  pose proof (store_app [] 0 (replicate n 0) 0) as Hst. cbn [replicate app length] in *. change (Z.of_nat 0) with 0 in Hst.
  rewrite Hst, bind_ok. pose proof (strcat_app [] tstr (replicate n 0) ltac:(constructor)) as Hcat. cbn [app] in Hcat.
  rewrite Hcat, length_replicate, (proj2 (Z.leb_le _ _)), bind_ok by lia. by eexists.
Qed.

Lemma build_topic_plain t user client topic tstr :
  topic_string topic = Some tstr → is_cstring tstr → zlen tstr < 20 → is_cstring user → is_cstring client →
  let text := topic_text user client tstr in
  zlen text + 1 ≤ zlen t →
  CayenneBuildTopic (Some t) (zlen t) (Some user) (Some client) topic CAYENNE_NO_CHANNEL =
  Ok (CAYENNE_SUCCESS, Some (text ++ 0 :: drop (S (length text)) t)).
Proof.
  intros Hs Hts Hl20 Hu Hc text Hl. unfold CayenneBuildTopic.
  destruct (buildSuffix_plain topic tstr 20 Hs Hts ltac:(lia)) as [r E]. change (Z.of_nat 20) with 20 in E. rewrite E, bind_ok.
  change (CAYENNE_SUCCESS =? CAYENNE_SUCCESS) with true. cbn [negb]. rewrite cstr_app, bind_ok by done.
  rewrite buildTopic_writes by (done || (fold text; lia)). fold text. by rewrite (proj2 (Z.leb_le _ _)) by lia.
Qed.

(** [C11] Topics survive the round trip: a command or configuration topic that
    [CayenneBuildTopic] builds for a user, a client id without "/" and any
    channel number is parsed back, from its bytes alone and whatever memory
    follows them, into the same topic, channel and client id. *)
Theorem topic_roundtrip (t user client post : list Z) (topic : CayenneTopic) (ch : Z) (o : parsed_topic) :
  topic = COMMAND_TOPIC ∨ topic = CONFIG_TOPIC →
  0 ≤ ch ≤ ULONG_MAX → ch ≠ CAYENNE_NO_CHANNEL → ch ≠ CAYENNE_ALL_CHANNELS →
  is_cstring user → is_cstring client → Forall (λ c, c ≠ SLASH) client →
  zlen user + zlen client + 28 ≤ zlen t → zlen user + zlen client + 27 ≤ CAYENNE_MAX_MESSAGE_SIZE →
  ∃ text rest,
    CayenneBuildTopic (Some t) (zlen t) (Some user) (Some client) topic ch =
      Ok (CAYENNE_SUCCESS, Some (text ++ 0 :: rest)) ∧ is_cstring text ∧
    ∃ p off, CayenneParseTopic o (Some user) (Some (text ++ post)) (zlen text) = Ok (CAYENNE_SUCCESS, p) ∧
      pt_topic p = topic ∧ pt_channel p = ch ∧ pt_clientID p = Some off ∧
      cstr_at (pt_mem p) off = Ok client.
Proof.
  intros Ht Hch H1 H2 Hu Hc Hns Hl1 Hl2.
  assert (∃ tstr, topic_string topic = Some tstr ∧ zlen tstr ≤ 4 ∧ is_cstring tstr) as (tstr & Hs & H4 & Hts).
  { destruct Ht as [-> | ->]; eexists; (split; [done|]); (split; [cbn; lia|decide_vm]). }
  set (suffix := channel_suffix tstr ch). pose proof (channel_suffix_length tstr ch) as Hsl. fold suffix in Hsl.
  assert (Hsc : is_cstring suffix).
  { apply is_cstring_app. split; [done|]. constructor; [unfold SLASH; lia|]. apply udec_cstring. lia. }
  pose proof (topic_text_length user client suffix) as Htl.
  exists (topic_text user client suffix), (drop (S (length (topic_text user client suffix))) t). split_and!.
  - apply build_topic_text; try done; fold suffix; lia.
  - unfold topic_text. rewrite !is_cstring_app. split_and!; try done; decide_vm.
  - eexists _, _. split; [apply (parse_topic_text o user client topic tstr ch post); try done; fold suffix; lia|].
    cbn [pt_topic pt_channel pt_clientID pt_mem]. split_and!; try done.
    unfold cstr_at. rewrite decide_True by lia. rewrite Nat2Z.id, drop_app_length.
    by apply cstr_app.
Qed.

Lemma topic_roundtrip_witness :
  ∃ text rest,
    CayenneBuildTopic (Some (replicate 40 1)) 40 (Some (bytes "user")) (Some (bytes "dev"))
      COMMAND_TOPIC 17 = Ok (CAYENNE_SUCCESS, Some (text ++ 0 :: rest)) ∧ is_cstring text ∧
    ∃ p off, CayenneParseTopic (Build_parsed_topic UNDEFINED_TOPIC 0 None []) (Some (bytes "user"))
        (Some (text ++ bytes "a,1")) (zlen text) = Ok (CAYENNE_SUCCESS, p) ∧
      pt_topic p = COMMAND_TOPIC ∧ pt_channel p = 17 ∧ pt_clientID p = Some off ∧
      cstr_at (pt_mem p) off = Ok (bytes "dev").
Proof.
  apply (topic_roundtrip (replicate 40 1) (bytes "user") (bytes "dev") (bytes "a,1") COMMAND_TOPIC 17);
    first [by left | decide_vm].
Defined.

(** ** Data payloads *)

Lemma strcat_fits s d rest :
  is_cstring s → zlen d ≤ zlen rest →
  strcat (s ++ 0 :: rest) d = Ok ((s ++ d) ++ 0 :: drop (length d) rest).
Proof. intros Hs Hd. rewrite strcat_app by done. by rewrite (proj2 (Z.leb_le _ _)). Qed.

(** The unit of a pair in a payload that has a type. *)
Definition unit_text (v : CayenneValuePair) : list Z := default UNIT_UNDEFINED (unit v).

Definition units_text (vs : list CayenneValuePair) : list Z :=
  concat ((λ v, COMMA :: unit_text v) <$> vs).

(** Strings separated by commas. *)
Fixpoint commas (l : list (list Z)) : list Z :=
  match l with
  | [] => []
  | [s] => s
  | s :: l => s ++ COMMA :: commas l
  end.

(** The payload "type,unit,unit=value,value", without the values if the pairs
    have none. *)
Definition data_text (type : list Z) (vs : list CayenneValuePair) : list Z :=
  type ++ units_text vs ++
  match omap value vs with [] => [] | l => bytes "=" ++ commas l end.

Definition pair_ok (v : CayenneValuePair) : Prop :=
  is_cstring (unit_text v) ∧ is_cstring (default [] (value v)).

Lemma append_units_fits t vs s rest :
  is_cstring s → s ≠ [] → Forall pair_ok vs → zlen (units_text vs) ≤ zlen rest →
  append_units (Some t) vs (s ++ 0 :: rest) =
  Ok ((s ++ units_text vs) ++ 0 :: drop (length (units_text vs)) rest).
Proof.
  intros Hs Hne Hvs. revert s rest Hs Hne. induction Hvs as [|v vs [Hu _] _ IH]; intros s rest Hs Hne Hl;
    cbn [append_units]; [by rewrite app_nil_r|].
  unfold units_text in Hl |- *. cbn [fmap list_fmap concat] in Hl |- *.
  fold (units_text vs) in Hl |- *. rewrite length_app in Hl. cbn [length] in Hl.
  destruct s as [|c s]; [done|]. inversion Hs; subst.
  change (load ((c :: s) ++ 0 :: rest) 0) with (load ([] ++ c :: s ++ 0 :: rest) (zlen (@nil Z))).
  rewrite load_app. cbn [mbind outcome_bind]. rewrite (proj2 (Z.eqb_neq c 0)) by lia. cbn [negb].
  rewrite strcat_fits by (done || (cbn [bytes length]; lia)). cbn [mbind outcome_bind].
  assert (Hd : zlen (unit_text v) ≤ zlen (drop (length (bytes ",")) rest))
    by (rewrite length_drop; cbn [bytes length]; lia).
  assert (Hc : is_cstring ((c :: s) ++ bytes ",")) by (apply is_cstring_app; split; [done|decide_vm]).
  replace (match unit v with Some u => strcat _ u | None => strcat _ UNIT_UNDEFINED end)
    with (strcat (((c :: s) ++ bytes ",") ++ 0 :: drop (length (bytes ",")) rest) (unit_text v))
    by (unfold unit_text; by destruct (unit v)).
  rewrite strcat_fits by done. cbn [mbind outcome_bind].
  rewrite IH; [|by apply is_cstring_app|done|rewrite !length_drop; cbn [bytes length]; lia].
  rewrite !drop_drop, length_app. do 2 f_equal. rewrite <- !app_assoc. done.
Qed.

Lemma append_values_fits vs s rest :
  is_cstring s → Forall pair_ok vs → Forall (λ v, is_Some (value v)) vs →
  zlen (commas (omap value vs)) ≤ zlen rest →
  append_values vs (s ++ 0 :: rest) =
  Ok ((s ++ commas (omap value vs)) ++ 0 :: drop (length (commas (omap value vs))) rest).
Proof.
  intros Hs Hok Hv. revert s rest Hs. induction Hv as [|v vs [x Hx] Hv IH]; intros s rest Hs Hl;
    cbn [append_values]; [by rewrite app_nil_r|].
  inversion Hok as [|? ? [_ Hvc] Hok']; subst. rewrite Hx in *. cbn [default from_option id] in Hvc.
  cbn [omap list_omap] in Hl |- *. rewrite Hx in *. fold (omap value vs) in Hl |- *.
  destruct vs as [|v2 vs].
  - cbn [omap list_omap commas] in *. rewrite strcat_fits by done. done.
  - inversion Hv as [|? ? [x2 Hx2] _]; subst.
    assert (Hom : ∃ l', omap value (v2 :: vs) = x2 :: l') by (cbn [omap list_omap]; rewrite Hx2; by eexists).
    destruct Hom as [l' Hom]. rewrite Hom in *.
    change (commas (x :: x2 :: l')) with (x ++ COMMA :: commas (x2 :: l')) in *.
    rewrite length_app in Hl. cbn [length] in Hl.
    rewrite strcat_fits by (done || lia). cbn [mbind outcome_bind].
    assert (Hsx : is_cstring (s ++ x)) by (by apply is_cstring_app).
    rewrite strcat_fits by (done || (rewrite length_drop; cbn [bytes length]; lia)).
    cbn [mbind outcome_bind].
    rewrite IH; [|done|apply is_cstring_app; split; [done|decide_vm]|
      rewrite !length_drop; cbn [bytes length]; lia].
    rewrite !drop_drop, length_app. cbn [length bytes]. rewrite <- !app_assoc. do 2 f_equal.
Qed.

Lemma units_text_cons v vs : units_text (v :: vs) = (COMMA :: unit_text v) ++ units_text vs.
Proof. done. Qed.

Lemma commas_length l : zlen (commas l) = foldr (λ s n, zlen s + 1 + n) 0 l - (if decide (l = []) then 0 else 1).
Proof.
  induction l as [|s l IH]; [done|]. rewrite (decide_False (P := s :: l = [])) by done.
  destruct l as [|s2 l]; [cbn; lia|]. rewrite decide_False in IH by done.
  change (commas (s :: s2 :: l)) with (s ++ COMMA :: commas (s2 :: l)).
  rewrite length_app. cbn [length]. rewrite Nat2Z.inj_add, Nat2Z.inj_succ, IH. cbn [foldr]. lia.
Qed.

(** The length computed in advance is that of the text and its terminator. *)
Lemma payload_length_text t vs acc :
  payload_length (Some t) vs acc =
  acc + zlen (units_text vs) + foldr (λ s n, zlen s + 1 + n) 0 (omap value vs) + (zlen t + 1).
Proof.
  revert acc. induction vs as [|v vs IH]; intros acc; cbn [payload_length opt_len].
  { cbn. lia. }
  rewrite IH, units_text_cons, length_app. cbn [length omap list_omap]. unfold unit_text, opt_len.
  destruct (unit v), (value v); cbn [default from_option id foldr]; unfold omap; lia.
Qed.

(** The part of the text behind the units. *)
Definition values_text (vs : list CayenneValuePair) : list Z :=
  match omap value vs with [] => [] | l => bytes "=" ++ commas l end.

Lemma units_text_cstring vs : Forall pair_ok vs → is_cstring (units_text vs).
Proof.
  induction 1 as [|v vs [Hu _] _ IH]; [constructor|]. rewrite units_text_cons.
  apply is_cstring_app. split; [|done]. constructor; [unfold COMMA; lia|done].
Qed.

Lemma omap_none vs : Forall (λ v, value v = None) vs → omap value vs = [].
Proof. induction 1 as [|v vs Hv _ IH]; [done|]. cbn [omap list_omap]. by rewrite Hv. Qed.

Lemma append_values_text vs s rest :
  is_cstring s → s ≠ [] → Forall pair_ok vs →
  Forall (λ v, is_Some (value v)) vs ∨ Forall (λ v, value v = None) vs →
  zlen (values_text vs) ≤ zlen rest →
  (c ← load (s ++ 0 :: rest) 0;
   payload ← match vs with
             | v :: _ => match value v with
                         | Some _ => if negb (c =? 0) then strcat (s ++ 0 :: rest) (bytes "=")
                                     else Ok (s ++ 0 :: rest)
                         | None => Ok (s ++ 0 :: rest)
                         end
             | [] => Ok (s ++ 0 :: rest)
             end;
   append_values vs payload) =
  Ok ((s ++ values_text vs) ++ 0 :: drop (length (values_text vs)) rest).
Proof.
  intros Hs Hne Hok Hv Hl. destruct s as [|c s]; [done|]. inversion Hs; subst.
  change (load ((c :: s) ++ 0 :: rest) 0) with (load ([] ++ c :: s ++ 0 :: rest) (zlen (@nil Z))).
  rewrite load_app. cbn [mbind outcome_bind]. rewrite (proj2 (Z.eqb_neq c 0)) by lia. cbn [negb].
  assert (Hnone : Forall (λ v, value v = None) vs → values_text vs = [])
    by (intros Hn; unfold values_text; by rewrite omap_none).
  destruct vs as [|v vs]; [cbn; by rewrite app_nil_r|]. destruct Hv as [Hv|Hv].
  - inversion Hv as [|? ? [x Hx] Hv']; subst. rewrite Hx.
    assert (Ho : values_text (v :: vs) = bytes "=" ++ commas (omap value (v :: vs)))
      by (unfold values_text; cbn [omap list_omap]; by rewrite Hx).
    rewrite Ho, length_app in Hl. change (length (bytes "=")) with 1%nat in Hl.
    rewrite strcat_fits by (done || (cbn [bytes length]; lia)). cbn [mbind outcome_bind].
    rewrite append_values_fits; [|apply is_cstring_app; split; [done|decide_vm]|done|done|
      rewrite length_drop; cbn [bytes length]; lia].
    rewrite Ho, drop_drop, length_app. by rewrite <- !app_assoc.
  - rewrite Hnone by done. inversion Hv as [|? ? Hx _]; subst. cbn [append_values]. rewrite Hx.
    cbn [mbind outcome_bind]. by rewrite app_nil_r.
Qed.

Lemma payload_length_data type vs : payload_length (Some type) vs 0 = zlen (data_text type vs) + 1.
Proof.
  change (data_text type vs) with (type ++ units_text vs ++ values_text vs).
  rewrite payload_length_text, !length_app. unfold values_text.
  pose proof (commas_length (omap value vs)) as Hc. destruct (omap value vs) eqn:E.
  - cbn [foldr length]. lia.
  - rewrite decide_False in Hc by done. rewrite length_app. change (length (bytes "=")) with 1%nat. lia.
Qed.

(** What [CayenneBuildDataPayload] writes past its length check. *)
Lemma build_data_fits payload type vs :
  is_cstring type → type ≠ [] → Forall pair_ok vs → zlen (data_text type vs) < 4294967296 →
  Forall (λ v, is_Some (value v)) vs ∨ Forall (λ v, value v = None) vs →
  let text := data_text type vs in
  zlen text < zlen payload →
  CayenneBuildDataPayload payload (zlen payload) (Some type) vs =
  Ok (CAYENNE_SUCCESS, zlen text, text ++ 0 :: drop (S (length text)) payload).
Proof.
  intros Ht Hne Hok Hmax Hv text Hlt.
  fold text in Hmax. set (vals := values_text vs). assert (Htext : text = type ++ units_text vs ++ vals) by done.
  unfold CayenneBuildDataPayload. rewrite payload_length_data. fold text.
  rewrite (proj2 (Z.ltb_ge (zlen payload) _)) by lia.
  destruct payload as [|x rest]; [cbn in Hlt; lia|].
  pose proof (store_app [] x rest 0) as Hst. cbn [app length] in *. change (Z.of_nat 0) with 0 in Hst.
  rewrite Hst. cbn [mbind outcome_bind].
  assert (Hlen : zlen text = zlen type + zlen (units_text vs) + zlen vals)
    by (rewrite Htext, !length_app; lia).
  pose proof (strcat_fits [] type rest ltac:(constructor) ltac:(lia)) as E1. cbn [app] in E1.
  rewrite E1. cbn [mbind outcome_bind].
  rewrite append_units_fits by (done || (rewrite length_drop; lia)). cbn [mbind outcome_bind].
  assert (Hcs : is_cstring (type ++ units_text vs))
    by (apply is_cstring_app; split; [done|by apply units_text_cstring]).
  assert (Hroom : zlen vals ≤ zlen (drop (length (units_text vs)) (drop (length type) rest)))
    by (rewrite !length_drop; lia).
  pose proof (append_values_text vs (type ++ units_text vs) _ Hcs ltac:(by destruct type)
    Hok Hv Hroom) as E2. revert E2.
  destruct (load _ 0) as [c|]; cbn [mbind outcome_bind]; [|congruence].
  match goal with |- mbind _ ?m = _ → _ => destruct m; cbn [mbind outcome_bind]; [|congruence] end.
  intros ->. cbn [mbind outcome_bind]. unfold u32. rewrite Z.add_simpl_r, Z.mod_small by lia.
  fold vals. rewrite !drop_drop, Htext, <- !app_assoc, !length_app. cbn [drop].
  do 4 f_equal.
Qed.

(** A value without type and unit is the payload. *)
Lemma build_value_fits payload val :
  is_cstring val → zlen val < 4294967295 → zlen val < zlen payload →
  CayenneBuildDataPayload payload (zlen payload) None [{| unit := None; value := Some val |}] =
  Ok (CAYENNE_SUCCESS, zlen val, val ++ 0 :: drop (S (length val)) payload).
Proof.
  intros Hv Hmax Hl. unfold CayenneBuildDataPayload. cbn [payload_length unit value opt_len].
  rewrite (proj2 (Z.ltb_ge (zlen payload) _)) by lia. destruct payload as [|x rest]; [cbn in Hl; lia|].
  pose proof (store_app [] x rest 0) as Hst. cbn [app length] in *. change (Z.of_nat 0) with 0 in Hst.
  rewrite Hst, bind_ok, bind_ok. cbn [append_units unit]. rewrite load_head, bind_ok. cbn [Z.eqb negb]. rewrite !bind_ok.
  rewrite load_head, bind_ok. cbn [Z.eqb negb]. rewrite bind_ok. cbn [append_values value].
  pose proof (strcat_fits [] val rest ltac:(constructor) ltac:(lia)) as E1. cbn [app] in E1. rewrite E1, !bind_ok.
  unfold u32. rewrite Z.mod_small by lia. cbn [drop]. do 3 f_equal. lia.
Qed.

(** Data payloads are built exactly: for a payload with a type and pairs
    that all have a value, or none of which has one, the text "type,unit=value"
    (several units and values separated by commas, "null" for a missing unit)
    is written with its terminator and its length is returned, if the buffer
    holds both; otherwise the buffer and the length are left alone. *)
Theorem CayenneBuildDataPayload_exact (payload type : list Z) (vs : list CayenneValuePair) :
  is_cstring type → type ≠ [] → Forall pair_ok vs → zlen (data_text type vs) < 4294967296 →
  Forall (λ v, is_Some (value v)) vs ∨ Forall (λ v, value v = None) vs →
  let text := data_text type vs in
  CayenneBuildDataPayload payload (zlen payload) (Some type) vs =
  if zlen text <? zlen payload
  then Ok (CAYENNE_SUCCESS, zlen text, text ++ 0 :: drop (S (length text)) payload)
  else Ok (CAYENNE_BUFFER_OVERFLOW, zlen payload, payload).
Proof.
  intros Ht Hne Hok Hmax Hv text. destruct (Z.ltb_spec (zlen text) (zlen payload)) as [Hfit|Hno].
  - by apply build_data_fits.
  - unfold CayenneBuildDataPayload. rewrite payload_length_data. fold text.
    by rewrite (proj2 (Z.ltb_lt (zlen payload) _)) by lia.
Qed.

Lemma CayenneBuildDataPayload_exact_witness :
  CayenneBuildDataPayload (replicate 12 9) 12 (Some (bytes "temp"))
    [{| unit := Some (bytes "c"); value := Some (bytes "21.5") |}] =
  Ok (CAYENNE_SUCCESS, 11, bytes "temp,c=21.5" ++ [0]).
Proof.
  apply (CayenneBuildDataPayload_exact (replicate 12 9) (bytes "temp")
    [{| unit := Some (bytes "c"); value := Some (bytes "21.5") |}]); [decide_vm|done| |decide_vm|].
  - constructor; [split; decide_vm|constructor].
  - left. constructor; [by eexists|constructor].
Defined.

(** ** Command payloads *)

Definition no_pair : ParsedPair := {| p_unit := None; p_value := None |}.

(** The scan up to the first comma of a payload without a token. *)
Lemma parse_loop_comma id val size vs fuel :
  Forall (λ c, 0 < c ∧ c ≠ COMMA) id → (length id < fuel)%nat → 1 ≤ size → vs !! 0%nat = Some no_pair →
  ∀ pre, parse_loop fuel size 1 0 (zlen pre) 0 true
    {| ps_payload := pre ++ id ++ COMMA :: val; ps_values := vs; ps_type := None |} =
  Ok {| ps_payload := pre ++ id ++ 0 :: val;
        ps_values := <[0%nat := {| p_unit := None; p_value := Some (zlen pre + zlen id + 1) |}]> vs;
        ps_type := Some 0 |}.
Proof.
  intros Hid Hf Hsz Hvs. revert fuel Hf. induction Hid as [|c id [Hc1 Hc2] _ IH]; intros fuel Hf pre;
    (destruct fuel as [|fuel]; [cbn [length] in Hf; lia|]); cbn [parse_loop ps_payload ps_values app];
    rewrite load_app; cbn [mbind outcome_bind].
  - change (COMMA =? 0) with false. rewrite Z.eqb_refl. cbv iota.
    rewrite (proj2 (Z.ltb_lt 0 size)) by lia. unfold set_value.
    rewrite (index_lookup vs 0 _ Hvs : index vs 0 = Ok no_pair). cbn [mbind outcome_bind].
    rewrite store_app. cbn [mbind outcome_bind Z.eqb]. do 4 f_equal. cbn [length p_unit no_pair].
    do 2 f_equal. lia.
  - rewrite (proj2 (Z.eqb_neq c 0)), (proj2 (Z.eqb_neq c COMMA)) by lia. rewrite andb_false_r.
    cbn [length] in Hf. specialize (IH fuel ltac:(lia) (pre ++ [c])).
    rewrite length_app, <- !app_assoc in IH. cbn [app length] in IH.
    replace (Z.of_nat (length pre + 1)) with (zlen pre + 1) in IH by lia. rewrite IH.
    cbn [length]. do 4 f_equal. do 2 f_equal. lia.
Qed.

(** Without a comma nothing is changed. *)
Lemma parse_loop_none id rest size vs fuel :
  Forall (λ c, 0 < c ∧ c ≠ COMMA) id → (length id < fuel)%nat →
  ∀ pre, parse_loop fuel size 1 0 (zlen pre) 0 true
    {| ps_payload := pre ++ id ++ 0 :: rest; ps_values := vs; ps_type := None |} =
  Ok {| ps_payload := pre ++ id ++ 0 :: rest; ps_values := vs; ps_type := None |}.
Proof.
  intros Hid Hf. revert fuel Hf. induction Hid as [|c id [Hc1 Hc2] _ IH]; intros fuel Hf pre;
    (destruct fuel as [|fuel]; [cbn [length] in Hf; lia|]); cbn [parse_loop ps_payload ps_values app];
    rewrite load_app; cbn [mbind outcome_bind]; [done|].
  rewrite (proj2 (Z.eqb_neq c 0)), (proj2 (Z.eqb_neq c COMMA)) by lia. rewrite andb_false_r.
  cbn [length] in Hf. specialize (IH fuel ltac:(lia) (pre ++ [c])).
  rewrite length_app, <- !app_assoc in IH. cbn [app length] in IH.
  by replace (Z.of_nat (length pre + 1)) with (zlen pre + 1) in IH by lia.
Qed.

Lemma cleared_head n l :
  1 ≤ n → (replicate (Z.to_nat n) no_pair ++ drop (Z.to_nat n) l) !! 0%nat = Some no_pair.
Proof.
  intros. rewrite lookup_app_l, lookup_replicate_2; [done|lia|rewrite length_replicate; lia].
Qed.

Lemma parse_command_comma id rest o :
  Forall (λ c, 0 < c ∧ c ≠ COMMA) id → pp_payload o = id ++ COMMA :: rest →
  1 ≤ pp_valuesSize o ≤ zlen (pp_values o) →
  let cleared := replicate (Z.to_nat (pp_valuesSize o)) no_pair ++
                 drop (Z.to_nat (pp_valuesSize o)) (pp_values o) in
  CayenneParsePayload o COMMAND_TOPIC =
  Ok (CAYENNE_SUCCESS,
    {| pp_values := <[0%nat := {| p_unit := None; p_value := Some (zlen id + 1) |}]> cleared;
       pp_valuesSize := 1; pp_type := None; pp_id := Some 0; pp_payload := id ++ 0 :: rest |}).
Proof.
  intros Hid Hp Hsz cleared. unfold CayenneParsePayload, clear_pairs.
  rewrite (proj2 (Z.eqb_neq (pp_valuesSize o) 0)), (proj2 (Z.ltb_ge _ _)) by lia.
  cbn [mbind outcome_bind]. fold no_pair cleared. unfold parsePayload.
  pose proof (cleared_head (pp_valuesSize o) (pp_values o) ltac:(lia)) as H0. fold cleared in H0.
  rewrite (index_lookup cleared 0 _ H0 : index cleared 0 = Ok no_pair). cbn [mbind outcome_bind].
  fold no_pair. rewrite (list_insert_id cleared 0 no_pair H0), Hp.
  assert (Hf : (length id < S (length (id ++ COMMA :: rest)))%nat) by (rewrite length_app; lia).
  change (0 =? 0) with true.
  pose proof (parse_loop_comma id rest (pp_valuesSize o) cleared _ Hid Hf ltac:(lia) H0 []) as E.
  cbn [app length] in E. change (Z.of_nat 0) with 0 in E. rewrite E. cbn [mbind outcome_bind ps_values].
  set (vs := <[0%nat := _]> cleared).
  assert (Hv : index vs 0 = Ok {| p_unit := None; p_value := Some (0 + zlen id + 1) |}).
  { apply (index_lookup vs 0). unfold vs. apply list_lookup_insert_eq. by apply lookup_lt_Some in H0. }
  rewrite Hv. cbn [mbind outcome_bind p_value]. unfold whole_payload. by rewrite Hv.
Qed.

Lemma parse_command_none id rest o :
  Forall (λ c, 0 < c ∧ c ≠ COMMA) id → pp_payload o = id ++ 0 :: rest →
  1 ≤ pp_valuesSize o ≤ zlen (pp_values o) →
  let cleared := replicate (Z.to_nat (pp_valuesSize o)) no_pair ++
                 drop (Z.to_nat (pp_valuesSize o)) (pp_values o) in
  CayenneParsePayload o COMMAND_TOPIC =
  Ok (CAYENNE_FAILURE,
    {| pp_values := cleared; pp_valuesSize := 1; pp_type := None; pp_id := None;
       pp_payload := id ++ 0 :: rest |}).
Proof.
  intros Hid Hp Hsz cleared. unfold CayenneParsePayload, clear_pairs.
  rewrite (proj2 (Z.eqb_neq (pp_valuesSize o) 0)), (proj2 (Z.ltb_ge _ _)) by lia.
  cbn [mbind outcome_bind]. fold no_pair cleared. unfold parsePayload.
  pose proof (cleared_head (pp_valuesSize o) (pp_values o) ltac:(lia)) as H0. fold cleared in H0.
  rewrite (index_lookup cleared 0 _ H0 : index cleared 0 = Ok no_pair). cbn [mbind outcome_bind].
  fold no_pair. rewrite (list_insert_id cleared 0 no_pair H0), Hp.
  assert (Hf : (length id < S (length (id ++ (0 :: rest)%Z)))%nat) by (rewrite length_app; lia).
  change (0 =? 0) with true.
  pose proof (parse_loop_none id rest (pp_valuesSize o) cleared _ Hid Hf []) as E.
  cbn [app length] in E. change (Z.of_nat 0) with 0 in E. rewrite E. cbn [mbind outcome_bind ps_values].
  by rewrite (index_lookup cleared 0 _ H0 : index cleared 0 = Ok no_pair).
Qed.

(** Command payloads: "id,value" is split in place at its first comma, which
    becomes the terminator of the id; the id is found at the start of the
    payload and the value, as the only one, behind the comma.  A payload
    without a comma is refused. *)
Theorem CayenneParsePayload_command (id rest : list Z) (sep : Z) (o : parsed_payload) :
  Forall (λ c, 0 < c ∧ c ≠ COMMA) id → pp_payload o = id ++ sep :: rest →
  1 ≤ pp_valuesSize o ≤ zlen (pp_values o) → sep = COMMA ∨ sep = 0 →
  let cleared := replicate (Z.to_nat (pp_valuesSize o)) no_pair ++
                 drop (Z.to_nat (pp_valuesSize o)) (pp_values o) in
  CayenneParsePayload o COMMAND_TOPIC =
  if sep =? COMMA then
    Ok (CAYENNE_SUCCESS,
      {| pp_values := <[0%nat := {| p_unit := None; p_value := Some (zlen id + 1) |}]> cleared;
         pp_valuesSize := 1; pp_type := None; pp_id := Some 0; pp_payload := id ++ 0 :: rest |})
  else
    Ok (CAYENNE_FAILURE,
      {| pp_values := cleared; pp_valuesSize := 1; pp_type := None; pp_id := None;
         pp_payload := id ++ 0 :: rest |}).
Proof.
  intros Hid Hp Hsz [-> | ->] cleared; [by apply parse_command_comma|by apply parse_command_none].
Qed.

Lemma CayenneParsePayload_command_witness :
  CayenneParsePayload {| pp_values := replicate 4 {| p_unit := Some 3; p_value := Some 4 |};
      pp_valuesSize := 4; pp_type := None; pp_id := None;
      pp_payload := bytes "7,on" ++ [0] |} COMMAND_TOPIC =
  Ok (CAYENNE_SUCCESS,
    {| pp_values := {| p_unit := None; p_value := Some 2 |} :: replicate 3 no_pair;
       pp_valuesSize := 1; pp_type := None; pp_id := Some 0;
       pp_payload := [55; 0] ++ bytes "on" ++ [0] |}).
Proof.
  apply (CayenneParsePayload_command (bytes "7") (bytes "on" ++ [0]) COMMA
    {| pp_values := replicate 4 {| p_unit := Some 3; p_value := Some 4 |};
       pp_valuesSize := 4; pp_type := None; pp_id := None; pp_payload := bytes "7,on" ++ [0] |});
    [decide_vm|done|decide_vm|by left].
Defined.
