(* ===== verification/CayenneDataArray.v ===== *)
(** * CayenneDataArray.c: the array of unit/value pairs of a message

    Models [src/main/src/CayenneUtils/CayenneDataArray.c].  The strings of the
    pairs are stored one behind the other in the caller's buffer; the pointers
    to them are offsets in it.  The theorem at the end is a refinement: the
    array behaves as the list of the pairs it accepted. *)

From S2P Require Import Prelude CString CayenneUtils.

Definition CAYENNE_MAX_MESSAGE_VALUES : Z := 4.

Record CayenneDataArray := {
  da_values : list ParsedPair; da_valueCount : Z;
  da_buffer : list Z; da_bufferSize : Z; da_bufferIndex : Z }.

Definition da_set_pair (i : Z) (p : ParsedPair) (d : CayenneDataArray) : outcome CayenneDataArray :=
  if decide (0 ≤ i < zlen (da_values d)) then
    Ok {| da_values := <[Z.to_nat i := p]> (da_values d); da_valueCount := da_valueCount d;
          da_buffer := da_buffer d; da_bufferSize := da_bufferSize d;
          da_bufferIndex := da_bufferIndex d |}
  else Fault OobWrite.

(** The structure is the caller's; its array keeps what it held. *)
Definition CayenneDataArrayInit (buffer : list Z) (bufferSize : Z) : M CayenneDataArray () :=
  modify (λ d, {| da_values := da_values d; da_valueCount := 0; da_buffer := buffer;
                  da_bufferSize := bufferSize; da_bufferIndex := 0 |}).

(** One string of a pair: the copy behind the strings stored so far, and the
    pointer to it. *)
Definition da_put (s : option (list Z)) : M CayenneDataArray (option Z) :=
  match s with
  | None => mret None
  | Some str =>
      d ← get;
      b ← lift (store_bytes (da_buffer d) (da_bufferIndex d) (str ++ [0]));
      put {| da_values := da_values d; da_valueCount := da_valueCount d; da_buffer := b;
             da_bufferSize := da_bufferSize d;
             da_bufferIndex := u32 (da_bufferIndex d + (zlen str + 1)) |} ;;
      mret (Some (da_bufferIndex d))
  end.

Definition CayenneDataArrayAdd (unit value : option (list Z)) : M CayenneDataArray Z :=
  d ← get;
  if CAYENNE_MAX_MESSAGE_VALUES <=? da_valueCount d then mret CAYENNE_FAILURE else
  let unitLength := opt_len unit in
  let valueLength := opt_len value in
  if da_bufferSize d <? u32 (da_bufferIndex d + unitLength + valueLength) then mret CAYENNE_FAILURE else
  u ← da_put unit;
  v ← da_put value;
  d ← get;
  d ← lift (da_set_pair (da_valueCount d) {| p_unit := u; p_value := v |} d);
  put {| da_values := da_values d; da_valueCount := u32 (da_valueCount d + 1);
         da_buffer := da_buffer d; da_bufferSize := da_bufferSize d;
         da_bufferIndex := da_bufferIndex d |} ;;
  mret CAYENNE_SUCCESS.

(** [int] and [long] have four bytes on this target. *)
Definition CayenneDataArrayAddInt (unit : option (list Z)) (value : Z) : M CayenneDataArray Z :=
  CayenneDataArrayAdd unit (Some (snprintf_str (2 + 8 * 4) (sdec value))).

Definition CayenneDataArrayAddUInt (unit : option (list Z)) (value : Z) : M CayenneDataArray Z :=
  CayenneDataArrayAdd unit (Some (snprintf_str (1 + 8 * 4) (udec value))).

Definition CayenneDataArrayAddLong (unit : option (list Z)) (value : Z) : M CayenneDataArray Z :=
  CayenneDataArrayAdd unit (Some (snprintf_str (2 + 8 * 4) (sdec value))).

Definition CayenneDataArrayAddULong (unit : option (list Z)) (value : Z) : M CayenneDataArray Z :=
  CayenneDataArrayAdd unit (Some (snprintf_str (1 + 8 * 4) (udec value))).

Definition CayenneDataArrayAddDouble (unit : option (list Z)) (value : double) : M CayenneDataArray Z :=
  CayenneDataArrayAdd unit (Some (snprintf_str 33 (fixed3 value))).

(** A [float] argument is promoted to [double]. *)
Definition CayenneDataArrayAddFloat (unit : option (list Z)) (value : double) : M CayenneDataArray Z :=
  CayenneDataArrayAdd unit (Some (snprintf_str 33 (fixed3 value))).

Definition CayenneDataArrayClear : M CayenneDataArray () :=
  d ← get;
  b ← lift (store_bytes (da_buffer d) 0 (replicate (Z.to_nat (da_bufferSize d)) 0));
  put {| da_values := da_values d; da_valueCount := 0; da_buffer := b;
         da_bufferSize := da_bufferSize d; da_bufferIndex := 0 |}.

(** A call of the interface. *)
Inductive da_call :=
| DaAdd (unit value : option (list Z))
| DaInt (unit : option (list Z)) (value : Z)
| DaUInt (unit : option (list Z)) (value : Z)
| DaLong (unit : option (list Z)) (value : Z)
| DaULong (unit : option (list Z)) (value : Z)
| DaDouble (unit : option (list Z)) (value : double)
| DaFloat (unit : option (list Z)) (value : double)
| DaClear.

Definition run_da (c : da_call) : M CayenneDataArray Z :=
  match c with
  | DaAdd u v => CayenneDataArrayAdd u v
  | DaInt u v => CayenneDataArrayAddInt u v
  | DaUInt u v => CayenneDataArrayAddUInt u v
  | DaLong u v => CayenneDataArrayAddLong u v
  | DaULong u v => CayenneDataArrayAddULong u v
  | DaDouble u v => CayenneDataArrayAddDouble u v
  | DaFloat u v => CayenneDataArrayAddFloat u v
  | DaClear => CayenneDataArrayClear ;; mret CAYENNE_SUCCESS
  end.

Fixpoint run_das (l : list da_call) : M CayenneDataArray (list Z) :=
  match l with
  | [] => mret []
  | c :: l => rc ← run_da c; rcs ← run_das l; mret (rc :: rcs)
  end.

(** The pairs as a reader of the array sees them. *)
Definition read_opt (b : list Z) (p : option Z) : outcome (option (list Z)) :=
  match p with None => Ok None | Some off => s ← cstr_at b off; Ok (Some s) end.

Definition read_pair (b : list Z) (p : ParsedPair) : outcome CayenneValuePair :=
  u ← read_opt b (p_unit p); v ← read_opt b (p_value p); Ok {| unit := u; value := v |}.

Fixpoint read_pairs (b : list Z) (l : list ParsedPair) : outcome (list CayenneValuePair) :=
  match l with
  | [] => Ok []
  | p :: l => x ← read_pair b p; xs ← read_pairs b l; Ok (x :: xs)
  end.

Definition da_pairs (d : CayenneDataArray) : outcome (list CayenneValuePair) :=
  read_pairs (da_buffer d) (take (Z.to_nat (da_valueCount d)) (da_values d)).

(** ** The abstract array *)

Definition pair_size (p : CayenneValuePair) : Z := opt_len (unit p) + opt_len (value p).

Definition used (l : list CayenneValuePair) : Z := foldr (λ p n, pair_size p + n) 0 l.

(** The pair a call offers, [None] for the call that empties the array. *)
Definition call_pair (c : da_call) : option CayenneValuePair :=
  let pair u s := Some {| unit := u; value := Some s |} in
  match c with
  | DaAdd u v => Some {| unit := u; value := v |}
  | DaInt u z | DaLong u z => pair u (sdec z)
  | DaUInt u z | DaULong u z => pair u (udec z)
  | DaDouble u x | DaFloat u x => pair u (take 32 (fixed3 x))
  | DaClear => None
  end.

(** An array in [size] bytes takes a pair if it holds fewer than four and the
    strings of all of them fit. *)
Definition spec_call (size : Z) (l : list CayenneValuePair) (c : da_call) : Z * list CayenneValuePair :=
  match call_pair c with
  | None => (CAYENNE_SUCCESS, [])
  | Some p => if (zlen l <? 4) && (used l + pair_size p <=? size)
              then (CAYENNE_SUCCESS, l ++ [p]) else (CAYENNE_FAILURE, l)
  end.

Fixpoint spec_calls (size : Z) (l : list CayenneValuePair) (cs : list da_call) :
    list Z * list CayenneValuePair :=
  match cs with
  | [] => ([], l)
  | c :: cs => let '(rc, l) := spec_call size l c in
               let '(rcs, l) := spec_calls size l cs in (rc :: rcs, l)
  end.

(** ** The layout of the buffer *)

Definition opt_bytes (s : option (list Z)) : list Z := match s with Some l => l ++ [0] | None => [] end.

Definition encode (l : list CayenneValuePair) : list Z :=
  concat ((λ p, opt_bytes (unit p) ++ opt_bytes (value p)) <$> l).

Definition opt_ptr (off : Z) (s : option (list Z)) : option Z := (λ _, off) <$> s.

Fixpoint offsets (off : Z) (l : list CayenneValuePair) : list ParsedPair :=
  match l with
  | [] => []
  | p :: l => {| p_unit := opt_ptr off (unit p); p_value := opt_ptr (off + opt_len (unit p)) (value p) |}
              :: offsets (off + pair_size p) l
  end.

Lemma opt_bytes_length s : zlen (opt_bytes s) = opt_len s.
Proof. destruct s; cbn [opt_bytes opt_len]; [rewrite length_app; cbn [length]; lia|done]. Qed.

Lemma opt_len_nonneg s : 0 ≤ opt_len s.
Proof. destruct s; cbn; lia. Qed.

Lemma pair_size_nonneg p : 0 ≤ pair_size p.
Proof. unfold pair_size. pose proof (opt_len_nonneg (unit p)). pose proof (opt_len_nonneg (value p)). lia. Qed.

Lemma used_nonneg l : 0 ≤ used l.
Proof. unfold used. induction l as [|p l IH]; cbn [foldr]; [lia|]. pose proof (pair_size_nonneg p). lia. Qed.

Lemma used_app l k : used (l ++ k) = used l + used k.
Proof. unfold used. induction l as [|p l IH]; cbn [app foldr]; [done|]. rewrite IH. lia. Qed.

Lemma encode_app l k : encode (l ++ k) = encode l ++ encode k.
Proof. unfold encode. by rewrite fmap_app, concat_app. Qed.

Lemma encode_length l : zlen (encode l) = used l.
Proof.
  induction l as [|p l IH]; [done|]. change (p :: l) with ([p] ++ l).
  rewrite encode_app, used_app, length_app, Nat2Z.inj_add, IH. f_equal.
  unfold encode. cbn [fmap list_fmap concat]. rewrite app_nil_r, length_app, Nat2Z.inj_add, !opt_bytes_length.
  cbn. unfold pair_size. lia.
Qed.

Lemma offsets_app off l k : offsets off (l ++ k) = offsets off l ++ offsets (off + used l) k.
Proof.
  unfold used. revert off. induction l as [|p l IH]; intros off; cbn [app offsets foldr].
  - by rewrite Z.add_0_r.
  - rewrite IH. do 3 f_equal. lia.
Qed.

Lemma offsets_length off l : length (offsets off l) = length l.
Proof. revert off. induction l as [|p l IH]; intros off; cbn; [done|]. by rewrite IH. Qed.

Lemma read_opt_app pre s rest :
  from_option is_cstring True s →
  read_opt (pre ++ opt_bytes s ++ rest) (opt_ptr (zlen pre) s) = Ok s.
Proof.
  destruct s as [s|]; [|done]. cbn [from_option opt_bytes]. intros Hs.
  change (opt_ptr (zlen pre) (Some s)) with (Some (zlen pre)). unfold read_opt, cstr_at. rewrite decide_True by lia.
  rewrite Nat2Z.id, drop_app_length, <- app_assoc. cbn [app]. by rewrite cstr_app.
Qed.

Definition strings_ok (p : CayenneValuePair) : Prop :=
  from_option is_cstring True (unit p) ∧ from_option is_cstring True (value p).

Lemma read_pairs_app l pre rest :
  Forall strings_ok l → read_pairs (pre ++ encode l ++ rest) (offsets (zlen pre) l) = Ok l.
Proof.
  intros Hl. revert pre. induction Hl as [|[u v] l [Hu Hv] _ IH]; intros pre; [done|].
  cbn [unit value] in *. change (?p :: l) with ([p] ++ l). rewrite encode_app.
  replace (pre ++ (encode [{| unit := u; value := v |}] ++ encode l) ++ rest)
    with ((pre ++ encode [{| unit := u; value := v |}]) ++ encode l ++ rest) by by rewrite !app_assoc.
  cbn [app offsets read_pairs unit value].
  specialize (IH (pre ++ encode [{| unit := u; value := v |}])).
  rewrite length_app, Nat2Z.inj_add, encode_length in IH. unfold used in IH. cbn [foldr] in IH.
  rewrite Z.add_0_r in IH. rewrite IH. unfold read_pair. cbn [p_unit p_value].
  unfold encode. cbn [fmap list_fmap concat unit value]. rewrite app_nil_r.
  pose proof (read_opt_app pre u (opt_bytes v ++ concat ((λ p, opt_bytes (unit p) ++ opt_bytes (value p)) <$> l) ++ rest) Hu) as H1.
  pose proof (read_opt_app (pre ++ opt_bytes u) v (concat ((λ p, opt_bytes (unit p) ++ opt_bytes (value p)) <$> l) ++ rest) Hv) as H2.
  rewrite length_app, Nat2Z.inj_add, opt_bytes_length in H2.
  rewrite <- !app_assoc in *. rewrite H1. cbn [mbind outcome_bind]. rewrite H2. done.
Qed.

(** ** Refinement *)

(** The array [d] in [size] bytes holds the pairs [l]. *)
Record holds (size : Z) (l : list CayenneValuePair) (d : CayenneDataArray) : Prop := {
  h_count : da_valueCount d = zlen l;
  h_max : zlen l ≤ 4;
  h_values : zlen (da_values d) = 4;
  h_pairs : take (length l) (da_values d) = offsets 0 l;
  h_size : da_bufferSize d = size;
  h_buffer : zlen (da_buffer d) = size;
  h_stored : ∃ rest, da_buffer d = encode l ++ rest;
  h_index : da_bufferIndex d = used l;
  h_ok : Forall strings_ok l }.

Lemma holds_used size l d : holds size l d → used l ≤ size.
Proof.
  intros H. destruct (h_stored _ _ _ H) as [rest E]. rewrite <- (h_buffer _ _ _ H), E, length_app.
  pose proof (encode_length l). lia.
Qed.

Lemma holds_read size l d : holds size l d → da_pairs d = Ok l.
Proof.
  intros H. unfold da_pairs. rewrite (h_count _ _ _ H), Nat2Z.id, (h_pairs _ _ _ H).
  destruct (h_stored _ _ _ H) as [rest ->].
  apply (read_pairs_app l [] rest), H.
Qed.

Lemma da_put_spec s pre rest vs n size :
  opt_len s ≤ zlen rest → zlen pre + zlen rest < 4294967296 →
  da_put s {| da_values := vs; da_valueCount := n; da_buffer := pre ++ rest; da_bufferSize := size;
              da_bufferIndex := zlen pre |} =
  Ok (opt_ptr (zlen pre) s,
      {| da_values := vs; da_valueCount := n;
         da_buffer := (pre ++ opt_bytes s) ++ drop (length (opt_bytes s)) rest; da_bufferSize := size;
         da_bufferIndex := zlen (pre ++ opt_bytes s) |}).
Proof.
  intros Hs Hu. destruct s as [s|]; cbn [da_put opt_bytes].
  - unfold mbind, M_bind, get, lift, put, mret, M_ret. cbn [da_buffer da_bufferIndex da_values da_valueCount da_bufferSize].
    cbn [opt_len] in Hs.
    rewrite <- (take_drop (length (s ++ [0])) rest) at 1.
    rewrite store_bytes_app by (rewrite length_take, length_app; cbn [length]; lia).
    rewrite app_assoc. do 3 f_equal. unfold u32. rewrite Z.mod_small by lia.
    rewrite !length_app. cbn [length]. lia.
  - unfold mret, M_ret. by rewrite app_nil_r.
Qed.

Definition pair_bytes_ok (size : Z) (p : CayenneValuePair) : Prop :=
  strings_ok p ∧ size + pair_size p < 4294967296.

(** The array after a pair was put behind the pairs [l]. *)
Lemma holds_snoc size l u v vs rest :
  let pu := encode l ++ opt_bytes u in
  let rest1 := drop (length (opt_bytes u)) rest in
  zlen l < 4 → zlen vs = 4 → take (length l) vs = offsets 0 l →
  zlen (encode l ++ rest) = size → opt_len u + opt_len v ≤ zlen rest →
  Forall strings_ok l → strings_ok {| unit := u; value := v |} →
  holds size (l ++ [{| unit := u; value := v |}])
    {| da_values := <[Z.to_nat (zlen l) :=
         {| p_unit := opt_ptr (zlen (encode l)) u; p_value := opt_ptr (zlen pu) v |}]> vs;
       da_valueCount := u32 (zlen l + 1);
       da_buffer := (pu ++ opt_bytes v) ++ drop (length (opt_bytes v)) rest1;
       da_bufferSize := size; da_bufferIndex := zlen (pu ++ opt_bytes v) |}.
Proof.
  intros pu rest1 Hroom Hv Hpairs Hb Hfit Hs Hok. subst pu rest1.
  assert (He : encode (l ++ [{| unit := u; value := v |}]) = (encode l ++ opt_bytes u) ++ opt_bytes v).
  { rewrite encode_app. unfold encode at 2. cbn [fmap list_fmap concat unit value].
    by rewrite app_nil_r, app_assoc. }
  pose proof (encode_length l) as Hel. pose proof (opt_bytes_length u) as Hbu.
  pose proof (opt_bytes_length v) as Hbv. rewrite length_app in Hb.
  split; cbn [da_values da_valueCount da_buffer da_bufferSize da_bufferIndex].
  - rewrite length_app. unfold u32. rewrite Z.mod_small by lia. cbn [length]. lia.
  - rewrite length_app. cbn [length]. lia.
  - by rewrite length_insert.
  - rewrite Nat2Z.id, length_app. cbn [length]. rewrite Nat.add_1_r.
    rewrite (take_S_r _ _ {| p_unit := opt_ptr (zlen (encode l)) u;
      p_value := opt_ptr (zlen (encode l ++ opt_bytes u)) v |}) by (apply list_lookup_insert_eq; lia).
    rewrite take_insert_ge, Hpairs, offsets_app by lia. f_equal. cbn [offsets unit value].
    by rewrite length_app, Nat2Z.inj_add, Hbu, Hel.
  - done.
  - rewrite !length_app, !length_drop. lia.
  - eexists. rewrite He. reflexivity.
  - by rewrite <- encode_length, He.
  - apply Forall_app. split; [done|]. by constructor.
Qed.

(** Past its two guards, [CayenneDataArrayAdd] stores the pair. *)
Lemma add_stores size l d u v :
  let p := {| unit := u; value := v |} in
  holds size l d → pair_bytes_ok size p → zlen l < 4 → used l + pair_size p ≤ size →
  ∃ d', CayenneDataArrayAdd u v d = Ok (CAYENNE_SUCCESS, d') ∧ holds size (l ++ [p]) d'.
Proof.
  intros p [Hn Hm Hv Hpairs Hsz Hb [rest Hst] Hix Hs] [Hok Hbig] Hroom Hfit.
  destruct d as [vs n b sz ix].
  cbn [da_values da_valueCount da_buffer da_bufferSize da_bufferIndex] in *.
  pose proof (encode_length l) as Hel. pose proof (opt_len_nonneg u). pose proof (opt_len_nonneg v).
  pose proof (opt_bytes_length u) as Hbu. pose proof (opt_bytes_length v) as Hbv.
  pose proof (used_nonneg l). unfold pair_size in *. subst p. cbn [unit value] in *.
  subst n sz b ix. pose proof Hb as Hb'. rewrite length_app in Hb'. rewrite <- Hel in *.
  unfold CayenneDataArrayAdd, CAYENNE_MAX_MESSAGE_VALUES. unfold mbind, M_bind, get.
  cbn [da_values da_valueCount da_buffer da_bufferSize da_bufferIndex].
  rewrite (proj2 (Z.leb_gt 4 (zlen l))) by lia.
  rewrite (proj2 (Z.ltb_ge size _)) by (unfold u32; rewrite Z.mod_small; lia).
  rewrite da_put_spec by lia.
  rewrite da_put_spec by (rewrite ?length_app, length_drop; lia).
  unfold lift, put, da_set_pair. cbn [da_values da_valueCount da_buffer da_bufferSize da_bufferIndex].
  rewrite decide_True by lia. eexists. split; [done|]. apply holds_snoc; try done; lia.
Qed.

(** The step of the refinement: adding a pair. *)
Lemma add_refines size l d u v :
  let p := {| unit := u; value := v |} in
  holds size l d → pair_bytes_ok size p →
  let '(rc, l') := if (zlen l <? 4) && (used l + pair_size p <=? size)
                   then (CAYENNE_SUCCESS, l ++ [p]) else (CAYENNE_FAILURE, l) in
  ∃ d', CayenneDataArrayAdd u v d = Ok (rc, d') ∧ holds size l' d'.
Proof.
  intros p H Hp. destruct (Z.ltb_spec (zlen l) 4) as [Hroom|Hfull];
    [destruct (Z.leb_spec (used l + pair_size p) size) as [Hfit|Hno]|]; cbn [andb].
  { by apply add_stores. }
  all: exists d; split; [|done]; unfold CayenneDataArrayAdd, CAYENNE_MAX_MESSAGE_VALUES, mbind, M_bind, get.
  all: rewrite (h_count _ _ _ H).
  - rewrite (proj2 (Z.leb_gt 4 (zlen l))) by lia.
    rewrite (proj2 (Z.ltb_lt _ _)); [done|]. destruct Hp as [_ Hbig].
    rewrite (h_size _ _ _ H), (h_index _ _ _ H). pose proof (used_nonneg l).
    pose proof (holds_used _ _ _ H). pose proof (pair_size_nonneg p).
    unfold u32. rewrite Z.mod_small; unfold pair_size in *; subst p; cbn [unit value] in *; lia.
  - by rewrite (proj2 (Z.leb_le 4 (zlen l))) by lia.
Qed.

Lemma clear_refines size l d :
  holds size l d → ∃ d', CayenneDataArrayClear d = Ok ((), d') ∧ holds size [] d'.
Proof.
  intros [Hn Hm Hv Hpairs Hsz Hb _ Hix _].
  unfold CayenneDataArrayClear, mbind, M_bind, get, lift, put. rewrite Hsz.
  unfold store_bytes. rewrite decide_True by (rewrite length_replicate; lia).
  eexists. split; [done|].
  split; cbn [da_values da_valueCount da_buffer da_bufferSize da_bufferIndex length]; try done; try lia.
  - rewrite !length_app, length_take, length_drop, length_replicate. lia.
  - by eexists.
Qed.

(** ** Numbers are stored in full *)

Lemma snprintf_str_fits size s : zlen s < size → snprintf_str size s = s.
Proof. intros. apply take_ge. lia. Qed.

Lemma snprintf_udec n size : 10 < size → snprintf_str size (udec n) = udec n.
Proof. intros. apply snprintf_str_fits. pose proof (udec_length n). lia. Qed.

Lemma snprintf_sdec n size : 11 < size → snprintf_str size (sdec n) = sdec n.
Proof.
  intros. apply snprintf_str_fits. unfold sdec.
  destruct (n <? 0); cbn [length]; pose proof (udec_length n); pose proof (udec_length (- n)); lia.
Qed.

(** The arguments of a call: C strings, numbers of their type, and sizes that
    do not wrap around. *)
Definition call_ok (size : Z) (c : da_call) : Prop :=
  match c with
  | DaAdd u v => from_option is_cstring True v
  | DaInt _ _ | DaLong _ _ | DaClear => True
  | DaUInt _ z | DaULong _ z => 0 ≤ z ≤ ULONG_MAX
  | DaDouble _ x | DaFloat _ x => double_ok x
  end ∧
  match call_pair c with
  | Some p => from_option is_cstring True (unit p) ∧ size + pair_size p < 4294967296
  | None => True
  end.

Lemma call_refines size l d c :
  holds size l d → call_ok size c →
  let '(rc, l') := spec_call size l c in ∃ d', run_da c d = Ok (rc, d') ∧ holds size l' d'.
Proof.
  intros H [Hv Hc]. destruct c as [u v|u z|u z|u z|u z|u x|u x|]; cbn [call_pair unit] in *;
    unfold spec_call; cbn [call_pair].
  8: { destruct (clear_refines size l d H) as (d' & E & H'). exists d'. split; [|done].
       cbn [run_da]. unfold mbind, M_bind. by rewrite E. }
  all: destruct Hc as [Hu Hbig]; cbn [run_da];
    unfold CayenneDataArrayAddInt, CayenneDataArrayAddUInt, CayenneDataArrayAddLong,
      CayenneDataArrayAddULong, CayenneDataArrayAddDouble, CayenneDataArrayAddFloat;
    rewrite ?snprintf_udec, ?snprintf_sdec by lia.
  all: apply add_refines; [done|]; repeat split; cbn [unit value from_option]; try done.
  all: first [apply sdec_cstring | apply udec_cstring; lia | by apply Forall_take, fixed3_cstring].
Qed.

(** [C12] The data array refines a bounded list of pairs: after
    [CayenneDataArrayInit] on a buffer and any sequence of calls (adding a pair
    of strings, an integer of any type, a floating point number, or clearing),
    no access leaves the buffer, every call returns the code of the abstract
    array (success exactly when there were fewer than four pairs and the
    strings with their terminators fit), and a reader that follows the stored
    pointers sees exactly the accepted pairs, in order, each with the text that
    was added. *)
Theorem data_array_refines (d0 : CayenneDataArray) (buffer : list Z) (cs : list da_call) :
  let size := zlen buffer in
  zlen (da_values d0) = CAYENNE_MAX_MESSAGE_VALUES → Forall (call_ok size) cs →
  let '(rcs, l) := spec_calls size [] cs in
  ∃ d, (CayenneDataArrayInit buffer size ;; run_das cs) d0 = Ok (rcs, d) ∧
       da_pairs d = Ok l ∧ da_valueCount d = zlen l ∧
       da_bufferIndex d = used l ∧ used l ≤ da_bufferSize d.
Proof.
  intros size Hv Hcs. set (d1 := {| da_values := da_values d0; da_valueCount := 0;
    da_buffer := buffer; da_bufferSize := size; da_bufferIndex := 0 |}).
  assert (H1 : holds size [] d1) by (split; cbn; try done; try lia; by eexists).
  change ((CayenneDataArrayInit buffer size ;; run_das cs) d0) with (run_das cs d1).
  clearbody d1. revert d1 H1. generalize ([] : list CayenneValuePair).
  induction Hcs as [|c cs Hc _ IH]; intros l d H; cbn [spec_calls run_das].
  - exists d. split; [done|]. split; [by eapply holds_read|].
    rewrite (h_count _ _ _ H), (h_index _ _ _ H), (h_size _ _ _ H). pose proof (holds_used _ _ _ H). done.
  - pose proof (call_refines size l d c H Hc) as Hr. destruct (spec_call size l c) as [rc l'].
    destruct Hr as (d' & E & H'). specialize (IH l' d' H'). destruct (spec_calls size l' cs) as [rcs l''].
    destruct IH as (d'' & E' & Hd). exists d''. split; [|done].
    unfold mbind, M_bind. by rewrite E, E'.
Qed.

Lemma data_array_refines_witness :
  let d0 := {| da_values := replicate 4 no_pair; da_valueCount := 7; da_buffer := [];
               da_bufferSize := 0; da_bufferIndex := 9 |} in
  let cs := [DaInt (Some (bytes "c")) (-12); DaDouble None (Finite false 21 (-1));
             DaAdd (Some (bytes "toolong")) (Some (bytes "12345"))] in
  let '(rcs, l) := spec_calls 16 [] cs in
  ∃ d, (CayenneDataArrayInit (replicate 16 0) 16 ;; run_das cs) d0 = Ok (rcs, d) ∧
       da_pairs d = Ok l ∧ da_valueCount d = zlen l ∧
       da_bufferIndex d = used l ∧ used l ≤ da_bufferSize d.
Proof.
  intros d0 cs. refine (data_array_refines d0 (replicate 16 0) cs _ _).
  - reflexivity.
  - repeat (apply Forall_cons; split); try apply Forall_nil; repeat split;
      try decide_vm; vm_compute; congruence.
Defined.
