(* ===== verification/CayenneMQTTClient.v ===== *)
(** * CayenneMQTTClient.c: the Cayenne client

    Models [src/main/src/CayenneMQTTClient/CayenneMQTTClient.c] on top of the
    MQTT client.  The [CayenneMQTTClient] structure contains the [MQTTClient]
    and is what its [userData] points to, so it is the state [St] of
    MQTTClient.v with the remaining members, [CayenneData], as the user part.
    The MQTT client has one message handler, [MQTTMessageArrived], which this
    file defines; it implements the [Callbacks] interface of the MQTT client.
    The application's handlers are values of a type [CH]; what they do is a
    parameter, [run_cayenne]. *)

From S2P Require Import Prelude CString MQTTPacket MQTTConnect MQTTPublish Timer Network MQTTClient CayenneUtils CayenneDataArray.

Definition CAYENNE_MAX_MESSAGE_HANDLERS : Z := 5.

(** The message handlers of the MQTT client. *)
Inductive mqtt_handler := MQTTMessageArrived_fp.

(** The data handed to a handler; the pointers are offsets in the read buffer. *)
Record CayenneMessageData := {
  cm_clientID : option Z;
  cm_topic : CayenneTopic;
  cm_channel : Z;
  cm_id : option Z;
  cm_type : option Z;
  cm_values : list ParsedPair;
  cm_valueCount : Z }.

Record CayenneMessageHandlers (CH : Type) := {
  h_clientID : option (list Z);
  h_topic : CayenneTopic;
  h_channel : Z;
  h_fp : option CH }.
Arguments Build_CayenneMessageHandlers {CH}. Arguments h_clientID {CH}. Arguments h_topic {CH}.
Arguments h_channel {CH}. Arguments h_fp {CH}.

(** The members behind [mqttClient], and the application's own data [Y]. *)
Record CayenneData (CH Y : Type) := {
  y_username : option (list Z);
  y_password : option (list Z);
  y_clientID : option (list Z);
  y_messageHandlers : list (CayenneMessageHandlers CH);
  y_defaultMessageHandler : option CH;
  y_app : Y }.
Arguments Build_CayenneData {CH Y}. Arguments y_username {CH Y}. Arguments y_password {CH Y}.
Arguments y_clientID {CH Y}. Arguments y_messageHandlers {CH Y}.
Arguments y_defaultMessageHandler {CH Y}. Arguments y_app {CH Y}.

Definition CState (N Y CH : Type) : Type := St N (CayenneData CH Y) mqtt_handler.

(** The application's handlers, and what uninitialised locals hold. *)
Class CayenneCallbacks (N Y CH : Type) := {
  run_cayenne : CH → CayenneMessageData → M (CState N Y CH) ();
  stack_message : CayenneMessageData;
  stack_publish : publish_out;
  stack_packetid : Z }.

Section Arrived.
Context {N Y CH : Type} `{!CayenneCallbacks N Y CH}.
Abbreviation CM := (M (CState N Y CH)).

Definition yget {A} (f : CayenneData CH Y → A) : CM A := gets (λ s, f (user s)).
Definition set_table (l : list (CayenneMessageHandlers CH)) : CM () :=
  modify (λ s, MkSt (client s) (world s)
    (Build_CayenneData (y_username (user s)) (y_password (user s)) (y_clientID (user s)) l
       (y_defaultMessageHandler (user s)) (y_app (user s)))).

(** Memory of the read buffer from an offset on, and its update. *)
Definition read_memory (off : Z) : CM (list Z) :=
  gets (λ s, drop (Z.to_nat off) (c_readbuf (client s))).
Definition write_memory (off : Z) (mem : list Z) : CM () :=
  modify (λ s, MkSt (set_readbuf (take (Z.to_nat off) (c_readbuf (client s)) ++ mem) (client s))
                    (world s) (user s)).

(** [strcmp] of two pointers is zero. *)
Definition strcmp_eq (s1 s2 : option (list Z)) : outcome bool :=
  match s1, s2 with Some a, Some b => Ok (streq a b) | _, _ => Fault NullDeref end.

(** The string a member of the message points to. *)
Definition message_string (p : option Z) : CM (option (list Z)) :=
  b ← gets (λ s, c_readbuf (client s)); lift (read_opt b p).

(** [CayenneParseTopic] on the topic name in the read buffer. *)
Definition arrived_topic (t : MQTTString Z) : CM (Z * parsed_topic) :=
  username ← yget y_username;
  match data (lenstring t) with
  | None =>
      lift (CayenneParseTopic {| pt_topic := cm_topic stack_message;
        pt_channel := cm_channel stack_message; pt_clientID := cm_clientID stack_message;
        pt_mem := [] |} username None (u32 (len (lenstring t))))
  | Some off =>
      mem ← read_memory off;
      '(result, p) ← lift (CayenneParseTopic {| pt_topic := cm_topic stack_message;
        pt_channel := cm_channel stack_message; pt_clientID := cm_clientID stack_message;
        pt_mem := mem |} username (Some mem) (u32 (len (lenstring t))));
      write_memory off (pt_mem p) ;;
      mret (result, {| pt_topic := pt_topic p; pt_channel := pt_channel p;
                       pt_clientID := Z.add off <$> pt_clientID p; pt_mem := pt_mem p |})
  end.

(** Pointers relative to the payload as offsets in the read buffer. *)
Definition rebase (off : Z) (p : ParsedPair) : ParsedPair :=
  {| p_unit := Z.add off <$> p_unit p; p_value := Z.add off <$> p_value p |}.

(** [CayenneParsePayload] on the payload in the read buffer. *)
Definition arrived_payload (topic : CayenneTopic) (payload : Z) : CM (Z * parsed_payload) :=
  mem ← read_memory payload;
  '(result, p) ← lift (CayenneParsePayload
    {| pp_values := cm_values stack_message; pp_valuesSize := CAYENNE_MAX_MESSAGE_VALUES;
       pp_type := cm_type stack_message; pp_id := cm_id stack_message; pp_payload := mem |} topic);
  write_memory payload (pp_payload p) ;;
  mret (result, p).

(** The loop over the handler table. *)
Fixpoint arrived_loop (k : nat) (i : Z) (m : CayenneMessageData) (result : Z) : CM Z :=
  match k with
  | O => mret result
  | S k =>
      h ← yget y_messageHandlers ≫= λ l, lift (index l i);
      result ← match h_fp h with
        | Some g =>
            if bool_decide (h_topic h = cm_topic m) &&
               ((h_channel h =? cm_channel m) || (h_channel h =? CAYENNE_ALL_CHANNELS)) then
              id ← message_string (cm_clientID m);
              eq ← lift (strcmp_eq (h_clientID h) id);
              if eq : bool then run_cayenne g m ;; mret MQTT_SUCCESS else mret result
            else mret result
        | None => mret result
        end;
      arrived_loop k (i + 1) m result
  end.

(** The handlers of the message, the default one if there was none. *)
Definition arrived_dispatch (m : CayenneMessageData) : CM () :=
  result ← arrived_loop (Z.to_nat CAYENNE_MAX_MESSAGE_HANDLERS) 0 m MQTT_FAILURE;
  dflt ← yget y_defaultMessageHandler;
  match dflt with
  | Some g => if result =? MQTT_FAILURE then run_cayenne g m else mret ()
  | None => mret ()
  end.

(** [userData] is the client itself, so it is never NULL. *)
Definition MQTTMessageArrived (t : MQTTString Z) (msg : MQTTMessage Z) : CM () :=
  '(result, p) ← arrived_topic t;
  if negb (result =? CAYENNE_SUCCESS) then mret () else
  b ← gets (λ s, c_readbuf (client s));
  b ← lift (store b (m_payload msg + m_payloadlen msg) 0);
  modify (λ s, MkSt (set_readbuf b (client s)) (world s) (user s)) ;;
  '(result, q) ← arrived_payload (pt_topic p) (m_payload msg);
  if negb (result =? CAYENNE_SUCCESS) then mret () else
  arrived_dispatch {|
    cm_clientID := pt_clientID p; cm_topic := pt_topic p; cm_channel := pt_channel p;
    cm_id := Z.add (m_payload msg) <$> pp_id q; cm_type := Z.add (m_payload msg) <$> pp_type q;
    cm_values := rebase (m_payload msg) <$> pp_values q; cm_valueCount := pp_valuesSize q |}.

(** The interface the MQTT client calls back through. *)
#[export] Instance cayenne_callbacks : Callbacks N (CayenneData CH Y) mqtt_handler := {|
  run_handler h := match h with MQTTMessageArrived_fp => MQTTMessageArrived end;
  stack_out := stack_publish;
  stack_id := stack_packetid |}.
End Arrived.

Section CayenneOps.
Context {N Y CH : Type} `{!Clock N, !NetOps N, !Fuel, !CayenneCallbacks N Y CH}.
Abbreviation CM := (M (CState N Y CH)).

Definition no_handler : CayenneMessageHandlers CH :=
  {| h_clientID := None; h_topic := UNDEFINED_TOPIC; h_channel := CAYENNE_NO_CHANNEL; h_fp := None |}.

(** [sendbuf] and [readbuf] are the arrays of the structure, of
    [CAYENNE_MAX_MESSAGE_SIZE + 1] bytes, before the call. *)
Definition CayenneMQTTClientInit (sendbuf readbuf : list Z) (username password clientID : option (list Z))
    (defaultHandler : option CH) : CM () :=
  modify (λ s, MkSt
    (set_defaultMessageHandler (Some MQTTMessageArrived_fp)
       (MQTTClientInit 30000 sendbuf CAYENNE_MAX_MESSAGE_SIZE readbuf CAYENNE_MAX_MESSAGE_SIZE
          (c_keepAliveInterval (client s))))
    (world s)
    (Build_CayenneData username password clientID
       (replicate (Z.to_nat CAYENNE_MAX_MESSAGE_HANDLERS) no_handler) defaultHandler (y_app (user s)))).

Definition CayenneMQTTConnect : CM Z :=
  d ← gets user;
  MQTTConnect (Some {|
    struct_id := struct_id MQTTPacket_connectData_initializer;
    struct_version := struct_version MQTTPacket_connectData_initializer;
    MQTTVersion := 3;
    clientID := cstring_topic (y_clientID d);
    keepAliveInterval := keepAliveInterval MQTTPacket_connectData_initializer;
    cleansession := cleansession MQTTPacket_connectData_initializer;
    willFlag := willFlag MQTTPacket_connectData_initializer;
    will := will MQTTPacket_connectData_initializer;
    username := cstring_topic (y_username d);
    password := cstring_topic (y_password d) |}).

(** [clientID ? clientID : client->clientID] *)
Definition or_own (clientID : option (list Z)) : CM (option (list Z)) :=
  own ← yget y_clientID;
  mret (match clientID with Some c => Some c | None => own end).

(** [CayenneBuildTopic] into a zeroed local buffer of [size] bytes. *)
Definition build_topic (size : Z) (clientID : option (list Z)) (topic : CayenneTopic) (channel : Z) :
    CM (Z * list Z) :=
  username ← yget y_username;
  id ← or_own clientID;
  '(result, b) ← lift (CayenneBuildTopic (Some (replicate (Z.to_nat size) 0)) size username id topic channel);
  mret (result, default [] b).

(** The part the two publishing calls share: the payload is built behind the
    topic in the same buffer and both are published. *)
Definition publish_built (buffer : list Z) (build : list Z → Z → outcome (Z * Z * list Z))
    (qos retained : Z) : CM Z :=
  topicName ← lift (cstr buffer);
  let size := zlen topicName in
  let payload := drop (Z.to_nat (size + 1)) buffer in
  let size := zlen buffer - (size + 1) in
  '(result, size, payload) ← lift (build payload size);
  if result =? CAYENNE_SUCCESS then
    '(result, _) ← MQTTPublish (Some topicName)
      {| m_qos := qos; m_retained := retained; m_dup := 0; m_id := stack_packetid;
         m_payload := payload; m_payloadlen := size |};
    mret result
  else mret result.

Definition CayenneMQTTPublishDataArray (clientID : option (list Z)) (topic : CayenneTopic) (channel : Z)
    (type : option (list Z)) (values : list CayenneValuePair) : CM Z :=
  '(result, buffer) ← build_topic (CAYENNE_MAX_MESSAGE_SIZE + 1) clientID topic channel;
  if result =? CAYENNE_SUCCESS then
    publish_built buffer (λ p n, CayenneBuildDataPayload p n type values) QOS0
      (if bool_decide (topic ≠ COMMAND_TOPIC) then 1 else 0)
  else mret result.

Definition CayenneMQTTPublishData (clientID : option (list Z)) (topic : CayenneTopic) (channel : Z)
    (type unit value : option (list Z)) : CM Z :=
  CayenneMQTTPublishDataArray clientID topic channel type
    [{| CayenneUtils.unit := unit; CayenneUtils.value := value |}].

Definition CayenneMQTTPublishDataInt (clientID : option (list Z)) (topic : CayenneTopic) (channel : Z)
    (type unit : option (list Z)) (value : Z) : CM Z :=
  CayenneMQTTPublishData clientID topic channel type unit (Some (snprintf_str (2 + 8 * 4) (sdec value))).

Definition CayenneMQTTPublishDataUInt (clientID : option (list Z)) (topic : CayenneTopic) (channel : Z)
    (type unit : option (list Z)) (value : Z) : CM Z :=
  CayenneMQTTPublishData clientID topic channel type unit (Some (snprintf_str (1 + 8 * 4) (udec value))).

Definition CayenneMQTTPublishDataLong (clientID : option (list Z)) (topic : CayenneTopic) (channel : Z)
    (type unit : option (list Z)) (value : Z) : CM Z :=
  CayenneMQTTPublishData clientID topic channel type unit (Some (snprintf_str (2 + 8 * 4) (sdec value))).

Definition CayenneMQTTPublishDataULong (clientID : option (list Z)) (topic : CayenneTopic) (channel : Z)
    (type unit : option (list Z)) (value : Z) : CM Z :=
  CayenneMQTTPublishData clientID topic channel type unit (Some (snprintf_str (1 + 8 * 4) (udec value))).

Definition CayenneMQTTPublishDataDouble (clientID : option (list Z)) (topic : CayenneTopic) (channel : Z)
    (type unit : option (list Z)) (value : double) : CM Z :=
  CayenneMQTTPublishData clientID topic channel type unit (Some (snprintf_str 33 (fixed3 value))).

Definition CayenneMQTTPublishDataFloat (clientID : option (list Z)) (topic : CayenneTopic) (channel : Z)
    (type unit : option (list Z)) (value : double) : CM Z :=
  CayenneMQTTPublishData clientID topic channel type unit (Some (snprintf_str 33 (fixed3 value))).

Definition CayenneMQTTPublishResponse (clientID id error : option (list Z)) : CM Z :=
  '(result, buffer) ← build_topic (CAYENNE_MAX_MESSAGE_SIZE + 1) clientID RESPONSE_TOPIC CAYENNE_NO_CHANNEL;
  if result =? CAYENNE_SUCCESS then
    publish_built buffer (λ p n, CayenneBuildResponsePayload p n id error) QOS1 1
  else mret result.

(** The loop that stores a handler in the first free entry. *)
Fixpoint store_handler (k : nat) (i : Z) (h : CayenneMessageHandlers CH) : CM () :=
  match k with
  | O => mret ()
  | S k =>
      l ← yget y_messageHandlers;
      e ← lift (index l i);
      match h_fp e with
      | None => set_table (<[Z.to_nat i := h]> l)
      | Some _ => store_handler k (i + 1) h
      end
  end.

(** The stored client id is the argument, also when it is NULL. *)
Definition CayenneMQTTSubscribe (clientID : option (list Z)) (topic : CayenneTopic) (channel : Z)
    (handler : option CH) : CM Z :=
  '(result, topicName) ← build_topic CAYENNE_MAX_MESSAGE_SIZE clientID topic channel;
  if result =? CAYENNE_SUCCESS then
    name ← lift (cstr topicName);
    result ← MQTTSubscribe (Some name) QOS0 None;
    (match handler with
     | Some _ => if result =? QOS0 then
         store_handler (Z.to_nat CAYENNE_MAX_MESSAGE_HANDLERS) 0
           {| h_clientID := clientID; h_topic := topic; h_channel := channel; h_fp := handler |}
         else mret ()
     | None => mret ()
     end) ;;
    mret result
  else mret result.

(** The loop that clears the entries of a subscription. *)
Fixpoint clear_handlers (k : nat) (i : Z) (clientID : option (list Z)) (topic : CayenneTopic) (channel : Z) :
    CM () :=
  match k with
  | O => mret ()
  | S k =>
      l ← yget y_messageHandlers;
      e ← lift (index l i);
      (if bool_decide (h_topic e = topic) && (h_channel e =? channel) then
         id ← or_own clientID;
         eq ← lift (strcmp_eq id (h_clientID e));
         if eq : bool then set_table (<[Z.to_nat i := no_handler]> l) else mret ()
       else mret ()) ;;
      clear_handlers k (i + 1) clientID topic channel
  end.

Definition CayenneMQTTUnsubscribe (clientID : option (list Z)) (topic : CayenneTopic) (channel : Z) : CM Z :=
  '(result, topicName) ← build_topic CAYENNE_MAX_MESSAGE_SIZE clientID topic channel;
  if result =? CAYENNE_SUCCESS then
    name ← lift (cstr topicName);
    result ← MQTTUnsubscribe (Some name);
    (if result =? MQTT_SUCCESS then
       clear_handlers (Z.to_nat CAYENNE_MAX_MESSAGE_HANDLERS) 0 clientID topic channel
     else mret ()) ;;
    mret result
  else mret result.

Definition CayenneMQTTDisconnect : CM Z := MQTTDisconnect.

Definition CayenneMQTTConnected : CM bool := gets (λ s, c_isconnected (client s)).

Definition CayenneMQTTYield (time : Z) : CM Z := MQTTYield time.
End CayenneOps.

(** The calls of the interface, and a sequence of them. *)
Inductive cayenne_call (CH : Type) :=
| CCConnect
| CCPublishArray (clientID : option (list Z)) (topic : CayenneTopic) (channel : Z)
    (type : option (list Z)) (values : list CayenneValuePair)
| CCPublishInt (clientID : option (list Z)) (topic : CayenneTopic) (channel : Z)
    (type unit : option (list Z)) (value : Z)
| CCPublishFloat (clientID : option (list Z)) (topic : CayenneTopic) (channel : Z)
    (type unit : option (list Z)) (value : double)
| CCResponse (clientID id error : option (list Z))
| CCSubscribe (clientID : option (list Z)) (topic : CayenneTopic) (channel : Z) (handler : option CH)
| CCUnsubscribe (clientID : option (list Z)) (topic : CayenneTopic) (channel : Z)
| CCYield (time : Z)
| CCDisconnect.
Arguments CCConnect {CH}. Arguments CCPublishArray {CH}. Arguments CCPublishInt {CH}.
Arguments CCPublishFloat {CH}. Arguments CCResponse {CH}. Arguments CCSubscribe {CH}.
Arguments CCUnsubscribe {CH}. Arguments CCYield {CH}. Arguments CCDisconnect {CH}.

Section CayenneSequences.
Context {N Y CH : Type} `{!Clock N, !NetOps N, !Fuel, !CayenneCallbacks N Y CH}.
Abbreviation CM := (M (CState N Y CH)).

Definition run_cayenne_call (a : cayenne_call CH) : CM Z :=
  match a with
  | CCConnect => CayenneMQTTConnect
  | CCPublishArray c t ch ty vs => CayenneMQTTPublishDataArray c t ch ty vs
  | CCPublishInt c t ch ty u v => CayenneMQTTPublishDataInt c t ch ty u v
  | CCPublishFloat c t ch ty u v => CayenneMQTTPublishDataFloat c t ch ty u v
  | CCResponse c i e => CayenneMQTTPublishResponse c i e
  | CCSubscribe c t ch h => CayenneMQTTSubscribe c t ch h
  | CCUnsubscribe c t ch => CayenneMQTTUnsubscribe c t ch
  | CCYield ms => CayenneMQTTYield ms
  | CCDisconnect => CayenneMQTTDisconnect
  end.

Fixpoint run_cayenne_calls (l : list (cayenne_call CH)) : CM (list Z) :=
  match l with
  | [] => mret []
  | a :: l => rc ← run_cayenne_call a; rcs ← run_cayenne_calls l; mret (rc :: rcs)
  end.
End CayenneSequences.
