(* ===== verification/CayenneProofs.v ===== *)
(** * The Cayenne client: termination and structure

    The message handler of CayenneMQTTClient.c meets what the MQTT client
    expects of its callbacks, so that every call of the Cayenne interface
    returns and leaves the client structure well formed. *)

From S2P Require Import Prelude CString TopicFilter MQTTPacket MQTTConnect MQTTPublish MQTTSubscribe Timer Network MQTTClient Simulation MQTTClientProofs CayenneUtils CayenneDataArray CayenneMQTTClient.

(** ** Outcomes *)

(** [owp o Q]: [o] is not a lack of fuel, and its value satisfies [Q]. *)
Definition owp {A} (o : outcome A) (Q : A → Prop) : Prop :=
  match o with Ok a => Q a | Fault f => f ≠ OutOfFuel end.

Lemma owp_bind {A B} (o : outcome A) (k : A → outcome B) (Q : B → Prop) :
  owp o (λ a, owp (k a) Q) → owp (o ≫= k) Q.
Proof. by destruct o. Qed.

Lemma owp_mono {A} (o : outcome A) (Q R : A → Prop) : owp o Q → (∀ a, Q a → R a) → owp o R.
Proof. destruct o; cbn; auto. Qed.

Lemma owp_fuel {A} (o : outcome A) : o ≠ Fault OutOfFuel → owp o (λ _, True).
Proof. destruct o; cbn; [done|congruence]. Qed.

Lemma owp_run {A} (o : outcome A) Q : owp o Q → o ≠ Fault OutOfFuel.
Proof. destruct o; cbn; [done|congruence]. Qed.

Lemma owp_store b i v : owp (store b i v) (λ b', length b' = length b).
Proof.
  pose proof (store_fault b i v). destruct (store b i v) as [b'|f] eqn:E; cbn; [|congruence].
  by eapply store_length.
Qed.

Lemma owp_store_bytes b i d : owp (store_bytes b i d) (λ b', length b' = length b).
Proof.
  pose proof (store_bytes_fault b i d). destruct (store_bytes b i d) as [b'|f] eqn:E; cbn; [|congruence].
  by eapply store_bytes_length.
Qed.

Lemma cstr_fault l : cstr l ≠ Fault OutOfFuel.
Proof.
  induction l as [|c l IH]; cbn; [done|]. destruct (c =? 0); [done|]. by apply bind_fault.
Qed.

Lemma strchr_fault l c : strchr l c ≠ Fault OutOfFuel.
Proof.
  induction l as [|x l IH]; cbn; [done|]. destruct (x =? c); [done|]. destruct (x =? 0); [done|].
  by apply bind_fault.
Qed.

Lemma strcat_fault b s : strcat b s ≠ Fault OutOfFuel.
Proof. apply bind_fault; [apply cstr_fault|]. intros. apply store_bytes_fault. Qed.

Lemma snprintf_u_fault b off size n : snprintf_u b off size n ≠ Fault OutOfFuel.
Proof. unfold snprintf_u. destruct (size =? 0); [done|]. apply store_bytes_fault. Qed.

#[export] Hint Resolve cstr_fault strchr_fault strcat_fault snprintf_u_fault strncmp_fault : wp.

(** ** CayenneUtils.c *)

Lemma buildSuffix_fault s n t c : buildSuffix s n t c ≠ Fault OutOfFuel.
Proof. unfold buildSuffix. no_fuel. Qed.
#[export] Hint Resolve buildSuffix_fault : wp.

Lemma buildTopic_fault t n u c s : buildTopic t n u c s ≠ Fault OutOfFuel.
Proof. unfold buildTopic. no_fuel. Qed.
#[export] Hint Resolve buildTopic_fault : wp.

Lemma CayenneBuildTopic_fault t n u c tp ch : CayenneBuildTopic t n u c tp ch ≠ Fault OutOfFuel.
Proof. unfold CayenneBuildTopic. no_fuel. eauto with wp. Qed.

Lemma append_units_fault t vs p : append_units t vs p ≠ Fault OutOfFuel.
Proof.
  revert p. induction vs as [|v vs IH]; intros p; cbn [append_units]; [done|].
  apply bind_fault; [eauto with wp|]. intros c _.
  apply bind_fault; [no_fuel; eauto with wp|]. intros p1 _.
  apply bind_fault; [no_fuel; eauto with wp|]. auto.
Qed.

Lemma append_values_fault vs p : append_values vs p ≠ Fault OutOfFuel.
Proof.
  revert p. induction vs as [|v vs IH]; intros p; cbn [append_values]; [done|].
  destruct (value v); [|done]. apply bind_fault; [eauto with wp|]. intros p1 _.
  apply bind_fault; [no_fuel; eauto with wp|]. auto.
Qed.

Lemma CayenneBuildDataPayload_fault p n t vs : CayenneBuildDataPayload p n t vs ≠ Fault OutOfFuel.
Proof.
  unfold CayenneBuildDataPayload. cbn zeta. destruct (n <? _); [done|].
  apply bind_fault; [eauto with wp|]. intros p1 _.
  apply bind_fault; [no_fuel; eauto with wp|]. intros p2 _.
  apply bind_fault; [apply append_units_fault|]. intros p3 _.
  apply bind_fault; [eauto with wp|]. intros c _.
  apply bind_fault; [no_fuel; eauto with wp|]. intros p4 _.
  by apply bind_fault; [apply append_values_fault|].
Qed.

Lemma CayenneBuildResponsePayload_fault p n i e : CayenneBuildResponsePayload p n i e ≠ Fault OutOfFuel.
Proof. unfold CayenneBuildResponsePayload. destruct e; apply CayenneBuildDataPayload_fault. Qed.

Lemma skip_plus_owp k mem curn e :
  e - curn ≤ Z.of_nat k + 1 → owp (skip_plus k mem curn e) (λ c, curn ≤ c).
Proof.
  revert curn. induction k as [|k IH]; intros curn Hk; cbn [skip_plus];
    (destruct (Z.ltb_spec (curn + 1) e); [|cbn; lia]); [lia|].
  apply owp_bind. eapply owp_mono; [apply owp_fuel, load_fault|]. intros c _.
  destruct (c =? SLASH); [cbn; lia|]. eapply owp_mono; [apply IH; lia|]. cbn. lia.
Qed.

Lemma topic_matches_fault f mem curn e :
  0 ≤ curn → e ≤ zlen mem → topic_matches f mem curn e ≠ Fault OutOfFuel.
Proof.
  revert curn. induction f as [|c f IH]; intros curn Hc He; cbn [topic_matches]; [done|].
  destruct (Z.ltb_spec curn e) as [Hlt|]; [|done]. apply bind_fault; [apply load_fault|]. intros n _.
  destruct (_ && _); [done|]. destruct (_ && _); [done|]. destruct (c =? PLUS).
  - pose proof (skip_plus_owp (length mem) mem curn e ltac:(lia)) as Hs.
    destruct (skip_plus _ _ _ _) as [c'|]; cbn [owp mbind outcome_bind] in *; [apply IH; lia|congruence].
  - destruct (c =? HASH); apply IH; lia.
Qed.

Lemma topicMatches_fault f mem i n : topicMatches f mem i n ≠ Fault OutOfFuel.
Proof. unfold topicMatches. case_decide; [|done]. apply topic_matches_fault; lia. Qed.

Lemma find_topic_fault l mem i n : find_topic l mem i n ≠ Fault OutOfFuel.
Proof.
  pose proof topicMatches_fault. induction l as [|[t c] l IH]; cbn [find_topic]; [done|].
  apply bind_fault; [eauto with wp|]. intros [r sfx] _.
  apply bind_fault; [no_fuel; eauto with wp|]. by intros [] _.
Qed.

(** Parsing in place does not change the size of the memory. *)
Lemma parse_suffix_owp mem c i n : owp (parse_suffix mem c i n) (λ r, length (pt_mem r.2) = length mem).
Proof.
  unfold parse_suffix. apply owp_bind. eapply owp_mono; [apply owp_fuel, find_topic_fault|].
  intros [[t ch]|] _; [|done]. destruct (negb _); [|done]. destruct (_ || _); [done|].
  apply owp_bind. eapply owp_mono; [apply owp_fuel, load_bytes_fault|]. intros d _.
  apply owp_bind. eapply owp_mono; [apply owp_fuel, store_bytes_fault|]. intros b1 _.
  apply owp_bind. eapply owp_mono; [apply owp_fuel, store_fault|]. intros b2 _.
  apply owp_bind. eapply owp_mono; [apply owp_fuel, cstr_fault|]. done.
Qed.

Lemma CayenneParseTopic_owp o u mem n :
  pt_mem o = default [] mem →
  owp (CayenneParseTopic o u mem n) (λ r, length (pt_mem r.2) = length (default [] mem)).
Proof.
  intros Ho. unfold CayenneParseTopic. destruct mem as [mem|]; cbn [default] in *; [|by rewrite <- Ho].
  assert (Hf : length (pt_mem o) = length mem) by by rewrite Ho.
  destruct (_ <? _); [exact Hf|].
  apply owp_bind. eapply owp_mono; [apply owp_fuel, strncmp_fault|]. intros r1 _. destruct (negb _); [exact Hf|].
  destruct u as [u|]; [|done].
  apply owp_bind. eapply owp_mono; [apply owp_fuel, strncmp_fault|]. intros r2 _. destruct (negb _); [exact Hf|].
  apply owp_bind. eapply owp_mono; [apply owp_fuel, strncmp_fault|]. intros r3 _. destruct (negb _); [exact Hf|].
  apply owp_bind. eapply owp_mono; [apply owp_fuel, strchr_fault|]. intros [k|] _; [|exact Hf].
  apply owp_bind. eapply owp_mono; [apply owp_store|]. intros m Hm.
  eapply owp_mono; [apply parse_suffix_owp|]. intros [rc q]. cbn. congruence.
Qed.

Lemma set_value_fault l i v : set_value l i v ≠ Fault OutOfFuel.
Proof. apply bind_fault; [apply index_fault|done]. Qed.
Lemma set_unit_fault l i v : set_unit l i v ≠ Fault OutOfFuel.
Proof. apply bind_fault; [apply index_fault|done]. Qed.

(** The payload loop stops before the end of the payload's memory. *)
Lemma parse_loop_owp k vsz n tok i vi pr st :
  0 ≤ i ≤ zlen (ps_payload st) → zlen (ps_payload st) < i + Z.of_nat k →
  owp (parse_loop k vsz n tok i vi pr st) (λ r, length (ps_payload r) = length (ps_payload st)).
Proof.
  revert i vi pr st. induction k as [|k IH]; intros i vi pr st Hi Hk; cbn [parse_loop];
    [|destruct (load (ps_payload st) i) as [c|f] eqn:El; [|pose proof (load_fault (ps_payload st) i);
        cbn; congruence]; apply load_Ok in El as [_ El%lookup_lt_Some]].
  { lia. }
  apply owp_bind. cbn [owp]. destruct (c =? 0); [done|].
  assert (Hrec : ∀ vi pr st', length (ps_payload st') = length (ps_payload st) →
    owp (parse_loop k vsz n tok (i + 1) vi pr st') (λ r, length (ps_payload r) = length (ps_payload st))).
  { intros vi' pr' st' Hl. eapply owp_mono; [apply IH; rewrite Hl; lia|]. cbn. congruence. }
  destruct (c =? COMMA); [|destruct (_ && _); [|by apply Hrec]].
  - apply owp_bind. eapply owp_mono.
    { apply owp_fuel. pose proof set_value_fault. pose proof set_unit_fault. no_fuel; done. }
    intros vs _. apply owp_bind. eapply owp_mono; [apply owp_store|]. intros pl Hpl.
    cbn zeta. destruct (tok =? 0); [done|]. by apply Hrec.
  - apply owp_bind. eapply owp_mono; [apply owp_fuel, set_value_fault|]. intros vs _.
    apply owp_bind. eapply owp_mono; [apply owp_store|]. intros pl Hpl. cbn zeta.
    destruct (n =? 1); [done|]. by apply Hrec.
Qed.

Lemma parsePayload_owp vs vsz pl tok :
  owp (parsePayload vs vsz pl tok) (λ r, length (ps_payload r.2) = length pl).
Proof.
  unfold parsePayload. apply owp_bind. eapply owp_mono; [apply owp_fuel, index_fault|]. intros p0 _.
  apply owp_bind. eapply owp_mono; [apply parse_loop_owp; cbn [ps_payload]; lia|]. done.
Qed.

Lemma whole_payload_owp vs n t i pl :
  owp (whole_payload vs n t i pl) (λ r, length (pp_payload r.2) = length pl).
Proof.
  unfold whole_payload. apply owp_bind. eapply owp_mono; [apply owp_fuel, index_fault|]. intros p0 _.
  by destruct (p_value p0).
Qed.

Lemma CayenneParsePayload_owp o t :
  owp (CayenneParsePayload o t) (λ r, length (pp_payload r.2) = length (pp_payload o)).
Proof.
  unfold CayenneParsePayload. destruct (_ =? 0); [done|]. apply owp_bind. eapply owp_mono.
  { apply owp_fuel. unfold clear_pairs. by destruct (_ <? _). }
  intros vs _. pose proof whole_payload_owp as Hw. destruct t; try apply Hw.
  apply owp_bind. eapply owp_mono; [apply parsePayload_owp|]. intros [[rc n] st] Hst. cbn in Hst.
  apply owp_bind. eapply owp_mono; [apply owp_fuel, index_fault|]. intros p0 _.
  destruct (p_value p0); [|done]. eapply owp_mono; [apply Hw|]. cbn. congruence.
Qed.

(** ** The message handler *)

Section Arrived.
Context {N Y CH : Type} `{!Clock N, !ClockLaws N, !NetOps N, !TimedNet N, !Fuel, !CayenneCallbacks N Y CH}.
Abbreviation SC := (CState N Y CH).
Implicit Types P : SC → Prop.
(** The application's handlers return and respect the client structure. *)
Hypothesis app_returns : ∀ g m, evo (λ _, True) (run_cayenne g m : M SC ()).

Lemma true_stable : stable (λ _ : SC, True).
Proof. by intros s s'. Qed.

Lemma evo_gets {A} P (f : SC → A) : evo P (gets f).
Proof. intros s _. by apply wp_gets. Qed.

Lemma evo_set_table P l : evo P (set_table l : M SC ()).
Proof. intros s _. apply wp_modify. by split; [split|]. Qed.

Lemma evo_app P g m : evo P (run_cayenne g m : M SC ()).
Proof. intros s _. by apply app_returns. Qed.

Lemma write_memory_shape off mem (s : SC) :
  length mem = length (drop (Z.to_nat off) (c_readbuf (client s))) →
  wp (write_memory off mem) (λ _ s', evolves s s') s.
Proof.
  intros Hl. apply wp_modify. split; [|done]. split; try done. cbn [c_readbuf set_readbuf client].
  rewrite length_app, length_take, Hl, length_drop. lia.
Qed.

Lemma evo_arrived_topic P t : evo P (arrived_topic t : M SC _).
Proof.
  intros s _. unfold arrived_topic. apply wp_bind, wp_gets. destruct (data (lenstring t)) as [off|].
  - apply wp_bind, wp_gets. set (mem := drop _ _). apply wp_bind, wp_lift.
    pose proof (CayenneParseTopic_owp {| pt_topic := cm_topic stack_message;
        pt_channel := cm_channel stack_message; pt_clientID := cm_clientID stack_message;
        pt_mem := mem |} (y_username (user s)) (Some mem) (u32 (len (lenstring t))) eq_refl) as Hp.
    destruct (CayenneParseTopic _ _ _ _) as [[r p]|f]; [|exact Hp]. cbn in Hp.
    apply wp_bind. eapply wp_mono; [by apply write_memory_shape|]. intros [] s1 Hs1. by apply wp_ret.
  - apply wp_lift.
    pose proof (CayenneParseTopic_owp {| pt_topic := cm_topic stack_message;
        pt_channel := cm_channel stack_message; pt_clientID := cm_clientID stack_message;
        pt_mem := [] |} (y_username (user s)) None (u32 (len (lenstring t))) eq_refl) as Hp.
    by destruct (CayenneParseTopic _ _ _ _) as [[r p]|f].
Qed.

Lemma evo_arrived_payload P t off : evo P (arrived_payload t off : M SC _).
Proof.
  intros s _. unfold arrived_payload. apply wp_bind, wp_gets, wp_bind, wp_lift.
  set (mem := drop _ _).
  match goal with |- context [CayenneParsePayload ?o ?t] =>
    pose proof (CayenneParsePayload_owp o t) as Hp; destruct (CayenneParsePayload o t) as [[r p]|f] end;
    [|exact Hp]. cbn in Hp.
  apply wp_bind. eapply wp_mono; [by apply write_memory_shape|]. intros [] s1 Hs1. by apply wp_ret.
Qed.

Lemma strcmp_eq_fault a b : strcmp_eq a b ≠ Fault OutOfFuel.
Proof. by destruct a, b. Qed.

Lemma read_opt_fault b p : read_opt b p ≠ Fault OutOfFuel.
Proof.
  destruct p; cbn; [|done]. apply bind_fault; [|done]. unfold cstr_at. case_decide; [apply cstr_fault|done].
Qed.
#[local] Hint Resolve true_stable evo_gets evo_set_table evo_app evo_arrived_topic
  evo_arrived_payload strcmp_eq_fault read_opt_fault : wp.

Lemma evo_arrived_loop P k i m r : stable P → evo P (arrived_loop k i m r : M SC Z).
Proof.
  intros HP. revert i r. induction k as [|k IH]; intros i r; cbn [arrived_loop]; [evo_steps|].
  unfold yget, message_string. evo_steps.
Qed.
#[local] Hint Resolve evo_arrived_loop : wp.

(** [b[i] = v] in the read buffer. *)
Lemma evo_store_readbuf {A} P i v (k : () → M SC A) :
  stable P → (∀ u, evo P (k u)) →
  evo P (b ← gets (λ s, c_readbuf (client s)); b ← lift (store b i v);
         modify (λ s, MkSt (set_readbuf b (client s)) (world s) (user s)) ≫= k).
Proof.
  intros HP Hk s Hs. apply wp_bind, wp_gets, wp_bind, wp_lift.
  pose proof (owp_store (c_readbuf (client s)) i v) as Hb.
  destruct (store _ _ _) as [b|f]; [|exact Hb]. cbn in Hb. apply wp_bind, wp_modify.
  set (s1 := MkSt _ _ _). assert (He : evolves s s1) by (split; [by split|done]).
  eapply wp_mono; [apply Hk; by eapply HP|]. intros a s2 He2. exact (transitivity He He2).
Qed.

(** The handler keeps the contract of the MQTT client's callbacks. *)
Lemma arrived_returns t m : evo (λ _, True) (MQTTMessageArrived t m : M SC ()).
Proof.
  pose proof true_stable. unfold MQTTMessageArrived, arrived_dispatch, yget. evo_step; [evo_steps|].
  destruct a as [r p]. evo_step; [evo_steps|]. apply evo_store_readbuf; [done|]. intros []. evo_steps.
Qed.

Lemma cayenne_handlers_return h t m : evo (λ _, True) (run_handler h t m : M SC ()).
Proof. destruct h. apply arrived_returns. Qed.
End Arrived.

(** ** Calls of the Cayenne interface *)

Section CayenneCalls.
Context {N Y CH : Type} `{!Clock N, !ClockLaws N, !NetOps N, !TimedNet N, !Fuel, !CayenneCallbacks N Y CH}.
Abbreviation SC := (CState N Y CH).
Hypothesis app_returns : ∀ g m, evo (λ _, True) (run_cayenne g m : M SC ()).
Hypothesis enough_fuel : 1000000 < Z.of_nat fuel.

Let handlers := cayenne_handlers_return app_returns.

Lemma evo_build_topic P n c t ch : stable P → evo P (build_topic n c t ch : M SC _).
Proof.
  intros HP. pose proof CayenneBuildTopic_fault. unfold build_topic, or_own, yget.
  pose proof (@evo_gets N Y CH _ _). evo_steps.
Qed.

Lemma evo_publish_built b f q r :
  (∀ p n, f p n ≠ Fault OutOfFuel) → evo timeout_ok (publish_built b f q r : M SC Z).
Proof.
  intros Hf. pose proof (timeout_ok_stable : stable (timeout_ok : SC → Prop)).
  pose proof (evo_publish handlers enough_fuel). unfold publish_built. evo_steps.
Qed.

Lemma evo_publish_array c t ch ty vs :
  evo timeout_ok (CayenneMQTTPublishDataArray c t ch ty vs : M SC Z).
Proof.
  pose proof (timeout_ok_stable : stable (timeout_ok : SC → Prop)). pose proof evo_build_topic.
  unfold CayenneMQTTPublishDataArray. evo_step; [eauto with wp|]. destruct a as [rc b].
  apply evo_if; [|apply evo_ret]. apply evo_publish_built. intros. apply CayenneBuildDataPayload_fault.
Qed.

Lemma evo_response c i e : evo timeout_ok (CayenneMQTTPublishResponse c i e : M SC Z).
Proof.
  pose proof (timeout_ok_stable : stable (timeout_ok : SC → Prop)). pose proof evo_build_topic.
  unfold CayenneMQTTPublishResponse. evo_step; [eauto with wp|]. destruct a as [rc b].
  apply evo_if; [|apply evo_ret]. apply evo_publish_built. intros. apply CayenneBuildResponsePayload_fault.
Qed.

Lemma evo_store_handler P k i h : stable P → evo P (store_handler k i h : M SC ()).
Proof.
  intros HP. pose proof (@evo_gets N Y CH _ _). pose proof (@evo_set_table N Y CH _ _).
  revert i. induction k; intros i; cbn [store_handler]; unfold yget; evo_steps.
Qed.

Lemma evo_clear_handlers P k i c t ch : stable P → evo P (clear_handlers k i c t ch : M SC ()).
Proof.
  intros HP. pose proof (@evo_gets N Y CH _ _). pose proof (@evo_set_table N Y CH _ _).
  pose proof strcmp_eq_fault.
  revert i. induction k; intros i; cbn [clear_handlers]; unfold yget, or_own, yget; evo_steps.
Qed.

Lemma evo_cayenne_subscribe c t ch h : evo timeout_ok (CayenneMQTTSubscribe c t ch h : M SC Z).
Proof.
  pose proof (timeout_ok_stable : stable (timeout_ok : SC → Prop)). pose proof evo_build_topic.
  pose proof evo_store_handler. pose proof (evo_subscribe handlers enough_fuel).
  unfold CayenneMQTTSubscribe. evo_steps.
Qed.

Lemma evo_cayenne_unsubscribe c t ch : evo timeout_ok (CayenneMQTTUnsubscribe c t ch : M SC Z).
Proof.
  pose proof (timeout_ok_stable : stable (timeout_ok : SC → Prop)). pose proof evo_build_topic.
  pose proof evo_clear_handlers. pose proof (evo_unsubscribe handlers enough_fuel).
  unfold CayenneMQTTUnsubscribe. evo_steps.
Qed.

Definition cayenne_ok (a : cayenne_call CH) : Prop :=
  match a with CCYield ms => 1000 * u32 ms < Z.of_nat fuel | _ => True end.

Lemma evo_cayenne_call a : cayenne_ok a → evo timeout_ok (run_cayenne_call a : M SC Z).
Proof.
  intros Ha. destruct a; cbn [run_cayenne_call];
    eauto using evo_publish_array, evo_response, evo_cayenne_subscribe, evo_cayenne_unsubscribe.
  - unfold CayenneMQTTConnect. apply evo_bind; [apply timeout_ok_stable|apply evo_gets|].
    intros d. by apply evo_connect.
  - by apply evo_yield.
  - by apply evo_disconnect.
Qed.

Lemma evo_cayenne_calls l :
  Forall cayenne_ok l → evo timeout_ok (run_cayenne_calls l : M SC (list Z)).
Proof.
  pose proof (timeout_ok_stable : stable (timeout_ok : SC → Prop)).
  induction 1 as [|a l Ha _ IH]; cbn [run_cayenne_calls]; [apply evo_ret|].
  apply evo_bind; [done|by apply evo_cayenne_call|]. intros rc. evo_steps.
Qed.

(** [C5] Every call of the Cayenne client returns, and the client structure is
    an invariant of it: for any sequence of connect, publish, response,
    subscribe, unsubscribe, yield and disconnect calls and whatever the peer
    sends (any topic, any payload, parsed in place in the read buffer by
    [MQTTMessageArrived]), the run does not exhaust one loop round per
    microsecond of its timeouts, and if it does not stop at a memory fault,
    the buffers keep their sizes, the configuration and the message handler
    stay as they were set and the packet id stays between 1 and 65535.  The
    hypothesis of the MQTT client on its callbacks is discharged by
    [MQTTMessageArrived]; what is left is that the application's handlers
    return and respect the structure. *)
Theorem cayenne_calls_return (l : list (cayenne_call CH)) (s : SC) :
  Forall cayenne_ok l → timeout_ok s →
  match run_cayenne_calls l s with
  | Ok (rcs, s') => same_shape (client s) (client s') ∧ now (world s) ≤ now (world s')
  | Fault f => f ≠ OutOfFuel
  end.
Proof. intros Hl Hs. exact (evo_cayenne_calls l Hl s Hs). Qed.
End CayenneCalls.
