(* ===== verification/CayenneRuns.v ===== *)
(** * The Cayenne client: what it sends and whom it calls

    The handler table against the message that arrived, and the packets that
    publishing puts on the wire of a responsive network. *)

From S2P Require Import Prelude CString TopicFilter MQTTPacket MQTTConnect MQTTPublish MQTTSubscribe Timer Network MQTTClient Simulation MQTTClientProofs MQTTClientRuns CayenneUtils CayenneDataArray CayenneMQTTClient CayenneProofs.

Section States.
Context {N Y CH : Type}.
Definition with_app (y : Y) (s : CState N Y CH) : CState N Y CH :=
  MkSt (client s) (world s) (Build_CayenneData (y_username (user s)) (y_password (user s))
    (y_clientID (user s)) (y_messageHandlers (user s)) (y_defaultMessageHandler (user s)) y).
Definition with_readbuf (b : list Z) (s : CState N Y CH) : CState N Y CH :=
  MkSt (set_readbuf b (client s)) (world s) (user s).
Definition with_table (l : list (CayenneMessageHandlers CH)) (s : CState N Y CH) : CState N Y CH :=
  MkSt (client s) (world s) (Build_CayenneData (y_username (user s)) (y_password (user s))
    (y_clientID (user s)) l (y_defaultMessageHandler (user s)) (y_app (user s))).
End States.

(** Handlers that only act on the application's data, as a function of the
    message, the read buffer it points into and that data. *)
Class AppHandlers (N Y CH : Type) `{!CayenneCallbacks N Y CH} := {
  act : CH → CayenneMessageData → list Z → Y → Y;
  act_run g m (s : CState N Y CH) :
    run_cayenne g m s = Ok ((), with_app (act g m (c_readbuf (client s)) (y_app (user s))) s) }.

(** ** The handler table *)

Section Dispatch.
Context {N Y CH : Type} `{!CayenneCallbacks N Y CH, !AppHandlers N Y CH}.
Implicit Types (s : CState N Y CH) (m : CayenneMessageData) (h : CayenneMessageHandlers CH).

(** The handler is registered for the topic and channel of the message. *)
Definition listens m h : bool :=
  bool_decide (h_topic h = cm_topic m) &&
  ((h_channel h =? cm_channel m) || (h_channel h =? CAYENNE_ALL_CHANNELS)).

(** The handlers a message of [client] is for, in the order of the table. *)
Definition addressed m (client : list Z) (l : list (CayenneMessageHandlers CH)) : list CH :=
  omap (λ h, if listens m h && bool_decide (h_clientID h = Some client) then h_fp h else None) l.

(** An entry whose client id may be compared. *)
Definition entry_ok m h : Prop := h_fp h = None ∨ listens m h = false ∨ h_clientID h ≠ None.

Definition call_all (gs : list CH) m s : CState N Y CH :=
  with_app (fold_left (λ y g, act g m (c_readbuf (client s)) y) gs (y_app (user s))) s.

Lemma call_all_cons g gs m s :
  call_all (g :: gs) m s = call_all gs m (with_app (act g m (c_readbuf (client s)) (y_app (user s))) s).
Proof. done. Qed.

Lemma call_all_nil m s : call_all [] m s = s.
Proof. by destruct s as [? ? []]. Qed.

(** One round of the loop over the table. *)
Lemma arrived_step k m off clientID h pre rest r s :
  y_messageHandlers (user s) = pre ++ h :: rest → cm_clientID m = Some off →
  cstr_at (c_readbuf (client s)) off = Ok clientID → entry_ok m h →
  arrived_loop (S k) (zlen pre) m r s =
  arrived_loop k (zlen (pre ++ [h])) m (if decide (addressed m clientID [h] = []) then r else MQTT_SUCCESS)
    (call_all (addressed m clientID [h]) m s).
Proof.
  intros Ht Ho Hc Hok. cbn [arrived_loop]. unfold mbind, M_bind, yget, gets, lift. rewrite Ht.
  rewrite (index_lookup _ (length pre) h) by (by rewrite lookup_app_r, Nat.sub_diag).
  rewrite length_app, Nat2Z.inj_add. cbn [length].
  unfold addressed. cbn [omap list_omap].
  destruct (h_fp h) as [g|] eqn:Eg; [|by destruct (_ && _); rewrite call_all_nil].
  unfold entry_ok, listens in *. destruct (bool_decide (h_topic h = cm_topic m) && _) eqn:El;
    [|rewrite call_all_nil; done].
  unfold message_string, gets, mbind, M_bind, lift. rewrite Ho. cbn [read_opt]. rewrite Hc.
  cbn [mbind outcome_bind andb].
  destruct (h_clientID h) as [c|] eqn:Ec; [|by destruct Hok as [|[|]]; congruence].
  cbn [strcmp_eq]. unfold streq. destruct (decide (c = clientID)) as [->|Hne].
  - rewrite !bool_decide_eq_true_2 by done. rewrite act_run. done.
  - rewrite !bool_decide_eq_false_2 by congruence. by rewrite call_all_nil.
Qed.

Lemma addressed_app m c l1 l2 : addressed m c (l1 ++ l2) = addressed m c l1 ++ addressed m c l2.
Proof. apply omap_app. Qed.

(** A stretch of well-formed entries. *)
Lemma arrived_stretch k m off clientID l pre rest r s :
  y_messageHandlers (user s) = pre ++ l ++ rest → cm_clientID m = Some off →
  cstr_at (c_readbuf (client s)) off = Ok clientID → Forall (entry_ok m) l →
  arrived_loop (length l + k) (zlen pre) m r s =
  arrived_loop k (zlen (pre ++ l)) m (if decide (addressed m clientID l = []) then r else MQTT_SUCCESS)
    (call_all (addressed m clientID l) m s).
Proof.
  intros Ht Ho Hc Hok. revert pre r s Ht Hc. induction Hok as [|h l Hh _ IH]; intros pre r s Ht Hc.
  { rewrite app_nil_r. cbn [length Nat.add addressed omap list_omap]. by rewrite call_all_nil. }
  cbn [length Nat.add app] in *. rewrite (arrived_step _ m off clientID h pre (l ++ rest)) by done.
  rewrite IH; [|by rewrite <- app_assoc|done].
  change (h :: l) with ([h] ++ l). rewrite addressed_app, <- app_assoc. f_equal.
  - destruct (addressed m clientID [h]); [done|]. cbn [app].
    by destruct (decide (addressed m clientID l = [])), (decide (c :: l0 ++ addressed m clientID l = [])).
  - unfold call_all at 1 2 3. cbn [with_app y_app user client]. by rewrite fold_left_app.
Qed.

(** The handlers that run for a message: the addressed ones, or the default
    handler if there is none. *)
Definition called m (client : list Z) (l : list (CayenneMessageHandlers CH)) (dflt : option CH) : list CH :=
  match addressed m client l, dflt with
  | [], Some g => [g]
  | gs, _ => gs
  end.

Lemma dispatch_calls m off clientID s :
  zlen (y_messageHandlers (user s)) = CAYENNE_MAX_MESSAGE_HANDLERS → cm_clientID m = Some off →
  cstr_at (c_readbuf (client s)) off = Ok clientID → Forall (entry_ok m) (y_messageHandlers (user s)) →
  arrived_dispatch m s =
  Ok ((), call_all (called m clientID (y_messageHandlers (user s)) (y_defaultMessageHandler (user s))) m s).
Proof.
  intros Hl Ho Hc Hok. unfold arrived_dispatch. rewrite <- Hl, Nat2Z.id.
  unfold mbind at 1, M_bind at 1.
  pose proof (arrived_stretch 0 m off clientID (y_messageHandlers (user s)) [] [] MQTT_FAILURE s) as E.
  rewrite Nat.add_0_r in E. cbn [app length] in E. change (Z.of_nat 0) with 0 in E.
  rewrite E by (done || by rewrite app_nil_r). cbn [arrived_loop]. unfold mret at 1, M_ret at 1.
  unfold mbind, M_bind, yget, gets, called. cbn [call_all with_app user y_defaultMessageHandler].
  destruct (addressed m clientID (y_messageHandlers (user s))) as [|g gs] eqn:Ea.
  - destruct (decide _) as [_|]; [|done]. rewrite call_all_nil.
    destruct (y_defaultMessageHandler (user s)) as [g|]; cbn [Z.eqb MQTT_FAILURE Pos.eqb].
    + by rewrite act_run.
    + by rewrite call_all_nil.
  - destruct (decide _) as [|_]; [done|]. by destruct (y_defaultMessageHandler (user s)).
Qed.

(** A NULL client id among the entries that listen to the message. *)
Lemma dispatch_null m off clientID l h rest s :
  zlen (y_messageHandlers (user s)) = CAYENNE_MAX_MESSAGE_HANDLERS →
  y_messageHandlers (user s) = l ++ h :: rest → cm_clientID m = Some off →
  cstr_at (c_readbuf (client s)) off = Ok clientID → Forall (entry_ok m) l → ¬ entry_ok m h →
  arrived_dispatch m s = Fault NullDeref.
Proof.
  intros Hl Ht Ho Hc Hok Hbad. unfold arrived_dispatch. rewrite <- Hl, Nat2Z.id, Ht.
  rewrite length_app. cbn [length]. unfold mbind at 1, M_bind at 1.
  pose proof (arrived_stretch (S (length rest)) m off clientID l [] (h :: rest) MQTT_FAILURE s
    Ht Ho Hc Hok) as E. cbn [app length] in E. change (Z.of_nat 0) with 0 in E. rewrite E.
  cbn [arrived_loop]. unfold mbind, M_bind, yget, gets, lift.
  cbn [call_all with_app user y_messageHandlers]. rewrite Ht.
  rewrite (index_lookup _ (length l) h) by (by rewrite lookup_app_r, Nat.sub_diag).
  unfold entry_ok, listens in Hbad. destruct (h_fp h) as [g|]; [|by destruct Hbad; left].
  destruct (bool_decide (h_topic h = cm_topic m) && _); [|by destruct Hbad; right; left].
  unfold message_string, gets, mbind, M_bind, lift. rewrite Ho. cbn [read_opt call_all with_app client].
  rewrite Hc. cbn [mbind outcome_bind].
  destruct (h_clientID h); [by destruct Hbad; right; right|done].
Qed.
End Dispatch.

(** ** A command that arrives *)

Section Command.
Context {N Y CH : Type} `{!CayenneCallbacks N Y CH, !AppHandlers N Y CH}.
Hypothesis stack_values : zlen (cm_values stack_message) = CAYENNE_MAX_MESSAGE_VALUES.
Context (user_name clientID id val pre idb post : list Z) (ch z : Z).
Hypothesis (Hu : is_cstring user_name) (Hc : is_cstring clientID) (Hns : Forall (λ c, c ≠ SLASH) clientID)
  (Hch : 0 ≤ ch ≤ ULONG_MAX) (Hid : is_cstring id) (Hnc : Forall (λ c, c ≠ COMMA) id)
  (Hval : is_cstring val).

(** The topic "v1/<user>/things/<client>/cmd/<channel>". *)
Let suffix := channel_suffix (bytes "cmd") ch.
Let text := topic_text user_name clientID suffix.
Let head := CAYENNE_VERSION ++ bytes "/" ++ user_name ++ THINGS_STRING.
Hypothesis Hlen : zlen text ≤ CAYENNE_MAX_MESSAGE_SIZE.

(** The read buffer when the message arrives: the topic name, the packet id if
    there is one, the payload "<id>,<val>" and a byte behind it; and after it
    was parsed in place. *)
Definition arrived_buf : list Z := pre ++ text ++ idb ++ (id ++ COMMA :: val) ++ z :: post.
Definition parsed_buf : list Z :=
  pre ++ (head ++ clientID ++ 0 :: suffix) ++ idb ++ (id ++ 0 :: val) ++ 0 :: post.

Definition payload_off : Z := zlen pre + zlen text + zlen idb.

Definition command_topic : MQTTString Z :=
  Build_MQTTString None (Build_MQTTLenString (zlen text) (Some (zlen pre))).

(** What the handlers are given. *)
Definition command_message : CayenneMessageData :=
  {| cm_clientID := Some (zlen pre + zlen head); cm_topic := COMMAND_TOPIC; cm_channel := ch;
     cm_id := Some payload_off; cm_type := None;
     cm_values := {| p_unit := None; p_value := Some (payload_off + zlen id + 1) |} :: replicate 3 no_pair;
     cm_valueCount := 1 |}.

Lemma text_split : text = head ++ clientID ++ SLASH :: suffix.
Proof. unfold text, topic_text, head. by rewrite <- !app_assoc. Qed.

Lemma text_len : zlen (head ++ clientID ++ 0 :: suffix) = zlen text.
Proof. rewrite text_split, !length_app. done. Qed.

Let tx := head ++ clientID ++ 0 :: suffix.

Lemma command_topic_parsed (s : CState N Y CH) rest :
  c_readbuf (client s) = pre ++ text ++ rest → y_username (user s) = Some user_name →
  ∃ p, arrived_topic command_topic s = Ok ((CAYENNE_SUCCESS, p), with_readbuf (pre ++ tx ++ rest) s) ∧
    pt_topic p = COMMAND_TOPIC ∧ pt_channel p = ch ∧ pt_clientID p = Some (zlen pre + zlen head).
Proof.
  intros Hb Hun. unfold arrived_topic, yget, read_memory, write_memory.
  unfold mbind, M_bind, gets, modify, lift. cbn [data lenstring command_topic len].
  rewrite Hun, Nat2Z.id, Hb, drop_app_length. unfold CAYENNE_MAX_MESSAGE_SIZE in *.
  unfold u32. rewrite (Z.mod_small (zlen text)) by lia.
  rewrite (parse_topic_text _ user_name clientID COMMAND_TOPIC (bytes "cmd") ch rest) by (auto; try done; lia).
  cbn [pt_mem client]. rewrite Hb, take_app_length. fold suffix head.
  replace (head ++ clientID ++ 0 :: suffix ++ rest) with (tx ++ rest) by (unfold tx; by rewrite <- !app_assoc).
  by eexists.
Qed.

Lemma command_payload_parsed (s : CState N Y CH) b0 :
  c_readbuf (client s) = b0 ++ id ++ COMMA :: val ++ 0 :: post → payload_off = zlen b0 →
  ∃ q, arrived_payload COMMAND_TOPIC payload_off s =
      Ok ((CAYENNE_SUCCESS, q), with_readbuf (b0 ++ id ++ 0 :: val ++ 0 :: post) s) ∧
    pp_id q = Some 0 ∧ pp_type q = None ∧ pp_valuesSize q = 1 ∧
    pp_values q = {| p_unit := None; p_value := Some (zlen id + 1) |} :: replicate 3 no_pair.
Proof.
  intros Hb Ho. unfold arrived_payload, read_memory, write_memory, mbind, M_bind, gets, modify, lift.
  rewrite Ho, Nat2Z.id, Hb, drop_app_length.
  rewrite (parse_command_comma id (val ++ 0 :: post)); cbn [pp_payload pp_valuesSize pp_values];
    [|apply Forall_and; split; [apply (Forall_impl _ _ _ Hid); cbn; lia|done]|done
    |rewrite stack_values; unfold CAYENNE_MAX_MESSAGE_VALUES; lia].
  rewrite Hb, take_app_length. eexists. split; [done|].
  cbn [pp_id pp_type pp_valuesSize pp_values]. split_and!; try done.
  change (Z.to_nat CAYENNE_MAX_MESSAGE_VALUES) with 4%nat.
  by rewrite (drop_ge (cm_values stack_message)) by (unfold CAYENNE_MAX_MESSAGE_VALUES in *; lia).
Qed.

Lemma parsed_buf_alt : parsed_buf = (pre ++ tx ++ idb) ++ id ++ 0 :: val ++ 0 :: post.
Proof. unfold parsed_buf. fold tx. by rewrite <- !app_assoc. Qed.

Lemma command_parsed (msg : MQTTMessage Z) (s : CState N Y CH) :
  c_readbuf (client s) = arrived_buf → y_username (user s) = Some user_name →
  m_payload msg = payload_off → m_payloadlen msg = zlen id + 1 + zlen val →
  MQTTMessageArrived command_topic msg s = arrived_dispatch command_message (with_readbuf parsed_buf s).
Proof.
  intros Hb Hun Hmp Hml. unfold MQTTMessageArrived. unfold mbind, M_bind.
  destruct (command_topic_parsed s _ Hb Hun) as (p & -> & Hp1 & Hp2 & Hp3).
  change (CAYENNE_SUCCESS =? CAYENNE_SUCCESS) with true. cbn [negb].
  unfold gets, lift. cbn [with_readbuf client c_readbuf set_readbuf]. rewrite Hmp, Hml, Hp1.
  pose proof text_len as Htl. fold tx in Htl.
  replace (pre ++ tx ++ idb ++ (id ++ COMMA :: val) ++ z :: post)
    with (((pre ++ tx ++ idb) ++ (id ++ COMMA :: val)) ++ z :: post) by (by rewrite <- !app_assoc).
  replace (payload_off + (zlen id + 1 + zlen val))
    with (zlen ((pre ++ tx ++ idb) ++ (id ++ COMMA :: val)))
    by (unfold payload_off; rewrite !length_app; cbn [length]; lia).
  rewrite store_app. unfold modify. set (s1 := MkSt _ _ _).
  destruct (command_payload_parsed s1 (pre ++ tx ++ idb)) as (q & -> & Hq1 & Hq2 & Hq3 & Hq4).
  { unfold s1. cbn [client c_readbuf set_readbuf]. by rewrite <- !app_assoc. }
  { unfold payload_off. rewrite !length_app. lia. }
  change (CAYENNE_SUCCESS =? CAYENNE_SUCCESS) with true. cbn [negb].
  rewrite Hp2, Hp3, Hq1, Hq2, Hq3, Hq4. f_equal.
  - unfold command_message. cbn. unfold rebase, no_pair. cbn.
    by rewrite Z.add_0_r, (Z.add_assoc payload_off).
  - by rewrite parsed_buf_alt.
Qed.

Lemma parsed_client : cstr_at parsed_buf (zlen pre + zlen head) = Ok clientID.
Proof.
  unfold cstr_at, parsed_buf. rewrite decide_True by lia.
  replace (Z.to_nat (zlen pre + zlen head)) with (length (pre ++ head)) by (rewrite length_app; lia).
  rewrite <- (app_assoc head), (app_assoc pre head), drop_app_length, <- app_assoc. by apply cstr_app.
Qed.

Lemma parsed_id : cstr_at parsed_buf payload_off = Ok id.
Proof.
  pose proof text_len as Htl. fold tx in Htl. unfold cstr_at, payload_off.
  rewrite decide_True, parsed_buf_alt by lia.
  replace (Z.to_nat (zlen pre + zlen text + zlen idb)) with (length (pre ++ tx ++ idb))
    by (rewrite !length_app; lia).
  rewrite drop_app_length. by apply cstr_app.
Qed.

Lemma parsed_value : cstr_at parsed_buf (payload_off + zlen id + 1) = Ok val.
Proof.
  pose proof text_len as Htl. fold tx in Htl. unfold cstr_at, payload_off.
  rewrite decide_True, parsed_buf_alt by lia.
  replace (Z.to_nat _) with (length ((pre ++ tx ++ idb) ++ id ++ [0]))
    by (rewrite !length_app; cbn [length]; lia).
  replace ((pre ++ tx ++ idb) ++ id ++ 0 :: val ++ 0 :: post)
    with (((pre ++ tx ++ idb) ++ id ++ [0]) ++ val ++ 0 :: post) by (by rewrite <- !app_assoc).
  rewrite drop_app_length. by apply cstr_app.
Qed.

(** [C4] A command reaches the handlers it is for: when the read buffer holds a
    message on "v1/<user>/things/<client>/cmd/<channel>" with payload
    "<id>,<value>", [MQTTMessageArrived] parses it in place and runs, in the
    order of the table and once each, exactly the handlers registered for the
    command topic, that channel (or all channels) and that client id, or the
    default handler if there is none; the message it hands them points to the
    client id, the id and the value as C strings in the read buffer.  The
    client, the world and the table stay as they are but for the buffer. *)
Theorem message_dispatch (msg : MQTTMessage Z) (s : CState N Y CH) :
  c_readbuf (client s) = arrived_buf → y_username (user s) = Some user_name →
  m_payload msg = payload_off → m_payloadlen msg = zlen id + 1 + zlen val →
  zlen (y_messageHandlers (user s)) = CAYENNE_MAX_MESSAGE_HANDLERS →
  Forall (entry_ok command_message) (y_messageHandlers (user s)) →
  MQTTMessageArrived command_topic msg s =
    Ok ((), call_all (called command_message clientID (y_messageHandlers (user s))
                        (y_defaultMessageHandler (user s)))
              command_message (with_readbuf parsed_buf s)) ∧
  read_opt parsed_buf (cm_clientID command_message) = Ok (Some clientID) ∧
  read_opt parsed_buf (cm_id command_message) = Ok (Some id) ∧
  read_pairs parsed_buf (take (Z.to_nat (cm_valueCount command_message)) (cm_values command_message)) =
    Ok [{| unit := None; value := Some val |}].
Proof.
  intros Hb Hun Hmp Hml Ht Hok. split_and!.
  - rewrite command_parsed by done. 
    exact (dispatch_calls command_message (zlen pre + zlen head) clientID (with_readbuf parsed_buf s) Ht
      eq_refl parsed_client Hok).
  - cbn [cm_clientID command_message read_opt]. by rewrite parsed_client.
  - cbn [cm_id command_message read_opt]. by rewrite parsed_id.
  - change (Z.to_nat (cm_valueCount command_message)) with 1%nat.
    cbn [command_message cm_values take read_pairs]. unfold read_pair. cbn [p_unit p_value read_opt].
    by rewrite parsed_value.
Qed.

(** A handler that was stored with a NULL client id makes the first command
    on its channel a NULL dereference: [strcmp] is called with the stored
    pointer, whatever the client id of the message. *)
Theorem null_client_crashes (msg : MQTTMessage Z) (s : CState N Y CH)
    (l rest : list (CayenneMessageHandlers CH)) (h : CayenneMessageHandlers CH) (g : CH) :
  c_readbuf (client s) = arrived_buf → y_username (user s) = Some user_name →
  m_payload msg = payload_off → m_payloadlen msg = zlen id + 1 + zlen val →
  zlen (y_messageHandlers (user s)) = CAYENNE_MAX_MESSAGE_HANDLERS →
  y_messageHandlers (user s) = l ++ h :: rest → Forall (entry_ok command_message) l →
  h_fp h = Some g → h_topic h = COMMAND_TOPIC → h_channel h = ch ∨ h_channel h = CAYENNE_ALL_CHANNELS →
  h_clientID h = None →
  MQTTMessageArrived command_topic msg s = Fault NullDeref.
Proof.
  intros Hb Hun Hmp Hml Ht Hl Hok Hg Htp Hhc Hn. rewrite command_parsed by done.
  apply (dispatch_null _ (zlen pre + zlen head) clientID l h rest); try done; [apply parsed_client|].
  assert (El : listens command_message h = true).
  { unfold listens. cbn [cm_topic cm_channel command_message]. rewrite Htp, bool_decide_eq_true_2 by done.
    cbn [andb]. destruct Hhc as [-> | ->]; rewrite Z.eqb_refl; [done|apply orb_true_r]. }
  intros [?|[?|?]]; congruence.
Qed.
End Command.

(** ** The handler table of the subscriptions *)

Section Table.
Context {N Y CH : Type} `{!Clock N, !NetOps N, !Fuel, !CayenneCallbacks N Y CH}.
Implicit Types (s : CState N Y CH) (h e : CayenneMessageHandlers CH) (l : list (CayenneMessageHandlers CH)).

(** The first free entry takes the handler; a full table stays as it is. *)
Fixpoint register h l : list (CayenneMessageHandlers CH) :=
  match l with
  | [] => []
  | e :: l => match h_fp e with None => h :: l | Some _ => e :: register h l end
  end.

Lemma store_handler_register h l pre s :
  y_messageHandlers (user s) = pre ++ l →
  store_handler (length l) (zlen pre) h s = Ok ((), with_table (pre ++ register h l) s).
Proof.
  revert pre. induction l as [|e l IH]; intros pre Ht; cbn [length store_handler register].
  - unfold mret, M_ret, with_table. rewrite <- Ht. by destruct s as [? ? []].
  - unfold mbind, M_bind, yget, gets, lift. rewrite Ht.
    rewrite (index_lookup _ (length pre) e) by (by rewrite lookup_app_r, Nat.sub_diag).
    destruct (h_fp e) as [g|].
    + specialize (IH (pre ++ [e])). rewrite length_app, <- !app_assoc in IH. cbn [length app] in IH.
      rewrite Nat2Z.inj_add in IH. by apply IH.
    + unfold set_table, modify, with_table. rewrite Nat2Z.id.
      by rewrite insert_app_r_alt, Nat.sub_diag by lia.
Qed.

(** The entry of a subscription: same topic, channel and client id. *)
Definition same_sub (clientID : list Z) (topic : CayenneTopic) (channel : Z) e : bool :=
  bool_decide (h_topic e = topic) && (h_channel e =? channel) && bool_decide (h_clientID e = Some clientID).

Definition cleared (clientID : list Z) (topic : CayenneTopic) (channel : Z) e : CayenneMessageHandlers CH :=
  if same_sub clientID topic channel e then no_handler else e.

Lemma clear_handlers_map c id topic ch l pre s :
  y_messageHandlers (user s) = pre ++ l →
  match c with Some x => Some x | None => y_clientID (user s) end = Some id →
  Forall (λ e, h_topic e = topic → h_channel e = ch → h_clientID e ≠ None) l →
  clear_handlers (length l) (zlen pre) c topic ch s =
  Ok ((), with_table (pre ++ (cleared id topic ch <$> l)) s).
Proof.
  intros Ht Hid Hl. revert pre s Ht Hid. induction Hl as [|e l He _ IH]; intros pre s Ht Hid;
    cbn [length clear_handlers fmap list_fmap].
  - unfold mret, M_ret, with_table. rewrite <- Ht. by destruct s as [? ? []].
  - unfold mbind, M_bind, yget, gets, lift. rewrite Ht.
    rewrite (index_lookup _ (length pre) e) by (by rewrite lookup_app_r, Nat.sub_diag).
    assert (Hrec : ∀ e' s', y_messageHandlers (user s') = (pre ++ [e']) ++ l →
      y_clientID (user s') = y_clientID (user s) →
      clear_handlers (length l) (zlen pre + 1) c topic ch s' =
      Ok ((), with_table (pre ++ e' :: (cleared id topic ch <$> l)) s')).
    { intros e' s' Ht' Hc'. specialize (IH (pre ++ [e']) s' Ht'). rewrite Hc' in IH. specialize (IH Hid).
      rewrite length_app, <- !app_assoc, Nat2Z.inj_add in IH. cbn [length app] in IH. exact IH. }
    unfold cleared at 1, same_sub.
    destruct (decide (h_topic e = topic)) as [Etp|Etp];
      [rewrite !bool_decide_eq_true_2 by done|rewrite !bool_decide_eq_false_2 by done];
      cbn [andb]; [|apply Hrec; [by rewrite <- app_assoc|done]].
    destruct (Z.eqb_spec (h_channel e) ch) as [Ech|Ech]; cbn [andb]; [|apply Hrec; [by rewrite <- app_assoc|done]].
    specialize (He Etp Ech). destruct (h_clientID e) as [ec|] eqn:Eec; [|done].
    unfold or_own, yget, gets, mbind, M_bind, mret, M_ret, lift. rewrite Hid. cbn [strcmp_eq]. unfold streq.
    destruct (decide (id = ec)) as [->|Hne].
    + rewrite !bool_decide_eq_true_2 by done. cbn [set_table modify].
      unfold set_table, modify. rewrite Nat2Z.id, insert_app_r_alt, Nat.sub_diag by lia. cbn [insert list_insert].
      rewrite (Hrec no_handler) by (try done; cbn; by rewrite <- app_assoc). done.
    + rewrite !bool_decide_eq_false_2 by congruence. apply Hrec; [by rewrite <- app_assoc|done].
Qed.
End Table.

Section Subscriptions.
Context {N Y CH : Type} `{!Clock N, !NetOps N, !Fuel, !CayenneCallbacks N Y CH}.
Implicit Types (s : CState N Y CH).

(** The topic filter of a subscription is built: [name] in the buffer. *)
Definition filter_built s (c : option (list Z)) (topic : CayenneTopic) (ch : Z) (name : list Z) : Prop :=
  ∃ buf, CayenneBuildTopic (Some (replicate 134 0)) 134 (y_username (user s))
      (match c with Some x => Some x | None => y_clientID (user s) end) topic ch =
    Ok (CAYENNE_SUCCESS, Some buf) ∧ cstr buf = Ok name.

Lemma build_topic_run s c topic ch n r buf :
  CayenneBuildTopic (Some (replicate (Z.to_nat n) 0)) n (y_username (user s))
      (match c with Some x => Some x | None => y_clientID (user s) end) topic ch = Ok (r, Some buf) →
  build_topic n c topic ch s = Ok ((r, buf), s).
Proof.
  intros E. unfold build_topic, or_own, yget, gets, mbind, M_bind, lift, mret, M_ret. by rewrite E.
Qed.

Lemma free_addressed h l m c g :
  (∃ e, e ∈ l ∧ h_fp e = None) → listens m h = true → h_clientID h = Some c → h_fp h = Some g →
  g ∈ addressed (CH := CH) m c (register h l).
Proof.
  intros (e & He & Hf) Hm Hc Hg. apply list_elem_of_omap. exists h.
  rewrite Hm, Hc, bool_decide_eq_true_2 by done. split; [|done].
  induction l as [|e' l IH]; [by apply not_elem_of_nil in He|]. cbn [register].
  destruct (h_fp e') eqn:E'; [|apply elem_of_cons; by left].
  apply elem_of_cons in He as [->|He]; [congruence|]. apply elem_of_cons. right. by apply IH.
Qed.

(** [C13] A subscription is registered exactly when the server granted QoS 0:
    [CayenneMQTTSubscribe] returns what the MQTT subscription to the built
    topic filter returned; if that was success, the handler is stored with
    its arguments in the first free entry of the table and every other entry
    keeps its place, so that messages it listens to are addressed to it (a
    full table is left as it is and success is still reported); otherwise
    the table is untouched. *)
Theorem subscribe_registers (c : option (list Z)) (topic : CayenneTopic) (ch : Z) (g : CH)
    (name : list Z) (rc : Z) s s1 :
  let h := {| h_clientID := c; h_topic := topic; h_channel := ch; h_fp := Some g |} in
  let table := y_messageHandlers (user s1) in
  filter_built s c topic ch name → MQTTSubscribe (Some name) QOS0 None s = Ok (rc, s1) →
  zlen table = CAYENNE_MAX_MESSAGE_HANDLERS →
  CayenneMQTTSubscribe c topic ch (Some g) s =
    Ok (rc, if rc =? QOS0 then with_table (register h table) s1 else s1) ∧
  (∀ id m, (∃ e, e ∈ table ∧ h_fp e = None) → c = Some id → listens m h = true →
     g ∈ addressed m id (register h table)) ∧
  (Forall (λ e, h_fp e ≠ None) table → register h table = table).
Proof.
  intros h table (buf & Hb & Hn) Hs Ht. split_and!.
  - unfold CayenneMQTTSubscribe, mbind, M_bind.
    rewrite (build_topic_run s c topic ch CAYENNE_MAX_MESSAGE_SIZE CAYENNE_SUCCESS buf Hb).
    change (CAYENNE_SUCCESS =? CAYENNE_SUCCESS) with true. cbv iota. unfold lift. rewrite Hn, Hs.
    destruct (rc =? QOS0); [|done]. rewrite <- Ht, Nat2Z.id.
    pose proof (store_handler_register h table [] s1 eq_refl) as E. cbn [app length] in E.
    change (Z.of_nat 0) with 0 in E. unfold h in E. by rewrite E.
  - intros id m Hfree -> Hm. by apply free_addressed.
  - intros Hfull. clear Ht. induction Hfull as [|e l He _ IH]; cbn [register]; [done|].
    destruct (h_fp e); [by rewrite IH|done].
Qed.

(** [C14] An unsubscription removes the handlers of that client id, topic and
    channel and no others: if the MQTT call succeeded, the matching entries
    are reset and no entry of the subscription is left; otherwise the table
    is untouched.  The entries on that topic and channel must have a client
    id. *)
Theorem unsubscribe_clears (c : option (list Z)) (id : list Z) (topic : CayenneTopic) (ch : Z)
    (name : list Z) (rc : Z) s s1 :
  let table := y_messageHandlers (user s1) in
  let table' := cleared id topic ch <$> table in
  filter_built s c topic ch name → MQTTUnsubscribe (Some name) s = Ok (rc, s1) →
  zlen table = CAYENNE_MAX_MESSAGE_HANDLERS →
  match c with Some x => Some x | None => y_clientID (user s1) end = Some id →
  Forall (λ e, h_topic e = topic → h_channel e = ch → h_clientID e ≠ None) table →
  CayenneMQTTUnsubscribe c topic ch s = Ok (rc, if rc =? MQTT_SUCCESS then with_table table' s1 else s1) ∧
  Forall (λ e, same_sub id topic ch e = false) table' ∧
  (∀ k e, table !! k = Some e → same_sub id topic ch e = false → table' !! k = Some e).
Proof.
  intros table table' (buf & Hb & Hn) Hs Ht Hid Hok. split_and!.
  - unfold CayenneMQTTUnsubscribe, mbind, M_bind.
    rewrite (build_topic_run s c topic ch CAYENNE_MAX_MESSAGE_SIZE CAYENNE_SUCCESS buf Hb).
    change (CAYENNE_SUCCESS =? CAYENNE_SUCCESS) with true. cbv iota. unfold lift. rewrite Hn, Hs.
    destruct (rc =? MQTT_SUCCESS); [|done]. rewrite <- Ht, Nat2Z.id.
    pose proof (clear_handlers_map c id topic ch table [] s1 eq_refl Hid Hok) as E. cbn [app length] in E.
    change (Z.of_nat 0) with 0 in E. by rewrite E.
  - apply Forall_fmap, Forall_true. intros e. unfold compose, cleared.
    destruct (same_sub id topic ch e) eqn:E; [|done]. unfold same_sub. cbn. by rewrite andb_false_r.
  - intros k e He Hne. unfold table'. rewrite list_lookup_fmap, He. cbn. unfold cleared. by rewrite Hne.
Qed.
End Subscriptions.

(** ** Publishing *)

Section Publishing.
Context {N Y CH : Type} `{!Clock N, !ClockLaws N, !NetOps N, !ResponsiveNet N, !Fuel, !CayenneCallbacks N Y CH}.
Implicit Types (s : CState N Y CH).

(** Topic and payload built in one buffer of [CAYENNE_MAX_MESSAGE_SIZE + 1] bytes. *)
Lemma publish_built_text text rest build payload qos retained s :
  is_cstring text → build rest (zlen rest) = Ok (CAYENNE_SUCCESS, zlen payload, payload ++ 0 :: drop (S (length payload)) rest) →
  publish_built (text ++ 0 :: rest) build qos retained s =
  ('(result, _) ← MQTTPublish (Some text)
     {| m_qos := qos; m_retained := retained; m_dup := 0; m_id := stack_packetid;
        m_payload := payload ++ 0 :: drop (S (length payload)) rest; m_payloadlen := zlen payload |};
   mret result) s.
Proof.
  intros Ht Hb. unfold publish_built. unfold mbind at 1, M_bind at 1, lift at 1. rewrite cstr_app by done.
  replace (drop (Z.to_nat (zlen text + 1)) (text ++ 0 :: rest)) with rest.
  2: { replace (Z.to_nat (zlen text + 1)) with (length (text ++ [0])) by (rewrite length_app; cbn; lia).
       change (text ++ 0 :: rest) with (text ++ [0] ++ rest). by rewrite app_assoc, drop_app_length. }
  replace (zlen (text ++ 0 :: rest) - (zlen text + 1)) with (zlen rest) by (rewrite length_app; cbn [length]; lia).
  by rewrite Hb.
Qed.

Lemma publish_body_length id text payload :
  zlen (publish_body 0 id (cstring_topic (Some text)) payload) = 2 + zlen text + zlen payload.
Proof. by rewrite <- (publishLength_body 0 id (cstring_topic (Some text)) payload). Qed.

(** Publication in detail: given the topic and the payload that are built, what
    is sent, and what else changes. *)
Lemma publish_run (c : option (list Z)) (topic : CayenneTopic) (ch : Z) (type u val : option (list Z))
    (text payload : list Z) s :
  let cl := client s in
  let buf := replicate (Z.to_nat (CAYENNE_MAX_MESSAGE_SIZE + 1)) 0 in
  let rest := drop (S (length text)) buf in
  let t := cstring_topic (Some text) in
  let fits := MQTTPacket_len (zlen (publish_body 0 stack_packetid t payload)) <=? c_buf_size cl in
  CayenneBuildTopic (Some buf) (CAYENNE_MAX_MESSAGE_SIZE + 1) (y_username (user s))
    (match c with Some x => Some x | None => y_clientID (user s) end) topic ch = Ok (CAYENNE_SUCCESS, Some (text ++ 0 :: rest)) →
  is_cstring text → zlen text + zlen payload + 2 ≤ CAYENNE_MAX_MESSAGE_SIZE + 1 →
  (∀ b, zlen payload < zlen b → zlen b < 4294967295 → CayenneBuildDataPayload b (zlen b) type [{| unit := u; value := val |}] =
    Ok (CAYENNE_SUCCESS, zlen payload, payload ++ 0 :: drop (S (length payload)) b)) →
  c_isconnected cl = true → alive (world s) → buf_ok cl → times_ok cl (now (world s)) → (0 < fuel)%nat →
  0 ≤ c_keepAliveInterval cl →
  now (world s) + 100000 + 1000000 * c_keepAliveInterval cl < 2147483646000000 →
  ∃ s', CayenneMQTTPublishData c topic ch type u val s = Ok (if fits then MQTT_SUCCESS else MQTT_FAILURE, s') ∧
    sent (world s') = sent (world s) ++
      (if fits then publish_packet 0 0 (if bool_decide (topic ≠ COMMAND_TOPIC) then 1 else 0)
                      stack_packetid t payload else []) ∧
    published s s'.
Proof.
  intros cl buf rest t fits Hbt Hcs Hlen Hbp Hcon Ha Hb Htm Hf Hk1 Hk2. unfold CAYENNE_MAX_MESSAGE_SIZE in Hlen.
  pose proof (publish_body_length stack_packetid text payload) as Hbl. fold t in Hbl.
  assert (Hbuf : zlen buf = 135) by done.
  assert (Hrest : zlen rest = 134 - zlen text) by (unfold rest; rewrite length_drop; lia).
  pose proof (twp_publish_qos0 text payload (0 :: drop (S (length payload)) rest)
    {| m_qos := 0; m_retained := if bool_decide (topic ≠ COMMAND_TOPIC) then 1 else 0; m_dup := 0;
       m_id := stack_packetid; m_payload := payload ++ 0 :: drop (S (length payload)) rest;
       m_payloadlen := zlen payload |} s Ha eq_refl eq_refl eq_refl) as Hr.
  cbn [m_id m_retained] in Hr. fold t cl in Hr. rewrite Hcon in Hr. cbn [andb] in Hr. fold fits in Hr.
  specialize (Hr ltac:(lia) Hb Htm Hf Hk1 Hk2). apply twp_run in Hr as (r & s' & E & -> & Hs1 & Hs2).
  exists s'. split; [|done]. unfold CayenneMQTTPublishData, CayenneMQTTPublishDataArray.
  unfold mbind at 1, M_bind at 1. rewrite (build_topic_run s c topic ch _ CAYENNE_SUCCESS _ Hbt).
  change (CAYENNE_SUCCESS =? CAYENNE_SUCCESS) with true. cbv iota.
  rewrite (publish_built_text text rest _ payload) by (done || (apply Hbp; lia)).
  unfold mbind, M_bind. unfold QOS0. by rewrite E.
Qed.

(** A value with type on a numbered channel. *)
Lemma publish_data_run (c : option (list Z)) (username clientID type tstr : list Z) (v : CayenneValuePair)
    (topic : CayenneTopic) (ch : Z) s :
  let cl := client s in
  let text := topic_text username clientID (channel_suffix tstr ch) in
  let payload := data_text type [v] in
  let t := cstring_topic (Some text) in
  let body := publish_body 0 stack_packetid t payload in
  let fits := MQTTPacket_len (zlen body) <=? c_buf_size cl in
  y_username (user s) = Some username →
  match c with Some x => Some x | None => y_clientID (user s) end = Some clientID →
  topic_string topic = Some tstr → zlen tstr ≤ 8 → 0 ≤ ch →
  ch ≠ CAYENNE_NO_CHANNEL → ch ≠ CAYENNE_ALL_CHANNELS →
  is_cstring tstr → is_cstring username → is_cstring clientID → is_cstring type → type ≠ [] → pair_ok v → value v ≠ None →
  zlen text + zlen payload + 2 ≤ CAYENNE_MAX_MESSAGE_SIZE + 1 →
  c_isconnected cl = true → alive (world s) → buf_ok cl → times_ok cl (now (world s)) → (0 < fuel)%nat →
  0 ≤ c_keepAliveInterval cl →
  now (world s) + 100000 + 1000000 * c_keepAliveInterval cl < 2147483646000000 →
  ∃ s', CayenneMQTTPublishData c topic ch (Some type) (unit v) (value v) s =
      Ok (if fits then MQTT_SUCCESS else MQTT_FAILURE, s') ∧
    sent (world s') = sent (world s) ++
      (if fits then publish_packet 0 0 (if bool_decide (topic ≠ COMMAND_TOPIC) then 1 else 0)
                      stack_packetid t payload else []) ∧
    published s s'.
Proof.
  intros cl text payload t body fits Hun Hid Hts H8 Hch H1 H2 Hc1 Hc2 Hc3 Hty Hne Hok Hv Hlen. intros.
  destruct v as [u [val|]]; [|done].
  apply (publish_run c topic ch (Some type) u (Some val) text payload s); try done.
  - rewrite Hun, Hid. apply (build_topic_text (replicate 135 0)); try done.
    fold text. unfold CAYENNE_MAX_MESSAGE_SIZE in Hlen. rewrite length_replicate. lia.
  - unfold text, topic_text, channel_suffix. rewrite !is_cstring_app. split_and!; try done; try decide_vm.
    constructor; [unfold SLASH; lia|by apply udec_cstring].
  - intros b Hb1 Hb2. apply build_data_fits; try done; [by constructor|fold payload; lia|].
    left. constructor; [by eexists|constructor].
Qed.

(** A value alone, on a topic without channel. *)
Lemma publish_plain_run (username clientID tstr val : list Z) (topic : CayenneTopic) s :
  let cl := client s in
  let text := topic_text username clientID tstr in
  let t := cstring_topic (Some text) in
  y_username (user s) = Some username → y_clientID (user s) = Some clientID →
  topic_string topic = Some tstr → zlen tstr < 20 → topic ≠ COMMAND_TOPIC →
  is_cstring tstr → is_cstring username → is_cstring clientID → is_cstring val →
  zlen text + zlen val + 2 ≤ CAYENNE_MAX_MESSAGE_SIZE + 1 →
  MQTTPacket_len (zlen (publish_body 0 stack_packetid t val)) ≤ c_buf_size cl →
  c_isconnected cl = true → alive (world s) → buf_ok cl → times_ok cl (now (world s)) → (0 < fuel)%nat →
  0 ≤ c_keepAliveInterval cl →
  now (world s) + 100000 + 1000000 * c_keepAliveInterval cl < 2147483646000000 →
  ∃ s', CayenneMQTTPublishData None topic CAYENNE_NO_CHANNEL None None (Some val) s = Ok (MQTT_SUCCESS, s') ∧
    sent (world s') = sent (world s) ++ publish_packet 0 0 1 stack_packetid t val ∧ published s s'.
Proof.
  intros cl text t Hun Hid Hts H20 Htop Hc1 Hc2 Hc3 Hc4 Hlen Hfit. intros.
  pose proof (publish_run None topic CAYENNE_NO_CHANNEL None None (Some val) text val s) as Hr. cbv zeta in Hr.
  fold t cl in Hr. rewrite (proj2 (Z.leb_le _ _)) in Hr by done. rewrite bool_decide_eq_true_2 in Hr by done.
  unfold CAYENNE_MAX_MESSAGE_SIZE in Hlen. apply Hr; try done.
  - rewrite Hun, Hid. apply (build_topic_plain (replicate 135 0)); try done. fold text. rewrite length_replicate. lia.
  - unfold text, topic_text. rewrite !is_cstring_app. split_and!; try done; decide_vm.
  - intros b Hb1 Hb2. apply build_value_fits; [done|lia|done].
Qed.

(** [C7] Publishing a value puts one packet on the wire: with a connected client
    on a responsive network, [CayenneMQTTPublishData] sends exactly the QoS 0
    PUBLISH packet, retained unless it is a command, whose topic is
    "v1/<user>/things/<client>/<topic>/<channel>" and whose payload is
    "<type>,<unit>=<value>", and returns success, when topic and payload fit
    the message buffer and the packet the send buffer; a packet that does not
    fit the send buffer is reported as a failure and nothing is sent. *)
Theorem publish_data (c : option (list Z)) (username clientID type tstr : list Z) (v : CayenneValuePair)
    (topic : CayenneTopic) (ch : Z) s :
  let cl := client s in
  let text := topic_text username clientID (channel_suffix tstr ch) in
  let payload := data_text type [v] in
  let t := cstring_topic (Some text) in
  let body := publish_body 0 stack_packetid t payload in
  let fits := MQTTPacket_len (zlen body) <=? c_buf_size cl in
  y_username (user s) = Some username →
  match c with Some x => Some x | None => y_clientID (user s) end = Some clientID →
  topic_string topic = Some tstr → zlen tstr ≤ 8 → 0 ≤ ch →
  ch ≠ CAYENNE_NO_CHANNEL → ch ≠ CAYENNE_ALL_CHANNELS →
  is_cstring tstr → is_cstring username → is_cstring clientID → is_cstring type → type ≠ [] → pair_ok v → value v ≠ None →
  zlen text + zlen payload + 2 ≤ CAYENNE_MAX_MESSAGE_SIZE + 1 →
  c_isconnected cl = true → alive (world s) → buf_ok cl → times_ok cl (now (world s)) → (0 < fuel)%nat →
  0 ≤ c_keepAliveInterval cl →
  now (world s) + 100000 + 1000000 * c_keepAliveInterval cl < 2147483646000000 →
  ∃ s', CayenneMQTTPublishData c topic ch (Some type) (unit v) (value v) s =
      Ok (if fits then MQTT_SUCCESS else MQTT_FAILURE, s') ∧
    sent (world s') = sent (world s) ++
      (if fits then publish_packet 0 0 (if bool_decide (topic ≠ COMMAND_TOPIC) then 1 else 0)
                      stack_packetid t payload else []) ∧
    user s' = user s.
Proof.
  intros cl text payload t body fits. intros.
  destruct (publish_data_run c username clientID type tstr v topic ch s) as (s' & E & Hs & []); [done..|].
  by exists s'.
Qed.
End Publishing.

(** ** Runs in the concrete world *)

(** Handlers that record their name and the channel of the message. *)
#[export] Instance sim_cayenne : CayenneCallbacks sim (list (Z * Z)) Z := {|
  run_cayenne g m := modify (λ s, with_app ((g, cm_channel m) :: y_app (user s)) s);
  stack_message := {| cm_clientID := None; cm_topic := UNDEFINED_TOPIC; cm_channel := 0; cm_id := None;
                      cm_type := None; cm_values := replicate 4 no_pair; cm_valueCount := 0 |};
  stack_publish := Build_publish_out 0 0 0 0 MQTTString_initializer 0 0;
  stack_packetid := 0 |}.

#[export] Instance sim_app : AppHandlers sim (list (Z * Z)) Z.
Proof. exists (λ g m _ y, (g, cm_channel m) :: y). done. Defined.

(** A client of user "u" and device "d" with the default handler 99, connected
    or not, whose peer sends [i]. *)
Definition sim_cstate (con : bool) (i : list Z) : CState sim (list (Z * Z)) Z :=
  match CayenneMQTTClientInit (replicate 135 0) (replicate 135 0) (Some (bytes "u")) (Some (bytes "p"))
          (Some (bytes "d")) (Some 99)
          (MkSt (MQTTClientInit 0 [] 0 [] 0 0) {| sim_time := 0; sim_in := i; sim_out := [] |}
             (Build_CayenneData None None None [] None [])) with
  | Ok (_, s) => MkSt (set_isconnected con (client s)) (world s) (user s)
  | Fault _ => MkSt (MQTTClientInit 0 [] 0 [] 0 0) {| sim_time := 0; sim_in := i; sim_out := [] |}
                 (Build_CayenneData None None None [] None [])
  end.

(** The state in which the command "7,on" for channel 3 lies in the read buffer,
    with handler 1 registered for channel 3 of [c]. *)
Definition command_buf : list Z :=
  arrived_buf (bytes "u") (bytes "d") (bytes "7") (bytes "on") [48; 30; 0; 24] [] (replicate 99 0) 3 0.
Definition sim_command (c : option (list Z)) : CState sim (list (Z * Z)) Z :=
  with_table (register {| h_clientID := c; h_topic := COMMAND_TOPIC; h_channel := 3; h_fp := Some 1 |}
                (y_messageHandlers (user (sim_cstate true []))))
    (with_readbuf command_buf (sim_cstate true [])).
Definition sim_command_msg : MQTTMessage Z :=
  Build_MQTTMessage 0 0 0 0 (payload_off (bytes "u") (bytes "d") [48; 30; 0; 24] [] 3) 4.

Lemma message_dispatch_witness :
  match MQTTMessageArrived (command_topic (bytes "u") (bytes "d") [48; 30; 0; 24] 3) sim_command_msg
          (sim_command (Some (bytes "d"))) with
  | Ok (_, s') => y_app (user s') = [(1, 3)]
  | Fault _ => False
  end.
Proof.
  pose proof (message_dispatch (N := sim) (Y := list (Z * Z)) (CH := Z) eq_refl
    (bytes "u") (bytes "d") (bytes "7") (bytes "on") [48; 30; 0; 24] [] (replicate 99 0) 3 0) as H.
  specialize (H ltac:(decide_vm) ltac:(decide_vm) ltac:(decide_vm) ltac:(decide_vm) ltac:(decide_vm)
    ltac:(decide_vm) ltac:(decide_vm) ltac:(decide_vm) sim_command_msg (sim_command (Some (bytes "d")))
    eq_refl eq_refl eq_refl eq_refl eq_refl).
  destruct H as [E _].
  - change (y_messageHandlers _) with
      ({| h_clientID := Some (bytes "d"); h_topic := COMMAND_TOPIC; h_channel := 3; h_fp := Some 1 |} ::
       replicate 4 no_handler).
    apply Forall_cons_2; [right; right; discriminate|]. apply Forall_replicate. by left.
  - rewrite E. vm_compute. reflexivity.
Defined.

Lemma null_client_crashes_witness :
  MQTTMessageArrived (command_topic (bytes "u") (bytes "d") [48; 30; 0; 24] 3) sim_command_msg
    (sim_command None) = Fault NullDeref.
Proof.
  exact (null_client_crashes (N := sim) (Y := list (Z * Z)) (CH := Z) eq_refl
    (bytes "u") (bytes "d") (bytes "7") (bytes "on") [48; 30; 0; 24] [] (replicate 99 0) 3 0
    ltac:(decide_vm) ltac:(decide_vm) ltac:(decide_vm) ltac:(decide_vm) ltac:(decide_vm)
    ltac:(decide_vm) ltac:(decide_vm) sim_command_msg (sim_command None)
    [] (replicate 4 no_handler) {| h_clientID := None; h_topic := COMMAND_TOPIC; h_channel := 3; h_fp := Some 1 |} 1
    eq_refl eq_refl eq_refl eq_refl eq_refl eq_refl (Forall_nil_2 _) eq_refl eq_refl (or_introl eq_refl) eq_refl).
Defined.

(** Subscribing to the commands of channel 3 against a peer that grants it. *)
Definition sim_subscribing : CState sim (list (Z * Z)) Z := sim_cstate true [144; 3; 0; 2; 0].
#[local] Instance sim_rounds : Fuel := Z.to_nat 100.

Lemma subscribe_registers_witness :
  match CayenneMQTTSubscribe None COMMAND_TOPIC 3 (Some 1) sim_subscribing with
  | Ok (rc, s') => rc = 0 ∧ y_messageHandlers (user s') =
      {| h_clientID := None; h_topic := COMMAND_TOPIC; h_channel := 3; h_fp := Some 1 |} :: replicate 4 no_handler
  | Fault _ => False
  end.
Proof.
  destruct (MQTTSubscribe (Some (bytes "v1/u/things/d/cmd/3")) QOS0 None sim_subscribing) as [[rc s1]|f] eqn:E.
  2: { vm_compute in E. discriminate E. }
  assert (Hr : rc = 0 ∧ y_messageHandlers (user s1) = replicate 5 no_handler)
    by (revert E; vm_compute; intros [= <- <-]; done).
  destruct Hr as [-> Ht].
  pose proof (subscribe_registers None COMMAND_TOPIC 3 1 (bytes "v1/u/things/d/cmd/3") 0 sim_subscribing s1) as H.
  cbv zeta in H. rewrite Ht in H. destruct H as [H _]; [|exact E|done|].
  - eexists. split; [vm_compute; reflexivity|vm_compute; reflexivity].
  - rewrite H. split; reflexivity.
Defined.

(** The same client unsubscribes. *)
Definition sim_unsubscribing : CState sim (list (Z * Z)) Z :=
  with_table ({| h_clientID := Some (bytes "d"); h_topic := COMMAND_TOPIC; h_channel := 3; h_fp := Some 1 |} ::
              {| h_clientID := Some (bytes "e"); h_topic := COMMAND_TOPIC; h_channel := 3; h_fp := Some 2 |} ::
              replicate 3 no_handler) (sim_cstate true [176; 2; 0; 2]).

Lemma unsubscribe_clears_witness :
  match CayenneMQTTUnsubscribe None COMMAND_TOPIC 3 sim_unsubscribing with
  | Ok (rc, s') => rc = 0 ∧ y_messageHandlers (user s') = no_handler ::
      {| h_clientID := Some (bytes "e"); h_topic := COMMAND_TOPIC; h_channel := 3; h_fp := Some 2 |} ::
      replicate 3 no_handler
  | Fault _ => False
  end.
Proof.
  destruct (MQTTUnsubscribe (Some (bytes "v1/u/things/d/cmd/3")) sim_unsubscribing) as [[rc s1]|f] eqn:E.
  2: { vm_compute in E. discriminate E. }
  assert (Hr : rc = 0 ∧ user s1 = user sim_unsubscribing)
    by (revert E; vm_compute; intros [= <- <-]; done).
  destruct Hr as [-> Ht].
  pose proof (unsubscribe_clears None (bytes "d") COMMAND_TOPIC 3 (bytes "v1/u/things/d/cmd/3") 0
    sim_unsubscribing s1) as H.
  cbv zeta in H. rewrite Ht in H. destruct H as [H _]; [|exact E|reflexivity|reflexivity| |].
  - eexists. split; [vm_compute; reflexivity|vm_compute; reflexivity].
  - repeat (apply Forall_cons_2; [intros ? ?; first [discriminate | by vm_compute]|]). apply Forall_nil_2.
  - rewrite H. split; reflexivity.
Defined.

Lemma publish_data_witness :
  let s := sim_cstate true [] in
  ∃ s', CayenneMQTTPublishData None DATA_TOPIC 1 (Some (bytes "temp")) (Some (bytes "c")) (Some (bytes "21")) s =
      Ok (0, s') ∧
    sent (world s') = [49; 31; 0; 20] ++ bytes "v1/u/things/d/data/1" ++ bytes "temp,c=21" ∧
    user s' = user s.
Proof.
  intros s. pose proof (publish_data None (bytes "u") (bytes "d") (bytes "temp") (bytes "data")
    {| unit := Some (bytes "c"); value := Some (bytes "21") |} DATA_TOPIC 1 s) as Hr.
  conclude_with Hr ltac:(first [decide_vm | reflexivity | discriminate
    | vm_compute; intuition discriminate | unfold fuel, sim_rounds; lia]).
Defined.

(** A session of the Cayenne client. *)
Definition cayenne_session : list (cayenne_call Z) :=
  [CCConnect; CCPublishInt None DATA_TOPIC 1 (Some (bytes "temp")) (Some (bytes "c")) 21;
   CCSubscribe (Some (bytes "d")) COMMAND_TOPIC CAYENNE_ALL_CHANNELS (Some 1); CCYield 5; CCDisconnect].
Definition cayenne_peer : list Z :=
  [32; 2; 0; 0] ++ [144; 3; 0; 2; 0] ++ [48; 25; 0; 19] ++ bytes "v1/u/things/d/cmd/3" ++ bytes "7,on".
Definition cayenne_fuel : Fuel := Z.to_nat 30000001.

Lemma cayenne_calls_return_witness :
  match @run_cayenne_calls sim (list (Z * Z)) Z _ _ cayenne_fuel _ cayenne_session
          (sim_cstate false cayenne_peer) with
  | Ok (rcs, s') => same_shape (client (sim_cstate false cayenne_peer)) (client s') ∧
      now (world (sim_cstate false cayenne_peer)) ≤ now (world s')
  | Fault f => f ≠ OutOfFuel
  end.
Proof.
  assert (Hf : Z.of_nat (fuel (Fuel := cayenne_fuel)) = 30000001)
    by (unfold fuel, cayenne_fuel; by rewrite Z2Nat.id).
  apply (@cayenne_calls_return sim (list (Z * Z)) Z _ _ _ _ cayenne_fuel _).
  - intros g m s _. apply wp_modify. by split; [split|].
  - rewrite Hf. lia.
  - unfold cayenne_session. do 3 (apply Forall_cons_2; [exact I|]).
    apply Forall_cons_2; [cbn [cayenne_ok]; rewrite Hf; by vm_compute|].
    apply Forall_cons_2; [exact I|]. apply Forall_nil_2.
  - unfold timeout_ok. rewrite Hf. change (c_command_timeout_ms _) with 30000. lia.
Defined.

(** What the session does: the handler is run for the command. *)
Example cayenne_session_runs :
  match @run_cayenne_calls sim (list (Z * Z)) Z _ _ (Z.to_nat 5000) _ cayenne_session
          (sim_cstate false cayenne_peer) with
  | Ok (rcs, s') => rcs = [0; 0; 0; 0; 0] ∧ y_app (user s') = [(1, 3)]
  | Fault _ => False
  end.
Proof. vm_compute. split; reflexivity. Qed.
