(* ===== verification/Storage.v ===== *)
(** * esp32iot_storage.c: settings in flash

    Models [src/main/src/Storage/esp32iot_storage.c].  The NVS library of the
    ESP-IDF is not part of the sources: it is the class [Nvs], a parameter, and
    [NvsLaws] states what its documentation promises.  Logging is left out; an
    error that [ESP_ERROR_CHECK] sees stops the program with [EspAbort]. *)

From S2P Require Import Prelude CString.

Definition GENERAL_STORAGE_NAMESPACE : list Z := bytes "general_storage".
Definition WIFI_SETTINGS_STORAGE_NAMESPACE : list Z := bytes "wifi_storage".

(** The error codes the sources name, and the others by number. *)
Inductive esp_err :=
| ESP_OK
| ESP_ERR_NVS_BASE | ESP_ERR_NVS_NOT_INITIALIZED | ESP_ERR_NVS_NOT_FOUND | ESP_ERR_NVS_TYPE_MISMATCH
| ESP_ERR_NVS_READ_ONLY | ESP_ERR_NVS_NOT_ENOUGH_SPACE | ESP_ERR_NVS_INVALID_NAME
| ESP_ERR_NVS_INVALID_HANDLE | ESP_ERR_NVS_REMOVE_FAILED | ESP_ERR_NVS_KEY_TOO_LONG
| ESP_ERR_NVS_PAGE_FULL | ESP_ERR_NVS_INVALID_STATE | ESP_ERR_NVS_NO_FREE_PAGES
| ESP_ERR_NVS_VALUE_TOO_LONG | ESP_ERR_NVS_PART_NOT_FOUND
| ESP_ERR_OTHER (code : Z).

#[export] Instance esp_err_eq_dec : EqDecision esp_err.
Proof. solve_decision. Defined.

(** The text of a code; [ESP_OK] is zero and the last case names the wrong code. *)
Definition nvs_event_to_string (ev : esp_err) : list Z :=
  match ev with
  | ESP_ERR_NVS_BASE => bytes "ESP_ERR_NVS_BASE"
  | ESP_ERR_NVS_NOT_INITIALIZED => bytes "ESP_ERR_NVS_NOT_INITIALIZED"
  | ESP_ERR_NVS_NOT_FOUND => bytes "ESP_ERR_NVS_NOT_FOUND"
  | ESP_ERR_NVS_TYPE_MISMATCH => bytes "ESP_ERR_NVS_TYPE_MISMATCH"
  | ESP_ERR_NVS_READ_ONLY => bytes "ESP_ERR_NVS_READ_ONLY"
  | ESP_ERR_NVS_NOT_ENOUGH_SPACE => bytes "ESP_ERR_NVS_NOT_ENOUGH_SPACE"
  | ESP_ERR_NVS_INVALID_NAME => bytes "ESP_ERR_NVS_INVALID_NAME"
  | ESP_ERR_NVS_INVALID_HANDLE => bytes "ESP_ERR_NVS_INVALID_HANDLE"
  | ESP_ERR_NVS_REMOVE_FAILED => bytes "ESP_ERR_NVS_REMOVE_FAILED"
  | ESP_ERR_NVS_KEY_TOO_LONG => bytes "ESP_ERR_NVS_KEY_TOO_LONG"
  | ESP_ERR_NVS_PAGE_FULL => bytes "ESP_ERR_NVS_PAGE_FULL"
  | ESP_ERR_NVS_INVALID_STATE => bytes "ESP_ERR_NVS_INVALID_STATE"
  | ESP_ERR_NVS_NO_FREE_PAGES => bytes "ESP_ERR_NVS_NO_FREE_PAGES"
  | ESP_ERR_NVS_VALUE_TOO_LONG => bytes "ESP_ERR_NVS_VALUE_TOO_LONG"
  | ESP_ERR_NVS_PART_NOT_FOUND => bytes "ESP_ERR_NVS_VALUE_TOO_LONG"
  | ESP_OK => bytes "Unknown event: 0"
  | ESP_ERR_OTHER code => bytes "Unknown event: " ++ sdec code
  end.

(** The NVS library on a flash [F].  [nvs_get_str] with a NULL buffer is
    [nvs_str_size]; an out parameter a call does not set is [None].  The bytes
    [nvs_get_str] yields are what it writes to the caller's buffer.  The calls
    that write the flash are computations, which may be cut off before they
    return (by a loss of power, say), whatever they have written.
    [malloc_ok] is whether [malloc] of so many bytes succeeds. *)
Class Nvs (F : Type) := {
  nvs_flash_init : F → esp_err * F;
  nvs_flash_erase : M F esp_err;
  nvs_open : list Z → F → esp_err * Z * F;
  nvs_close : Z → F → F;
  nvs_str_size : Z → list Z → F → esp_err * option Z;
  nvs_get_str : Z → list Z → Z → F → esp_err * list Z;
  nvs_set_str : Z → list Z → list Z → M F esp_err;
  nvs_get_i32 : Z → list Z → F → esp_err * option Z;
  nvs_set_i32 : Z → list Z → Z → M F esp_err;
  nvs_commit : Z → M F esp_err;
  nvs_erase_all : Z → M F esp_err;
  malloc_ok : Z → F → bool }.

(** The same library when every call that writes the flash is cut off: a run
    that ends with it as it does with any library of this kind, whatever [e], has
    begun no write. *)
Definition cut_off {F} (N : Nvs F) (e : fault) : Nvs F := {|
  nvs_flash_init := @nvs_flash_init F N;
  nvs_flash_erase := fail e;
  nvs_open := @nvs_open F N;
  nvs_close := @nvs_close F N;
  nvs_str_size := @nvs_str_size F N;
  nvs_get_str := @nvs_get_str F N;
  nvs_set_str _ _ _ := fail e;
  nvs_get_i32 := @nvs_get_i32 F N;
  nvs_set_i32 _ _ _ := fail e;
  nvs_commit _ := fail e;
  nvs_erase_all _ := fail e;
  malloc_ok := @malloc_ok F N |}.

Section Storage.
Context {F : Type} `{!Nvs F}.
Abbreviation MF := (M F).

Definition call (g : F → esp_err * F) : MF esp_err := λ f, let '(e, f') := g f in Ok (e, f').

(** [ESP_ERROR_CHECK(err)]; the [return err] behind it is never reached. *)
Definition esp_error_check (err : esp_err) : MF () :=
  if bool_decide (err = ESP_OK) then mret () else fail EspAbort.

(** [if (err != ESP_OK && err != ESP_ERR_NVS_NOT_FOUND)] in front of it. *)
Definition check_found (err : esp_err) : MF () :=
  if bool_decide (err = ESP_OK ∨ err = ESP_ERR_NVS_NOT_FOUND) then mret () else fail EspAbort.

Definition storage_init : MF esp_err :=
  err ← call nvs_flash_init;
  if bool_decide (err = ESP_ERR_NVS_NO_FREE_PAGES) then
    err ← nvs_flash_erase;
    esp_error_check err ;;
    err ← call nvs_flash_init;
    esp_error_check err ;;
    mret err
  else
    esp_error_check err ;;
    mret err.

(** [nvs_open] of a namespace and the check of its result. *)
Definition open_checked (ns : list Z) : MF Z :=
  '(err, h) ← (λ f, let '(e, h, f') := nvs_open ns f in Ok ((e, h), f'));
  esp_error_check err ;;
  mret h.

Definition close (h : Z) : MF () := modify (nvs_close h).

Definition erase_storage : MF esp_err :=
  h ← open_checked WIFI_SETTINGS_STORAGE_NAMESPACE;
  err ← nvs_erase_all h;
  check_found err ;;
  close h ;;
  mret ESP_OK.

(** The size of the string under a key, 0 if there is none. *)
Definition required_size (h : Z) (key : list Z) : MF Z :=
  '(err, size) ← gets (nvs_str_size h key);
  check_found err ;;
  mret (default 0 size).

(** Writing one string: the size is read first, and not used. *)
Definition put_str (h : Z) (key val : list Z) : MF () :=
  required_size h key ;;
  err ← nvs_set_str h key val;
  esp_error_check err.

Definition commit_close (h : Z) : MF esp_err :=
  err ← nvs_commit h;
  esp_error_check err ;;
  close h ;;
  mret ESP_OK.

Definition save_wifi (ssid password : list Z) : MF esp_err :=
  h ← open_checked WIFI_SETTINGS_STORAGE_NAMESPACE;
  put_str h ssid password ;;
  commit_close h.

(** Reading one string through a local array of [size] bytes, copied to the
    caller's buffer [dst]; nothing is copied if there is none. *)
Definition get_str_local (h : Z) (key : list Z) (size : nat) (dst : list Z) : MF (list Z) :=
  n ← required_size h key;
  if n =? 0 then mret dst else
  '(err, d) ← gets (nvs_get_str h key n);
  found ← lift (store_bytes (replicate size 0) 0 d);
  esp_error_check err ;;
  s ← lift (cstr found);
  lift (strcpy dst s).

(** The buffer [password] after the call. *)
Definition get_wifi (ssid password : list Z) : MF (esp_err * list Z) :=
  h ← open_checked WIFI_SETTINGS_STORAGE_NAMESPACE;
  password ← get_str_local h ssid 64 password;
  close h ;;
  mret (ESP_OK, password).

Definition save_last_connected_wifi (ssid password : list Z) : MF esp_err :=
  h ← open_checked WIFI_SETTINGS_STORAGE_NAMESPACE;
  put_str h (bytes "last_ssid") ssid ;;
  put_str h (bytes "last_password") password ;;
  commit_close h.

Definition get_last_connected_wifi (ssid password : list Z) : MF (esp_err * list Z * list Z) :=
  h ← open_checked WIFI_SETTINGS_STORAGE_NAMESPACE;
  ssid ← get_str_local h (bytes "last_ssid") 33 ssid;
  password ← get_str_local h (bytes "last_password") 64 password;
  close h ;;
  mret (ESP_OK, ssid, password).

Definition save_last_connected_mqtt (username password clientID : list Z) : MF esp_err :=
  h ← open_checked WIFI_SETTINGS_STORAGE_NAMESPACE;
  put_str h (bytes "mqtt_user") username ;;
  put_str h (bytes "mqtt_pass") password ;;
  put_str h (bytes "mqtt_id") clientID ;;
  commit_close h.

(** Reading one string through an array from [malloc]; a NULL array makes
    [nvs_get_str] report the size only and [strcpy] read from NULL. *)
Definition get_str_heap (h : Z) (key dst : list Z) : MF (list Z) :=
  n ← required_size h key;
  if n =? 0 then mret dst else
  ok ← gets (malloc_ok n);
  if ok : bool then
    '(err, d) ← gets (nvs_get_str h key n);
    found ← lift (store_bytes (replicate (Z.to_nat n) 0) 0 d);
    esp_error_check err ;;
    s ← lift (cstr found);
    lift (strcpy dst s)
  else
    '(err, _) ← gets (nvs_str_size h key);
    esp_error_check err ;;
    fail NullDeref.

Definition get_last_connected_mqtt (username password clientID : list Z) :
    MF (esp_err * list Z * list Z * list Z) :=
  h ← open_checked WIFI_SETTINGS_STORAGE_NAMESPACE;
  username ← get_str_heap h (bytes "mqtt_user") username;
  password ← get_str_heap h (bytes "mqtt_pass") password;
  clientID ← get_str_heap h (bytes "mqtt_id") clientID;
  close h ;;
  mret (ESP_OK, username, password, clientID).

(** The [int32_t] under "restart_counter", 0 if there is none. *)
Definition read_counter (h : Z) : MF Z :=
  '(err, v) ← gets (nvs_get_i32 h (bytes "restart_counter"));
  check_found err ;;
  mret (default 0 v).

Definition write_counter (h v : Z) : MF () :=
  err ← nvs_set_i32 h (bytes "restart_counter") v;
  esp_error_check err.

Definition save_restart_counter : MF esp_err :=
  h ← open_checked GENERAL_STORAGE_NAMESPACE;
  restart_counter ← read_counter h;
  restart_counter ← lift (chk32 (restart_counter + 1));
  write_counter h restart_counter ;;
  commit_close h.

(** The code, and the number the call prints. *)
Definition get_restart_counter : MF (esp_err * Z) :=
  h ← open_checked GENERAL_STORAGE_NAMESPACE;
  restart_counter ← read_counter h;
  close h ;;
  mret (ESP_OK, restart_counter).

Definition reset_restart_counter : MF esp_err :=
  h ← open_checked GENERAL_STORAGE_NAMESPACE;
  write_counter h 0 ;;
  commit_close h.
End Storage.

(** ** What the NVS library promises *)

Inductive nvs_item := NStr (s : list Z) | NI32 (v : Z).

(** The documented limit of a stored string, terminator included, in bytes. *)
Definition NVS_MAX_STRING : Z := 1984.

(** [items]: what is stored per namespace and key; [opened]: the namespace of a
    handle; [healthy]: the flash takes writes. *)
Class NvsLaws (F : Type) `{!Nvs F} := {
  items : F → gmap (list Z * list Z) nvs_item;
  opened : F → Z → option (list Z);
  healthy : F → Prop;
  open_law ns f : healthy f →
    ∃ h f', nvs_open ns f = (ESP_OK, h, f') ∧ opened f' h = Some ns ∧ items f' = items f ∧ healthy f';
  close_law h f : items (nvs_close h f) = items f ∧ (healthy f → healthy (nvs_close h f));
  size_law h ns key f : opened f h = Some ns →
    match items f !! (ns, key) with
    | Some (NStr s) => nvs_str_size h key f = (ESP_OK, Some (zlen s + 1))
    | Some (NI32 _) => (nvs_str_size h key f).1 ≠ ESP_OK
    | None => nvs_str_size h key f = (ESP_ERR_NVS_NOT_FOUND, None)
    end;
  get_law h ns key s f : opened f h = Some ns → items f !! (ns, key) = Some (NStr s) →
    nvs_get_str h key (zlen s + 1) f = (ESP_OK, s ++ [0]);
  set_law h ns key s f : opened f h = Some ns → healthy f → zlen key ≤ 15 → zlen s < NVS_MAX_STRING →
    ∃ f', nvs_set_str h key s f = Ok (ESP_OK, f') ∧ items f' = <[(ns, key) := NStr s]> (items f) ∧
          opened f' = opened f ∧ healthy f';
  long_key_law h key s f : 15 < zlen key → ∃ e f', nvs_set_str h key s f = Ok (e, f') ∧ e ≠ ESP_OK;
  get_i32_law h ns key f : opened f h = Some ns →
    match items f !! (ns, key) with
    | Some (NI32 v) => nvs_get_i32 h key f = (ESP_OK, Some v)
    | Some (NStr _) => (nvs_get_i32 h key f).1 ≠ ESP_OK
    | None => nvs_get_i32 h key f = (ESP_ERR_NVS_NOT_FOUND, None)
    end;
  set_i32_law h ns key v f : opened f h = Some ns → healthy f → zlen key ≤ 15 →
    ∃ f', nvs_set_i32 h key v f = Ok (ESP_OK, f') ∧ items f' = <[(ns, key) := NI32 v]> (items f) ∧
          opened f' = opened f ∧ healthy f';
  commit_law h f : healthy f →
    ∃ f', nvs_commit h f = Ok (ESP_OK, f') ∧ items f' = items f ∧ healthy f' }.

(** Where the settings and the counter are. *)
Abbreviation WIFI := WIFI_SETTINGS_STORAGE_NAMESPACE.
Abbreviation COUNTER := (GENERAL_STORAGE_NAMESPACE, bytes "restart_counter").

Section StorageProofs.
Context {F : Type} `{!Nvs F, !NvsLaws F}.
Implicit Types (f : F).

(** A state with the handle [h] open on [ns] and the items [m]. *)
Definition ready (ns : list Z) (h : Z) (m : gmap (list Z * list Z) nvs_item) f : Prop :=
  opened f h = Some ns ∧ items f = m ∧ healthy f.

Lemma twp_open {A} ns (k : Z → M F A) Q f :
  healthy f → (∀ h f', ready ns h (items f) f' → twp (k h) Q f') → twp (open_checked ns ≫= k) Q f.
Proof.
  intros Hh Hk. destruct (open_law ns f Hh) as (h & f' & E & Ho & Hi & Hh').
  apply twp_bind. unfold open_checked, twp, mbind, M_bind. rewrite E.
  apply (Hk h f'). by split.
Qed.

Lemma twp_check {A} err (k : () → M F A) Q f :
  err = ESP_OK → twp (k ()) Q f → twp (esp_error_check err ≫= k) Q f.
Proof. by intros ->. Qed.

(** The namespace holds no number under the key. *)
Definition str_key (m : gmap (list Z * list Z) nvs_item) (ns key : list Z) : Prop :=
  ∀ v, m !! (ns, key) ≠ Some (NI32 v).

Lemma required_size_run ns h m key f :
  ready ns h m f → str_key m ns key →
  required_size h key f =
  Ok (match m !! (ns, key) with Some (NStr s) => zlen s + 1 | _ => 0 end, f).
Proof.
  intros (Ho & Hi & _) Hk. pose proof (size_law h ns key f Ho) as Hs. rewrite Hi in Hs.
  unfold required_size, mbind, M_bind, gets, check_found.
  specialize (Hk : ∀ v, _). destruct (m !! (ns, key)) as [[s|v]|] eqn:E; [| |]; try (by destruct (Hk v)).
  all: rewrite Hs; by rewrite bool_decide_eq_true_2 by tauto.
Qed.

Lemma twp_put_str {A} ns h m key val (k : () → M F A) Q f :
  ready ns h m f → str_key m ns key → zlen key ≤ 15 → zlen val < NVS_MAX_STRING →
  (∀ f', ready ns h (<[(ns, key) := NStr val]> m) f' → twp (k ()) Q f') →
  twp (put_str h key val ≫= k) Q f.
Proof.
  intros Hr Hk Hl Hv HQ. pose proof Hr as (Ho & Hi & Hh). apply twp_bind. unfold put_str.
  apply twp_bind. unfold twp at 1. rewrite (required_size_run ns h m) by done.
  apply twp_bind. unfold twp at 1. destruct (set_law h ns key val f Ho Hh Hl Hv) as (f' & -> & Hi' & Ho' & Hh').
  apply HQ. split_and!; [congruence|by rewrite Hi', Hi|done].
Qed.

Lemma twp_commit_close ns h m (Q : esp_err → F → Prop) f :
  ready ns h m f → (∀ f', items f' = m → healthy f' → Q ESP_OK f') → twp (commit_close h) Q f.
Proof.
  intros (Ho & Hi & Hh) HQ. unfold commit_close. apply twp_bind. unfold twp at 1.
  destruct (commit_law h f Hh) as (f' & -> & Hi' & Hh'). apply twp_check; [done|].
  apply twp_bind, twp_modify, twp_ret. destruct (close_law h f') as [? ?]. apply HQ; [congruence|auto].
Qed.

Lemma twp_close {A} ns h m (a : A) (Q : A → F → Prop) f :
  ready ns h m f → (∀ f', items f' = m → healthy f' → Q a f') → twp (close h ;; mret a) Q f.
Proof.
  intros (Ho & Hi & Hh) HQ. apply twp_bind, twp_modify, twp_ret. destruct (close_law h f) as [? ?].
  apply HQ; [congruence|auto].
Qed.

(** A buffer into which the string [s] was copied. *)
Definition copied (dst s : list Z) : list Z := s ++ 0 :: drop (S (length s)) dst.

Lemma strcpy_fits dst s : zlen s + 1 ≤ zlen dst → strcpy dst s = Ok (copied dst s).
Proof.
  intros Hl. unfold strcpy, copied. rewrite <- (take_drop (length (s ++ [0])) dst) at 1.
  pose proof (store_bytes_app [] (take (length (s ++ [0])) dst) (drop (length (s ++ [0])) dst) (s ++ [0])) as E.
  cbn [app length] in E. change (Z.of_nat 0) with 0 in E. rewrite E.
  - rewrite length_app. cbn [length]. rewrite Nat.add_1_r, <- app_assoc. done.
  - rewrite length_take, length_app. cbn [length]. lia.
Qed.

(** A string read through a local array of [size] bytes arrives if it fits the
    array, and overruns it otherwise. *)
Lemma get_str_local_run ns h m key s size dst f :
  ready ns h m f → m !! (ns, key) = Some (NStr s) → is_cstring s → zlen s + 1 ≤ zlen dst →
  get_str_local h key size dst f =
  if zlen s <? Z.of_nat size then Ok (copied dst s, f) else Fault OobWrite.
Proof.
  intros Hr Hm Hs Hd. unfold get_str_local. unfold mbind at 1, M_bind at 1.
  rewrite (required_size_run ns h m) by (done || (intros v; congruence)). rewrite Hm.
  rewrite (proj2 (Z.eqb_neq (zlen s + 1) 0)) by lia.
  destruct Hr as (Ho & Hi & Hh). unfold mbind, M_bind, gets.
  rewrite (get_law h ns key s f Ho) by congruence.
  destruct (Z.ltb_spec (zlen s) (Z.of_nat size)) as [Hlt|Hge]; unfold lift.
  - unfold store_bytes. rewrite decide_True by (rewrite length_app, length_replicate; cbn [length]; lia).
    change (Z.to_nat 0) with 0%nat. rewrite take_0, <- app_assoc. cbn [app].
    change (esp_error_check ESP_OK f) with (Ok ((), f)). cbv beta iota.
    rewrite cstr_app by done. by rewrite strcpy_fits.
  - rewrite store_bytes_oob; [done|]. rewrite length_app, length_replicate. cbn [length]. lia.
Qed.

(** Through an array of the right size from the heap. *)
Lemma get_str_heap_run ns h m key s dst f :
  ready ns h m f → m !! (ns, key) = Some (NStr s) → is_cstring s →
  malloc_ok (zlen s + 1) f = true →
  get_str_heap h key dst f =
  if zlen s <? zlen dst then Ok (copied dst s, f) else Fault OobWrite.
Proof.
  intros Hr Hm Hs Hma. unfold get_str_heap. unfold mbind at 1, M_bind at 1.
  rewrite (required_size_run ns h m) by (done || (intros v; congruence)). rewrite Hm.
  rewrite (proj2 (Z.eqb_neq (zlen s + 1) 0)) by lia.
  destruct Hr as (Ho & Hi & Hh). unfold mbind, M_bind, gets. rewrite Hma.
  rewrite (get_law h ns key s f Ho) by congruence. unfold lift.
  unfold store_bytes. rewrite decide_True by (rewrite length_app, length_replicate; cbn [length]; lia).
  change (Z.to_nat 0) with 0%nat. rewrite take_0, <- app_assoc. cbn [app].
  change (esp_error_check ESP_OK f) with (Ok ((), f)). cbv beta iota. rewrite cstr_app by done.
  destruct (Z.ltb_spec (zlen s) (zlen dst)) as [Hlt|Hge].
  - by rewrite strcpy_fits by lia.
  - unfold strcpy. rewrite store_bytes_oob; [done|]. rewrite length_app. cbn [length]. lia.
Qed.


(** The string under a key, if there is one, and a buffer it was copied to. *)
Definition holds (m : gmap (list Z * list Z) nvs_item) (ns key : list Z) (o : option (list Z)) : Prop :=
  m !! (ns, key) = NStr <$> o.
Definition copied_from (dst : list Z) (o : option (list Z)) : list Z :=
  match o with Some s => copied dst s | None => dst end.
Definition string_ok (n : Z) (o : option (list Z)) : Prop :=
  match o with Some s => is_cstring s ∧ zlen s < n | None => True end.

Lemma get_str_local_holds ns h m key o size dst f :
  ready ns h m f → holds m ns key o → string_ok (zlen dst) o → string_ok (Z.of_nat size) o →
  get_str_local h key size dst f = Ok (copied_from dst o, f).
Proof.
  intros Hr Hm Hd Hs. destruct o as [s|].
  - destruct Hs as [Hs Hl], Hd as [_ Hd]. rewrite (get_str_local_run ns h m key s) by (done || lia).
    by rewrite (proj2 (Z.ltb_lt _ _)).
  - unfold get_str_local, mbind, M_bind. unfold holds in Hm. cbn in Hm.
    by rewrite (required_size_run ns h m), Hm by (done || (intros v; congruence)).
Qed.

(** Reading the credentials, whichever of them are there. *)
Lemma twp_get_last_wifi os op sbuf pbuf f :
  healthy f → holds (items f) WIFI (bytes "last_ssid") os → holds (items f) WIFI (bytes "last_password") op →
  string_ok (Z.min 33 (zlen sbuf)) os → string_ok (Z.min 64 (zlen pbuf)) op →
  twp (get_last_connected_wifi sbuf pbuf) (λ r f', r = (ESP_OK, copied_from sbuf os, copied_from pbuf op) ∧
    items f' = items f ∧ healthy f') f.
Proof.
  intros Hh Ho Hp Hs1 Hp1. unfold get_last_connected_wifi. apply twp_open; [done|]. intros h f1 Hr.
  assert (Hw : ∀ n m o, n ≤ m → string_ok n o → string_ok m o) by (intros n m [] ?; [cbn; intros []; split; [done|lia]|done]).
  apply twp_bind. unfold twp at 1. rewrite (get_str_local_holds WIFI h (items f) _ os);
    [|done..|by eapply Hw; [|exact Hs1]; lia|by eapply Hw; [|exact Hs1]; lia].
  apply twp_bind. unfold twp at 1. rewrite (get_str_local_holds WIFI h (items f) _ op);
    [|done..|by eapply Hw; [|exact Hp1]; lia|by eapply Hw; [|exact Hp1]; lia].
  by eapply twp_close; [exact Hr|].
Qed.

Lemma twp_save_last_wifi ssid password f :
  healthy f → str_key (items f) WIFI (bytes "last_ssid") → str_key (items f) WIFI (bytes "last_password") →
  zlen ssid < NVS_MAX_STRING → zlen password < NVS_MAX_STRING →
  twp (save_last_connected_wifi ssid password) (λ e f1, e = ESP_OK ∧ healthy f1 ∧
    items f1 = <[(WIFI, bytes "last_password") := NStr password]>
                 (<[(WIFI, bytes "last_ssid") := NStr ssid]> (items f))) f.
Proof.
  intros Hh K1 K2 Hs1 Hp1. unfold save_last_connected_wifi. apply twp_open; [done|]. intros h f1 Hr1.
  eapply twp_put_str; [exact Hr1|done|by vm_compute|done|]. intros f2 Hr2.
  eapply twp_put_str; [exact Hr2|intros v; rewrite lookup_insert_ne by done; apply K2|by vm_compute|done|].
  intros f3 Hr3. by eapply twp_commit_close; [exact Hr3|].
Qed.

(** The credentials of the last network survive a restart: after
    [save_last_connected_wifi] on a flash that takes writes,
    [get_last_connected_wifi] copies exactly the saved name and password, with
    their terminators, to the caller's buffers, provided the name has at most
    32 characters and the password at most 63; longer ones overrun the local
    arrays of [get_last_connected_wifi]. *)
Theorem wifi_credentials_roundtrip (ssid password sbuf pbuf : list Z) f :
  healthy f → str_key (items f) WIFI (bytes "last_ssid") → str_key (items f) WIFI (bytes "last_password") →
  is_cstring ssid → is_cstring password →
  zlen ssid + 1 ≤ zlen sbuf → zlen password + 1 ≤ zlen pbuf →
  zlen ssid < NVS_MAX_STRING → zlen password < NVS_MAX_STRING →
  twp (save_last_connected_wifi ssid password) (λ e f1, e = ESP_OK ∧
    if (zlen ssid <? 33) && (zlen password <? 64)
    then twp (get_last_connected_wifi sbuf pbuf)
           (λ r f2, r = (ESP_OK, copied sbuf ssid, copied pbuf password) ∧ items f2 = items f1) f1
    else get_last_connected_wifi sbuf pbuf f1 = Fault OobWrite) f.
Proof.
  intros Hh K1 K2 Hs Hp Hsb Hpb Hs1 Hp1. eapply twp_mono; [by apply twp_save_last_wifi|].
  intros e f4 (-> & Hh4 & Hi4). cbn beta. split; [done|].
  assert (L1 : items f4 !! (WIFI, bytes "last_ssid") = Some (NStr ssid))
    by (by rewrite Hi4, lookup_insert_ne, lookup_insert_eq by done).
  assert (L2 : items f4 !! (WIFI, bytes "last_password") = Some (NStr password))
    by (by rewrite Hi4, lookup_insert_eq).
  destruct ((zlen ssid <? 33) && (zlen password <? 64)) eqn:E.
  - apply andb_true_iff in E as [E1%Z.ltb_lt E2%Z.ltb_lt].
    eapply twp_mono; [apply (twp_get_last_wifi (Some ssid) (Some password)); try done; split; (done || lia)|].
    intros r f2 (-> & ? & _). done.
  - destruct (open_law WIFI f4 Hh4) as (h5 & f5 & E5 & Ho & Hi & Hh5).
    assert (Hr5 : ready WIFI h5 (items f4) f5) by (by split).
    unfold get_last_connected_wifi, open_checked, mbind, M_bind. rewrite E5.
    change (esp_error_check ESP_OK f5) with (Ok ((), f5)). cbv beta iota. unfold mret at 1, M_ret at 1.
    rewrite (get_str_local_run WIFI h5 (items f4) _ ssid) by done.
    change (Z.of_nat 33) with 33. destruct (zlen ssid <? 33); [|done].
    rewrite (get_str_local_run WIFI h5 (items f4) _ password) by done.
    change (Z.of_nat 64) with 64. by destruct (zlen password <? 64).
Qed.

(** Reading one string of the MQTT account. *)
Lemma twp_get_heap {A} ns h m key s dst (k : list Z → M F A) Q f :
  ready ns h m f → m !! (ns, key) = Some (NStr s) → is_cstring s → malloc_ok (zlen s + 1) f = true →
  zlen s < zlen dst → twp (k (copied dst s)) Q f → twp (get_str_heap h key dst ≫= k) Q f.
Proof.
  intros Hr Hm Hs Hma Hl HQ. apply twp_bind. unfold twp at 1.
  rewrite (get_str_heap_run ns h m key s) by done. by rewrite (proj2 (Z.ltb_lt _ _)).
Qed.

Lemma twp_save_mqtt username password clientID f :
  healthy f → str_key (items f) WIFI (bytes "mqtt_user") → str_key (items f) WIFI (bytes "mqtt_pass") →
  str_key (items f) WIFI (bytes "mqtt_id") →
  zlen username < NVS_MAX_STRING → zlen password < NVS_MAX_STRING → zlen clientID < NVS_MAX_STRING →
  twp (save_last_connected_mqtt username password clientID) (λ e f1, e = ESP_OK ∧ healthy f1 ∧
    items f1 !! (WIFI, bytes "mqtt_user") = Some (NStr username) ∧
    items f1 !! (WIFI, bytes "mqtt_pass") = Some (NStr password) ∧
    items f1 !! (WIFI, bytes "mqtt_id") = Some (NStr clientID)) f.
Proof.
  intros Hh K1 K2 K3 L1 L2 L3. unfold save_last_connected_mqtt.
  apply twp_open; [done|]. intros h f1 Hr1.
  eapply twp_put_str; [exact Hr1|done|by vm_compute|done|]. intros f2 Hr2.
  eapply twp_put_str; [exact Hr2|intros v; rewrite lookup_insert_ne by done; apply K2|by vm_compute|done|].
  intros f3 Hr3. eapply twp_put_str; [exact Hr3|
    intros v; rewrite !lookup_insert_ne by done; apply K3|by vm_compute|done|].
  intros f4 Hr4. eapply twp_commit_close; [exact Hr4|]. intros f5 Hi Hh5. rewrite Hi. split_and!; try done.
  - by rewrite !lookup_insert_ne, lookup_insert_eq by done.
  - by rewrite lookup_insert_ne, lookup_insert_eq by done.
  - by rewrite lookup_insert_eq.
Qed.

Lemma twp_get_mqtt username password clientID ubuf pbuf cbuf f :
  (∀ n f, malloc_ok n f = true) → healthy f →
  items f !! (WIFI, bytes "mqtt_user") = Some (NStr username) →
  items f !! (WIFI, bytes "mqtt_pass") = Some (NStr password) →
  items f !! (WIFI, bytes "mqtt_id") = Some (NStr clientID) →
  is_cstring username → is_cstring password → is_cstring clientID →
  zlen username < zlen ubuf → zlen password < zlen pbuf → zlen clientID < zlen cbuf →
  twp (get_last_connected_mqtt ubuf pbuf cbuf) (λ r f2,
    r = (ESP_OK, copied ubuf username, copied pbuf password, copied cbuf clientID) ∧ items f2 = items f ∧ healthy f2) f.
Proof.
  intros Hma Hh M1 M2 M3 S1 S2 S3 B1 B2 B3. unfold get_last_connected_mqtt. apply twp_open; [done|]. intros h f1 Hr.
  do 3 (eapply twp_get_heap; [exact Hr|done..|]). by eapply twp_close; [exact Hr|].
Qed.

(** The MQTT account survives a restart: what [save_last_connected_mqtt]
    stored, [get_last_connected_mqtt] copies back exactly, for strings of any
    length the flash takes, if each of the caller's three buffers holds its
    string; if the buffer for the user name does not, the copy overruns it. *)
Theorem mqtt_account_roundtrip (username password clientID ubuf pbuf cbuf : list Z) f :
  (∀ n f, malloc_ok n f = true) → healthy f →
  str_key (items f) WIFI (bytes "mqtt_user") → str_key (items f) WIFI (bytes "mqtt_pass") →
  str_key (items f) WIFI (bytes "mqtt_id") →
  is_cstring username → is_cstring password → is_cstring clientID →
  zlen username < NVS_MAX_STRING → zlen password < NVS_MAX_STRING → zlen clientID < NVS_MAX_STRING →
  zlen password < zlen pbuf → zlen clientID < zlen cbuf →
  twp (save_last_connected_mqtt username password clientID) (λ e f1, e = ESP_OK ∧
    if zlen username <? zlen ubuf
    then twp (get_last_connected_mqtt ubuf pbuf cbuf) (λ r f2,
           r = (ESP_OK, copied ubuf username, copied pbuf password, copied cbuf clientID) ∧
           items f2 = items f1) f1
    else get_last_connected_mqtt ubuf pbuf cbuf f1 = Fault OobWrite) f.
Proof.
  intros Hma Hh K1 K2 K3 Hs1 Hs2 Hs3 L1 L2 L3 B2 B3. eapply twp_mono; [by apply twp_save_mqtt|].
  intros e f5 (-> & Hh5 & M1 & M2 & M3). cbn beta. split; [done|].
  destruct (Z.ltb_spec (zlen username) (zlen ubuf)) as [Hu|Hu].
  - eapply twp_mono; [by apply (twp_get_mqtt username password clientID)|]. by intros r f2 (-> & ? & _).
  - destruct (open_law WIFI f5 Hh5) as (h6 & f6 & E & Ho & Hi & Hh6).
    assert (Hr6 : ready WIFI h6 (items f5) f6) by (by split).
    unfold get_last_connected_mqtt, open_checked, mbind, M_bind. rewrite E.
    change (esp_error_check ESP_OK f6) with (Ok ((), f6)). cbv beta iota. unfold mret at 1, M_ret at 1.
    rewrite (get_str_heap_run WIFI h6 (items f5) _ username) by done. by rewrite (proj2 (Z.ltb_ge _ _)) by lia.
Qed.

(** [save_wifi] of a short and of a long name. *)
Lemma twp_save_wifi ssid password f :
  healthy f → str_key (items f) WIFI ssid → zlen password < NVS_MAX_STRING → zlen ssid ≤ 15 →
  twp (save_wifi ssid password) (λ e f', e = ESP_OK ∧ healthy f' ∧
    items f' = <[(WIFI, ssid) := NStr password]> (items f)) f.
Proof.
  intros Hh Hk Hp Hl. unfold save_wifi. apply twp_open; [done|]. intros h f1 Hr1.
  eapply twp_put_str; [exact Hr1|done|done|done|]. intros f2 Hr2.
  by eapply twp_commit_close; [exact Hr2|].
Qed.

Lemma save_wifi_long ssid password f :
  healthy f → str_key (items f) WIFI ssid → 15 < zlen ssid → save_wifi ssid password f = Fault EspAbort.
Proof.
  intros Hh Hk Hl. destruct (open_law WIFI f Hh) as (h & f1 & E & Ho & Hi & Hh1).
  unfold save_wifi, open_checked, put_str, mbind, M_bind. rewrite E.
  change (esp_error_check ESP_OK f1) with (Ok ((), f1)). cbv beta iota. unfold mret at 1, M_ret at 1.
  rewrite (required_size_run WIFI h (items f)) by (done || by split).
  destruct (long_key_law h ssid password f1 Hl) as (e & f2 & -> & He).
  unfold esp_error_check. by rewrite bool_decide_eq_false_2.
Qed.

(** [save_wifi] files the password under the network's name, in the
    namespace that also holds the other settings: a name of at most 15
    characters is the key of the new entry, whatever else that key means
    (a network called "last_ssid" replaces the name of the last network), and
    a longer name, which the standard allows up to 32 characters, stops the
    program. *)
Theorem save_wifi_cases (ssid password : list Z) f :
  healthy f → str_key (items f) WIFI ssid → zlen password < NVS_MAX_STRING →
  if zlen ssid <=? 15
  then twp (save_wifi ssid password) (λ e f', e = ESP_OK ∧ healthy f' ∧
         items f' = <[(WIFI, ssid) := NStr password]> (items f)) f
  else save_wifi ssid password f = Fault EspAbort.
Proof.
  intros Hh Hk Hp. destruct (Z.leb_spec (zlen ssid) 15) as [Hl|Hl]; [by apply twp_save_wifi|by apply save_wifi_long].
Qed.


(** The counter is [v] if it was written, 0 otherwise. *)
Definition counter (m : gmap (list Z * list Z) nvs_item) (v : Z) : Prop :=
  m !! COUNTER = Some (NI32 v) ∨ m !! COUNTER = None ∧ v = 0.

Lemma read_counter_run h m v f :
  ready GENERAL_STORAGE_NAMESPACE h m f → counter m v → read_counter h f = Ok (v, f).
Proof.
  intros (Ho & Hi & _) Hc. pose proof (get_i32_law h _ (bytes "restart_counter") f Ho) as Hg. rewrite Hi in Hg.
  unfold read_counter, mbind, M_bind, gets, check_found.
  destruct Hc as [Hc|[Hc ->]]; rewrite Hc in Hg; rewrite Hg; by rewrite bool_decide_eq_true_2 by tauto.
Qed.

Lemma twp_write_counter {A} h m v (k : () → M F A) Q f :
  ready GENERAL_STORAGE_NAMESPACE h m f →
  (∀ f', ready GENERAL_STORAGE_NAMESPACE h (<[COUNTER := NI32 v]> m) f' → twp (k ()) Q f') →
  twp (write_counter h v ≫= k) Q f.
Proof.
  intros (Ho & Hi & Hh) HQ. apply twp_bind. unfold write_counter. apply twp_bind. unfold twp at 1.
  destruct (set_i32_law h _ (bytes "restart_counter") v f Ho Hh ltac:(by vm_compute))
    as (f' & -> & Hi' & Ho' & Hh').
  apply HQ. split_and!; [congruence|by rewrite Hi', Hi|done].
Qed.

Lemma twp_save_counter v f :
  healthy f → counter (items f) v → INT_MIN ≤ v < INT_MAX →
  twp save_restart_counter (λ e f', e = ESP_OK ∧ healthy f' ∧ items f' = <[COUNTER := NI32 (v + 1)]> (items f)) f.
Proof.
  intros Hh Hc Hv. unfold save_restart_counter. apply twp_open; [done|]. intros h f1 Hr1.
  apply twp_bind. unfold twp at 1. rewrite (read_counter_run h (items f) v) by done.
  eapply twp_bind, twp_lift. { unfold chk32. by rewrite decide_True by lia. }
  eapply twp_write_counter; [exact Hr1|]. intros f2 Hr2.
  by eapply twp_commit_close; [exact Hr2|].
Qed.

Lemma save_counter_overflow f :
  healthy f → counter (items f) INT_MAX → save_restart_counter f = Fault IntOverflow.
Proof.
  intros Hh Hc. destruct (open_law GENERAL_STORAGE_NAMESPACE f Hh) as (h & f1 & E & Ho & Hi & Hh1).
  unfold save_restart_counter, open_checked, mbind, M_bind. rewrite E.
  change (esp_error_check ESP_OK f1) with (Ok ((), f1)). cbv beta iota. unfold mret at 1, M_ret at 1.
  by rewrite (read_counter_run h (items f) INT_MAX).
Qed.

Lemma twp_get_counter v f :
  healthy f → counter (items f) v →
  twp get_restart_counter (λ r f', r = (ESP_OK, v) ∧ items f' = items f ∧ healthy f') f.
Proof.
  intros Hh Hc. unfold get_restart_counter. apply twp_open; [done|]. intros h f1 Hr. apply twp_bind. unfold twp at 1.
  rewrite (read_counter_run h (items f) v) by done. by eapply twp_close; [exact Hr|].
Qed.

(** [k] starts of the firmware. *)
Fixpoint starts (k : nat) : M F () :=
  match k with
  | O => mret ()
  | S k => save_restart_counter ;; starts k
  end.

Lemma twp_starts k v f :
  healthy f → counter (items f) v → INT_MIN ≤ v → v + Z.of_nat k ≤ INT_MAX →
  twp (starts k) (λ _ f', healthy f' ∧ counter (items f') (v + Z.of_nat k)) f.
Proof.
  revert v f. induction k as [|k IH]; intros v f Hh Hc Hv Hk; cbn [starts].
  - apply twp_ret. by rewrite Z.add_0_r.
  - apply twp_bind. eapply twp_mono; [apply (twp_save_counter v); try done; lia|].
    intros e f1 (_ & Hh1 & Hi1). cbv beta in *.
    specialize (IH (v + 1) f1 Hh1 ltac:(left; by rewrite Hi1, lookup_insert_eq) ltac:(lia) ltac:(lia)).
    replace (v + Z.of_nat (S k)) with (v + 1 + Z.of_nat k) by lia. exact IH.
Qed.

(** The restart counter counts: after [reset_restart_counter] and any
    number of starts up to the range of [int32_t], [get_restart_counter] shows
    that number; one start more is an overflow of a signed integer. *)
Theorem restart_counter_counts (k : nat) f :
  healthy f → Z.of_nat k ≤ INT_MAX →
  twp (reset_restart_counter ;; starts k) (λ _ f1,
    twp get_restart_counter (λ r f2, r = (ESP_OK, Z.of_nat k) ∧ items f2 = items f1) f1 ∧
    (Z.of_nat k = INT_MAX → save_restart_counter f1 = Fault IntOverflow)) f.
Proof.
  intros Hh Hk. apply twp_bind. unfold reset_restart_counter. apply twp_open; [done|]. intros h f1 Hr1.
  eapply twp_write_counter; [exact Hr1|]. intros f2 Hr2.
  eapply twp_commit_close; [exact Hr2|]. intros f3 Hi3 Hh3.
  eapply twp_mono; [apply (twp_starts k 0 f3); [done| |done|lia]|].
  { left. by rewrite Hi3, lookup_insert_eq. }
  intros [] f4 [Hh4 Hc4]. cbn [Z.add] in Hc4. split.
  - eapply twp_mono; [by apply twp_get_counter|]. cbn beta. tauto.
  - intros Hmax. apply save_counter_overflow; [done|]. by rewrite <- Hmax.
Qed.
End StorageProofs.

(** ** A concrete flash *)

(** The stored items and the namespaces of the handles given out so far. *)
Record sim_flash := { sf_items : gmap (list Z * list Z) nvs_item; sf_handles : list (list Z) }.

Definition sf_ns (h : Z) (f : sim_flash) : option (list Z) := sf_handles f !! Z.to_nat h.
Definition sf_get (h : Z) (key : list Z) (f : sim_flash) : option nvs_item :=
  ns ← sf_ns h f; sf_items f !! (ns, key).
Definition sf_set (h : Z) (key : list Z) (i : nvs_item) (f : sim_flash) : outcome (esp_err * sim_flash) :=
  match sf_ns h f with
  | None => Ok (ESP_ERR_NVS_INVALID_HANDLE, f)
  | Some ns =>
      if 15 <? zlen key then Ok (ESP_ERR_NVS_KEY_TOO_LONG, f)
      else Ok (ESP_OK, {| sf_items := <[(ns, key) := i]> (sf_items f); sf_handles := sf_handles f |})
  end.

#[export] Instance sim_nvs : Nvs sim_flash := {|
  nvs_flash_init f := (ESP_OK, f);
  nvs_flash_erase f := Ok (ESP_OK, {| sf_items := ∅; sf_handles := sf_handles f |});
  nvs_open ns f := (ESP_OK, Z.of_nat (length (sf_handles f)),
                    {| sf_items := sf_items f; sf_handles := sf_handles f ++ [ns] |});
  nvs_close h f := f;
  nvs_str_size h key f :=
    match sf_get h key f with
    | Some (NStr s) => (ESP_OK, Some (zlen s + 1))
    | Some (NI32 _) => (ESP_ERR_NVS_TYPE_MISMATCH, None)
    | None => (ESP_ERR_NVS_NOT_FOUND, None)
    end;
  nvs_get_str h key n f :=
    match sf_get h key f with
    | Some (NStr s) => if zlen s + 1 <=? n then (ESP_OK, s ++ [0]) else (ESP_ERR_OTHER 4364, [])
    | Some (NI32 _) => (ESP_ERR_NVS_TYPE_MISMATCH, [])
    | None => (ESP_ERR_NVS_NOT_FOUND, [])
    end;
  nvs_set_str h key s f :=
    if NVS_MAX_STRING <=? zlen s then Ok (ESP_ERR_NVS_VALUE_TOO_LONG, f) else sf_set h key (NStr s) f;
  nvs_get_i32 h key f :=
    match sf_get h key f with
    | Some (NI32 v) => (ESP_OK, Some v)
    | Some (NStr _) => (ESP_ERR_NVS_TYPE_MISMATCH, None)
    | None => (ESP_ERR_NVS_NOT_FOUND, None)
    end;
  nvs_set_i32 h key v f := sf_set h key (NI32 v) f;
  nvs_commit h f := Ok (ESP_OK, f);
  nvs_erase_all h f := Ok (ESP_OK, {| sf_items := ∅; sf_handles := sf_handles f |});
  malloc_ok n f := true |}.

Lemma sf_get_opened h ns key f : sf_ns h f = Some ns → sf_get h key f = sf_items f !! (ns, key).
Proof. intros E. unfold sf_get. by rewrite E. Qed.

Lemma sf_set_opened h ns key i f :
  sf_ns h f = Some ns → zlen key ≤ 15 →
  sf_set h key i f = Ok (ESP_OK, {| sf_items := <[(ns, key) := i]> (sf_items f); sf_handles := sf_handles f |}).
Proof. intros E Hl. unfold sf_set. by rewrite E, (proj2 (Z.ltb_ge _ _)) by lia. Qed.

#[export] Program Instance sim_nvs_laws : NvsLaws sim_flash := {|
  items f := sf_items f; opened f h := sf_ns h f; healthy f := True |}.
Next Obligation.
  intros ns f _. eexists _, _. split_and!; [done| |done|done].
  unfold sf_ns. cbn. by rewrite Nat2Z.id, lookup_app_r, Nat.sub_diag by lia.
Qed.
Next Obligation. done. Qed.
Next Obligation. intros h ns key f E. cbn. rewrite (sf_get_opened h ns) by done. by destruct (_ !! _) as [[]|]. Qed.
Next Obligation.
  intros h ns key s f E Hm. cbn. rewrite (sf_get_opened h ns) by done. cbn in Hm. rewrite Hm.
  by rewrite (proj2 (Z.leb_le _ _)) by lia.
Qed.
Next Obligation.
  intros h ns key s f E _ Hk Hs. cbn. rewrite (proj2 (Z.leb_gt _ _)) by lia.
  rewrite (sf_set_opened h ns) by done. by eexists.
Qed.
Next Obligation.
  intros h key s f Hk. cbn. destruct (_ <=? _); [by eexists _, _|]. unfold sf_set.
  destruct (sf_ns h f); [|by eexists _, _]. rewrite (proj2 (Z.ltb_lt _ _)) by lia. by eexists _, _.
Qed.
Next Obligation. intros h ns key f E. cbn. rewrite (sf_get_opened h ns) by done. by destruct (_ !! _) as [[]|]. Qed.
Next Obligation.
  intros h ns key v f E _ Hk. cbn. rewrite (sf_set_opened h ns) by done. by eexists.
Qed.
Next Obligation. intros h f _. by eexists. Qed.

Definition empty_flash : sim_flash := {| sf_items := ∅; sf_handles := [] |}.

Lemma empty_str_key key : str_key (items empty_flash) WIFI_SETTINGS_STORAGE_NAMESPACE key.
Proof. intros v. cbn. by rewrite lookup_empty. Qed.

Lemma wifi_credentials_roundtrip_witness :
  twp (save_last_connected_wifi (bytes "home") (bytes "secret")) (λ e f1, e = ESP_OK ∧
    twp (get_last_connected_wifi (replicate 33 7) (replicate 64 7)) (λ r f2,
      r = (ESP_OK, copied (replicate 33 7) (bytes "home"), copied (replicate 64 7) (bytes "secret")) ∧
      items f2 = items f1) f1) empty_flash.
Proof.
  exact (wifi_credentials_roundtrip (bytes "home") (bytes "secret") (replicate 33 7) (replicate 64 7) empty_flash
    I (empty_str_key _) (empty_str_key _) ltac:(decide_vm) ltac:(decide_vm) ltac:(decide_vm) ltac:(decide_vm)
    ltac:(decide_vm) ltac:(decide_vm)).
Defined.

Lemma mqtt_account_roundtrip_witness :
  twp (save_last_connected_mqtt (bytes "user") (bytes "pass") (bytes "id")) (λ e f1, e = ESP_OK ∧
    twp (get_last_connected_mqtt (replicate 9 7) (replicate 9 7) (replicate 9 7)) (λ r f2,
      r = (ESP_OK, copied (replicate 9 7) (bytes "user"), copied (replicate 9 7) (bytes "pass"),
           copied (replicate 9 7) (bytes "id")) ∧ items f2 = items f1) f1) empty_flash.
Proof.
  exact (mqtt_account_roundtrip (bytes "user") (bytes "pass") (bytes "id") (replicate 9 7) (replicate 9 7)
    (replicate 9 7) empty_flash (λ _ _, eq_refl) I (empty_str_key _) (empty_str_key _) (empty_str_key _)
    ltac:(decide_vm) ltac:(decide_vm) ltac:(decide_vm) ltac:(decide_vm) ltac:(decide_vm) ltac:(decide_vm)
    ltac:(decide_vm) ltac:(decide_vm)).
Defined.

Lemma save_wifi_cases_witness :
  save_wifi (bytes "a network of 24 letters.") (bytes "secret") empty_flash = Fault EspAbort ∧
  twp (save_wifi (bytes "last_ssid") (bytes "secret")) (λ e f', e = ESP_OK ∧ healthy f' ∧
    items f' = <[(WIFI_SETTINGS_STORAGE_NAMESPACE, bytes "last_ssid") := NStr (bytes "secret")]>
      (items empty_flash)) empty_flash.
Proof.
  split.
  - exact (save_wifi_cases (bytes "a network of 24 letters.") (bytes "secret") empty_flash I
      (empty_str_key _) ltac:(decide_vm)).
  - exact (save_wifi_cases (bytes "last_ssid") (bytes "secret") empty_flash I
      (empty_str_key _) ltac:(decide_vm)).
Defined.

Lemma restart_counter_counts_witness :
  twp (reset_restart_counter ;; starts 3) (λ _ f1,
    twp get_restart_counter (λ r f2, r = (ESP_OK, 3) ∧ items f2 = items f1) f1 ∧
    (3 = INT_MAX → save_restart_counter f1 = Fault IntOverflow)) empty_flash.
Proof. exact (restart_counter_counts 3 empty_flash I ltac:(decide_vm)). Defined.
