(* ===== verification/HttpServer.v ===== *)
(** * esp32iot_http_server.c: the form parsers

    Models [parse_http_request] and [parse_http_request2] of
    [src/main/src/HttpServer/esp32iot_http_server.c], which take the value of a
    field out of the text of a POST request.  Both build the value in local
    arrays of variable length and write a terminator one byte behind the end of
    each; whether that byte is anybody's depends on how the compiler places the
    arrays.  The class [StackPad] is the number of unused bytes behind such an
    array, and an access behind those is a fault.  [request] is the memory from
    the received data to the end of its buffer. *)

From S2P Require Import Prelude CString.

Definition AMPERSAND : Z := 38.

(** The stack of the server task, the third argument of [xTaskCreate]. *)
Definition HTTP_SERVER_STACK : Z := 2048.

Class StackPad := stack_pad : nat.

(** ** <string.h> *)

(** [key] is at the head of the string [s]. *)
Fixpoint has_prefix (key s : list Z) : bool :=
  match key, s with
  | [], _ => true
  | k :: key, c :: s => (k =? c) && has_prefix key s
  | _ :: _, [] => false
  end.

(** Offset of the first occurrence of [key] in the string [s]. *)
Fixpoint find_sub (s key : list Z) : option Z :=
  if has_prefix key s then Some 0
  else match s with
       | [] => None
       | _ :: s => Z.succ <$> find_sub s key
       end.

(** [strstr(l, key)] *)
Definition strstr (l key : list Z) : outcome (option Z) :=
  s ← cstr l; Ok (find_sub s key).

(** ** The parsers *)

(** [dst[i] = src[off + i]] for [n] values of [i] from [i] on. *)
Fixpoint copy_loop (n : nat) (i off : Z) (src dst : list Z) : outcome (list Z) :=
  match n with
  | O => Ok dst
  | S n => c ← load src (off + i); dst ← store dst i c; copy_loop n (i + 1) off src dst
  end.

Section Form.
Context {pad : StackPad}.

(** A local array of [n] bytes with the bytes the compiler left behind it; one
    that is larger than the stack of the task cannot be placed. *)
Definition stack_array (n : Z) : outcome (list Z) :=
  if n <=? HTTP_SERVER_STACK then Ok (replicate (Z.to_nat n + stack_pad) 0) else Fault BadAlloc.

(** The end of the field that starts at the head of [p]. *)
Definition param_end (p : list Z) : outcome Z :=
  e ← strchr p AMPERSAND;
  match e with
  | Some e => Ok e
  | None => s ← cstr p; Ok (zlen s)
  end.

(** The array [tmp_param]: the whole field, with its name. *)
Definition field_copy (p : list Z) : outcome (list Z) :=
  e ← param_end p;
  tmp_param ← stack_array e;
  d ← load_bytes p 0 e;
  tmp_param ← store_bytes tmp_param 0 d;
  store tmp_param e 0.

(** The array [param] and its size: what follows the name and one character. *)
Definition field_value (key tmp_param : list Z) : outcome (Z * list Z) :=
  s ← cstr tmp_param;
  let n := u32 (zlen s - zlen key - 1) in
  param ← stack_array n;
  param ← copy_loop (Z.to_nat n) 0 (zlen key + 1) tmp_param param;
  param ← store param n 0;
  Ok (n, param).

(** The code and the caller's buffer [value]. *)
Definition parse_http_request (request key value : list Z) : outcome (Z * list Z) :=
  start ← strstr request key;
  match start with
  | None => Ok (1, value)
  | Some start =>
      tmp_param ← field_copy (drop (Z.to_nat start) request);
      '(n, param) ← field_value key tmp_param;
      value ← copy_loop (S (Z.to_nat n)) 0 0 param value;
      Ok (0, value)
  end.

(** The code and the string [*value] points to, [None] for NULL; [heap] says
    whether [malloc] succeeds for a size.  The test for NULL is made of [value],
    the address of the caller's variable. *)
Definition parse_http_request2 (heap : Z → bool) (request key : list Z) (value : option (list Z)) :
    outcome (Z * option (list Z)) :=
  start ← strstr request key;
  match start with
  | None => Ok (1, value)
  | Some start =>
      tmp_param ← field_copy (drop (Z.to_nat start) request);
      '(_, param) ← field_value key tmp_param;
      s ← cstr param;
      if heap (zlen s + 1) then
        v ← strcpy (replicate (Z.to_nat (zlen s + 1)) 0) s;
        Ok (0, Some v)
      else Fault NullDeref
  end.
End Form.

(** ** Searching *)

Lemma has_prefix_app key s : has_prefix key (key ++ s) = true.
Proof. induction key as [|k key IH]; cbn; [done|]. by rewrite Z.eqb_refl. Qed.

Lemma has_prefix_true key s : has_prefix key s = true → ∃ post, s = key ++ post.
Proof.
  revert s. induction key as [|k key IH]; intros s H; [by exists s|].
  destruct s as [|c s]; [done|]. cbn in H. apply andb_true_iff in H as [H1 H2]. zb. subst k.
  apply IH in H2 as [post ->]. by exists post.
Qed.

(** [find_sub] finds the first occurrence: nothing in front of it starts with
    the key. *)
Lemma find_sub_first s key i :
  find_sub s key = Some i ↔
  ∃ pre post, s = pre ++ key ++ post ∧ i = zlen pre ∧
    ∀ k, (k < length pre)%nat → has_prefix key (drop k s) = false.
Proof.
  revert i. induction s as [|c s IH]; intros i; cbn [find_sub];
    destruct (has_prefix key _) eqn:E.
  1, 3: split; [intros [= <-]; apply has_prefix_true in E as [post E]; exists [], post;
                  split_and!; [done|done|cbn; lia]
               |intros ([|x pre] & post & Hs & -> & Hk); [done|];
                  specialize (Hk O ltac:(cbn; lia)); by rewrite drop_0, E in Hk].
  - split; [done|]. intros ([|x pre] & post & Hs & -> & _); [|done].
    cbn in Hs. by rewrite Hs, has_prefix_app in E.
  - split.
    + intros (j & Hj & ->)%fmap_Some. apply IH in Hj as (pre & post & -> & -> & Hk).
      exists (c :: pre), post. split_and!; [done|cbn; lia|].
      intros [|k] Hlt; [done|]. apply Hk. cbn in Hlt. lia.
    + intros ([|x pre] & post & Hs & -> & Hk).
      { cbn in Hs. by rewrite Hs, has_prefix_app in E. }
      injection Hs as -> Hs. apply fmap_Some. exists (zlen pre). split; [|cbn; lia].
      apply IH. exists pre, post. split_and!; [done..|]. intros k Hlt. apply (Hk (S k)). cbn. lia.
Qed.

(** ** Copying *)

Lemma copy_loop_app d s1 s2 d1 old d2 off :
  length old = length d → off + zlen d1 = zlen s1 →
  copy_loop (length d) (zlen d1) off (s1 ++ d ++ s2) (d1 ++ old ++ d2) = Ok (d1 ++ d ++ d2).
Proof.
  revert s1 d1 old. induction d as [|c d IH]; intros s1 d1 old Hl Hoff; cbn [copy_loop length app].
  { by destruct old. }
  destruct old as [|o old]; [done|]. injection Hl as Hl. rewrite Hoff, load_app.
  cbn [mbind outcome_bind app]. rewrite store_app. cbn [mbind outcome_bind].
  replace (zlen d1 + 1) with (zlen (d1 ++ [c])) by (rewrite length_app; cbn; lia).
  change (c :: d ++ s2) with ([c] ++ d ++ s2). change (c :: old ++ d2) with ([c] ++ old ++ d2).
  rewrite (app_assoc s1), (app_assoc d1).
  rewrite IH; [by rewrite <- !app_assoc|done|rewrite !length_app; cbn; lia].
Qed.

Lemma copy_loop_start d s1 s2 old d2 :
  length old = length d →
  copy_loop (length d) 0 (zlen s1) (s1 ++ d ++ s2) (old ++ d2) = Ok (d ++ d2).
Proof. intros Hl. apply (copy_loop_app d s1 s2 [] old d2); [done|cbn; lia]. Qed.

(** A destination that is too short is overrun. *)
Lemma copy_loop_oob d s1 s2 dst d1 off :
  zlen dst < zlen d → off + zlen d1 = zlen s1 →
  copy_loop (length d) (zlen d1) off (s1 ++ d ++ s2) (d1 ++ dst) = Fault OobWrite.
Proof.
  revert s1 d1 dst. induction d as [|c d IH]; intros s1 d1 dst Hl Hoff; cbn [copy_loop length app] in *; [lia|].
  rewrite Hoff, load_app. cbn [mbind outcome_bind].
  destruct dst as [|o dst]; [by rewrite store_oob by (rewrite app_nil_r; lia)|].
  rewrite store_app. cbn [mbind outcome_bind].
  replace (zlen d1 + 1) with (zlen (d1 ++ [c])) by (rewrite length_app; cbn; lia).
  change (c :: d ++ s2) with ([c] ++ d ++ s2). change (c :: dst) with ([c] ++ dst).
  rewrite (app_assoc s1), (app_assoc d1). cbn [length] in Hl.
  rewrite IH; [done|lia|rewrite !length_app; cbn; lia].
Qed.

(** ** The fields of a request *)

(** A field of a form: a string without the separator. *)
Definition field_ok (f : list Z) : Prop := Forall (λ x, 0 < x < 256 ∧ x ≠ AMPERSAND) f.
#[export] Instance field_ok_dec f : Decision (field_ok f) := _.

Lemma field_cstring f : field_ok f → is_cstring f.
Proof. intros Hf. eapply Forall_impl; [exact Hf|]. by intros x []. Qed.

Lemma field_ok_app f g : field_ok (f ++ g) ↔ field_ok f ∧ field_ok g.
Proof. apply Forall_app. Qed.

(** The text behind a field: nothing, or the next field. *)
Definition field_end (rest : list Z) : Prop := rest = [] ∨ head rest = Some AMPERSAND.
#[export] Instance field_end_dec rest : Decision (field_end rest) := _.

Lemma strchr_absent s c rest :
  c ≠ 0 → Forall (λ x, x ≠ c) s → is_cstring s → strchr (s ++ 0 :: rest) c = Ok None.
Proof.
  intros Hc. induction 1 as [|x s Hx _ IH]; intros Hs; cbn [app strchr].
  { by rewrite (proj2 (Z.eqb_neq 0 c)) by lia. }
  apply Forall_cons in Hs as [? Hs].
  rewrite (proj2 (Z.eqb_neq x c)), (proj2 (Z.eqb_neq x 0)) by lia. by rewrite IH.
Qed.

Section FormFacts.
Context {pad : StackPad}.
Implicit Types (f key v rest junk : list Z).

Lemma param_end_field f rest junk :
  field_ok f → field_end rest → param_end (f ++ rest ++ 0 :: junk) = Ok (zlen f).
Proof.
  intros Hf Hr. unfold param_end. destruct rest as [|c rest].
  - cbn [app]. rewrite strchr_absent; [|done| |by apply field_cstring].
    + cbn [mbind outcome_bind]. by rewrite cstr_app by (by apply field_cstring).
    + eapply Forall_impl; [exact Hf|]. by intros x [].
  - destruct Hr as [?|Hc]; [done|]. injection Hc as ->. cbn [app].
    rewrite strchr_app; [done|]. eapply Forall_impl; [exact Hf|]. cbn. intros x ?. lia.
Qed.

Lemma stack_array_fits n :
  0 ≤ n ≤ HTTP_SERVER_STACK → stack_array n = Ok (replicate (Z.to_nat n) 0 ++ replicate stack_pad 0).
Proof. intros Hn. unfold stack_array. rewrite (proj2 (Z.leb_le _ _)) by lia. by rewrite replicate_add. Qed.

(** The terminator goes into the padding, if there is any. *)
Definition padded (s : list Z) : outcome (list Z) :=
  match stack_pad with O => Fault OobWrite | S k => Ok (s ++ 0 :: replicate k 0) end.

Lemma store_padded s : store (s ++ replicate stack_pad 0) (zlen s) 0 = padded s.
Proof.
  unfold padded. destruct stack_pad; cbn [replicate]; [|apply store_app].
  rewrite app_nil_r. by rewrite store_oob.
Qed.

Lemma field_copy_field f rest junk :
  field_ok f → field_end rest → zlen f ≤ HTTP_SERVER_STACK →
  field_copy (f ++ rest ++ 0 :: junk) = padded f.
Proof.
  intros Hf Hr Hs. unfold field_copy. rewrite param_end_field by done. cbn [mbind outcome_bind].
  rewrite stack_array_fits by lia. cbn [mbind outcome_bind].
  rewrite (load_bytes_at _ [] f (rest ++ 0 :: junk)) by done. cbn [mbind outcome_bind].
  pose proof (store_bytes_app [] (replicate (Z.to_nat (zlen f)) 0) (replicate stack_pad 0) f) as E.
  cbn [app] in E. change (zlen []) with 0 in E. rewrite E by (rewrite length_replicate; lia).
  apply store_padded.
Qed.

Lemma field_value_field key sep v pad' :
  is_cstring (key ++ sep :: v) → zlen v ≤ HTTP_SERVER_STACK →
  field_value key ((key ++ sep :: v) ++ 0 :: pad') = (param ← padded v; Ok (zlen v, param)).
Proof.
  intros Hc Hs. unfold HTTP_SERVER_STACK in Hs. unfold field_value. rewrite cstr_app by done. cbn [mbind outcome_bind].
  replace (u32 (zlen (key ++ sep :: v) - zlen key - 1)) with (zlen v).
  2: { rewrite length_app. cbn [length]. unfold u32. rewrite Z.mod_small; lia. }
  rewrite stack_array_fits by (unfold HTTP_SERVER_STACK; lia). cbn [mbind outcome_bind].
  replace ((key ++ sep :: v) ++ 0 :: pad') with ((key ++ [sep]) ++ v ++ 0 :: pad')
    by (by rewrite <- !app_assoc).
  rewrite Nat2Z.id.
  replace (zlen key + 1) with (zlen (key ++ [sep])) by (rewrite length_app; cbn; lia).
  rewrite copy_loop_start by apply length_replicate.
  cbn [mbind outcome_bind]. by rewrite store_padded.
Qed.

(** A field that is the name alone: the size of [param] wraps around. *)
Lemma field_value_bare key pad' :
  is_cstring key → zlen key < 4294967295 → field_value key (key ++ 0 :: pad') = Fault BadAlloc.
Proof.
  intros Hc Hs. unfold field_value. rewrite cstr_app by done. cbn [mbind outcome_bind].
  by replace (u32 (zlen key - zlen key - 1)) with 4294967295 by (by rewrite Z.sub_diag).
Qed.

Lemma strstr_text s junk key : is_cstring s → strstr (s ++ 0 :: junk) key = Ok (find_sub s key).
Proof. intros. unfold strstr. by rewrite cstr_app. Qed.

Lemma find_sub_at pre post key : find_sub (pre ++ post) key = Some (zlen pre) → ∃ q, post = key ++ q.
Proof.
  intros (pre' & q & E & Hl & _)%find_sub_first. exists q.
  by apply app_inj_1 in E as [_ E]; [|lia].
Qed.

(** The name lies within the field it starts. *)
Lemma field_has_name key f rest q :
  field_ok key → field_end rest → f ++ rest = key ++ q → f = key ++ drop (length key) f.
Proof.
  intros Hk Hr E. apply app_eq_inv in E as [(k & -> & _)|(k & -> & E)].
  - by rewrite drop_app_length.
  - destruct k as [|c k]; [by rewrite !app_nil_r, drop_all, app_nil_r|].
    apply field_ok_app in Hk as [_ Hk]. apply Forall_cons in Hk as [[_ Hc] _].
    destruct rest as [|x rest]; [done|]. destruct Hr as [?|Hx]; [done|].
    injection E as -> _. injection Hx as Hx. done.
Qed.

(** What both parsers make of the field at the first occurrence of the key. *)
Definition field_param key f : outcome (Z * list Z) :=
  match drop (length key) f with
  | [] => if bool_decide (stack_pad = 0%nat) then Fault OobWrite else Fault BadAlloc
  | _ :: v => param ← padded v; Ok (zlen v, param)
  end.

Lemma field_found key f rest junk q :
  field_ok key → field_ok f → field_end rest → f ++ rest = key ++ q → zlen f ≤ HTTP_SERVER_STACK →
  (tmp_param ← field_copy (f ++ rest ++ 0 :: junk); field_value key tmp_param) = field_param key f.
Proof.
  intros Hk Hf Hr E Hs. rewrite field_copy_field by done. unfold field_param.
  pose proof (field_has_name key f rest q Hk Hr E) as Hn.
  destruct (drop (length key) f) as [|sep v] eqn:Ed; unfold padded;
    destruct stack_pad as [|k] eqn:Ep; cbn [mbind outcome_bind]; rewrite ?Ep; try done; rewrite Hn.
  - rewrite app_nil_r. apply field_value_bare; [by apply field_cstring|].
    rewrite Hn, app_nil_r in Hs. unfold HTTP_SERVER_STACK in Hs. lia.
  - rewrite Hn, length_app in Hs. cbn [length] in Hs. rewrite field_value_field; [|by rewrite <- Hn; apply field_cstring|lia].
    unfold padded. by rewrite Ep.
Qed.

(** Where the parsers look: at the field that starts with the first occurrence
    of the key. *)
Lemma parse_at key pre f rest junk {B} (k : Z * list Z → outcome B) :
  let text := pre ++ f ++ rest in
  is_cstring text → field_ok key → field_ok f → field_end rest → zlen f ≤ HTTP_SERVER_STACK →
  find_sub text key = Some (zlen pre) →
  (tmp_param ← field_copy (drop (Z.to_nat (zlen pre)) (text ++ 0 :: junk));
   x ← field_value key tmp_param; k x) = (x ← field_param key f; k x).
Proof.
  intros text Ht Hk Hf Hr Hs Hfind. apply find_sub_at in Hfind as [q E].
  replace (drop (Z.to_nat (zlen pre)) (text ++ 0 :: junk)) with (f ++ rest ++ 0 :: junk).
  2: { unfold text. by rewrite <- !app_assoc, Nat2Z.id, drop_app_length. }
  rewrite <- (field_found key f rest junk q) by done. by destruct (field_copy _).
Qed.

(** The copy of the value and its terminator to the caller's buffer. *)
Lemma copy_value v z value :
  copy_loop (S (Z.to_nat (zlen v))) 0 0 (v ++ 0 :: z) value =
  if zlen v <? zlen value then Ok (v ++ 0 :: drop (S (length v)) value) else Fault OobWrite.
Proof.
  replace (S (Z.to_nat (zlen v))) with (length (v ++ [0])) by (rewrite length_app; cbn; lia).
  change (v ++ 0 :: z) with (v ++ [0] ++ z). rewrite app_assoc. destruct (Z.ltb_spec (zlen v) (zlen value)).
  - rewrite <- (take_drop (S (length v)) value) at 1.
    pose proof (copy_loop_start (v ++ [0]) [] z (take (S (length v)) value) (drop (S (length v)) value)) as E.
    cbn [app] in E. change (zlen []) with 0 in E. rewrite E by (rewrite length_app, length_take; cbn [length]; lia).
    by rewrite <- app_assoc.
  - apply (copy_loop_oob (v ++ [0]) [] z value []); [rewrite length_app; cbn; lia|done].
Qed.

(** The form parsers return exactly the field: in a request whose first
    occurrence of the key starts the field [f] (a text up to the next '&' or the
    end of the request), the value is what follows the key and one character,
    as it was sent.  [parse_http_request] copies it with a terminator to the
    caller's buffer, and overruns a buffer that is not longer than the value;
    [parse_http_request2] returns it in memory of its own, and dereferences
    NULL if there is none.  All of this needs a spare byte behind the local
    arrays: without padding each call overruns them.  A field that is the key
    alone asks for an array of 2^32-1 bytes. *)
Theorem form_field_parsed (heap : Z → bool) key pre f rest junk value (old : option (list Z)) :
  let text := pre ++ f ++ rest in
  let request := text ++ 0 :: junk in
  is_cstring text → field_ok key → field_ok f → field_end rest → zlen f ≤ HTTP_SERVER_STACK →
  find_sub text key = Some (zlen pre) →
  (parse_http_request request key value, parse_http_request2 heap request key old) =
  if bool_decide (stack_pad = 0%nat) then (Fault OobWrite, Fault OobWrite) else
  match drop (length key) f with
  | [] => (Fault BadAlloc, Fault BadAlloc)
  | _ :: v =>
      (if zlen v <? zlen value then Ok (0, v ++ 0 :: drop (S (length v)) value) else Fault OobWrite,
       if heap (zlen v + 1) then Ok (0, Some (v ++ [0])) else Fault NullDeref)
  end.
Proof.
  intros text request Ht Hk Hf Hr Hs Hfind. unfold request, parse_http_request, parse_http_request2.
  rewrite !strstr_text, Hfind by done. cbn [mbind outcome_bind].
  pose proof (λ B, parse_at key pre f rest junk (B := B)) as Hp. cbv zeta in Hp. fold text in Hp.
  rewrite !Hp by done. clear Hp. unfold field_param, padded.
  pose proof (field_has_name key f rest) as Hn.
  apply find_sub_at in Hfind as [q E]. specialize (Hn q Hk Hr E).
  destruct (drop (length key) f) as [|sep v], stack_pad as [|n]; try done.
  rewrite bool_decide_eq_false_2 by done. cbn [mbind outcome_bind].
  assert (Hv : is_cstring v).
  { rewrite Hn in Hf. apply field_ok_app in Hf as [_ Hf]. apply Forall_cons in Hf as [_ Hf].
    by apply field_cstring. }
  rewrite copy_value, cstr_app by done. cbn [mbind outcome_bind]. f_equal.
  - by destruct (zlen v <? zlen value).
  - destruct (heap _); [|done]. unfold strcpy.
    pose proof (store_bytes_app [] (replicate (Z.to_nat (zlen v + 1)) 0) [] (v ++ [0])) as Es.
    rewrite !app_nil_r in Es. cbn [app] in Es. change (zlen []) with 0 in Es.
    rewrite Es by (rewrite length_replicate, length_app; cbn; lia). done.
Qed.

(** A key that does not occur leaves the value alone. *)
Lemma form_field_absent (heap : Z → bool) key text junk value (old : option (list Z)) :
  is_cstring text → find_sub text key = None →
  parse_http_request (text ++ 0 :: junk) key value = Ok (1, value) ∧
  parse_http_request2 heap (text ++ 0 :: junk) key old = Ok (1, old).
Proof.
  intros Ht Hf. unfold parse_http_request, parse_http_request2. by rewrite !strstr_text, Hf.
Qed.
End FormFacts.

(** The second field of a configuration request, with 16 bytes of padding; no
    escape is decoded. *)
Definition wifi_request : list Z :=
  bytes "POST /wifi-setup HTTP/1.1 Host: 192.168.4.1 ssid=home+net&password=s%26cret".

Lemma form_field_parsed_witness :
  (parse_http_request (pad := 16%nat) (wifi_request ++ [0]) (bytes "password") (replicate 64 1),
   parse_http_request2 (pad := 16%nat) (λ _, true) (wifi_request ++ [0]) (bytes "password") None) =
  (Ok (0, bytes "s%26cret" ++ 0 :: replicate 55 1), Ok (0, Some (bytes "s%26cret" ++ [0]))).
Proof.
  pose proof (form_field_parsed (pad := 16%nat) (λ _, true) (bytes "password")
    (bytes "POST /wifi-setup HTTP/1.1 Host: 192.168.4.1 ssid=home+net&")
    (bytes "password=s%26cret") [] [] (replicate 64 1) None) as H.
  conclude_with H ltac:(first [decide_vm | reflexivity]).
Defined.
