(* ===== verification/Double.v ===== *)
(** * Doubles

    The arithmetic of [double] the sensor conversions use.  A finite double is
    its value, a rational number; an operation is the exact operation followed
    by [rnd], the rounding to the nearest number with a mantissa of 53 bits,
    ties to even.  The numbers that occur lie far from the limits of the
    exponent, so neither overflow nor subnormal numbers are part of the model. *)

From Stdlib Require Import QArith Qabs Qround Qpower Qfield Lqa.
From S2P Require Import Prelude.

#[local] Open Scope Q_scope.

(** Nearest integer, ties to even. *)
Definition nearest (x : Q) : Z :=
  let f := Qfloor x in
  match (x - inject_Z f ?= 1 # 2)%Q with
  | Lt => f
  | Gt => (f + 1)%Z
  | Eq => if Z.even f then f else (f + 1)%Z
  end.

(** The [e] with [2^e <= |x| < 2^(e+1)]. *)
Definition exponent (x : Q) : Z :=
  let e := (Z.log2 (Z.abs (Qnum x)) - Z.log2 (QDen x))%Z in
  if Qle_bool (2 ^ e) (Qabs x) then e else (e - 1)%Z.

(** The rounding of a fraction, and of a number: of its reduced fraction. *)
Definition rnd_fraction (x : Q) : Q :=
  if (Qnum x =? 0)%Z then 0
  else let ulp := 2 ^ (exponent x - 52) in inject_Z (nearest (x / ulp)) * ulp.
Definition rnd (x : Q) : Q := rnd_fraction (Qred x).

(** The operations of the language. *)
Definition of_int (z : Z) : Q := rnd (inject_Z z).
Definition dadd (x y : Q) : Q := rnd (x + y).
Definition dsub (x y : Q) : Q := rnd (x - y).
Definition dmul (x y : Q) : Q := rnd (x * y).
Definition ddiv (x y : Q) : Q := rnd (x / y).

(** A literal is the double nearest to the decimal number. *)
Definition literal (x : Q) : Q := rnd x.

(** [pow(2, n)] *)
Definition pow2 (n : Z) : Q := 2 ^ n.

Definition trunc (x : Q) : Z := Z.quot (Qnum x) (QDen x).

(** The conversion to an integer type; a value outside it is undefined. *)
Definition to_int (lo hi : Z) (x : Q) : outcome Z :=
  let z := trunc x in if decide (lo ≤ z ≤ hi)%Z then Ok z else Fault IntOverflow.
Definition to_int16 : Q → outcome Z := to_int (-32768) 32767.
Definition to_int32 : Q → outcome Z := to_int INT_MIN INT_MAX.
Definition to_int64 : Q → outcome Z := to_int (- 2 ^ 63) (2 ^ 63 - 1).

(** Signed 64-bit arithmetic. *)
Definition chk64 (z : Z) : outcome Z :=
  if decide (- 2 ^ 63 ≤ z ≤ 2 ^ 63 - 1)%Z then Ok z else Fault IntOverflow.

(** ** Rounding *)

#[export] Instance rnd_proper : Proper (Qeq ==> eq) rnd.
Proof. intros x y E. unfold rnd. by rewrite (Qred_complete _ _ E). Qed.

Lemma nearest_error x : Qabs (x - inject_Z (nearest x)) <= 1 # 2.
Proof.
  unfold nearest. pose proof (Qfloor_le x) as Hl. pose proof (Qlt_floor x) as Hu.
  rewrite inject_Z_plus in Hu. change (inject_Z 1) with 1 in Hu.
  apply Qabs_Qle_condition.
  destruct (Qcompare_spec (x - inject_Z (Qfloor x)) (1 # 2)); [destruct (Z.even _)|..];
    rewrite ?inject_Z_plus; change (inject_Z 1) with 1; lra.
Qed.

Lemma nearest_int z : nearest (inject_Z z) = z.
Proof.
  unfold nearest. rewrite Qfloor_Z. destruct (Qcompare_spec (inject_Z z - inject_Z z) (1 # 2)); [lra|done|lra].
Qed.

#[export] Instance nearest_proper : Proper (Qeq ==> eq) nearest.
Proof.
  intros x y E. unfold nearest. rewrite (Qfloor_comp _ _ E).
  assert (E' : x - inject_Z (Qfloor y) == y - inject_Z (Qfloor y)) by (by rewrite E).
  by rewrite (Qcompare_comp _ _ E' _ _ (Qeq_refl (1 # 2))).
Qed.

Lemma pow2_pos e : 0 < 2 ^ e.
Proof. apply Qpower_0_lt. lra. Qed.

Lemma pow2_add a b : 2 ^ (a + b) == 2 ^ a * 2 ^ b.
Proof. apply Qpower_plus. discriminate. Qed.

Lemma pow2_Z n : (0 ≤ n)%Z → 2 ^ n == inject_Z (2 ^ n).
Proof. intros. rewrite Zpower_Qpower by done. reflexivity. Qed.

Lemma pow2_le a b : (a ≤ b)%Z → 2 ^ a <= 2 ^ b.
Proof. intros. apply Qpower_le_compat_l; [done|discriminate]. Qed.

Lemma pow2_lt_inv a b : 2 ^ a < 2 ^ b → (a < b)%Z.
Proof.
  intros H. destruct (decide (a < b)%Z) as [|Hn]; [done|].
  pose proof (pow2_le b a ltac:(lia)). lra.
Qed.

(** The binary logarithm of a positive integer as bounds in [Q]. *)
Lemma log2_bounds z : (0 < z)%Z → 2 ^ Z.log2 z <= inject_Z z < 2 ^ (Z.log2 z + 1).
Proof.
  intros Hz. pose proof (Z.log2_spec z Hz) as [H1 H2]. pose proof (Z.log2_nonneg z).
  rewrite !pow2_Z by lia. rewrite <- Zle_Qle, <- Zlt_Qlt. unfold Z.succ in H2. done.
Qed.

Lemma Qabs_fraction x : Qabs x * inject_Z (QDen x) == inject_Z (Z.abs (Qnum x)).
Proof. destruct x as [n d]. unfold Qabs, inject_Z, Qeq. cbn. lia. Qed.

Lemma exponent_spec x : ~ x == 0 → 2 ^ exponent x <= Qabs x < 2 ^ (exponent x + 1).
Proof.
  intros Hx. assert (Ha : (0 < Z.abs (Qnum x))%Z).
  { destruct x as [n d]. unfold Qeq in Hx. cbn in *. lia. }
  unfold exponent. set (e := (_ - _)%Z).
  pose proof (log2_bounds _ Ha) as [A1 A2]. pose proof (log2_bounds (QDen x) ltac:(lia)) as [D1 D2].
  pose proof (Qabs_fraction x) as E. pose proof (Qabs_nonneg x).
  set (a := inject_Z (Z.abs (Qnum x))) in *. set (d := inject_Z (QDen x)) in *.
  assert (Ee : 2 ^ e * 2 ^ Z.log2 (QDen x) == 2 ^ Z.log2 (Z.abs (Qnum x))).
  { rewrite <- pow2_add. by replace (e + Z.log2 (QDen x))%Z with (Z.log2 (Z.abs (Qnum x))) by lia. }
  rewrite pow2_add in A2, D2. change (2 ^ 1) with 2 in A2, D2.
  pose proof (pow2_pos e). pose proof (pow2_pos (Z.log2 (QDen x))).
  destruct (Qle_bool (2 ^ e) (Qabs x)) eqn:Eb.
  - apply Qle_bool_iff in Eb. split; [done|]. rewrite pow2_add. change (2 ^ 1) with 2. nra.
  - assert (Hlt : Qabs x < 2 ^ e).
    { apply Qnot_le_lt. intros Hle. apply Qle_bool_iff in Hle. congruence. }
    replace (e - 1 + 1)%Z with e by lia. split; [|done].
    replace (e - 1)%Z with (e + -1)%Z by lia. rewrite pow2_add. change (2 ^ (-1)) with (1 # 2). nra.
Qed.

Lemma Qabs_mult_pos x u : 0 < u → Qabs (x * u) == Qabs x * u.
Proof. intros. rewrite Qabs_Qmult, (Qabs_pos u) by lra. reflexivity. Qed.

(** The rounding error is at most half a unit in the last place. *)
Lemma rnd_error x : Qabs (rnd x - x) <= Qabs x * 2 ^ (-53).
Proof.
  unfold rnd. pose proof (Qred_correct x) as Ex. revert Ex. generalize (Qred x) as r. intros r Ex.
  rewrite <- Ex. clear x Ex. unfold rnd_fraction.
  destruct (Z.eqb_spec (Qnum r) 0) as [E|E].
  { assert (r == 0) as -> by (unfold Qeq; cbn; lia).
    change (Qabs (0 - 0)) with 0. change (Qabs 0) with 0. lra. }
  assert (Hr : ~ r == 0) by (unfold Qeq; cbn; lia).
  pose proof (exponent_spec r Hr) as [H1 _]. set (u := 2 ^ (exponent r - 52)).
  pose proof (pow2_pos (exponent r - 52)) as Hu. fold u in Hu.
  pose proof (nearest_error (r / u)) as Hn.
  assert (Ex : inject_Z (nearest (r / u)) * u - r == (inject_Z (nearest (r / u)) - r / u) * u)
    by (field; lra).
  rewrite Ex, Qabs_mult_pos, Qabs_Qminus by done.
  assert (Eu : u == 2 * 2 ^ exponent r * 2 ^ (-53)).
  { unfold u. replace (exponent r - 52)%Z with (1 + exponent r + -53)%Z by lia.
    rewrite !pow2_add. reflexivity. }
  pose proof (pow2_pos (-53)). nra.
Qed.

(** A number with a mantissa of at most 53 bits is a double. *)
Lemma rnd_exact x m e : x == inject_Z m * 2 ^ e → (Z.abs m < 2 ^ 53)%Z → rnd x == x.
Proof.
  unfold rnd. pose proof (Qred_correct x) as Ex. revert Ex. generalize (Qred x) as r. intros r Ex.
  rewrite <- Ex. clear x Ex. intros Hx Hm. unfold rnd_fraction. destruct (Z.eqb_spec (Qnum r) 0) as [E|E].
  { unfold Qeq. cbn. lia. }
  assert (Hr : ~ r == 0) by (unfold Qeq; cbn; lia).
  pose proof (exponent_spec r Hr) as [H1 _]. set (k := (exponent r - 52)%Z).
  pose proof (pow2_pos k) as Hk. pose proof (pow2_pos e) as He.
  assert (Hle : (k ≤ e)%Z).
  { cut (exponent r < 53 + e)%Z; [lia|]. apply pow2_lt_inv. eapply Qle_lt_trans; [exact H1|].
    rewrite Hx, Qabs_mult_pos by done. rewrite pow2_add. apply Qmult_lt_compat_r; [done|].
    change (Qabs (inject_Z m)) with (inject_Z (Z.abs m)). rewrite pow2_Z by done. by rewrite <- Zlt_Qlt. }
  assert (Eq : r / 2 ^ k == inject_Z (m * 2 ^ (e - k))).
  { rewrite Hx, inject_Z_mult. rewrite <- pow2_Z by lia.
    replace e with (e - k + k)%Z at 1 by lia. rewrite pow2_add. field. lra. }
  rewrite Eq, nearest_int, <- Eq. field. lra.
Qed.

Lemma rnd_int z : (Z.abs z < 2 ^ 53)%Z → rnd (inject_Z z) == inject_Z z.
Proof. intros. apply (rnd_exact _ z 0); [|done]. change (2 ^ 0) with 1. lra. Qed.

(** ** Truncation *)

#[export] Instance trunc_proper : Proper (Qeq ==> eq) trunc.
Proof.
  intros [a b] [c d]. unfold Qeq, trunc. cbn [Qnum Qden]. intros E.
  rewrite <- (Z.quot_mul_cancel_r a (Z.pos b) (Z.pos d)), <- (Z.quot_mul_cancel_r c (Z.pos d) (Z.pos b)) by lia.
  rewrite E. f_equal. lia.
Qed.

Lemma trunc_int z : trunc (inject_Z z) = z.
Proof. unfold trunc. cbn. by rewrite Z.quot_1_r. Qed.

Lemma trunc_spec x n :
  trunc x = n ↔ (0 <= x → inject_Z n <= x < inject_Z n + 1) ∧ (x < 0 → inject_Z n - 1 < x <= inject_Z n).
Proof.
  destruct x as [a b]. unfold trunc, Qle, Qlt, Qminus, Qplus, Qopp, inject_Z. cbn [Qnum Qden].
  change (1 * 1)%positive with 1%positive. change (QDen 1) with 1%Z. change (Qnum 0) with 0%Z.
  pose proof (Z.quot_rem' a (Z.pos b)) as E.
  pose proof (Z.rem_bound_pos a (Z.pos b)) as Hp. pose proof (Z.rem_bound_pos_neg a (Z.pos b)) as Hn.
  revert E Hp Hn. generalize (Z.quot a (Z.pos b)) (Z.rem a (Z.pos b)). intros q r E Hp Hn.
  destruct (decide (0 ≤ a)%Z).
  - specialize (Hp ltac:(lia) ltac:(lia)). split; [intros <-; split; nia|].
    intros [H1 _]. specialize (H1 ltac:(lia)). nia.
  - specialize (Hn ltac:(lia) ltac:(lia)). split; [intros <-; split; nia|].
    intros [_ H1]. specialize (H1 ltac:(lia)). nia.
Qed.

(** A number that is no integer is truncated like any number closer to it than
    its denominator allows. *)
Lemma trunc_near p q y :
  (p mod Z.pos q ≠ 0)%Z → Qabs (y - (p # q)) < 1 # q → trunc y = trunc (p # q).
Proof.
  intros Hp Hy. apply Qabs_Qlt_condition in Hy as [H1 H2].
  pose proof (Z.div_mod p (Z.pos q) ltac:(lia)) as E. pose proof (Z.mod_pos_bound p (Z.pos q) ltac:(lia)).
  set (f := (p / Z.pos q)%Z) in *. set (r := (p mod Z.pos q)%Z) in *.
  assert (Ex : (p # q) == inject_Z f + (r # q)).
  { unfold Qeq. cbn. lia. }
  assert (Hl : 1 # q <= r # q) by (unfold Qle; cbn; nia).
  assert (Hu : (r # q) <= 1 - (1 # q)) by (unfold Qle; cbn; nia).
  rewrite Ex in *. destruct (decide (0 ≤ f)%Z) as [Hf|Hf].
  - assert (0 <= inject_Z f) by (rewrite (Zle_Qle 0) in Hf; exact Hf).
    transitivity f; [|symmetry]; apply trunc_spec; split; lra.
  - assert (inject_Z f <= - (1)) by (change (- (1)) with (inject_Z (-1)); rewrite <- Zle_Qle; lia).
    transitivity (f + 1)%Z; [|symmetry]; apply trunc_spec; rewrite inject_Z_plus; change (inject_Z 1) with 1;
      split; lra.
Qed.

(** Rounding a fraction does not change its integer part. *)
Lemma trunc_rnd p q : (Z.abs p < 2 ^ 53)%Z → trunc (rnd (p # q)) = trunc (p # q).
Proof.
  intros Hp. destruct (decide (p mod Z.pos q = 0)%Z) as [E|E].
  - apply Z.mod_divide in E as [z ->]; [|done].
    assert (Ez : (z * Z.pos q # q) == inject_Z z) by (unfold Qeq; cbn; lia).
    rewrite (rnd_proper _ _ Ez), Ez. apply trunc_proper. apply rnd_int. nia.
  - apply trunc_near; [done|]. eapply Qle_lt_trans; [apply rnd_error|].
    change (2 ^ (-53)) with (1 # Z.to_pos (2 ^ 53)). unfold Qlt, Qabs, Qmult. cbn [Qnum Qden].
    rewrite Pos2Z.inj_mul, Z2Pos.id by done. nia.
Qed.

Lemma to_int_ok lo hi x : (lo ≤ trunc x ≤ hi)%Z → to_int lo hi x = Ok (trunc x).
Proof. intros. unfold to_int. by rewrite decide_True. Qed.

(** The rounding error of a number of known size, with a simpler constant. *)
Lemma rnd_close x m : - m <= x <= m → x - m * (1 # 1000000000000000) <= rnd x <= x + m * (1 # 1000000000000000).
Proof.
  intros Hm. pose proof (rnd_error x) as He. apply Qabs_Qle_condition in He as [H1 H2].
  assert (Ha : Qabs x <= m) by (apply Qabs_Qle_condition; lra).
  assert (Hu : 2 ^ (-53) <= 1 # 1000000000000000) by (by vm_compute).
  pose proof (Qabs_nonneg x). pose proof (pow2_pos (-53)).
  assert (Qabs x * 2 ^ (-53) <= m * (1 # 1000000000000000)) by nra. lra.
Qed.

(** Operations on doubles that are exact. *)
Lemma of_int_exact z : (Z.abs z < 2 ^ 53)%Z → of_int z == inject_Z z.
Proof. apply rnd_int. Qed.

(** Scaling by a power of two, and numbers on the grid of a power of two. *)
Lemma rnd_grid x m e : x == inject_Z m * 2 ^ e → (Z.abs m < 2 ^ 53)%Z → rnd x == inject_Z m * 2 ^ e.
Proof. intros E Hm. by rewrite (rnd_exact x m e E Hm). Qed.

(** Numbers less than one apart have integer parts at most one apart. *)
Lemma trunc_within x y : Qabs (y - x) < 1 → (Z.abs (trunc y - trunc x) ≤ 1)%Z.
Proof.
  intros H. apply Qabs_Qlt_condition in H as [H1 H2].
  pose proof (proj1 (trunc_spec x _) eq_refl) as [X1 X2]. pose proof (proj1 (trunc_spec y _) eq_refl) as [Y1 Y2].
  set (n := trunc x) in *. set (m := trunc y) in *.
  assert (Hlt : inject_Z m < inject_Z n + 2 ∧ inject_Z n < inject_Z m + 2).
  { destruct (Qlt_le_dec x 0) as [Hx|Hx], (Qlt_le_dec y 0) as [Hy|Hy];
      repeat match goal with H : _ → _, H' : _ |- _ => specialize (H H') end; lra. }
  change 2 with (inject_Z 2) in Hlt. rewrite <- !inject_Z_plus, <- !Zlt_Qlt in Hlt. lia.
Qed.

Lemma to_int_exact lo hi x z : x == inject_Z z → (lo ≤ z ≤ hi)%Z → to_int lo hi x = Ok z.
Proof. intros E Hz. rewrite to_int_ok; rewrite (trunc_proper _ _ E), trunc_int; done. Qed.

Lemma to_int_quot lo hi x p q :
  x == p # q → (lo ≤ Z.quot p (Z.pos q) ≤ hi)%Z → to_int lo hi x = Ok (Z.quot p (Z.pos q)).
Proof. intros E Hz. rewrite to_int_ok; rewrite (trunc_proper _ _ E); done. Qed.

#[export] Instance ddiv_proper : Proper (Qeq ==> Qeq ==> eq) ddiv.
Proof. intros x x' Ex y y' Ey. unfold ddiv. apply rnd_proper. by rewrite Ex, Ey. Qed.
#[export] Instance dmul_proper : Proper (Qeq ==> Qeq ==> eq) dmul.
Proof. intros x x' Ex y y' Ey. unfold dmul. apply rnd_proper. by rewrite Ex, Ey. Qed.
#[export] Instance dadd_proper : Proper (Qeq ==> Qeq ==> eq) dadd.
Proof. intros x x' Ex y y' Ey. unfold dadd. apply rnd_proper. by rewrite Ex, Ey. Qed.
#[export] Instance dsub_proper : Proper (Qeq ==> Qeq ==> eq) dsub.
Proof. intros x x' Ex y y' Ey. unfold dsub. apply rnd_proper. by rewrite Ex, Ey. Qed.
