(* ===== verification/Bluetooth.v ===== *)
(** * esp32iot_bluetooth.c: the sensor client

    Models [src/main/src/Bluetooth/esp32iot_bluetooth.c]: the client of the
    sensor tag "MEAS Tag BA5C" with its temperature and humidity sensor HTU21D,
    its pressure sensor MS5637 and its battery.  The code is a state machine
    driven by the events of the Bluetooth stack: [esp_gap_cb] for scanning and
    [esp_gattc_cb] for the connection.  The stack is vendored (components/bt);
    it is the world [B] with the requests and queries of the class [Bluedroid].
    Its parser of advertising data, which is a plain function on bytes, is
    modelled too.

    The members of the handle structure are named after the sensor they belong
    to; here they are functions of the sensor or characteristic, so that code
    the source repeats for each sensor is one definition.  Log output is left
    out. *)

From Stdlib Require Import QArith.
From stdpp Require Import functions.
From S2P Require Import Prelude CString Double.

#[local] Open Scope Z_scope.

(** ** Data *)

Inductive sensor := HTU21D | MS5637 | Battery.
Inductive characteristic :=
| HTU21D_data | HTU21D_stat | MS5637_data | MS5637_calibration | MS5637_stat | Battery_data.

#[export] Instance sensor_eq_dec : EqDecision sensor.
Proof. solve_decision. Defined.
#[export] Instance characteristic_eq_dec : EqDecision characteristic.
Proof. solve_decision. Defined.

Inductive bt_uuid := UUID16 (z : Z) | UUID32 (z : Z) | UUID128 (l : list Z).
#[export] Instance bt_uuid_eq_dec : EqDecision bt_uuid.
Proof. solve_decision. Defined.

(** The identifiers differ in two bytes only. *)
Definition BA5C_uuid (b12 b13 : Z) : bt_uuid :=
  UUID128 [0; 0; 0; 0; 0; 0; 0; 176; 0; 64; 81; 4; b12; b13; 0; 240].
Definition service_uuid (s : sensor) : bt_uuid :=
  match s with HTU21D => BA5C_uuid 32 170 | MS5637 => BA5C_uuid 64 170 | Battery => BA5C_uuid 15 24 end.
Definition char_uuid (c : characteristic) : bt_uuid :=
  match c with
  | HTU21D_data => BA5C_uuid 33 170 | HTU21D_stat => BA5C_uuid 47 170
  | MS5637_data => BA5C_uuid 65 170 | MS5637_calibration => BA5C_uuid 67 170
  | MS5637_stat => BA5C_uuid 79 170 | Battery_data => BA5C_uuid 25 42
  end.
Definition ESP_GATT_UUID_CHAR_CLIENT_CONFIG : Z := 10498.
Definition notify_descr_char_uuid : bt_uuid := UUID16 ESP_GATT_UUID_CHAR_CLIENT_CONFIG.

Definition data_char (s : sensor) : characteristic :=
  match s with HTU21D => HTU21D_data | MS5637 => MS5637_data | Battery => Battery_data end.
(** What is looked up in a service, in this order; the first one is subscribed to. *)
Definition service_chars (s : sensor) : list characteristic :=
  match s with
  | HTU21D => [HTU21D_data; HTU21D_stat]
  | MS5637 => [MS5637_data; MS5637_calibration; MS5637_stat]
  | Battery => [Battery_data]
  end.

Record BA5C_handle_data_t := {
  conn_device : bool;
  service_start_handle : sensor → Z;
  service_end_handle : sensor → Z;
  char_handle : characteristic → Z;
  get_service : sensor → bool }.

Record BA5C_data_t := {
  HTU21D_recived_notification_counter : Z;
  HTU21D_temperature : Z;
  HTU21D_humidity : Z;
  HTU21D_status : Z;
  MS5637_recived_notification_counter : Z;
  MS5637_D1 : Z;
  MS5637_D2 : Z;
  MS5637_temperature : Z;
  MS5637_pressure : Z;
  MS5637_status : Z;
  Battery_level : Z;
  Battery_status : Z }.

Record gattc_profile_inst := {
  gattc_if : Z;
  conn_id : Z;
  remote_bda : list Z;
  BA5C_handle_data : BA5C_handle_data_t }.

Definition ESP_GATT_OK : Z := 0.
Definition ESP_GATT_IF_NONE : Z := 255.
Definition ESP_GATT_CHAR_PROP_BIT_READ : Z := 2.
Definition ESP_GATT_CHAR_PROP_BIT_NOTIFY : Z := 16.
Definition PROFILE_NUM : Z := 1.
Definition read_interval : Z := 10.

(** The variables of the file; [gl_profile_tab] has the one element [profile]. *)
Record Bt := {
  profile : gattc_profile_inst;
  Isconnecting : bool;
  stop_scan_done : bool;
  BA5C_data : BA5C_data_t }.

Definition Bt_initializer : Bt := {|
  profile := {| gattc_if := ESP_GATT_IF_NONE; conn_id := 0; remote_bda := replicate 6 0;
    BA5C_handle_data := {| conn_device := false; service_start_handle _ := 0; service_end_handle _ := 0;
      char_handle _ := 0; get_service _ := false |} |};
  Isconnecting := false; stop_scan_done := false;
  BA5C_data := {| HTU21D_recived_notification_counter := 0; HTU21D_temperature := 0; HTU21D_humidity := 0;
    HTU21D_status := 0; MS5637_recived_notification_counter := 0; MS5637_D1 := 0; MS5637_D2 := 0;
    MS5637_temperature := 0; MS5637_pressure := 0; MS5637_status := 0; Battery_level := 0;
    Battery_status := 0 |} |}.

(** ** Advertising data *)

Definition ESP_BLE_AD_TYPE_NAME_CMPL : Z := 9.
Definition BTM_BLE_CACHE_ADV_DATA_MAX : Z := 62.

(** The [while] loop: [p] is the offset of the read pointer, [length] the byte
    read last. *)
Fixpoint check_adv_loop (fuel : nat) (adv : list Z) (type p length : Z) : outcome (option (Z * Z)) :=
  if negb (length =? 0) && (p <=? BTM_BLE_CACHE_ADV_DATA_MAX) then
    match fuel with
    | O => Fault OutOfFuel
    | S fuel =>
        adv_type ← load adv p;
        if adv_type =? type then Ok (Some (p + 1, length - 1))
        else
          length' ← load adv (p + 1 + (length - 1));
          check_adv_loop fuel adv type (p + 1 + (length - 1) + 1) length'
    end
  else Ok None.

(** Offset and length of the data of the first element of the type. *)
Definition BTM_CheckAdvData (adv : list Z) (type : Z) : outcome (option (Z * Z)) :=
  length ← load adv 0;
  check_adv_loop 64 adv type 1 length.

(** The type the client asks for is one of the defined ones, and the data is
    never NULL. *)
Definition esp_ble_resolve_adv_data : list Z → Z → outcome (option (Z * Z)) := BTM_CheckAdvData.

Definition remote_device_name : list Z := bytes "MEAS Tag BA5C".

(** ** [hexadecimalToDecimal] *)

(** The loop from the last character to the first: [s] is the text read
    backwards.  [base] runs ahead of the digits and may overflow. *)
Fixpoint hex_loop (s : list Z) (base dec_val : Z) : outcome Z :=
  match s with
  | [] => Ok dec_val
  | c :: s =>
      let digit := if (48 <=? c) && (c <=? 57) then Some (c - 48)
                   else if (65 <=? c) && (c <=? 70) then Some (c - 55) else None in
      match digit with
      | Some d =>
          t ← chk32 (d * base);
          dec_val ← chk32 (dec_val + t);
          base ← chk32 (base * 16);
          hex_loop s base dec_val
      | None => hex_loop s base dec_val
      end
  end.

Definition hexadecimalToDecimal (hexVal : list Z) : outcome Z :=
  s ← cstr hexVal; hex_loop (rev s) 1 0.

(** ** The Bluetooth stack *)

(** What the client asks the stack to do. *)
Inductive bt_request :=
| esp_bt_controller_mem_release
| esp_bt_controller_init
| esp_bt_controller_enable
| esp_bluedroid_init
| esp_bluedroid_enable
| esp_ble_gap_register_callback
| esp_ble_gattc_register_callback
| esp_ble_gattc_app_register (app_id : Z)
| esp_ble_gatt_set_local_mtu (mtu : Z)
| esp_ble_gap_set_scan_params
| esp_ble_gap_start_scanning (duration : Z)
| esp_ble_gap_stop_scanning
| esp_ble_gattc_open (gif : Z) (bda : list Z)
| esp_ble_gattc_send_mtu_req (gif conn : Z)
| esp_ble_gattc_search_service (gif conn : Z) (uuid : bt_uuid)
| esp_ble_gattc_register_for_notify (gif : Z) (bda : list Z) (handle : Z)
| esp_ble_gattc_write_char_descr (gif conn handle : Z) (value : list Z)
| esp_ble_gattc_read_char (gif conn handle : Z).

Record char_elem := { el_char_handle : Z; el_properties : Z }.
Record descr_elem := { el_handle : Z; el_uuid : bt_uuid }.

(** A request returns a status.  The queries of the attribute cache return a
    status, the count and the elements stored in the caller's array; on an
    error the count may be anything. *)
Class Bluedroid (B : Type) := {
  request : bt_request → B → Z * B;
  char_count : Z → Z → Z → Z → B → Z * Z;
  descr_count : Z → Z → Z → Z → Z → B → Z * Z;
  char_by_uuid : Z → Z → Z → Z → bt_uuid → Z → B → Z * Z * list char_elem;
  descr_by_char_handle : Z → Z → Z → bt_uuid → Z → B → Z * Z * list descr_elem;
  bt_malloc : Z → B → bool }.

(** The first element of an array from [malloc]. *)
Definition first {A} (l : list A) : outcome A :=
  match l with x :: _ => Ok x | [] => Fault UninitRead end.

(** ** The conversions *)

Definition be16 (hi lo : Z) : Z := Z.lor lo (Z.shiftl hi 8).
Definition be24 (b2 b1 b0 : Z) : Z := Z.lor (Z.lor b0 (Z.shiftl b1 8)) (Z.shiftl b2 16).

(** Degrees from the temperature word. *)
Definition htu21d_temperature (t : Z) : outcome Z :=
  to_int16 (dadd (literal (-4685 # 100)) (ddiv (dmul (literal (17572 # 100)) (of_int t)) (of_int 65536))).

(** Temperature and humidity of the HTU21D from the bytes of a notification;
    the raw words go through the [int16_t] members. *)
Definition htu21d_convert (v : list Z) : outcome (Z * Z) :=
  v1 ← load v 1; v0 ← load v 0;
  v4 ← load v 4; v3 ← load v 3;
  let t := s16 (be16 v0 v1) in
  let h := s16 (be16 v3 v4) in
  t ← htu21d_temperature t;
  Ok (t, s16 (-6 + Z.quot (125 * h) 65536)).

(** Temperature and pressure of the MS5637 from the raw values [D1] and [D2] and
    the calibration bytes. *)
Definition ms5637_convert (D1 D2 : Z) (v : list Z) : outcome (Z * Z) :=
  v9 ← load v 9; v8 ← load v 8;
  dT ← to_int32 (dsub (of_int D2) (dmul (of_int (be16 v8 v9)) (pow2 8)));
  v11 ← load v 11; v10 ← load v 10;
  p ← chk32 (dT * be16 v10 v11);
  temp ← to_int32 (ddiv (dadd (of_int 2000) (ddiv (of_int p) (pow2 23))) (of_int 100));
  v3 ← load v 3; v2 ← load v 2; v7 ← load v 7; v6 ← load v 6;
  p ← chk32 (be16 v6 v7 * dT);
  OFF ← to_int64 (dadd (dmul (of_int (be16 v2 v3)) (pow2 17)) (ddiv (of_int p) (pow2 6)));
  v1 ← load v 1; v0 ← load v 0; v5 ← load v 5; v4 ← load v 4;
  p ← chk32 (be16 v4 v5 * dT);
  SENS ← to_int64 (dadd (dmul (of_int (be16 v0 v1)) (pow2 16)) (ddiv (of_int p) (pow2 7)));
  p ← chk64 (D1 * SENS);
  pres ← to_int32 (ddiv (ddiv (dsub (ddiv (of_int p) (pow2 21)) (of_int OFF)) (pow2 15)) (of_int 100));
  Ok (temp, pres).

(** ** Updates of the variables *)

Definition set_profile (g : gattc_profile_inst → gattc_profile_inst) (t : Bt) : Bt :=
  {| profile := g (profile t); Isconnecting := Isconnecting t; stop_scan_done := stop_scan_done t;
     BA5C_data := BA5C_data t |}.
Definition set_handles (g : BA5C_handle_data_t → BA5C_handle_data_t) : Bt → Bt :=
  set_profile (λ p, {| gattc_if := gattc_if p; conn_id := conn_id p; remote_bda := remote_bda p;
                       BA5C_handle_data := g (BA5C_handle_data p) |}).
Definition set_scan (connecting done : bool) (t : Bt) : Bt :=
  {| profile := profile t; Isconnecting := connecting; stop_scan_done := done; BA5C_data := BA5C_data t |}.
Definition set_data (g : BA5C_data_t → BA5C_data_t) (t : Bt) : Bt :=
  {| profile := profile t; Isconnecting := Isconnecting t; stop_scan_done := stop_scan_done t;
     BA5C_data := g (BA5C_data t) |}.

Definition set_gattc_if (v : Z) (p : gattc_profile_inst) : gattc_profile_inst :=
  {| gattc_if := v; conn_id := conn_id p; remote_bda := remote_bda p; BA5C_handle_data := BA5C_handle_data p |}.
Definition set_peer (bda : list Z) (conn : Z) (p : gattc_profile_inst) : gattc_profile_inst :=
  {| gattc_if := gattc_if p; conn_id := conn; remote_bda := bda; BA5C_handle_data := BA5C_handle_data p |}.

Definition set_conn_device (v : bool) (h : BA5C_handle_data_t) : BA5C_handle_data_t :=
  {| conn_device := v; service_start_handle := service_start_handle h;
     service_end_handle := service_end_handle h; char_handle := char_handle h; get_service := get_service h |}.
Definition set_char_handle (c : characteristic) (v : Z) (h : BA5C_handle_data_t) : BA5C_handle_data_t :=
  {| conn_device := conn_device h; service_start_handle := service_start_handle h;
     service_end_handle := service_end_handle h; char_handle := <[c:=v]> (char_handle h);
     get_service := get_service h |}.
(** The service [s] is the one that was found last. *)
Definition set_found (s : sensor) (lo hi : Z) (h : BA5C_handle_data_t) : BA5C_handle_data_t :=
  {| conn_device := conn_device h; service_start_handle := <[s:=lo]> (service_start_handle h);
     service_end_handle := <[s:=hi]> (service_end_handle h); char_handle := char_handle h;
     get_service s' := bool_decide (s' = s) |}.
Definition set_lost (h : BA5C_handle_data_t) : BA5C_handle_data_t :=
  {| conn_device := false; service_start_handle := service_start_handle h;
     service_end_handle := service_end_handle h; char_handle := char_handle h; get_service _ := false |}.

Definition set_HTU21D (temperature humidity counter : Z) (d : BA5C_data_t) : BA5C_data_t :=
  {| HTU21D_recived_notification_counter := counter; HTU21D_temperature := temperature;
     HTU21D_humidity := humidity; HTU21D_status := HTU21D_status d;
     MS5637_recived_notification_counter := MS5637_recived_notification_counter d;
     MS5637_D1 := MS5637_D1 d; MS5637_D2 := MS5637_D2 d; MS5637_temperature := MS5637_temperature d;
     MS5637_pressure := MS5637_pressure d; MS5637_status := MS5637_status d;
     Battery_level := Battery_level d; Battery_status := Battery_status d |}.
Definition set_HTU21D_status (v : Z) (d : BA5C_data_t) : BA5C_data_t :=
  {| HTU21D_recived_notification_counter := HTU21D_recived_notification_counter d;
     HTU21D_temperature := HTU21D_temperature d; HTU21D_humidity := HTU21D_humidity d; HTU21D_status := v;
     MS5637_recived_notification_counter := MS5637_recived_notification_counter d;
     MS5637_D1 := MS5637_D1 d; MS5637_D2 := MS5637_D2 d; MS5637_temperature := MS5637_temperature d;
     MS5637_pressure := MS5637_pressure d; MS5637_status := MS5637_status d;
     Battery_level := Battery_level d; Battery_status := Battery_status d |}.
Definition set_MS5637_raw (D1 D2 counter : Z) (d : BA5C_data_t) : BA5C_data_t :=
  {| HTU21D_recived_notification_counter := HTU21D_recived_notification_counter d;
     HTU21D_temperature := HTU21D_temperature d; HTU21D_humidity := HTU21D_humidity d;
     HTU21D_status := HTU21D_status d; MS5637_recived_notification_counter := counter;
     MS5637_D1 := D1; MS5637_D2 := D2; MS5637_temperature := MS5637_temperature d;
     MS5637_pressure := MS5637_pressure d; MS5637_status := MS5637_status d;
     Battery_level := Battery_level d; Battery_status := Battery_status d |}.
Definition set_MS5637 (temperature pressure status : Z) (d : BA5C_data_t) : BA5C_data_t :=
  {| HTU21D_recived_notification_counter := HTU21D_recived_notification_counter d;
     HTU21D_temperature := HTU21D_temperature d; HTU21D_humidity := HTU21D_humidity d;
     HTU21D_status := HTU21D_status d;
     MS5637_recived_notification_counter := MS5637_recived_notification_counter d;
     MS5637_D1 := MS5637_D1 d; MS5637_D2 := MS5637_D2 d; MS5637_temperature := temperature;
     MS5637_pressure := pressure; MS5637_status := status;
     Battery_level := Battery_level d; Battery_status := Battery_status d |}.
Definition set_Battery (level status : Z) (d : BA5C_data_t) : BA5C_data_t :=
  {| HTU21D_recived_notification_counter := HTU21D_recived_notification_counter d;
     HTU21D_temperature := HTU21D_temperature d; HTU21D_humidity := HTU21D_humidity d;
     HTU21D_status := HTU21D_status d;
     MS5637_recived_notification_counter := MS5637_recived_notification_counter d;
     MS5637_D1 := MS5637_D1 d; MS5637_D2 := MS5637_D2 d; MS5637_temperature := MS5637_temperature d;
     MS5637_pressure := MS5637_pressure d; MS5637_status := MS5637_status d;
     Battery_level := level; Battery_status := status |}.

(** ** Events *)

Inductive gattc_event :=
| ESP_GATTC_REG_EVT (status app_id : Z)
| ESP_GATTC_CONNECT_EVT
| ESP_GATTC_OPEN_EVT (status conn : Z) (bda : list Z)
| ESP_GATTC_CFG_MTU_EVT (status conn : Z)
| ESP_GATTC_SEARCH_RES_EVT (lo hi : Z) (uuid : bt_uuid)
| ESP_GATTC_SEARCH_CMPL_EVT (status conn : Z)
| ESP_GATTC_REG_FOR_NOTIFY_EVT (status handle : Z)
| ESP_GATTC_NOTIFY_EVT (handle : Z) (value : list Z)
| ESP_GATTC_READ_CHAR_EVT (status handle : Z) (value : list Z)
| ESP_GATTC_QUEUE_FULL_EVT (status : Z)
| ESP_GATTC_WRITE_DESCR_EVT (status : Z)
| ESP_GATTC_WRITE_CHAR_EVT (status : Z)
| ESP_GATTC_SRVC_CHG_EVT (bda : list Z)
| ESP_GATTC_DISCONNECT_EVT (bda : list Z)
| ESP_GATTC_OTHER_EVT.

Inductive gap_event :=
| ESP_GAP_BLE_UPDATE_CONN_PARAMS_EVT
| ESP_GAP_BLE_SCAN_PARAM_SET_COMPLETE_EVT
| ESP_GAP_BLE_SCAN_START_COMPLETE_EVT (status : Z)
| ESP_GAP_BLE_SCAN_RESULT_INQ_RES (bda ble_adv : list Z)
| ESP_GAP_BLE_SCAN_RESULT_OTHER
| ESP_GAP_BLE_SCAN_STOP_COMPLETE_EVT (status : Z)
| ESP_GAP_BLE_ADV_STOP_COMPLETE_EVT (status : Z)
| ESP_GAP_BLE_OTHER_EVT.

Section Client.
Context {B : Type} `{!Bluedroid B}.
Abbreviation MB := (M (Bt * B)).

Definition req (r : bt_request) : MB Z := λ '(t, w), let '(st, w) := request r w in Ok (st, (t, w)).
Definition query {A} (q : B → A) : MB A := gets (λ s, q s.2).
Definition var {A} (f : Bt → A) : MB A := gets (λ s, f s.1).
Definition upd (g : Bt → Bt) : MB () := modify (λ '(t, w), (g t, w)).
Definition handles : MB BA5C_handle_data_t := var (λ t, BA5C_handle_data (profile t)).

Definition start_scan : MB () :=
  upd (set_scan false false) ;;
  req (esp_ble_gap_start_scanning 30) ;;
  mret ().

(** One lookup by identifier: the handle of a characteristic with the right
    property is stored, and the data characteristic is subscribed to. *)
Definition find_char (gif conn : Z) (s : sensor) (count : Z) (c : characteristic) : MB () :=
  h ← handles;
  '(st, n, elems) ← query (char_by_uuid gif conn (service_start_handle h s) (service_end_handle h s)
                             (char_uuid c) count);
  if negb (st =? ESP_GATT_OK) || (n <=? 0) then mret () else
  e ← lift (first elems);
  if bool_decide (c = data_char s) then
    if Z.land (el_properties e) ESP_GATT_CHAR_PROP_BIT_NOTIFY =? 0 then mret () else
    upd (set_handles (set_char_handle c (el_char_handle e))) ;;
    bda ← var (λ t, remote_bda (profile t));
    req (esp_ble_gattc_register_for_notify gif bda (el_char_handle e)) ;;
    mret ()
  else
    if Z.land (el_properties e) ESP_GATT_CHAR_PROP_BIT_READ =? 0 then mret () else
    upd (set_handles (set_char_handle c (el_char_handle e))).

Fixpoint find_chars (gif conn : Z) (s : sensor) (count : Z) (l : list characteristic) : MB () :=
  match l with
  | [] => mret ()
  | c :: l => find_char gif conn s count c ;; find_chars gif conn s count l
  end.

(** The characteristics of the service [s]. *)
Definition search_complete (gif conn : Z) (s : sensor) : MB () :=
  h ← handles;
  '(_, count) ← query (char_count gif conn (service_start_handle h s) (service_end_handle h s));
  if count <=? 0 then mret () else
  ok ← query (bt_malloc count);
  if ok : bool then find_chars gif conn s count (service_chars s) else mret ().

(** The descriptor that switches the notifications of [s] on. *)
Definition enable_notify (gif : Z) (s : sensor) (handle : Z) : MB () :=
  h ← handles;
  conn ← var (λ t, conn_id (profile t));
  '(_, count) ← query (descr_count gif conn (service_start_handle h s) (service_end_handle h s)
                         (char_handle h (data_char s)));
  if count <=? 0 then mret () else
  ok ← query (bt_malloc count);
  if negb ok then mret () else
  '(_, n, elems) ← query (descr_by_char_handle gif conn handle notify_descr_char_uuid count);
  if n <=? 0 then mret () else
  e ← lift (first elems);
  if bool_decide (el_uuid e = notify_descr_char_uuid) then
    req (esp_ble_gattc_write_char_descr gif conn (el_handle e) [1; 0]) ;; mret ()
  else mret ().

(** The reads that every tenth notification triggers, and the counter. *)
Definition count_notification (gif counter : Z) (reads : list characteristic) : MB Z :=
  let counter := u8 (counter + 1) in
  if read_interval <=? counter then
    (fix go l := match l with
       | [] => mret 0
       | c :: l =>
           conn ← var (λ t, conn_id (profile t));
           h ← handles;
           req (esp_ble_gattc_read_char gif conn (char_handle h c)) ;;
           go l
       end) reads
  else mret counter.

Definition notified (gif handle : Z) (v : list Z) : MB () :=
  h ← handles;
  if handle =? char_handle h HTU21D_data then
    '(t, hu) ← lift (htu21d_convert v);
    d ← var BA5C_data;
    counter ← count_notification gif (HTU21D_recived_notification_counter d) [HTU21D_stat; Battery_data];
    upd (set_data (set_HTU21D t hu counter))
  else if handle =? char_handle h MS5637_data then
    v2 ← lift (load v 2); v1 ← lift (load v 1); v0 ← lift (load v 0);
    v5 ← lift (load v 5); v4 ← lift (load v 4); v3 ← lift (load v 3);
    d ← var BA5C_data;
    counter ← count_notification gif (MS5637_recived_notification_counter d) [MS5637_calibration; MS5637_stat];
    upd (set_data (set_MS5637_raw (be24 v0 v1 v2) (be24 v3 v4 v5) counter))
  else if handle =? char_handle h Battery_data then
    v0 ← lift (load v 0); v1 ← lift (load v 1);
    upd (set_data (set_Battery v0 v1))
  else mret ().

Definition char_read (handle : Z) (v : list Z) : MB () :=
  h ← handles;
  d ← var BA5C_data;
  if handle =? char_handle h HTU21D_stat then
    v0 ← lift (load v 0); upd (set_data (set_HTU21D_status v0))
  else if handle =? char_handle h MS5637_calibration then
    '(t, p) ← lift (ms5637_convert (MS5637_D1 d) (MS5637_D2 d) v);
    upd (set_data (set_MS5637 t p (MS5637_status d)))
  else if handle =? char_handle h MS5637_stat then
    v0 ← lift (load v 0);
    upd (set_data (set_MS5637 (MS5637_temperature d) (MS5637_pressure d) v0))
  else if handle =? char_handle h Battery_data then
    v0 ← lift (load v 0); v1 ← lift (load v 1);
    upd (set_data (set_Battery v0 v1))
  else mret ().

Definition gattc_profile_BA5C_event_handler (event : gattc_event) (gif : Z) : MB () :=
  match event with
  | ESP_GATTC_REG_EVT _ _ => req esp_ble_gap_set_scan_params ;; mret ()
  | ESP_GATTC_OPEN_EVT status conn bda =>
      if negb (status =? ESP_GATT_OK) then upd (set_handles (set_conn_device false)) else
      upd (set_profile (set_peer bda conn)) ;;
      req (esp_ble_gattc_send_mtu_req gif conn) ;;
      mret ()
  | ESP_GATTC_CFG_MTU_EVT _ conn =>
      req (esp_ble_gattc_search_service gif conn (service_uuid HTU21D)) ;;
      req (esp_ble_gattc_search_service gif conn (service_uuid MS5637)) ;;
      req (esp_ble_gattc_search_service gif conn (service_uuid Battery)) ;;
      mret ()
  | ESP_GATTC_SEARCH_RES_EVT lo hi uuid =>
      if bool_decide (uuid = service_uuid HTU21D) then upd (set_handles (set_found HTU21D lo hi))
      else if bool_decide (uuid = service_uuid MS5637) then upd (set_handles (set_found MS5637 lo hi))
      else if bool_decide (uuid = service_uuid Battery) then upd (set_handles (set_found Battery lo hi))
      else mret ()
  | ESP_GATTC_SEARCH_CMPL_EVT status conn =>
      if negb (status =? ESP_GATT_OK) then mret () else
      h ← handles;
      if get_service h HTU21D then search_complete gif conn HTU21D
      else if get_service h MS5637 then search_complete gif conn MS5637
      else if get_service h Battery then search_complete gif conn Battery
      else mret ()
  | ESP_GATTC_REG_FOR_NOTIFY_EVT status handle =>
      if negb (status =? ESP_GATT_OK) then mret () else
      h ← handles;
      if handle =? char_handle h HTU21D_data then enable_notify gif HTU21D handle
      else if handle =? char_handle h MS5637_data then enable_notify gif MS5637 handle
      else if handle =? char_handle h Battery_data then enable_notify gif Battery handle
      else mret ()
  | ESP_GATTC_NOTIFY_EVT handle v => notified gif handle v
  | ESP_GATTC_READ_CHAR_EVT status handle v =>
      if negb (status =? ESP_GATT_OK) then mret () else char_read handle v
  | ESP_GATTC_WRITE_CHAR_EVT _ => start_scan
  | ESP_GATTC_DISCONNECT_EVT bda =>
      start_scan ;;
      own ← var (λ t, remote_bda (profile t));
      if bool_decide (bda = own) then upd (set_handles set_lost) else mret ()
  | ESP_GATTC_CONNECT_EVT | ESP_GATTC_QUEUE_FULL_EVT _ | ESP_GATTC_WRITE_DESCR_EVT _
  | ESP_GATTC_SRVC_CHG_EVT _ | ESP_GATTC_OTHER_EVT => mret ()
  end.

Definition esp_gap_cb (event : gap_event) : MB () :=
  match event with
  | ESP_GAP_BLE_SCAN_PARAM_SET_COMPLETE_EVT => req (esp_ble_gap_start_scanning 30) ;; mret ()
  | ESP_GAP_BLE_SCAN_RESULT_INQ_RES bda ble_adv =>
      name ← lift (esp_ble_resolve_adv_data ble_adv ESP_BLE_AD_TYPE_NAME_CMPL);
      connecting ← var Isconnecting;
      if connecting : bool then mret () else
      h ← handles;
      stopped ← var stop_scan_done;
      if conn_device h && negb stopped then
        upd (set_scan false true) ;;
        req esp_ble_gap_stop_scanning ;;
        mret ()
      else
      match name with
      | None => mret ()
      | Some (off, len) =>
          if zlen remote_device_name =? len then
            r ← lift (strncmp (Z.to_nat len) (drop (Z.to_nat off) ble_adv) (remote_device_name ++ [0]));
            if (r =? 0) && negb (conn_device h) then
              upd (set_handles (set_conn_device true)) ;;
              req esp_ble_gap_stop_scanning ;;
              gif ← var (λ t, gattc_if (profile t));
              req (esp_ble_gattc_open gif bda) ;;
              upd (λ t, set_scan true (stop_scan_done t) t)
            else mret ()
          else mret ()
      end
  | ESP_GAP_BLE_UPDATE_CONN_PARAMS_EVT | ESP_GAP_BLE_SCAN_START_COMPLETE_EVT _
  | ESP_GAP_BLE_SCAN_RESULT_OTHER | ESP_GAP_BLE_SCAN_STOP_COMPLETE_EVT _
  | ESP_GAP_BLE_ADV_STOP_COMPLETE_EVT _ | ESP_GAP_BLE_OTHER_EVT => mret ()
  end.

(** The profile table has one entry, so the loop over it has one round. *)
Definition esp_gattc_cb (event : gattc_event) (gif : Z) : MB () :=
  let dispatch :=
    own ← var (λ t, gattc_if (profile t));
    if (gif =? ESP_GATT_IF_NONE) || (gif =? own) then gattc_profile_BA5C_event_handler event gif
    else mret () in
  match event with
  | ESP_GATTC_REG_EVT status app_id =>
      if status =? ESP_GATT_OK then
        if decide (0 ≤ app_id < PROFILE_NUM) then upd (set_profile (set_gattc_if gif)) ;; dispatch
        else fail OobWrite
      else mret ()
  | _ => dispatch
  end.

(** A sequence of initialisation steps: the first error is returned. *)
Fixpoint init_steps (l : list bt_request) (k : MB Z) : MB Z :=
  match l with
  | [] => k
  | r :: l => st ← req r; if negb (st =? 0) then mret st else init_steps l k
  end.

(** [junk] is what the caller finds in the result register after the [return]
    without a value. *)
Definition bluetooth_initialize (junk : Z) : MB Z :=
  st ← req esp_bt_controller_mem_release;
  if negb (st =? 0) then fail EspAbort else
  init_steps [esp_bt_controller_init; esp_bt_controller_enable; esp_bluedroid_init; esp_bluedroid_enable;
              esp_ble_gap_register_callback; esp_ble_gattc_register_callback]
    (ret ← req (esp_ble_gattc_app_register 0);
     if negb (ret =? 0) then mret junk else
     req (esp_ble_gatt_set_local_mtu 200) ;;
     mret ret).
End Client.
