(* ===== verification/BluetoothProofs.v ===== *)
(** * The sensor conversions

    What the client reports for what the sensors send: the formulas of the data
    sheets in doubles, and where the code departs from them. *)

From Stdlib Require Import QArith Qabs Qpower Lqa.
From S2P Require Import Prelude CString Double Bluetooth.

#[local] Open Scope Z_scope.

(** ** Words *)

Lemma land_shift lo hi n : 0 ≤ n → 0 ≤ lo < 2 ^ n → Z.land lo (Z.shiftl hi n) = 0.
Proof.
  intros Hn Hlo. apply Z.bits_inj'. intros i Hi. rewrite Z.land_spec, Z.shiftl_spec, Z.bits_0 by done.
  destruct (decide (i < n)); [by rewrite (Z.testbit_neg_r hi), andb_false_r by lia|].
  rewrite <- (Z.mod_small lo (2 ^ n)) by done. by rewrite Z.mod_pow2_bits_high by lia.
Qed.

Lemma lor_shift lo hi n : 0 ≤ n → 0 ≤ lo < 2 ^ n → Z.lor lo (Z.shiftl hi n) = hi * 2 ^ n + lo.
Proof.
  intros Hn Hlo. pose proof (land_shift lo hi n Hn Hlo) as E.
  rewrite <- Z.lxor_lor, <- Z.add_nocarry_lxor, Z.shiftl_mul_pow2 by done. lia.
Qed.

Lemma be16_spec hi lo : is_byte lo → be16 hi lo = 256 * hi + lo.
Proof. unfold is_byte. intros. unfold be16. rewrite lor_shift by (cbn; lia). lia. Qed.

Lemma be16_range hi lo : is_byte hi → is_byte lo → 0 ≤ be16 hi lo < 65536.
Proof. unfold is_byte. intros. rewrite be16_spec by done. lia. Qed.

Lemma be24_spec b2 b1 b0 : is_byte b2 → is_byte b1 → is_byte b0 → be24 b2 b1 b0 = 65536 * b2 + 256 * b1 + b0.
Proof.
  unfold is_byte. intros. unfold be24. rewrite (lor_shift b0 b1 8), lor_shift by (cbn; lia). lia.
Qed.

Lemma s16_range z : -32768 ≤ s16 z ≤ 32767.
Proof. unfold s16. pose proof (Z.mod_pos_bound (z + 32768) 65536 ltac:(lia)). lia. Qed.

(** ** HTU21D *)

(** No word is converted to a whole number of degrees. *)
Lemma htu21d_not_whole T : -32768 ≤ T ≤ 32767 → (17572 * T - 307036160) mod 6553600 ≠ 0.
Proof.
  intros HT E. apply Z.mod_divide in E as [n E]; [|done].
  assert (Hd : (16384 | 4393 * T)) by (exists (100 * n + 4685); lia).
  apply Z.gauss in Hd as [k ->]; [|done]. assert (-2 ≤ k ≤ 1) by lia.
  assert (4393 * k = 100 * n + 4685) by lia.
  assert (k = -2 ∨ k = -1 ∨ k = 0 ∨ k = 1) as [->|[->|[->| ->]]] by lia; lia.
Qed.

(** The formula in doubles stays close to the exact one. *)
Lemma htu21d_close T :
  -32768 ≤ T ≤ 32767 →
  (Qabs (dadd (literal (-4685 # 100)) (ddiv (dmul (literal (17572 # 100)) (of_int T)) (of_int 65536))
         - (17572 * T - 307036160 # 6553600)) < 1 # 6553600)%Q.
Proof.
  intros HT. assert (HTq : (-32768 # 1 <= inject_Z T <= 32767 # 1)%Q).
  { unfold Qle, inject_Z. cbn. lia. }
  assert (Ex : (17572 * T - 307036160 # 6553600 == (17572 # 6553600) * inject_Z T - (4685 # 100))%Q).
  { unfold Qeq, Qminus, Qplus, Qmult, Qopp, inject_Z. cbn [Qnum Qden]. lia. }
  rewrite Ex. clear Ex. unfold dadd, ddiv, dmul, literal.
  rewrite (of_int_exact 65536), (of_int_exact T) by lia.
  assert (Ha : (rnd (17572 # 100) == 6182597863449559 # 35184372088832)%Q) by (by vm_compute).
  assert (Hb : (rnd (-4685 # 100) == -6593551329447117 # 140737488355328)%Q) by (by vm_compute).
  rewrite Ha, Hb.
  remember ((6182597863449559 # 35184372088832) * inject_Z T)%Q as x1 eqn:E1.
  assert (B1 : (x1 == (6182597863449559 # 35184372088832) * inject_Z T)%Q) by (by rewrite E1).
  pose proof (rnd_close x1 (6000000 # 1) ltac:(lra)) as H1.
  remember (rnd x1 / inject_Z 65536)%Q as x2 eqn:E2.
  assert (B2 : (x2 == rnd x1 * (1 # 65536))%Q) by (rewrite E2; field).
  pose proof (rnd_close x2 (100 # 1) ltac:(lra)) as H2.
  remember ((-6593551329447117 # 140737488355328) + rnd x2)%Q as x3 eqn:E3.
  assert (B3 : (x3 == (-6593551329447117 # 140737488355328) + rnd x2)%Q) by (by rewrite E3).
  pose proof (rnd_close x3 (200 # 1) ltac:(lra)) as H3.
  apply Qabs_Qlt_condition. split; lra.
Qed.

(** The formula of the data sheet for a word: [-46.85 + 175.72 * w / 2^16] and
    [-6 + 125 * w / 2^16], truncated. *)
Definition htu21d_celsius (w : Z) : Z := Z.quot (17572 * w - 307036160) 6553600.
Definition htu21d_percent (w : Z) : Z := Z.quot (125 * w) 65536 - 6.

Lemma htu21d_temperature_trunc T :
  -32768 ≤ T ≤ 32767 →
  htu21d_temperature T = Ok (htu21d_celsius T).
Proof.
  intros HT. pose proof (trunc_near _ _ _ (htu21d_not_whole T HT) (htu21d_close T HT)) as E.
  change (trunc (17572 * T - 307036160 # 6553600)) with (htu21d_celsius T) in E.
  unfold htu21d_temperature, to_int16. rewrite to_int_ok; [by rewrite E|]. rewrite E. unfold htu21d_celsius. split.
  - change (-32768) with (Z.quot (-32768 * 6553600) 6553600). apply Z.quot_le_mono; lia.
  - change 32767 with (Z.quot (32767 * 6553600) 6553600). apply Z.quot_le_mono; lia.
Qed.

Lemma percent_range w : -32768 ≤ w ≤ 32767 → -69 ≤ htu21d_percent w ≤ 57.
Proof.
  intros Hw. unfold htu21d_percent.
  pose proof (Z.quot_le_mono (125 * -32768) (125 * w) 65536 ltac:(lia) ltac:(lia)).
  pose proof (Z.quot_le_mono (125 * w) (125 * 32767) 65536 ltac:(lia) ltac:(lia)).
  change (Z.quot (125 * -32768) 65536) with (-62) in *. change (Z.quot (125 * 32767) 65536) with 62 in *. lia.
Qed.

Lemma s16_small z : -32768 ≤ z ≤ 32767 → s16 z = z.
Proof. intros. unfold s16. rewrite Z.mod_small; lia. Qed.

(** The HTU21D values: the double arithmetic of the notification handler
    gives exactly the truncated formula of the data sheet for the words the
    sensor sent, taken as signed 16-bit numbers.  For words below 32768 that is
    what the data sheet says; the words above, temperatures of more than 41 and
    humidities of more than 56 percent, come out about 176 degrees and 125
    percent too low. *)
Theorem htu21d_conversion (t0 t1 crc h0 h1 : Z) (rest : list Z) :
  is_byte t0 → is_byte t1 → is_byte h0 → is_byte h1 →
  let wt := 256 * t0 + t1 in
  let wh := 256 * h0 + h1 in
  htu21d_convert (t0 :: t1 :: crc :: h0 :: h1 :: rest) =
  Ok (htu21d_celsius (if wt <? 32768 then wt else wt - 65536),
      htu21d_percent (if wh <? 32768 then wh else wh - 65536)).
Proof.
  intros Ht0 Ht1 Hh0 Hh1 wt wh. unfold htu21d_convert.
  set (v := t0 :: t1 :: crc :: h0 :: h1 :: rest).
  assert (load v 1 = Ok t1) as -> by done. assert (load v 0 = Ok t0) as -> by done.
  assert (load v 4 = Ok h1) as -> by done. assert (load v 3 = Ok h0) as -> by done.
  rewrite !bind_ok, !be16_spec by done. fold wt wh.
  assert (Es : ∀ w, 0 ≤ w < 65536 → s16 w = if w <? 32768 then w else w - 65536).
  { intros w Hw. unfold s16. destruct (Z.ltb_spec w 32768).
    - rewrite Z.mod_small; lia.
    - replace (w + 32768) with (w - 32768 + 1 * 65536) by lia. rewrite Z.mod_add, Z.mod_small; lia. }
  unfold is_byte in *. rewrite <- !Es by lia.
  rewrite htu21d_temperature_trunc by apply s16_range. rewrite bind_ok. do 2 f_equal.
  pose proof (percent_range (s16 wh) (s16_range wh)). unfold htu21d_percent in *. rewrite s16_small; lia.
Qed.

Lemma htu21d_conversion_witness :
  htu21d_convert [103; 170; 0; 108; 52] = Ok (24, 46) ∧ htu21d_convert [103; 170; 0; 153; 154] = Ok (24, -55).
Proof.
  split.
  - exact (htu21d_conversion 103 170 0 108 52 [] ltac:(decide_vm) ltac:(decide_vm) ltac:(decide_vm) ltac:(decide_vm)).
  - exact (htu21d_conversion 103 170 0 153 154 [] ltac:(decide_vm) ltac:(decide_vm) ltac:(decide_vm) ltac:(decide_vm)).
Defined.

(** ** MS5637 *)

#[local] Opaque rnd.

(** The formulas of the data sheet, truncated. *)
Definition ms5637_dT (D2 C5 : Z) : Z := D2 - 256 * C5.
Definition ms5637_celsius (dT C6 : Z) : Z := Z.quot (2000 * 8388608 + dT * C6) 838860800.
Definition ms5637_OFF (dT C2 C4 : Z) : Z := Z.quot (8388608 * C2 + C4 * dT) 64.
Definition ms5637_SENS (dT C1 C3 : Z) : Z := Z.quot (8388608 * C1 + C3 * dT) 128.
Definition ms5637_hectopascal (D1 SENS OFF : Z) : Z := Z.quot (D1 * SENS - 2097152 * OFF) 6871947673600.

Definition int_ok (z : Z) : Prop := INT_MIN ≤ z ≤ INT_MAX.
#[export] Instance int_ok_dec z : Decision (int_ok z) := _.

Lemma chk32_cases z : chk32 z = if decide (int_ok z) then Ok z else Fault IntOverflow.
Proof. reflexivity. Qed.

Lemma quot_range p q lo hi : 0 < q → lo * q ≤ p ≤ hi * q → lo ≤ Z.quot p q ≤ hi.
Proof.
  intros Hq Hp. rewrite <- (Z.quot_mul lo q), <- (Z.quot_mul hi q) by lia.
  split; apply Z.quot_le_mono; lia.
Qed.

Lemma ms5637_dT_exact D2 C5 :
  0 ≤ D2 < 16777216 → 0 ≤ C5 < 65536 →
  to_int32 (dsub (of_int D2) (dmul (of_int C5) (pow2 8))) = Ok (ms5637_dT D2 C5).
Proof.
  intros H2 H5. apply to_int_exact; [|unfold ms5637_dT, INT_MIN, INT_MAX; lia].
  rewrite !of_int_exact by lia. unfold dmul, pow2.
  assert (E : (inject_Z C5 * 2 ^ 8 == inject_Z (256 * C5))%Q).
  { rewrite inject_Z_mult. change (2 ^ 8)%Q with (inject_Z 256). ring. }
  rewrite (rnd_proper _ _ E), rnd_int by lia. unfold dsub.
  assert (E' : (inject_Z D2 - inject_Z (256 * C5) == inject_Z (ms5637_dT D2 C5))%Q).
  { unfold ms5637_dT, Z.sub. rewrite inject_Z_plus, inject_Z_opp. reflexivity. }
  rewrite (rnd_proper _ _ E'). apply rnd_int. unfold ms5637_dT. lia.
Qed.

(** [c * 2^a + p / 2^b] with integers of moderate size is computed exactly. *)
Lemma scaled_sum c p a b :
  0 ≤ a → 0 ≤ b → a + b = 23 → 0 ≤ c < 65536 → int_ok p →
  (dadd (dmul (of_int c) (pow2 a)) (ddiv (of_int p) (pow2 b)) == inject_Z (8388608 * c + p) * 2 ^ (- b))%Q.
Proof.
  unfold int_ok, INT_MIN, INT_MAX. intros Ha Hb Hab Hc Hp. rewrite !of_int_exact by lia.
  unfold dadd, dmul, ddiv, pow2.
  assert (E1 : (rnd (inject_Z c * 2 ^ a) == inject_Z c * 2 ^ a)%Q)
    by (apply (rnd_grid _ c a); [reflexivity|lia]).
  assert (E2 : (rnd (inject_Z p / 2 ^ b) == inject_Z p * 2 ^ (- b))%Q)
    by (apply rnd_grid; [by rewrite Qpower_opp|lia]).
  rewrite E1, E2.
  assert (E : (inject_Z c * 2 ^ a + inject_Z p * 2 ^ (- b) == inject_Z (8388608 * c + p) * 2 ^ (- b))%Q).
  { rewrite inject_Z_plus, inject_Z_mult. change (inject_Z 8388608) with (2 ^ 23)%Q.
    replace a with (23 + - b)%Z by lia. rewrite pow2_add. ring. }
  rewrite (rnd_proper _ _ E). apply (rnd_grid _ _ (- b)); [reflexivity|lia].
Qed.

Lemma scaled_fraction m k : (inject_Z m * 2 ^ (- Z.pos k) == m # (2 ^ k))%Q.
Proof.
  rewrite Qpower_opp. rewrite pow2_Z by lia. unfold Qeq, Qmult, Qinv, inject_Z. cbn [Qnum Qden].
  rewrite <- (Pos2Z.inj_pow 2 k). cbn [Qnum Qden]. lia.
Qed.

Lemma ms5637_celsius_exact p :
  int_ok p →
  to_int32 (ddiv (dadd (of_int 2000) (ddiv (of_int p) (pow2 23))) (of_int 100))
  = Ok (Z.quot (2000 * 8388608 + p) 838860800).
Proof.
  intros Hp. assert (E0 : (of_int 2000 == dmul (of_int 2000) (pow2 0))%Q) by (by vm_compute).
  pose proof (scaled_sum 2000 p 0 23 ltac:(lia) ltac:(lia) eq_refl ltac:(lia) Hp) as E1. rewrite <- E0 in E1.
  rewrite E1, (of_int_exact 100) by done. unfold ddiv.
  unfold int_ok, INT_MIN, INT_MAX in Hp.
  assert (E : (inject_Z (8388608 * 2000 + p) * 2 ^ (- (23)) / inject_Z 100 == 2000 * 8388608 + p # 838860800)%Q).
  { rewrite (scaled_fraction _ 23). unfold Qeq, Qdiv, Qmult, Qinv, inject_Z. cbn [Qnum Qden]. lia. }
  rewrite (rnd_proper _ _ E). unfold to_int32.
  assert (Et : trunc (rnd (2000 * 8388608 + p # 838860800)) = Z.quot (2000 * 8388608 + p) 838860800)
    by (apply trunc_rnd; lia).
  rewrite to_int_ok; rewrite Et; [done|]. unfold INT_MIN, INT_MAX. apply quot_range; lia.
Qed.

Lemma ms5637_scaled_exact c p a k :
  0 ≤ a → a + Z.pos k = 23 → 0 ≤ c < 65536 → int_ok p →
  to_int64 (dadd (dmul (of_int c) (pow2 a)) (ddiv (of_int p) (pow2 (Z.pos k))))
  = Ok (Z.quot (8388608 * c + p) (2 ^ Z.pos k)).
Proof.
  intros Ha Hk Hc Hp. pose proof (scaled_sum c p a (Z.pos k) Ha ltac:(lia) Hk Hc Hp) as E.
  rewrite (scaled_fraction _ k) in E. unfold to_int64.
  unfold int_ok, INT_MIN, INT_MAX in Hp. change (2 ^ Z.pos k) with (Z.pow_pos 2 k).
  rewrite <- (Pos2Z.inj_pow_pos 2 k) in *. apply (to_int_quot _ _ _ _ _ E). apply quot_range; nia.
Qed.

(** The pressure is within one of the exact formula. *)
Lemma ms5637_pressure_close N OFF :
  Z.abs N ≤ 2 ^ 58 → Z.abs OFF ≤ 2 ^ 34 →
  ∃ P, to_int32 (ddiv (ddiv (dsub (ddiv (of_int N) (pow2 21)) (of_int OFF)) (pow2 15)) (of_int 100)) = Ok P ∧
    Z.abs (P - Z.quot (N - 2097152 * OFF) 6871947673600) ≤ 1.
Proof.
  intros HN HO.
  assert (Ey : ddiv (ddiv (dsub (ddiv (of_int N) (pow2 21)) (of_int OFF)) (pow2 15)) (of_int 100) =
    rnd (rnd (rnd (rnd (rnd (inject_Z N) / inject_Z 2097152) - inject_Z OFF) / inject_Z 32768) / inject_Z 100)).
  { rewrite (of_int_exact OFF), (of_int_exact 100) by lia. reflexivity. }
  rewrite Ey. clear Ey.
  assert (BN : (- (288230376151711744 # 1) <= inject_Z N <= 288230376151711744 # 1)%Q)
    by (unfold Qle, inject_Z; cbn; lia).
  assert (BO : (- (17179869184 # 1) <= inject_Z OFF <= 17179869184 # 1)%Q)
    by (unfold Qle, inject_Z; cbn; lia).
  pose proof (rnd_close (inject_Z N) (288230376151711744 # 1) ltac:(lra)) as H1.
  remember (rnd (inject_Z N) / inject_Z 2097152)%Q as x2 eqn:E2.
  assert (B2 : (x2 == rnd (inject_Z N) * (1 # 2097152))%Q) by (rewrite E2; field).
  pose proof (rnd_close x2 (140000000000 # 1) ltac:(lra)) as H2.
  remember (rnd x2 - inject_Z OFF)%Q as x3 eqn:E3.
  assert (B3 : (x3 == rnd x2 - inject_Z OFF)%Q) by (by rewrite E3).
  pose proof (rnd_close x3 (160000000000 # 1) ltac:(lra)) as H3.
  remember (rnd x3 / inject_Z 32768)%Q as x4 eqn:E4.
  assert (B4 : (x4 == rnd x3 * (1 # 32768))%Q) by (rewrite E4; field).
  pose proof (rnd_close x4 (5000000 # 1) ltac:(lra)) as H4.
  remember (rnd x4 / inject_Z 100)%Q as x5 eqn:E5.
  assert (B5 : (x5 == rnd x4 * (1 # 100))%Q) by (rewrite E5; field).
  pose proof (rnd_close x5 (50000 # 1) ltac:(lra)) as H5.
  assert (Ex : (N - 2097152 * OFF # 6871947673600 ==
                (1 # 6871947673600) * inject_Z N - (1 # 3276800) * inject_Z OFF)%Q).
  { unfold Qeq, Qminus, Qplus, Qmult, Qopp, inject_Z. cbn [Qnum Qden]. lia. }
  assert (Hw : Z.abs (trunc (rnd x5) - Z.quot (N - 2097152 * OFF) 6871947673600) ≤ 1).
  { apply (trunc_within (N - 2097152 * OFF # 6871947673600)). apply Qabs_Qlt_condition. rewrite Ex. split; lra. }
  exists (trunc (rnd x5)). split; [|done]. apply to_int_ok.
  pose proof (quot_range (N - 2097152 * OFF) 6871947673600 (-60000) 60000 ltac:(lia) ltac:(lia)).
  unfold INT_MIN, INT_MAX. lia.
Qed.

(** The [i]-th big-endian word of a value, from 1. *)
Definition word (v : list Z) (i : nat) : Z :=
  256 * default 0 (v !! (2 * i - 2)%nat) + default 0 (v !! (2 * i - 1)%nat).

Lemma load_default v (k : nat) : (k < length v)%nat → load v (Z.of_nat k) = Ok (default 0 (v !! k)).
Proof.
  intros Hk. destruct (lookup_lt_is_Some_2 v k Hk) as [x E]. rewrite E. apply load_lookup; [lia|].
  by rewrite Nat2Z.id.
Qed.

Lemma default_byte v k : Forall is_byte v → is_byte (default 0 (v !! k)).
Proof.
  intros Hv. destruct (v !! k) as [x|] eqn:E; cbn; [|done]. by apply (Forall_lookup_1 _ _ _ _ Hv E).
Qed.

Lemma word_spec v i :
  Forall is_byte v →
  be16 (default 0 (v !! (2 * i - 2)%nat)) (default 0 (v !! (2 * i - 1)%nat)) = word v i ∧ 0 ≤ word v i < 65536.
Proof.
  intros Hv. pose proof (default_byte v (2 * i - 2) Hv). pose proof (default_byte v (2 * i - 1) Hv).
  rewrite be16_spec by done. unfold word, is_byte in *. split; [done|]. lia.
Qed.

(** The conversion on the words of the value. *)
Lemma ms5637_words D1 D2 v :
  Forall is_byte v → (12 ≤ length v)%nat →
  let C := word v in
  ms5637_convert D1 D2 v =
  (dT ← to_int32 (dsub (of_int D2) (dmul (of_int (C 5%nat)) (pow2 8)));
   p ← chk32 (dT * C 6%nat);
   temp ← to_int32 (ddiv (dadd (of_int 2000) (ddiv (of_int p) (pow2 23))) (of_int 100));
   p ← chk32 (C 4%nat * dT);
   OFF ← to_int64 (dadd (dmul (of_int (C 2%nat)) (pow2 17)) (ddiv (of_int p) (pow2 6)));
   p ← chk32 (C 3%nat * dT);
   SENS ← to_int64 (dadd (dmul (of_int (C 1%nat)) (pow2 16)) (ddiv (of_int p) (pow2 7)));
   p ← chk64 (D1 * SENS);
   pres ← to_int32 (ddiv (ddiv (dsub (ddiv (of_int p) (pow2 21)) (of_int OFF)) (pow2 15)) (of_int 100));
   Ok (temp, pres)).
Proof.
  intros Hv Hl C. unfold ms5637_convert.
  set (byte k := default 0 (v !! k)).
  assert (L : ∀ k : nat, (k < 12)%nat → load v (Z.of_nat k) = Ok (byte k))
    by (intros k ?; apply load_default; lia).
  assert (E' : ∀ i, be16 (byte (2 * i - 2)%nat) (byte (2 * i - 1)%nat) = C i) by (intros i; apply word_spec, Hv).
  rewrite (L 8%nat ltac:(lia) : load v 8 = _), (L 9%nat ltac:(lia) : load v 9 = _), !bind_ok,
    (E' 5%nat : be16 (byte 8%nat) (byte 9%nat) = _).
  destruct (to_int32 _) as [dT|f]; [|done]. rewrite !bind_ok.
  rewrite (L 10%nat ltac:(lia) : load v 10 = _), (L 11%nat ltac:(lia) : load v 11 = _), !bind_ok,
    (E' 6%nat : be16 (byte 10%nat) (byte 11%nat) = _).
  destruct (chk32 _) as [p|f]; [|done]. rewrite !bind_ok.
  destruct (to_int32 _) as [temp|f]; [|done]. rewrite !bind_ok.
  rewrite (L 2%nat ltac:(lia) : load v 2 = _), (L 3%nat ltac:(lia) : load v 3 = _),
    (L 6%nat ltac:(lia) : load v 6 = _), (L 7%nat ltac:(lia) : load v 7 = _), !bind_ok,
    (E' 2%nat : be16 (byte 2%nat) (byte 3%nat) = _), (E' 4%nat : be16 (byte 6%nat) (byte 7%nat) = _).
  destruct (chk32 _) as [q|f]; [|done]. rewrite !bind_ok.
  destruct (to_int64 _) as [OFF|f]; [|done]. rewrite !bind_ok.
  rewrite (L 0%nat ltac:(lia) : load v 0 = _), (L 1%nat ltac:(lia) : load v 1 = _),
    (L 4%nat ltac:(lia) : load v 4 = _), (L 5%nat ltac:(lia) : load v 5 = _), !bind_ok,
    (E' 1%nat : be16 (byte 0%nat) (byte 1%nat) = _), (E' 3%nat : be16 (byte 4%nat) (byte 5%nat) = _).
  done.
Qed.

(** The MS5637 values: with raw values of 24 bits and calibration words [C1]
    to [C6], the double arithmetic of the read handler gives exactly the
    truncated temperature of the data sheet and a pressure within one
    hectopascal of it, as long as the three products of [dT] with a calibration
    word fit an [int]; otherwise the signed multiplication overflows. *)
Theorem ms5637_conversion (D1 D2 : Z) (v : list Z) :
  0 ≤ D1 < 16777216 → 0 ≤ D2 < 16777216 → Forall is_byte v → (12 ≤ length v)%nat →
  let C := word v in
  let dT := ms5637_dT D2 (C 5%nat) in
  let OFF := ms5637_OFF dT (C 2%nat) (C 4%nat) in
  let SENS := ms5637_SENS dT (C 1%nat) (C 3%nat) in
  if decide (int_ok (dT * C 6%nat) ∧ int_ok (C 4%nat * dT) ∧ int_ok (C 3%nat * dT)) then
    ∃ P, ms5637_convert D1 D2 v = Ok (ms5637_celsius dT (C 6%nat), P) ∧
      Z.abs (P - ms5637_hectopascal D1 SENS OFF) ≤ 1
  else ms5637_convert D1 D2 v = Fault IntOverflow.
Proof.
  intros HD1 HD2 Hv Hl C dT OFF SENS. rewrite ms5637_words by done. fold C.
  pose proof (λ i, proj2 (word_spec v i Hv)) as B. fold C in B.
  rewrite ms5637_dT_exact by (done || apply B). rewrite bind_ok. fold dT. rewrite !chk32_cases.
  destruct (decide (int_ok (dT * C 6%nat))) as [H6|H6]; [|by rewrite decide_False by tauto].
  rewrite bind_ok, ms5637_celsius_exact, bind_ok by done.
  destruct (decide (int_ok (C 4%nat * dT))) as [H4|H4]; [|by rewrite decide_False by tauto].
  rewrite bind_ok, (ms5637_scaled_exact _ _ 17 6), bind_ok by (done || apply B).
  destruct (decide (int_ok (C 3%nat * dT))) as [H3|H3]; [|by rewrite decide_False by tauto].
  rewrite bind_ok, (ms5637_scaled_exact _ _ 16 7), bind_ok by (done || apply B).
  rewrite decide_True by done.
  change (Z.quot (8388608 * C 2%nat + C 4%nat * dT) (2 ^ 6)) with OFF.
  change (Z.quot (8388608 * C 1%nat + C 3%nat * dT) (2 ^ 7)) with SENS.
  unfold int_ok, INT_MIN, INT_MAX in *. pose proof (B 1%nat). pose proof (B 2%nat).
  assert (HO : - 2 ^ 34 ≤ OFF ≤ 2 ^ 34) by (apply quot_range; lia).
  assert (HS : - 2 ^ 33 ≤ SENS ≤ 2 ^ 33) by (apply quot_range; lia).
  assert (HN : Z.abs (D1 * SENS) ≤ 2 ^ 58) by nia.
  assert (chk64 (D1 * SENS) = Ok (D1 * SENS)) as -> by (unfold chk64; by rewrite decide_True by lia).
  rewrite bind_ok. destruct (ms5637_pressure_close (D1 * SENS) OFF HN ltac:(lia)) as (P & -> & HP).
  exists P. by rewrite bind_ok.
Qed.

(** The example of the data sheet: 20.00 degrees and 1100.02 millibar. *)
Definition datasheet_calibration : list Z := [181; 36; 171; 205; 113; 131; 108; 194; 123; 65; 110; 5].

Lemma ms5637_conversion_witness :
  ∃ P, ms5637_convert 6465444 8077636 datasheet_calibration = Ok (20, P) ∧ Z.abs (P - 1100) ≤ 1.
Proof.
  pose proof (ms5637_conversion 6465444 8077636 datasheet_calibration ltac:(lia) ltac:(lia)
    ltac:(decide_vm) ltac:(cbn; lia)) as H.
  cbv zeta in H. rewrite decide_True in H by decide_vm. exact H.
Defined.
