(* ===== verification/BluetoothEvents.v ===== *)
(** * The event machine of the sensor client

    The events of the Bluetooth stack drive the client; these are the properties
    of single events and of sequences of them: scanning, discovery of services
    and characteristics, and the counting of notifications. *)

From stdpp Require Import functions.
From S2P Require Import Prelude CString Double Bluetooth BluetoothProofs.

(** Conversions to integers are compared, not evaluated. *)
#[local] Strategy 1000 [to_int].

(** ** Advertising data *)

(** An element of advertising data: length, type and data. *)
Definition ad_element (e : Z * list Z) : list Z := (zlen e.2 + 1) :: e.1 :: e.2.
Definition ad_bytes (l : list (Z * list Z)) : list Z := concat (map ad_element l).

Lemma ad_bytes_cons e l : ad_bytes (e :: l) = (zlen e.2 + 1) :: e.1 :: e.2 ++ ad_bytes l.
Proof. done. Qed.

(** The loop skips the elements of other types.  [before] has been read, and the
    length of the element [e] that follows it. *)
Lemma check_adv_skip fuel before e l rest type :
  e.1 ≠ type → zlen before + 1 ≤ BTM_BLE_CACHE_ADV_DATA_MAX → is_Some (head (ad_bytes l ++ rest)) →
  check_adv_loop (S fuel) (before ++ ad_bytes (e :: l) ++ rest) type (zlen before + 1) (zlen e.2 + 1) =
  check_adv_loop fuel ((before ++ ad_element e) ++ ad_bytes l ++ rest) type
    (zlen (before ++ ad_element e) + 1) (default 0 (head (ad_bytes l ++ rest))).
Proof.
  intros Ht Hp [n Hn]. rewrite ad_bytes_cons. cbn [check_adv_loop].
  rewrite (proj2 (Z.eqb_neq (zlen e.2 + 1) 0)), (proj2 (Z.leb_le _ _)) by lia. cbn [negb andb].
  assert (load (before ++ ((zlen e.2 + 1) :: e.1 :: e.2 ++ ad_bytes l) ++ rest) (zlen before + 1) = Ok e.1) as ->.
  { replace (zlen before + 1) with (zlen (before ++ [zlen e.2 + 1])) by (rewrite length_app; cbn; lia).
    replace (before ++ ((zlen e.2 + 1) :: e.1 :: e.2 ++ ad_bytes l) ++ rest) with
      ((before ++ [zlen e.2 + 1]) ++ e.1 :: (e.2 ++ ad_bytes l) ++ rest) by (by rewrite <- app_assoc).
    apply load_app. }
  rewrite bind_ok, (proj2 (Z.eqb_neq _ _)) by done.
  assert (El : before ++ ((zlen e.2 + 1) :: e.1 :: e.2 ++ ad_bytes l) ++ rest =
               (before ++ ad_element e) ++ ad_bytes l ++ rest).
  { unfold ad_element. rewrite <- !app_assoc. cbn. by rewrite <- !app_assoc. }
  rewrite El. destruct (ad_bytes l ++ rest) as [|n' t] eqn:E; [done|]. injection Hn as ->.
  replace (zlen before + 1 + 1 + (zlen e.2 + 1 - 1)) with (zlen (before ++ ad_element e))
    by (unfold ad_element; rewrite length_app; cbn [length]; lia).
  by rewrite load_app, bind_ok.
Qed.

(** In advertising data that is a sequence of elements, [BTM_CheckAdvData] returns
    the data of the first element of the type asked for, if it starts within the
    62 bytes it looks at. *)
Lemma BTM_CheckAdvData_finds (pre : list (Z * list Z)) (type : Z) (d rest : list Z) :
  Forall (λ e, e.1 ≠ type) pre → zlen (ad_bytes pre) + 1 ≤ BTM_BLE_CACHE_ADV_DATA_MAX →
  BTM_CheckAdvData (ad_bytes (pre ++ [(type, d)]) ++ rest) type = Ok (Some (zlen (ad_bytes pre) + 2, zlen d)).
Proof.
  intros Hpre Hlen. unfold BTM_CheckAdvData.
  enough (G : ∀ fuel before l, Forall (λ e, e.1 ≠ type) l →
    zlen (before ++ ad_bytes l) + 1 ≤ BTM_BLE_CACHE_ADV_DATA_MAX →
    BTM_BLE_CACHE_ADV_DATA_MAX < zlen before + 1 + 2 * Z.of_nat fuel →
    check_adv_loop fuel (before ++ ad_bytes (l ++ [(type, d)]) ++ rest) type (zlen before + 1)
      (default 0 (head (ad_bytes (l ++ [(type, d)]) ++ rest))) =
    Ok (Some (zlen (before ++ ad_bytes l) + 2, zlen d))).
  { specialize (G 64%nat [] pre Hpre Hlen ltac:(unfold BTM_BLE_CACHE_ADV_DATA_MAX; cbn [length]; lia)). cbn [app length] in G.
    change (Z.of_nat 0 + 1) with 1 in G. rewrite <- G.
    destruct pre as [|e pre]; cbn [app]; rewrite ad_bytes_cons; cbn [app]; by rewrite load_head, bind_ok. }
  clear pre Hpre Hlen. induction fuel as [|fuel IH]; intros before l Hl H62 Hf.
  { rewrite length_app in H62. lia. }
  destruct l as [|e l].
  - change (ad_bytes []) with (@nil Z) in *. cbn [app]. rewrite !app_nil_r in *. unfold ad_bytes. cbn [map concat]. rewrite app_nil_r.
    change (ad_element (type, d)) with ((zlen d + 1) :: type :: d). cbn [app head default check_adv_loop id].
    rewrite (proj2 (Z.eqb_neq _ _)), (proj2 (Z.leb_le _ _)) by lia. cbn [negb andb].
    replace (zlen before + 1) with (zlen (before ++ [zlen d + 1])) by (rewrite length_app; cbn; lia).
    change (before ++ (zlen d + 1) :: type :: d ++ rest) with (before ++ [zlen d + 1] ++ type :: d ++ rest).
    rewrite app_assoc, load_app, bind_ok, Z.eqb_refl. rewrite length_app. cbn [length]. do 3 f_equal; lia.
  - apply Forall_cons in Hl as [He Hl]. rewrite ad_bytes_cons, length_app in H62. cbn [length] in H62.
    rewrite length_app in H62.
    change ((e :: l) ++ [(type, d)]) with (e :: (l ++ [(type, d)])).
    change (default 0 (head (ad_bytes (e :: l ++ [(type, d)]) ++ rest))) with (zlen e.2 + 1).
    rewrite check_adv_skip; [|done|lia|by destruct l; eexists].
    rewrite IH; [|done| |].
    + unfold ad_bytes. cbn [map concat]. by rewrite <- app_assoc.
    + rewrite !length_app. unfold ad_element. cbn [length]. lia.
    + rewrite length_app. unfold ad_element. cbn [length]. lia.
Qed.

(** The search ends on any data. *)
Lemma check_adv_fuel fuel adv type p length :
  BTM_BLE_CACHE_ADV_DATA_MAX < p + 2 * Z.of_nat fuel → Forall is_byte adv → is_byte length →
  check_adv_loop fuel adv type p length ≠ Fault OutOfFuel.
Proof.
  revert p length. induction fuel as [|fuel IH]; intros p length Hp Ha Hl; cbn [check_adv_loop].
  { destruct (Z.eqb_spec length 0); [done|]. by rewrite (proj2 (Z.leb_gt _ _)) by lia. }
  destruct (Z.eqb_spec length 0); [done|]. destruct (p <=? _) eqn:E; [|done]. cbn [negb andb].
  apply bind_fault; [apply load_fault|]. intros ty _. destruct (ty =? type); [done|].
  apply bind_fault; [apply load_fault|]. intros l' [_ E2]%load_Ok. unfold is_byte in *. apply IH; [lia|done|].
  exact (Forall_lookup_1 _ _ _ _ Ha E2).
Qed.

Lemma check_adv_total adv type : Forall is_byte adv → BTM_CheckAdvData adv type ≠ Fault OutOfFuel.
Proof.
  intros Ha. unfold BTM_CheckAdvData. apply bind_fault; [apply load_fault|]. intros l [_ E]%load_Ok.
  apply check_adv_fuel; [unfold BTM_BLE_CACHE_ADV_DATA_MAX; lia|done|]. exact (Forall_lookup_1 _ _ _ _ Ha E).
Qed.

(** ** Sequences of events *)

Inductive bt_event := Gap (e : gap_event) | Gattc (e : gattc_event) (gif : Z).

(** The requests sent so far, in order. *)
Class TracedStack (B : Type) `{!Bluedroid B} := {
  trace : B → list bt_request;
  request_trace r w : trace (request r w).2 = trace w ++ [r] }.

Section Machine.
Context {B : Type} `{!Bluedroid B}.
Abbreviation MB := (M (Bt * B)).

Definition bt_step (e : bt_event) : MB () :=
  match e with Gap e => esp_gap_cb e | Gattc e gif => esp_gattc_cb e gif end.

Fixpoint run_events (l : list bt_event) : MB () :=
  match l with [] => mret () | e :: l => bt_step e ;; run_events l end.

(** [P] holds after [m] if it held before. *)
Definition keeps (P : Bt * B → Prop) {A} (m : MB A) : Prop := ∀ s, P s → wp m (λ _, P) s.

Lemma keeps_ret P {A} (a : A) : keeps P (mret a).
Proof. intros s Hs. by apply wp_ret. Qed.
Lemma keeps_bind P {A C} (m : MB A) (k : A → MB C) : keeps P m → (∀ a, keeps P (k a)) → keeps P (m ≫= k).
Proof. intros Hm Hk s Hs. apply wp_bind. eapply wp_mono; [by apply Hm|]. intros a s' Hs'. by apply Hk. Qed.
Lemma keeps_gets P {A} (g : Bt * B → A) : keeps P (gets g).
Proof. intros s Hs. by apply wp_gets. Qed.
Lemma keeps_lift P {A} (o : outcome A) : o ≠ Fault OutOfFuel → keeps P (lift o).
Proof. intros Ho s Hs. apply wp_lift. by destruct o; [|intros ->]. Qed.
Lemma keeps_req P r : (∀ t w, P (t, w) → P (t, (request r w).2)) → keeps P (req r).
Proof.
  intros Hr [t w] Hs. unfold req, wp. specialize (Hr t w Hs). by destruct (request r w) as [st w'].
Qed.
Lemma keeps_upd (P : Bt * B → Prop) g : (∀ t w, P (t, w) → P (g t, w)) → keeps P (upd g).
Proof. intros Hg [t w] Hs. by apply wp_modify, Hg. Qed.

Lemma keeps_events (P : Bt * B → Prop) l : Forall (λ e, keeps P (bt_step e)) l → keeps P (run_events l).
Proof. induction 1; cbn [run_events]; [apply keeps_ret|by apply keeps_bind]. Qed.
End Machine.

(** ** Outcomes that do not depend on fuel *)

Lemma to_int_fault lo hi x : to_int lo hi x ≠ Fault OutOfFuel.
Proof. unfold to_int. by case_decide. Qed.
Lemma chk64_fault z : chk64 z ≠ Fault OutOfFuel.
Proof. unfold chk64. by case_decide. Qed.
Lemma first_fault {A} (l : list A) : first l ≠ Fault OutOfFuel.
Proof. by destruct l. Qed.
#[export] Hint Resolve first_fault strncmp_fault : wp.

(** The arithmetic of the conversions; the lemmas are applied without unfolding. *)
#[local] Ltac arith_fault :=
  repeat (apply bind_fault;
    [first [simple apply load_fault | simple apply to_int_fault | simple apply chk32_fault | simple apply chk64_fault]
    |intros ? _]); discriminate.

Lemma htu21d_fault v : htu21d_convert v ≠ Fault OutOfFuel.
Proof.
  unfold htu21d_convert, htu21d_temperature, to_int16. arith_fault.
Qed.
Lemma ms5637_fault D1 D2 v : ms5637_convert D1 D2 v ≠ Fault OutOfFuel.
Proof.
  unfold ms5637_convert, to_int32, to_int64. arith_fault.
Qed.
#[export] Hint Resolve htu21d_fault ms5637_fault check_adv_total : wp.

(** One step of a proof that a handler keeps a predicate. *)
Ltac keep_step :=
  match goal with
  | |- keeps _ (mret _) => apply keeps_ret
  | |- keeps _ (_ ≫= _) => apply keeps_bind; [|intros ?]
  | |- keeps _ (gets _) => apply keeps_gets
  | |- keeps _ (var _) => apply keeps_gets
  | |- keeps _ (query _) => apply keeps_gets
  | |- keeps _ handles => apply keeps_gets
  | |- keeps _ (lift _) => apply keeps_lift; solve [eauto with wp]
  | |- keeps _ (let '_ := ?p in _) => destruct p
  | |- keeps _ (match ?p with _ => _ end) => destruct p
  end.
Ltac keep_steps := repeat (cbv zeta; keep_step).

(** ** Scanning *)

Section Scanning.
Context {B : Type} `{!Bluedroid B, !TracedStack B}.

(** What a scan result with the complete name [name] changes: the variables and
    the requests. *)
Definition scanned (name bda : list Z) (t : Bt) : Bt * list bt_request :=
  if Isconnecting t then (t, [])
  else if conn_device (BA5C_handle_data (profile t)) then
    if stop_scan_done t then (t, []) else (set_scan false true t, [esp_ble_gap_stop_scanning])
  else if bool_decide (name = remote_device_name) then
    (set_scan true (stop_scan_done t) (set_handles (set_conn_device true) t),
     [esp_ble_gap_stop_scanning; esp_ble_gattc_open (gattc_if (profile t)) bda])
  else (t, []).

Lemma name_compared name pre rest :
  let adv := ad_bytes (pre ++ [(ESP_BLE_AD_TYPE_NAME_CMPL, name)]) ++ rest in
  zlen remote_device_name = zlen name →
  ∃ r, strncmp (Z.to_nat (zlen name)) (drop (Z.to_nat (zlen (ad_bytes pre) + 2)) adv) (remote_device_name ++ [0]) = Ok r ∧
    (r =? 0) = bool_decide (name = remote_device_name).
Proof.
  intros adv Hlen. assert (E : drop (Z.to_nat (zlen (ad_bytes pre) + 2)) adv = name ++ rest).
  { unfold adv, ad_bytes. rewrite map_app, concat_app. cbn [map concat]. rewrite app_nil_r.
    unfold ad_element at 2. cbn [fst snd]. rewrite <- app_assoc. cbn [app].
    replace (Z.to_nat (zlen (concat (map ad_element pre)) + 2)) with (length (concat (map ad_element pre)) + 2)%nat by lia.
    rewrite <- drop_drop, drop_app_length. done. }
  destruct (strncmp_equal remote_device_name name rest [0]) as (r & Er & Hr).
  { by repeat constructor. } { lia. }
  exists r. rewrite E, Nat2Z.id. replace (length name) with (length remote_device_name) by lia. split; [exact Er|].
  destruct (Z.eqb_spec r 0) as [->|Hne]; symmetry.
  - apply bool_decide_eq_true, Hr. done.
  - apply bool_decide_eq_false. intros ->. apply Hne, Hr. done.
Qed.

(** The tag is recognised by its name: a scan result whose advertising data
    has a complete name (after elements of other types, within the bytes that
    are searched) makes a client that has no device stop scanning and connect to
    the sender exactly when the name is that of the tag.  A client that is
    connecting ignores it, and one that has its device only stops the scan,
    once. *)
Theorem device_found (pre : list (Z * list Z)) (name rest bda : list Z) (t : Bt) (w : B) :
  Forall (λ e, e.1 ≠ ESP_BLE_AD_TYPE_NAME_CMPL) pre →
  zlen (ad_bytes pre) + 1 ≤ BTM_BLE_CACHE_ADV_DATA_MAX →
  let adv := ad_bytes (pre ++ [(ESP_BLE_AD_TYPE_NAME_CMPL, name)]) ++ rest in
  ∃ w', esp_gap_cb (ESP_GAP_BLE_SCAN_RESULT_INQ_RES bda adv) (t, w) = Ok ((), ((scanned name bda t).1, w')) ∧
    trace w' = trace w ++ (scanned name bda t).2.
Proof.
  intros Hpre Hlen adv. cbn [esp_gap_cb]. unfold esp_ble_resolve_adv_data, scanned.
  unfold mbind at 1, M_bind at 1, lift at 1. unfold adv at 1. rewrite BTM_CheckAdvData_finds by done.
  unfold mbind at 1, M_bind at 1, var at 1, gets at 1. cbn [fst].
  destruct (Isconnecting t) eqn:Ei; [exists w; by rewrite app_nil_r|].
  unfold mbind at 1 2, M_bind at 1 2, handles, var at 1 2, gets at 1 2. cbn [fst].
  destruct (conn_device (BA5C_handle_data (profile t))) eqn:Ec; cbn [andb negb].
  - destruct (stop_scan_done t) eqn:Es; cbn [negb].
    + exists w. rewrite app_nil_r. split; [|done]. destruct (Z.eqb_spec (zlen remote_device_name) (zlen name)) as [El|]; [|done].
      destruct (name_compared name pre rest El) as (r & Er & _). unfold mbind at 1, M_bind at 1, lift. fold adv in Er.
      by rewrite Er, andb_false_r.
    + pose proof (request_trace esp_ble_gap_stop_scanning w) as Et. exists (request esp_ble_gap_stop_scanning w).2.
      split; [|exact Et]. unfold mbind, M_bind, upd, modify, req. by destruct (request _ w).
  - destruct (Z.eqb_spec (zlen remote_device_name) (zlen name)) as [El|Hne].
    2: { exists w. rewrite bool_decide_false by (by intros ->). by rewrite app_nil_r. }
    destruct (name_compared name pre rest El) as (r & Er & Hb). fold adv in Er.
    unfold mbind at 1, M_bind at 1, lift. rewrite Er, Hb. destruct (bool_decide _); cbn [andb fst snd].
    2: { exists w. by rewrite app_nil_r. }
    pose proof (request_trace esp_ble_gap_stop_scanning w) as E1. set (w1 := (request esp_ble_gap_stop_scanning w).2) in *.
    set (o := esp_ble_gattc_open (gattc_if (profile t)) bda). pose proof (request_trace o w1) as E2.
    exists (request o w1).2. split; [|by rewrite E2, E1, <- app_assoc].
    unfold mbind, M_bind, upd, modify, req, var, gets. cbn [fst]. unfold w1.
    destruct (request esp_ble_gap_stop_scanning w) as [st1 w1']. cbn [fst snd].
    change (gattc_if (profile (set_handles (set_conn_device true) t))) with (gattc_if (profile t)). fold o.
    by destruct (request o w1').
Qed.
End Scanning.

(** ** Connection attempts *)

Section Attempts.
Context {B : Type} `{!Bluedroid B, !TracedStack B}.

Definition is_open (r : bt_request) : bool :=
  match r with esp_ble_gattc_open _ _ => true | _ => false end.
Definition opens (l : list bt_request) : Z := zlen (filter (λ r, is_open r = true) l).

Lemma opens_app l r : opens (l ++ [r]) = opens l + if is_open r then 1 else 0.
Proof.
  unfold opens. rewrite filter_app, length_app. destruct (is_open r) eqn:E.
  - rewrite filter_cons_True by done. cbn. lia.
  - rewrite filter_cons_False by (by rewrite E). cbn. lia.
Qed.

(** Connections asked for, and the one that may be asked for next. *)
Definition attempts (s : Bt * B) : Z := opens (trace s.2) + if Isconnecting s.1 then 0 else 1.

(** Events after which the client scans again. *)
Definition restarts (e : bt_event) : bool :=
  match e with
  | Gattc (ESP_GATTC_WRITE_CHAR_EVT _) _ | Gattc (ESP_GATTC_DISCONNECT_EVT _) _ => true
  | _ => false
  end.

Definition event_bytes (e : bt_event) : Prop :=
  match e with
  | Gap (ESP_GAP_BLE_SCAN_RESULT_INQ_RES _ adv) => Forall is_byte adv
  | Gattc (ESP_GATTC_NOTIFY_EVT _ v) _ | Gattc (ESP_GATTC_READ_CHAR_EVT _ _ v) _ => Forall is_byte v
  | _ => True
  end.
#[export] Instance event_bytes_dec e : Decision (event_bytes e).
Proof. destruct e as [[]|[]]; cbn; apply _. Defined.

Abbreviation below k := (λ s : Bt * B, attempts s ≤ k).

Lemma below_req k r : is_open r = false → keeps (below k) (req r).
Proof.
  intros Hr. apply keeps_req. intros t w. unfold attempts. cbn [fst snd].
  rewrite request_trace, opens_app, Hr. lia.
Qed.
Lemma below_upd k g : (∀ t, Isconnecting (g t) = Isconnecting t) → keeps (below k) (upd g).
Proof. intros Hg. apply keeps_upd. intros t w. unfold attempts. cbn [fst snd]. by rewrite Hg. Qed.

Lemma below_start_scan k s : below k s → wp start_scan (λ _, below (k + 1)) s.
Proof.
  intros Hs. unfold start_scan. apply wp_bind. apply wp_modify. destruct s as [t w].
  assert (H' : below (k + 1) (set_scan false false t, w)).
  { unfold attempts in *. cbn [fst snd Isconnecting set_scan] in *. destruct (Isconnecting t); lia. }
  apply wp_bind. eapply wp_mono; [exact (below_req (k + 1) (esp_ble_gap_start_scanning 30) eq_refl _ H')|]. intros a s' Hs'. by apply wp_ret.
Qed.

#[local] Ltac below_steps := repeat (cbv zeta; first [keep_step | apply below_req; done | apply below_upd; done]).

Lemma below_count k gif c l : keeps (below k) (count_notification gif c l).
Proof.
  unfold count_notification. cbv zeta. destruct (_ <=? _); [|apply keeps_ret].
  induction l as [|x l IH]; [apply keeps_ret|]. below_steps. exact IH.
Qed.

Lemma below_find k gif conn s n l : keeps (below k) (find_chars gif conn s n l).
Proof.
  induction l as [|c l IH]; cbn [find_chars]; [apply keeps_ret|]. unfold find_char.
  apply keeps_bind; [|done]. below_steps.
Qed.

Lemma below_handler k gif e :
  restarts (Gattc e gif) = false → keeps (below k) (gattc_profile_BA5C_event_handler e gif).
Proof.
  intros Hr. destruct e; try done; cbn [gattc_profile_BA5C_event_handler];
    unfold search_complete, enable_notify, notified, char_read; below_steps;
    first [apply below_find | apply below_count].
Qed.

Lemma below_mono k k' {A} (m : M (Bt * B) A) s :
  keeps (below k) m → k ≤ k' → below k s → wp m (λ _, below k') s.
Proof. intros Hm Hk Hs. eapply wp_mono; [by apply Hm|]. cbn. intros. lia. Qed.

Lemma below_disconnect k bda gif s :
  below k s → wp (gattc_profile_BA5C_event_handler (ESP_GATTC_DISCONNECT_EVT bda) gif) (λ _, below (k + 1)) s.
Proof.
  intros Hs. cbn [gattc_profile_BA5C_event_handler]. apply wp_bind.
  eapply wp_mono; [exact (below_start_scan k s Hs)|]. intros [] s' Hs'. cbn beta in Hs'.
  eapply (below_mono (k + 1)); [|lia|exact Hs']. below_steps.
Qed.

(** The one event that asks for a connection: it uses the attempt up. *)
Lemma below_scan_result k bda adv :
  Forall is_byte adv → keeps (below k) (esp_gap_cb (ESP_GAP_BLE_SCAN_RESULT_INQ_RES bda adv)).
Proof.
  intros Hadv [t w] Hs. cbn [esp_gap_cb]. unfold esp_ble_resolve_adv_data.
  apply wp_bind, wp_lift. pose proof (check_adv_total adv ESP_BLE_AD_TYPE_NAME_CMPL Hadv).
  destruct (BTM_CheckAdvData _ _) as [name|f]; [|by intros ->].
  apply wp_bind, wp_gets. cbn [fst]. destruct (Isconnecting t) eqn:Ei; [by apply wp_ret|].
  apply wp_bind, wp_gets, wp_bind, wp_gets. cbn [fst].
  destruct (conn_device _ && negb _).
  { apply wp_bind, wp_modify. eapply (below_mono k); [below_steps|lia|].
    unfold attempts in *. cbn [fst snd Isconnecting set_scan] in *. by rewrite Ei in Hs. }
  destruct name as [[off len]|]; [|by apply wp_ret]. destruct (_ =? len); [|by apply wp_ret].
  apply wp_bind, wp_lift. pose proof (strncmp_fault (Z.to_nat len) (drop (Z.to_nat off) adv) (remote_device_name ++ [0])).
  destruct (strncmp _ _ _) as [r|f]; [|by intros ->]. destruct (_ && negb _); [|by apply wp_ret].
  apply wp_bind, wp_modify, wp_bind. unfold req at 1, wp at 1.
  pose proof (request_trace esp_ble_gap_stop_scanning w) as E1.
  destruct (request esp_ble_gap_stop_scanning w) as [st1 w1]. cbn [snd] in E1.
  apply wp_bind, wp_gets, wp_bind. unfold req at 1, wp at 1. cbn [fst].
  pose proof (request_trace (esp_ble_gattc_open (gattc_if (profile (set_handles (set_conn_device true) t))) bda) w1) as E2.
  destruct (request _ w1) as [st2 w2]. cbn [snd] in E2. apply wp_modify.
  unfold attempts in *. cbn [fst snd Isconnecting set_scan] in *.
  rewrite E2, opens_app, E1, opens_app. cbn [is_open]. rewrite Ei in Hs. lia.
Qed.

Lemma step_attempts e s k :
  event_bytes e → below k s → wp (bt_step e) (λ _, below (k + if restarts e then 1 else 0)) s.
Proof.
  intros He Hs. destruct e as [e|e gif]; cbn [bt_step].
  - destruct e; cbn [restarts]; try solve [eapply (below_mono k); [cbn [esp_gap_cb]; below_steps|lia|exact Hs]].
    eapply (below_mono k); [by apply below_scan_result|lia|exact Hs].
  - destruct (restarts (Gattc e gif)) eqn:Er.
    2: { rewrite Z.add_0_r. revert s Hs. change (keeps (below k) (esp_gattc_cb e gif)).
         pose proof (below_handler k gif e Er) as Hq. unfold esp_gattc_cb. cbv zeta.
         destruct e; try done; below_steps; try exact Hq. by intros ? ?. }
    destruct e; try done; unfold esp_gattc_cb; cbv zeta; apply wp_bind, wp_gets; destruct (_ || _);
      first [apply wp_ret; cbn beta in *; lia | exact (below_start_scan k s Hs) | exact (below_disconnect k _ gif s Hs)].
Qed.

(** Connection attempts: over any sequence of events, from any state, the
    client asks for at most one connection while it is not connecting, and one
    more for each event after which it scans again (a disconnection or the end
    of a write); no sequence exhausts the loops of the client.  In particular
    a client that is connecting and whose connection fails never tries again,
    whatever it scans: the failed [ESP_GATTC_OPEN_EVT] is no such event. *)
Theorem connection_attempts (l : list bt_event) (s : Bt * B) :
  Forall event_bytes l →
  match run_events l s with
  | Ok (_, s') => opens (trace s'.2) ≤ opens (trace s.2) + (if Isconnecting s.1 then 0 else 1)
                    + zlen (filter (λ e, restarts e = true) l)
  | Fault f => f ≠ OutOfFuel
  end.
Proof.
  intros Hl. enough (G : ∀ k s, below k s →
    wp (run_events l) (λ _, below (k + zlen (filter (λ e, restarts e = true) l))) s).
  { specialize (G (attempts s) s (Z.le_refl _)). unfold wp in G. destruct (run_events l s) as [[[] s']|f]; [|done].
    cbn beta in G. unfold attempts in G. destruct (Isconnecting s'.1); lia. }
  clear s. induction Hl as [|e l He Hl IH]; intros k s Hs; cbn [run_events].
  { apply wp_ret. rewrite filter_nil. cbn. lia. }
  apply wp_bind. eapply wp_mono; [exact (step_attempts e s k He Hs)|]. intros [] s' Hs'. cbn beta in Hs'.
  eapply wp_mono; [exact (IH _ _ Hs')|]. cbn beta. intros [] s'' Hs''. rewrite filter_cons.
  destruct (restarts e); [rewrite decide_True by done|rewrite decide_False by done]; cbn [length]; lia.
Qed.
End Attempts.

(** ** The types of the variables *)

Definition is_u16 (z : Z) : Prop := 0 ≤ z < 65536.
Definition is_i16 (z : Z) : Prop := -32768 ≤ z ≤ 32767.

(** Handles in the attribute cache have 16 bits. *)
Class CacheLaws (B : Type) `{!Bluedroid B} : Prop :=
  cache_handles gif conn lo hi u n w st m l :
    char_by_uuid gif conn lo hi u n w = (st, m, l) → Forall (λ e, is_u16 (el_char_handle e)) l.

Definition event_ok (e : bt_event) : Prop :=
  event_bytes e ∧
  match e with
  | Gattc (ESP_GATTC_OPEN_EVT _ conn bda) gif => is_u16 conn ∧ length bda = 6%nat
  | Gattc (ESP_GATTC_SEARCH_RES_EVT lo hi _) gif => is_u16 lo ∧ is_u16 hi
  | Gattc (ESP_GATTC_REG_EVT _ _) gif => is_u16 gif
  | _ => True
  end.

Record data_ok (d : BA5C_data_t) : Prop := {
  ok_htu_counter : 0 ≤ HTU21D_recived_notification_counter d < read_interval;
  ok_htu_temperature : is_i16 (HTU21D_temperature d);
  ok_htu_humidity : is_i16 (HTU21D_humidity d);
  ok_htu_status : is_byte (HTU21D_status d);
  ok_ms_counter : 0 ≤ MS5637_recived_notification_counter d < read_interval;
  ok_ms_D1 : 0 ≤ MS5637_D1 d < 16777216;
  ok_ms_D2 : 0 ≤ MS5637_D2 d < 16777216;
  ok_ms_temperature : int_ok (MS5637_temperature d);
  ok_ms_pressure : int_ok (MS5637_pressure d);
  ok_ms_status : is_byte (MS5637_status d);
  ok_level : is_byte (Battery_level d);
  ok_battery_status : is_byte (Battery_status d) }.

Record handles_ok (h : BA5C_handle_data_t) : Prop := {
  ok_start s : is_u16 (service_start_handle h s);
  ok_end s : is_u16 (service_end_handle h s);
  ok_char c : is_u16 (char_handle h c);
  ok_one s s' : get_service h s = true → get_service h s' = true → s = s' }.

Record bt_ok (t : Bt) : Prop := {
  ok_if : is_u16 (gattc_if (profile t));
  ok_conn : is_u16 (conn_id (profile t));
  ok_bda : length (remote_bda (profile t)) = 6%nat;
  ok_handles : handles_ok (BA5C_handle_data (profile t));
  ok_data : data_ok (BA5C_data t) }.

Lemma bt_ok_initial : bt_ok Bt_initializer.
Proof. repeat split; cbn; try done; try lia. Qed.

Lemma fn_insert_u16 {A} `{EqDecision A} (f : A → Z) a v : is_u16 v → (∀ x, is_u16 (f x)) → ∀ x, is_u16 (<[a:=v]> f x).
Proof.
  intros Hv Hf x. destruct (decide (a = x)) as [<-|]; [by rewrite fn_lookup_insert|].
  by rewrite fn_lookup_insert_ne.
Qed.

Lemma set_char_handle_ok c v h : is_u16 v → handles_ok h → handles_ok (set_char_handle c v h).
Proof. intros Hv []. split; cbn; try done. by apply fn_insert_u16. Qed.

Lemma set_found_ok s lo hi h : is_u16 lo → is_u16 hi → handles_ok h → handles_ok (set_found s lo hi h).
Proof.
  intros Hlo Hhi []. split; cbn; try done; try by apply fn_insert_u16.
  intros s1 s2 ->%bool_decide_eq_true ->%bool_decide_eq_true. done.
Qed.

Lemma set_handles_ok g t : (handles_ok (BA5C_handle_data (profile t)) → handles_ok (g (BA5C_handle_data (profile t)))) →
  bt_ok t → bt_ok (set_handles g t).
Proof. intros Hg []. split; cbn; auto. Qed.

Lemma set_data_ok g t : (data_ok (BA5C_data t) → data_ok (g (BA5C_data t))) → bt_ok t → bt_ok (set_data g t).
Proof. intros Hg []. split; cbn; auto. Qed.

Lemma load_byte v i x : Forall is_byte v → load v i = Ok x → is_byte x.
Proof. intros Hv [_ E]%load_Ok. exact (Forall_lookup_1 _ _ _ _ Hv E). Qed.

(** A byte of a value. *)
Lemma wp_load {S A} v i (k : Z → M S A) Q (s : S) :
  Forall is_byte v → (∀ x, is_byte x → wp (k x) Q s) → wp (lift (load v i) ≫= k) Q s.
Proof.
  intros Hv Hk. apply wp_bind, wp_lift. destruct (load v i) as [x|f] eqn:E.
  - apply Hk. by eapply load_byte.
  - intros ->. exact (load_fault v i E).
Qed.

Lemma to_int_range lo hi x z : to_int lo hi x = Ok z → lo ≤ z ≤ hi.
Proof. unfold to_int. case_decide; [|done]. by intros [= <-]. Qed.

Lemma htu21d_range v t h : htu21d_convert v = Ok (t, h) → is_i16 t ∧ is_i16 h.
Proof.
  unfold htu21d_convert. intros E. do 4 apply bind_inv in E as (? & _ & E).
  apply bind_inv in E as (z & Hz & E). apply pair_ok_inv in E as [-> <-].
  split; [exact (to_int_range _ _ _ _ Hz)|apply s16_range].
Qed.

Lemma ms5637_range D1 D2 v t p : ms5637_convert D1 D2 v = Ok (t, p) → int_ok t ∧ int_ok p.
Proof.
  unfold ms5637_convert. intros E. do 6 apply bind_inv in E as (? & _ & E).
  apply bind_inv in E as (z & Hz & E). do 13 apply bind_inv in E as (? & _ & E).
  apply bind_inv in E as (q & Hq & E). apply pair_ok_inv in E as [-> ->].
  split; [exact (to_int_range _ _ _ _ Hz)|exact (to_int_range _ _ _ _ Hq)].
Qed.

Lemma be24_range b2 b1 b0 : is_byte b2 → is_byte b1 → is_byte b0 → 0 ≤ be24 b2 b1 b0 < 16777216.
Proof. unfold is_byte. intros. rewrite be24_spec by (unfold is_byte; lia). lia. Qed.

Section Types.
Context {B : Type} `{!Bluedroid B, !CacheLaws B}.

Abbreviation typed := (λ s : Bt * B, bt_ok s.1).

Lemma typed_req r : keeps typed (req r).
Proof. by apply keeps_req. Qed.

#[local] Ltac typed_steps := repeat (cbv zeta; first [keep_step | apply typed_req]).

Lemma typed_find gif conn s n l : keeps typed (find_chars gif conn s n l).
Proof.
  induction l as [|c l IH]; cbn [find_chars]; [apply keeps_ret|]. apply keeps_bind; [|done].
  intros [t w] Hs. unfold find_char. apply wp_bind, wp_gets, wp_bind, wp_gets. cbn [fst snd].
  destruct (char_by_uuid _ _ _ _ _ _ w) as [[st m] el] eqn:E. apply cache_handles in E.
  destruct (_ || _); [by apply wp_ret|]. apply wp_bind, wp_lift.
  destruct el as [|e el]; [done|]. cbn [first]. apply Forall_cons in E as [He _].
  assert (Ht : typed (set_handles (set_char_handle c (el_char_handle e)) t, w)).
  { apply set_handles_ok; [|done]. intros. by apply set_char_handle_ok. }
  destruct (bool_decide _); destruct (_ =? 0); try (by apply wp_ret); try (by apply wp_modify).
  apply wp_bind, wp_modify. revert Ht.
  match goal with |- _ → wp ?m ?Q ?x => generalize x; change (keeps typed m) end. typed_steps.
Qed.

(** The counter after a notification. *)
Lemma counted gif c l s (Q : Z → Bt * B → Prop) :
  0 ≤ c < read_interval → typed s →
  (∀ c' s', 0 ≤ c' < read_interval → s'.1 = s.1 → Q c' s') →
  wp (count_notification gif c l) Q s.
Proof.
  unfold read_interval. intros Hc Hs HQ. unfold count_notification, read_interval. cbv zeta.
  assert (u8 (c + 1) = c + 1) as -> by (unfold u8; rewrite Z.mod_small; lia).
  destruct (Z.leb_spec 10 (c + 1)); [|apply wp_ret, HQ; [lia|done]].
  destruct s as [t w]. cbn [fst] in *. revert w Hs HQ. induction l as [|x l IH]; intros w Hs HQ.
  { apply wp_ret, HQ; [lia|done]. }
  apply wp_bind, wp_gets, wp_bind, wp_gets, wp_bind. unfold req at 1, wp at 1. cbn [fst].
  destruct (request _ w) as [st w']. apply IH; [done|]. intros c' s'' Hc' Hs''. by apply HQ.
Qed.

Lemma typed_notified gif h v : Forall is_byte v → keeps typed (notified gif h v).
Proof.
  intros Hv [t w] Hs. unfold notified. apply wp_bind, wp_gets. cbn [fst].
  destruct (_ =? _); [|destruct (_ =? _); [|destruct (_ =? _); [|by apply wp_ret]]].
  - apply wp_bind, wp_lift. destruct (htu21d_convert v) as [[te hu]|f] eqn:E.
    2: { intros ->. exact (htu21d_fault v E). }
    apply htu21d_range in E as [Ht Hh]. apply wp_bind, wp_gets, wp_bind. cbn [fst].
    apply counted; [apply Hs|done|]. intros c' [t' w'] Hc E'. cbn in E'. subst t'. apply wp_modify.
    apply set_data_ok; [|done]. intros []. by split.
  - do 6 (apply wp_load; [done|intros ? ?]).
    apply wp_bind, wp_gets, wp_bind. cbn [fst]. apply counted; [apply Hs|done|].
    intros c' [t' w'] Hc E'. cbn in E'. subst t'. apply wp_modify. apply set_data_ok; [|done]. intros []. split; try done;
      by apply be24_range.
  - do 2 (apply wp_load; [done|intros ? ?]).
    apply wp_modify. apply set_data_ok; [|done]. intros []. by split.
Qed.

Lemma typed_read h v : Forall is_byte v → keeps typed (char_read h v).
Proof.
  intros Hv [t w] Hs. unfold char_read. apply wp_bind, wp_gets, wp_bind, wp_gets. cbn [fst].
  repeat (destruct (_ =? _)); [..|by apply wp_ret].
  2: { apply wp_bind, wp_lift. destruct (ms5637_convert _ _ v) as [[te pr]|f] eqn:E.
       2: { intros ->. exact (ms5637_fault _ _ v E). }
       apply ms5637_range in E as [Ht Hp]. apply wp_modify, set_data_ok; [|done]. intros []. by split. }
  all: repeat (apply wp_load; [done|intros ? ?]);
    apply wp_modify, set_data_ok; [|done]; intros []; by split.
Qed.

Lemma typed_handles g : (∀ h, handles_ok h → handles_ok (g h)) → keeps typed (upd (set_handles g)).
Proof. intros Hg. apply keeps_upd. intros t w Ht. cbn [fst] in *. apply set_handles_ok; auto. Qed.

Lemma typed_handler e gif : event_ok (Gattc e gif) → keeps typed (gattc_profile_BA5C_event_handler e gif).
Proof.
  intros [Hb He]. destruct e; cbn [gattc_profile_BA5C_event_handler]; unfold start_scan, search_complete, enable_notify;
    typed_steps; try (apply typed_find); try (by apply typed_notified); try (by apply typed_read);
    try (apply typed_handles; intros h ?; destruct He; first [by apply set_found_ok | by destruct H; split]);
    try (apply typed_handles; intros h []; by split).
  all: apply keeps_upd; intros t w []; by destruct He || idtac; split.
Qed.

Lemma typed_step e : event_ok e → keeps typed (bt_step e).
Proof.
  intros He. destruct e as [e|e gif]; cbn [bt_step].
  - destruct He as [Hb _]. destruct e; cbn [esp_gap_cb]; unfold esp_ble_resolve_adv_data; typed_steps;
      try (apply typed_handles; intros h []; by split);
      apply keeps_upd; intros t w []; by split.
  - pose proof (typed_handler e gif He) as Hh. unfold esp_gattc_cb. cbv zeta.
    destruct e; typed_steps; try exact Hh; [|by intros ? ?].
    apply keeps_upd. intros t w []. destruct He as [_ He]. by split.
Qed.

(** [C28] The state of the sensor client is well typed: after any sequence of
    events with values of the right width, every member lies in the range of its
    C type, the notification counters stay below the read interval, and at most
    one service is marked as the one found last. *)
Theorem client_state_typed (l : list bt_event) (w : B) (s' : Bt * B) :
  Forall event_ok l → run_events l (Bt_initializer, w) = Ok ((), s') → bt_ok s'.1.
Proof.
  intros Hl E. assert (Hk : keeps typed (run_events l)).
  { apply keeps_events. eapply Forall_impl; [exact Hl|]. intros e He. by apply typed_step. }
  exact (wp_result _ _ _ _ _ (Hk (Bt_initializer, w) bt_ok_initial) E).
Qed.
End Types.

(** ** Notifications and reads *)

Section Notifications.
Context {B : Type} `{!Bluedroid B, !TracedStack B}.

(** The reads of the status and the battery level. *)
Definition status_reads (gif : Z) (t : Bt) : list bt_request :=
  [esp_ble_gattc_read_char gif (conn_id (profile t)) (char_handle (BA5C_handle_data (profile t)) HTU21D_stat);
   esp_ble_gattc_read_char gif (conn_id (profile t)) (char_handle (BA5C_handle_data (profile t)) Battery_data)].

(** One notification. *)
Lemma notified_once gif v te hu t w :
  let h := BA5C_handle_data (profile t) in
  let c := HTU21D_recived_notification_counter (BA5C_data t) in
  gif = gattc_if (profile t) → htu21d_convert v = Ok (te, hu) → 0 ≤ c < read_interval →
  ∃ w', esp_gattc_cb (ESP_GATTC_NOTIFY_EVT (char_handle h HTU21D_data) v) gif (t, w) =
      Ok ((), (set_data (set_HTU21D te hu ((c + 1) mod read_interval)) t, w')) ∧
    trace w' = trace w ++ (if c + 1 =? read_interval then status_reads gif t else []).
Proof.
  intros h c Hg Hv Hc. unfold read_interval in *. unfold esp_gattc_cb, notified. cbv zeta.
  unfold mbind at 1, M_bind at 1, var at 1, gets at 1. cbn [fst]. rewrite <- Hg, Z.eqb_refl, orb_true_r.
  cbn [gattc_profile_BA5C_event_handler]. unfold notified, mbind at 1, M_bind at 1, handles, var at 1, gets at 1.
  cbn [fst]. fold h. rewrite Z.eqb_refl. unfold mbind at 1, M_bind at 1, lift at 1. rewrite Hv.
  unfold mbind at 1, M_bind at 1, var at 1, gets at 1. cbn [fst]. fold c.
  unfold count_notification, read_interval. cbv zeta.
  assert (u8 (c + 1) = c + 1) as -> by (unfold u8; rewrite Z.mod_small; lia).
  destruct (Z.eqb_spec (c + 1) 10) as [E|E].
  - rewrite (proj2 (Z.leb_le 10 (c + 1))), E by lia.
    set (r1 := esp_ble_gattc_read_char gif (conn_id (profile t)) (char_handle h HTU21D_stat)).
    set (r2 := esp_ble_gattc_read_char gif (conn_id (profile t)) (char_handle h Battery_data)).
    pose proof (request_trace r1 w) as E1. pose proof (request_trace r2 (request r1 w).2) as E2.
    exists (request r2 (request r1 w).2).2. split.
    + unfold handles, var, gets, mbind, M_bind, req, upd, modify. cbn [fst]. fold h r1 r2.
      destruct (request r1 w) as [st1 w1]. cbn [fst snd]. fold h r2. by destruct (request r2 w1).
    + rewrite E2, E1, <- app_assoc. done.
  - rewrite (proj2 (Z.leb_gt 10 (c + 1))) by lia. exists w. rewrite app_nil_r. split; [|done].
    unfold mbind, M_bind, upd, modify. cbn. rewrite Z.mod_small by lia. done.
Qed.

(** Every tenth notification of the HTU21D reads its status and the
    battery: after any number of notifications the client has sent one pair of
    read requests for each ten of them, its counter is the rest, and it holds
    the values of the last one. *)
Theorem notifications_counted (gif : Z) (vs : list (list Z)) (t : Bt) (w : B) :
  let h := char_handle (BA5C_handle_data (profile t)) HTU21D_data in
  let c := HTU21D_recived_notification_counter (BA5C_data t) in
  gif = gattc_if (profile t) → Forall (λ v, ∃ x, htu21d_convert v = Ok x) vs → 0 ≤ c < read_interval →
  ∃ t' w', run_events (map (λ v, Gattc (ESP_GATTC_NOTIFY_EVT h v) gif) vs) (t, w) = Ok ((), (t', w')) ∧
    trace w' = trace w ++ concat (replicate (Z.to_nat ((c + zlen vs) / read_interval)) (status_reads gif t)) ∧
    HTU21D_recived_notification_counter (BA5C_data t') = (c + zlen vs) mod read_interval ∧
    profile t' = profile t ∧
    ∀ v, last vs = Some v →
      htu21d_convert v = Ok (HTU21D_temperature (BA5C_data t'), HTU21D_humidity (BA5C_data t')).
Proof.
  intros h c Hg Hvs. subst h c. revert t w Hg. induction Hvs as [|v vs [[te hu] Hv] Hvs IH]; intros t w Hg Hc.
  { exists t, w. cbn [map run_events length]. rewrite Z.add_0_r, Z.div_small, Z.mod_small by done.
    cbn. by rewrite app_nil_r. }
  destruct (notified_once gif v te hu t w Hg Hv Hc) as (w1 & E1 & T1).
  set (c := HTU21D_recived_notification_counter (BA5C_data t)) in *.
  set (t1 := set_data (set_HTU21D te hu ((c + 1) mod read_interval)) t) in *.
  destruct (IH t1 w1 Hg ltac:(cbn; apply Z.mod_pos_bound; done)) as (t' & w' & E & T & Hcnt & Hp & Hl).
  exists t', w'. cbn [map run_events bt_step length]. unfold mbind, M_bind. rewrite E1. split; [exact E|].
  change (HTU21D_recived_notification_counter (BA5C_data t1)) with ((c + 1) mod read_interval) in *.
  change (status_reads gif t1) with (status_reads gif t) in T. change (profile t1) with (profile t) in Hp.
  unfold read_interval in *. split; [|split; [|split; [done|]]].
  - rewrite T, T1, <- app_assoc. f_equal. destruct (Z.eqb_spec (c + 1) 10) as [E10|E10].
    + rewrite E10, Z.mod_same by done.
      replace (Z.to_nat ((c + Z.of_nat (S (length vs))) / 10)) with (S (Z.to_nat ((0 + zlen vs) / 10))); [done|].
      replace (c + Z.of_nat (S (length vs))) with (zlen vs + 1 * 10) by lia. rewrite Z.div_add by done.
      pose proof (Z.div_pos (zlen vs) 10 ltac:(lia) ltac:(lia)). rewrite Z.add_0_l. lia.
    + rewrite (Z.mod_small (c + 1)) by lia. cbn [app].
      by replace (c + 1 + zlen vs) with (c + Z.of_nat (S (length vs))) by lia.
  - rewrite Hcnt, Z.add_mod_idemp_l by done. f_equal. lia.
  - intros x Hx. destruct vs as [|v' vs].
    + injection Hx as <-. cbn in E. injection E as <- <-. exact Hv.
    + apply Hl. done.
Qed.
End Notifications.

(** ** Discovery *)

Section Discovery.
Context {B : Type} `{!Bluedroid B, !TracedStack B}.

(** The property a characteristic needs. *)
Definition needed (s : sensor) (c : characteristic) : Z :=
  if bool_decide (c = data_char s) then ESP_GATT_CHAR_PROP_BIT_NOTIFY else ESP_GATT_CHAR_PROP_BIT_READ.

(** The cache has the characteristics [e] of the service [s] at the handles from
    [lo] to [hi], and there is memory. *)
Definition cached (gif conn lo hi : Z) (s : sensor) (e : characteristic → char_elem) : Prop :=
  ∀ w : B, ∃ st n, char_count gif conn lo hi w = (st, n) ∧ 0 < n ∧ bt_malloc n w = true ∧
    ∀ c, c ∈ service_chars s → Z.land (el_properties (e c)) (needed s c) ≠ 0 ∧
      ∀ n', ∃ m l, char_by_uuid gif conn lo hi (char_uuid c) n' w = (ESP_GATT_OK, m, e c :: l) ∧ 0 < m.

Lemma find_char_run gif conn lo hi s e n c t w :
  cached gif conn lo hi s e → c ∈ service_chars s →
  service_start_handle (BA5C_handle_data (profile t)) s = lo →
  service_end_handle (BA5C_handle_data (profile t)) s = hi →
  ∃ w', find_char gif conn s n c (t, w) = Ok ((), (set_handles (set_char_handle c (el_char_handle (e c))) t, w')) ∧
    trace w' = trace w ++ (if bool_decide (c = data_char s) then
      [esp_ble_gattc_register_for_notify gif (remote_bda (profile t)) (el_char_handle (e c))] else []).
Proof.
  intros Hcache Hc Hlo Hhi. destruct (Hcache w) as (st & n0 & _ & _ & _ & Hq). destruct (Hq c Hc) as [Hp Hq'].
  destruct (Hq' n) as (m & l & E & Hm). unfold find_char, handles, query, var, gets, mbind at 1 2, M_bind at 1 2.
  cbn [fst snd]. rewrite Hlo, Hhi, E. rewrite (proj2 (Z.leb_gt m 0)) by done. cbn [orb negb ESP_GATT_OK Z.eqb].
  unfold mbind at 1, M_bind at 1, lift. cbn [first]. unfold needed in Hp.
  destruct (bool_decide (c = data_char s)).
  - rewrite (proj2 (Z.eqb_neq _ _)) by done. unfold mbind, M_bind, upd, modify, req. cbn [fst].
    set (r := esp_ble_gattc_register_for_notify _ _ _). pose proof (request_trace r w) as Et.
    change (remote_bda (profile (set_handles (set_char_handle c (el_char_handle (e c))) t)))
      with (remote_bda (profile t)) in *. exists (request r w).2. split; [|exact Et]. fold r. by destruct (request r w).
  - rewrite (proj2 (Z.eqb_neq _ _)) by done. exists w. rewrite app_nil_r. done.
Qed.

Lemma find_chars_run gif conn lo hi s e n l t w :
  cached gif conn lo hi s e → (∀ c, c ∈ l → c ∈ service_chars s) →
  service_start_handle (BA5C_handle_data (profile t)) s = lo →
  service_end_handle (BA5C_handle_data (profile t)) s = hi →
  ∃ t' w', find_chars gif conn s n l (t, w) = Ok ((), (t', w')) ∧
    trace w' = trace w ++ concat (map (λ c, if bool_decide (c = data_char s) then
      [esp_ble_gattc_register_for_notify gif (remote_bda (profile t)) (el_char_handle (e c))] else []) l) ∧
    ∀ c, char_handle (BA5C_handle_data (profile t')) c =
      if bool_decide (c ∈ l) then el_char_handle (e c) else char_handle (BA5C_handle_data (profile t)) c.
Proof.
  intros Hcache. revert t w. induction l as [|c l IH]; intros t w Hl Hlo Hhi; cbn [find_chars map concat].
  { exists t, w. rewrite app_nil_r. do 2 (split; [done|]). intros c.
    rewrite bool_decide_false by apply not_elem_of_nil. done. }
  destruct (find_char_run gif conn lo hi s e n c t w Hcache ltac:(apply Hl; set_solver) Hlo Hhi) as (w1 & E1 & T1).
  set (t1 := set_handles (set_char_handle c (el_char_handle (e c))) t) in *.
  destruct (IH t1 w1 ltac:(intros; apply Hl; set_solver) Hlo Hhi) as (t' & w' & E & T & Hh).
  exists t', w'. unfold mbind, M_bind. rewrite E1. split; [exact E|]. split.
  - rewrite T, T1, <- app_assoc. done.
  - intros x. rewrite Hh. destruct (decide (x ∈ l)) as [Hx|Hx].
    { by rewrite !bool_decide_true by set_solver. }
    rewrite (bool_decide_false (x ∈ l)) by done. unfold t1. cbn.
    destruct (decide (x = c)) as [->|Hne].
    + rewrite fn_lookup_insert, bool_decide_true by set_solver. done.
    + rewrite fn_lookup_insert_ne by done. rewrite bool_decide_false; [done|]. by intros [->|?]%elem_of_cons.
Qed.

(** A service is discovered: once the stack has reported one of the three
    services and the search is complete, the client holds the handles of exactly
    the characteristics of that service, and has asked for notifications of its
    data characteristic and for nothing else. *)
Theorem service_discovered (s : sensor) (gif conn lo hi : Z) (e : characteristic → char_elem) (t : Bt) (w : B) :
  gif = gattc_if (profile t) → cached gif conn lo hi s e →
  ∃ t' w', run_events [Gattc (ESP_GATTC_SEARCH_RES_EVT lo hi (service_uuid s)) gif;
                       Gattc (ESP_GATTC_SEARCH_CMPL_EVT ESP_GATT_OK conn) gif] (t, w) = Ok ((), (t', w')) ∧
    (∀ c, char_handle (BA5C_handle_data (profile t')) c =
       if bool_decide (c ∈ service_chars s) then el_char_handle (e c)
       else char_handle (BA5C_handle_data (profile t)) c) ∧
    trace w' = trace w ++
      [esp_ble_gattc_register_for_notify gif (remote_bda (profile t)) (el_char_handle (e (data_char s)))].
Proof.
  intros Hg Hcache. set (t1 := set_handles (set_found s lo hi) t).
  assert (E1 : bt_step (Gattc (ESP_GATTC_SEARCH_RES_EVT lo hi (service_uuid s)) gif) (t, w) = Ok ((), (t1, w))).
  { cbn [bt_step]. unfold esp_gattc_cb. cbv zeta. unfold mbind at 1, M_bind at 1, var, gets. cbn [fst].
    rewrite <- Hg, Z.eqb_refl, orb_true_r. by destruct s. }
  destruct (Hcache w) as (st & n & Ec & Hn & Hm & _).
  destruct (find_chars_run gif conn lo hi s e n (service_chars s) t1 w Hcache ltac:(done)) as (t' & w' & E & T & Hh).
  { unfold t1. cbn. by rewrite fn_lookup_insert. } { unfold t1. cbn. by rewrite fn_lookup_insert. }
  exists t', w'. split; [|split; [exact Hh|]].
  - cbn [run_events]. unfold mbind at 1, M_bind at 1. rewrite E1. unfold mbind at 1, M_bind at 1. cbn [bt_step].
    unfold esp_gattc_cb. cbv zeta. unfold mbind at 1, M_bind at 1, var at 1, gets at 1. cbn [fst].
    change (gattc_if (profile t1)) with (gattc_if (profile t)). rewrite <- Hg, Z.eqb_refl, orb_true_r.
    cbn [gattc_profile_BA5C_event_handler ESP_GATT_OK Z.eqb negb].
    assert (Es : search_complete gif conn s (t1, w) = Ok ((), (t', w'))).
    { assert (Hlo : service_start_handle (BA5C_handle_data (profile t1)) s = lo) by (cbn; by rewrite fn_lookup_insert).
      assert (Hhi : service_end_handle (BA5C_handle_data (profile t1)) s = hi) by (cbn; by rewrite fn_lookup_insert).
      unfold search_complete, handles, query, var, gets, mbind, M_bind. cbn [fst snd].
      rewrite Hlo, Hhi, Ec. rewrite (proj2 (Z.leb_gt n 0)) by done. cbn [snd]. rewrite Hm. exact E. }
    unfold mbind at 1, M_bind at 1, handles, var, gets. cbn [fst].
    destruct s; cbn [t1 set_handles set_profile profile BA5C_handle_data set_found get_service];
      repeat (match goal with |- context [bool_decide ?P] =>
                let b := eval vm_compute in (bool_decide P) in change (bool_decide P) with b end);
      cbn iota; by rewrite Es.
  - rewrite T. by destruct s.
Qed.
End Discovery.
