(* ===== verification/BluetoothRuns.v ===== *)
(** * Runs of the sensor client

    Initialisation, a concrete Bluetooth stack that answers every request, and
    the instances of the theorems on it. *)

From stdpp Require Import functions.
From S2P Require Import Prelude CString Double Bluetooth BluetoothProofs BluetoothEvents.

#[local] Strategy 1000 [to_int].

(** ** Initialisation *)

Definition init_requests : list bt_request :=
  [esp_bt_controller_mem_release; esp_bt_controller_init; esp_bt_controller_enable; esp_bluedroid_init;
   esp_bluedroid_enable; esp_ble_gap_register_callback; esp_ble_gattc_register_callback;
   esp_ble_gattc_app_register 0].

(** The requests up to the first one that fails. *)
Fixpoint until_failure (status : bt_request → Z) (l : list bt_request) : list bt_request * option bt_request :=
  match l with
  | [] => ([], None)
  | r :: l => if status r =? 0 then let '(sent, f) := until_failure status l in (r :: sent, f) else ([r], Some r)
  end.

Section Initialisation.
Context {B : Type} `{!Bluedroid B, !TracedStack B}.
Context (status : bt_request → Z).
Hypothesis request_status : ∀ r w, (request r w).1 = status r.

Lemma req_run r t w : ∃ w', req r (t, w) = Ok (status r, (t, w')) ∧ trace w' = trace w ++ [r].
Proof.
  pose proof (request_status r w) as E. pose proof (request_trace r w) as Et. exists (request r w).2.
  split; [|exact Et]. unfold req. destruct (request r w). cbn in E. by subst.
Qed.

(** A list of steps runs up to the first failure, whose status is returned. *)
Lemma init_steps_run l k t w :
  ∃ w', trace w' = trace w ++ (until_failure status l).1 ∧
    init_steps l k (t, w) =
      match (until_failure status l).2 with None => k (t, w') | Some r => Ok (status r, (t, w')) end.
Proof.
  revert w. induction l as [|r l IH]; intros w; cbn [init_steps until_failure].
  { exists w. by rewrite app_nil_r. }
  destruct (req_run r t w) as (w1 & E1 & T1). unfold mbind, M_bind. rewrite E1.
  destruct (Z.eqb_spec (status r) 0) as [E|E]; cbn [negb]; cbv beta iota.
  - destruct (IH w1) as (w2 & T2 & E2). exists w2. destruct (until_failure status l) as [sent f].
    cbn [fst snd] in *. rewrite T2, T1, <- app_assoc. done.
  - exists w1. done.
Qed.

(** The step [r] succeeds, or the function returns. *)
#[local] Ltac init_step w T1 T2 r :=
  destruct (status r =? 0); cbn in T2 |- *; [|exists w; by rewrite T2, T1, <- app_assoc].

(** Initialisation stops at the first error: the requests go out in order up
    to the first that fails.  A failure to release memory aborts the program; one
    of the steps up to the callbacks is returned; if the registration of the
    application fails, the function returns without a value; if all succeed,
    the MTU is set and zero returned. *)
Theorem bluetooth_initialize_stops (junk : Z) (t : Bt) (w : B) :
  match until_failure status init_requests with
  | (sent, None) => ∃ w', bluetooth_initialize junk (t, w) = Ok (0, (t, w')) ∧
      trace w' = trace w ++ init_requests ++ [esp_ble_gatt_set_local_mtu 200]
  | (sent, Some esp_bt_controller_mem_release) => bluetooth_initialize junk (t, w) = Fault EspAbort
  | (sent, Some (esp_ble_gattc_app_register _)) => ∃ w', bluetooth_initialize junk (t, w) = Ok (junk, (t, w')) ∧
      trace w' = trace w ++ sent
  | (sent, Some r) => ∃ w', bluetooth_initialize junk (t, w) = Ok (status r, (t, w')) ∧ trace w' = trace w ++ sent
  end.
Proof.
  destruct (req_run esp_bt_controller_mem_release t w) as (w1 & E1 & T1).
  eassert (Eo : bluetooth_initialize junk (t, w) =
    if negb (status esp_bt_controller_mem_release =? 0) then Fault EspAbort else init_steps _ _ (t, w1)).
  { unfold bluetooth_initialize, mbind at 1, M_bind at 1. rewrite E1. by destruct (negb _). }
  rewrite Eo. unfold init_requests. cbn [until_failure].
  destruct (status esp_bt_controller_mem_release =? 0); cbn [negb]; [|done].
  match goal with |- context [init_steps ?l ?k _] => destruct (init_steps_run l k t w1) as (w2 & T2 & ->) end.
  cbn [until_failure] in *.
  init_step w2 T1 T2 esp_bt_controller_init.
  init_step w2 T1 T2 esp_bt_controller_enable.
  init_step w2 T1 T2 esp_bluedroid_init.
  init_step w2 T1 T2 esp_bluedroid_enable.
  init_step w2 T1 T2 esp_ble_gap_register_callback.
  init_step w2 T1 T2 esp_ble_gattc_register_callback.
  destruct (req_run (esp_ble_gattc_app_register 0) t w2) as (w3 & E3 & T3).
  destruct (req_run (esp_ble_gatt_set_local_mtu 200) t w3) as (w4 & E4 & T4).
  unfold mbind, M_bind. rewrite E3. destruct (Z.eqb_spec (status (esp_ble_gattc_app_register 0)) 0) as [E|E]; cbn [negb]; cbv beta iota.
  - exists w4. rewrite E4, E. by rewrite T4, T3, T2, T1, <- !app_assoc.
  - exists w3. by rewrite T3, T2, T1, <- !app_assoc.
Qed.
End Initialisation.

(** ** A stack that answers every request *)

Module Tag.
(** The world is the list of requests.  Every service has its characteristics
    at the handle in byte 12 of the identifier, readable and notifying. *)
Definition World : Type := list bt_request.
Definition elem (u : bt_uuid) : char_elem :=
  {| el_char_handle := match u with UUID16 z | UUID32 z => z | UUID128 l => default 0 (l !! 12%nat) end; el_properties := 18 |}.
#[export] Instance stack : Bluedroid World := {
  request r w := (0, w ++ [r]);
  char_count _ _ _ _ _ := (0, 3);
  descr_count _ _ _ _ _ _ := (0, 1);
  char_by_uuid _ _ _ _ u _ _ := (0, 1, [{| el_char_handle := u16 (el_char_handle (elem u)); el_properties := 18 |}]);
  descr_by_char_handle _ _ h u _ _ := (0, 1, [{| el_handle := h + 1; el_uuid := u |}]);
  bt_malloc _ _ := true }.
#[export] Instance traced : TracedStack World.
Proof. by refine {| trace w := w |}. Defined.
#[export] Instance cache : CacheLaws World.
Proof.
  intros gif conn lo hi u n w st m l E. cbn [char_by_uuid stack] in E. injection E as <- <- <-. repeat constructor;
    unfold u16; cbn; by apply Z.mod_pos_bound.
Defined.

Definition bda : list Z := [1; 2; 3; 4; 5; 6].
Definition adv : list Z := ad_bytes ([(1, [6])] ++ [(ESP_BLE_AD_TYPE_NAME_CMPL, remote_device_name)]) ++ [0].

(** From registration to the first notification. *)
Definition session : list bt_event := [
  Gattc (ESP_GATTC_REG_EVT 0 0) 3;
  Gap ESP_GAP_BLE_SCAN_PARAM_SET_COMPLETE_EVT;
  Gap (ESP_GAP_BLE_SCAN_RESULT_INQ_RES bda adv);
  Gap (ESP_GAP_BLE_SCAN_RESULT_INQ_RES bda adv);
  Gattc (ESP_GATTC_OPEN_EVT 0 7 bda) 3;
  Gattc (ESP_GATTC_CFG_MTU_EVT 0 7) 3;
  Gattc (ESP_GATTC_SEARCH_RES_EVT 30 40 (service_uuid HTU21D)) 3;
  Gattc (ESP_GATTC_SEARCH_CMPL_EVT 0 7) 3;
  Gattc (ESP_GATTC_REG_FOR_NOTIFY_EVT 0 33) 3;
  Gattc (ESP_GATTC_NOTIFY_EVT 33 [104; 58; 0; 124; 128]) 3].

Definition requests_of (r : outcome (() * (Bt * World))) : list bt_request :=
  match r with Ok (_, (_, w)) => w | Fault _ => [] end.
Definition data_of (r : outcome (() * (Bt * World))) : BA5C_data_t :=
  match r with Ok (_, (t, _)) => BA5C_data t | Fault _ => BA5C_data Bt_initializer end.

Definition silent : World := [].
Definition start : Bt * World := (Bt_initializer, silent).

(** The session: scanning, connecting, discovery, switching the notifications
    on, and the first values. *)
Example session_requests : requests_of (run_events session start) = [
  esp_ble_gap_set_scan_params; esp_ble_gap_start_scanning 30; esp_ble_gap_stop_scanning; esp_ble_gattc_open 3 bda;
  esp_ble_gattc_send_mtu_req 3 7; esp_ble_gattc_search_service 3 7 (service_uuid HTU21D);
  esp_ble_gattc_search_service 3 7 (service_uuid MS5637); esp_ble_gattc_search_service 3 7 (service_uuid Battery);
  esp_ble_gattc_register_for_notify 3 bda 33; esp_ble_gattc_write_char_descr 3 7 34 [1; 0]].
Proof. vm_compute. reflexivity. Qed.
Example session_values :
  let d := data_of (run_events session start) in (HTU21D_temperature d, HTU21D_humidity d) = (24, 54).
Proof. vm_compute. reflexivity. Qed.

Lemma device_found_witness : ∃ w',
  esp_gap_cb (ESP_GAP_BLE_SCAN_RESULT_INQ_RES bda adv) start =
    Ok ((), ((scanned remote_device_name bda Bt_initializer).1, w')) ∧
  trace w' = trace silent ++ (scanned remote_device_name bda Bt_initializer).2.
Proof.
  apply (device_found [(1, [6])] remote_device_name [0] bda Bt_initializer silent).
  - repeat constructor. discriminate.
  - vm_compute. discriminate.
Defined.

Lemma connection_attempts_witness :
  match run_events session start with
  | Ok (_, s') => opens (trace s'.2) ≤ opens (trace start.2) + (if Isconnecting start.1 then 0 else 1)
                    + zlen (filter (λ e, restarts e = true) session)
  | Fault f => f ≠ OutOfFuel
  end.
Proof.
  apply (connection_attempts session start). apply (bool_decide_unpack _). vm_compute. exact I.
Defined.

Lemma events_ok : Forall event_ok session.
Proof.
  repeat constructor; try done; unfold event_bytes; apply (bool_decide_unpack _); vm_compute; exact I.
Qed.

Lemma client_state_typed_witness : ∃ s', run_events session start = Ok ((), s') ∧ bt_ok s'.1.
Proof.
  destruct (run_events session start) as [[[] s']|f] eqn:E; [|exfalso; revert E; vm_compute; discriminate].
  exists s'. split; [reflexivity|]. apply (client_state_typed session silent s' events_ok E).
Defined.

Definition bytes_HTU21D : list Z := [104; 58; 0; 124; 128].
Lemma notifications_counted_witness :
  ∃ t' w', run_events (map (λ v, Gattc (ESP_GATTC_NOTIFY_EVT 0 v) 255) (replicate 25 bytes_HTU21D)) start = Ok ((), (t', w')) ∧
    trace w' = trace silent ++ concat (replicate (Z.to_nat ((0 + 25) / read_interval)) (status_reads 255 Bt_initializer)) ∧
    HTU21D_recived_notification_counter (BA5C_data t') = (0 + 25) mod read_interval ∧
    profile t' = profile Bt_initializer ∧
    ∀ v, last (replicate 25 bytes_HTU21D) = Some v →
      htu21d_convert v = Ok (HTU21D_temperature (BA5C_data t'), HTU21D_humidity (BA5C_data t')).
Proof.
  apply (notifications_counted 255 (replicate 25 bytes_HTU21D) Bt_initializer silent).
  - reflexivity.
  - apply Forall_replicate. exists (24, 54). vm_compute. reflexivity.
  - vm_compute. split; [discriminate|reflexivity].
Defined.

Definition elem_of (c : characteristic) : char_elem := elem (char_uuid c).
Lemma service_discovered_witness :
  ∃ t' w', run_events [Gattc (ESP_GATTC_SEARCH_RES_EVT 30 40 (service_uuid MS5637)) 255;
                       Gattc (ESP_GATTC_SEARCH_CMPL_EVT ESP_GATT_OK 7) 255] start = Ok ((), (t', w')) ∧
    (∀ c, char_handle (BA5C_handle_data (profile t')) c =
       if bool_decide (c ∈ service_chars MS5637) then el_char_handle (elem_of c) else 0) ∧
    trace w' = trace silent ++ [esp_ble_gattc_register_for_notify 255 (replicate 6 0) 65].
Proof.
  apply (service_discovered MS5637 255 7 30 40 elem_of Bt_initializer silent).
  - reflexivity.
  - intros w. exists 0, 3. split; [reflexivity|]. split; [reflexivity|]. split; [reflexivity|].
    intros c Hc. split; [destruct c; vm_compute; discriminate|]. intros n'. exists 1, [].
    split; [destruct c; vm_compute; reflexivity|reflexivity].
Defined.

Lemma bluetooth_initialize_stops_witness : ∃ w',
  bluetooth_initialize 5 start = Ok (0, (Bt_initializer, w')) ∧
  trace w' = trace silent ++ init_requests ++ [esp_ble_gatt_set_local_mtu 200].
Proof.
  assert (H : ∀ r (w : World), (request r w).1 = 0) by reflexivity.
  exact (bluetooth_initialize_stops (λ _, 0) H 5 Bt_initializer silent).
Defined.
End Tag.
