(* ===== verification/MultiPrecision.v ===== *)
(** * Multi-precision arithmetic of the pairing code

    Models [src/components/bt/bluedroid/stack/smp/p_256_multprecision.c]: integers
    of [keyLength] words of 32 bits, least significant word first, and the
    arithmetic modulo the prime of the curve P-256.  An array is the list of its
    words; every loop reads the elements of its arguments before it writes the
    same element of its result, so a result may be stored over an argument, as
    the code does.  [multiprecision_mult] is the exception its comment names. *)

From S2P Require Import Prelude.

Definition KEY_LENGTH_DWORDS_P192 : nat := 6.
Definition KEY_LENGTH_DWORDS_P256 : nat := 8.
Definition DWORD_BITS : Z := 32.

(** The value of a comparison. *)
Definition b2z (b : bool) : Z := if b then 1 else 0.

(** ** Words *)

Definition multiprecision_init (keyLength : nat) : list Z := replicate keyLength 0.

(** From the most significant word down: the list is given in that order. *)
Fixpoint compare_down (a b : list Z) : Z :=
  match a, b with
  | x :: a, y :: b => if y <? x then 1 else if x <? y then -1 else compare_down a b
  | _, _ => 0
  end.
Definition multiprecision_compare (a b : list Z) : Z := compare_down (reverse a) (reverse b).

Fixpoint multiprecision_iszero (a : list Z) : bool :=
  match a with [] => true | x :: a => if negb (x =? 0) then false else multiprecision_iszero a end.

(** The loop counts [i] up while the word is shifted down. *)
Fixpoint dword_bits_loop (k : nat) (i a : Z) : Z :=
  match k with O => i | S k => if a =? 0 then i else dword_bits_loop k (i + 1) (Z.shiftr a 1) end.
Definition multiprecision_dword_bits (a : Z) : Z := dword_bits_loop (Z.to_nat DWORD_BITS) 0 a.

(** [i + 1] for the last index [i] with a word that is not zero. *)
Fixpoint most_signdwords_down (a : list Z) : nat :=
  match a with [] => O | x :: a' => if negb (x =? 0) then length a else most_signdwords_down a' end.
Definition multiprecision_most_signdwords (a : list Z) : nat := most_signdwords_down (reverse a).

Definition multiprecision_most_signbits (a : list Z) : outcome Z :=
  let aMostSignDWORDs := multiprecision_most_signdwords a in
  if (aMostSignDWORDs =? 0)%nat then Ok 0 else
  top ← index a (Z.of_nat aMostSignDWORDs - 1);
  Ok (Z.shiftl (Z.of_nat aMostSignDWORDs - 1) 5 + multiprecision_dword_bits top).

(** ** Sums, differences and shifts *)

Fixpoint add_loop (carrier : Z) (a b : list Z) : list Z * Z :=
  match a, b with
  | x :: a, y :: b =>
      let temp := u32 (x + carrier) in
      let carrier := b2z (temp <? carrier) in
      let temp := u32 (temp + y) in
      let carrier := Z.lor carrier (b2z (temp <? y)) in
      let '(c, carrier) := add_loop carrier a b in (temp :: c, carrier)
  | _, _ => ([], carrier)
  end.
Definition multiprecision_add (a b : list Z) : list Z * Z := add_loop 0 a b.

Fixpoint sub_loop (borrow : Z) (a b : list Z) : list Z * Z :=
  match a, b with
  | x :: a, y :: b =>
      let temp := u32 (x - borrow) in
      let borrow := b2z (x <? temp) in
      let c := u32 (temp - y) in
      let borrow := Z.lor borrow (b2z (temp <? c)) in
      let '(cs, borrow) := sub_loop borrow a b in (c :: cs, borrow)
  | _, _ => ([], borrow)
  end.
Definition multiprecision_sub (a b : list Z) : list Z * Z := sub_loop 0 a b.

Fixpoint lshift_loop (carrier : Z) (a : list Z) : list Z * Z :=
  match a with
  | [] => ([], carrier)
  | temp :: a =>
      let c := Z.lor (u32 (Z.shiftl temp 1)) carrier in
      let '(cs, carrier) := lshift_loop (Z.shiftr temp 31) a in (c :: cs, carrier)
  end.
Definition multiprecision_lshift (a : list Z) : list Z * Z := lshift_loop 0 a.

(** From the most significant word down; the carry is in the top bit. *)
Fixpoint rshift_down (carrier : Z) (a : list Z) : list Z :=
  match a with
  | [] => []
  | temp :: a => Z.lor (Z.shiftr temp 1) carrier :: rshift_down (u32 (Z.shiftl temp 31)) a
  end.
Definition multiprecision_rshift (a : list Z) : list Z := reverse (rshift_down 0 (reverse a)).

(** ** Products *)

(** One round of the outer loop: [c] is the array from [c[i]] on; the inner loop
    adds the multiples of [b], then [c[i + keyLength]] is set. *)
Fixpoint mult_row (x U : Z) (b c : list Z) : list Z :=
  match b, c with
  | y :: b, z :: c =>
      let result := x * y in
      let W := Z.shiftr result 32 in
      let V := u32 (x * y) in
      let V := u32 (V + U) in
      let U := b2z (V <? U) in
      let U := u32 (U + W) in
      let V := u32 (V + z) in
      let U := u32 (U + b2z (V <? z)) in
      V :: mult_row x U b c
  | [], _ :: c => U :: c
  | _, [] => []
  end.
Fixpoint mult_loop (a b c : list Z) : list Z :=
  match a with
  | [] => c
  | x :: a => match mult_row x 0 b c with z :: c => z :: mult_loop a b c | [] => [] end
  end.
(** [junk] is what the upper half of the result held before. *)
Definition multiprecision_mult (junk a b : list Z) : list Z :=
  mult_loop a b (multiprecision_init (length a) ++ junk).

(** ** Reduction modulo the primes *)

(** [curve_p256.p] as [p_256_init_curve] sets it, and [curve.p], which nothing
    sets. *)
Definition curve_p256_p : list Z := [4294967295; 4294967295; 4294967295; 0; 0; 0; 1; 4294967295].
Definition curve_p : list Z := replicate 6 0.
Definition modulus (keyLength : nat) : option (list Z) :=
  if (keyLength =? KEY_LENGTH_DWORDS_P192)%nat then Some curve_p
  else if (keyLength =? KEY_LENGTH_DWORDS_P256)%nat then Some curve_p256_p
  else None.

(** The pattern [s += x; u += (s < x);] on a word and the count of its carries,
    and [u -= (s < x); s -= x;]; [bits] is the width of the count. *)
Definition plus (wrap : Z → Z) (x : Z) (su : Z * Z) : Z * Z :=
  let s := u32 (su.1 + x) in (s, wrap (su.2 + b2z (s <? x))).
Definition minus (wrap : Z → Z) (x : Z) (su : Z * Z) : Z * Z :=
  (u32 (su.1 - x), wrap (su.2 - b2z (su.1 <? x))).
(** [u += d;] and [u -= d;] for the carries [d] of a word. *)
Definition carries (d : Z) (su : Z * Z) : Z * Z := (su.1, u32 (su.2 + d)).
Definition uncarries (d : Z) (su : Z * Z) : Z * Z := (su.1, u32 (su.2 - d)).
(** The start of the next word with the signed carry [U] of the last one. *)
Definition next_word (a U : Z) : Z * Z :=
  if negb (Z.land U 2147483648 =? 0) then
    let UU := u32 (0 - U) in (u32 (a - UU), b2z (a <? UU))
  else (u32 (a + U), b2z (u32 (a + U) <? a)).

(** [while (U) { multiprecision_add(c, c, modp); U++; }]: the counter runs up to
    zero, and down to zero in the other loop. *)
Definition add_p (c : list Z) : list Z := (multiprecision_add c curve_p256_p).1.
Definition sub_p (c : list Z) : list Z := (multiprecision_sub c curve_p256_p).1.
Definition settle (U : Z) (c : list Z) : list Z :=
  if negb (Z.land U 2147483648 =? 0) then Nat.iter (Z.to_nat (4294967296 - U)) add_p c
  else Nat.iter (Z.to_nat U) sub_p c.
Definition sub_if_ge (c : list Z) : list Z :=
  if 0 <=? multiprecision_compare c curve_p256_p then sub_p c else c.

#[local] Notation "x |> f" := (f x) (at level 58, left associativity, only parsing).

(** The words of the reduced sum and the signed carry out of the last one. *)
Definition fast_mod_words (a0 a1 a2 a3 a4 a5 a6 a7 a8 a9 a10 a11 a12 a13 a14 a15 : Z) : list Z * Z :=
  let '(C, UC) := (a13, 0) |> plus u8 a14 |> plus u8 a15 in
  let '(E, UE) := (a8, 0) |> plus u8 a9 in
  let '(F, UF) := (a9, 0) |> plus u8 a10 in
  let '(G, UG) := (a10, 0) |> plus u8 a11 in
  let '(B, UB) := (C, UC) |> plus u8 a12 in
  let '(A, UA) := (B, UB) |> plus u8 a11 |> minus u8 a15 in
  let '(D, UD) := (A, UA) |> plus u8 a10 |> minus u8 a14 in
  let '(c0, U) := (a0, 0) |> plus u32 E |> carries UE |> minus u32 A |> uncarries UA in
  let '(c1, U) := next_word a1 U |> plus u32 F |> carries UF |> minus u32 B |> uncarries UB in
  let '(c2, U) := next_word a2 U |> plus u32 G |> carries UG |> minus u32 C |> uncarries UC in
  let '(c3, U) := next_word a3 U |> plus u32 A |> carries UA |> plus u32 a11 |> plus u32 a12
                    |> minus u32 a14 |> minus u32 a15 |> minus u32 E |> uncarries UE in
  let '(c4, U) := next_word a4 U |> plus u32 B |> carries UB |> minus u32 a15 |> plus u32 a12
                    |> plus u32 a13 |> minus u32 F |> uncarries UF in
  let '(c5, U) := next_word a5 U |> plus u32 C |> carries UC |> plus u32 a13 |> plus u32 a14
                    |> minus u32 G |> uncarries UG in
  let '(c6, U) := next_word a6 U |> plus u32 C |> carries UC |> plus u32 a14 |> plus u32 a14
                    |> plus u32 a15 |> minus u32 E |> uncarries UE in
  let '(c7, U) := next_word a7 U |> plus u32 a15 |> plus u32 a15 |> plus u32 a15 |> plus u32 a8
                    |> minus u32 D |> uncarries UD in
  ([c0; c1; c2; c3; c4; c5; c6; c7], U).

(** An array of fewer words is read past its end. *)
Definition multiprecision_fast_mod_P256 (a : list Z) : outcome (list Z) :=
  match a with
  | a0 :: a1 :: a2 :: a3 :: a4 :: a5 :: a6 :: a7 :: a8 :: a9 :: a10 :: a11 :: a12 :: a13 :: a14 :: a15 :: _ =>
      let '(c, U) := fast_mod_words a0 a1 a2 a3 a4 a5 a6 a7 a8 a9 a10 a11 a12 a13 a14 a15 in
      Ok (sub_if_ge (settle U c))
  | _ => Fault OobRead
  end.

(** ** Arithmetic modulo the prime *)

(** These take a difference to the modulus of the key length; another length
    leaves the result as it was. *)
Definition multiprecision_lshift_mod (c a : list Z) : list Z :=
  match modulus (length a) with
  | Some modp =>
      let '(c, carrier) := multiprecision_lshift a in
      if negb (carrier =? 0) then (multiprecision_sub c modp).1
      else if 0 <=? multiprecision_compare c modp then (multiprecision_sub c modp).1 else c
  | None => c
  end.

Definition multiprecision_add_mod (c a b : list Z) : list Z :=
  match modulus (length a) with
  | Some modp =>
      let '(c, carrier) := multiprecision_add a b in
      if negb (carrier =? 0) then (multiprecision_sub c modp).1
      else if 0 <=? multiprecision_compare c modp then (multiprecision_sub c modp).1 else c
  | None => c
  end.

Definition multiprecision_sub_mod (c a b : list Z) : list Z :=
  match modulus (length a) with
  | Some modp =>
      let '(c, borrow) := multiprecision_sub a b in
      if negb (borrow =? 0) then (multiprecision_add c modp).1 else c
  | None => c
  end.

(** For the key length of P-256, the only one of the callers. *)
Definition multiprecision_mersenns_mult_mod (junk a b : list Z) : outcome (list Z) :=
  multiprecision_fast_mod_P256 (multiprecision_mult junk a b).
Definition multiprecision_mersenns_squa_mod (junk a : list Z) : outcome (list Z) :=
  multiprecision_mersenns_mult_mod junk a a.

(** ** The inverse *)

Definition even (a : list Z) : bool := match a with x :: _ => Z.land x 1 =? 0 | [] => false end.

(** Half of [A], or of [A + p]: the carry of the sum goes to the top bit. *)
Definition half_mod (modp A : list Z) : list Z :=
  if even A then multiprecision_rshift A
  else
    let '(A, top) := multiprecision_add A modp in
    let A := multiprecision_rshift A in
    match reverse A with w :: r => reverse (Z.lor w (u32 (Z.shiftl top 31)) :: r) | [] => [] end.

(** [while (!(u[0] & 0x01))] with its coefficient. *)
Fixpoint halve (k : nat) (modp u A : list Z) : outcome (list Z * list Z) :=
  if even u then
    match k with
    | O => Fault OutOfFuel
    | S k => halve k modp (multiprecision_rshift u) (half_mod modp A)
    end
  else Ok (u, A).

Fixpoint inv_loop (k : nat) (modp u v A C : list Z) : outcome (list Z) :=
  if multiprecision_iszero u then Ok C
  else
    match k with
    | O => Fault OutOfFuel
    | S k =>
        '(u, A) ← halve k modp u A;
        '(v, C) ← halve k modp v C;
        if 0 <=? multiprecision_compare u v then
          inv_loop k modp (multiprecision_sub u v).1 v (multiprecision_sub_mod A A C) C
        else
          inv_loop k modp u (multiprecision_sub v u).1 A (multiprecision_sub_mod C C A)
    end.

Definition multiprecision_inv_mod (rounds : nat) (u : list Z) : outcome (list Z) :=
  let modp := if (length u =? KEY_LENGTH_DWORDS_P256)%nat then curve_p256_p else curve_p in
  C ← inv_loop rounds modp u modp (1 :: replicate (length u - 1) 0) (multiprecision_init (length u));
  if 0 <=? multiprecision_compare C modp then Ok (multiprecision_sub C modp).1 else Ok C.

(** ** Examples *)

(** The words of a number. *)
Fixpoint words (n : nat) (z : Z) : list Z :=
  match n with O => [] | S n => z mod 4294967296 :: words n (z / 4294967296) end.
Fixpoint value (a : list Z) : Z := match a with [] => 0 | x :: a => x + 4294967296 * value a end.
