(* ===== verification/MultiPrecisionProofs.v ===== *)
(** * The pairing arithmetic computes with integers

    The arrays of [MultiPrecision] as integers: sums, differences, shifts and
    products are exact with their carries, the modular operations keep the
    residues, and the reduction of a product is right on the inputs that its
    borrows cover and wrong on others. *)

From S2P Require Import Prelude MultiPrecision.

#[local] Abbreviation W := 4294967296.

Definition is_word (x : Z) : Prop := 0 ≤ x < W.
Abbreviation words_ok := (Forall is_word).

(** [2^(32 n)]. *)
Definition weight (n : nat) : Z := W ^ Z.of_nat n.
Lemma weight_S n : weight (S n) = W * weight n.
Proof. unfold weight. rewrite Nat2Z.inj_succ, Z.pow_succ_r by lia. done. Qed.
Lemma weight_pos n : 0 < weight n.
Proof. unfold weight. lia. Qed.

(** ** Values *)

Lemma value_range a : words_ok a → 0 ≤ value a < weight (length a).
Proof.
  induction 1 as [|x a Hx _ IH]; [done|]. cbn [value length]. rewrite weight_S. unfold is_word in *. lia.
Qed.

Lemma value_app a b : value (a ++ b) = value a + weight (length a) * value b.
Proof.
  induction a as [|x a IH]; cbn [value app length]; [change (weight 0) with 1; lia|].
  rewrite IH, weight_S. lia.
Qed.

Lemma words_length n z : length (words n z) = n.
Proof. revert z. induction n as [|n IH]; intros z; cbn; [done|by rewrite IH]. Qed.
Lemma words_words_ok n z : words_ok (words n z).
Proof.
  revert z. induction n as [|n IH]; intros z; cbn; constructor; [|done].
  apply Z.mod_pos_bound. lia.
Qed.
Lemma value_words n z : value (words n z) = z mod weight n.
Proof.
  revert z. induction n as [|n IH]; intros z; cbn [words value]; [by rewrite Z.mod_1_r|].
  rewrite IH, weight_S, Z.rem_mul_r; [done|lia|]. apply weight_pos.
Qed.

Lemma value_inj a b : words_ok a → words_ok b → length a = length b → value a = value b → a = b.
Proof.
  intros Ha. revert b. induction Ha as [|x a Hx Ha IH]; intros [|y b] Hb Hl Hv; try done.
  apply Forall_cons_1 in Hb as [Hy Hb]. cbn [value] in Hv. unfold is_word in *.
  assert (x = y) as -> by (apply (f_equal (λ z, z mod W)) in Hv; rewrite !(Z.mul_comm W), !Z.mod_add, !Z.mod_small in Hv by lia; done).
  f_equal. apply IH; [done|by injection Hl|lia].
Qed.

Lemma iszero_value a : words_ok a → multiprecision_iszero a = (value a =? 0).
Proof.
  induction 1 as [|x a Hx Ha IH]; [done|]. cbn [multiprecision_iszero value]. pose proof (value_range a Ha).
  unfold is_word in *. destruct (Z.eqb_spec x 0) as [->|]; cbn [negb].
  - rewrite IH. destruct (Z.eqb_spec (value a) 0), (Z.eqb_spec (0 + W * value a) 0); lia.
  - symmetry. apply Z.eqb_neq. lia.
Qed.

Lemma init_value n : value (multiprecision_init n) = 0.
Proof.
  unfold multiprecision_init. induction n as [|n IH]; [done|]. cbn [replicate value]. lia.
Qed.
Lemma init_words n : words_ok (multiprecision_init n).
Proof. apply Forall_replicate. done. Qed.

(** Arrays from the most significant word down. *)
Lemma compare_down_value a b : words_ok a → words_ok b → length a = length b →
  compare_down a b = match value (reverse a) ?= value (reverse b) with Gt => 1 | Lt => -1 | Eq => 0 end.
Proof.
  intros Ha. revert b. induction Ha as [|x a Hx Ha IH]; intros [|y b] Hb Hl; try done.
  apply Forall_cons_1 in Hb as [Hy Hb]. injection Hl as Hl. cbn [compare_down].
  rewrite !reverse_cons, !value_app, !length_reverse, Hl. cbn [value].
  pose proof (value_range (reverse a) ltac:(by apply Forall_reverse)) as Va.
  pose proof (value_range (reverse b) ltac:(by apply Forall_reverse)) as Vb.
  rewrite length_reverse in Va, Vb. rewrite Hl in Va. set (w := weight (length b)) in *.
  unfold is_word in *.
  destruct (Z.ltb_spec y x); [|destruct (Z.ltb_spec x y)].
  - destruct (Z.compare_spec (value (reverse a) + w * (x + W * 0)) (value (reverse b) + w * (y + W * 0))); nia.
  - destruct (Z.compare_spec (value (reverse a) + w * (x + W * 0)) (value (reverse b) + w * (y + W * 0))); nia.
  - assert (x = y) as -> by lia. rewrite !(Z.add_comm (value (reverse _))), Z.add_compare_mono_l. by apply IH.
Qed.

Lemma compare_value a b : words_ok a → words_ok b → length a = length b →
  multiprecision_compare a b = match value a ?= value b with Gt => 1 | Lt => -1 | Eq => 0 end.
Proof.
  intros Ha Hb Hl. unfold multiprecision_compare. rewrite compare_down_value.
  - by rewrite !reverse_involutive.
  - by apply Forall_reverse.
  - by apply Forall_reverse.
  - by rewrite !length_reverse.
Qed.

Lemma compare_ge a b : words_ok a → words_ok b → length a = length b →
  (0 <=? multiprecision_compare a b) = (value b <=? value a).
Proof. intros. rewrite compare_value by done. unfold Z.leb at 2. rewrite (Z.compare_antisym (value a)). by destruct (_ ?= _). Qed.

(** ** Sums and differences *)

Lemma u32_word z : is_word (u32 z).
Proof. apply Z.mod_pos_bound. lia. Qed.
Lemma u32_div z : z = u32 z + W * (z / W).
Proof. unfold u32. pose proof (Z.div_mod z W). lia. Qed.

Lemma lor_b2z p q : Z.lor (b2z p) (b2z q) = b2z (p || q).
Proof. by destruct p, q. Qed.

(** One word of a sum, and of a difference, with its carry. *)
Lemma add_word x y c : is_word x → is_word y → 0 ≤ c ≤ 1 →
  let t := u32 (x + c) in let s := u32 (t + y) in
  let c' := Z.lor (b2z (t <? c)) (b2z (s <? y)) in
  is_word s ∧ 0 ≤ c' ≤ 1 ∧ s + W * c' = x + y + c.
Proof.
  unfold is_word, u32. cbv zeta. rewrite lor_b2z. intros Hx Hy Hc.
  destruct (Z.ltb_spec ((x + c) mod W) c), (Z.ltb_spec (((x + c) mod W + y) mod W) y); cbn [b2z orb]; Z.div_mod_to_equations; lia.
Qed.

Lemma sub_word x y c : is_word x → is_word y → 0 ≤ c ≤ 1 →
  let t := u32 (x - c) in let s := u32 (t - y) in
  let c' := Z.lor (b2z (x <? t)) (b2z (t <? s)) in
  is_word s ∧ 0 ≤ c' ≤ 1 ∧ s - W * c' = x - y - c.
Proof.
  unfold is_word, u32. cbv zeta. rewrite lor_b2z. intros Hx Hy Hc.
  destruct (Z.ltb_spec x ((x - c) mod W)), (Z.ltb_spec ((x - c) mod W) (((x - c) mod W - y) mod W)); cbn [b2z orb]; Z.div_mod_to_equations; lia.
Qed.

Lemma add_loop_value a b c : words_ok a → words_ok b → length a = length b → 0 ≤ c ≤ 1 →
  let '(s, c') := add_loop c a b in
  words_ok s ∧ length s = length a ∧ 0 ≤ c' ≤ 1 ∧ value s + weight (length a) * c' = value a + value b + c.
Proof.
  intros Ha. revert b c. induction Ha as [|x a Hx Ha IH]; intros [|y b] c Hb Hl Hc; try done.
  { cbn [add_loop]. split_and!; [done|done|lia|lia|]. cbn [value length]. change (weight 0) with 1. lia. }
  apply Forall_cons_1 in Hb as [Hy Hb]. cbn [add_loop]. cbv zeta.
  destruct (add_word x y c Hx Hy Hc) as (Hs & Hc' & E).
  specialize (IH b _ Hb (eq_add_S _ _ Hl) Hc'). destruct (add_loop _ a b) as [s c'].
  destruct IH as (Hw & Hls & Hc2 & Ev). split_and!; [by constructor|cbn; lia|lia|lia|].
  cbn [value length]. rewrite weight_S. lia.
Qed.

Lemma sub_loop_value a b c : words_ok a → words_ok b → length a = length b → 0 ≤ c ≤ 1 →
  let '(s, c') := sub_loop c a b in
  words_ok s ∧ length s = length a ∧ 0 ≤ c' ≤ 1 ∧ value s - weight (length a) * c' = value a - value b - c.
Proof.
  intros Ha. revert b c. induction Ha as [|x a Hx Ha IH]; intros [|y b] c Hb Hl Hc; try done.
  { cbn [sub_loop]. split_and!; [done|done|lia|lia|]. cbn [value length]. change (weight 0) with 1. lia. }
  apply Forall_cons_1 in Hb as [Hy Hb]. cbn [sub_loop]. cbv zeta.
  destruct (sub_word x y c Hx Hy Hc) as (Hs & Hc' & E).
  specialize (IH b _ Hb (eq_add_S _ _ Hl) Hc'). destruct (sub_loop _ a b) as [s c'].
  destruct IH as (Hw & Hls & Hc2 & Ev). split_and!; [by constructor|cbn; lia|lia|lia|].
  cbn [value length]. rewrite weight_S. lia.
Qed.

Lemma add_value a b : words_ok a → words_ok b → length a = length b →
  let '(s, c) := multiprecision_add a b in
  words_ok s ∧ length s = length a ∧ 0 ≤ c ≤ 1 ∧ value s + weight (length a) * c = value a + value b.
Proof.
  intros Ha Hb Hl. pose proof (add_loop_value a b 0 Ha Hb Hl ltac:(lia)) as H. unfold multiprecision_add.
  destruct (add_loop 0 a b) as [s c]. by rewrite Z.add_0_r in H.
Qed.

Lemma sub_value a b : words_ok a → words_ok b → length a = length b →
  let '(s, c) := multiprecision_sub a b in
  words_ok s ∧ length s = length a ∧ 0 ≤ c ≤ 1 ∧ value s - weight (length a) * c = value a - value b.
Proof.
  intros Ha Hb Hl. pose proof (sub_loop_value a b 0 Ha Hb Hl ltac:(lia)) as H. unfold multiprecision_sub.
  destruct (sub_loop 0 a b) as [s c]. by rewrite Z.sub_0_r in H.
Qed.

(** A difference without its borrow. *)
Lemma sub_wraps a b : words_ok a → words_ok b → length a = length b →
  words_ok (multiprecision_sub a b).1 ∧ length (multiprecision_sub a b).1 = length a ∧
  value (multiprecision_sub a b).1 = (value a - value b) mod weight (length a).
Proof.
  intros Ha Hb Hl. pose proof (sub_value a b Ha Hb Hl) as H.
  destruct (multiprecision_sub a b) as [s c]. destruct H as (Hw & Hls & Hc & E). split_and!; [done|done|].
  pose proof (value_range s Hw) as Hr. cbn [fst]. rewrite Hls in Hr.
  apply (Z.mod_unique_pos _ _ (- c)); lia.
Qed.
Lemma add_wraps a b : words_ok a → words_ok b → length a = length b →
  words_ok (multiprecision_add a b).1 ∧ length (multiprecision_add a b).1 = length a ∧
  value (multiprecision_add a b).1 = (value a + value b) mod weight (length a).
Proof.
  intros Ha Hb Hl. pose proof (add_value a b Ha Hb Hl) as H.
  destruct (multiprecision_add a b) as [s c]. destruct H as (Hw & Hls & Hc & E). split_and!; [done|done|].
  pose proof (value_range s Hw) as Hr. cbn [fst]. rewrite Hls in Hr.
  apply (Z.mod_unique_pos _ _ c); lia.
Qed.

(** ** Shifts *)

(** Disjoint bits. *)
Lemma lor_disjoint n a b : 0 ≤ n → 0 ≤ b < 2 ^ n → Z.lor (a * 2 ^ n) b = a * 2 ^ n + b.
Proof.
  intros Hn Hb. rewrite <- Z.lxor_lor, Z.add_nocarry_lxor; try done; apply Z.bits_inj'; intros i Hi;
    rewrite Z.land_spec, Z.bits_0, Z.mul_pow2_bits by lia;
    (destruct (Z.ltb_spec i n); [by rewrite Z.testbit_neg_r by lia|];
     apply andb_false_iff; right; destruct (decide (b = 0)) as [->|]; [by rewrite Z.testbit_0_l|];
     apply Z.bits_above_log2; [lia|]; apply Z.lt_le_trans with n; [|lia]; apply Z.log2_lt_pow2; lia).
Qed.

Lemma lshift_word x c : is_word x → 0 ≤ c ≤ 1 →
  is_word (Z.lor (u32 (Z.shiftl x 1)) c) ∧ 0 ≤ Z.shiftr x 31 ≤ 1 ∧
  Z.lor (u32 (Z.shiftl x 1)) c + W * Z.shiftr x 31 = 2 * x + c.
Proof.
  unfold is_word, u32. intros Hx Hc. rewrite Z.shiftl_mul_pow2, Z.shiftr_div_pow2 by lia.
  change (2 ^ 1) with 2. change (2 ^ 31) with 2147483648.
  assert (E : (x * 2) mod W = (x mod 2147483648) * 2 ^ 1).
  { change W with (2147483648 * 2). rewrite Z.mul_mod_distr_r by lia. done. }
  rewrite E, lor_disjoint by lia. Z.div_mod_to_equations. lia.
Qed.

Lemma lshift_loop_value a c : words_ok a → 0 ≤ c ≤ 1 →
  let '(s, c') := lshift_loop c a in
  words_ok s ∧ length s = length a ∧ 0 ≤ c' ≤ 1 ∧ value s + weight (length a) * c' = 2 * value a + c.
Proof.
  intros Ha. revert c. induction Ha as [|x a Hx Ha IH]; intros c Hc.
  { cbn [lshift_loop]. split_and!; [done|done|lia|lia|]. cbn [value length]. change (weight 0) with 1. lia. }
  cbn [lshift_loop]. cbv zeta. destruct (lshift_word x c Hx Hc) as (Hs & Hc' & E).
  specialize (IH _ Hc'). destruct (lshift_loop _ a) as [s c'].
  destruct IH as (Hw & Hls & Hc2 & Ev). split_and!; [by constructor|cbn; lia|lia|lia|].
  cbn [value length]. rewrite weight_S. lia.
Qed.

Lemma lshift_value a : words_ok a →
  let '(s, c) := multiprecision_lshift a in
  words_ok s ∧ length s = length a ∧ 0 ≤ c ≤ 1 ∧ value s + weight (length a) * c = 2 * value a.
Proof.
  intros Ha. pose proof (lshift_loop_value a 0 Ha ltac:(lia)) as H. unfold multiprecision_lshift.
  destruct (lshift_loop 0 a) as [s c]. by rewrite Z.add_0_r in H.
Qed.

Lemma rshift_word x c : is_word x → c = 0 ∨ c = 2147483648 →
  is_word (Z.lor (Z.shiftr x 1) c) ∧ Z.lor (Z.shiftr x 1) c = x / 2 + c ∧
  u32 (Z.shiftl x 31) = 2147483648 * (x mod 2).
Proof.
  unfold is_word, u32. intros Hx Hc. rewrite Z.shiftl_mul_pow2, Z.shiftr_div_pow2 by lia.
  change (2 ^ 1) with 2. change (2 ^ 31) with 2147483648.
  assert (E : Z.lor (x / 2) c = x / 2 + c).
  { rewrite Z.lor_comm. destruct Hc as [-> | ->]; [by rewrite Z.lor_0_l, Z.add_0_r|].
    change 2147483648 with (1 * 2 ^ 31) at 1. rewrite lor_disjoint; [lia|lia|].
    change (2 ^ 31) with 2147483648. Z.div_mod_to_equations. lia. }
  rewrite E. split_and!; [Z.div_mod_to_equations; lia..|done|].
  change W with (2 * 2147483648). rewrite Z.mul_mod_distr_r by lia. lia.
Qed.

(** A shift to the right halves the number; [c] is the bit that is shifted in. *)
Lemma rshift_down_value a c : words_ok a → c = 0 ∨ c = 2147483648 →
  let s := rshift_down c a in
  words_ok s ∧ length s = length a ∧
  value (reverse s) = (value (reverse a) + c / 2147483648 * weight (length a)) / 2.
Proof.
  intros Ha. revert c. induction Ha as [|x a Hx Ha IH]; intros c Hc; cbn [rshift_down].
  { cbv zeta. split_and!; [done|done|]. cbn. by destruct Hc as [-> | ->]. }
  destruct (rshift_word x c Hx Hc) as (Hw & E & Ec).
  destruct (IH (u32 (Z.shiftl x 31))) as (Hs & Hl & Ev); [rewrite Ec; pose proof (Z.mod_pos_bound x 2); lia|].
  cbv zeta. split_and!; [by constructor|cbn; lia|].
  rewrite !reverse_cons, !value_app, !length_reverse, Hl, Ev, E, Ec. cbn [value length]. rewrite weight_S.
  set (w := weight (length a)) in *. set (v := value (reverse a)).
  replace (2147483648 * (x mod 2) / 2147483648) with (x mod 2) by (rewrite Z.mul_comm, Z.div_mul; lia).
  pose proof (Z.div_mod x 2 ltac:(lia)) as Ex.
  replace (v + w * (x + W * 0) + c / 2147483648 * (W * w)) with ((v + x mod 2 * w) + (w * (x / 2 + c)) * 2).
  2: { destruct Hc as [-> | ->]; [change (0 / 2147483648) with 0|change (2147483648 / 2147483648) with 1]; nia. }
  rewrite Z.div_add by lia. lia.
Qed.

Lemma rshift_value a : words_ok a →
  words_ok (multiprecision_rshift a) ∧ length (multiprecision_rshift a) = length a ∧
  value (multiprecision_rshift a) = value a / 2.
Proof.
  intros Ha. unfold multiprecision_rshift.
  destruct (rshift_down_value (reverse a) 0) as (Hw & Hl & Hv); [by apply Forall_reverse|by left|].
  split_and!; [by apply Forall_reverse|by rewrite length_reverse, Hl, length_reverse|].
  rewrite Hv, reverse_involutive. change (0 / 2147483648) with 0. f_equal. lia.
Qed.

Lemma even_value a : words_ok a → a ≠ [] → even a = Z.even (value a).
Proof.
  intros Ha Hne. destruct a as [|x a]; [done|]. cbn [even value]. change 1 with (Z.ones 1). rewrite Z.land_ones by lia.
  change (2 ^ 1) with 2. rewrite Z.even_add, Z.even_mul, Zmod_even. change (Z.even W) with true. cbn [orb].
  by destruct (Z.even x).
Qed.

(** ** Products *)

Lemma mult_word x y z U : is_word x → is_word y → is_word z → is_word U →
  let W' := Z.shiftr (x * y) 32 in
  let V := u32 (x * y) in let V := u32 (V + U) in
  let U := u32 (b2z (V <? U) + W') in
  let V := u32 (V + z) in let U := u32 (U + b2z (V <? z)) in
  is_word V ∧ is_word U.
Proof. intros. cbv zeta. split; apply u32_word. Qed.

Lemma mult_word_value x y z U : is_word x → is_word y → is_word z → is_word U →
  let W' := Z.shiftr (x * y) 32 in
  let V0 := u32 (u32 (x * y) + U) in
  let U1 := u32 (b2z (V0 <? U) + W') in
  let V := u32 (V0 + z) in
  V + W * u32 (U1 + b2z (V <? z)) = x * y + z + U.
Proof.
  unfold is_word. intros Hx Hy Hz HU. cbv zeta. rewrite Z.shiftr_div_pow2 by lia. change (2 ^ 32) with W.
  assert (Hxy : 0 ≤ x * y ≤ (W - 1) * (W - 1)) by nia.
  set (p := x * y) in *. clearbody p. unfold u32. pose proof (Z.div_mod p W ltac:(lia)) as Ep.
  pose proof (Z.mod_pos_bound p W ltac:(lia)) as Hr. set (r := p mod W) in *. set (q := p / W) in *. clearbody r q.
  assert (Hq : 0 ≤ q ≤ W - 2) by lia.
  assert (H1 : (r + U) mod W + W * b2z ((r + U) mod W <? U) = r + U).
  { destruct (Z.ltb_spec ((r + U) mod W) U); cbn [b2z]; Z.div_mod_to_equations; lia. }
  set (V0 := (r + U) mod W) in *. assert (HV : 0 ≤ V0 < W) by (by apply Z.mod_pos_bound).
  assert (H2 : (V0 + z) mod W + W * b2z ((V0 + z) mod W <? z) = V0 + z).
  { clearbody V0. destruct (Z.ltb_spec ((V0 + z) mod W) z); cbn [b2z]; Z.div_mod_to_equations; lia. }
  assert (H3 : 0 ≤ (V0 + z) mod W < W) by (by apply Z.mod_pos_bound).
  assert (Hb : ∀ b, 0 ≤ b2z b ≤ 1) by (by intros []). pose proof (Hb (V0 <? U)). pose proof (Hb ((V0 + z) mod W <? z)).
  rewrite (Z.mod_small (b2z (V0 <? U) + q)) by lia.
  rewrite (Z.mod_small (b2z (V0 <? U) + q + _)) by lia. lia.
Qed.

Lemma mult_row_value x U b c : is_word x → is_word U → words_ok b → words_ok c → (length b < length c)%nat →
  let r := mult_row x U b c in
  words_ok r ∧ length r = length c ∧
  value (take (S (length b)) r) = value (take (length b) c) + x * value b + U ∧
  drop (S (length b)) r = drop (S (length b)) c.
Proof.
  intros Hx HU Hb. revert U c HU. induction Hb as [|y b Hy Hb IH]; intros U [|z c] HU Hc Hl; cbn [length] in *; try lia.
  { apply Forall_cons_1 in Hc as [Hz Hc]. cbn [mult_row]. rewrite firstn_cons, !take_0.
    split_and!; [by constructor|done|cbn [value]; lia|done]. }
  apply Forall_cons_1 in Hc as [Hz Hc]. cbn [mult_row]. cbv zeta.
  pose proof (mult_word_value x y z U Hx Hy Hz HU) as E. cbv zeta in E.
  set (V0 := u32 (u32 (x * y) + U)) in *. set (U1 := u32 (u32 (b2z (V0 <? U) + Z.shiftr (x * y) 32) + _)) in *.
  destruct (IH U1 c (u32_word _) Hc ltac:(lia)) as (Hw & Hlr & Hv & Hd).
  split_and!; [constructor; [apply u32_word|done]|cbn; lia| |exact Hd].
  rewrite !firstn_cons. cbn [value]. rewrite Hv. nia.
Qed.


(** The words above the product are overwritten, so only the window of the row
    counts. *)
Lemma mult_loop_value a b c : words_ok a → words_ok b → words_ok c → (length a + length b = length c)%nat →
  words_ok (mult_loop a b c) ∧ length (mult_loop a b c) = length c ∧
  value (mult_loop a b c) = value (take (length b) c) + value a * value b.
Proof.
  intros Ha Hb. revert c. induction Ha as [|x a Hx Ha IH]; intros c Hc Hl; cbn [length mult_loop] in *.
  { split_and!; [done|done|]. rewrite take_ge by lia. cbn [value]. lia. }
  destruct (mult_row_value x 0 b c) as (Hw & Hlr & Hv & Hd); [done..|lia|].
  destruct (mult_row x 0 b c) as [|z r]; [cbn in Hlr; lia|]. apply Forall_cons_1 in Hw as [Hz Hr].
  cbn [length] in Hlr. rewrite firstn_cons in Hv. cbn [value] in Hv.
  destruct (IH r Hr ltac:(lia)) as (Hw' & Hl' & Hv').
  split_and!; [by constructor|cbn; lia|]. cbn [value]. rewrite Hv'. nia.
Qed.

Lemma mult_value junk a b : words_ok junk → words_ok a → words_ok b → length b = length a → length junk = length a →
  let c := multiprecision_mult junk a b in
  words_ok c ∧ length c = (2 * length a)%nat ∧ value c = value a * value b.
Proof.
  intros Hj Ha Hb Hlb Hlj. unfold multiprecision_mult, multiprecision_init.
  destruct (mult_loop_value a b (replicate (length a) 0 ++ junk) Ha Hb) as (Hw & Hl & Hv).
  - apply Forall_app. split; [by apply Forall_replicate|done].
  - rewrite length_app, length_replicate. lia.
  - rewrite length_app, length_replicate in Hl. cbv zeta. split_and!; [done|lia|]. rewrite Hv.
    rewrite take_app_length' by (rewrite length_replicate; lia).
    pose proof (init_value (length a)) as E. unfold multiprecision_init in E. rewrite E. lia.
Qed.

(** ** The prime *)

Definition p256 : Z := 2 ^ 256 - 2 ^ 224 + 2 ^ 192 + 2 ^ 96 - 1.
Lemma curve_value : value curve_p256_p = p256.
Proof. by vm_compute. Qed.
Lemma curve_words : words_ok curve_p256_p.
Proof. decide_vm. Qed.
Lemma modulus_P256 : modulus 8 = Some curve_p256_p.
Proof. done. Qed.
Lemma weight_8 : weight 8 = 2 ^ 256.
Proof. by vm_compute. Qed.
Lemma p256_bounds : 2 ^ 255 < p256 < 2 ^ 256.
Proof. by vm_compute. Qed.

(** A residue: eight words whose number is below the prime. *)
Record residue (a : list Z) : Prop := {
  res_words : words_ok a;
  res_length : length a = 8%nat;
  res_value : 0 ≤ value a < p256 }.

Lemma sub_if_ge_value c : words_ok c → length c = 8%nat → 
  residue (sub_if_ge c) ∧ value (sub_if_ge c) = value c mod p256.
Proof.
  intros Hc Hl. pose proof (value_range c Hc) as Hr. rewrite Hl, weight_8 in Hr. pose proof p256_bounds as Hp.
  unfold sub_if_ge, sub_p. rewrite compare_ge by (done || apply curve_words). rewrite curve_value.
  destruct (Z.leb_spec p256 (value c)) as [Hge|Hlt].
  - destruct (sub_wraps c curve_p256_p Hc curve_words Hl) as (Hw & Hls & Hv).
    rewrite Hl, weight_8, curve_value, Z.mod_small in Hv by lia.
    split; [split; [done|congruence|lia]|]. rewrite Hv. apply (Z.mod_unique_pos _ _ 1); lia.
  - split; [split; [done|done|lia]|]. rewrite Z.mod_small; [done|lia].
Qed.

(** ** The reduction of a product *)

(** A word and a count of carries stand for a number. *)
Definition counts (wrap : Z → Z) (su : Z * Z) (v : Z) : Prop :=
  is_word su.1 ∧ ∃ k, su.2 = wrap k ∧ v = su.1 + W * k.

(** Wrapping around commutes with the counting. *)
Definition wraps (wrap : Z → Z) : Prop := ∀ k d, wrap (wrap k + d) = wrap (k + d).
Lemma u32_wraps : wraps u32.
Proof. intros k d. unfold u32. by rewrite Z.add_mod_idemp_l by lia. Qed.
Lemma u8_wraps : wraps u8.
Proof. intros k d. unfold u8. by rewrite Z.add_mod_idemp_l by lia. Qed.

Lemma plus_counts wrap x su v : wraps wrap → is_word x → counts wrap su v → counts wrap (plus wrap x su) (v + x).
Proof.
  intros Hw Hx [Hs (k & Ek & ->)]. destruct su as [s u]. cbn [fst snd] in *. subst u. unfold plus. cbn [fst snd].
  split; [apply u32_word|]. exists (k + b2z (u32 (s + x) <? x)). cbn [fst snd]. split; [apply Hw|].
  unfold is_word, u32 in *. destruct (Z.ltb_spec ((s + x) mod W) x); cbn [b2z]; Z.div_mod_to_equations; lia.
Qed.

Lemma minus_counts wrap x su v : wraps wrap → is_word x → counts wrap su v → counts wrap (minus wrap x su) (v - x).
Proof.
  intros Hw Hx [Hs (k & Ek & ->)]. destruct su as [s u]. cbn [fst snd] in *. subst u. unfold minus. cbn [fst snd].
  split; [apply u32_word|]. exists (k - b2z (s <? x)). cbn [fst snd]. split; [apply (Hw k (- _))|].
  unfold is_word, u32 in *. destruct (Z.ltb_spec s x); cbn [b2z]; Z.div_mod_to_equations; lia.
Qed.

Lemma carries_counts d su v : counts u32 su v → counts u32 (carries d su) (v + W * d).
Proof.
  intros [Hs (k & Ek & ->)]. split; [done|]. exists (k + d). cbn [carries snd fst]. rewrite Ek. split; [apply u32_wraps|lia].
Qed.
Lemma uncarries_counts d su v : counts u32 su v → counts u32 (uncarries d su) (v - W * d).
Proof.
  intros [Hs (k & Ek & ->)]. split; [done|]. exists (k - d). cbn [uncarries snd fst]. rewrite Ek.
  split; [apply (u32_wraps k (- d))|lia].
Qed.

Lemma start_counts wrap x : is_word x → wrap 0 = 0 → counts wrap (x, 0) x.
Proof. intros Hx H0. split; [done|]. exists 0. cbn. split; [done|lia]. Qed.

(** The count of a small sum is the count itself. *)
Lemma counts_u8 su v : counts u8 su v → 0 ≤ v < 256 * W → is_word su.1 ∧ 0 ≤ su.2 ∧ su.1 + W * su.2 = v.
Proof.
  intros [Hs (k & Ek & ->)] Hv. unfold is_word in *. assert (0 ≤ k < 256) by lia.
  rewrite Ek. unfold u8. rewrite Z.mod_small by lia. lia.
Qed.

Lemma land_pow2 a n : 0 ≤ n → Z.land a (2 ^ n) = if Z.testbit a n then 2 ^ n else 0.
Proof.
  intros Hn. apply Z.bits_inj'. intros i Hi. rewrite Z.land_spec, Z.pow2_bits_eqb by lia.
  destruct (Z.eqb_spec n i) as [<-|Hne].
  - rewrite andb_true_r. destruct (Z.testbit a n); [by rewrite Z.pow2_bits_true|by rewrite Z.testbit_0_l].
  - rewrite andb_false_r. destruct (Z.testbit a n); [by rewrite Z.pow2_bits_false|by rewrite Z.testbit_0_l].
Qed.

Lemma top_bit U : is_word U → (Z.land U 2147483648 =? 0) = (U <? 2147483648).
Proof.
  intros HU. unfold is_word in *. change 2147483648 with (2 ^ 31). rewrite land_pow2 by lia.
  rewrite Z.testbit_odd, Z.shiftr_div_pow2 by lia. change (2 ^ 31) with 2147483648.
  destruct (Z.ltb_spec U 2147483648).
  - by rewrite Z.div_small by lia.
  - by replace (U / 2147483648) with 1 by (apply Z.div_unique_pos with (U - 2147483648); lia).
Qed.

(** A small signed number in a word. *)
Lemma u32_signed k : -2147483648 ≤ k < 2147483648 →
  if 0 <=? k then u32 k = k ∧ u32 k < 2147483648 else u32 k = W + k ∧ 2147483648 ≤ u32 k.
Proof.
  intros Hk. unfold u32. destruct (Z.leb_spec 0 k).
  - rewrite Z.mod_small by lia. lia.
  - assert (E : k mod W = W + k) by (symmetry; apply (Z.mod_unique_pos k W (-1)); lia). rewrite E. lia.
Qed.

(** What the word [a] counts too much after the signed carry [k]: when it is
    smaller than the borrow, its own borrow is taken as a carry. *)
Definition miscount_of (a k : Z) : Z := if a + k <? 0 then 2 * W else 0.

Lemma miscount_of_range a k : 0 ≤ miscount_of a k ≤ 2 * W.
Proof. unfold miscount_of. destruct (_ <? _); lia. Qed.

Lemma next_word_counts a k : is_word a → -16 ≤ k < 2147483648 →
  counts u32 (next_word a (u32 k)) (a + k + miscount_of a k).
Proof.
  intros Ha Hk. unfold next_word, miscount_of. rewrite top_bit by apply u32_word.
  pose proof (u32_signed k ltac:(lia)) as E. unfold is_word in *. destruct (Z.leb_spec 0 k); destruct E as [E Eb].
  - rewrite (proj2 (Z.ltb_lt _ _)) by done. cbn [negb]. rewrite E, (proj2 (Z.ltb_ge (a + k) 0)) by lia. split; [apply u32_word|].
    exists (b2z (u32 (a + k) <? a)). cbn [fst snd]. unfold u32.
    destruct (Z.ltb_spec ((a + k) mod W) a); cbn [b2z]; (split; [done|]); Z.div_mod_to_equations; lia.
  - rewrite (proj2 (Z.ltb_ge _ _)) by done. cbn [negb]. rewrite E.
    assert (E0 : u32 (0 - (W + k)) = - k) by (symmetry; apply (Z.mod_unique_pos _ W (-1)); lia).
    rewrite E0. split; [apply u32_word|]. exists (b2z (a <? - k)). cbn [fst snd]. split; [by destruct (a <? - k)|].
    destruct (Z.ltb_spec a (- k)) as [Hl|Hl]; cbn [b2z]; unfold u32.
    + rewrite (proj2 (Z.ltb_lt (a + k) 0)) by lia. rewrite <- (Z.mod_unique_pos (a - - k) W (-1) (a + k + W)); lia.
    + rewrite (proj2 (Z.ltb_ge (a + k) 0)) by lia. rewrite Z.mod_small; lia.
Qed.

(** The sums of words that the reduction computes for the eight words of its
    result, numbers that may be negative or larger than 32 bits, and the number
    they stand for. *)
Definition terms (a : list Z) : list Z :=
  match a with
  | [a0; a1; a2; a3; a4; a5; a6; a7; a8; a9; a10; a11; a12; a13; a14; a15] =>
      let A := a11 + a12 + a13 + a14 in let B := a12 + a13 + a14 + a15 in let C := a13 + a14 + a15 in
      let D := a10 + a11 + a12 + a13 in let E := a8 + a9 in let F := a9 + a10 in let G := a10 + a11 in
      [a0 + E - A; a1 + F - B; a2 + G - C; a3 + A + a11 + a12 - a14 - a15 - E; a4 + B - a15 + a12 + a13 - F;
       a5 + C + a13 + a14 - G; a6 + C + a14 + a14 + a15 - E; a7 + a15 + a15 + a15 + a8 - D]
  | _ => []
  end.
Definition folded (a : list Z) : Z := value (terms a).

(** What the words [ws], with the sums [ts], count too much together after the
    signed carry [k]. *)
Fixpoint miscount (k : Z) (ws ts : list Z) : Z :=
  match ws, ts with
  | a :: ws, t :: ts => let e := miscount_of a k in e + W * miscount ((t + k + e) / W) ws ts
  | _, _ => 0
  end.

(** The words after the first start with the carry of the word before. *)
Definition miscounted (a : list Z) : Z :=
  match a, terms a with
  | _ :: a', t :: ts => W * miscount (t / W) (take 7 a') ts
  | _, _ => 0
  end.

(** The words [cs] are the digits of the sums [ts] with the carries the code
    counts, [k] into the first one and [k'] out of the last one. *)
Fixpoint carried (k : Z) (ws ts cs : list Z) (k' : Z) : Prop :=
  match ws, ts, cs with
  | [], [], [] => k = k'
  | a :: ws, t :: ts, c :: cs => is_word c ∧ ∃ k1, t + k + miscount_of a k = c + W * k1 ∧ carried k1 ws ts cs k'
  | _, _, _ => False
  end.

Lemma carried_value k ws ts cs k' : carried k ws ts cs k' →
  value cs + weight (length cs) * k' = k + value ts + miscount k ws ts.
Proof.
  revert k ts cs. induction ws as [|a ws IH]; intros k [|t ts] [|c cs]; cbn [carried]; try done.
  - intros ->. cbn [value miscount length]. change (weight 0) with 1. lia.
  - intros (Hc & k1 & E & H). apply IH in H. unfold is_word in Hc.
    assert (Ek : (t + k + miscount_of a k) / W = k1) by (symmetry; apply (Z.div_unique_pos _ _ _ c); lia).
    cbn [value miscount length]. rewrite weight_S, Ek. lia.
Qed.

(** A word of at least 8 is larger than any borrow. *)
Lemma miscount_none k ws ts : -8 ≤ k → Forall (λ x, 8 ≤ x) ws → Forall (λ t, -4 * W ≤ t) ts → miscount k ws ts = 0.
Proof.
  intros Hk Hws. revert k ts Hk. induction Hws as [|a ws Ha _ IH]; intros k ts Hk Hts; [by destruct ts|].
  destruct Hts as [|t ts Ht Hts]; [done|]. cbn [miscount].
  assert (miscount_of a k = 0) as -> by (unfold miscount_of; rewrite (proj2 (Z.ltb_ge _ _)); lia).
  rewrite IH; [done| |done]. transitivity ((-5 * W) / W); [by vm_compute|]. apply Z.div_le_mono; lia.
Qed.

(** It is congruent to the product: each word above the eighth is a combination
    of powers of 2^32 below. *)
Lemma folded_congruent a : length a = 16%nat → folded a mod p256 = value a mod p256.
Proof.
  intros Hl. destruct a as [|a0 [|a1 [|a2 [|a3 [|a4 [|a5 [|a6 [|a7 [|a8 [|a9 [|a10 [|a11 [|a12 [|a13 [|a14 [|a15 [|? ?]]]]]]]]]]]]]]]]]; try done. clear Hl.
  unfold folded, terms. cbn [value]. unfold p256.
  set (q := a8 + 4294967297 * a9 + 18446744078004518912 * a10 + 79228162532711081667253501951 * a11 +
    340282367000166625977638945021017194495 * a12 + 1461501637671185285124623296161210883009696235519 * a13 +
    6277101736848182401166692341332123086285927382448418586623 * a14 +
    26959946673427741530053695850515137729844644212646842236464328081408 * a15).
  match goal with |- ?x mod ?m = ?y mod _ => replace y with (x + q * m) by (subst q; lia) end.
  by rewrite Z.mod_add.
Qed.

Ltac count_tac := repeat first
  [ apply plus_counts; [first [apply u32_wraps|apply u8_wraps]|first [assumption|tauto]|]
  | apply minus_counts; [first [apply u32_wraps|apply u8_wraps]|first [assumption|tauto]|]
  | apply carries_counts | apply uncarries_counts | eassumption
  | apply start_counts; [assumption|reflexivity]
  | apply next_word_counts; [assumption|lia] ].

(** The next small sum, and the next word with its carry [k]. *)
Ltac small_sum :=
  match goal with |- context [let '(_, _) := ?E in _] =>
    let H := fresh "H" in let H' := fresh "H" in
    eassert (H : counts u8 E _) by count_tac;
    assert (H' := counts_u8 _ _ H ltac:(unfold is_word in *; lia));
    destruct E; cbn [fst snd] in H' end.
Ltac word_sum :=
  match goal with |- context [uncarries ?d ?x] =>
    let H := fresh "H" in let U := fresh "U" in let k := fresh "k" in let E := fresh "E" in let Hw := fresh "Hw" in
    eassert (H : counts u32 (uncarries d x) _) by count_tac;
    destruct (uncarries d x) as [? U]; destruct H as [Hw (k & E & ?)]; cbn [fst snd] in *; subst U;
    assert (-10 ≤ k ≤ 14) by (unfold is_word in *; lia);
    try match goal with |- context [next_word ?a (u32 k)] => pose proof (miscount_of_range a k) end end.

Ltac the_carry :=
  match goal with H : _ = ?c + W * ?k |- ∃ _, _ = ?c + W * _ ∧ _ => exists k; split; [lia|] end.

(** The words of the sum and the carry out of the last one, for all products. *)
Lemma fast_mod_words_value a0 a1 a2 a3 a4 a5 a6 a7 a8 a9 a10 a11 a12 a13 a14 a15 :
  let a := [a0; a1; a2; a3; a4; a5; a6; a7; a8; a9; a10; a11; a12; a13; a14; a15] in
  words_ok a →
  let '(c, U) := fast_mod_words a0 a1 a2 a3 a4 a5 a6 a7 a8 a9 a10 a11 a12 a13 a14 a15 in
  words_ok c ∧ length c = 8%nat ∧ ∃ k, U = u32 k ∧ -16 ≤ k ≤ 16 ∧ value c + weight 8 * k = folded a + miscounted a.
Proof.
  intros a Ha. subst a. repeat match goal with H : Forall _ (_ :: _) |- _ => apply Forall_cons_1 in H as [? H] end.
  unfold fast_mod_words. do 7 small_sum.
  repeat match goal with H : counts u8 _ _ |- _ => clear H | H : _ ∧ _ |- _ => destruct H end.
  do 8 word_sum.
  split; [by rewrite !Forall_cons|]. split; [done|]. eexists. split; [done|]. split; [lia|].
  unfold folded, miscounted, terms. cbn [take].
  match goal with |- value (?w0 :: ?cs) + _ * ?k' = value (?t :: ?ts) + W * miscount _ ?ws _ =>
    assert (Hc : ∃ j0, t = w0 + W * j0 ∧ carried j0 ws ts cs k') end.
  { the_carry. cbn [carried]. repeat (split; [assumption|]; the_carry). done. }
  destruct Hc as (j0 & E0 & Hc). apply carried_value in Hc. cbn [value] in *. change (weight 8) with (W * weight 7). cbn [length] in Hc.
  match type of E0 with ?t = ?c + _ => assert (Ek : t / W = j0)
    by (symmetry; apply (Z.div_unique_pos _ _ _ c); unfold is_word in *; lia) end.
  rewrite Ek. lia.
Qed.

(** ** The reduction, and where it is right *)

#[local] Opaque p256.

Lemma add_p_value c : words_ok c → length c = 8%nat →
  words_ok (add_p c) ∧ length (add_p c) = 8%nat ∧ value (add_p c) = (value c + p256) mod 2 ^ 256.
Proof.
  intros Hc Hl. destruct (add_wraps c curve_p256_p Hc curve_words Hl) as (H1 & H2 & H3).
  rewrite curve_value, Hl, weight_8 in H3. unfold add_p. by rewrite H2.
Qed.
Lemma sub_p_value c : words_ok c → length c = 8%nat →
  words_ok (sub_p c) ∧ length (sub_p c) = 8%nat ∧ value (sub_p c) = (value c - p256) mod 2 ^ 256.
Proof.
  intros Hc Hl. destruct (sub_wraps c curve_p256_p Hc curve_words Hl) as (H1 & H2 & H3).
  rewrite curve_value, Hl, weight_8 in H3. unfold sub_p. by rewrite H2.
Qed.

(** [n] rounds of a loop that adds the multiple [d] of the prime. *)
Lemma iter_value (g : list Z → list Z) d n c : words_ok c → length c = 8%nat →
  (∀ c, words_ok c → length c = 8%nat → words_ok (g c) ∧ length (g c) = 8%nat ∧ value (g c) = (value c + d) mod 2 ^ 256) →
  words_ok (Nat.iter n g c) ∧ length (Nat.iter n g c) = 8%nat ∧
  value (Nat.iter n g c) = (value c + Z.of_nat n * d) mod 2 ^ 256.
Proof.
  intros Hc Hl Hg. induction n as [|n (H1 & H2 & H3)].
  - cbn. split_and!; [done|done|]. pose proof (value_range c Hc) as Hr. rewrite Hl, weight_8 in Hr. rewrite Z.mod_small; lia.
  - rewrite Nat.iter_succ. destruct (Hg _ H1 H2) as (G1 & G2 & G3). split_and!; [done|done|]. rewrite G3, H3, Z.add_mod_idemp_l by lia.
    by replace (value c + Z.of_nat n * d + d) with (value c + Z.of_nat (S n) * d) by lia.
Qed.

Lemma settle_value c k : words_ok c → length c = 8%nat → -16 ≤ k ≤ 16 →
  words_ok (settle (u32 k) c) ∧ length (settle (u32 k) c) = 8%nat ∧
  value (settle (u32 k) c) = (value c - k * p256) mod 2 ^ 256.
Proof.
  intros Hc Hl Hk. unfold settle. rewrite top_bit by apply u32_word.
  pose proof (u32_signed k ltac:(lia)) as E. destruct (Z.leb_spec 0 k); destruct E as [E Eb].
  - rewrite (proj2 (Z.ltb_lt _ _)) by done. cbn [negb]. rewrite E.
    destruct (iter_value sub_p (- p256) (Z.to_nat k) c Hc Hl) as (H1 & H2 & H3).
    { intros c0 H1 H2. rewrite Z.add_opp_r. by apply sub_p_value. }
    split_and!; [done|done|]. rewrite H3, Z2Nat.id by lia. by replace (value c + k * - p256) with (value c - k * p256) by ring.
  - rewrite (proj2 (Z.ltb_ge _ _)) by done. cbn [negb]. rewrite E.
    destruct (iter_value add_p p256 (Z.to_nat (W - (W + k))) c Hc Hl add_p_value) as (H1 & H2 & H3).
    split_and!; [done|done|]. rewrite H3, Z2Nat.id by lia.
    by replace (value c + (W - (W + k)) * p256) with (value c - k * p256) by ring.
Qed.

(** The sum that the code has, and the multiples of 2^256 that get lost when the
    loops add or subtract the prime once for each carry out of it: the carries of
    the additions themselves, and with a minus the borrows of the subtractions. *)
Definition summed (a : list Z) : Z := folded a + miscounted a.
Definition lost_carries (a : list Z) : Z := (summed a - summed a / 2 ^ 256 * p256) / 2 ^ 256.

(** The reduction of any product. *)
Lemma fast_mod_exact a : words_ok a → length a = 16%nat →
  ∃ r, multiprecision_fast_mod_P256 a = Ok r ∧ residue r ∧
    value r = (value a + miscounted a - 2 ^ 256 * lost_carries a) mod p256.
Proof.
  intros Ha Hl. pose proof (folded_congruent a Hl) as Hf. pose proof p256_bounds as Hp.
  destruct a as [|a0 [|a1 [|a2 [|a3 [|a4 [|a5 [|a6 [|a7 [|a8 [|a9 [|a10 [|a11 [|a12 [|a13 [|a14 [|a15 [|? ?]]]]]]]]]]]]]]]]]; try done.
  pose proof (fast_mod_words_value a0 a1 a2 a3 a4 a5 a6 a7 a8 a9 a10 a11 a12 a13 a14 a15 Ha) as Hw.
  unfold multiprecision_fast_mod_P256. destruct (fast_mod_words _ _ _ _ _ _ _ _ _ _ _ _ _ _ _ _) as [c U].
  cbv zeta in Hw. unfold lost_carries, summed. set (a := [a0; _; _; _; _; _; _; _; _; _; _; _; _; _; _; _]) in *.
  destruct Hw as (Hc & Hlc & k & -> & Hk & E). eexists. split; [done|].
  destruct (settle_value c k Hc Hlc Hk) as (S1 & S2 & S3).
  destruct (sub_if_ge_value _ S1 S2) as [R1 R2]. split; [done|]. rewrite R2, S3.
  pose proof (value_range c Hc) as Hr. rewrite Hlc, weight_8 in Hr. rewrite weight_8 in E. rewrite <- E.
  assert (Ek : (value c + 2 ^ 256 * k) / 2 ^ 256 = k) by (symmetry; apply (Z.div_unique_pos _ _ _ (value c)); lia).
  rewrite Ek. set (x := value c + 2 ^ 256 * k - k * p256). set (l := x / 2 ^ 256).
  replace (value c - k * p256) with (x + (- k) * 2 ^ 256) by (subst x; lia). rewrite Z.mod_add by lia.
  assert (El : x mod 2 ^ 256 = value c + 2 ^ 256 * k - 2 ^ 256 * l + (- k) * p256)
    by (rewrite Z.mod_eq by lia; subst x l; lia).
  rewrite El, Z.mod_add, E by lia.
  replace (folded a + miscounted a - 2 ^ 256 * l) with (folded a + (miscounted a - 2 ^ 256 * l)) by ring.
  rewrite <- Z.add_mod_idemp_l, Hf, Z.add_mod_idemp_l by lia. f_equal. ring.
Qed.

(** The products the reduction is right on: the words 1 to 7 are larger than any
    borrow, and the carry out of the sum can be settled with as many multiples of
    the prime. *)
Definition reducible (a : list Z) : Prop :=
  words_ok a ∧ length a = 16%nat ∧ Forall (λ x, 8 ≤ x) (take 7 (drop 1 a)) ∧
  0 ≤ folded a - folded a / 2 ^ 256 * p256 < 2 ^ 256.
#[export] Instance reducible_dec a : Decision (reducible a) := _.

Lemma reducible_exact a : reducible a → miscounted a = 0 ∧ lost_carries a = 0.
Proof.
  intros (Ha & Hl & H8 & Hs).
  assert (Hm : miscounted a = 0).
  { destruct a as [|a0 [|a1 [|a2 [|a3 [|a4 [|a5 [|a6 [|a7 [|a8 [|a9 [|a10 [|a11 [|a12 [|a13 [|a14 [|a15 [|? ?]]]]]]]]]]]]]]]]]; try done.
    clear Hl Hs. unfold miscounted, terms. cbn [take drop] in *.
    repeat match goal with H : words_ok (_ :: _) |- _ => apply Forall_cons_1 in H as [? H] end. unfold is_word in *.
    rewrite miscount_none; [done| |done|].
    - transitivity ((-4 * W) / W); [by vm_compute|]. apply Z.div_le_mono; lia.
    - repeat (apply Forall_cons; split; [lia|]). apply Forall_nil. done. }
  split; [done|]. unfold lost_carries, summed. rewrite Hm, Z.add_0_r. by apply Z.div_small.
Qed.

(** ** Arithmetic on residues *)

Lemma residue_value_mod a : residue a → value a mod p256 = value a.
Proof. intros []. by apply Z.mod_small. Qed.

(** A number below twice the prime, with its carry, is reduced by one
    subtraction. *)
Lemma reduce_once c carrier v : words_ok c → length c = 8%nat → 0 ≤ carrier ≤ 1 →
  value c + 2 ^ 256 * carrier = v → v < 2 * p256 →
  let r := if negb (carrier =? 0) then (multiprecision_sub c curve_p256_p).1
           else if 0 <=? multiprecision_compare c curve_p256_p then (multiprecision_sub c curve_p256_p).1 else c in
  residue r ∧ value r = v mod p256.
Proof.
  intros Hc Hl Hca Hv Hp. pose proof (value_range c Hc) as Hr. rewrite Hl, weight_8 in Hr. pose proof p256_bounds.
  destruct (Z.eqb_spec carrier 0) as [->|Hne]; cbn [negb].
  - rewrite Z.mul_0_r, Z.add_0_r in Hv. subst v. by apply sub_if_ge_value.
  - assert (carrier = 1) as -> by lia. destruct (sub_p_value c Hc Hl) as (H1 & H2 & H3). fold (sub_p c).
    assert (Ev : value (sub_p c) = v - p256).
    { rewrite H3. replace (value c - p256) with (v - p256 + (- 1) * 2 ^ 256) by lia. rewrite Z.mod_add by lia.
      apply Z.mod_small. lia. }
    split; [split; [done|done|lia]|]. rewrite Ev. apply (Z.mod_unique_pos _ _ 1); lia.
Qed.

Lemma add_mod_value c a b : residue a → residue b →
  let r := multiprecision_add_mod c a b in residue r ∧ value r = (value a + value b) mod p256.
Proof.
  intros [Ha Hla Hva] [Hb Hlb Hvb]. unfold multiprecision_add_mod. rewrite Hla, modulus_P256.
  pose proof (add_value a b Ha Hb ltac:(congruence)) as H. destruct (multiprecision_add a b) as [s t].
  destruct H as (H1 & H2 & H3 & H4). rewrite Hla in *. rewrite weight_8 in H4. apply reduce_once; solve [done|lia].
Qed.

Lemma lshift_mod_value c a : residue a →
  let r := multiprecision_lshift_mod c a in residue r ∧ value r = (2 * value a) mod p256.
Proof.
  intros [Ha Hla Hva]. unfold multiprecision_lshift_mod. rewrite Hla, modulus_P256.
  pose proof (lshift_value a Ha) as H. destruct (multiprecision_lshift a) as [s t].
  destruct H as (H1 & H2 & H3 & H4). rewrite Hla in *. rewrite weight_8 in H4. apply reduce_once; solve [done|lia].
Qed.

Lemma sub_mod_value c a b : residue a → residue b →
  let r := multiprecision_sub_mod c a b in residue r ∧ value r = (value a - value b) mod p256.
Proof.
  intros [Ha Hla Hva] [Hb Hlb Hvb]. unfold multiprecision_sub_mod. rewrite Hla, modulus_P256.
  pose proof (sub_value a b Ha Hb ltac:(congruence)) as H. destruct (multiprecision_sub a b) as [s t].
  destruct H as (H1 & H2 & H3 & H4). rewrite Hla in *. rewrite weight_8 in H4.
  pose proof (value_range s H1) as Hr. rewrite H2, weight_8 in Hr. pose proof p256_bounds.
  destruct (Z.eqb_spec t 0) as [->|Hne]; cbn [negb].
  - split; [split; [done|done|lia]|]. rewrite Z.mod_small; lia.
  - assert (t = 1) as -> by lia. destruct (add_p_value s H1 H2) as (A1 & A2 & A3). fold (add_p s).
    assert (Ev : value (add_p s) = value a - value b + p256).
    { rewrite A3. replace (value s + p256) with (value a - value b + p256 + 1 * 2 ^ 256) by lia.
      rewrite Z.mod_add by lia. apply Z.mod_small. lia. }
    split; [split; [done|done|lia]|]. rewrite Ev. apply (Z.mod_unique_pos _ _ (-1)); lia.
Qed.

(** The product of two residues, and its reduction. *)
Lemma mult_words junk a b : residue a → residue b → words_ok junk → length junk = 8%nat →
  multiprecision_mult junk a b = words 16 (value a * value b).
Proof.
  intros [Ha Hla Hva] [Hb Hlb Hvb] Hj Hlj.
  destruct (mult_value junk a b Hj Ha Hb) as (H1 & H2 & H3); [congruence..|].
  apply value_inj; [done|apply words_words_ok|rewrite H2, Hla, words_length; done|].
  rewrite H3, value_words, Z.mod_small; [done|].
  pose proof p256_bounds. change (weight 16) with (2 ^ 256 * 2 ^ 256). nia.
Qed.

Lemma mult_mod_exact junk a b : residue a → residue b → words_ok junk → length junk = 8%nat →
  let x := words 16 (value a * value b) in
  ∃ r, multiprecision_mersenns_mult_mod junk a b = Ok r ∧ residue r ∧
    value r = (value a * value b + miscounted x - 2 ^ 256 * lost_carries x) mod p256.
Proof.
  intros Ha Hb Hj Hlj x. unfold multiprecision_mersenns_mult_mod. rewrite mult_words by done. fold x.
  destruct (fast_mod_exact x (words_words_ok _ _) (words_length _ _)) as (r & E & H1 & H2). exists r. split_and!; [done|done|].
  rewrite H2. subst x. rewrite value_words, (Z.mod_small _ (weight 16)); [done|].
  destruct Ha, Hb. pose proof p256_bounds. change (weight 16) with (2 ^ 256 * 2 ^ 256). nia.
Qed.

Lemma mult_mod_value junk a b : residue a → residue b → words_ok junk → length junk = 8%nat →
  reducible (words 16 (value a * value b)) →
  ∃ r, multiprecision_mersenns_mult_mod junk a b = Ok r ∧ residue r ∧ value r = (value a * value b) mod p256.
Proof.
  intros Ha Hb Hj Hlj [Hm Hq]%reducible_exact. destruct (mult_mod_exact junk a b Ha Hb Hj Hlj) as (r & E & H1 & H2).
  exists r. split_and!; [done|done|]. by rewrite H2, Hm, Hq, Z.mul_0_r, Z.add_0_r, Z.sub_0_r.
Qed.

(** ** The inverse *)

Lemma even_p256 : Z.even p256 = false.
Proof. by vm_compute. Qed.

(** Twice a number that is divisible is divisible. *)
Lemma divide_half z : (p256 | 2 * z) → (p256 | z).
Proof.
  intros [q E]. assert (Ep : ∃ h, p256 + 1 = 2 * h).
  { exists ((p256 + 1) / 2). by vm_compute. }
  destruct Ep as [h Eh]. exists (h * q - z). lia.
Qed.

Lemma half_mod_value A : residue A →
  residue (half_mod curve_p256_p A) ∧ (p256 | 2 * value (half_mod curve_p256_p A) - value A).
Proof.
  intros [HA Hl Hv]. unfold half_mod. rewrite even_value by (done || by destruct A).
  destruct (Z.even (value A)) eqn:Ee.
  - destruct (rshift_value A HA) as (H1 & H2 & H3). apply Z.even_spec in Ee as [h Eh].
    rewrite Eh in H3. rewrite Z.mul_comm, Z.div_mul in H3 by lia.
    split; [split; [done|congruence|lia]|]. exists 0. lia.
  - pose proof (add_value A curve_p256_p HA curve_words Hl) as H. destruct (multiprecision_add A curve_p256_p) as [s t].
    destruct H as (H1 & H2 & H3 & H4). rewrite Hl in *. rewrite weight_8, curve_value in H4.
    destruct (rshift_value s H1) as (R1 & R2 & R3). rewrite H2 in R2.
    pose proof (value_range s H1) as Hs. rewrite H2, weight_8 in Hs. pose proof p256_bounds as Hp.
    assert (Es : Z.even (value s + 2 ^ 256 * t) = true).
    { rewrite H4, Z.even_add, Ee, even_p256. done. }
    rewrite Z.even_add, Z.even_mul in Es. change (Z.even (2 ^ 256)) with true in Es. cbn [orb] in Es.
    destruct (Z.even (value s)) eqn:Ees; [|done]. apply Z.even_spec in Ees as [h Eh].
    rewrite Eh in R3. rewrite Z.mul_comm, Z.div_mul in R3 by lia.
    set (r := multiprecision_rshift s) in *.
    destruct (reverse r) as [|w q] eqn:Er; [apply (f_equal length) in Er; rewrite length_reverse, R2 in Er; done|].
    assert (Er' : r = reverse q ++ [w]) by (rewrite <- reverse_cons, <- Er; by rewrite reverse_involutive).
    rewrite Er' in R1, R2, R3. apply Forall_app in R1 as [Rq Rw]. apply Forall_cons_1 in Rw as [Rw _].
    rewrite length_app in R2. cbn [length] in R2. assert (Hlq : length (reverse q) = 7%nat) by lia.
    rewrite value_app, Hlq in R3. cbn [value] in R3. pose proof (value_range (reverse q) Rq) as Hq. rewrite Hlq in Hq.
    change (weight 7) with (2 ^ 224) in *.
    assert (Hw : 0 ≤ w < 2147483648) by lia.
    assert (Eo : Z.lor w (u32 (Z.shiftl t 31)) = w + 2147483648 * t).
    { rewrite Z.lor_comm. assert (t = 0 ∨ t = 1) as [-> | ->] by lia; [by rewrite Z.lor_0_l, Z.mul_0_r, Z.add_0_r|].
      change (u32 (Z.shiftl 1 31)) with (1 * 2 ^ 31). rewrite lor_disjoint by lia. lia. }
    rewrite Eo, reverse_cons. 
    assert (Ev : value (reverse q ++ [w + 2147483648 * t]) = h + 2 ^ 255 * t).
    { rewrite value_app, Hlq. cbn [value]. change (weight 7) with (2 ^ 224). lia. }
    split.
    + split; [|rewrite length_app; cbn; lia|lia].
      apply Forall_app. split; [done|]. apply Forall_cons. split; [unfold is_word; lia|done].
    + rewrite Ev. exists 1. lia.
Qed.

(** What the coefficients keep: [A x] is [u] modulo the prime. *)
Definition multiple (x : Z) (u A : list Z) : Prop := (p256 | value A * x - value u).

Lemma halve_value k x u A : words_ok u → length u = 8%nat → 0 < value u < 2 ^ Z.of_nat (S k) → residue A → multiple x u A →
  ∃ u' A', halve k curve_p256_p u A = Ok (u', A') ∧ words_ok u' ∧ length u' = 8%nat ∧ Z.even (value u') = false ∧
    0 < value u' ∧ residue A' ∧ multiple x u' A' ∧ (value u' | value u) ∧
    (Z.even (value u) = true → 2 * value u' ≤ value u).
Proof.
  revert u A. induction k as [|k IH]; intros u A Hu Hl Hv HA Hm; cbn [halve];
    rewrite even_value by (done || by destruct u); destruct (Z.even (value u)) eqn:Ee.
  - apply Z.even_spec in Ee as [h Eh]. change (2 ^ Z.of_nat 1) with 2 in Hv. lia.
  - exists u, A. split_and!; try done. lia.
  - destruct (rshift_value u Hu) as (H1 & H2 & H3). destruct (half_mod_value A HA) as [HA' Hd].
    apply Z.even_spec in Ee as [h Eh]. rewrite Eh in H3. rewrite Z.mul_comm, Z.div_mul in H3 by lia.
    rewrite !Nat2Z.inj_succ, Z.pow_succ_r in Hv by lia.
    destruct (IH (multiprecision_rshift u) (half_mod curve_p256_p A)) as (u' & A' & E & G1 & G2 & G3 & G4 & G5 & G6 & G7 & G8).
    + done. + congruence. + rewrite H3, Nat2Z.inj_succ. lia. + done.
    + unfold multiple in *. apply divide_half. rewrite H3.
      replace (2 * (value (half_mod curve_p256_p A) * x - h))
        with ((2 * value (half_mod curve_p256_p A) - value A) * x + (value A * x - value u)) by (rewrite Eh; ring).
      apply Z.divide_add_r; [by apply Z.divide_mul_l|done].
    + exists u', A'. split_and!; try done.
      * rewrite Eh. rewrite H3 in G7. by apply Z.divide_mul_r.
      * intros _. rewrite Eh. rewrite H3 in G7. apply Z.divide_pos_le in G7; lia.
  - exists u, A. split_and!; try done. lia.
Qed.

(** Every common divisor divides [g]. *)
Definition common (g a b : Z) : Prop := ∀ d, (d | a) → (d | b) → (d | g).
Definition coprime : Z → Z → Prop := common 1.

(** The state of the algorithm between two rounds. *)
Record inverting (g x : Z) (u v A C : list Z) : Prop := {
  inv_u : words_ok u; inv_ul : length u = 8%nat;
  inv_v : words_ok v; inv_vl : length v = 8%nat; inv_vpos : 0 < value v;
  inv_A : residue A; inv_C : residue C;
  inv_uA : multiple x u A; inv_vC : multiple x v C;
  inv_common : common g (value u) (value v) }.

(** A subtraction keeps the relation between a number and its coefficient. *)
Lemma sub_step x u v A C : words_ok u → length u = 8%nat → words_ok v → length v = 8%nat → value v ≤ value u →
  residue A → residue C → multiple x u A → multiple x v C →
  let u' := (multiprecision_sub u v).1 in let A' := multiprecision_sub_mod A A C in
  words_ok u' ∧ length u' = 8%nat ∧ value u' = value u - value v ∧ residue A' ∧ multiple x u' A'.
Proof.
  intros Hu Hlu Hv Hlv Hle HA HC Hm1 Hm2. destruct (sub_wraps u v Hu Hv ltac:(congruence)) as (H1 & H2 & H3).
  rewrite Hlu in *. rewrite weight_8 in H3. pose proof (value_range u Hu) as Ru. pose proof (value_range v Hv) as Rv.
  rewrite Hlu, weight_8 in Ru. rewrite Z.mod_small in H3 by lia.
  destruct (sub_mod_value A A C HA HC) as [HA' HvA]. cbv zeta. split_and!; [done|done|done|done|].
  unfold multiple in *. rewrite H3, HvA. rewrite Z.mod_eq by (pose proof p256_bounds; lia).
  replace (_ - _) with ((value A * x - value u) - (value C * x - value v) - p256 * ((value A - value C) / p256 * x)) by ring.
  apply Z.divide_sub_r; [by apply Z.divide_sub_r|]. apply Z.divide_factor_l.
Qed.

Lemma even_sub_odd a b : Z.even a = false → Z.even b = false → Z.even (a - b) = true.
Proof. intros Ha Hb. by rewrite Z.even_sub, Ha, Hb. Qed.

Lemma common_divides g a b a' b' : common g a b → (a' | a) → (b' | b) → common g a' b'.
Proof. intros H Ha Hb d Hda Hdb. apply H; [exact (Z.divide_trans _ _ _ Hda Ha)|exact (Z.divide_trans _ _ _ Hdb Hb)]. Qed.
Lemma common_sub g a b : common g a b → common g (a - b) b.
Proof.
  intros H d H1 H2. apply H; [|done]. replace a with (a - b + b) by lia. by apply Z.divide_add_r.
Qed.
Lemma common_sym g a b : common g a b → common g b a.
Proof. intros H d ??. by apply H. Qed.

(** One round: both numbers are made odd, the smaller is subtracted; what is
    left has an even number, and its product has at most half the value if
    there was one before. *)
Lemma inv_round k g x u v A C : inverting g x u v A C → 0 < value u →
  value u < 2 ^ Z.of_nat (S k) → value v < 2 ^ Z.of_nat (S k) →
  ∃ u' v' A' C', inv_loop (S k) curve_p256_p u v A C = inv_loop k curve_p256_p u' v' A' C' ∧
    inverting g x u' v' A' C' ∧ (Z.even (value u') = true ∨ Z.even (value v') = true) ∧
    value u' * value v' ≤ value u * value v ∧
    (Z.even (value u) = true ∨ Z.even (value v) = true → 2 * (value u' * value v') ≤ value u * value v).
Proof.
  intros [] Hpos Hu Hv. cbn [inv_loop]. rewrite iszero_value by done. rewrite (proj2 (Z.eqb_neq _ _)) by lia.
  destruct (halve_value k x u A inv_u0 inv_ul0 ltac:(lia) inv_A0 inv_uA0)
    as (u1 & A1 & -> & U1 & U2 & U3 & U4 & U5 & U6 & U7 & U8).
  destruct (halve_value k x v C inv_v0 inv_vl0 ltac:(lia) inv_C0 inv_vC0)
    as (v1 & C1 & Ev & V1 & V2 & V3 & V4 & V5 & V6 & V7 & V8).
  rewrite bind_ok. cbv beta iota. rewrite Ev, bind_ok. cbv beta iota. rewrite compare_ge by (done || congruence).
  pose proof (common_divides _ _ _ _ _ inv_common0 U7 V7) as Hco.
  pose proof (Z.divide_pos_le _ _ Hpos U7) as Lu. pose proof (Z.divide_pos_le _ _ inv_vpos0 V7) as Lv.
  destruct (Z.leb_spec (value v1) (value u1)) as [Hle|Hlt].
  - destruct (sub_step x u1 v1 A1 C1) as (S1 & S2 & S3 & S4 & S5); try done.
    exists (multiprecision_sub u1 v1).1, v1, (multiprecision_sub_mod A1 A1 C1), C1. split; [done|]. split; [|split; [|split]].
    + split; try done. rewrite S3. by apply common_sub.
    + left. rewrite S3. by apply even_sub_odd.
    + rewrite S3. nia.
    + rewrite S3. intros [He|He]; [specialize (U8 He)|specialize (V8 He)]; nia.
  - destruct (sub_step x v1 u1 C1 A1) as (S1 & S2 & S3 & S4 & S5); try done; [lia|].
    exists u1, (multiprecision_sub v1 u1).1, A1, (multiprecision_sub_mod C1 C1 A1). split; [done|]. split; [|split; [|split]].
    + split; try done; [lia|]. rewrite S3. by apply common_sym, common_sub, common_sym.
    + right. rewrite S3. by apply even_sub_odd.
    + rewrite S3. nia.
    + rewrite S3. intros [He|He]; [specialize (U8 He)|specialize (V8 He)]; nia.
Qed.

(** As many rounds as the product has bits are enough. *)
Lemma inv_loop_value k g x u v A C : inverting g x u v A C → value u * value v < 2 ^ Z.of_nat k →
  (Z.even (value u) = true ∨ Z.even (value v) = true) →
  ∃ C' d, inv_loop k curve_p256_p u v A C = Ok C' ∧ residue C' ∧ 0 < d ∧ (d | g) ∧ (p256 | value C' * x - d).
Proof.
  revert u v A C. induction k as [|k IH]; intros u v A C Hi Hp He; pose proof Hi as []; 
    pose proof (value_range u inv_u0) as Hu; (destruct (decide (value u = 0)) as [Ez|Hne];
    [exists C, (value v); cbn [inv_loop]; rewrite iszero_value by done; rewrite Ez; split_and!; try done;
     apply inv_common0; [rewrite Ez; apply Z.divide_0_r|done]|]).
  - change (2 ^ Z.of_nat 0) with 1 in Hp. nia.
  - destruct (inv_round k g x u v A C Hi ltac:(lia)) as (u' & v' & A' & C' & -> & H1 & H2 & H3 & H4); [nia|nia|].
    apply IH; [done| |done]. specialize (H4 He). rewrite Nat2Z.inj_succ, Z.pow_succ_r in Hp by lia. lia.
Qed.

(** The result for a number whose common divisors with the prime divide [g]. *)
Lemma inv_mod_common g u : words_ok u → length u = 8%nat → 0 < value u → common g (value u) p256 →
  ∃ r d, multiprecision_inv_mod 513 u = Ok r ∧ residue r ∧ 0 < d ∧ (d | g) ∧ (p256 | value r * value u - d).
Proof.
  intros Hu Hl Hpos Hco. pose proof p256_bounds as Hp. pose proof (value_range u Hu) as Hr. rewrite Hl, weight_8 in Hr.
  set (one := 1 :: replicate 7 0). set (zero := multiprecision_init 8).
  assert (R1 : residue one) by (split; [decide_vm|done|]; change (value one) with 1; lia).
  assert (R0 : residue zero) by (split; [decide_vm|done|]; change (value zero) with 0; lia).
  assert (Hi : inverting g (value u) u curve_p256_p one zero).
  { split; rewrite ?curve_value; [done|done|apply curve_words|done|lia|done|done| | |done]; unfold multiple.
    - change (value one) with 1. exists 0. lia.
    - change (value zero) with 0. rewrite curve_value. exists (-1). lia. }
  destruct (inv_round 512 g (value u) u curve_p256_p one zero Hi Hpos) as (u' & v' & A' & C' & E & H1 & H2 & H3 & H4).
  { change (Z.of_nat 513) with (256 + 257). rewrite Z.pow_add_r by lia. lia. }
  { rewrite curve_value. change (Z.of_nat 513) with (256 + 257). rewrite Z.pow_add_r by lia. lia. }
  rewrite curve_value in H3.
  destruct (inv_loop_value 512 g (value u) u' v' A' C' H1) as (r & d & Er & Hr' & Hd); [|done|].
  { change (Z.of_nat 512) with (256 + 256). rewrite Z.pow_add_r by lia. nia. }
  exists r, d. split; [|done].
  unfold multiprecision_inv_mod. rewrite Hl. change (8 - 1)%nat with 7%nat. fold one zero.
  change (8 =? KEY_LENGTH_DWORDS_P256)%nat with true. cbv iota zeta. rewrite E, Er, bind_ok.
  destruct Hr'. rewrite compare_ge, curve_value by (done || apply curve_words).
  by rewrite (proj2 (Z.leb_gt _ _)) by lia.
Qed.

Lemma inv_mod_value u : words_ok u → length u = 8%nat → coprime (value u) p256 →
  ∃ r, multiprecision_inv_mod 513 u = Ok r ∧ residue r ∧ value r * value u mod p256 = 1.
Proof.
  intros Hu Hl Hco. pose proof p256_bounds as Hp. pose proof (value_range u Hu) as Hr.
  assert (Hpos : 0 < value u).
  { destruct (decide (value u = 0)) as [E|]; [|lia]. exfalso.
    assert (Hd : (p256 | 1)) by (apply Hco; [rewrite E; apply Z.divide_0_r|done]).
    apply Z.divide_pos_le in Hd; lia. }
  destruct (inv_mod_common 1 u Hu Hl Hpos Hco) as (r & d & E & H1 & H2 & H3 & [q Eq]). exists r. split_and!; [done|done|].
  apply Z.divide_pos_le in H3; [|lia]. assert (d = 1) as -> by lia.
  replace (value r * value u) with (1 + q * p256) by lia. rewrite Z.mod_add by lia. apply Z.mod_small. lia.
Qed.

Lemma inv_loop_zero k modp u v A C : multiprecision_iszero u = true → inv_loop k modp u v A C = Ok C.
Proof. intros H. destruct k; cbn [inv_loop]; by rewrite H. Qed.

(** It stops for every number, with 0 for 0. *)
Lemma inv_mod_total u : words_ok u → length u = 8%nat → ∃ r, multiprecision_inv_mod 513 u = Ok r ∧ residue r.
Proof.
  intros Hu Hl. pose proof (value_range u Hu) as Hr. destruct (decide (value u = 0)) as [E|Hne].
  - pose proof p256_bounds. exists (multiprecision_init 8). split; [|split; [decide_vm|done|change (value (multiprecision_init 8)) with 0; lia]].
    unfold multiprecision_inv_mod. rewrite Hl, inv_loop_zero, bind_ok by (by rewrite iszero_value, E). by vm_compute.
  - destruct (inv_mod_common (value u) u Hu Hl ltac:(lia)) as (r & d & E & H1 & _); [by intros d|]. by exists r.
Qed.
