(* ===== verification/MultiPrecisionSpec.v ===== *)
(** * What the pairing arithmetic promises

    The properties of [MultiPrecision]: word arrays compute with the integers
    they stand for, the sums and shifts modulo the prime keep residues, the
    inverse is one, and the product modulo the prime is right where its folded
    sum can be settled, and off by the miscounted borrows and the lost carries
    on other residues. *)

From Stdlib Require Import Znumtheory.
From S2P Require Import Prelude MultiPrecision MultiPrecisionProofs.

Lemma mod_add_eq_iff a d l m : 0 < m → (a + d - l) mod m = a mod m ↔ (m | d - l).
Proof.
  intros Hm. replace (a + d - l) with (a + (d - l)) by ring. split.
  - intros E. exists ((a + (d - l)) / m - a / m). pose proof (Z.div_mod (a + (d - l)) m). pose proof (Z.div_mod a m). nia.
  - intros [q ->]. apply Z.mod_add. lia.
Qed.

Lemma gcd_coprime a b : Z.gcd a b = 1 → coprime a b.
Proof. intros H d Ha Hb. rewrite <- H. by apply Z.gcd_greatest. Qed.

(** The arrays compute with integers: for two arrays of words of the same
    length the sum and the difference are exact with their carry and borrow, the
    shifts multiply and divide by two, the comparison is the one of the values,
    and the product of a fresh or a used result array is the product of the
    values. *)
Theorem multiprecision_exact a b junk : words_ok a → words_ok b → length b = length a → words_ok junk → length junk = length a →
  (let '(s, c) := multiprecision_add a b in value s + weight (length a) * c = value a + value b ∧ 0 ≤ c ≤ 1) ∧
  (let '(s, c) := multiprecision_sub a b in value s - weight (length a) * c = value a - value b ∧ 0 ≤ c ≤ 1) ∧
  (let '(s, c) := multiprecision_lshift a in value s + weight (length a) * c = 2 * value a ∧ 0 ≤ c ≤ 1) ∧
  value (multiprecision_rshift a) = value a / 2 ∧
  multiprecision_compare a b = match value a ?= value b with Gt => 1 | Lt => -1 | Eq => 0 end ∧
  value (multiprecision_mult junk a b) = value a * value b.
Proof.
  intros Ha Hb Hl Hj Hlj. pose proof (add_value a b Ha Hb (eq_sym Hl)) as H1. pose proof (sub_value a b Ha Hb (eq_sym Hl)) as H2.
  pose proof (lshift_value a Ha) as H3.
  destruct (multiprecision_add a b), (multiprecision_sub a b), (multiprecision_lshift a).
  split_and!; try tauto.
  - apply rshift_value, Ha.
  - by apply compare_value.
  - by apply mult_value.
Qed.
Lemma multiprecision_exact_witness :
  value (multiprecision_rshift [4294967295; 3]) = value [4294967295; 3] / 2 ∧
  value (multiprecision_mult [7; 7] [4294967295; 3] [4294967295; 4294967295]) = value [4294967295; 3] * value [4294967295; 4294967295].
Proof.
  destruct (multiprecision_exact [4294967295; 3] [4294967295; 4294967295] [7; 7]) as (_ & _ & _ & H1 & _ & H2);
    [apply (bool_decide_eq_true_1 _); reflexivity..|].
  split; [exact H1|exact H2].
Defined.

(** Sums modulo the prime: for two residues, [multiprecision_add_mod],
    [multiprecision_sub_mod] and [multiprecision_lshift_mod] give residues, the
    sum, the difference and the double modulo the prime, whatever the result
    array held. *)
Theorem modular_sums_correct c a b : residue a → residue b →
  (let r := multiprecision_add_mod c a b in residue r ∧ value r = (value a + value b) mod p256) ∧
  (let r := multiprecision_sub_mod c a b in residue r ∧ value r = (value a - value b) mod p256) ∧
  (let r := multiprecision_lshift_mod c a in residue r ∧ value r = (2 * value a) mod p256).
Proof.
  intros Ha Hb. split_and!; [apply add_mod_value; done|apply sub_mod_value; done|apply lshift_mod_value; done].
Qed.

Lemma residue_words z : 0 ≤ z < p256 → residue (words 8 z).
Proof.
  intros H. split; [apply words_words_ok|apply words_length|].
  rewrite value_words, Z.mod_small; [lia|]. rewrite weight_8. pose proof p256_bounds. lia.
Qed.
Lemma value_words_residue z : 0 ≤ z < p256 → value (words 8 z) = z.
Proof. intros H. rewrite value_words, Z.mod_small; [done|]. rewrite weight_8. pose proof p256_bounds. lia. Qed.

Lemma modular_sums_correct_witness :
  let r := multiprecision_add_mod [] (words 8 (2 ^ 255)) (words 8 (2 ^ 255)) in
  residue r ∧ value r = (value (words 8 (2 ^ 255)) + value (words 8 (2 ^ 255))) mod p256.
Proof.
  apply (modular_sums_correct [] (words 8 (2 ^ 255)) (words 8 (2 ^ 255))); apply residue_words; vm_compute; split; congruence.
Defined.

(** The product modulo the prime is right on the products that the reduction
    covers: for two residues whose product has no word from the second to the
    eighth below 8 and a folded sum that the final additions or subtractions of
    the prime bring into range, [multiprecision_mersenns_mult_mod] gives the
    residue of the product. *)
Theorem mersenns_mult_mod_correct junk a b : residue a → residue b → words_ok junk → length junk = 8%nat →
  reducible (words 16 (value a * value b)) →
  ∃ r, multiprecision_mersenns_mult_mod junk a b = Ok r ∧ residue r ∧ value r = (value a * value b) mod p256.
Proof. apply mult_mod_value. Qed.
Lemma mersenns_mult_mod_correct_witness :
  let G := words 8 48439561293906451759052585252797914202762949526041747995844080717082404635286 in
  ∃ r, multiprecision_mersenns_mult_mod (replicate 8 1) G G = Ok r ∧ residue r ∧ value r = (value G * value G) mod p256.
Proof.
  apply (mersenns_mult_mod_correct (replicate 8 1)
    (words 8 48439561293906451759052585252797914202762949526041747995844080717082404635286)
    (words 8 48439561293906451759052585252797914202762949526041747995844080717082404635286));
    [apply residue_words; vm_compute; split; congruence..| | |]; apply (bool_decide_eq_true_1 _); vm_compute; reflexivity.
Defined.

(** [C35] The product modulo the prime on all residues, exactly, and the two
    reasons why it is wrong on some.  [multiprecision_mersenns_mult_mod] gives a
    residue: the one of the product, plus [miscounted] - a word that is smaller
    than the borrow of the last one counts its own borrow with the wrong sign,
    which adds twice the weight of the next word - minus 2^256 for each of the
    [lost_carries], the carries of the additions, and counted negative the
    borrows of the subtractions, of the prime in the last loops, which forget
    them.  So the product is right exactly when
    the two errors cancel modulo the prime; and each of them alone makes it
    wrong: the first for 2^224 and 2^32 - 1 + 2^33, the second for a pair of
    residues none of whose words is miscounted. *)
Theorem mersenns_mult_mod_exact :
  (∀ junk a b, residue a → residue b → words_ok junk → length junk = 8%nat →
    let x := words 16 (value a * value b) in
    ∃ r, multiprecision_mersenns_mult_mod junk a b = Ok r ∧ residue r ∧
      value r = (value a * value b + miscounted x - 2 ^ 256 * lost_carries x) mod p256 ∧
      (value r = (value a * value b) mod p256 ↔ (p256 | miscounted x - 2 ^ 256 * lost_carries x))) ∧
  (let a := words 8 (2 ^ 224) in let b := words 8 (2 ^ 32 - 1 + 2 ^ 33) in let x := words 16 (value a * value b) in
   residue a ∧ residue b ∧ miscounted x = 2 * weight 5 ∧ lost_carries x = 0 ∧
   ∃ r, multiprecision_mersenns_mult_mod (replicate 8 0) a b = Ok r ∧ value r ≠ (value a * value b) mod p256) ∧
  (let a := words 8 7906025282023150820083668578426699103497935649960187624165470210723695803989 in
   let b := words 8 86606595530241129986954904445020739311978725699399939084916 in let x := words 16 (value a * value b) in
   residue a ∧ residue b ∧ miscounted x = 0 ∧ lost_carries x = -1 ∧
   ∃ r, multiprecision_mersenns_mult_mod (replicate 8 0) a b = Ok r ∧ value r ≠ (value a * value b) mod p256).
Proof.
  split; [|split].
  - intros junk a b Ha Hb Hj Hlj x. destruct (mult_mod_exact junk a b Ha Hb Hj Hlj) as (r & E & H1 & H2).
    fold x in H2. exists r. split_and!; [done|done|done|]. rewrite H2. apply mod_add_eq_iff. pose proof p256_bounds. lia.
  - split_and!; try (apply residue_words); try (eexists; split); by vm_compute.
  - split_and!; try (apply residue_words); try (eexists; split); by vm_compute.
Qed.
Lemma mersenns_mult_mod_exact_witness :
  let a := words 8 (2 ^ 224) in let b := words 8 (2 ^ 32 - 1 + 2 ^ 33) in let x := words 16 (value a * value b) in
  ∃ r, multiprecision_mersenns_mult_mod (replicate 8 0) a b = Ok r ∧ residue r ∧
    value r = (value a * value b + miscounted x - 2 ^ 256 * lost_carries x) mod p256 ∧
    (value r = (value a * value b) mod p256 ↔ (p256 | miscounted x - 2 ^ 256 * lost_carries x)).
Proof.
  apply (proj1 mersenns_mult_mod_exact (replicate 8 0) (words 8 (2 ^ 224)) (words 8 (2 ^ 32 - 1 + 2 ^ 33)));
    [apply residue_words; vm_compute; split; congruence..|apply (bool_decide_eq_true_1 _); vm_compute; reflexivity|reflexivity].
Defined.

(** [C37] The inverse: for an array of eight words whose value has no factor in
    common with the prime, [multiprecision_inv_mod] stops, after at most 513
    rounds, with the residue that multiplies the value to 1 modulo the prime. *)
Theorem multiprecision_inv_mod_correct u : words_ok u → length u = 8%nat → Z.gcd (value u) p256 = 1 →
  ∃ r, multiprecision_inv_mod 513 u = Ok r ∧ residue r ∧ value r * value u mod p256 = 1.
Proof. intros Hu Hl Hg. by apply inv_mod_value, gcd_coprime. Qed.
Lemma multiprecision_inv_mod_correct_witness :
  ∃ r, multiprecision_inv_mod 513 (words 8 (2 ^ 255 + 12345)) = Ok r ∧ residue r ∧
    value r * value (words 8 (2 ^ 255 + 12345)) mod p256 = 1.
Proof.
  apply (multiprecision_inv_mod_correct (words 8 (2 ^ 255 + 12345)));
    [apply (bool_decide_eq_true_1 _)|..]; vm_compute; reflexivity.
Defined.
