(* ===== verification/Aes.v ===== *)
(** * AES of the pairing code

    Models [src/components/bt/bluedroid/stack/smp/aes.c] as it is configured: with
    tables, VERSION_1 of the rounds, byte arrays combined through 32-bit words
    (which is the exclusive or of the bytes).  A block and the cipher state are
    lists of 16 bytes; [st .[ i ]] is an element of one. *)

From S2P Require Import Prelude.

Definition N_BLOCK : nat := 16.
Definition WPOLY : Z := 283.
Definition DPOLY : Z := 141.

#[local] Infix "^^" := Z.lxor (at level 50, left associativity).
#[local] Notation "st .[ i ]" := (nth i st 0) (at level 1, format "st .[ i ]").

(** ** The finite field *)

Definition f2 (x : Z) : Z := Z.shiftl x 1 ^^ (Z.land (Z.shiftr x 7) 1 * WPOLY).
Definition f4 (x : Z) : Z :=
  Z.shiftl x 2 ^^ (Z.land (Z.shiftr x 6) 1 * WPOLY) ^^ (Z.land (Z.shiftr x 6) 2 * WPOLY).
Definition f8 (x : Z) : Z :=
  Z.shiftl x 3 ^^ (Z.land (Z.shiftr x 5) 1 * WPOLY) ^^ (Z.land (Z.shiftr x 5) 2 * WPOLY)
    ^^ (Z.land (Z.shiftr x 5) 4 * WPOLY).
Definition d2 (x : Z) : Z := Z.shiftr x 1 ^^ (if Z.land x 1 =? 0 then 0 else DPOLY).
Definition f3 (x : Z) : Z := f2 x ^^ x.
Definition f9 (x : Z) : Z := f8 x ^^ x.
Definition fb (x : Z) : Z := f8 x ^^ f2 x ^^ x.
Definition fd (x : Z) : Z := f8 x ^^ f4 x ^^ x.
Definition fe (x : Z) : Z := f8 x ^^ f4 x ^^ f2 x.

(** ** The tables *)

Definition sb_data : list Z :=
  [99; 124; 119; 123; 242; 107; 111; 197; 48; 1; 103; 43; 254; 215; 171; 118;
   202; 130; 201; 125; 250; 89; 71; 240; 173; 212; 162; 175; 156; 164; 114; 192;
   183; 253; 147; 38; 54; 63; 247; 204; 52; 165; 229; 241; 113; 216; 49; 21;
   4; 199; 35; 195; 24; 150; 5; 154; 7; 18; 128; 226; 235; 39; 178; 117;
   9; 131; 44; 26; 27; 110; 90; 160; 82; 59; 214; 179; 41; 227; 47; 132;
   83; 209; 0; 237; 32; 252; 177; 91; 106; 203; 190; 57; 74; 76; 88; 207;
   208; 239; 170; 251; 67; 77; 51; 133; 69; 249; 2; 127; 80; 60; 159; 168;
   81; 163; 64; 143; 146; 157; 56; 245; 188; 182; 218; 33; 16; 255; 243; 210;
   205; 12; 19; 236; 95; 151; 68; 23; 196; 167; 126; 61; 100; 93; 25; 115;
   96; 129; 79; 220; 34; 42; 144; 136; 70; 238; 184; 20; 222; 94; 11; 219;
   224; 50; 58; 10; 73; 6; 36; 92; 194; 211; 172; 98; 145; 149; 228; 121;
   231; 200; 55; 109; 141; 213; 78; 169; 108; 86; 244; 234; 101; 122; 174; 8;
   186; 120; 37; 46; 28; 166; 180; 198; 232; 221; 116; 31; 75; 189; 139; 138;
   112; 62; 181; 102; 72; 3; 246; 14; 97; 53; 87; 185; 134; 193; 29; 158;
   225; 248; 152; 17; 105; 217; 142; 148; 155; 30; 135; 233; 206; 85; 40; 223;
   140; 161; 137; 13; 191; 230; 66; 104; 65; 153; 45; 15; 176; 84; 187; 22].
Definition isb_data : list Z :=
  [82; 9; 106; 213; 48; 54; 165; 56; 191; 64; 163; 158; 129; 243; 215; 251;
   124; 227; 57; 130; 155; 47; 255; 135; 52; 142; 67; 68; 196; 222; 233; 203;
   84; 123; 148; 50; 166; 194; 35; 61; 238; 76; 149; 11; 66; 250; 195; 78;
   8; 46; 161; 102; 40; 217; 36; 178; 118; 91; 162; 73; 109; 139; 209; 37;
   114; 248; 246; 100; 134; 104; 152; 22; 212; 164; 92; 204; 93; 101; 182; 146;
   108; 112; 72; 80; 253; 237; 185; 218; 94; 21; 70; 87; 167; 141; 157; 132;
   144; 216; 171; 0; 140; 188; 211; 10; 247; 228; 88; 5; 184; 179; 69; 6;
   208; 44; 30; 143; 202; 63; 15; 2; 193; 175; 189; 3; 1; 19; 138; 107;
   58; 145; 17; 65; 79; 103; 220; 234; 151; 242; 207; 206; 240; 180; 230; 115;
   150; 172; 116; 34; 231; 173; 53; 133; 226; 249; 55; 232; 28; 117; 223; 110;
   71; 241; 26; 113; 29; 41; 197; 137; 111; 183; 98; 14; 170; 24; 190; 27;
   252; 86; 62; 75; 198; 210; 121; 32; 154; 219; 192; 254; 120; 205; 90; 244;
   31; 221; 168; 51; 136; 7; 199; 49; 177; 18; 16; 89; 39; 128; 236; 95;
   96; 81; 127; 169; 25; 181; 74; 13; 45; 229; 122; 159; 147; 201; 156; 239;
   160; 224; 59; 77; 174; 42; 245; 176; 200; 235; 187; 60; 131; 83; 153; 97;
   23; 43; 4; 126; 186; 119; 214; 38; 225; 105; 20; 99; 85; 33; 12; 125].
Definition mm_data : list Z := seqZ 0 256.

(** The tables have bytes for elements. *)
Definition table (f : Z → Z) (data : list Z) : list Z := (λ x, u8 (f x)) <$> data.
Definition sbox : list Z := sb_data.
Definition isbox : list Z := isb_data.
Definition gfm2_sbox : list Z := Eval vm_compute in table f2 sb_data.
Definition gfm3_sbox : list Z := Eval vm_compute in table f3 sb_data.
Definition gfmul_9 : list Z := Eval vm_compute in table f9 mm_data.
Definition gfmul_b : list Z := Eval vm_compute in table fb mm_data.
Definition gfmul_d : list Z := Eval vm_compute in table fd mm_data.
Definition gfmul_e : list Z := Eval vm_compute in table fe mm_data.

(** An index is a byte, so every access is inside the table. *)
Definition lookup_table (t : list Z) (x : Z) : Z := nth (Z.to_nat x) t 0.
Definition s_box : Z → Z := lookup_table sbox.
Definition is_box : Z → Z := lookup_table isbox.
Definition gfm2_sb : Z → Z := lookup_table gfm2_sbox.
Definition gfm3_sb : Z → Z := lookup_table gfm3_sbox.
Definition gfm_9 : Z → Z := lookup_table gfmul_9.
Definition gfm_b : Z → Z := lookup_table gfmul_b.
Definition gfm_d : Z → Z := lookup_table gfmul_d.
Definition gfm_e : Z → Z := lookup_table gfmul_e.

(** ** The steps of a round *)

(** [xor_block] stores the result over its first argument. *)
Definition xor_block (d s : list Z) : list Z := zip_with Z.lxor d s.
Definition copy_and_key (s k : list Z) : list Z := zip_with Z.lxor s k.
Definition add_round_key (d k : list Z) : list Z := xor_block d k.

(** The sixteen bytes of round [r] of the key schedule. *)
Definition round_key (ksch : list Z) (r : nat) : list Z := take N_BLOCK (drop (r * N_BLOCK) ksch).

Definition shift_sub_rows (st : list Z) : list Z :=
  [s_box (st.[0]); s_box (st.[5]); s_box (st.[10]); s_box (st.[15]);
   s_box (st.[4]); s_box (st.[9]); s_box (st.[14]); s_box (st.[3]);
   s_box (st.[8]); s_box (st.[13]); s_box (st.[2]); s_box (st.[7]);
   s_box (st.[12]); s_box (st.[1]); s_box (st.[6]); s_box (st.[11])].

Definition inv_shift_sub_rows (st : list Z) : list Z :=
  [is_box (st.[0]); is_box (st.[13]); is_box (st.[10]); is_box (st.[7]);
   is_box (st.[4]); is_box (st.[1]); is_box (st.[14]); is_box (st.[11]);
   is_box (st.[8]); is_box (st.[5]); is_box (st.[2]); is_box (st.[15]);
   is_box (st.[12]); is_box (st.[9]); is_box (st.[6]); is_box (st.[3])].

Definition mix_sub_columns (st : list Z) : list Z :=
  [gfm2_sb (st.[0]) ^^ gfm3_sb (st.[5]) ^^ s_box (st.[10]) ^^ s_box (st.[15]);
   s_box (st.[0]) ^^ gfm2_sb (st.[5]) ^^ gfm3_sb (st.[10]) ^^ s_box (st.[15]);
   s_box (st.[0]) ^^ s_box (st.[5]) ^^ gfm2_sb (st.[10]) ^^ gfm3_sb (st.[15]);
   gfm3_sb (st.[0]) ^^ s_box (st.[5]) ^^ s_box (st.[10]) ^^ gfm2_sb (st.[15]);
   gfm2_sb (st.[4]) ^^ gfm3_sb (st.[9]) ^^ s_box (st.[14]) ^^ s_box (st.[3]);
   s_box (st.[4]) ^^ gfm2_sb (st.[9]) ^^ gfm3_sb (st.[14]) ^^ s_box (st.[3]);
   s_box (st.[4]) ^^ s_box (st.[9]) ^^ gfm2_sb (st.[14]) ^^ gfm3_sb (st.[3]);
   gfm3_sb (st.[4]) ^^ s_box (st.[9]) ^^ s_box (st.[14]) ^^ gfm2_sb (st.[3]);
   gfm2_sb (st.[8]) ^^ gfm3_sb (st.[13]) ^^ s_box (st.[2]) ^^ s_box (st.[7]);
   s_box (st.[8]) ^^ gfm2_sb (st.[13]) ^^ gfm3_sb (st.[2]) ^^ s_box (st.[7]);
   s_box (st.[8]) ^^ s_box (st.[13]) ^^ gfm2_sb (st.[2]) ^^ gfm3_sb (st.[7]);
   gfm3_sb (st.[8]) ^^ s_box (st.[13]) ^^ s_box (st.[2]) ^^ gfm2_sb (st.[7]);
   gfm2_sb (st.[12]) ^^ gfm3_sb (st.[1]) ^^ s_box (st.[6]) ^^ s_box (st.[11]);
   s_box (st.[12]) ^^ gfm2_sb (st.[1]) ^^ gfm3_sb (st.[6]) ^^ s_box (st.[11]);
   s_box (st.[12]) ^^ s_box (st.[1]) ^^ gfm2_sb (st.[6]) ^^ gfm3_sb (st.[11]);
   gfm3_sb (st.[12]) ^^ s_box (st.[1]) ^^ s_box (st.[6]) ^^ gfm2_sb (st.[11])].

Definition inv_mix_sub_columns (st : list Z) : list Z :=
  [is_box (gfm_e (st.[0]) ^^ gfm_b (st.[1]) ^^ gfm_d (st.[2]) ^^ gfm_9 (st.[3]));
   is_box (gfm_9 (st.[12]) ^^ gfm_e (st.[13]) ^^ gfm_b (st.[14]) ^^ gfm_d (st.[15]));
   is_box (gfm_d (st.[8]) ^^ gfm_9 (st.[9]) ^^ gfm_e (st.[10]) ^^ gfm_b (st.[11]));
   is_box (gfm_b (st.[4]) ^^ gfm_d (st.[5]) ^^ gfm_9 (st.[6]) ^^ gfm_e (st.[7]));
   is_box (gfm_e (st.[4]) ^^ gfm_b (st.[5]) ^^ gfm_d (st.[6]) ^^ gfm_9 (st.[7]));
   is_box (gfm_9 (st.[0]) ^^ gfm_e (st.[1]) ^^ gfm_b (st.[2]) ^^ gfm_d (st.[3]));
   is_box (gfm_d (st.[12]) ^^ gfm_9 (st.[13]) ^^ gfm_e (st.[14]) ^^ gfm_b (st.[15]));
   is_box (gfm_b (st.[8]) ^^ gfm_d (st.[9]) ^^ gfm_9 (st.[10]) ^^ gfm_e (st.[11]));
   is_box (gfm_e (st.[8]) ^^ gfm_b (st.[9]) ^^ gfm_d (st.[10]) ^^ gfm_9 (st.[11]));
   is_box (gfm_9 (st.[4]) ^^ gfm_e (st.[5]) ^^ gfm_b (st.[6]) ^^ gfm_d (st.[7]));
   is_box (gfm_d (st.[0]) ^^ gfm_9 (st.[1]) ^^ gfm_e (st.[2]) ^^ gfm_b (st.[3]));
   is_box (gfm_b (st.[12]) ^^ gfm_d (st.[13]) ^^ gfm_9 (st.[14]) ^^ gfm_e (st.[15]));
   is_box (gfm_e (st.[12]) ^^ gfm_b (st.[13]) ^^ gfm_d (st.[14]) ^^ gfm_9 (st.[15]));
   is_box (gfm_9 (st.[8]) ^^ gfm_e (st.[9]) ^^ gfm_b (st.[10]) ^^ gfm_d (st.[11]));
   is_box (gfm_d (st.[4]) ^^ gfm_9 (st.[5]) ^^ gfm_e (st.[6]) ^^ gfm_b (st.[7]));
   is_box (gfm_b (st.[0]) ^^ gfm_d (st.[1]) ^^ gfm_9 (st.[2]) ^^ gfm_e (st.[3]))].

(** ** The key schedule *)

Record aes_context := { ksch : list Z; rnd : Z }.

(** One round of the loop at index [cc]: the four bytes that are stored there,
    and the next round constant.  [ks] holds the bytes in front of [cc]. *)
Definition key_step (keylen cc : nat) (rc : Z) (ks : list Z) : list Z * Z :=
  let t0 := ks.[cc - 4] in let t1 := ks.[cc - 3] in let t2 := ks.[cc - 2] in let t3 := ks.[cc - 1] in
  let '(t0, t1, t2, t3, rc) :=
    if (cc mod keylen =? 0)%nat then (s_box t1 ^^ rc, s_box t2, s_box t3, s_box t0, u8 (f2 rc))
    else if (24 <? keylen)%nat && (cc mod keylen =? 16)%nat then (s_box t0, s_box t1, s_box t2, s_box t3, rc)
    else (t0, t1, t2, t3, rc) in
  let tt := (cc - keylen)%nat in
  ([ks.[tt + 0] ^^ t0; ks.[tt + 1] ^^ t1; ks.[tt + 2] ^^ t2; ks.[tt + 3] ^^ t3], rc).

(** [for (cc = keylen, rc = 1; cc < hi; cc += 4)], [n] rounds. *)
Fixpoint key_loop (n keylen cc : nat) (rc : Z) (ks : list Z) : list Z :=
  match n with
  | O => ks
  | S n => let '(w, rc) := key_step keylen cc rc ks in key_loop n keylen (cc + 4) rc (ks ++ w)
  end.

Definition key_length (keylen : Z) : option nat :=
  if (keylen =? 16) || (keylen =? 128) then Some 16%nat
  else if (keylen =? 24) || (keylen =? 192) then Some 24%nat
  else if keylen =? 32 then Some 32%nat else None.

(** Bytes of the schedule behind the last one that is stored keep their value. *)
Definition aes_set_key (key : list Z) (keylen : Z) (ctx : aes_context) : Z * aes_context :=
  match key_length keylen with
  | None => (255, {| ksch := ksch ctx; rnd := 0 |})
  | Some len =>
      let hi := ((len + 28) * 4)%nat in
      (0, {| ksch := key_loop ((hi - len) / 4) len len 1 (take len key) ++ drop hi (ksch ctx);
             rnd := Z.of_nat (hi / 16) - 1 |})
  end.

(** ** Blocks *)

Fixpoint encrypt_rounds (n r : nat) (ks s1 : list Z) : list Z :=
  match n with
  | O => s1
  | S n => encrypt_rounds n (S r) ks (add_round_key (mix_sub_columns s1) (round_key ks r))
  end.

(** [out] is what the output block held before. *)
Definition bluedroid_aes_encrypt (inb out : list Z) (ctx : aes_context) : Z * list Z :=
  if negb (rnd ctx =? 0) then
    let s1 := copy_and_key inb (round_key (ksch ctx) 0) in
    let s1 := encrypt_rounds (Z.to_nat (rnd ctx) - 1) 1 (ksch ctx) s1 in
    let s1 := shift_sub_rows s1 in
    (0, copy_and_key s1 (round_key (ksch ctx) (Z.to_nat (rnd ctx))))
  else (255, out).

(** [for (r = ctx->rnd; --r;)], from round [r] down to 1. *)
Fixpoint decrypt_rounds (r : nat) (ks s1 : list Z) : list Z :=
  match r with
  | O => s1
  | S r' => decrypt_rounds r' ks (inv_mix_sub_columns (add_round_key s1 (round_key ks r)))
  end.

Definition bluedroid_aes_decrypt (inb out : list Z) (ctx : aes_context) : Z * list Z :=
  if negb (rnd ctx =? 0) then
    let s1 := copy_and_key inb (round_key (ksch ctx) (Z.to_nat (rnd ctx))) in
    let s1 := inv_shift_sub_rows s1 in
    let s1 := decrypt_rounds (Z.to_nat (rnd ctx) - 1) (ksch ctx) s1 in
    (0, copy_and_key s1 (round_key (ksch ctx) 0))
  else (255, out).

(** ** Chained blocks *)

(** [n] blocks: the result, the output and the last chaining block. *)
Fixpoint aes_cbc_encrypt (n : nat) (inb iv : list Z) (ctx : aes_context) : Z * list Z * list Z :=
  match n with
  | O => (0, [], iv)
  | S n =>
      let iv := xor_block iv (take N_BLOCK inb) in
      let '(rc, iv) := bluedroid_aes_encrypt iv iv ctx in
      if negb (rc =? 0) then (1, [], iv)
      else let '(rc, out, iv') := aes_cbc_encrypt n (drop N_BLOCK inb) iv ctx in (rc, iv ++ out, iv')
  end.

Fixpoint aes_cbc_decrypt (n : nat) (inb out iv : list Z) (ctx : aes_context) : Z * list Z * list Z :=
  match n with
  | O => (0, out, iv)
  | S n =>
      let tmp := take N_BLOCK inb in
      let '(rc, block) := bluedroid_aes_decrypt tmp (take N_BLOCK out) ctx in
      if negb (rc =? 0) then (1, block ++ drop N_BLOCK out, iv)
      else
        let block := xor_block block iv in
        let '(rc, rest, iv) := aes_cbc_decrypt n (drop N_BLOCK inb) (drop N_BLOCK out) tmp ctx in
        (rc, block ++ rest, iv)
  end.

(** ** Keys on the fly *)

Definition update_encrypt_key_128 (k : list Z) (rc : Z) : list Z * Z :=
  let w0 := [k.[0] ^^ (s_box (k.[13]) ^^ rc); k.[1] ^^ s_box (k.[14]); k.[2] ^^ s_box (k.[15]); k.[3] ^^ s_box (k.[12])] in
  let w1 := zip_with Z.lxor (take 4 (drop 4 k)) w0 in
  let w2 := zip_with Z.lxor (take 4 (drop 8 k)) w1 in
  let w3 := zip_with Z.lxor (take 4 (drop 12 k)) w2 in
  (w0 ++ w1 ++ w2 ++ w3, u8 (f2 rc)).

(** The loop goes down, so each word is combined with the one in front of it
    before that one changes. *)
Definition update_decrypt_key_128 (k : list Z) (rc : Z) : list Z * Z :=
  let w3 := zip_with Z.lxor (take 4 (drop 12 k)) (take 4 (drop 8 k)) in
  let w2 := zip_with Z.lxor (take 4 (drop 8 k)) (take 4 (drop 4 k)) in
  let w1 := zip_with Z.lxor (take 4 (drop 4 k)) (take 4 k) in
  let rc := u8 (d2 rc) in
  let w0 := [k.[0] ^^ (s_box (w3.[1]) ^^ rc); k.[1] ^^ s_box (w3.[2]); k.[2] ^^ s_box (w3.[3]); k.[3] ^^ s_box (w3.[0])] in
  (w0 ++ w1 ++ w2 ++ w3, rc).

Fixpoint encrypt_128_rounds (n : nat) (k s1 : list Z) (rc : Z) : list Z * list Z * Z :=
  match n with
  | O => (s1, k, rc)
  | S n =>
      let s1 := mix_sub_columns s1 in
      let '(k, rc) := update_encrypt_key_128 k rc in
      encrypt_128_rounds n k (add_round_key s1 k) rc
  end.

(** The output block and the key of the last round. *)
Definition bluedroid_aes_encrypt_128 (inb key : list Z) : list Z * list Z :=
  let s1 := copy_and_key inb key in
  let '(s1, o_key, rc) := encrypt_128_rounds 9 key s1 1 in
  let s1 := shift_sub_rows s1 in
  let '(o_key, rc) := update_encrypt_key_128 o_key rc in
  (copy_and_key s1 o_key, o_key).

Fixpoint decrypt_128_rounds (n : nat) (k s1 : list Z) (rc : Z) : list Z * list Z * Z :=
  match n with
  | O => (s1, k, rc)
  | S n =>
      let '(k, rc) := update_decrypt_key_128 k rc in
      decrypt_128_rounds n k (inv_mix_sub_columns (add_round_key s1 k)) rc
  end.

Definition bluedroid_aes_decrypt_128 (inb key : list Z) : list Z * list Z :=
  let s1 := copy_and_key inb key in
  let s1 := inv_shift_sub_rows s1 in
  let '(s1, o_key, rc) := decrypt_128_rounds 9 key s1 108 in
  let '(o_key, rc) := update_decrypt_key_128 o_key rc in
  (copy_and_key s1 o_key, o_key).

(** The same for keys of 32 bytes: two round keys are kept at a time. *)
Definition update_encrypt_key_256 (k : list Z) (rc : Z) : list Z * Z :=
  let w0 := [k.[0] ^^ (s_box (k.[29]) ^^ rc); k.[1] ^^ s_box (k.[30]); k.[2] ^^ s_box (k.[31]); k.[3] ^^ s_box (k.[28])] in
  let w1 := zip_with Z.lxor (take 4 (drop 4 k)) w0 in
  let w2 := zip_with Z.lxor (take 4 (drop 8 k)) w1 in
  let w3 := zip_with Z.lxor (take 4 (drop 12 k)) w2 in
  let w4 := zip_with Z.lxor (take 4 (drop 16 k)) (s_box <$> w3) in
  let w5 := zip_with Z.lxor (take 4 (drop 20 k)) w4 in
  let w6 := zip_with Z.lxor (take 4 (drop 24 k)) w5 in
  let w7 := zip_with Z.lxor (take 4 (drop 28 k)) w6 in
  (w0 ++ w1 ++ w2 ++ w3 ++ w4 ++ w5 ++ w6 ++ w7, u8 (f2 rc)).

Definition update_decrypt_key_256 (k : list Z) (rc : Z) : list Z * Z :=
  let w7 := zip_with Z.lxor (take 4 (drop 28 k)) (take 4 (drop 24 k)) in
  let w6 := zip_with Z.lxor (take 4 (drop 24 k)) (take 4 (drop 20 k)) in
  let w5 := zip_with Z.lxor (take 4 (drop 20 k)) (take 4 (drop 16 k)) in
  let w4 := zip_with Z.lxor (take 4 (drop 16 k)) (s_box <$> take 4 (drop 12 k)) in
  let w3 := zip_with Z.lxor (take 4 (drop 12 k)) (take 4 (drop 8 k)) in
  let w2 := zip_with Z.lxor (take 4 (drop 8 k)) (take 4 (drop 4 k)) in
  let w1 := zip_with Z.lxor (take 4 (drop 4 k)) (take 4 k) in
  let rc := u8 (d2 rc) in
  let w0 := [k.[0] ^^ (s_box (w7.[1]) ^^ rc); k.[1] ^^ s_box (w7.[2]); k.[2] ^^ s_box (w7.[3]); k.[3] ^^ s_box (w7.[0])] in
  (w0 ++ w1 ++ w2 ++ w3 ++ w4 ++ w5 ++ w6 ++ w7, rc).

Fixpoint encrypt_256_rounds (n r : nat) (k s1 : list Z) (rc : Z) : list Z * list Z * Z :=
  match n with
  | O => (s1, k, rc)
  | S n =>
      let s1 := mix_sub_columns s1 in
      if Nat.odd r then encrypt_256_rounds n (S r) k (add_round_key s1 (drop N_BLOCK k)) rc
      else
        let '(k, rc) := update_encrypt_key_256 k rc in
        encrypt_256_rounds n (S r) k (add_round_key s1 (take N_BLOCK k)) rc
  end.
Definition bluedroid_aes_encrypt_256 (inb key : list Z) : list Z * list Z :=
  let s1 := copy_and_key inb (take N_BLOCK key) in
  let '(s1, o_key, rc) := encrypt_256_rounds 13 1 key s1 1 in
  let s1 := shift_sub_rows s1 in
  let '(o_key, rc) := update_encrypt_key_256 o_key rc in
  (copy_and_key s1 (take N_BLOCK o_key), o_key).

Fixpoint decrypt_256_rounds (r : nat) (k s1 : list Z) (rc : Z) : list Z * list Z * Z :=
  match r with
  | O => (s1, k, rc)
  | S r' =>
      if Nat.odd r then
        let '(k, rc) := update_decrypt_key_256 k rc in
        decrypt_256_rounds r' k (inv_mix_sub_columns (add_round_key s1 (drop N_BLOCK k))) rc
      else decrypt_256_rounds r' k (inv_mix_sub_columns (add_round_key s1 (take N_BLOCK k))) rc
  end.
Definition bluedroid_aes_decrypt_256 (inb key : list Z) : list Z * list Z :=
  let s1 := copy_and_key inb (take N_BLOCK key) in
  let s1 := inv_shift_sub_rows s1 in
  let '(s1, o_key, rc) := decrypt_256_rounds 13 key s1 128 in
  (copy_and_key s1 (take N_BLOCK o_key), o_key).

(** ** Test vectors of FIPS 197 *)

Definition fips_plain : list Z := (λ i, 17 * i) <$> seqZ 0 16.
Definition no_context : aes_context := {| ksch := replicate 240 0; rnd := 0 |}.

Example fips_128 : bluedroid_aes_encrypt fips_plain [] (aes_set_key (seqZ 0 16) 16 no_context).2 =
  (0, [105; 196; 224; 216; 106; 123; 4; 48; 216; 205; 183; 128; 112; 180; 197; 90]).
Proof. vm_compute. reflexivity. Qed.
Example fips_192 : bluedroid_aes_encrypt fips_plain [] (aes_set_key (seqZ 0 24) 24 no_context).2 =
  (0, [221; 169; 124; 164; 134; 76; 223; 224; 110; 175; 112; 160; 236; 13; 113; 145]).
Proof. vm_compute. reflexivity. Qed.
Example fips_256 : bluedroid_aes_encrypt fips_plain [] (aes_set_key (seqZ 0 32) 32 no_context).2 =
  (0, [142; 162; 183; 202; 81; 103; 69; 191; 234; 252; 73; 144; 75; 73; 96; 137]).
Proof. vm_compute. reflexivity. Qed.
Example fips_128_fly : (bluedroid_aes_encrypt_128 fips_plain (seqZ 0 16)).1 =
  [105; 196; 224; 216; 106; 123; 4; 48; 216; 205; 183; 128; 112; 180; 197; 90].
Proof. vm_compute. reflexivity. Qed.
Example fips_256_fly : (bluedroid_aes_encrypt_256 fips_plain (seqZ 0 32)).1 =
  [142; 162; 183; 202; 81; 103; 69; 191; 234; 252; 73; 144; 75; 73; 96; 137].
Proof. vm_compute. reflexivity. Qed.
Example fips_256_fly_back :
  let '(c, o) := bluedroid_aes_encrypt_256 fips_plain (seqZ 0 32) in bluedroid_aes_decrypt_256 c o = (fips_plain, seqZ 0 32).
Proof. vm_compute. reflexivity. Qed.
