(* ===== verification/AesProofs.v ===== *)
(** * The cipher of the pairing code can be undone

    The tables of [Aes] against the arithmetic they tabulate, decryption as the
    inverse of encryption for every key length, and the variants with keys on
    the fly against the ones with a key schedule. *)

From Stdlib Require Import Btauto.
From S2P Require Import Prelude Aes.

#[local] Infix "^^" := Z.lxor (at level 50, left associativity).
#[local] Notation "st .[ i ]" := (nth i st 0) (at level 1, format "st .[ i ]").

Abbreviation bytes_ok := (Forall is_byte).

(** A block. *)
Definition block (st : list Z) : Prop := length st = 16%nat ∧ bytes_ok st.
#[export] Instance block_dec st : Decision (block st) := _.

(** ** Facts on all bytes, by evaluation *)

Lemma all_bytes (P : Z → Prop) : Forall P (seqZ 0 256) → ∀ x, is_byte x → P x.
Proof. intros H x Hx. rewrite Forall_forall in H. apply H, elem_of_seqZ. unfold is_byte in Hx. lia. Qed.
Ltac by_bytes := apply all_bytes; apply (bool_decide_eq_true_1 _); vm_compute; reflexivity.

Lemma sbox_inverse : ∀ x, is_byte x → is_box (s_box x) = x.
Proof. by_bytes. Qed.
Lemma isbox_inverse : ∀ x, is_byte x → s_box (is_box x) = x.
Proof. by_bytes. Qed.
Lemma sbox_byte : ∀ x, is_byte x → is_byte (s_box x).
Proof. by_bytes. Qed.
Lemma isbox_byte : ∀ x, is_byte x → is_byte (is_box x).
Proof. by_bytes. Qed.

(** The combined tables are multiples of the substitution. *)
Lemma gfm2_sb_alt : ∀ x, is_byte x → gfm2_sb x = f2 (s_box x).
Proof. by_bytes. Qed.
Lemma gfm3_sb_alt : ∀ x, is_byte x → gfm3_sb x = f3 (s_box x).
Proof. by_bytes. Qed.
Lemma gfm_alt : ∀ x, is_byte x → gfm_9 x = f9 x ∧ gfm_b x = fb x ∧ gfm_d x = fd x ∧ gfm_e x = fe x.
Proof. by_bytes. Qed.
Lemma f2_byte : ∀ x, is_byte x → is_byte (f2 x).
Proof. by_bytes. Qed.
Lemma f3_byte : ∀ x, is_byte x → is_byte (f3 x).
Proof. by_bytes. Qed.
Lemma gfm_byte : ∀ x, is_byte x → is_byte (gfm_9 x) ∧ is_byte (gfm_b x) ∧ is_byte (gfm_d x) ∧ is_byte (gfm_e x).
Proof. by_bytes. Qed.

(** The multiplications are linear. *)
Definition linear_check (f : Z → Z) : bool :=
  forallb (λ a, let fa := f a in forallb (λ b, f (a ^^ b) =? fa ^^ f b) (seqZ 0 256)) (seqZ 0 256).
Lemma linear_check_ok f : linear_check f = true → ∀ a b, is_byte a → is_byte b → f (a ^^ b) = f a ^^ f b.
Proof.
  unfold linear_check. rewrite forallb_forall. intros H a b Ha Hb.
  assert (Hin : ∀ x, is_byte x → List.In x (seqZ 0 256)) by (intros x Hx; apply list_elem_of_In, elem_of_seqZ; unfold is_byte in Hx; lia).
  specialize (H a (Hin a Ha)). cbv zeta in H. rewrite forallb_forall in H. by apply Z.eqb_eq, H, Hin.
Qed.
Lemma gfm_9_linear a b : is_byte a → is_byte b → gfm_9 (a ^^ b) = gfm_9 a ^^ gfm_9 b.
Proof. apply linear_check_ok. vm_compute. reflexivity. Qed.
Lemma gfm_b_linear a b : is_byte a → is_byte b → gfm_b (a ^^ b) = gfm_b a ^^ gfm_b b.
Proof. apply linear_check_ok. vm_compute. reflexivity. Qed.
Lemma gfm_d_linear a b : is_byte a → is_byte b → gfm_d (a ^^ b) = gfm_d a ^^ gfm_d b.
Proof. apply linear_check_ok. vm_compute. reflexivity. Qed.
Lemma gfm_e_linear a b : is_byte a → is_byte b → gfm_e (a ^^ b) = gfm_e a ^^ gfm_e b.
Proof. apply linear_check_ok. vm_compute. reflexivity. Qed.

Lemma xor_byte a b : is_byte a → is_byte b → is_byte (a ^^ b).
Proof.
  unfold is_byte. intros Ha Hb. split; [apply Z.lxor_nonneg; lia|].
  destruct (decide (a ^^ b = 0)) as [->|Hne]; [lia|]. change 256 with (2 ^ 8). apply Z.log2_lt_pow2.
  - pose proof (proj2 (Z.lxor_nonneg a b) ltac:(lia)). lia.
  - eapply Z.le_lt_trans; [apply Z.log2_lxor; lia|]. apply Z.max_lub_lt.
    + destruct (decide (a = 0)) as [->|]; [done|]. apply Z.log2_lt_pow2; lia.
    + destruct (decide (b = 0)) as [->|]; [done|]. apply Z.log2_lt_pow2; lia.
Qed.

(** What a column gets back of each of its bytes: everything for the byte itself
    and nothing for the others. *)
Lemma unmix_1 : ∀ x, is_byte x → gfm_e (f2 x) ^^ gfm_b x ^^ gfm_d x ^^ gfm_9 (f3 x) = x.
Proof. by_bytes. Qed.
Lemma unmix_2 : ∀ x, is_byte x → gfm_e (f3 x) ^^ gfm_b (f2 x) ^^ gfm_d x ^^ gfm_9 x = 0.
Proof. by_bytes. Qed.
Lemma unmix_3 : ∀ x, is_byte x → gfm_e x ^^ gfm_b (f3 x) ^^ gfm_d (f2 x) ^^ gfm_9 x = 0.
Proof. by_bytes. Qed.
Lemma unmix_4 : ∀ x, is_byte x → gfm_e x ^^ gfm_b x ^^ gfm_d (f3 x) ^^ gfm_9 (f2 x) = 0.
Proof. by_bytes. Qed.

(** Rearranges exclusive ors. *)
Ltac xor_solve := apply Z.bits_inj'; intros ? _; rewrite ?Z.lxor_spec, ?Z.bits_0; btauto.

(** ** The rounds *)

Create HintDb aes.
#[export] Hint Resolve xor_byte f2_byte f3_byte sbox_byte isbox_byte : aes.

Lemma unmix y0 y1 y2 y3 : is_byte y0 → is_byte y1 → is_byte y2 → is_byte y3 →
  gfm_e (f2 y0 ^^ f3 y1 ^^ y2 ^^ y3) ^^ gfm_b (y0 ^^ f2 y1 ^^ f3 y2 ^^ y3) ^^
  gfm_d (y0 ^^ y1 ^^ f2 y2 ^^ f3 y3) ^^ gfm_9 (f3 y0 ^^ y1 ^^ y2 ^^ f2 y3) = y0.
Proof.
  intros H0 H1 H2 H3.
  rewrite !gfm_9_linear, !gfm_b_linear, !gfm_d_linear, !gfm_e_linear by auto with aes.
  transitivity ((gfm_e (f2 y0) ^^ gfm_b y0 ^^ gfm_d y0 ^^ gfm_9 (f3 y0)) ^^
    (gfm_e (f3 y1) ^^ gfm_b (f2 y1) ^^ gfm_d y1 ^^ gfm_9 y1) ^^
    (gfm_e y2 ^^ gfm_b (f3 y2) ^^ gfm_d (f2 y2) ^^ gfm_9 y2) ^^
    (gfm_e y3 ^^ gfm_b y3 ^^ gfm_d (f3 y3) ^^ gfm_9 (f2 y3))); [xor_solve|].
  rewrite unmix_1, unmix_2, unmix_3, unmix_4 by done. by rewrite !Z.lxor_0_r.
Qed.

(** The four rows of a column, each as its code computes it. *)
Lemma unmix_column x0 x1 x2 x3 : is_byte x0 → is_byte x1 → is_byte x2 → is_byte x3 →
  let d0 := gfm2_sb x0 ^^ gfm3_sb x1 ^^ s_box x2 ^^ s_box x3 in
  let d1 := s_box x0 ^^ gfm2_sb x1 ^^ gfm3_sb x2 ^^ s_box x3 in
  let d2 := s_box x0 ^^ s_box x1 ^^ gfm2_sb x2 ^^ gfm3_sb x3 in
  let d3 := gfm3_sb x0 ^^ s_box x1 ^^ s_box x2 ^^ gfm2_sb x3 in
  is_box (gfm_e d0 ^^ gfm_b d1 ^^ gfm_d d2 ^^ gfm_9 d3) = x0 ∧
  is_box (gfm_9 d0 ^^ gfm_e d1 ^^ gfm_b d2 ^^ gfm_d d3) = x1 ∧
  is_box (gfm_d d0 ^^ gfm_9 d1 ^^ gfm_e d2 ^^ gfm_b d3) = x2 ∧
  is_box (gfm_b d0 ^^ gfm_d d1 ^^ gfm_9 d2 ^^ gfm_e d3) = x3.
Proof.
  intros H0 H1 H2 H3. cbv zeta. rewrite !gfm2_sb_alt, !gfm3_sb_alt by done.
  pose proof (unmix (s_box x0) (s_box x1) (s_box x2) (s_box x3) ltac:(auto with aes) ltac:(auto with aes) ltac:(auto with aes) ltac:(auto with aes)) as E0.
  pose proof (unmix (s_box x1) (s_box x2) (s_box x3) (s_box x0) ltac:(auto with aes) ltac:(auto with aes) ltac:(auto with aes) ltac:(auto with aes)) as E1.
  pose proof (unmix (s_box x2) (s_box x3) (s_box x0) (s_box x1) ltac:(auto with aes) ltac:(auto with aes) ltac:(auto with aes) ltac:(auto with aes)) as E2.
  pose proof (unmix (s_box x3) (s_box x0) (s_box x1) (s_box x2) ltac:(auto with aes) ltac:(auto with aes) ltac:(auto with aes) ltac:(auto with aes)) as E3.
  set (y0 := s_box x0) in *. set (y1 := s_box x1) in *. set (y2 := s_box x2) in *. set (y3 := s_box x3) in *.
  set (d0 := f2 y0 ^^ f3 y1 ^^ y2 ^^ y3) in *. set (d1 := y0 ^^ f2 y1 ^^ f3 y2 ^^ y3) in *.
  set (d2 := y0 ^^ y1 ^^ f2 y2 ^^ f3 y3) in *. set (d3 := f3 y0 ^^ y1 ^^ y2 ^^ f2 y3) in *.
  replace (f2 y1 ^^ f3 y2 ^^ y3 ^^ y0) with d1 in E1 by (subst d1; xor_solve).
  replace (y1 ^^ f2 y2 ^^ f3 y3 ^^ y0) with d2 in E1 by (subst d2; xor_solve).
  replace (y1 ^^ y2 ^^ f2 y3 ^^ f3 y0) with d3 in E1 by (subst d3; xor_solve).
  replace (f3 y1 ^^ y2 ^^ y3 ^^ f2 y0) with d0 in E1 by (subst d0; xor_solve).
  replace (f2 y2 ^^ f3 y3 ^^ y0 ^^ y1) with d2 in E2 by (subst d2; xor_solve).
  replace (y2 ^^ f2 y3 ^^ f3 y0 ^^ y1) with d3 in E2 by (subst d3; xor_solve).
  replace (y2 ^^ y3 ^^ f2 y0 ^^ f3 y1) with d0 in E2 by (subst d0; xor_solve).
  replace (f3 y2 ^^ y3 ^^ y0 ^^ f2 y1) with d1 in E2 by (subst d1; xor_solve).
  replace (f2 y3 ^^ f3 y0 ^^ y1 ^^ y2) with d3 in E3 by (subst d3; xor_solve).
  replace (y3 ^^ f2 y0 ^^ f3 y1 ^^ y2) with d0 in E3 by (subst d0; xor_solve).
  replace (y3 ^^ y0 ^^ f2 y1 ^^ f3 y2) with d1 in E3 by (subst d1; xor_solve).
  replace (f3 y3 ^^ y0 ^^ y1 ^^ f2 y2) with d2 in E3 by (subst d2; xor_solve).
  split_and!.
  - rewrite E0. by apply sbox_inverse.
  - replace (gfm_9 d0 ^^ gfm_e d1 ^^ gfm_b d2 ^^ gfm_d d3) with (gfm_e d1 ^^ gfm_b d2 ^^ gfm_d d3 ^^ gfm_9 d0) by xor_solve.
    rewrite E1. by apply sbox_inverse.
  - replace (gfm_d d0 ^^ gfm_9 d1 ^^ gfm_e d2 ^^ gfm_b d3) with (gfm_e d2 ^^ gfm_b d3 ^^ gfm_d d0 ^^ gfm_9 d1) by xor_solve.
    rewrite E2. by apply sbox_inverse.
  - replace (gfm_b d0 ^^ gfm_d d1 ^^ gfm_9 d2 ^^ gfm_e d3) with (gfm_e d3 ^^ gfm_b d0 ^^ gfm_d d1 ^^ gfm_9 d2) by xor_solve.
    rewrite E3. by apply sbox_inverse.
Qed.

(** The bytes of a block. *)
Lemma block_bytes st : block st → ∃ x0 x1 x2 x3 x4 x5 x6 x7 x8 x9 x10 x11 x12 x13 x14 x15,
  st = [x0; x1; x2; x3; x4; x5; x6; x7; x8; x9; x10; x11; x12; x13; x14; x15] ∧
  is_byte x0 ∧ is_byte x1 ∧ is_byte x2 ∧ is_byte x3 ∧ is_byte x4 ∧ is_byte x5 ∧ is_byte x6 ∧ is_byte x7 ∧
  is_byte x8 ∧ is_byte x9 ∧ is_byte x10 ∧ is_byte x11 ∧ is_byte x12 ∧ is_byte x13 ∧ is_byte x14 ∧ is_byte x15.
Proof.
  intros [Hl Hb]. do 16 (destruct st as [|? st]; [done|]). destruct st; [|done].
  rewrite !Forall_cons in Hb. do 16 eexists. split; [done|]. tauto.
Qed.
Ltac open_block H :=
  let E := fresh "E" in
  apply block_bytes in H as (x0 & x1 & x2 & x3 & x4 & x5 & x6 & x7 & x8 & x9 & x10 & x11 & x12 & x13 & x14 & x15 & -> &
    ? & ? & ? & ? & ? & ? & ? & ? & ? & ? & ? & ? & ? & ? & ? & ?).

Lemma shift_sub_inverse st : block st → inv_shift_sub_rows (shift_sub_rows st) = st.
Proof. intros Hs. open_block Hs. unfold inv_shift_sub_rows, shift_sub_rows. cbn [nth]. by rewrite !sbox_inverse. Qed.

Lemma mix_inverse st : block st → inv_mix_sub_columns (mix_sub_columns st) = st.
Proof.
  intros Hs. open_block Hs. unfold inv_mix_sub_columns, mix_sub_columns. cbn [nth].
  destruct (unmix_column x0 x5 x10 x15) as (-> & -> & -> & ->); [done..|].
  destruct (unmix_column x4 x9 x14 x3) as (-> & -> & -> & ->); [done..|].
  destruct (unmix_column x8 x13 x2 x7) as (-> & -> & -> & ->); [done..|].
  by destruct (unmix_column x12 x1 x6 x11) as (-> & -> & -> & ->).
Qed.

Lemma shift_sub_block st : block st → block (shift_sub_rows st).
Proof.
  intros Hs. open_block Hs. split; [done|]. unfold shift_sub_rows. cbn [nth].
  rewrite !Forall_cons. split_and!; auto with aes.
Qed.
Lemma gfm2_sb_byte x : is_byte x → is_byte (gfm2_sb x).
Proof. intros. rewrite gfm2_sb_alt by done. auto with aes. Qed.
Lemma gfm3_sb_byte x : is_byte x → is_byte (gfm3_sb x).
Proof. intros. rewrite gfm3_sb_alt by done. auto with aes. Qed.
#[export] Hint Resolve gfm2_sb_byte gfm3_sb_byte : aes.
Lemma mix_block st : block st → block (mix_sub_columns st).
Proof.
  intros Hs. open_block Hs. split; [done|]. unfold mix_sub_columns. cbn [nth].
  rewrite !Forall_cons. split_and!; auto 8 with aes.
Qed.

Lemma xor_block_block a b : block a → block b → block (xor_block a b).
Proof.
  intros [Hla Ha] [Hlb Hb]. split; [unfold xor_block; rewrite length_zip_with; lia|].
  unfold xor_block. clear Hla Hlb. revert b Hb. induction Ha as [|x a Hx Ha IH]; intros [|y b] Hb; cbn; try constructor.
  - apply Forall_cons_1 in Hb as [Hy Hb]. by apply xor_byte.
  - apply Forall_cons_1 in Hb as [Hy Hb]. by apply IH.
Qed.
Lemma xor_block_twice a b : length a = length b → xor_block (xor_block a b) b = a.
Proof.
  unfold xor_block. revert b. induction a as [|x a IH]; intros [|y b] Hl; try done. cbn. f_equal.
  - by rewrite Z.lxor_assoc, Z.lxor_nilpotent, Z.lxor_0_r.
  - apply IH. by injection Hl.
Qed.

Lemma xor_block_comm a b : xor_block a b = xor_block b a.
Proof. unfold xor_block. revert b. induction a as [|x a IH]; intros [|y b]; cbn; [done..|]. by rewrite Z.lxor_comm, IH. Qed.

(** ** Decryption undoes encryption *)

(** The round keys up to number [n]. *)
Definition round_keys (ks : list Z) (n : nat) : Prop := bytes_ok (take (16 * S n) ks) ∧ (16 * S n ≤ length ks)%nat.

Lemma round_key_block ks n r : round_keys ks n → (r ≤ n)%nat → block (round_key ks r).
Proof.
  intros [Hb Hl] Hr. unfold round_key, N_BLOCK. split; [rewrite length_take, length_drop; lia|].
  replace (take 16 (drop (r * 16) ks)) with (take 16 (drop (r * 16) (take (16 * S n) ks))).
  - by apply Forall_take, Forall_drop.
  - rewrite skipn_firstn_comm, take_take. f_equal. lia.
Qed.

Lemma encrypt_rounds_block n r ks s m : round_keys ks m → (r + n ≤ S m)%nat → block s → block (encrypt_rounds n r ks s).
Proof.
  intros Hk. revert r s. induction n as [|n IH]; intros r s Hr Hs; cbn [encrypt_rounds]; [done|].
  apply IH; [lia|]. apply xor_block_block; [by apply mix_block|]. apply (round_key_block _ m); [done|lia].
Qed.

Lemma decrypt_encrypt_rounds n r ks s m : round_keys ks m → (r + n ≤ m)%nat → block s →
  decrypt_rounds (r + n) ks (encrypt_rounds n (S r) ks s) = decrypt_rounds r ks s.
Proof.
  intros Hk. revert r s. induction n as [|n IH]; intros r s Hr Hs; cbn [encrypt_rounds]; [by rewrite Nat.add_0_r|].
  assert (Hb : block (round_key ks (S r))) by (apply (round_key_block _ m); [done|lia]).
  replace (r + S n)%nat with (S r + n)%nat by lia. rewrite IH; [|lia|apply xor_block_block; [by apply mix_block|done]].
  cbn [decrypt_rounds]. unfold add_round_key. pose proof (mix_block s Hs) as [Hm _]. destruct Hb as [Hb _].
  rewrite xor_block_twice by congruence. by rewrite mix_inverse.
Qed.

(** Both directions with the round keys of the context. *)
Definition keyed (ctx : aes_context) : Prop := 0 < rnd ctx ∧ round_keys (ksch ctx) (Z.to_nat (rnd ctx)).

Lemma encrypt_keyed inb out ctx : keyed ctx → block inb →
  ∃ c, bluedroid_aes_encrypt inb out ctx = (0, c) ∧ block c ∧
    ∀ out', bluedroid_aes_decrypt c out' ctx = (0, inb).
Proof.
  intros [Hpos Hk] Hi. unfold bluedroid_aes_encrypt, bluedroid_aes_decrypt.
  rewrite (proj2 (Z.eqb_neq _ _)) by lia. cbn [negb]. eexists. split; [done|].
  set (n := Z.to_nat (rnd ctx)) in *. assert (0 < n)%nat by lia. change copy_and_key with xor_block.
  set (s0 := xor_block inb _). assert (H0 : block s0) by (apply xor_block_block; [done|apply (round_key_block _ n); [done|lia]]).
  set (s1 := encrypt_rounds _ _ _ s0). assert (H1 : block s1) by (apply (encrypt_rounds_block _ _ _ _ n); [done|lia|done]).
  assert (Hn : block (round_key (ksch ctx) n)) by (apply (round_key_block _ n); [done|lia]).
  pose proof (shift_sub_block _ H1) as H2. split; [by apply xor_block_block|]. intros out'. f_equal.
  rewrite (xor_block_twice (shift_sub_rows s1)) by (destruct H2, Hn; congruence). rewrite shift_sub_inverse by done.
  subst s1. rewrite (decrypt_encrypt_rounds (n - 1) 0 _ _ n) by (done || lia). cbn [decrypt_rounds].
  subst s0. apply xor_block_twice. destruct Hi as [-> _].
  by destruct (round_key_block _ n 0 Hk ltac:(lia)) as [-> _].
Qed.

(** ** The key schedule *)

Lemma nth_byte ks i : bytes_ok ks → is_byte (ks.[i]).
Proof. intros H. revert i. induction H as [|x ks Hx _ IH]; intros [|i]; cbn; auto; unfold is_byte; lia. Qed.
Lemma u8_byte x : is_byte (u8 x).
Proof. apply Z.mod_pos_bound. lia. Qed.
#[export] Hint Resolve nth_byte u8_byte : aes.

Lemma key_step_ok keylen cc rc ks : bytes_ok ks → is_byte rc →
  let '(w, rc') := key_step keylen cc rc ks in bytes_ok w ∧ length w = 4%nat ∧ is_byte rc'.
Proof.
  intros Hk Hrc. unfold key_step. destruct (cc mod keylen =? 0)%nat; [|destruct (_ && _)];
    (split_and!; [rewrite !Forall_cons; split_and!; auto 6 with aes|done|auto with aes]).
Qed.

Lemma key_loop_ok n keylen cc rc ks : bytes_ok ks → is_byte rc →
  bytes_ok (key_loop n keylen cc rc ks) ∧ length (key_loop n keylen cc rc ks) = (length ks + 4 * n)%nat.
Proof.
  revert cc rc ks. induction n as [|n IH]; intros cc rc ks Hk Hrc; cbn [key_loop]; [split; [done|lia]|].
  pose proof (key_step_ok keylen cc rc ks Hk Hrc) as H. destruct (key_step _ _ _ _) as [w rc']. destruct H as (Hw & Hl & Hr).
  destruct (IH (cc + 4)%nat rc' (ks ++ w)) as [H1 H2]; [by apply Forall_app|done|]. split; [done|].
  rewrite H2, length_app. lia.
Qed.

Lemma key_loop_prefix n m keylen cc rc ks : ∃ l, key_loop (n + m) keylen cc rc ks = key_loop n keylen cc rc ks ++ l.
Proof.
  revert cc rc ks. induction n as [|n IH]; intros cc rc ks.
  - revert cc rc ks. cbn [Nat.add key_loop]. induction m as [|m IH]; intros cc rc ks; [exists []; by rewrite app_nil_r|].
    cbn [key_loop]. destruct (key_step _ _ _ _) as [w rc']. destruct (IH (cc + 4)%nat rc' (ks ++ w)) as [l ->].
    exists (w ++ l). by rewrite app_assoc.
  - cbn [Nat.add key_loop]. destruct (key_step _ _ _ _) as [w rc']. apply IH.
Qed.

(** A key of a length the code knows gives a context with all its round keys. *)
Lemma aes_set_key_keyed key keylen ctx len : key_length keylen = Some len → length key = len → bytes_ok key →
  let '(rc, ctx') := aes_set_key key keylen ctx in rc = 0 ∧ keyed ctx' ∧ rnd ctx' = Z.of_nat len / 4 + 6.
Proof.
  intros Hl Hlk Hb. unfold aes_set_key. rewrite Hl. split; [done|].
  assert (Hc : len = 16%nat ∨ len = 24%nat ∨ len = 32%nat).
  { unfold key_length in Hl. repeat case_match; naive_solver. }
  split; [|by destruct Hc as [->|[->| ->]]]. unfold keyed, round_keys. cbn [ksch rnd].
  rewrite (take_ge key) by lia. destruct (key_loop_ok (((len + 28) * 4 - len) / 4) len len 1 key Hb ltac:(done)) as [H1 H2].
  assert (E : (16 * S (Z.to_nat (Z.of_nat ((len + 28) * 4 / 16) - 1)))%nat = length (key_loop (((len + 28) * 4 - len) / 4) len len 1 key))
    by (rewrite H2, Hlk; by destruct Hc as [->|[->| ->]]).
  rewrite E, take_app_length, length_app. split_and!; [by destruct Hc as [->|[->| ->]]|done|lia].
Qed.

(** ** Chained blocks *)

(** Encryption of a chain, and decryption of what it gives. *)
Lemma cbc_roundtrip n inb out iv ctx : keyed ctx → length inb = (16 * n)%nat → bytes_ok inb → block iv →
  ∃ c iv', aes_cbc_encrypt n inb iv ctx = (0, c, iv') ∧ length c = (16 * n)%nat ∧
    aes_cbc_decrypt n c out iv ctx = (0, inb ++ drop (16 * n) out, iv').
Proof.
  intros Hk. revert inb out iv. induction n as [|n IH]; intros inb out iv Hl Hb Hiv.
  { exists [], iv. by destruct inb. }
  assert (Hi : block (take 16 inb)) by (split; [rewrite length_take; lia|by apply Forall_take]).
  cbn [aes_cbc_encrypt aes_cbc_decrypt]. unfold N_BLOCK.
  destruct (encrypt_keyed (xor_block iv (take 16 inb)) (xor_block iv (take 16 inb)) ctx Hk) as (c & -> & Hc & Hd);
    [by apply xor_block_block|].
  destruct (IH (drop 16 inb) (drop 16 out) c) as (cs & iv' & -> & Hlc & E); [rewrite length_drop; lia|by apply Forall_drop|done|].
  exists (c ++ cs), iv'. split; [done|]. destruct Hc as [Hc16 _]. split; [rewrite length_app; lia|].
  rewrite take_app_le, drop_app_ge by lia. rewrite take_ge by lia. rewrite Hd. cbn [Z.eqb negb].
  rewrite Hc16, Nat.sub_diag, drop_0, E. f_equal. f_equal. rewrite drop_drop. rewrite app_assoc. f_equal; [|f_equal; lia].
  rewrite (xor_block_comm iv), xor_block_twice by (destruct Hi, Hiv; congruence). by rewrite take_drop.
Qed.

(** ** Keys on the fly *)

(** The schedule only looks at the last key, so what is in front of it does not
    matter. *)
Lemma nth_front pre k i : (pre ++ k).[length pre + i] = k.[i].
Proof. by rewrite app_nth2_plus. Qed.

Lemma key_step_front pre k keylen cc rc : (length pre mod keylen = 0)%nat → (0 < keylen)%nat → (4 ≤ cc)%nat → (keylen ≤ cc)%nat →
  key_step keylen (length pre + cc) rc (pre ++ k) = key_step keylen cc rc k.
Proof.
  intros Hm Hl H4 Hc. unfold key_step.
  assert (E : ((length pre + cc) mod keylen = cc mod keylen)%nat).
  { apply Nat.Div0.mod_divides in Hm as [q ->]. by rewrite Nat.add_comm, (Nat.mul_comm keylen), Nat.Div0.mod_add. }
  rewrite E. replace (length pre + cc - 4)%nat with (length pre + (cc - 4))%nat by lia.
  replace (length pre + cc - 3)%nat with (length pre + (cc - 3))%nat by lia.
  replace (length pre + cc - 2)%nat with (length pre + (cc - 2))%nat by lia.
  replace (length pre + cc - 1)%nat with (length pre + (cc - 1))%nat by lia.
  replace (length pre + cc - keylen)%nat with (length pre + (cc - keylen))%nat by lia.
  rewrite <- !Nat.add_assoc, !nth_front. done.
Qed.

Lemma key_loop_front n pre k keylen cc rc : (length pre mod keylen = 0)%nat → (0 < keylen)%nat → (4 ≤ cc)%nat → (keylen ≤ cc)%nat →
  key_loop n keylen (length pre + cc) rc (pre ++ k) = pre ++ key_loop n keylen cc rc k.
Proof.
  intros Hm Hl. revert cc rc k. induction n as [|n IH]; intros cc rc k H4 Hc; cbn [key_loop]; [done|].
  rewrite key_step_front by done. destruct (key_step keylen cc rc k) as [w rc'].
  rewrite <- Nat.add_assoc, <- app_assoc. apply IH; lia.
Qed.

(** A round of the update is the next sixteen bytes of the schedule. *)
Lemma key_loop_update n k rc : block k →
  let '(k', rc') := update_encrypt_key_128 k rc in
  key_loop (4 + n) 16 16 rc k = k ++ key_loop n 16 16 rc' k'.
Proof.
  intros Hk. destruct (update_encrypt_key_128 k rc) as [k' rc'] eqn:E.
  assert (Hl : length k = 16%nat) by apply Hk.
  rewrite <- key_loop_front by (rewrite ?Hl; done || lia). rewrite Hl.
  open_block Hk. unfold update_encrypt_key_128 in E. cbn [nth take drop zip_with] in E. injection E as <- <-.
  cbn [key_loop Nat.add]. unfold key_step. cbn -[s_box Z.lxor key_loop u8 f2]. reflexivity.
Qed.

Lemma update_128_ok k rc : block k → is_byte rc →
  block (update_encrypt_key_128 k rc).1 ∧ is_byte (update_encrypt_key_128 k rc).2.
Proof.
  intros Hk Hrc. open_block Hk. unfold update_encrypt_key_128. cbn [nth take drop zip_with fst snd].
  split; [|auto with aes]. split; [done|]. cbn [app]. rewrite !Forall_cons. split_and!; auto 9 with aes.
Qed.

Lemma round_key_front k l r : length k = 16%nat → round_key (k ++ l) (S r) = round_key l r.
Proof. intros H. unfold round_key, N_BLOCK. rewrite drop_app_ge by lia. do 2 f_equal. lia. Qed.
Lemma round_key_first k l : length k = 16%nat → round_key (k ++ l) 0 = k.
Proof. intros H. unfold round_key, N_BLOCK. cbn [Nat.mul drop]. rewrite <- H. apply take_app_length. Qed.
Lemma encrypt_rounds_front n r k l s : length k = 16%nat → encrypt_rounds n (S r) (k ++ l) s = encrypt_rounds n r l s.
Proof.
  intros H. revert r s. induction n as [|n IH]; intros r s; cbn [encrypt_rounds]; [done|]. by rewrite IH, round_key_front.
Qed.
Lemma encrypt_rounds_ext n r ks ks' s : (∀ i, (r ≤ i < r + n)%nat → round_key ks i = round_key ks' i) →
  encrypt_rounds n r ks s = encrypt_rounds n r ks' s.
Proof.
  revert r s. induction n as [|n IH]; intros r s H; cbn [encrypt_rounds]; [done|]. rewrite (H r) by lia. apply IH.
  intros. apply H. lia.
Qed.
Lemma round_key_app ks rest i : (16 * S i ≤ length ks)%nat → round_key (ks ++ rest) i = round_key ks i.
Proof. intros H. unfold round_key, N_BLOCK. by rewrite drop_app_le, take_app_le by (rewrite ?length_drop; lia). Qed.

(** The key after [n] updates. *)
Fixpoint keys_128 (n : nat) (k : list Z) (rc : Z) : list Z * Z :=
  match n with O => (k, rc) | S n => let '(k, rc) := update_encrypt_key_128 k rc in keys_128 n k rc end.

Lemma keys_128_S n k rc : keys_128 (S n) k rc = update_encrypt_key_128 (keys_128 n k rc).1 (keys_128 n k rc).2.
Proof.
  revert k rc. induction n as [|n IH]; intros k rc; [cbn [keys_128 fst snd]; by destruct (update_encrypt_key_128 k rc)|].
  assert (E : ∀ n, keys_128 (S n) k rc = keys_128 n (update_encrypt_key_128 k rc).1 (update_encrypt_key_128 k rc).2)
    by (intros; cbn [keys_128]; by destruct (update_encrypt_key_128 k rc)).
  rewrite !E. apply IH.
Qed.
Lemma keys_128_ok n k rc : block k → is_byte rc → block (keys_128 n k rc).1 ∧ is_byte (keys_128 n k rc).2.
Proof.
  intros Hk Hrc. induction n as [|n IH]; [done|]. rewrite keys_128_S. destruct IH. by apply update_128_ok.
Qed.

Lemma schedule_128 n m k rc : block k → is_byte rc → round_key (key_loop (4 * (n + m)) 16 16 rc k) n = (keys_128 n k rc).1.
Proof.
  revert k rc. induction n as [|n IH]; intros k rc Hk Hrc.
  - destruct m as [|m]; [cbn; apply take_ge; destruct Hk; lia|]. pose proof (key_loop_update (4 * m) k rc Hk) as E.
    destruct (update_encrypt_key_128 k rc). replace (4 * (0 + S m))%nat with (4 + 4 * m)%nat by lia. rewrite E.
    apply round_key_first, Hk.
  - pose proof (key_loop_update (4 * (n + m)) k rc Hk) as E. destruct (update_128_ok k rc Hk Hrc) as [H1 H2].
    cbn [keys_128]. destruct (update_encrypt_key_128 k rc) as [k' rc'].
    replace (4 * (S n + m))%nat with (4 + 4 * (n + m))%nat by lia. rewrite E, round_key_front by apply Hk. by apply IH.
Qed.

Lemma encrypt_128_rounds_schedule n m k s rc : block k → is_byte rc →
  encrypt_128_rounds n k s rc = (encrypt_rounds n 1 (key_loop (4 * (n + m)) 16 16 rc k) s, (keys_128 n k rc).1, (keys_128 n k rc).2).
Proof.
  revert k s rc. induction n as [|n IH]; intros k s rc Hk Hrc; [done|].
  pose proof (key_loop_update (4 * (n + m)) k rc Hk) as E. destruct (update_128_ok k rc Hk Hrc) as [H1 H2].
  pose proof (schedule_128 0 (n + m) (update_encrypt_key_128 k rc).1 (update_encrypt_key_128 k rc).2 H1 H2) as E0.
  cbn [keys_128 encrypt_128_rounds encrypt_rounds]. destruct (update_encrypt_key_128 k rc) as [k' rc']. cbn [fst snd keys_128] in *.
  replace (4 * (S n + m))%nat with (4 + 4 * (n + m))%nat by lia.
  rewrite E, encrypt_rounds_front, round_key_front by apply Hk.
  change (0 + (n + m))%nat with (n + m)%nat in E0. rewrite E0. by apply IH.
Qed.

(** The updates can be undone. *)
Lemma d2_f2 : ∀ x, is_byte x → u8 (d2 (u8 (f2 x))) = x.
Proof. by_bytes. Qed.
Lemma xor_out a b : a ^^ b ^^ b = a.
Proof. by rewrite Z.lxor_assoc, Z.lxor_nilpotent, Z.lxor_0_r. Qed.
Lemma xor_out_l a b : a ^^ b ^^ a = b.
Proof. by rewrite (Z.lxor_comm a b), xor_out. Qed.

Lemma update_128_back k rc : block k → is_byte rc →
  update_decrypt_key_128 (update_encrypt_key_128 k rc).1 (update_encrypt_key_128 k rc).2 = (k, rc).
Proof.
  intros Hk Hrc. open_block Hk. unfold update_encrypt_key_128, update_decrypt_key_128.
  cbn [nth take drop zip_with fst snd app]. rewrite !xor_out. rewrite d2_f2 by done. rewrite !xor_out. done.
Qed.

(** From the key of round [n + 1] back to the key of round 1. *)
Lemma decrypt_128_rounds_schedule n ks k rc s : block k → is_byte rc →
  (∀ i, (i ≤ n)%nat → round_key ks i = (keys_128 i k rc).1) →
  decrypt_128_rounds n (keys_128 (S n) k rc).1 s (keys_128 (S n) k rc).2 =
    (decrypt_rounds n ks s, (keys_128 1 k rc).1, (keys_128 1 k rc).2).
Proof.
  intros Hk Hrc. revert s. induction n as [|n IH]; intros s Hr; [done|].
  destruct (keys_128_ok (S n) k rc Hk Hrc) as [H1 H2].
  cbn [decrypt_128_rounds decrypt_rounds]. rewrite (keys_128_S (S n)), update_128_back by done.
  rewrite (Hr (S n)) by lia. apply IH. intros. apply Hr. lia.
Qed.

(** What [aes_set_key] leaves for a key of sixteen bytes. *)
Lemma set_key_128 key ctx : block key →
  let ctx' := (aes_set_key key 16 ctx).2 in
  rnd ctx' = 10 ∧ ∀ i, (i ≤ 10)%nat → round_key (ksch ctx') i = round_key (key_loop 40 16 16 1 key) i ∧
    round_key (ksch ctx') i = (keys_128 i key 1).1.
Proof.
  intros Hk. assert (Hl : length key = 16%nat) by apply Hk. split; [done|]. intros i Hi.
  change (aes_set_key key 16 ctx).2 with {| ksch := key_loop 40 16 16 1 (take 16 key) ++ drop 176 (ksch ctx); rnd := 10 |}.
  cbn [ksch]. rewrite (take_ge key) by lia.
  assert (E : round_key (key_loop 40 16 16 1 key ++ drop 176 (ksch ctx)) i = round_key (key_loop 40 16 16 1 key) i).
  { apply round_key_app. destruct (key_loop_ok 40 16 16 1 key (proj2 Hk) ltac:(done)) as [_ ->]. lia. }
  split; [done|]. rewrite E. replace 40%nat with (4 * (i + (10 - i)))%nat by lia. by apply schedule_128.
Qed.

(** The variants for 128 bits are the cipher with the schedule of the key. *)
Lemma encrypt_128_prekeyed inb out key ctx : block key →
  bluedroid_aes_encrypt inb out (aes_set_key key 16 ctx).2 = (0, (bluedroid_aes_encrypt_128 inb key).1) ∧
  (bluedroid_aes_encrypt_128 inb key).2 = (keys_128 10 key 1).1.
Proof.
  intros Hk. destruct (set_key_128 key ctx Hk) as [Hr Hs]. unfold bluedroid_aes_encrypt. rewrite Hr.
  change (10 =? 0) with false. cbn [negb]. change (Z.to_nat 10) with 10%nat. change (10 - 1)%nat with 9%nat.
  unfold bluedroid_aes_encrypt_128. rewrite (encrypt_128_rounds_schedule 9 1) by done. change (4 * (9 + 1))%nat with 40%nat.
  pose proof (keys_128_S 9 key 1) as E9. destruct (update_encrypt_key_128 _ _) as [k10 rc10].
  rewrite (proj2 (Hs 0%nat ltac:(lia))), (proj2 (Hs 10%nat ltac:(lia))), E9. cbn [fst snd]. split; [|done]. do 3 f_equal.
  apply encrypt_rounds_ext. intros i Hi. apply Hs. lia.
Qed.

Lemma rc_128 k : (keys_128 10 k 1).2 = 108.
Proof.
  assert (E : ∀ n rc, (keys_128 n k rc).2 = Nat.iter n (λ rc, u8 (f2 rc)) rc).
  { induction n as [|n IH]; intros rc; [done|]. rewrite keys_128_S. cbn [update_encrypt_key_128 snd]. rewrite IH. done. }
  by rewrite E.
Qed.

Lemma decrypt_128_prekeyed c out key ctx : block key →
  bluedroid_aes_decrypt c out (aes_set_key key 16 ctx).2 = (0, (bluedroid_aes_decrypt_128 c (keys_128 10 key 1).1).1) ∧
  (bluedroid_aes_decrypt_128 c (keys_128 10 key 1).1).2 = key.
Proof.
  intros Hk. destruct (set_key_128 key ctx Hk) as [Hr Hs]. unfold bluedroid_aes_decrypt. rewrite Hr.
  change (10 =? 0) with false. cbn [negb]. change (Z.to_nat 10) with 10%nat. change (10 - 1)%nat with 9%nat.
  unfold bluedroid_aes_decrypt_128. rewrite <- (rc_128 key).
  rewrite (decrypt_128_rounds_schedule 9 (ksch (aes_set_key key 16 ctx).2) key 1); [|done|done|intros; apply Hs; lia].
  rewrite (proj2 (Hs 0%nat ltac:(lia))), (proj2 (Hs 10%nat ltac:(lia))). rewrite (keys_128_S 0).
  cbn [keys_128 fst snd]. rewrite (update_128_back key 1 Hk ltac:(done)). done.
Qed.

(** ** Keys of 32 bytes on the fly *)

(** A key of two blocks. *)
Definition block2 (k : list Z) : Prop := length k = 32%nat ∧ bytes_ok k.
Lemma block2_split k : block2 k → ∃ a b, k = a ++ b ∧ block a ∧ block b.
Proof.
  intros [Hl Hb]. exists (take 16 k), (drop 16 k). rewrite take_drop. split; [done|].
  split; (split; [rewrite ?length_take, ?length_drop; lia|]); [by apply Forall_take|by apply Forall_drop].
Qed.

Lemma update_256_ok k rc : block2 k → is_byte rc →
  block2 (update_encrypt_key_256 k rc).1 ∧ is_byte (update_encrypt_key_256 k rc).2.
Proof.
  intros Hk Hrc. apply block2_split in Hk as (a & b & -> & Ha & Hb). open_block Ha.
  apply block_bytes in Hb as (y0 & y1 & y2 & y3 & y4 & y5 & y6 & y7 & y8 & y9 & y10 & y11 & y12 & y13 & y14 & y15 & -> & Hy).
  destruct Hy as (? & ? & ? & ? & ? & ? & ? & ? & ? & ? & ? & ? & ? & ? & ? & ?).
  unfold update_encrypt_key_256. cbn [app nth take drop zip_with fst snd fmap list_fmap]. cbv zeta.
  repeat match goal with |- context [?a ^^ ?b] => is_var a; let z := fresh "z" in
    assert (is_byte (a ^^ b)) by auto 6 with aes; set (z := a ^^ b) in *; clearbody z end.
  split; [|auto with aes]. split; [done|]. rewrite !Forall_cons. split_and!; auto 6 with aes.
Qed.

Lemma update_256_back k rc : block2 k → is_byte rc →
  update_decrypt_key_256 (update_encrypt_key_256 k rc).1 (update_encrypt_key_256 k rc).2 = (k, rc).
Proof.
  intros Hk Hrc. apply block2_split in Hk as (a & b & -> & Ha & Hb). open_block Ha.
  apply block_bytes in Hb as (y0 & y1 & y2 & y3 & y4 & y5 & y6 & y7 & y8 & y9 & y10 & y11 & y12 & y13 & y14 & y15 & -> & _).
  unfold update_encrypt_key_256, update_decrypt_key_256.
  cbn [nth take drop zip_with fst snd app fmap list_fmap]. rewrite d2_f2 by done. rewrite !xor_out. done.
Qed.

Lemma key_loop_update_256 n k rc : block2 k →
  let '(k', rc') := update_encrypt_key_256 k rc in
  key_loop (8 + n) 32 32 rc k = k ++ key_loop n 32 32 rc' k'.
Proof.
  intros Hk. destruct (update_encrypt_key_256 k rc) as [k' rc'] eqn:E.
  assert (Hl : length k = 32%nat) by apply Hk.
  rewrite <- key_loop_front by (rewrite ?Hl; done || lia). rewrite Hl.
  apply block2_split in Hk as (a & b & -> & Ha & Hb). open_block Ha.
  apply block_bytes in Hb as (y0 & y1 & y2 & y3 & y4 & y5 & y6 & y7 & y8 & y9 & y10 & y11 & y12 & y13 & y14 & y15 & -> & _).
  unfold update_encrypt_key_256 in E. cbn [app nth take drop zip_with fmap list_fmap] in E. injection E as <- <-.
  cbn [key_loop Nat.add]. unfold key_step. cbn -[s_box Z.lxor key_loop u8 f2]. reflexivity.
Qed.

(** Two rounds use the halves of one key. *)
Lemma round_key_front2 k l r : length k = 32%nat → round_key (k ++ l) (S (S r)) = round_key l r.
Proof.
  intros H. rewrite <- (take_drop 16 k), <- app_assoc, !round_key_front; [done|rewrite ?length_take, ?length_drop; lia..].
Qed.
Lemma encrypt_rounds_front2 n r k l s : length k = 32%nat → encrypt_rounds n (S (S r)) (k ++ l) s = encrypt_rounds n r l s.
Proof.
  intros H. rewrite <- (take_drop 16 k), <- app_assoc, !encrypt_rounds_front; [done|rewrite ?length_take, ?length_drop; lia..].
Qed.
Lemma round_key_halves k l : length k = 32%nat → round_key (k ++ l) 0 = take 16 k ∧ round_key (k ++ l) 1 = drop 16 k.
Proof.
  intros H. rewrite <- (take_drop 16 k) at 1 3. rewrite <- app_assoc. split.
  - apply round_key_first. rewrite length_take; lia.
  - rewrite round_key_front by (rewrite length_take; lia). apply round_key_first. rewrite length_drop; lia.
Qed.

Fixpoint keys_256 (n : nat) (k : list Z) (rc : Z) : list Z * Z :=
  match n with O => (k, rc) | S n => let '(k, rc) := update_encrypt_key_256 k rc in keys_256 n k rc end.
Lemma keys_256_S n k rc : keys_256 (S n) k rc = update_encrypt_key_256 (keys_256 n k rc).1 (keys_256 n k rc).2.
Proof.
  revert k rc. induction n as [|n IH]; intros k rc; [cbn [keys_256 fst snd]; by destruct (update_encrypt_key_256 k rc)|].
  assert (E : ∀ n, keys_256 (S n) k rc = keys_256 n (update_encrypt_key_256 k rc).1 (update_encrypt_key_256 k rc).2)
    by (intros; cbn [keys_256]; by destruct (update_encrypt_key_256 k rc)).
  rewrite !E. apply IH.
Qed.
Lemma keys_256_ok n k rc : block2 k → is_byte rc → block2 (keys_256 n k rc).1 ∧ is_byte (keys_256 n k rc).2.
Proof. intros Hk Hrc. induction n as [|n IH]; [done|]. rewrite keys_256_S. destruct IH. by apply update_256_ok. Qed.

Lemma schedule_256 n m k rc : block2 k → is_byte rc → 
  round_key (key_loop (8 * (n + m)) 32 32 rc k) (2 * n) = take 16 (keys_256 n k rc).1 ∧
  round_key (key_loop (8 * (n + m)) 32 32 rc k) (S (2 * n)) = drop 16 (keys_256 n k rc).1.
Proof.
  revert k rc. induction n as [|n IH]; intros k rc Hk Hrc.
  - assert (E : ∃ l, key_loop (8 * (0 + m)) 32 32 rc k = k ++ l).
    { destruct m as [|m]; [exists []; by rewrite app_nil_r|]. pose proof (key_loop_update_256 (8 * m) k rc Hk) as E.
      destruct (update_encrypt_key_256 k rc). eexists. replace (8 * (0 + S m))%nat with (8 + 8 * m)%nat by lia. exact E. }
    destruct E as [l ->]. apply round_key_halves, Hk.
  - pose proof (key_loop_update_256 (8 * (n + m)) k rc Hk) as E. destruct (update_256_ok k rc Hk Hrc) as [H1 H2].
    cbn [keys_256]. destruct (update_encrypt_key_256 k rc) as [k' rc'].
    replace (8 * (S n + m))%nat with (8 + 8 * (n + m))%nat by lia. replace (2 * S n)%nat with (S (S (2 * n)))%nat by lia.
    rewrite E, !round_key_front2 by apply Hk. by apply IH.
Qed.

(** The rounds with a schedule that has the keys. *)
Definition scheduled_256 (ks k : list Z) (rc : Z) (n : nat) : Prop := ∀ i, (i ≤ n)%nat →
  round_key ks (2 * i) = take 16 (keys_256 i k rc).1 ∧ ((i < n)%nat → round_key ks (S (2 * i)) = drop 16 (keys_256 i k rc).1).

Lemma odd_double_S j : Nat.odd (S (2 * j)) = true.
Proof. by rewrite Nat.odd_succ, Nat.even_mul. Qed.
Lemma odd_double_SS j : Nat.odd (S (S (2 * j))) = false.
Proof. rewrite Nat.odd_succ, Nat.even_succ, Nat.odd_mul. done. Qed.
Lemma odd_double_SSS j : Nat.odd (S (S (S (2 * j)))) = true.
Proof. by rewrite Nat.odd_succ, Nat.even_succ, odd_double_S. Qed.

Lemma encrypt_256_rounds_schedule n j N ks k rc s : scheduled_256 ks k rc N → (j + n < N)%nat →
  encrypt_256_rounds (S (2 * n)) (S (2 * j)) (keys_256 j k rc).1 s (keys_256 j k rc).2 =
  (encrypt_rounds (S (2 * n)) (S (2 * j)) ks s, (keys_256 (j + n) k rc).1, (keys_256 (j + n) k rc).2).
Proof.
  intros Hs. revert j s. induction n as [|n IH]; intros j s Hj.
  - change (S (2 * 0)) with 1%nat. cbn [encrypt_256_rounds encrypt_rounds].
    rewrite odd_double_S, (proj2 (Hs j ltac:(lia))), Nat.add_0_r by lia. done.
  - replace (S (2 * S n)) with (S (S (S (2 * n)))) by lia. set (m := S (2 * n)) in *.
    cbn [encrypt_256_rounds encrypt_rounds].
    rewrite odd_double_S, odd_double_SS, (proj2 (Hs j ltac:(lia))) by lia.
    replace (S (S (2 * j))) with (2 * S j)%nat by lia. rewrite (proj1 (Hs (S j) ltac:(lia))).
    replace (j + S n)%nat with (S j + n)%nat by lia. rewrite <- (IH (S j)) by lia. rewrite (keys_256_S j).
    destruct (update_encrypt_key_256 _ _). done.
Qed.

Lemma decrypt_256_rounds_schedule n N ks k rc s : block2 k → is_byte rc → scheduled_256 ks k rc N → (n < N)%nat →
  decrypt_256_rounds (S (2 * n)) (keys_256 (S n) k rc).1 s (keys_256 (S n) k rc).2 =
  (decrypt_rounds (S (2 * n)) ks s, k, rc).
Proof.
  intros Hk Hrc Hs. revert s. induction n as [|n IH]; intros s Hn.
  - change (S (2 * 0)) with 1%nat. cbn [decrypt_256_rounds decrypt_rounds]. change (Nat.odd 1) with true. cbv iota.
    rewrite (keys_256_S 0). cbn [keys_256 fst snd]. rewrite update_256_back by done.
    pose proof (proj2 (Hs 0%nat ltac:(lia))) as H1. change (S (2 * 0)) with 1%nat in H1. by rewrite H1.
  - destruct (keys_256_ok (S n) k rc Hk Hrc) as [H1 H2].
    replace (2 * S n)%nat with (S (S (2 * n))) by lia. set (m := S (2 * n)) in *.
    cbn [decrypt_256_rounds decrypt_rounds]. subst m. rewrite odd_double_SSS, odd_double_SS.
    rewrite (keys_256_S (S n)), update_256_back by done.
    replace (S (S (S (2 * n)))) with (S (2 * S n)) by lia. rewrite (proj2 (Hs (S n) ltac:(lia))) by lia.
    replace (S (S (2 * n))) with (2 * S n)%nat by lia. rewrite (proj1 (Hs (S n) ltac:(lia))). apply IH. lia.
Qed.

Lemma set_key_256 key ctx : block2 key →
  let ctx' := (aes_set_key key 32 ctx).2 in rnd ctx' = 14 ∧ scheduled_256 (ksch ctx') key 1 7.
Proof.
  intros Hk. assert (Hl : length key = 32%nat) by apply Hk. split; [done|].
  change (aes_set_key key 32 ctx).2 with {| ksch := key_loop 52 32 32 1 (take 32 key) ++ drop 240 (ksch ctx); rnd := 14 |}.
  cbn [ksch]. rewrite (take_ge key) by lia.
  assert (E : ∀ i, (i < 15)%nat → round_key (key_loop 52 32 32 1 key ++ drop 240 (ksch ctx)) i = round_key (key_loop 56 32 32 1 key) i).
  { intros i Hi. destruct (key_loop_ok 52 32 32 1 key (proj2 Hk) ltac:(done)) as [_ Hl2].
    destruct (key_loop_prefix 52 4 32 32 1 key) as [r Er]. change (52 + 4)%nat with 56%nat in Er.
    rewrite Er, !round_key_app by lia. done. }
  intros i Hi. destruct (schedule_256 i (7 - i) key 1 Hk ltac:(done)) as [H1 H2].
  replace (8 * (i + (7 - i)))%nat with 56%nat in * by lia. rewrite !E by lia. rewrite H1. split; [done|].
  intros Hi7. rewrite E by lia. done.
Qed.

Lemma encrypt_256_prekeyed inb out key ctx : block2 key →
  bluedroid_aes_encrypt inb out (aes_set_key key 32 ctx).2 = (0, (bluedroid_aes_encrypt_256 inb key).1) ∧
  (bluedroid_aes_encrypt_256 inb key).2 = (keys_256 7 key 1).1.
Proof.
  intros Hk. destruct (set_key_256 key ctx Hk) as [Hr Hs]. unfold bluedroid_aes_encrypt. rewrite Hr.
  change (14 =? 0) with false. cbn [negb]. change (Z.to_nat 14) with 14%nat. change (14 - 1)%nat with 13%nat.
  unfold bluedroid_aes_encrypt_256.
  pose proof (encrypt_256_rounds_schedule 6 0 7 (ksch (aes_set_key key 32 ctx).2) key 1 (copy_and_key inb (take 16 key)) Hs ltac:(lia)) as E.
  cbn [keys_256 fst snd] in E. change (S (2 * 6)) with 13%nat in E. change (S (2 * 0)) with 1%nat in E. unfold N_BLOCK. rewrite E.
  change (0 + 6)%nat with 6%nat. pose proof (keys_256_S 6 key 1) as E6. destruct (update_encrypt_key_256 _ _) as [k7 rc7].
  pose proof (proj1 (Hs 0%nat ltac:(lia))) as R0. pose proof (proj1 (Hs 7%nat ltac:(lia))) as R7.
  change (2 * 0)%nat with 0%nat in R0. change (2 * 7)%nat with 14%nat in R7. rewrite R0, R7, E6.
  cbn [keys_256 fst snd]. split; reflexivity.
Qed.

Lemma rc_256 k : (keys_256 7 k 1).2 = 128.
Proof.
  assert (E : ∀ n rc, (keys_256 n k rc).2 = Nat.iter n (λ rc, u8 (f2 rc)) rc).
  { induction n as [|n IH]; intros rc; [done|]. rewrite keys_256_S. cbn [update_encrypt_key_256 snd]. rewrite IH. done. }
  by rewrite E.
Qed.

Lemma decrypt_256_prekeyed c out key ctx : block2 key →
  bluedroid_aes_decrypt c out (aes_set_key key 32 ctx).2 = (0, (bluedroid_aes_decrypt_256 c (keys_256 7 key 1).1).1) ∧
  (bluedroid_aes_decrypt_256 c (keys_256 7 key 1).1).2 = key.
Proof.
  intros Hk. destruct (set_key_256 key ctx Hk) as [Hr Hs]. unfold bluedroid_aes_decrypt. rewrite Hr.
  change (14 =? 0) with false. cbn [negb]. change (Z.to_nat 14) with 14%nat. change (14 - 1)%nat with (S (2 * 6)).
  unfold bluedroid_aes_decrypt_256. rewrite <- (rc_256 key). change (decrypt_256_rounds 13) with (decrypt_256_rounds (S (2 * 6))).
  rewrite (decrypt_256_rounds_schedule 6 7 (ksch (aes_set_key key 32 ctx).2) key 1) by (done || lia).
  pose proof (proj1 (Hs 0%nat ltac:(lia))) as R0. pose proof (proj1 (Hs 7%nat ltac:(lia))) as R7.
  change (2 * 0)%nat with 0%nat in R0. change (2 * 7)%nat with 14%nat in R7. rewrite R0, R7.
  cbn [keys_256 fst snd]. split; reflexivity.
Qed.
