(* ===== verification/AesSpec.v ===== *)
(** * The cipher of the pairing code is the one of FIPS 197

    A reference definition of AES by the steps of the standard (SubBytes,
    ShiftRows, MixColumns, AddRoundKey and KeyExpansion, with the substitution
    as an inverse in the field and an affine map), and the properties of
    [Aes]: encryption with a key schedule is the reference cipher, decryption
    undoes it, and the variants with keys on the fly are the same cipher. *)

From S2P Require Import Prelude Aes AesProofs.

#[local] Infix "^^" := Z.lxor (at level 50, left associativity).
#[local] Notation "st .[ i ]" := (nth i st 0) (at level 1, format "st .[ i ]").

(** ** The reference *)

Module Fips197.
Definition xtime (a : Z) : Z := if 2 * a <? 256 then 2 * a else (2 * a) ^^ 283.
(** The product in the field: [n] bits of [b]. *)
Fixpoint gmul_bits (n : nat) (a b : Z) : Z :=
  match n with O => 0 | S n => (if Z.odd b then a else 0) ^^ gmul_bits n (xtime a) (b / 2) end.
Definition gmul : Z → Z → Z := gmul_bits 8.
(** The inverse, and 0 for 0. *)
Definition inverse (a : Z) : Z := default 0 (List.find (λ b, gmul a b =? 1) (seqZ 0 256)).
Definition rotate (n b : Z) : Z := (b * 2 ^ n) mod 256 + b / 2 ^ (8 - n).
Definition sub_byte (a : Z) : Z :=
  let b := inverse a in b ^^ rotate 1 b ^^ rotate 2 b ^^ rotate 3 b ^^ rotate 4 b ^^ 99.

(** Column [c] of the state is its bytes [4 c] to [4 c + 3]. *)
Definition SubBytes (st : list Z) : list Z := sub_byte <$> st.
Definition ShiftRows (st : list Z) : list Z :=
  (λ i, st.[(i mod 4 + 4 * ((i / 4 + i mod 4) mod 4))%nat]) <$> seq 0 16.
Definition MixColumn (s0 s1 s2 s3 : Z) : list Z :=
  [gmul 2 s0 ^^ gmul 3 s1 ^^ s2 ^^ s3; s0 ^^ gmul 2 s1 ^^ gmul 3 s2 ^^ s3;
   s0 ^^ s1 ^^ gmul 2 s2 ^^ gmul 3 s3; gmul 3 s0 ^^ s1 ^^ s2 ^^ gmul 2 s3].
Definition MixColumns (st : list Z) : list Z :=
  concat ((λ c, MixColumn (st.[(4 * c)%nat]) (st.[(4 * c + 1)%nat]) (st.[(4 * c + 2)%nat]) (st.[(4 * c + 3)%nat])) <$> seq 0 4).
Definition AddRoundKey (st k : list Z) : list Z := zip_with Z.lxor st k.

Definition RotWord (w : list Z) : list Z := [w.[1]; w.[2]; w.[3]; w.[0]].
Definition SubWord (w : list Z) : list Z := sub_byte <$> w.
Definition Rcon (j : nat) : Z := Nat.iter (j - 1) xtime 1.
Definition next (Nk : nat) (ws : list (list Z)) : list Z :=
  let i := length ws in
  let temp := nth (i - 1) ws [] in
  let temp :=
    if (i mod Nk =? 0)%nat then zip_with Z.lxor (SubWord (RotWord temp)) [Rcon (i / Nk); 0; 0; 0]
    else if (6 <? Nk)%nat && (i mod Nk =? 4)%nat then SubWord temp
    else temp in
  zip_with Z.lxor (nth (i - Nk) ws []) temp.
Fixpoint expand (n Nk : nat) (ws : list (list Z)) : list (list Z) :=
  match n with O => ws | S n => expand n Nk (ws ++ [next Nk ws]) end.
Definition key_words (Nk : nat) (key : list Z) : list (list Z) := (λ i, take 4 (drop (4 * i) key)) <$> seq 0 Nk.
Definition KeyExpansion (Nk : nat) (key : list Z) : list (list Z) := expand (3 * Nk + 28) Nk (key_words Nk key).
Definition round_words (ws : list (list Z)) (r : nat) : list Z := concat (take 4 (drop (4 * r) ws)).

Fixpoint rounds (n r : nat) (ws : list (list Z)) (st : list Z) : list Z :=
  match n with
  | O => st
  | S n => rounds n (S r) ws (AddRoundKey (MixColumns (ShiftRows (SubBytes st))) (round_words ws r))
  end.
Definition Cipher (Nk : nat) (key st : list Z) : list Z :=
  let ws := KeyExpansion Nk key in let Nr := (Nk + 6)%nat in
  let st := rounds (Nr - 1) 1 ws (AddRoundKey st (round_words ws 0)) in
  AddRoundKey (ShiftRows (SubBytes st)) (round_words ws Nr).
End Fips197.
Import Fips197.

(** ** The steps *)

Lemma s_box_spec : ∀ x, is_byte x → s_box x = sub_byte x.
Proof. by_bytes. Qed.
Lemma gfm2_sb_spec : ∀ x, is_byte x → gfm2_sb x = gmul 2 (sub_byte x).
Proof. by_bytes. Qed.
Lemma gfm3_sb_spec : ∀ x, is_byte x → gfm3_sb x = gmul 3 (sub_byte x).
Proof. by_bytes. Qed.
Lemma f2_spec : ∀ x, is_byte x → u8 (f2 x) = xtime x.
Proof. by_bytes. Qed.

#[local] Opaque sub_byte gmul Z.lxor s_box gfm2_sb gfm3_sb.

Lemma shift_sub_spec st : block st → shift_sub_rows st = ShiftRows (SubBytes st).
Proof.
  intros Hs. open_block Hs. unfold shift_sub_rows, SubBytes, ShiftRows. cbn. rewrite !s_box_spec by assumption. reflexivity.
Qed.
Lemma mix_sub_spec st : block st → mix_sub_columns st = MixColumns (ShiftRows (SubBytes st)).
Proof.
  intros Hs. open_block Hs. unfold mix_sub_columns, SubBytes, ShiftRows, MixColumns. cbn.
  rewrite !gfm2_sb_spec, !gfm3_sb_spec, !s_box_spec by assumption. reflexivity.
Qed.

(** ** The key schedule *)

(** A word of the schedule. *)
Definition word (w : list Z) : Prop := length w = 4%nat ∧ bytes_ok w.

Lemma concat_words ws : Forall word ws → length (concat ws) = (4 * length ws)%nat ∧ bytes_ok (concat ws).
Proof.
  induction 1 as [|w ws [Hl Hb] _ [IH1 IH2]]; cbn [concat length]; [done|].
  rewrite length_app. split; [lia|by apply Forall_app].
Qed.

(** Byte [j] of word [i]. *)
Lemma nth_concat ws i j : Forall word ws → (i < length ws)%nat → (j < 4)%nat → (concat ws).[(4 * i + j)%nat] = (nth i ws []).[j].
Proof.
  intros Hw. revert i. induction Hw as [|w ws [Hl Hb] _ IH]; intros [|i] Hi Hj; cbn [length concat nth] in *; try lia.
  - apply app_nth1. lia.
  - rewrite app_nth2 by lia. replace (4 * S i + j - length w)%nat with (4 * i + j)%nat by lia. apply IH; lia.
Qed.

Lemma word_bytes w : word w → ∃ a b c d, w = [a; b; c; d] ∧ is_byte a ∧ is_byte b ∧ is_byte c ∧ is_byte d.
Proof.
  intros [Hl Hb]. do 4 (destruct w as [|? w]; [done|]). destruct w; [|done]. rewrite !Forall_cons in Hb. do 4 eexists. split; [reflexivity|tauto].
Qed.

Lemma nth_word ws i : Forall word ws → (i < length ws)%nat → word (nth i ws []).
Proof. intros H Hi. rewrite Forall_forall in H. apply H, list_elem_of_In, nth_In, Hi. Qed.

Lemma Rcon_S j : (0 < j)%nat → Rcon (S j) = xtime (Rcon j).
Proof. intros H. unfold Rcon. replace (S j - 1)%nat with (S (j - 1)) by lia. done. Qed.
Lemma xtime_byte : ∀ x, is_byte x → is_byte (xtime x).
Proof. by_bytes. Qed.
Lemma Rcon_byte j : is_byte (Rcon j).
Proof. unfold Rcon. induction (j - 1)%nat as [|n IH]; [done|]. cbn. by apply xtime_byte. Qed.

(** How often the round constant has changed before word [i]. *)
Definition constants (Nk i : nat) : nat := ((i + Nk - 1) / Nk)%nat.
Lemma constants_S Nk i : (0 < Nk)%nat → (Nk ≤ i)%nat →
  constants Nk (S i) = if (i mod Nk =? 0)%nat then S (constants Nk i) else constants Nk i.
Proof.
  intros HN Hi. unfold constants. pose proof (Nat.div_mod_eq i Nk) as E. pose proof (Nat.mod_upper_bound i Nk ltac:(lia)).
  set (q := (i / Nk)%nat) in *. set (r := (i mod Nk)%nat) in *.
  assert (Es : ((S i + Nk - 1) / Nk = S q)%nat) by (symmetry; apply (Nat.div_unique _ _ _ r); lia).
  rewrite Es. destruct (Nat.eqb_spec r 0) as [E0|E0]; [f_equal|].
  - apply (Nat.div_unique _ _ _ (Nk - 1)); lia.
  - apply (Nat.div_unique _ _ _ (r - 1)); lia.
Qed.
Lemma constants_div Nk i : (0 < Nk)%nat → (i mod Nk = 0)%nat → constants Nk i = (i / Nk)%nat.
Proof.
  intros HN H. unfold constants. pose proof (Nat.div_mod_eq i Nk) as E. symmetry. apply (Nat.div_unique _ _ _ (Nk - 1)); lia.
Qed.

(** One word of the loop of [aes_set_key]. *)
Lemma key_step_spec Nk ws : (4 ≤ Nk)%nat → (Nk ≤ length ws)%nat → Forall word ws →
  key_step (4 * Nk) (4 * length ws) (Rcon (constants Nk (length ws))) (concat ws) =
    (next Nk ws, Rcon (constants Nk (S (length ws)))) ∧ word (next Nk ws).
Proof.
  intros HN Hl Hw. pose proof (nth_word ws (length ws - 1) Hw ltac:(lia)) as Hlast.
  pose proof (nth_word ws (length ws - Nk) Hw ltac:(lia)) as Hold.
  assert (Hc : (0 < constants Nk (length ws))%nat) by (unfold constants; apply Nat.div_str_pos; lia).
  pose proof (Rcon_byte (constants Nk (length ws))) as Hrc. pose proof (constants_S Nk (length ws) ltac:(lia) Hl) as ES.
  pose proof (constants_div Nk (length ws) ltac:(lia)) as ED.
  unfold key_step, next.
  rewrite !Nat.Div0.mul_mod_distr_l.
  replace (4 * length ws - 4)%nat with (4 * (length ws - 1) + 0)%nat by lia.
  replace (4 * length ws - 3)%nat with (4 * (length ws - 1) + 1)%nat by lia.
  replace (4 * length ws - 2)%nat with (4 * (length ws - 1) + 2)%nat by lia.
  replace (4 * length ws - 1)%nat with (4 * (length ws - 1) + 3)%nat by lia.
  replace (4 * length ws - 4 * Nk)%nat with (4 * (length ws - Nk))%nat by lia.
  rewrite !nth_concat by (done || lia).
  apply word_bytes in Hlast as (a & b & c & d & -> & Ha & Hb & Hcc & Hd). apply word_bytes in Hold as (a' & b' & c' & d' & -> & Ha' & Hb' & Hc' & Hd').
  replace (4 * (length ws mod Nk) =? 0)%nat with (length ws mod Nk =? 0)%nat by
    (destruct (Nat.eqb_spec (length ws mod Nk) 0), (Nat.eqb_spec (4 * (length ws mod Nk)) 0); lia).
  replace (24 <? 4 * Nk)%nat with (6 <? Nk)%nat by (destruct (Nat.ltb_spec 6 Nk), (Nat.ltb_spec 24 (4 * Nk)); lia).
  replace (4 * (length ws mod Nk) =? 16)%nat with (length ws mod Nk =? 4)%nat by
    (destruct (Nat.eqb_spec (length ws mod Nk) 4), (Nat.eqb_spec (4 * (length ws mod Nk)) 16); lia).
  rewrite ES. destruct (Nat.eqb_spec (length ws mod Nk) 0) as [E0|E0]; [|destruct (_ && _)].
  - rewrite ED, <- ED, Rcon_S, f2_spec by done. cbn -[f2 Rcon]. rewrite !Z.lxor_0_r.
    rewrite <- !s_box_spec by done. split; [reflexivity|]. split; [done|]. rewrite !Forall_cons. split_and!; auto 6 with aes.
  - cbn -[Rcon]. rewrite <- !s_box_spec by done. split; [reflexivity|]. split; [done|]. rewrite !Forall_cons. split_and!; auto 6 with aes.
  - cbn -[Rcon]. split; [reflexivity|]. split; [done|]. rewrite !Forall_cons. split_and!; auto 6 with aes.
Qed.

Lemma key_loop_spec n Nk ws : (4 ≤ Nk)%nat → (Nk ≤ length ws)%nat → Forall word ws →
  key_loop n (4 * Nk) (4 * length ws) (Rcon (constants Nk (length ws))) (concat ws) = concat (expand n Nk ws) ∧
  Forall word (expand n Nk ws) ∧ length (expand n Nk ws) = (length ws + n)%nat.
Proof.
  intros HN. revert ws. induction n as [|n IH]; intros ws Hl Hw; [split_and!; [done|done|cbn; lia]|].
  cbn [key_loop expand]. destruct (key_step_spec Nk ws HN Hl Hw) as [-> Hnext].
  destruct (IH (ws ++ [next Nk ws])) as (H1 & H2 & H3); [rewrite length_app; cbn; lia|apply Forall_app; split; [done|by constructor]|].
  rewrite length_app in H1, H3. cbn [length] in H1, H3. rewrite Nat.add_1_r in H1, H3.
  rewrite concat_app in H1. cbn [concat] in H1. rewrite app_nil_r in H1.
  split_and!; [|done|lia]. rewrite <- H1. f_equal. lia.
Qed.

Lemma key_words_ok Nk key : length key = (4 * Nk)%nat → bytes_ok key →
  concat (key_words Nk key) = key ∧ Forall word (key_words Nk key) ∧ length (key_words Nk key) = Nk.
Proof.
  unfold key_words. intros Hl Hb. rewrite length_map, length_seq. split_and!; [| |done].
  - revert key Hl Hb. induction Nk as [|n IH]; intros key Hl Hb; [by destruct key|].
    cbn [seq fmap list_fmap concat]. rewrite drop_0. rewrite <- (take_drop 4 key) at 2. f_equal.
    etransitivity; [|apply (IH (drop 4 key))]; [|rewrite length_drop; lia|by apply Forall_drop].
    f_equal. rewrite <- fmap_S_seq, <- list_fmap_compose. apply list_fmap_ext. intros i x _. unfold compose.
    rewrite drop_drop. do 2 f_equal. lia.
  - apply Forall_fmap, Forall_forall. intros i Hi. apply elem_of_seq in Hi. split.
    + rewrite length_take, length_drop. lia.
    + by apply Forall_take, Forall_drop.
Qed.

Lemma round_words_spec ws r : Forall word ws → round_words ws r = round_key (concat ws) r.
Proof.
  intros Hw. unfold round_words, round_key, N_BLOCK.
  assert (Hd : ∀ n ws, Forall word ws → concat (drop n ws) = drop (4 * n) (concat ws) ∧ concat (take n ws) = take (4 * n) (concat ws)).
  { clear. intros n. induction n as [|n IH]; intros ws Hw; [by rewrite !drop_0|].
    destruct Hw as [|w ws [Hl _] Hw]; [by rewrite drop_nil, take_nil|]. destruct (IH ws Hw) as [E1 E2].
    cbn [drop take concat]. rewrite E1, E2. rewrite drop_app_ge, take_app_ge by lia. rewrite Hl. split; do 2 f_equal; lia. }
  destruct (Hd (4 * r)%nat ws Hw) as [E1 _]. destruct (Hd 4%nat (drop (4 * r) ws) ltac:(by apply Forall_drop)) as [_ ->].
  rewrite E1. change (4 * 4)%nat with 16%nat. do 2 f_equal. lia.
Qed.

Lemma rounds_spec n r ws ks st m : round_keys ks m → (∀ i, (i ≤ m)%nat → round_key ks i = round_words ws i) → (r + n ≤ S m)%nat →
  block st → encrypt_rounds n r ks st = rounds n r ws st.
Proof.
  intros Hk Hs. revert r st. induction n as [|n IH]; intros r st Hr Hb; cbn [encrypt_rounds rounds]; [done|].
  rewrite mix_sub_spec by done. rewrite Hs by lia. apply IH; [lia|]. rewrite <- mix_sub_spec by done.
  apply xor_block_block; [by apply mix_block|]. rewrite <- Hs by lia. apply (round_key_block _ m); [done|lia].
Qed.

(** The schedule of [aes_set_key] is the key expansion. *)
Lemma set_key_spec key keylen ctx len : key_length keylen = Some len → length key = len → bytes_ok key →
  let ctx' := (aes_set_key key keylen ctx).2 in
  keyed ctx' ∧ rnd ctx' = Z.of_nat (len / 4) + 6 ∧
  ∀ i, (i ≤ Z.to_nat (rnd ctx'))%nat → round_key (ksch ctx') i = round_words (KeyExpansion (len / 4) key) i.
Proof.
  intros Hl Hlk Hb. pose proof (aes_set_key_keyed key keylen ctx len Hl Hlk Hb) as H.
  assert (Hc : ∃ Nk, len = (4 * Nk)%nat ∧ (4 ≤ Nk)%nat).
  { unfold key_length in Hl. repeat case_match; simplify_eq; [exists 4%nat|exists 6%nat|exists 8%nat]; lia. }
  destruct Hc as (Nk & -> & HN).
  unfold aes_set_key in *. rewrite Hl in *. cbv beta iota zeta in H. destruct H as (_ & Hk & Hr). cbn [snd] in *.
  assert (E4 : (4 * Nk / 4 = Nk)%nat) by (rewrite Nat.mul_comm; apply Nat.div_mul; lia). rewrite !E4.
  cbn [ksch rnd] in *. split_and!; [done|rewrite Hr; Z.div_mod_to_equations; lia|]. intros i Hi.
  assert (Hrnd : Z.of_nat ((4 * Nk + 28) * 4 / 16) - 1 = Z.of_nat Nk + 6) by (rewrite Hr; Z.div_mod_to_equations; lia).
  rewrite Hrnd in Hi. rewrite (take_ge key) by lia.
  destruct (key_words_ok Nk key Hlk Hb) as (K1 & K2 & K3).
  destruct (key_loop_spec (3 * Nk + 28) Nk (key_words Nk key) HN ltac:(lia) K2) as (S1 & S2 & S3).
  rewrite K1, K3 in S1. rewrite K3 in S3. destruct (concat_words _ S2) as [L1 _].
  replace (constants Nk Nk) with 1%nat in S1 by (unfold constants; apply (Nat.div_unique _ _ _ (Nk - 1)); lia).
  change (Rcon 1) with 1 in S1.
  replace (((4 * Nk + 28) * 4 - 4 * Nk) / 4)%nat with (3 * Nk + 28)%nat by (apply (Nat.div_unique _ _ _ 0); lia).
  rewrite S1, round_words_spec by done. apply round_key_app. unfold KeyExpansion in *. lia.
Qed.

Lemma encrypt_fips197 key keylen len ctx inb out : key_length keylen = Some len → length key = len → bytes_ok key → block inb →
  bluedroid_aes_encrypt inb out (aes_set_key key keylen ctx).2 = (0, Cipher (len / 4) key inb).
Proof.
  intros Hl Hlk Hb Hi. destruct (set_key_spec key keylen ctx len Hl Hlk Hb) as ([Hpos Hk] & Hr & Hs).
  set (ctx' := (aes_set_key key keylen ctx).2) in *. unfold bluedroid_aes_encrypt, Cipher.
  rewrite (proj2 (Z.eqb_neq _ _)) by lia. cbn [negb].
  set (n := Z.to_nat (rnd ctx')) in *. assert (En : (len / 4 + 6)%nat = n) by lia. rewrite En.
  set (ws := KeyExpansion _ key) in *. change copy_and_key with AddRoundKey.
  assert (H0 : block (AddRoundKey inb (round_words ws 0))).
  { apply xor_block_block; [done|]. rewrite <- Hs by lia. apply (round_key_block _ n); [done|lia]. }
  rewrite !Hs by lia. rewrite (rounds_spec _ _ ws (ksch ctx') _ n) by (done || lia).
  rewrite shift_sub_spec; [done|]. rewrite <- (rounds_spec _ _ ws (ksch ctx') _ n) by (done || lia).
  apply (encrypt_rounds_block _ _ _ _ n); [done|lia|done].
Qed.
Lemma cipher_block key keylen len (ctx : aes_context) inb : key_length keylen = Some len → length key = len → bytes_ok key → block inb →
  block (Cipher (len / 4) key inb).
Proof.
  intros Hl Hlk Hb Hi. pose proof (encrypt_fips197 key keylen len ctx inb [] Hl Hlk Hb Hi) as E.
  destruct (set_key_spec key keylen ctx len Hl Hlk Hb) as [Hkey _].
  destruct (encrypt_keyed inb [] _ Hkey Hi) as (c & Ec & Hc & _). rewrite Ec in E.
  apply (f_equal snd) in E. cbn [snd] in E. by rewrite <- E.
Qed.

(** ** Properties *)

(** [C30] Encryption is AES: for every key of 16, 24 or 32 bytes, whose length may
    be given in bytes or (but for 256) in bits, [bluedroid_aes_encrypt] with the
    context of [aes_set_key] gives the block that the cipher of FIPS 197 gives
    for the key and the plain text. *)
Theorem aes_encrypt_fips197 key keylen len ctx inb out : key_length keylen = Some len → length key = len → bytes_ok key → block inb →
  bluedroid_aes_encrypt inb out (aes_set_key key keylen ctx).2 = (0, Cipher (len / 4) key inb).
Proof. apply encrypt_fips197. Qed.
Lemma aes_encrypt_fips197_witness :
  bluedroid_aes_encrypt fips_plain [] (aes_set_key (seqZ 0 24) 192 no_context).2 = (0, Cipher 6 (seqZ 0 24) fips_plain).
Proof.
  apply (aes_encrypt_fips197 (seqZ 0 24) 192 24); [reflexivity|reflexivity|apply (bool_decide_eq_true_1 _); reflexivity|].
  apply (bool_decide_eq_true_1 _). reflexivity.
Defined.

(** [C40] Decryption undoes encryption in chains of blocks: for every key of a known
    length, starting block and text of whole blocks, [aes_cbc_encrypt] succeeds
    with a text of the same length, and [aes_cbc_decrypt] of it with the same key
    and starting block gives the text back and ends with the same chaining
    block. *)
Theorem aes_cbc_decrypt_encrypt key keylen len ctx n inb out iv : key_length keylen = Some len → length key = len → bytes_ok key →
  length inb = (16 * n)%nat → length out = (16 * n)%nat → bytes_ok inb → block iv →
  let ctx' := (aes_set_key key keylen ctx).2 in
  ∃ c iv', aes_cbc_encrypt n inb iv ctx' = (0, c, iv') ∧ length c = length inb ∧ aes_cbc_decrypt n c out iv ctx' = (0, inb, iv').
Proof.
  intros Hl Hlk Hb Hn Ho Hi Hiv. destruct (set_key_spec key keylen ctx len Hl Hlk Hb) as (Hk & _).
  destruct (cbc_roundtrip n inb out iv _ Hk Hn Hi Hiv) as (c & iv' & E1 & E2 & E3). exists c, iv'.
  split_and!; [done|congruence|]. by rewrite E3, drop_ge, app_nil_r by lia.
Qed.
Lemma aes_cbc_decrypt_encrypt_witness :
  let ctx' := (aes_set_key (seqZ 0 16) 128 no_context).2 in
  ∃ c iv', aes_cbc_encrypt 2 (seqZ 7 32) fips_plain ctx' = (0, c, iv') ∧ length c = 32%nat ∧
    aes_cbc_decrypt 2 c (replicate 32 0) fips_plain ctx' = (0, seqZ 7 32, iv').
Proof.
  apply (aes_cbc_decrypt_encrypt (seqZ 0 16) 128 16 no_context 2 (seqZ 7 32) (replicate 32 0) fips_plain);
    try reflexivity; apply (bool_decide_eq_true_1 _); reflexivity.
Defined.

(** From a cipher text and its key back, when both are the ones of the key schedule. *)
Lemma on_the_fly_back (key inb c o_key : list Z) ctx (encrypted : Z * list Z) (back : list Z * list Z) :
  (∃ c, encrypted = (0, c) ∧ block c ∧ ∀ out', bluedroid_aes_decrypt c out' ctx = (0, inb)) →
  encrypted = (0, c) → (∀ out', bluedroid_aes_decrypt c out' ctx = (0, back.1)) → back.2 = key → back = (inb, key).
Proof.
  intros (c' & E & _ & Hd) E' Hb Hk. rewrite E in E'. injection E' as ->. specialize (Hd []). rewrite (Hb []) in Hd.
  destruct back as [b k]. cbn [fst snd] in *. by injection Hd as <-; subst.
Qed.

(** The variants with keys on the fly are the same cipher: for a key of 16
    bytes [bluedroid_aes_encrypt_128] gives the block of [bluedroid_aes_encrypt]
    with the schedule of the key, and [bluedroid_aes_decrypt_128] with the key it
    hands out gives the block and the key back; likewise the variants for keys of
    32 bytes. *)
Theorem aes_on_the_fly key inb ctx out : block inb →
  (block key →
    let '(c, o_key) := bluedroid_aes_encrypt_128 inb key in
    bluedroid_aes_encrypt inb out (aes_set_key key 16 ctx).2 = (0, c) ∧ bluedroid_aes_decrypt_128 c o_key = (inb, key)) ∧
  (block2 key →
    let '(c, o_key) := bluedroid_aes_encrypt_256 inb key in
    bluedroid_aes_encrypt inb out (aes_set_key key 32 ctx).2 = (0, c) ∧ bluedroid_aes_decrypt_256 c o_key = (inb, key)).
Proof.
  intros Hi. split; intros Hk.
  - destruct (encrypt_128_prekeyed inb out key ctx Hk) as [E1 E2].
    assert (Hkey : keyed (aes_set_key key 16 ctx).2) by (apply (set_key_spec key 16 ctx 16); [reflexivity|apply Hk|apply Hk]).
    pose proof (encrypt_keyed inb out _ Hkey Hi) as Hc.
    pose proof (λ c out', decrypt_128_prekeyed c out' key ctx Hk) as Hd. rewrite <- E2 in Hd.
    destruct (bluedroid_aes_encrypt_128 inb key) as [c o_key]. cbn [fst snd] in E1, E2, Hd. split; [exact E1|].
    apply (on_the_fly_back key inb c o_key _ _ _ Hc E1); [intros out'; apply (Hd c out')|apply (Hd c [])].
  - destruct (encrypt_256_prekeyed inb out key ctx Hk) as [E1 E2].
    assert (Hkey : keyed (aes_set_key key 32 ctx).2) by (apply (set_key_spec key 32 ctx 32); [reflexivity|apply Hk|apply Hk]).
    pose proof (encrypt_keyed inb out _ Hkey Hi) as Hc.
    pose proof (λ c out', decrypt_256_prekeyed c out' key ctx Hk) as Hd. rewrite <- E2 in Hd.
    destruct (bluedroid_aes_encrypt_256 inb key) as [c o_key]. cbn [fst snd] in E1, E2, Hd. split; [exact E1|].
    apply (on_the_fly_back key inb c o_key _ _ _ Hc E1); [intros out'; apply (Hd c out')|apply (Hd c [])].
Qed.
Lemma aes_on_the_fly_witness :
  let '(c, o_key) := bluedroid_aes_encrypt_128 fips_plain (seqZ 0 16) in
  bluedroid_aes_encrypt fips_plain [] (aes_set_key (seqZ 0 16) 16 no_context).2 = (0, c) ∧
  bluedroid_aes_decrypt_128 c o_key = (fips_plain, seqZ 0 16).
Proof.
  assert (Hi : block fips_plain) by (apply (bool_decide_eq_true_1 _); reflexivity).
  assert (Hk : block (seqZ 0 16)) by (apply (bool_decide_eq_true_1 _); reflexivity).
  exact (proj1 (aes_on_the_fly (seqZ 0 16) fips_plain no_context [] Hi) Hk).
Defined.
