(* ===== verification/Cmac.v ===== *)
(** * Encryption and authentication codes of the pairing code

    Models [src/components/bt/bluedroid/stack/smp/smp_cmac.c], the function
    [smp_encrypt_data] of [smp_keys.c] and [SMP_Encrypt] of [smp_api.c].  Byte
    arrays are little endian: the first byte is the least significant one.  The
    control block [cmac_cb] and the count of the calls of [osi_malloc] are the
    state that the functions pass on; whether a call succeeds is a parameter. *)

From S2P Require Import Prelude Aes.

Definition BT_OCTET16_LEN : Z := 16.
Definition SMP_ENCRYT_KEY_SIZE : Z := 16.
Definition SMP_ENCRYT_DATA_SIZE : Z := 16.
Definition HCI_SUCCESS : Z := 0.
Definition HCI_BLE_ENCRYPT : Z := 8215.

(** ** Data *)

(** [text] is the buffer, or the null pointer. *)
Record tCMAC_CB := { text : option (list Z); len : Z; round : Z }.
Record tSMP_ENC := { status : Z; param_len : Z; opcode : Z; param_buf : list Z }.
Record smp_state := { cmac_cb : tCMAC_CB; mallocs : nat }.

Definition const_Rb : list Z := 135 :: replicate 15 0.

Section Alloc.
(** Whether call number [n] of [osi_malloc] returns a buffer. *)
Context (available : nat → bool).

Definition osi_malloc : M smp_state bool := λ s,
  Ok (available (mallocs s), {| cmac_cb := cmac_cb s; mallocs := S (mallocs s) |}).
Definition set_cb (cb : tCMAC_CB) : M smp_state () := modify (λ s, {| cmac_cb := cb; mallocs := mallocs s |}).

(** ** Encryption *)

Definition smp_xor_128 (a b : list Z) : list Z := zip_with Z.lxor a b.

(** The work space of 64 bytes holds the plain text, its reverse, the reverse of
    the key and the output.  [ctx] is what the stack held at the cipher's
    context.  An array that is too short is read past its end. *)
Definition smp_encrypt_data (ctx : aes_context) (key : list Z) (key_len : Z) (plain_text : list Z) (pt_len : Z) :
    M smp_state (option tSMP_ENC) :=
  if negb (key_len =? SMP_ENCRYT_KEY_SIZE) then mret None else
  p_start ← osi_malloc;
  if negb p_start then mret None else
  let pt_len := if SMP_ENCRYT_DATA_SIZE <? pt_len then SMP_ENCRYT_DATA_SIZE else pt_len in
  plain ← lift (load_bytes plain_text 0 pt_len);
  let plain := plain ++ replicate (Z.to_nat (SMP_ENCRYT_DATA_SIZE - pt_len)) 0 in
  let p_rev_data := reverse plain in
  key ← lift (load_bytes key 0 SMP_ENCRYT_KEY_SIZE);
  let p_rev_key := reverse key in
  let ctx := (aes_set_key p_rev_key SMP_ENCRYT_KEY_SIZE ctx).2 in
  let p_rev_output := (bluedroid_aes_encrypt p_rev_data (replicate 16 0) ctx).2 in
  mret (Some {| param_buf := reverse p_rev_output; param_len := SMP_ENCRYT_KEY_SIZE; status := HCI_SUCCESS;
                opcode := HCI_BLE_ENCRYPT |}).

Definition SMP_Encrypt := smp_encrypt_data.

(** ** The authentication code *)

(** [for (i = length; i < 16; i++) p[16 - i - 1] = (i == length) ? 0x80 : 0], for
    a [length] below 16. *)
Definition padding (dest : list Z) (length : nat) : list Z :=
  match (16 - length)%nat with
  | O => dest
  | S n => replicate n 0 ++ 128 :: drop (16 - length) dest
  end.

Fixpoint leftshift_onebit (overflow : Z) (input : list Z) : list Z :=
  match input with
  | [] => []
  | x :: input =>
      let next_overflow := if negb (Z.land x 128 =? 0) then 1 else 0 in
      Z.lor (u8 (Z.shiftl x 1)) overflow :: leftshift_onebit next_overflow input
  end.

Definition cmac_aes_cleanup : M smp_state () := set_cb {| text := None; len := 0; round := 0 |}.

(** The buffer of the text, which every function but the first has. *)
Definition the_text (cb : tCMAC_CB) : outcome (list Z) :=
  match text cb with Some t => Ok t | None => Fault NullDeref end.

(** One round; [x] is the last block.  The counter [i] is a byte. *)
Fixpoint cmac_rounds (fuel : nat) (ctx : aes_context) (key : list Z) (i : Z) (x : list Z) (output : option tSMP_ENC) :
    M smp_state (option tSMP_ENC) :=
  match fuel with
  | O => fail OutOfFuel
  | S fuel =>
      s ← get;
      let cb := cmac_cb s in
      if i <=? round cb then
        t ← lift (the_text cb);
        let off := (round cb - i) * BT_OCTET16_LEN in
        block ← lift (load_bytes t off BT_OCTET16_LEN);
        t ← lift (store_bytes t off (smp_xor_128 block x));
        set_cb {| text := Some t; len := len cb; round := round cb |} ;;
        block ← lift (load_bytes t off BT_OCTET16_LEN);
        output ← SMP_Encrypt ctx key BT_OCTET16_LEN block BT_OCTET16_LEN;
        match output with
        | None => mret None
        | Some out => cmac_rounds fuel ctx key (u8 (i + 1)) (param_buf out) (Some out)
        end
      else mret output
  end.

(** The result is what is copied to the signature; it points to [tlen] bytes. *)
Definition cmac_aes_k_calculate (ctx : aes_context) (key : list Z) (tlen : Z) : M smp_state (option (list Z)) :=
  output ← cmac_rounds 256 ctx key 1 (replicate 16 0) None;
  match output with
  | Some out =>
      p_mac ← lift (load_bytes (param_buf out) (BT_OCTET16_LEN - tlen) tlen);
      mret (Some p_mac)
  | None => mret None
  end.

Definition cmac_prepare_last_block (k1 k2 : list Z) : M smp_state () :=
  s ← get;
  let cb := cmac_cb s in
  t ← lift (the_text cb);
  block ← lift (load_bytes t 0 BT_OCTET16_LEN);
  let flag := (len cb mod BT_OCTET16_LEN =? 0) && negb (len cb =? 0) in
  let block :=
    if flag then smp_xor_128 block k1
    else smp_xor_128 (padding block (Z.to_nat (len cb mod 16))) k2 in
  t ← lift (store_bytes t 0 block);
  set_cb {| text := Some t; len := len cb; round := round cb |}.

(** [K1] from the cipher of zero, and [K2] from [K1]. *)
Definition cmac_shift (pp : list Z) : list Z :=
  if negb (Z.land (nth 15 pp 0) 128 =? 0) then smp_xor_128 (leftshift_onebit 0 pp) const_Rb
  else leftshift_onebit 0 pp.
Definition cmac_subkey_cont (p : tSMP_ENC) : M smp_state () :=
  let k1 := cmac_shift (param_buf p) in
  let k2 := cmac_shift k1 in
  cmac_prepare_last_block k1 k2.

Definition cmac_generate_subkey (ctx : aes_context) (key : list Z) : M smp_state bool :=
  output ← SMP_Encrypt ctx key BT_OCTET16_LEN (replicate 16 0) BT_OCTET16_LEN;
  match output with
  | Some output => cmac_subkey_cont output ;; mret true
  | None => mret false
  end.

(** [length] and [tlen] are of 16 bits.  [input] is [None] for the null pointer;
    the result is the signature, or [None] for FALSE. *)
Definition aes_cipher_msg_auth_code (ctx : aes_context) (key : list Z) (input : option (list Z)) (length tlen : Z) :
    M smp_state (option (list Z)) :=
  let n := u16 ((length + BT_OCTET16_LEN - 1) / BT_OCTET16_LEN) in
  let n := if n =? 0 then 1 else n in
  let size := u16 (n * BT_OCTET16_LEN) in
  buffer ← osi_malloc;
  if negb buffer then
    s ← get;
    set_cb {| text := None; len := len (cmac_cb s); round := round (cmac_cb s) |} ;;
    mret None
  else
  let text := replicate (Z.to_nat size) 0 in
  let diff := u16 (size - length) in
  '(text, cb_len) ← lift
    match input with
    | Some input =>
        if 0 <? length then
          data ← load_bytes input 0 length;
          text ← store_bytes text diff data;
          Ok (text, length)
        else Ok (text, 0)
    | None => Ok (text, 0)
    end;
  set_cb {| text := Some text; len := cb_len; round := n |} ;;
  generated ← cmac_generate_subkey ctx key;
  ret ← (if (generated : bool) then cmac_aes_k_calculate ctx key tlen else mret None);
  cmac_aes_cleanup ;;
  mret ret.
End Alloc.

(** ** The test vectors of RFC 4493 *)

Definition rfc_key : list Z := [43; 126; 21; 22; 40; 174; 210; 166; 171; 247; 21; 136; 9; 207; 79; 60].
Definition rfc_message : list Z :=
  [107; 193; 190; 226; 46; 64; 159; 150; 233; 61; 126; 17; 115; 147; 23; 42;
   174; 45; 138; 87; 30; 3; 172; 156; 158; 183; 111; 172; 69; 175; 142; 81;
   48; 200; 28; 70; 163; 92; 228; 17].
Definition no_cmac : smp_state := {| cmac_cb := {| text := None; len := 0; round := 0 |}; mallocs := 0 |}.
Definition rfc_cmac (m : list Z) : outcome (option (list Z) * smp_state) :=
  aes_cipher_msg_auth_code (λ _, true) no_context (reverse rfc_key) (Some (reverse m)) (Z.of_nat (length m)) 16 no_cmac.
Definition rfc_result (o : outcome (option (list Z) * smp_state)) : option (list Z) :=
  match o with Ok (Some m, _) => Some (reverse m) | _ => None end.

Example rfc_4493_empty : rfc_result (rfc_cmac []) =
  Some [187; 29; 105; 41; 233; 89; 55; 40; 127; 163; 125; 18; 155; 117; 103; 70].
Proof. vm_compute. reflexivity. Qed.
Example rfc_4493_16 : rfc_result (rfc_cmac (take 16 rfc_message)) =
  Some [7; 10; 22; 180; 107; 77; 65; 68; 247; 155; 221; 157; 208; 74; 40; 124].
Proof. vm_compute. reflexivity. Qed.
Example rfc_4493_40 : rfc_result (rfc_cmac rfc_message) =
  Some [223; 166; 103; 71; 222; 154; 230; 48; 48; 202; 50; 97; 20; 151; 200; 39].
Proof. vm_compute. reflexivity. Qed.
