(* ===== verification/CmacProofs.v ===== *)
(** * The authentication code of the pairing code is AES-CMAC

    A reference definition of AES-CMAC after RFC 4493, on big endian bytes and
    on the cipher of [AesSpec], and the properties of [Cmac]. *)

From S2P Require Import Prelude Aes AesProofs AesSpec Cmac.

(** ** Little endian bytes as numbers *)

Fixpoint le_val (l : list Z) : Z := match l with [] => 0 | x :: l => x + 256 * le_val l end.
Fixpoint le_bytes (n : nat) (z : Z) : list Z := match n with O => [] | S n => z mod 256 :: le_bytes n (z / 256) end.

Lemma le_val_range l : bytes_ok l → 0 ≤ le_val l < 256 ^ zlen l.
Proof.
  induction 1 as [|x l Hx _ IH]; [done|]. cbn [le_val length]. rewrite Nat2Z.inj_succ, Z.pow_succ_r by lia.
  unfold is_byte in Hx. lia.
Qed.
Lemma le_bytes_val l : bytes_ok l → le_bytes (length l) (le_val l) = l.
Proof.
  induction 1 as [|x l Hx _ IH]; [done|]. cbn [le_val length le_bytes]. unfold is_byte in Hx.
  rewrite Z.mul_comm, Z.mod_add, Z.div_add, Z.mod_small, Z.div_small, Z.add_0_l, IH by lia. done.
Qed.
Lemma le_bytes_length n z : length (le_bytes n z) = n.
Proof. revert z. induction n as [|n IH]; intros z; cbn; [done|]. by rewrite IH. Qed.
Lemma le_bytes_ok n z : bytes_ok (le_bytes n z).
Proof.
  revert z. induction n as [|n IH]; intros z; cbn; constructor; [|done]. apply Z.mod_pos_bound. lia.
Qed.

Lemma byte_lxor x y v w : is_byte x → is_byte y → Z.lxor (x + 256 * v) (y + 256 * w) = Z.lxor x y + 256 * Z.lxor v w.
Proof.
  intros Hx Hy. pose proof (xor_byte x y Hx Hy) as Hxy. unfold is_byte in *.
  assert (E : ∀ a b i, 0 ≤ a < 256 → 0 ≤ i → Z.testbit (a + 256 * b) i = if i <? 8 then Z.testbit a i else Z.testbit b (i - 8)).
  { intros a b i Ha Hi. destruct (Z.ltb_spec i 8).
    - rewrite <- (Z.mod_pow2_bits_low (a + 256 * b) 8 i) by lia. change (2 ^ 8) with 256.
      by rewrite Z.mul_comm, Z.mod_add, Z.mod_small by lia.
    - replace i with (i - 8 + 8) at 1 by lia. rewrite <- Z.div_pow2_bits by lia. change (2 ^ 8) with 256.
      by rewrite Z.mul_comm, Z.div_add, Z.div_small, Z.add_0_l by lia. }
  apply Z.bits_inj'. intros i Hi. rewrite Z.lxor_spec, !E, !Z.lxor_spec by lia. by destruct (i <? 8).
Qed.
Lemma le_val_xor a b : bytes_ok a → bytes_ok b → length a = length b → le_val (smp_xor_128 a b) = Z.lxor (le_val a) (le_val b).
Proof.
  unfold smp_xor_128. intros Ha. revert b. induction Ha as [|x a Hx Ha IH]; intros [|y b] Hb Hl; try done.
  apply Forall_cons_1 in Hb as [Hy Hb]. cbn [zip_with le_val]. rewrite IH by (done || by injection Hl). by rewrite byte_lxor.
Qed.

(** ** The reference *)

Module Rfc4493.
Import Fips197.
(** AES with a key of 16 bytes, most significant byte first. *)
Definition AES (key x : list Z) : list Z := Cipher 4 key x.
Definition xor : list Z → list Z → list Z := zip_with Z.lxor.
Definition val (l : list Z) : Z := le_val (reverse l).
Definition block_of (z : Z) : list Z := reverse (le_bytes 16 z).
(** Doubling in the field of 128 bits. *)
Definition dbl (l : list Z) : list Z :=
  block_of (Z.lxor (2 * val l mod 2 ^ 128) (if val l <? 2 ^ 127 then 0 else 135)).
Definition K1 (key : list Z) : list Z := dbl (AES key (replicate 16 0)).
Definition K2 (key : list Z) : list Z := dbl (K1 key).
Definition pad (m : list Z) : list Z := m ++ 128 :: replicate (15 - length m) 0.
Fixpoint chain (n : nat) (key x m : list Z) : list Z :=
  match n with O => x | S n => chain n key (AES key (xor x (take 16 m))) (drop 16 m) end.
Definition blocks (m : list Z) : nat := Nat.max 1 ((length m + 15) / 16).
Definition last_block (key m : list Z) : list Z :=
  let l := drop (16 * (blocks m - 1)) m in
  if (length l =? 16)%nat then xor l (K1 key) else xor (pad l) (K2 key).
Definition AES_CMAC (key m : list Z) : list Z :=
  chain (blocks m) key (replicate 16 0) (take (16 * (blocks m - 1)) m ++ last_block key m).
End Rfc4493.
Import Rfc4493.

(** ** Subkeys *)

Lemma leftshift_length c l : length (leftshift_onebit c l) = length l.
Proof. revert c. induction l as [|x l IH]; intros c; cbn; [done|]. by rewrite IH. Qed.

Lemma leftshift_byte x c : is_byte x → 0 ≤ c ≤ 1 →
  let y := Z.lor (u8 (Z.shiftl x 1)) c in let c' := if negb (Z.land x 128 =? 0) then 1 else 0 in
  is_byte y ∧ 0 ≤ c' ≤ 1 ∧ y + 256 * c' = 2 * x + c.
Proof.
  intros Hx Hc. assert (c = 0 ∨ c = 1) as [-> | ->] by lia; revert x Hx; by_bytes.
Qed.
Lemma leftshift_val c l : bytes_ok l → 0 ≤ c ≤ 1 →
  bytes_ok (leftshift_onebit c l) ∧ le_val (leftshift_onebit c l) = (2 * le_val l + c) mod 256 ^ zlen l.
Proof.
  intros Hl. revert c. induction Hl as [|x l Hx Hl IH]; intros c Hc; [cbn; split; [constructor|by rewrite Z.mod_1_r]|].
  cbn [leftshift_onebit le_val length]. destruct (leftshift_byte x c Hx Hc) as (Hy & Hc' & E). cbv zeta in *.
  destruct (IH _ Hc') as [H1 H2]. split; [by constructor|]. rewrite H2, Nat2Z.inj_succ, Z.pow_succ_r by lia.
  set (c' := if negb _ then 1 else 0) in *. set (y := Z.lor _ c) in *. set (p := 256 ^ zlen l).
  assert (0 < p) by (subst p; lia).
  replace (2 * (x + 256 * le_val l) + c) with (y + (2 * le_val l + c') * 256) by lia.
  rewrite (Z.rem_mul_r _ 256 p) by lia. unfold is_byte in Hy.
  rewrite Z.mod_add, Z.div_add by lia. rewrite (Z.mod_small y), (Z.div_small y), Z.add_0_l by lia. done.
Qed.

(** The top bit of the last byte. *)
Lemma top_byte l : block l → (Z.land (nth 15 l 0) 128 =? 0) = (le_val l <? 2 ^ 127).
Proof.
  intros [Hl Hb]. destruct (nth_split l 0 (n := 15)) as (l1 & l2 & E & H1); [lia|].
  assert (l2 = []) as -> by (apply (f_equal length) in E; rewrite length_app in E; cbn in E; destruct l2; [done|cbn in E; lia]).
  pose proof (nth_byte l 15 Hb) as Hx. set (x := nth 15 l 0) in *. clearbody x.
  assert (Ev : le_val l = le_val l1 + 256 ^ 15 * x).
  { rewrite E. clear -H1. assert (G : ∀ a, le_val (a ++ [x]) = le_val a + 256 ^ zlen a * x).
    { induction a as [|y a IH]; cbn [app le_val length]; [lia|]. rewrite IH, Nat2Z.inj_succ, Z.pow_succ_r by lia. lia. }
    rewrite G, H1. done. }
  assert (Hr : 0 ≤ le_val l1 < 256 ^ 15).
  { rewrite E, Forall_app in Hb. destruct Hb as [Hb _]. pose proof (le_val_range l1 Hb) as R. by rewrite H1 in R. }
  assert (Hx' : (Z.land x 128 =? 0) = (x <? 128)) by (revert x Hx Ev E; clear; intros x Hx _ _; revert x Hx; by_bytes).
  rewrite Hx'. unfold is_byte in Hx. destruct (Z.ltb_spec x 128), (Z.ltb_spec (le_val l) (2 ^ 127)); try done;
    change (256 ^ 15) with (2 ^ 120) in *; change (2 ^ 127) with (2 ^ 120 * 128) in *; nia.
Qed.

Lemma cmac_shift_dbl l : block l → reverse (cmac_shift l) = dbl (reverse l) ∧ block (cmac_shift l).
Proof.
  intros Hb. pose proof Hb as [Hl Hbytes]. unfold cmac_shift, dbl, val. rewrite reverse_involutive, top_byte by done.
  destruct (leftshift_val 0 l Hbytes ltac:(lia)) as [H1 H2]. rewrite Hl, Z.add_0_r in H2. change (256 ^ Z.of_nat 16) with (2 ^ 128) in H2.
  pose proof (leftshift_length 0 l) as H3. rewrite Hl in H3. unfold block_of. destruct (le_val l <? 2 ^ 127); cbn [negb].
  - rewrite Z.lxor_0_r, <- H2. split; [|done]. f_equal. rewrite <- H3. symmetry. by apply le_bytes_val.
  - assert (Hc : block const_Rb) by decide_vm.
    assert (Hx : block (smp_xor_128 (leftshift_onebit 0 l) const_Rb)) by (apply xor_block_block; done).
    split; [|done]. f_equal. rewrite <- H2. change 135 with (le_val const_Rb). rewrite <- le_val_xor; [|done|apply Hc|apply H3].
    destruct Hx as [Hxl Hxb]. rewrite <- Hxl. symmetry. by apply le_bytes_val.
Qed.

(** ** Encryption *)

(** The cipher on little endian bytes. *)
Definition e (key x : list Z) : list Z := reverse (AES (reverse key) (reverse x)).

Lemma reverse_block x : block x → block (reverse x).
Proof. intros [Hl Hb]. split; [by rewrite length_reverse|by apply Forall_reverse]. Qed.

Lemma AES_encrypt key x out ctx : block key → block x →
  bluedroid_aes_encrypt x out (aes_set_key key 16 ctx).2 = (0, AES key x) ∧ block (AES key x).
Proof.
  intros [Hl Hb] Hx. assert (E4 : (16 / 4)%nat = 4%nat) by reflexivity. unfold AES. rewrite <- E4.
  assert (Hk : key_length 16 = Some 16%nat) by reflexivity. split.
  - exact (encrypt_fips197 key 16 16 ctx x out Hk Hl Hb Hx).
  - exact (cipher_block key 16 16 ctx x Hk Hl Hb Hx).
Qed.
Lemma AES_block key x : block key → block x → block (AES key x).
Proof. intros Hk Hx. exact (proj2 (AES_encrypt key x [] no_context Hk Hx)). Qed.
#[local] Opaque AES aes_set_key bluedroid_aes_encrypt.
Lemma e_block key x : block key → block x → block (e key x).
Proof. intros Hk Hx. apply reverse_block, AES_block; by apply reverse_block. Qed.

(** The result of [SMP_Encrypt] and the count of the allocations. *)
Definition encrypted (x : list Z) : tSMP_ENC :=
  {| param_buf := x; param_len := SMP_ENCRYT_KEY_SIZE; status := HCI_SUCCESS; opcode := HCI_BLE_ENCRYPT |}.
Definition allocated (s : smp_state) : smp_state := {| cmac_cb := cmac_cb s; mallocs := S (mallocs s) |}.

(** A plain text of at most sixteen bytes is filled up with zeros. *)
Lemma encrypt_value av ctx key plain s : block key → (length plain ≤ 16)%nat → bytes_ok plain →
  SMP_Encrypt av ctx key 16 plain (zlen plain) s =
    Ok (if av (mallocs s) then Some (encrypted (e key (plain ++ replicate (16 - length plain) 0))) else None, allocated s).
Proof.
  intros Hk Hl Hb. unfold SMP_Encrypt, smp_encrypt_data, osi_malloc.
  change (16 =? SMP_ENCRYT_KEY_SIZE) with true. cbn [negb]. unfold mbind, M_bind.
  destruct (av (mallocs s)); [|done]. cbn [negb].
  assert (E1 : (SMP_ENCRYT_DATA_SIZE <? zlen plain) = false) by (apply Z.ltb_ge; unfold SMP_ENCRYT_DATA_SIZE; lia). rewrite E1.
  rewrite (load_bytes_at plain [] plain []) by (rewrite ?app_nil_r; done). cbn [lift].
  rewrite (load_bytes_at key [] key []) by (rewrite ?app_nil_r; done || (destruct Hk; unfold SMP_ENCRYT_KEY_SIZE; cbn; lia)). cbn [lift].
  change SMP_ENCRYT_KEY_SIZE with 16. unfold SMP_ENCRYT_DATA_SIZE.
  replace (Z.to_nat (16 - zlen plain)) with (16 - length plain)%nat by lia.
  set (p := plain ++ _). assert (Hp : block p).
  { subst p. split; [rewrite length_app, length_replicate; lia|]. apply Forall_app. split; [done|]. by apply Forall_replicate. }
  destruct (AES_encrypt (reverse key) (reverse p) (replicate 16 0) ctx) as [-> _]; [by apply reverse_block..|]. done.
Qed.
Lemma encrypt_block av ctx key x s : block key → block x →
  SMP_Encrypt av ctx key 16 x 16 s = Ok (if av (mallocs s) then Some (encrypted (e key x)) else None, allocated s).
Proof.
  intros Hk Hx. pose proof (encrypt_value av ctx key x s Hk ltac:(destruct Hx; lia) ltac:(apply Hx)) as E.
  destruct Hx as [Hl _]. rewrite Hl in E. change (16 - 16)%nat with 0%nat in E. cbn [replicate] in E.
  rewrite app_nil_r in E. exact E.
Qed.

(** ** The chain of blocks *)

(** The blocks of a text from its end to its start. *)
Fixpoint chain_le (n : nat) (key x t : list Z) : list Z :=
  match n with O => x | S n => chain_le n key (e key (smp_xor_128 (drop (16 * n) t) x)) (take (16 * n) t) end.

Lemma reverse_xor a b : length a = length b → reverse (zip_with Z.lxor a b) = zip_with Z.lxor (reverse a) (reverse b).
Proof.
  revert b. induction a as [|x a IH]; intros [|y b] Hl; try done. cbn [zip_with]. rewrite !reverse_cons, IH by (by injection Hl).
  rewrite zip_with_app; [done|]. rewrite !length_reverse. by injection Hl.
Qed.

Lemma chain_le_spec n key x t : length x = 16%nat → length t = (16 * n)%nat → block key → bytes_ok x → bytes_ok t →
  chain_le n key x t = reverse (chain n (reverse key) (reverse x) (reverse t)) ∧ block (chain_le n key x t).
Proof.
  intros Hx Ht Hk Hbx. revert x t Hx Hbx Ht. induction n as [|n IH]; intros x t Hx Hbx Ht Hbt; cbn [chain_le chain].
  - by rewrite reverse_involutive.
  - assert (Hd : block (drop (16 * n) t)) by (split; [rewrite length_drop; lia|by apply Forall_drop]).
    assert (Hxor : block (smp_xor_128 (drop (16 * n) t) x)) by (by apply xor_block_block).
    destruct (IH (e key (smp_xor_128 (drop (16 * n) t) x)) (take (16 * n) t)) as [E H]; try apply e_block; try done.
    + rewrite length_take. lia. + by apply Forall_take.
    + split; [|done]. rewrite E. apply (f_equal reverse), (f_equal2 (chain n (reverse key))).
      * unfold e. rewrite reverse_involutive. apply (f_equal (AES (reverse key))). unfold smp_xor_128, xor. rewrite reverse_xor by (destruct Hd; lia).
        rewrite <- (take_drop (16 * n) t) at 2. rewrite reverse_app. destruct Hd as [Hd _].
        rewrite take_app_le, take_ge by (rewrite length_reverse; lia).
        exact (xor_block_comm _ _).
      * rewrite <- (take_drop (16 * n) t) at 2. rewrite reverse_app. destruct Hd as [Hd _].
        rewrite drop_app_ge, length_reverse, Hd by (rewrite length_reverse; lia). done.
Qed.

(** A call of [osi_malloc] failed between two states. *)
Definition out_of_memory (av : nat → bool) (s s' : smp_state) : Prop :=
  ∃ k, (mallocs s ≤ k < mallocs s')%nat ∧ av k = false.

Definition set_text (t : list Z) (s : smp_state) : smp_state :=
  {| cmac_cb := {| text := Some t; len := len (cmac_cb s); round := round (cmac_cb s) |}; mallocs := mallocs s |}.

(** One round: block [n] of the text is replaced by its sum with [x], and then
    encrypted. *)
Lemma cmac_round av ctx key fuel i n x t s out : block key → block x → bytes_ok t → text (cmac_cb s) = Some t →
  round (cmac_cb s) = i + Z.of_nat n → 0 ≤ i → (16 * S n ≤ length t)%nat →
  let y := smp_xor_128 (take 16 (drop (16 * n) t)) x in
  let t' := take (16 * n) t ++ y ++ drop (16 * n + 16) t in
  cmac_rounds av (S fuel) ctx key i x out s =
  if av (mallocs s) then cmac_rounds av fuel ctx key (u8 (i + 1)) (e key y) (Some (encrypted (e key y))) (allocated (set_text t' s))
  else Ok (None, allocated (set_text t' s)).
Proof.
  intros Hk Hx Hb Ht Hr Hi Hl y t'. set (b := take 16 (drop (16 * n) t)).
  assert (Hbl : length b = 16%nat) by (subst b; rewrite length_take, length_drop; lia).
  assert (Et : t = take (16 * n) t ++ b ++ drop (16 * n + 16) t).
  { subst b. rewrite <- drop_drop, take_drop, take_drop. done. }
  assert (Hlt : length (take (16 * n) t) = (16 * n)%nat) by (rewrite length_take; lia).
  assert (Hy : block y).
  { apply xor_block_block; [|done]. split; [exact Hbl|]. by apply Forall_take, Forall_drop. }
  assert (Es : store_bytes t (zlen (take (16 * n) t)) y = Ok t').
  { rewrite Et at 1. apply store_bytes_app. destruct Hy. lia. }
  cbn [cmac_rounds]. unfold mbind at 1, M_bind at 1, get. cbn [text cmac_cb round].
  rewrite (proj2 (Z.leb_le _ _)) by lia. unfold the_text. rewrite Ht. unfold BT_OCTET16_LEN.
  replace ((round (cmac_cb s) - i) * 16) with (zlen (take (16 * n) t)) by (rewrite Hlt; lia).
  unfold mbind, M_bind, lift. rewrite (load_bytes_at t (take (16 * n) t) b (drop (16 * n + 16) t)) by (exact Et || reflexivity || lia).
  change (smp_xor_128 b x) with y. rewrite Es.
  rewrite (load_bytes_at t' (take (16 * n) t) y (drop (16 * n + 16) t)) by (reflexivity || (destruct Hy; lia)).
  unfold set_cb, modify. cbn [mallocs].
  rewrite encrypt_block by done. cbn [mallocs]. by destruct (av (mallocs s)).
Qed.

Lemma cmac_rounds_value av ctx key n fuel i x t s out : block key → block x → bytes_ok t → text (cmac_cb s) = Some t →
  round (cmac_cb s) = i + Z.of_nat n - 1 → 1 ≤ i → round (cmac_cb s) < 255 → (16 * n ≤ length t)%nat → (n < fuel)%nat →
  ∃ r s', cmac_rounds av fuel ctx key i x out s = Ok (r, s') ∧ (mallocs s ≤ mallocs s')%nat ∧
    (r = None ∧ out_of_memory av s s' ∨
     r = match n with O => out | _ => Some (encrypted (chain_le n key x (take (16 * n) t))) end).
Proof.
  intros Hk. revert fuel i x t s out. induction n as [|n IH]; intros [|fuel] i x t s out Hx Hb Ht Hr Hi Hrd Hl Hf; try lia.
  - exists out, s. split; [|split; [done|by right]]. cbn [cmac_rounds]. unfold mbind, M_bind, get.
    by rewrite (proj2 (Z.leb_gt _ _)) by lia.
  - rewrite (cmac_round av ctx key fuel i n x t) by (done || lia).
    set (y := smp_xor_128 _ x). set (t' := take (16 * n) t ++ y ++ _).
    assert (Hy : block y).
    { apply xor_block_block; [|done]. split; [rewrite length_take, length_drop; lia|]. by apply Forall_take, Forall_drop. }
    assert (Hlt : length (take (16 * n) t) = (16 * n)%nat) by (rewrite length_take; lia).
    destruct (av (mallocs s)) eqn:Ea.
    + assert (Eu : u8 (i + 1) = i + 1) by (apply Z.mod_small; lia). rewrite Eu.
      assert (Hbt : bytes_ok t') by (subst t'; rewrite !Forall_app; split_and!; [by apply Forall_take|apply Hy|by apply Forall_drop]).
      destruct (IH fuel (i + 1) (e key y) t' (allocated (set_text t' s)) (Some (encrypted (e key y)))) as (r & s' & E & Hm & Hcase);
        try done; [by apply e_block|cbn; lia|lia|subst t'; rewrite !length_app, Hlt; lia|lia|].
      exists r, s'. split; [exact E|]. cbn [allocated mallocs set_text] in Hm. split; [lia|]. destruct Hcase as [[-> (k & Hk1 & Hk2)]| ->].
      * left. split; [done|]. exists k. cbn [allocated mallocs set_text] in Hk1. split; [lia|done].
      * right. cbn [chain_le].
        assert (Et : take (16 * n) t' = take (16 * n) t) by (subst t'; rewrite take_app_le by lia; rewrite take_ge by lia; done).
        assert (Ey : y = smp_xor_128 (drop (16 * n) (take (16 * S n) t)) x).
        { subst y. rewrite skipn_firstn_comm. do 2 f_equal. lia. }
        rewrite take_take, Nat.min_l by lia. rewrite <- Ey, Et. destruct n; done.
    + eexists None, _. split; [done|]. cbn [allocated mallocs set_text]. split; [lia|]. left. split; [done|].
      exists (mallocs s). cbn [allocated mallocs set_text]. split; [lia|done].
Qed.

(** ** The whole code *)

(** The last block of the message is the first of the little endian text. *)
Lemma split_text inp : let N := blocks (reverse inp) in ∃ hd tl, inp = hd ++ tl ∧ length tl = (16 * (N - 1))%nat ∧
  (length hd ≤ 16)%nat ∧ (length inp = 0%nat ∨ (0 < length hd)%nat) ∧ (0 < N)%nat.
Proof.
  intros N. subst N. unfold blocks. rewrite length_reverse. set (l := length inp).
  set (q := (16 * (Nat.max 1 ((l + 15) / 16) - 1))%nat).
  assert (Hq : (q ≤ l)%nat ∧ (l ≤ q + 16)%nat ∧ (l = 0%nat ∨ (q < l)%nat)).
  { subst q. pose proof (Nat.div_mod_eq (l + 15) 16). pose proof (Nat.mod_upper_bound (l + 15) 16 ltac:(lia)).
    destruct (Nat.max_spec 1 ((l + 15) / 16)) as [[? ->]|[? ->]]; lia. }
  exists (take (l - q) inp), (drop (l - q) inp). rewrite take_drop, length_take, length_drop. fold l. split_and!; try done; try lia.
Qed.

Lemma reverse_replicate {A} n (x : A) : reverse (replicate n x) = replicate n x.
Proof.
  induction n as [|n IH]; [done|]. cbn [replicate]. rewrite reverse_cons, IH. by rewrite <- replicate_cons_app.
Qed.

Lemma padding_spec hd : (length hd < 16)%nat →
  padding (replicate (16 - length hd) 0 ++ hd) (length hd) = reverse (pad (reverse hd)) ∧
  (bytes_ok hd → block (padding (replicate (16 - length hd) 0 ++ hd) (length hd))).
Proof.
  intros Hl. unfold padding, pad. destruct (16 - length hd)%nat as [|n] eqn:E; [lia|].
  rewrite <- E, drop_app_length' by (rewrite length_replicate; lia). rewrite length_reverse. split.
  - rewrite reverse_app, reverse_cons, reverse_replicate, reverse_involutive, <- app_assoc. do 2 f_equal. lia.
  - intros Hb. split; [rewrite length_app, length_replicate; cbn; lia|]. rewrite Forall_app. split; [by apply Forall_replicate|by constructor].
Qed.

Lemma prepare_value key inp hd tl k1 k2 s : inp = hd ++ tl → length tl = (16 * (blocks (reverse inp) - 1))%nat →
  (length hd ≤ 16)%nat → (length inp = 0%nat ∨ (0 < length hd)%nat) → bytes_ok inp →
  block k1 → block k2 → reverse k1 = K1 key → reverse k2 = K2 key →
  text (cmac_cb s) = Some (replicate (16 - length hd) 0 ++ hd ++ tl) → len (cmac_cb s) = zlen inp →
  ∃ t, cmac_prepare_last_block k1 k2 s = Ok ((), set_text t s) ∧ bytes_ok t ∧ length t = (16 + length tl)%nat ∧
    reverse t = take (16 * (blocks (reverse inp) - 1)) (reverse inp) ++ last_block key (reverse inp).
Proof.
  intros Ei Hlt Hlh Hne Hb Hk1 Hk2 E1 E2 Ht Hlen.
  assert (Hbl : bytes_ok hd ∧ bytes_ok tl) by (rewrite Ei, Forall_app in Hb; done). destruct Hbl as [Hbh Hbt].
  set (blk := replicate (16 - length hd) 0 ++ hd).
  assert (Hblk : block blk) by (split; [subst blk; rewrite length_app, length_replicate; lia|apply Forall_app; split; [by apply Forall_replicate|done]]).
  assert (Hli : length inp = (length hd + 16 * (blocks (reverse inp) - 1))%nat) by (rewrite Ei at 1; rewrite length_app; lia).
  assert (Hm : zlen inp mod 16 = Z.of_nat (length hd mod 16)).
  { rewrite Hli, Nat2Z.inj_add, Nat2Z.inj_mul, Nat2Z.inj_mod. change (Z.of_nat 16) with 16.
    by rewrite (Z.mul_comm 16), Z.mod_add. }
  assert (Hflag : (zlen inp mod 16 =? 0) && negb (zlen inp =? 0) = (length hd =? 16)%nat).
  { rewrite Hm. destruct (Nat.eqb_spec (length hd) 16) as [E|E]; [rewrite E; cbn; destruct (Z.eqb_spec (zlen inp) 0); lia || done|].
    destruct (decide (length hd = 0%nat)) as [E0|E0]; [destruct Hne as [Hne|]; [rewrite Hne; by rewrite andb_false_r|lia]|].
    rewrite Nat.mod_small by lia. rewrite (proj2 (Z.eqb_neq _ _)) by lia. done. }
  set (blk' := if (length hd =? 16)%nat then smp_xor_128 blk k1 else smp_xor_128 (padding blk (Z.to_nat (zlen inp mod 16))) k2).
  assert (Hrm : reverse inp = reverse tl ++ reverse hd) by (rewrite Ei, reverse_app; done).
  assert (Hlr : length (reverse tl) = (16 * (blocks (reverse inp) - 1))%nat) by (rewrite length_reverse; done).
  assert (Hsp : block blk' ∧ reverse blk' = last_block key (reverse inp)).
  { unfold last_block. set (q := (16 * (blocks (reverse inp) - 1))%nat) in *. rewrite Hrm, drop_app_length' by lia. rewrite length_reverse.
    subst blk'. destruct (Nat.eqb_spec (length hd) 16) as [E|E].
    - split; [by apply xor_block_block|]. unfold smp_xor_128, xor. rewrite reverse_xor by (destruct Hblk, Hk1; congruence).
      rewrite E1. subst blk. rewrite E. done.
    - assert (Ez : Z.to_nat (zlen inp mod 16) = length hd) by (rewrite Hm, Nat2Z.id; apply Nat.mod_small; lia). rewrite Ez.
      destruct (padding_spec hd ltac:(lia)) as [P1 P2]. specialize (P2 Hbh). split; [by apply xor_block_block|].
      unfold smp_xor_128, xor. rewrite reverse_xor by (destruct P2, Hk2; unfold blk; congruence).
      unfold blk. by rewrite P1, reverse_involutive, E2. }
  destruct Hsp as [Hb' Hr']. exists (blk' ++ tl). split_and!.
  - unfold cmac_prepare_last_block, mbind, M_bind, get, the_text. rewrite Ht. cbn [lift].
    rewrite app_assoc. fold blk. unfold BT_OCTET16_LEN.
    rewrite (load_bytes_at (blk ++ tl) [] blk tl) by (reflexivity || (destruct Hblk; lia)). cbn [lift].
    rewrite Hlen, Hflag. fold blk'.
    pose proof (store_bytes_app [] blk tl blk' ltac:(destruct Hblk, Hb'; congruence)) as Es. cbn [app length] in Es. change (Z.of_nat 0) with 0 in Es.
    rewrite Es. cbn [lift]. unfold set_cb, modify, set_text. by rewrite Hlen.
  - apply Forall_app. split; [apply Hb'|done].
  - rewrite length_app. destruct Hb' as [-> _]. done.
  - rewrite reverse_app, Hr'. f_equal. rewrite <- Hlr, Hrm. by rewrite take_app_length.
Qed.

(** The text with its last block in place, ready for the rounds, or no code when
    an allocation fails. *)
Lemma cmac_start av ctx key inp tlen s : block key → bytes_ok inp → zlen inp ≤ 65520 →
  let N := blocks (reverse inp) in
  (∃ s', aes_cipher_msg_auth_code av ctx key (Some inp) (zlen inp) tlen s = Ok (None, s') ∧ text (cmac_cb s') = None ∧
     out_of_memory av s s') ∨
  ∃ t s2, aes_cipher_msg_auth_code av ctx key (Some inp) (zlen inp) tlen s =
      (ret ← cmac_aes_k_calculate av ctx key tlen; cmac_aes_cleanup ;; mret ret) s2 ∧
    bytes_ok t ∧ length t = (16 * N)%nat ∧ (0 < N)%nat ∧ text (cmac_cb s2) = Some t ∧ round (cmac_cb s2) = Z.of_nat N ∧
    (mallocs s ≤ mallocs s2)%nat ∧
    reverse t = take (16 * (N - 1)) (reverse inp) ++ last_block (reverse key) (reverse inp).
Proof.
  intros Hk Hb Hl. destruct (split_text inp) as (hd & tl & Ei & Hlt & Hlh & Hne & HN). set (N := blocks (reverse inp)) in *.
  assert (Hli : length inp = (length hd + 16 * (N - 1))%nat) by (rewrite Ei, length_app; lia).
  assert (En : (let n := u16 ((zlen inp + 16 - 1) / 16) in if n =? 0 then 1 else n) = Z.of_nat N).
  { cbv zeta. destruct Hne as [H0|H0].
    - unfold N, blocks. rewrite length_reverse, H0. done.
    - assert (E : (zlen inp + 16 - 1) / 16 = Z.of_nat N) by (symmetry; apply (Z.div_unique _ _ _ (Z.of_nat (length hd) - 1)); lia).
      rewrite E. unfold u16. rewrite Z.mod_small by lia. by rewrite (proj2 (Z.eqb_neq _ _)) by lia. }
  cbv zeta. fold N. remember (aes_cipher_msg_auth_code av ctx key (Some inp) (zlen inp) tlen s) as run eqn:Erun. revert Erun.
  unfold aes_cipher_msg_auth_code, BT_OCTET16_LEN. cbv zeta in En |- *. rewrite En.
  assert (Esz : u16 (Z.of_nat N * 16) = Z.of_nat (16 * N)) by (unfold u16; rewrite Z.mod_small; lia). rewrite Esz, Nat2Z.id.
  assert (Ed : u16 (Z.of_nat (16 * N) - zlen inp) = Z.of_nat (16 - length hd)) by (unfold u16; rewrite Z.mod_small; lia). rewrite Ed.
  unfold mbind, M_bind, osi_malloc. destruct (av (mallocs s)) eqn:Ea0; cbn [negb].
  2: { intros ->. left. eexists. split; [done|]. split; [done|]. exists (mallocs s). cbn. split; [lia|done]. }
  set (s1 := {| cmac_cb := cmac_cb s; mallocs := S (mallocs s) |}).
  set (text0 := replicate (16 - length hd) 0 ++ hd ++ tl).
  match goal with |- context [lift ?o s1] => assert (Eo : o = Ok (text0, zlen inp)) end.
  { destruct (Z.ltb_spec 0 (zlen inp)) as [Hp|Hz].
    - rewrite (load_bytes_at inp [] inp []) by (rewrite ?app_nil_r; done). rewrite bind_ok. subst text0. rewrite <- Ei.
      replace (16 * N)%nat with ((16 - length hd) + length inp)%nat by lia. rewrite replicate_add.
      pose proof (store_bytes_app (replicate (16 - length hd) 0) (replicate (length inp) 0) [] inp ltac:(apply length_replicate)) as Es.
      rewrite !app_nil_r, length_replicate in Es. rewrite Es. done.
    - assert (inp = []) as -> by (destruct inp; [done|cbn in Hz; lia]). symmetry in Ei. apply app_nil in Ei as [-> ->].
      subst text0. cbn [length app] in *. assert (EN : N = 1%nat) by lia. by rewrite EN. }
  rewrite Eo. cbn [lift]. unfold set_cb, modify at 1. cbn [mallocs s1].
  set (s2 := {| cmac_cb := {| text := Some text0; len := zlen inp; round := Z.of_nat N |}; mallocs := S (mallocs s) |}).
  unfold cmac_generate_subkey. unfold mbind at 1, M_bind at 1.
  rewrite encrypt_block by (done || decide_vm). change (mallocs s2) with (S (mallocs s)).
  destruct (av (S (mallocs s))) eqn:Ea1.
  2: { intros ->. left. eexists. split; [done|]. split; [done|]. exists (S (mallocs s)). cbn. split; [lia|done]. }
  assert (HL : block (e key (replicate 16 0))) by (apply e_block; [done|decide_vm]).
  destruct (cmac_shift_dbl _ HL) as [G1 B1]. destruct (cmac_shift_dbl _ B1) as [G2 B2].
  assert (EL : reverse (e key (replicate 16 0)) = AES (reverse key) (replicate 16 0)).
  { unfold e. by rewrite reverse_involutive, reverse_replicate. }
  rewrite EL in G1. rewrite G1 in G2.
  destruct (prepare_value (reverse key) inp hd tl _ _ (allocated s2) Ei Hlt Hlh Hne Hb B1 B2 G1 G2 eq_refl eq_refl) as (t & Ep & Hbt & Hltt & Hrt).
  unfold cmac_subkey_cont, mbind, M_bind. cbn [param_buf encrypted]. rewrite Ep.
  intros ->. right. exists t, (set_text t (allocated s2)). split.
  - done.
  - split_and!; [exact Hbt|lia|lia|reflexivity|reflexivity|cbn [set_text allocated mallocs s2]; lia|exact Hrt].
Qed.

(** The code of a message, or no code when an allocation fails. *)
Lemma cmac_value av ctx key inp tlen s : block key → bytes_ok inp → zlen inp ≤ 4064 → 0 ≤ tlen ≤ 16 →
  ∃ r s', aes_cipher_msg_auth_code av ctx key (Some inp) (zlen inp) tlen s = Ok (r, s') ∧ text (cmac_cb s') = None ∧
    (r = None ∧ out_of_memory av s s' ∨
     r = Some (reverse (take (Z.to_nat tlen) (AES_CMAC (reverse key) (reverse inp))))).
Proof.
  intros Hk Hb Hl Ht.
  destruct (cmac_start av ctx key inp tlen s Hk Hb ltac:(lia)) as [(s' & -> & H1 & H2)|(t & s2 & -> & Hbt & Hltt & HN & Htx & Hrd & Hm & Hrt)];
    [exists None, s'; tauto|].
  set (N := blocks (reverse inp)) in *.
  assert (HN254 : (N ≤ 254)%nat).
  { subst N. unfold blocks. rewrite length_reverse. apply Nat.max_lub; [lia|]. 
    apply Nat.lt_succ_r, Nat.Div0.div_lt_upper_bound. lia. }
  unfold cmac_aes_k_calculate, mbind, M_bind.
  assert (H0 : block (replicate 16 0)) by decide_vm.
  destruct (cmac_rounds_value av ctx key N 256 1 (replicate 16 0) t s2 None Hk H0 Hbt Htx) as (r & s' & Er & Hms & Hcase); [lia..|].
  rewrite Er. destruct Hcase as [[-> (k & Hk1 & Hk2)]| ->].
  - eexists None, _. split; [done|]. split; [done|]. left. split; [done|]. exists k. cbn [mallocs]. split; [lia|done].
  - rewrite take_ge by lia. destruct (chain_le_spec N key (replicate 16 0) t ltac:(done) ltac:(lia) Hk ltac:(apply H0) Hbt) as [Ec Hc].
    set (c := chain_le N key (replicate 16 0) t) in *. pose proof Hc as [Hcl _].
    assert (EN : ∀ o : tSMP_ENC, match N with O => None | S _ => Some o end = Some o) by (intros o; destruct N; [lia|done]).
    rewrite EN. unfold mbind, M_bind. cbn [param_buf encrypted]. unfold BT_OCTET16_LEN.
    rewrite (load_bytes_at c (take (16 - Z.to_nat tlen) c) (drop (16 - Z.to_nat tlen) c) []);
      [|by rewrite app_nil_r, take_drop|rewrite length_take; lia|rewrite length_drop; lia].
    cbn [lift mret M_ret]. eexists _, _. split; [done|]. split; [done|]. right. f_equal.
    unfold AES_CMAC. fold N. rewrite <- Hrt. rewrite reverse_replicate in Ec.
    set (X := chain N _ _ _) in *. assert (HX : length X = 16%nat) by (rewrite <- (length_reverse X), <- Ec; done).
    rewrite Ec. rewrite <- (take_drop (Z.to_nat tlen) X) at 1. rewrite reverse_app, drop_app_length'; [done|].
    rewrite length_reverse, length_drop. lia.
Qed.

(** ** Texts that are too long *)


(** ** Properties *)

(** [C31] The authentication code is AES-CMAC: for a key of 16 bytes, a message of at
    most 4064 bytes and a signature of at most 16, [aes_cipher_msg_auth_code] stops
    without a fault and releases its buffer; the result is either the most
    significant bytes of the code of RFC 4493 over the cipher of FIPS 197, in
    little endian order, or FALSE, and then a call of [osi_malloc] failed. *)
Theorem cmac_is_aes_cmac av ctx key inp tlen s : block key → bytes_ok inp → zlen inp ≤ 4064 → 0 ≤ tlen ≤ 16 →
  ∃ r s', aes_cipher_msg_auth_code av ctx key (Some inp) (zlen inp) tlen s = Ok (r, s') ∧ text (cmac_cb s') = None ∧
    (r = None ∧ out_of_memory av s s' ∨
     r = Some (reverse (take (Z.to_nat tlen) (AES_CMAC (reverse key) (reverse inp))))).
Proof. apply cmac_value. Qed.
Lemma cmac_is_aes_cmac_witness :
  ∃ r s', aes_cipher_msg_auth_code (λ _, true) no_context rfc_key (Some rfc_message) (zlen rfc_message) 12 no_cmac = Ok (r, s') ∧
    text (cmac_cb s') = None ∧
    (r = None ∧ out_of_memory (λ _, true) no_cmac s' ∨
     r = Some (reverse (take (Z.to_nat 12) (AES_CMAC (reverse rfc_key) (reverse rfc_message))))).
Proof.
  assert (Hk : block rfc_key) by (apply (bool_decide_eq_true_1 _); vm_compute; reflexivity).
  assert (Hm : bytes_ok rfc_message) by (apply (bool_decide_eq_true_1 _); vm_compute; reflexivity).
  assert (Hl : zlen rfc_message ≤ 4064) by (vm_compute; congruence).
  assert (Ht : 0 ≤ 12 ≤ 16) by lia.
  exact (cmac_is_aes_cmac (λ _, true) no_context rfc_key rfc_message 12 no_cmac Hk Hm Hl Ht).
Defined.

