(* ===== verification/Smp.v ===== *)
(** * The key functions of pairing

    Models the functions of [src/components/bt/bluedroid/stack/smp/smp_keys.c] and
    [smp_utils.c] that compute the values the two sides of a pairing exchange or
    compare: the confirm values and the short term key of legacy pairing, and the
    functions f4, g2, f5, f6 and h6 of secure connections with their callers.
    Byte arrays are little endian.  The control block [smp_cb] is split: the
    values that the pairing procedure has put there before are the record
    [tSMP_CB], those that the functions here store are the record [smp_keys]. *)

From S2P Require Import Prelude Aes Cmac.

Definition BTM_MAX_PASSKEY_VAL : Z := 999999.
Definition SMP_OPCODE_PAIRING_REQ : Z := 1.
Definition SMP_OPCODE_PAIRING_RSP : Z := 2.

Inductive role_t := HCI_ROLE_MASTER | HCI_ROLE_SLAVE.
#[export] Instance role_eq_dec : EqDecision role_t.
Proof. solve_decision. Defined.

Inductive association_model :=
| SMP_MODEL_ENCRYPTION_ONLY | SMP_MODEL_PASSKEY | SMP_MODEL_OOB | SMP_MODEL_KEY_NOTIF
| SMP_MODEL_SEC_CONN_JUSTWORKS | SMP_MODEL_SEC_CONN_NUM_COMP | SMP_MODEL_SEC_CONN_PASSKEY_ENT
| SMP_MODEL_SEC_CONN_PASSKEY_DISP | SMP_MODEL_SEC_CONN_OOB | SMP_MODEL_OUT_OF_RANGE.

(** The addresses are those [BTM_ReadConnectionAddr] and
    [BTM_ReadRemoteConnectionAddr] report for the connection, with their types.
    [unknown_peer] is [None] where the second one knows the device, and otherwise what
    the stack holds at the arrays p1 and p2, which are left as they are then. *)
Record tSMP_CB := {
  role : role_t;
  selected_association_model : association_model;
  local_addr : list Z; local_addr_type : Z;
  remote_addr : list Z; remote_addr_type : Z;
  local_io_capability : Z; loc_oob_flag : Z; loc_auth_req : Z; loc_enc_size : Z; local_i_key : Z; local_r_key : Z;
  peer_io_caps : Z; peer_oob_flag : Z; peer_auth_req : Z; peer_enc_size : Z; peer_i_key : Z; peer_r_key : Z;
  tk : list Z; rand : list Z; rrand : list Z;
  loc_publ_key_x : list Z; peer_publ_key_x : list Z; dhkey : list Z;
  local_random : list Z; peer_random : list Z; round : Z;
  remote_commitment : list Z;
  div : Z; enc_rand : list Z;
  unknown_peer : option (list Z * list Z) }.

Record smp_keys := {
  number_to_display : Z; commitment : list Z; mac_key : list Z; ltk : list Z; dhkey_check : list Z; ediv : Z }.

(** ** Streams *)

(** [UINT8_TO_STREAM], [BDADDR_TO_STREAM] and [STREAM_TO_UINT32]. *)
Definition uint8 (z : Z) : list Z := [u8 z].
Definition bdaddr (a : list Z) : list Z := reverse a.
Definition stream_to_uint (l : list Z) : Z := fold_right (λ x v, x + 256 * v) 0 l.

Section Alloc.
(** The outcome of each allocation; what the stack holds at a cipher context, and
    at the array of a code that could not be calculated. *)
Context (available : nat → bool) (ctx : aes_context) (junk : list Z).

(** ** Secure connections *)

Definition cmac (key msg : list Z) : M smp_state (option (list Z)) :=
  aes_cipher_msg_auth_code available ctx key (Some msg) (zlen msg) BT_OCTET16_LEN.

(** The result of the code is not looked at. *)
Definition smp_calculate_f4 (u v x : list Z) (z : Z) : M smp_state (list Z) :=
  let msg := uint8 z ++ v ++ u in
  c ← cmac x msg;
  mret (default junk c).

(** [while (vres > BTM_MAX_PASSKEY_VAL) vres -= BTM_MAX_PASSKEY_VAL + 1;] *)
Fixpoint g2_loop (fuel : nat) (vres : Z) : outcome Z :=
  if BTM_MAX_PASSKEY_VAL <? vres then
    match fuel with O => Fault OutOfFuel | S fuel => g2_loop fuel (vres - (BTM_MAX_PASSKEY_VAL + 1)) end
  else Ok vres.
Definition smp_calculate_g2 (u v x y : list Z) : M smp_state Z :=
  let msg := y ++ v ++ u in
  c ← cmac x msg;
  match c with
  | None => mret (BTM_MAX_PASSKEY_VAL + 1)
  | Some c =>
      first ← lift (load_bytes c 0 4);
      lift (g2_loop 4295 (stream_to_uint first))
  end.

(** The key and whether it could be calculated. *)
Definition salt : list Z := [190; 131; 96; 90; 219; 11; 55; 96; 56; 165; 245; 170; 145; 131; 136; 108].
Definition smp_calculate_f5_key (w : list Z) : M smp_state (bool * list Z) :=
  c ← cmac salt w;
  mret (bool_decide (is_Some c), default junk c).
Definition smp_calculate_f5_mackey_or_long_term_key (t counter key_id n1 n2 a1 a2 length : list Z) :
    M smp_state (bool * list Z) :=
  let msg := length ++ a2 ++ a1 ++ n2 ++ n1 ++ key_id ++ counter in
  c ← cmac t msg;
  mret (bool_decide (is_Some c), default junk c).

(** Both keys, as far as they are stored. *)
Definition smp_calculate_f5 (w n1 n2 a1 a2 : list Z) (mac_key ltk : list Z) : M smp_state (bool * list Z * list Z) :=
  let key_id := [101; 108; 116; 98] in
  let length := [0; 1] in
  '(ok, t) ← smp_calculate_f5_key w;
  if negb ok then mret (false, mac_key, ltk) else
  '(ok, mac_key) ← smp_calculate_f5_mackey_or_long_term_key t [0] key_id n1 n2 a1 a2 length;
  if negb ok then mret (false, mac_key, ltk) else
  '(ok, ltk) ← smp_calculate_f5_mackey_or_long_term_key t [1] key_id n1 n2 a1 a2 length;
  mret (ok, mac_key, ltk).

Definition smp_calculate_f6 (w n1 n2 r iocap a1 a2 : list Z) : M smp_state (bool * list Z) :=
  let msg := a2 ++ a1 ++ iocap ++ r ++ n2 ++ n1 in
  c ← cmac w msg;
  mret (bool_decide (is_Some c), default junk c).

Definition smp_calculate_h6 (w keyid : list Z) : M smp_state (bool * list Z) :=
  c ← cmac w keyid;
  mret (bool_decide (is_Some c), default junk c).

(** [smp_calculate_link_key_from_long_term_key] and
    [smp_calculate_long_term_key_from_link_key], the calculation. *)
Definition derive_link_key (ltk : list Z) : M smp_state (bool * list Z) :=
  '(ok, intermediate) ← smp_calculate_h6 ltk (bytes "1pmt");
  if negb ok then mret (false, junk) else smp_calculate_h6 intermediate (bytes "rbel").
Definition derive_long_term_key (link_key : list Z) : M smp_state (bool * list Z) :=
  '(ok, intermediate) ← smp_calculate_h6 (reverse link_key) (bytes "2pmt");
  if negb ok then mret (false, junk) else smp_calculate_h6 intermediate (bytes "elrb").

(** ** Their callers *)

Definition smp_calculate_random_input (random : list Z) (round : Z) : outcome Z :=
  let i := round / 8 in
  let j := round mod 8 in
  x ← load random i;
  Ok (Z.lor (Z.land (Z.shiftr x j) 1) 128).

Definition smp_collect_local_io_capabilities (p_cb : tSMP_CB) : list Z := [local_io_capability p_cb; loc_oob_flag p_cb; loc_auth_req p_cb].
Definition smp_collect_peer_io_capabilities (p_cb : tSMP_CB) : list Z := [peer_io_caps p_cb; peer_oob_flag p_cb; peer_auth_req p_cb].
Definition smp_collect_local_ble_address (p_cb : tSMP_CB) : list Z := bdaddr (local_addr p_cb) ++ uint8 (local_addr_type p_cb).
Definition smp_collect_peer_ble_address (p_cb : tSMP_CB) : list Z := bdaddr (remote_addr p_cb) ++ uint8 (remote_addr_type p_cb).

(** [None] where another model leaves the result as it was. *)
Definition smp_calculate_local_commitment (p_cb : tSMP_CB) : M smp_state (option (list Z)) :=
  match selected_association_model p_cb with
  | SMP_MODEL_SEC_CONN_JUSTWORKS | SMP_MODEL_SEC_CONN_NUM_COMP =>
      c ← smp_calculate_f4 (loc_publ_key_x p_cb) (peer_publ_key_x p_cb) (rand p_cb) 0; mret (Some c)
  | SMP_MODEL_SEC_CONN_PASSKEY_ENT | SMP_MODEL_SEC_CONN_PASSKEY_DISP =>
      random_input ← lift (smp_calculate_random_input (local_random p_cb) (round p_cb));
      c ← smp_calculate_f4 (loc_publ_key_x p_cb) (peer_publ_key_x p_cb) (rand p_cb) random_input; mret (Some c)
  | SMP_MODEL_SEC_CONN_OOB =>
      c ← smp_calculate_f4 (loc_publ_key_x p_cb) (loc_publ_key_x p_cb) (local_random p_cb) 0; mret (Some c)
  | _ => mret None
  end.
Definition smp_calculate_peer_commitment (p_cb : tSMP_CB) : M smp_state (option (list Z)) :=
  match selected_association_model p_cb with
  | SMP_MODEL_SEC_CONN_JUSTWORKS | SMP_MODEL_SEC_CONN_NUM_COMP =>
      c ← smp_calculate_f4 (peer_publ_key_x p_cb) (loc_publ_key_x p_cb) (rrand p_cb) 0; mret (Some c)
  | SMP_MODEL_SEC_CONN_PASSKEY_ENT | SMP_MODEL_SEC_CONN_PASSKEY_DISP =>
      ri ← lift (smp_calculate_random_input (peer_random p_cb) (round p_cb));
      c ← smp_calculate_f4 (peer_publ_key_x p_cb) (loc_publ_key_x p_cb) (rrand p_cb) ri; mret (Some c)
  | SMP_MODEL_SEC_CONN_OOB =>
      c ← smp_calculate_f4 (peer_publ_key_x p_cb) (peer_publ_key_x p_cb) (peer_random p_cb) 0; mret (Some c)
  | _ => mret None
  end.
Definition smp_check_commitment (p_cb : tSMP_CB) : M smp_state bool :=
  expected ← smp_calculate_peer_commitment p_cb;
  mret (bool_decide (remote_commitment p_cb = default junk expected)).

(** The number, or the end of the pairing with [SMP_PAIR_FAIL_UNKNOWN]. *)
Definition smp_calculate_numeric_comparison_display_number (p_cb : tSMP_CB) (keys : smp_keys) : M smp_state (bool * smp_keys) :=
  n ← match role p_cb with
      | HCI_ROLE_MASTER => smp_calculate_g2 (loc_publ_key_x p_cb) (peer_publ_key_x p_cb) (rand p_cb) (rrand p_cb)
      | HCI_ROLE_SLAVE => smp_calculate_g2 (peer_publ_key_x p_cb) (loc_publ_key_x p_cb) (rrand p_cb) (rand p_cb)
      end;
  mret (negb (BTM_MAX_PASSKEY_VAL + 1 <=? n),
    {| number_to_display := n; commitment := commitment keys; mac_key := mac_key keys; ltk := ltk keys;
       dhkey_check := dhkey_check keys; ediv := ediv keys |}).

Definition smp_calculate_f5_mackey_and_long_term_key (p_cb : tSMP_CB) (keys : smp_keys) : M smp_state (bool * smp_keys) :=
  let '(a, b, na, nb) :=
    match role p_cb with
    | HCI_ROLE_MASTER => (smp_collect_local_ble_address p_cb, smp_collect_peer_ble_address p_cb, rand p_cb, rrand p_cb)
    | HCI_ROLE_SLAVE => (smp_collect_peer_ble_address p_cb, smp_collect_local_ble_address p_cb, rrand p_cb, rand p_cb)
    end in
  '(ok, mac_key, ltk) ← smp_calculate_f5 (dhkey p_cb) na nb a b (mac_key keys) (ltk keys);
  mret (ok, {| number_to_display := number_to_display keys; commitment := commitment keys; mac_key := mac_key; ltk := ltk;
               dhkey_check := dhkey_check keys; ediv := ediv keys |}).

(** The results of the two calculations are not looked at. *)
Definition smp_calculate_local_dhkey_check (p_cb : tSMP_CB) (keys : smp_keys) : M smp_state smp_keys :=
  '(_, keys) ← smp_calculate_f5_mackey_and_long_term_key p_cb keys;
  let iocap := smp_collect_local_io_capabilities p_cb in
  let a := smp_collect_local_ble_address p_cb in
  let b := smp_collect_peer_ble_address p_cb in
  '(_, check) ← smp_calculate_f6 (mac_key keys) (rand p_cb) (rrand p_cb) (peer_random p_cb) iocap a b;
  mret {| number_to_display := number_to_display keys; commitment := commitment keys; mac_key := mac_key keys; ltk := ltk keys;
          dhkey_check := check; ediv := ediv keys |}.
(** The check that is handed to the state machine, or the end of the pairing. *)
Definition smp_calculate_peer_dhkey_check (p_cb : tSMP_CB) (keys : smp_keys) : M smp_state (option (list Z)) :=
  let iocap := smp_collect_peer_io_capabilities p_cb in
  let a := smp_collect_local_ble_address p_cb in
  let b := smp_collect_peer_ble_address p_cb in
  '(ret, param_buf) ← smp_calculate_f6 (mac_key keys) (rrand p_cb) (rand p_cb) (local_random p_cb) iocap b a;
  mret (if (ret : bool) then Some param_buf else None).

(** ** Legacy pairing *)

Definition smp_concatenate_local (p_cb : tSMP_CB) (op_code : Z) : list Z :=
  uint8 op_code ++ uint8 (local_io_capability p_cb) ++ uint8 (loc_oob_flag p_cb) ++ uint8 (loc_auth_req p_cb) ++
  uint8 (loc_enc_size p_cb) ++ uint8 (local_i_key p_cb) ++ uint8 (local_r_key p_cb).
Definition smp_concatenate_peer (p_cb : tSMP_CB) (op_code : Z) : list Z :=
  uint8 op_code ++ uint8 (peer_io_caps p_cb) ++ uint8 (peer_oob_flag p_cb) ++ uint8 (peer_auth_req p_cb) ++
  uint8 (peer_enc_size p_cb) ++ uint8 (peer_i_key p_cb) ++ uint8 (peer_r_key p_cb).

Definition smp_gen_p1_4_confirm (p_cb : tSMP_CB) : list Z :=
  match unknown_peer p_cb, role p_cb with
  | Some (p1, _), _ => p1
  | None, HCI_ROLE_MASTER =>
      uint8 (local_addr_type p_cb) ++ uint8 (remote_addr_type p_cb) ++
      smp_concatenate_local p_cb SMP_OPCODE_PAIRING_REQ ++ smp_concatenate_peer p_cb SMP_OPCODE_PAIRING_RSP
  | None, HCI_ROLE_SLAVE =>
      uint8 (remote_addr_type p_cb) ++ uint8 (local_addr_type p_cb) ++
      smp_concatenate_peer p_cb SMP_OPCODE_PAIRING_REQ ++ smp_concatenate_local p_cb SMP_OPCODE_PAIRING_RSP
  end.
Definition smp_gen_p2_4_confirm (p_cb : tSMP_CB) : list Z :=
  match unknown_peer p_cb, role p_cb with
  | Some (_, p2), _ => p2
  | None, HCI_ROLE_MASTER => bdaddr (remote_addr p_cb) ++ bdaddr (local_addr p_cb) ++ replicate 4 0
  | None, HCI_ROLE_SLAVE => bdaddr (local_addr p_cb) ++ bdaddr (remote_addr p_cb) ++ replicate 4 0
  end.

(** The confirm value for [rand], or [None] for the end of the pairing; the
    master's own value and the one it compares differ only in [rand]. *)
Definition smp_calculate_comfirm (p_cb : tSMP_CB) (rand : list Z) : M smp_state (option (list Z)) :=
  let p1 := smp_xor_128 (smp_gen_p1_4_confirm p_cb) rand in
  output ← SMP_Encrypt available ctx (tk p_cb) BT_OCTET16_LEN p1 BT_OCTET16_LEN;
  match output with
  | None => mret None
  | Some p =>
      let p2 := smp_xor_128 (smp_gen_p2_4_confirm p_cb) (param_buf p) in
      output ← SMP_Encrypt available ctx (tk p_cb) BT_OCTET16_LEN p2 BT_OCTET16_LEN;
      mret (param_buf <$> output)
  end.
Definition smp_generate_confirm (p_cb : tSMP_CB) : M smp_state (option (list Z)) := smp_calculate_comfirm p_cb (rand p_cb).
Definition smp_generate_compare (p_cb : tSMP_CB) : M smp_state (option (list Z)) := smp_calculate_comfirm p_cb (rrand p_cb).

Definition smp_mask_enc_key (loc_enc_size : Z) (p_data : list Z) : list Z :=
  if loc_enc_size <? BT_OCTET16_LEN then take (Z.to_nat loc_enc_size) p_data ++ replicate (16 - Z.to_nat loc_enc_size) 0 ++ drop 16 p_data
  else p_data.

(** The short term key, masked as [smp_process_stk] does. *)
Definition smp_calculate_legacy_short_term_key (p_cb : tSMP_CB) : M smp_state (option (list Z)) :=
  let ptext :=
    match role p_cb with
    | HCI_ROLE_MASTER => take 8 (rand p_cb) ++ take 8 (rrand p_cb)
    | HCI_ROLE_SLAVE => take 8 (rrand p_cb) ++ take 8 (rand p_cb)
    end in
  output ← SMP_Encrypt available ctx (tk p_cb) BT_OCTET16_LEN ptext BT_OCTET16_LEN;
  mret (param_buf <$> output).
Definition smp_process_stk (p_cb : tSMP_CB) (stk : list Z) : list Z := smp_mask_enc_key (loc_enc_size p_cb) stk.

(** The key of the device from its root key [er] and the diversifier. *)
Definition smp_generate_ltk_cont (p_cb : tSMP_CB) (er : list Z) (keys : smp_keys) : M smp_state (option smp_keys) :=
  output ← SMP_Encrypt available ctx er BT_OCTET16_LEN [div p_cb mod 256; div p_cb / 256] 2;
  match output with
  | None => mret None
  | Some output =>
      mret (Some {| number_to_display := number_to_display keys; commitment := commitment keys; mac_key := mac_key keys;
                    ltk := smp_mask_enc_key (loc_enc_size p_cb) (param_buf output); dhkey_check := dhkey_check keys; ediv := ediv keys |})
  end.
(** [smp_generate_y] and [smp_process_ediv]. *)
Definition smp_generate_y (p_cb : tSMP_CB) (dhk : list Z) (keys : smp_keys) : M smp_state (option smp_keys) :=
  output ← SMP_Encrypt available ctx dhk BT_OCTET16_LEN (enc_rand p_cb) 8;
  match output with
  | None => mret None
  | Some output =>
      y ← lift (load_bytes (param_buf output) 0 2);
      mret (Some {| number_to_display := number_to_display keys; commitment := commitment keys; mac_key := mac_key keys;
                    ltk := ltk keys; dhkey_check := dhkey_check keys; ediv := Z.lxor (div p_cb) (stream_to_uint y) |})
  end.
End Alloc.
