(* ===== verification/SmpProofs.v ===== *)
(** * The two sides of a pairing agree

    The key functions of [Smp] against the functions of the Bluetooth core
    specification (volume 3, part H, section 2.2) on big endian bytes, with the
    sample data of its appendix, and the agreement of a master and a slave that
    hold each other's values. *)

From S2P Require Import Prelude Aes AesProofs AesSpec Cmac CmacProofs Smp.
Import Fips197 Rfc4493.

(** ** The functions of the specification *)

Module CoreSpec.
Definition f4 (U V X z : list Z) : list Z := AES_CMAC X (U ++ V ++ z).
Definition g2 (U V X Y : list Z) : Z := val (AES_CMAC X (U ++ V ++ Y)) mod 2 ^ 32 mod 10 ^ 6.
Definition SALT : list Z := [108; 136; 131; 145; 170; 245; 165; 56; 96; 55; 11; 219; 90; 96; 131; 190].
Definition f5 (W N1 N2 A1 A2 : list Z) : list Z * list Z :=
  let T := AES_CMAC SALT W in
  let key Counter := AES_CMAC T (Counter :: bytes "btle" ++ N1 ++ N2 ++ A1 ++ A2 ++ [1; 0]) in
  (key 0, key 1).
Definition f6 (W N1 N2 R IOcap A1 A2 : list Z) : list Z := AES_CMAC W (N1 ++ N2 ++ R ++ IOcap ++ A1 ++ A2).
Definition h6 (W keyID : list Z) : list Z := AES_CMAC W keyID.
(** Legacy pairing: the confirm value and the short term key. *)
Definition c1 (k r p1 p2 : list Z) : list Z := AES k (xor (AES k (xor r p1)) p2).
Definition s1 (k r1 r2 : list Z) : list Z := AES k (drop 8 r1 ++ drop 8 r2).
End CoreSpec.
Import CoreSpec.

(** ** Codes *)

Definition cmac_le (k m : list Z) : list Z := reverse (AES_CMAC (reverse k) (reverse m)).

Lemma dbl_block l : block (dbl l).
Proof. unfold dbl, block_of. apply reverse_block. split; [apply le_bytes_length|apply le_bytes_ok]. Qed.

Lemma AES_CMAC_block k m : block k → bytes_ok m → block (AES_CMAC k m).
Proof.
  intros Hk Hm. unfold AES_CMAC. set (N := blocks m).
  assert (Hlast : block (last_block k m) ∧ (16 * (N - 1) ≤ length m)%nat ∧ (0 < N)%nat).
  { destruct (split_text (reverse m)) as (hd & tl & E & Ht & Hh & Hne & HN). cbv zeta in *. rewrite reverse_involutive in Ht, HN. fold N in Ht, HN.
    rewrite length_reverse in Hne. assert (Hlm : length m = (length hd + length tl)%nat) by (rewrite <- (length_reverse m), E, length_app; done).
    split; [|lia]. unfold last_block. fold N. set (l := drop (16 * (N - 1)) m).
    assert (Hl : (length l ≤ 16)%nat) by (subst l; rewrite length_drop; lia).
    assert (Hlb : bytes_ok l) by (by apply Forall_drop).
    destruct (Nat.eqb_spec (length l) 16); [apply xor_block_block; [done|apply dbl_block]|].
    apply xor_block_block; [|apply dbl_block]. unfold pad. split; [rewrite length_app; cbn [length]; rewrite length_replicate; lia|].
    apply Forall_app. split; [done|]. constructor; [done|by apply Forall_replicate]. }
  destruct Hlast as (Hlast & Hlen & HN). set (t := take _ m ++ last_block k m).
  assert (Ht : length t = (16 * N)%nat) by (subst t; rewrite length_app, length_take; destruct Hlast as [-> _]; lia).
  assert (Hbt : bytes_ok t) by (subst t; apply Forall_app; split; [by apply Forall_take|apply Hlast]).
  destruct (chain_le_spec N (reverse k) (reverse (replicate 16 0)) (reverse t)) as [E H];
    [by rewrite length_reverse|by rewrite length_reverse|by apply reverse_block|by apply Forall_reverse, Forall_replicate|by apply Forall_reverse|].
  rewrite !reverse_involutive in E. rewrite E in H. apply reverse_block in H. by rewrite reverse_involutive in H.
Qed.
Lemma cmac_le_block k m : block k → bytes_ok m → block (cmac_le k m).
Proof. intros Hk Hm. apply reverse_block, AES_CMAC_block; [by apply reverse_block|by apply Forall_reverse]. Qed.

#[local] Opaque AES_CMAC AES.

Section Agreement.
Context (available : nat → bool) (ctx : aes_context) (junk : list Z).
(** No allocation fails. *)
Context (Havailable : ∀ n, available n = true).

Lemma cmac_ok k m s : block k → bytes_ok m → zlen m ≤ 4064 →
  ∃ s', cmac available ctx k m s = Ok (Some (cmac_le k m), s').
Proof.
  intros Hk Hm Hl. unfold cmac. destruct (cmac_value available ctx k m 16 s Hk Hm Hl ltac:(lia)) as (r & s' & E & _ & Hr).
  exists s'. destruct Hr as [[_ (n & _ & Hn)]| ->]; [by rewrite Havailable in Hn|].
  change (Z.to_nat 16) with 16%nat in E. rewrite take_ge in E; [exact E|].
  destruct (AES_CMAC_block (reverse k) (reverse m)) as [-> _]; [by apply reverse_block|by apply Forall_reverse|done].
Qed.

(** Values that the code computes from a state on, whatever that is. *)
Definition gives {A} (m : M smp_state A) (a : A) : Prop := ∀ s, ∃ s', m s = Ok (a, s').

Lemma gives_bind {A B} (m : M smp_state A) (k : A → M smp_state B) a b : gives m a → gives (k a) b → gives (m ≫= k) b.
Proof.
  intros Hm Hk s. destruct (Hm s) as [s' E]. destruct (Hk s') as [s'' E']. exists s''. unfold mbind, M_bind. by rewrite E.
Qed.
Lemma gives_ret {A} (a : A) : gives (mret a) a.
Proof. intros s. by exists s. Qed.
Lemma gives_cmac k m : block k → bytes_ok m → zlen m ≤ 4064 → gives (cmac available ctx k m) (Some (cmac_le k m)).
Proof. intros Hk Hm Hl s. by apply cmac_ok. Qed.
Lemma gives_encrypt k x : block k → block x →
  gives (SMP_Encrypt available ctx k BT_OCTET16_LEN x BT_OCTET16_LEN) (Some (encrypted (e k x))).
Proof. intros Hk Hx s. exists (allocated s). unfold BT_OCTET16_LEN. rewrite encrypt_block by done. by rewrite Havailable. Qed.

(** ** The functions *)

(** An array of [n] bytes. *)
Definition octets (n : nat) (l : list Z) : Prop := length l = n ∧ bytes_ok l.
Lemma octets_app n m a b : octets n a → octets m b → octets (n + m) (a ++ b).
Proof. intros [H1 H2] [H3 H4]. split; [rewrite length_app; lia|by apply Forall_app]. Qed.

Lemma gives_f4 u v x z : octets 32 u → octets 32 v → block x → is_byte z →
  gives (smp_calculate_f4 available ctx junk u v x z) (reverse (f4 (reverse u) (reverse v) (reverse x) [z])).
Proof.
  intros Hu Hv Hx Hz. unfold smp_calculate_f4. assert (Ez : uint8 z = [z]) by (unfold uint8, u8; by rewrite Z.mod_small).
  rewrite Ez. assert (Hm : octets (1 + (32 + 32)) ([z] ++ v ++ u)) by (repeat apply octets_app; try done; split; [done|by constructor]).
  eapply gives_bind; [apply gives_cmac; [done|apply Hm|destruct Hm as [-> _]; done]|].
  replace (reverse (f4 _ _ _ _)) with (cmac_le x ([z] ++ v ++ u)); [apply gives_ret|].
  unfold cmac_le, f4. do 2 f_equal. by rewrite !reverse_app, <- app_assoc.
Qed.

Lemma g2_loop_value fuel v : 0 ≤ v < 1000000 * Z.of_nat (S fuel) → g2_loop fuel v = Ok (v mod 1000000).
Proof.
  revert v. induction fuel as [|fuel IH]; intros v Hv; cbn [g2_loop]; unfold BTM_MAX_PASSKEY_VAL;
    destruct (Z.ltb_spec 999999 v); try lia; try (by rewrite Z.mod_small by lia).
  rewrite IH by lia. f_equal. change (999999 + 1) with 1000000.
  replace v with (v - 1000000 + 1 * 1000000) at 2 by lia. by rewrite Z.mod_add.
Qed.

Lemma stream_to_uint_val l : stream_to_uint l = le_val l.
Proof. unfold stream_to_uint. induction l as [|x l IH]; [done|]. cbn [fold_right le_val]. by rewrite IH. Qed.

(** The first four bytes are the value modulo 2^32. *)
Lemma low_word c : block c → le_val (take 4 c) = le_val c mod 2 ^ 32.
Proof.
  intros Hc. pose proof Hc as [_ Hb]. open_block Hc. cbn [take le_val].
  set (r := x4 + 256 * _). replace (x0 + 256 * (x1 + 256 * (x2 + 256 * (x3 + 256 * r)))) with
    ((x0 + 256 * (x1 + 256 * (x2 + 256 * (x3 + 256 * 0)))) + r * 2 ^ 32) by lia.
  rewrite Z.mod_add by lia. rewrite Z.mod_small; [done|]. unfold is_byte in *. lia.
Qed.

Lemma gives_g2 u v x y : octets 32 u → octets 32 v → block x → block y →
  gives (smp_calculate_g2 available ctx u v x y) (g2 (reverse u) (reverse v) (reverse x) (reverse y)).
Proof.
  intros Hu Hv Hx Hy. unfold smp_calculate_g2.
  assert (Hm : octets (16 + (32 + 32)) (y ++ v ++ u)) by (by repeat apply octets_app).
  eapply gives_bind; [apply gives_cmac; [done|apply Hm|destruct Hm as [-> _]; done]|].
  set (c := cmac_le x (y ++ v ++ u)). assert (Hc : block c) by (apply cmac_le_block; [done|apply Hm]).
  eapply gives_bind.
  { intros s. exists s. unfold lift. rewrite (load_bytes_at c [] (take 4 c) (drop 4 c)); [done|by rewrite take_drop|done|].
    rewrite length_take. destruct Hc as [-> _]. done. }
  intros s. exists s. unfold lift. rewrite stream_to_uint_val, low_word by done.
  rewrite g2_loop_value by (pose proof (Z.mod_pos_bound (le_val c) (2 ^ 32)); lia).
  unfold g2, val. do 3 f_equal. do 2 f_equal. subst c. unfold cmac_le. by rewrite !reverse_app, <- app_assoc.
Qed.

Lemma gives_code k msg r : block k → bytes_ok msg → zlen msg ≤ 4064 → r = cmac_le k msg →
  gives (c ← cmac available ctx k msg; mret (bool_decide (is_Some c), default junk c)) (true, r).
Proof.
  intros Hk Hm Hl ->. eapply gives_bind; [by apply gives_cmac|]. rewrite bool_decide_eq_true_2 by by eexists. apply gives_ret.
Qed.

Lemma gives_f6 w n1 n2 r iocap a1 a2 : block w → block n1 → block n2 → block r → octets 3 iocap → octets 7 a1 → octets 7 a2 →
  gives (smp_calculate_f6 available ctx junk w n1 n2 r iocap a1 a2)
    (true, reverse (f6 (reverse w) (reverse n1) (reverse n2) (reverse r) (reverse iocap) (reverse a1) (reverse a2))).
Proof.
  intros Hw H1 H2 Hr Hi Ha1 Ha2. unfold smp_calculate_f6.
  assert (Hm : octets (7 + (7 + (3 + (16 + (16 + 16))))) (a2 ++ a1 ++ iocap ++ r ++ n2 ++ n1)) by (by repeat apply octets_app).
  apply gives_code; [done|apply Hm|destruct Hm as [-> _]; done|]. unfold cmac_le, f6. do 2 f_equal.
  by rewrite !reverse_app, <- !app_assoc.
Qed.
Lemma gives_h6 w keyid : block w → octets 4 keyid →
  gives (smp_calculate_h6 available ctx junk w keyid) (true, reverse (h6 (reverse w) (reverse keyid))).
Proof. intros Hw Hk. apply gives_code; [done|apply Hk|destruct Hk as [-> _]; done|done]. Qed.

Lemma gives_f5 w n1 n2 a1 a2 mk lk : octets 32 w → block n1 → block n2 → octets 7 a1 → octets 7 a2 →
  gives (smp_calculate_f5 available ctx junk w n1 n2 a1 a2 mk lk)
    (let '(mac_key, ltk) := f5 (reverse w) (reverse n1) (reverse n2) (reverse a1) (reverse a2) in (true, reverse mac_key, reverse ltk)).
Proof.
  intros Hw H1 H2 Ha1 Ha2. unfold smp_calculate_f5.
  assert (Hs : block salt) by decide_vm.
  assert (Ht : block (cmac_le salt w)) by (apply cmac_le_block; [done|apply Hw]).
  assert (Hm : ∀ k, is_byte k → octets (2 + (7 + (7 + (16 + (16 + (4 + 1)))))) ([0; 1] ++ a2 ++ a1 ++ n2 ++ n1 ++ [101; 108; 116; 98] ++ [k])).
  { intros k Hk. repeat apply octets_app; try done; (split; [done|]); [decide_vm|decide_vm|by constructor]. }
  assert (Hk : ∀ k, is_byte k → gives (smp_calculate_f5_mackey_or_long_term_key available ctx junk (cmac_le salt w) [k]
      [101; 108; 116; 98] n1 n2 a1 a2 [0; 1])
    (true, reverse (AES_CMAC (AES_CMAC SALT (reverse w)) (k :: bytes "btle" ++ reverse n1 ++ reverse n2 ++ reverse a1 ++ reverse a2 ++ [1; 0])))).
  { intros k Hk. specialize (Hm k Hk). apply gives_code; [done|apply Hm|destruct Hm as [-> _]; done|]. unfold cmac_le.
    rewrite reverse_involutive. do 2 f_equal. by rewrite !reverse_app, <- !app_assoc. }
  eapply gives_bind; [apply gives_code; [done|apply Hw|destruct Hw as [-> _]; done|done]|]. cbn [negb].
  eapply gives_bind; [by apply Hk|]. cbn [negb]. eapply gives_bind; [by apply Hk|]. apply gives_ret.
Qed.

Lemma g2_range u v x y : 0 ≤ g2 u v x y < 1000000.
Proof. apply Z.mod_pos_bound. lia. Qed.

Lemma f5_blocks w n1 n2 a1 a2 : bytes_ok w → bytes_ok n1 → bytes_ok n2 → bytes_ok a1 → bytes_ok a2 →
  block (f5 w n1 n2 a1 a2).1 ∧ block (f5 w n1 n2 a1 a2).2.
Proof.
  intros Hw H1 H2 H3 H4. assert (Hs : block SALT) by decide_vm.
  assert (Hm : ∀ k, is_byte k → bytes_ok (k :: bytes "btle" ++ n1 ++ n2 ++ a1 ++ a2 ++ [1; 0])).
  { intros k Hk. constructor; [done|]. rewrite !Forall_app. split_and!; try done; decide_vm. }
  unfold f5. cbn [fst snd]. split; (apply AES_CMAC_block; [by apply AES_CMAC_block|by apply Hm]).
Qed.

#[local] Opaque smp_calculate_f4 smp_calculate_g2 smp_calculate_f5 smp_calculate_f6 SMP_Encrypt f4 g2 f5 f6 c1 s1.

(** ** Two sides *)

(** The arrays of a control block have their sizes, and the rest are bytes. *)
Record cb_ok (p : tSMP_CB) : Prop := {
  ok_addrs : octets 6 (local_addr p) ∧ octets 6 (remote_addr p);
  ok_tk : block (tk p); ok_rand : block (rand p) ∧ block (rrand p);
  ok_keys : octets 32 (loc_publ_key_x p) ∧ octets 32 (peer_publ_key_x p) ∧ octets 32 (dhkey p);
  ok_randoms : block (local_random p) ∧ block (peer_random p);
  ok_round : 0 ≤ Smp.round p < 128;
  ok_local : Forall is_byte [local_io_capability p; loc_oob_flag p; loc_auth_req p];
  ok_peer : Forall is_byte [peer_io_caps p; peer_oob_flag p; peer_auth_req p];
  ok_unknown : match unknown_peer p with Some (p1, p2) => block p1 ∧ block p2 | None => True end }.

(** Models of secure connections that calculate their commitments alike. *)
Inductive commitment_kind := Plain | Bit | Oob.
Definition commitment_class (m : association_model) : option commitment_kind :=
  match m with
  | SMP_MODEL_SEC_CONN_JUSTWORKS | SMP_MODEL_SEC_CONN_NUM_COMP => Some Plain
  | SMP_MODEL_SEC_CONN_PASSKEY_ENT | SMP_MODEL_SEC_CONN_PASSKEY_DISP => Some Bit
  | SMP_MODEL_SEC_CONN_OOB => Some Oob
  | _ => None
  end.

(** What one side holds as its own the other holds as its peer's. *)
Record mirrored (a b : tSMP_CB) : Prop := {
  mir_addr : local_addr a = remote_addr b ∧ local_addr_type a = remote_addr_type b;
  mir_io : local_io_capability a = peer_io_caps b ∧ loc_oob_flag a = peer_oob_flag b ∧ loc_auth_req a = peer_auth_req b;
  mir_keydist : loc_enc_size a = peer_enc_size b ∧ local_i_key a = peer_i_key b ∧ local_r_key a = peer_r_key b;
  mir_tk : tk a = tk b; mir_rand : rand a = rrand b;
  mir_publ : loc_publ_key_x a = peer_publ_key_x b; mir_dhkey : dhkey a = dhkey b;
  mir_random : local_random a = peer_random b; mir_round : Smp.round a = Smp.round b;
  mir_model : commitment_class (selected_association_model a) = commitment_class (selected_association_model b) }.

Lemma ble_address_octets a t : octets 6 a → octets 7 (bdaddr a ++ uint8 t).
Proof.
  intros [Hl Hb]. split; [unfold bdaddr; rewrite length_app, length_reverse, Hl; done|]. apply Forall_app.
  split; [by apply Forall_reverse|]. constructor; [|done]. apply Z.mod_pos_bound. lia.
Qed.
Lemma random_input_ok r i : block r → 0 ≤ i < 128 → ∃ z, smp_calculate_random_input r i = Ok z ∧ is_byte z.
Proof.
  intros Hr Hi. unfold smp_calculate_random_input.
  assert (H16 : 0 ≤ i / 8 < 16) by (Z.div_mod_to_equations; lia).
  destruct (lookup_lt_is_Some_2 r (Z.to_nat (i / 8))) as [x Ex]; [destruct Hr; lia|].
  rewrite (load_lookup r (i / 8) x (proj1 H16) Ex), bind_ok. eexists. split; [done|].
  change 1 with (Z.ones 1) at 1. rewrite Z.land_ones by lia. change (2 ^ 1) with 2.
  pose proof (Z.mod_pos_bound (Z.shiftr x (i mod 8)) 2 ltac:(lia)).
  assert (Z.shiftr x (i mod 8) mod 2 = 0 ∨ Z.shiftr x (i mod 8) mod 2 = 1) as [-> | ->] by lia; done.
Qed.

Lemma local_commitment_class p : smp_calculate_local_commitment available ctx junk p =
  match commitment_class (selected_association_model p) with
  | Some Plain => c ← smp_calculate_f4 available ctx junk (loc_publ_key_x p) (peer_publ_key_x p) (rand p) 0; mret (Some c)
  | Some Bit =>
      random_input ← lift (smp_calculate_random_input (local_random p) (Smp.round p));
      c ← smp_calculate_f4 available ctx junk (loc_publ_key_x p) (peer_publ_key_x p) (rand p) random_input; mret (Some c)
  | Some Oob => c ← smp_calculate_f4 available ctx junk (loc_publ_key_x p) (loc_publ_key_x p) (local_random p) 0; mret (Some c)
  | _ => mret None
  end.
Proof. unfold smp_calculate_local_commitment. by destruct (selected_association_model p). Qed.
Lemma peer_commitment_class p : smp_calculate_peer_commitment available ctx junk p =
  match commitment_class (selected_association_model p) with
  | Some Plain => c ← smp_calculate_f4 available ctx junk (peer_publ_key_x p) (loc_publ_key_x p) (rrand p) 0; mret (Some c)
  | Some Bit =>
      ri ← lift (smp_calculate_random_input (peer_random p) (Smp.round p));
      c ← smp_calculate_f4 available ctx junk (peer_publ_key_x p) (loc_publ_key_x p) (rrand p) ri; mret (Some c)
  | Some Oob => c ← smp_calculate_f4 available ctx junk (peer_publ_key_x p) (peer_publ_key_x p) (peer_random p) 0; mret (Some c)
  | _ => mret None
  end.
Proof. unfold smp_calculate_peer_commitment. by destruct (selected_association_model p). Qed.

(** One side's commitment is the one its peer expects. *)
Lemma commitments_agree a b : cb_ok a → mirrored a b → mirrored b a → commitment_class (selected_association_model a) ≠ None →
  ∃ c, gives (smp_calculate_local_commitment available ctx junk a) (Some c) ∧
       gives (smp_calculate_peer_commitment available ctx junk b) (Some c).
Proof.
  intros [] [] [] Hm. destruct ok_keys0 as (K1 & K2 & _), ok_rand0 as [R1 _], ok_randoms0 as [Q1 _].
  assert (H0 : is_byte 0) by done.
  destruct (random_input_ok _ _ Q1 ok_round0) as (z & Ez & Hz).
  assert (J : ∀ (u v x : list Z) w, octets 32 u → octets 32 v → block x → is_byte w →
    gives (c ← smp_calculate_f4 available ctx junk u v x w; mret (Some c)) (Some (reverse (f4 (reverse u) (reverse v) (reverse x) [w])))).
  { intros u v x w Hu Hv Hx Hw. eapply gives_bind; [apply gives_f4; assumption|apply gives_ret]. }
  rewrite local_commitment_class, peer_commitment_class, <- mir_model0.
  rewrite <- mir_publ0, mir_publ1, <- mir_rand0, <- mir_random0, <- mir_round0, Ez. 
  pose proof (J _ _ _ _ K1 K2 R1 H0) as J1. pose proof (J _ _ _ _ K1 K2 R1 Hz) as J2. pose proof (J _ _ _ _ K1 K1 Q1 H0) as J3.
  destruct (commitment_class (selected_association_model a)) as [[]|]; [| | |done].
  - eexists. split; exact J1.
  - eexists. split; exact J2.
  - eexists. split; exact J3.
Qed.

(** Values that end up in a part of the keys. *)
Definition stores {A B} (m : smp_keys → M smp_state B) (part : B → A) (a : A) : Prop :=
  ∀ keys s, ∃ b s', m keys s = Ok (b, s') ∧ part b = a.
Lemma stores_bind {A B C} (m : M smp_state A) (k : smp_keys → A → B) (part : B → C) a c :
  gives m a → (∀ keys, part (k keys a) = c) → stores (λ keys, x ← m; mret (k keys x)) part c.
Proof.
  intros Hm Hp keys s. destruct (Hm s) as [s' E]. exists (k keys a), s'. split; [unfold mbind, M_bind; by rewrite E|done].
Qed.

(** The number that both sides show. *)
Lemma numbers_agree a b : cb_ok a → mirrored a b → mirrored b a → role a = HCI_ROLE_MASTER → role b = HCI_ROLE_SLAVE →
  ∃ n, 0 ≤ n ≤ BTM_MAX_PASSKEY_VAL ∧
    stores (smp_calculate_numeric_comparison_display_number available ctx a) (λ '(ok, k), (ok, number_to_display k)) (true, n) ∧
    stores (smp_calculate_numeric_comparison_display_number available ctx b) (λ '(ok, k), (ok, number_to_display k)) (true, n).
Proof.
  intros [] [] [] Ha Hb. destruct ok_keys0 as (K1 & K2 & _), ok_rand0 as [R1 R2].
  pose proof (gives_g2 _ _ _ _ K1 K2 R1 R2) as G. set (n := g2 _ _ _ _) in *.
  assert (Hn : 0 ≤ n < 1000000) by by apply g2_range. exists n. split; [unfold BTM_MAX_PASSKEY_VAL; lia|].
  assert (E : negb (BTM_MAX_PASSKEY_VAL + 1 <=? n) = true) by (rewrite (proj2 (Z.leb_gt _ _)); [done|unfold BTM_MAX_PASSKEY_VAL; lia]).
  unfold smp_calculate_numeric_comparison_display_number. rewrite Ha, Hb. cbv iota.
  rewrite <- mir_publ0, mir_publ1, <- mir_rand0, mir_rand1.
  split; apply (stores_bind _ _ _ n); try exact G; intros keys; cbn [number_to_display]; by rewrite E.
Qed.

(** The two keys of secure connections. *)
Lemma keys_agree a b : cb_ok a → mirrored a b → mirrored b a → role a = HCI_ROLE_MASTER → role b = HCI_ROLE_SLAVE →
  ∃ mk lk, block mk ∧ block lk ∧
    stores (smp_calculate_f5_mackey_and_long_term_key available ctx junk a) (λ '(ok, k), (ok, mac_key k, ltk k)) (true, mk, lk) ∧
    stores (smp_calculate_f5_mackey_and_long_term_key available ctx junk b) (λ '(ok, k), (ok, mac_key k, ltk k)) (true, mk, lk).
Proof.
  intros [] [] [] Ha Hb. destruct ok_keys0 as (_ & _ & K3), ok_rand0 as [R1 R2], ok_addrs0 as [L1 L2], mir_addr0 as [A1 A2], mir_addr1 as [B1 B2].
  pose proof (λ mk lk, gives_f5 _ _ _ _ _ mk lk K3 R1 R2 (ble_address_octets (local_addr a) (local_addr_type a) L1)
    (ble_address_octets (remote_addr a) (remote_addr_type a) L2)) as G.
  unfold smp_calculate_f5_mackey_and_long_term_key, smp_collect_local_ble_address, smp_collect_peer_ble_address. rewrite Ha, Hb. cbv iota.
  rewrite <- mir_dhkey0, <- mir_rand0, mir_rand1, <- A1, <- A2, B1, B2.
  destruct (f5_blocks (reverse (dhkey a)) (reverse (rand a)) (reverse (rrand a)) (reverse (bdaddr (local_addr a) ++ uint8 (local_addr_type a)))
    (reverse (bdaddr (remote_addr a) ++ uint8 (remote_addr_type a)))) as [F1 F2].
  1-5: apply Forall_reverse; (apply K3 || apply R1 || apply R2 || by apply ble_address_octets).
  destruct (f5 _ _ _ _ _) as [mk lk]. exists (reverse mk), (reverse lk). split_and!; [by apply reverse_block..| |].
  all: intros keys s; destruct (G (mac_key keys) (ltk keys) s) as [s' E]; unfold mbind, M_bind; rewrite E;
    eexists _, _; split; [reflexivity|reflexivity].
Qed.

Lemma bytes3 x y z : Forall is_byte [x; y; z] → octets 3 [x; y; z].
Proof. done. Qed.

(** The check that one side sends is the one that the other computes, when they
    have the same key. *)
Lemma checks_agree a b mk : cb_ok a → mirrored a b → mirrored b a → block mk →
  ∃ c, gives (smp_calculate_f6 available ctx junk mk (rand a) (rrand a) (peer_random a) (smp_collect_local_io_capabilities a)
        (smp_collect_local_ble_address a) (smp_collect_peer_ble_address a)) (true, c) ∧
      ∀ k, mac_key k = mk → gives (smp_calculate_peer_dhkey_check available ctx junk b k) (Some c).
Proof.
  intros [] [] [] Hmk. destruct ok_rand0 as [R1 R2], ok_randoms0 as [Q1 Q2], ok_addrs0 as [L1 L2], mir_addr0 as [A1 A2], mir_addr1 as [B1 B2].
  destruct mir_io0 as (I1 & I2 & I3).
  pose proof (gives_f6 mk _ _ _ _ _ _ Hmk R1 R2 Q2 (bytes3 _ _ _ ok_local0) (ble_address_octets (local_addr a) (local_addr_type a) L1)
    (ble_address_octets (remote_addr a) (remote_addr_type a) L2)) as G.
  eexists. split; [exact G|]. intros k Ek. unfold smp_calculate_peer_dhkey_check. rewrite Ek.
  unfold smp_collect_local_ble_address, smp_collect_peer_ble_address, smp_collect_peer_io_capabilities.
  rewrite <- mir_rand0, mir_rand1, mir_random1, <- A1, <- A2, B1, B2, <- I1, <- I2, <- I3.
  eapply gives_bind; [exact G|]. cbn beta iota. apply gives_ret.
Qed.

Lemma local_check_stores a mk lk c : block mk →
  stores (smp_calculate_f5_mackey_and_long_term_key available ctx junk a) (λ '(ok, k), (ok, mac_key k, ltk k)) (true, mk, lk) →
  gives (smp_calculate_f6 available ctx junk mk (rand a) (rrand a) (peer_random a) (smp_collect_local_io_capabilities a)
        (smp_collect_local_ble_address a) (smp_collect_peer_ble_address a)) (true, c) →
  stores (smp_calculate_local_dhkey_check available ctx junk a) (λ k, (mac_key k, ltk k, dhkey_check k)) (mk, lk, c).
Proof.
  intros Hmk Hf5 Hf6 keys s. destruct (Hf5 keys s) as ([ok k] & s' & E & Ep). destruct (Hf6 s') as [s'' E'].
  unfold smp_calculate_local_dhkey_check, mbind, M_bind. rewrite E.
  assert (mac_key k = mk ∧ ltk k = lk) as [-> <-] by (cbn in Ep; split; congruence). rewrite E'. eexists _, _. split; [reflexivity|done].
Qed.

(** The values that the confirm value is made of. *)
Lemma confirm_parts p : cb_ok p → block (smp_gen_p1_4_confirm p) ∧ block (smp_gen_p2_4_confirm p).
Proof.
  intros []. destruct ok_addrs0 as [[L1 L2] [L3 L4]]. assert (Hu : ∀ z, is_byte (u8 z)) by (intros; apply Z.mod_pos_bound; lia).
  unfold smp_gen_p1_4_confirm, smp_gen_p2_4_confirm, smp_concatenate_local, smp_concatenate_peer, uint8, bdaddr.
  destruct (unknown_peer p) as [[p1 p2]|]; [done|]. destruct (role p); (split; (split; [rewrite ?length_app, ?length_reverse, ?L1, ?L3; done|])).
  1, 3: cbn [app]; rewrite !Forall_cons; split_and!; auto.
  all: rewrite !Forall_app, !Forall_reverse; split_and!; try done; by apply Forall_replicate.
Qed.
Lemma gives_confirm p r : cb_ok p → block r → let p1 := smp_gen_p1_4_confirm p in let p2 := smp_gen_p2_4_confirm p in
  gives (smp_calculate_comfirm available ctx p r) (Some (e (tk p) (smp_xor_128 p2 (e (tk p) (smp_xor_128 p1 r))))).
Proof.
  intros Hok Hr p1 p2. destruct (confirm_parts p Hok) as [H1 H2]. pose proof (ok_tk _ Hok) as Htk.
  assert (Hx : block (smp_xor_128 p1 r)) by (by apply xor_block_block).
  unfold smp_calculate_comfirm. eapply gives_bind; [apply gives_encrypt; [exact Htk|exact Hx]|]. cbn [param_buf encrypted].
  eapply gives_bind; [apply gives_encrypt; [exact Htk|]|apply gives_ret]. apply xor_block_block; [exact H2|]. by apply e_block.
Qed.

Lemma confirm_parts_mirrored a b : mirrored a b → mirrored b a → role a = HCI_ROLE_MASTER → role b = HCI_ROLE_SLAVE →
  unknown_peer a = None → unknown_peer b = None →
  smp_gen_p1_4_confirm b = smp_gen_p1_4_confirm a ∧ smp_gen_p2_4_confirm b = smp_gen_p2_4_confirm a ∧ tk b = tk a.
Proof.
  intros [] [] Ha Hb Ua Ub. unfold smp_gen_p1_4_confirm, smp_gen_p2_4_confirm, smp_concatenate_local, smp_concatenate_peer.
  rewrite Ha, Hb, Ua, Ub.
  destruct mir_addr0 as [-> ->], mir_addr1 as [<- <-], mir_io0 as (-> & -> & ->), mir_io1 as (<- & <- & <-),
    mir_keydist0 as (-> & -> & ->), mir_keydist1 as (<- & <- & <-). split_and!; [done..|congruence].
Qed.
End Agreement.

(** ** Properties *)

(** [C32] The key functions are those of the core specification: when no allocation
    fails, [smp_calculate_f4], [smp_calculate_g2], [smp_calculate_f5],
    [smp_calculate_f6] and [smp_calculate_h6] on little endian arrays of the right
    sizes give the values of f4, g2, f5, f6 and h6 on the big endian ones,
    whatever the stack held. *)
Theorem key_functions_correct av ctx junk u v w x y n1 n2 r iocap a1 a2 keyid z : (∀ n, av n = true) →
  octets 32 u → octets 32 v → octets 32 w → block x → block y → block n1 → block n2 → block r →
  octets 3 iocap → octets 7 a1 → octets 7 a2 → octets 4 keyid → is_byte z →
  gives (smp_calculate_f4 av ctx junk u v x z) (reverse (f4 (reverse u) (reverse v) (reverse x) [z])) ∧
  gives (smp_calculate_g2 av ctx u v x y) (g2 (reverse u) (reverse v) (reverse x) (reverse y)) ∧
  (∀ mk lk, gives (smp_calculate_f5 av ctx junk w n1 n2 a1 a2 mk lk)
    (let '(mac_key, ltk) := f5 (reverse w) (reverse n1) (reverse n2) (reverse a1) (reverse a2) in
     (true, reverse mac_key, reverse ltk))) ∧
  gives (smp_calculate_f6 av ctx junk x n1 n2 r iocap a1 a2)
    (true, reverse (f6 (reverse x) (reverse n1) (reverse n2) (reverse r) (reverse iocap) (reverse a1) (reverse a2))) ∧
  gives (smp_calculate_h6 av ctx junk x keyid) (true, reverse (h6 (reverse x) (reverse keyid))).
Proof.
  intros Hav Hu Hv Hw Hx Hy H1 H2 Hr Hi Ha1 Ha2 Hk Hz. split_and!.
  - by apply gives_f4. - by apply gives_g2. - intros mk lk. by apply gives_f5. - by apply gives_f6. - by apply gives_h6.
Qed.

(** [C33] Secure connections agree: a master and a slave that hold each other's
    values, the same Diffie-Hellman key and a model of secure connections, and
    whose allocations do not fail, expect each other's commitments, show the same
    number below 1000000, store the same two keys, and each computes for the other
    the very check that the other sends. *)
Theorem secure_pairing_agrees av ctx junk a b : (∀ n, av n = true) → cb_ok a → cb_ok b → mirrored a b → mirrored b a →
  role a = HCI_ROLE_MASTER → role b = HCI_ROLE_SLAVE → commitment_class (selected_association_model a) ≠ None →
  ∃ ca cb n mk lk ea eb, 0 ≤ n ≤ BTM_MAX_PASSKEY_VAL ∧
    gives (smp_calculate_local_commitment av ctx junk a) (Some ca) ∧ gives (smp_calculate_peer_commitment av ctx junk b) (Some ca) ∧
    gives (smp_calculate_local_commitment av ctx junk b) (Some cb) ∧ gives (smp_calculate_peer_commitment av ctx junk a) (Some cb) ∧
    stores (smp_calculate_numeric_comparison_display_number av ctx a) (λ '(ok, k), (ok, number_to_display k)) (true, n) ∧
    stores (smp_calculate_numeric_comparison_display_number av ctx b) (λ '(ok, k), (ok, number_to_display k)) (true, n) ∧
    stores (smp_calculate_local_dhkey_check av ctx junk a) (λ k, (mac_key k, ltk k, dhkey_check k)) (mk, lk, ea) ∧
    stores (smp_calculate_local_dhkey_check av ctx junk b) (λ k, (mac_key k, ltk k, dhkey_check k)) (mk, lk, eb) ∧
    (∀ k, mac_key k = mk → gives (smp_calculate_peer_dhkey_check av ctx junk b k) (Some ea)) ∧
    (∀ k, mac_key k = mk → gives (smp_calculate_peer_dhkey_check av ctx junk a k) (Some eb)).
Proof.
  intros Hav Ha Hb Hab Hba Hra Hrb Hc.
  destruct (commitments_agree av ctx junk Hav a b Ha Hab Hba Hc) as (ca & C1 & C2).
  destruct (commitments_agree av ctx junk Hav b a Hb Hba Hab) as (cb & C3 & C4); [by rewrite (mir_model _ _ Hba)|].
  destruct (numbers_agree av ctx Hav a b Ha Hab Hba Hra Hrb) as (n & Hn & N1 & N2).
  destruct (keys_agree av ctx junk Hav a b Ha Hab Hba Hra Hrb) as (mk & lk & Hmk & _ & K1 & K2).
  destruct (checks_agree av ctx junk Hav a b mk Ha Hab Hba Hmk) as (ea & E1 & E2).
  destruct (checks_agree av ctx junk Hav b a mk Hb Hba Hab Hmk) as (eb & E3 & E4).
  exists ca, cb, n, mk, lk, ea, eb. split_and!; try assumption; try (by apply local_check_stores); lia.
Qed.

(** Legacy pairing agrees: a master and a slave that hold each other's values
    and the same temporary key, that know each other's devices, and whose allocations do not fail, each compute as
    the value to compare the confirm value of the other, and the same short term
    key. *)
Theorem legacy_pairing_agrees av ctx a b : (∀ n, av n = true) → cb_ok a → cb_ok b → mirrored a b → mirrored b a →
  role a = HCI_ROLE_MASTER → role b = HCI_ROLE_SLAVE → unknown_peer a = None → unknown_peer b = None →
  ∃ ca cb stk,
    gives (smp_generate_confirm av ctx a) (Some ca) ∧ gives (smp_generate_compare av ctx b) (Some ca) ∧
    gives (smp_generate_confirm av ctx b) (Some cb) ∧ gives (smp_generate_compare av ctx a) (Some cb) ∧
    gives (smp_calculate_legacy_short_term_key av ctx a) (Some stk) ∧ gives (smp_calculate_legacy_short_term_key av ctx b) (Some stk).
Proof.
  intros Hav Ha Hb Hab Hba Hra Hrb Ua Ub. destruct (confirm_parts_mirrored a b Hab Hba Hra Hrb Ua Ub) as (P1 & P2 & P3).
  destruct (ok_rand _ Ha) as [R1 R2].
  pose proof (gives_confirm av ctx Hav a (rand a) Ha R1) as G1. pose proof (gives_confirm av ctx Hav a (rrand a) Ha R2) as G2.
  pose proof (gives_confirm av ctx Hav b (rand a) Hb R1) as G3. pose proof (gives_confirm av ctx Hav b (rrand a) Hb R2) as G4.
  cbv zeta in *. rewrite P1, P2, P3 in G3, G4. unfold smp_generate_confirm, smp_generate_compare.
  rewrite <- (mir_rand _ _ Hab), (mir_rand _ _ Hba). eexists _, _, _. split_and!; [exact G1|exact G3|exact G4|exact G2|..].
  - unfold smp_calculate_legacy_short_term_key. rewrite Hra. cbv iota.
    eapply gives_bind; [apply gives_encrypt; [exact Hav|apply (ok_tk _ Ha)|]|apply gives_ret].
    apply (octets_app 8 8); (split; [rewrite length_take; destruct R1, R2; lia|apply Forall_take; (apply R1 || apply R2)]).
  - unfold smp_calculate_legacy_short_term_key. rewrite Hrb. cbv iota. rewrite P3, <- (mir_rand _ _ Hab), (mir_rand _ _ Hba).
    eapply gives_bind; [apply gives_encrypt; [exact Hav|apply (ok_tk _ Ha)|]|apply gives_ret].
    apply (octets_app 8 8); (split; [rewrite length_take; destruct R1, R2; lia|apply Forall_take; (apply R1 || apply R2)]).
Qed.

(** ** The sample data of the core specification (part H, appendix D) *)

Definition sample (n : nat) (z : Z) : list Z := reverse (le_bytes n z).
Definition sample_U : list Z := sample 32 0x20b003d2f297be2c5e2c83a7e9f9a5b9eff49111acf4fddbcc0301480e359de6.
Definition sample_V : list Z := sample 32 0x55188b3d32f6bb9a900afcfbeed4e72a59cb9ac2f19d7cfb6b4fdd49f47fc5fd.
Definition sample_N1 : list Z := sample 16 0xd5cb8454d177733effffb2ec712baeab.
Definition sample_N2 : list Z := sample 16 0xa6e8e7cc25a75f6e216583f7ff3dc4cf.

Example sample_f4 : f4 sample_U sample_V sample_N1 [0] = sample 16 0xf2c916f107a9bd1cf1eda1bea974872d.
Proof. vm_compute. reflexivity. Qed.
Example sample_g2 : g2 sample_U sample_V sample_N1 sample_N2 = 0x2f9ed5ba mod 1000000.
Proof. vm_compute. reflexivity. Qed.
Example sample_f5 : f5 (sample 32 0xec0234a357c8ad05341010a60a397d9b99796b13b4f866f1868d34f373bfa698) sample_N1 sample_N2
    (sample 7 0x0056123737bfce) (sample 7 0x00a713702dcfc1) =
  (sample 16 0x2965f176a1084a02fd3f6a20ce636e20, sample 16 0x6986791169d7cd23980522b594750a38).
Proof. vm_compute. reflexivity. Qed.
Example sample_f6 : f6 (sample 16 0x2965f176a1084a02fd3f6a20ce636e20) sample_N1 sample_N2 (sample 16 0x12a3343bb453bb5408da42d20c2d0fc8)
    [1; 1; 2] (sample 7 0x0056123737bfce) (sample 7 0x00a713702dcfc1) = sample 16 0xe3c473989cd0e8c5d26c0b09da958f61.
Proof. vm_compute. reflexivity. Qed.
Example sample_h6 : h6 (sample 16 0xec0234a357c8ad05341010a60a397d9b) (bytes "lebr") = sample 16 0x2d9ae102e76dc91ce8d3a9e280b16399.
Proof. vm_compute. reflexivity. Qed.

(** A master and a slave. *)
Definition sample_side (r : role_t) (local remote x px rnd prnd loc_random per_random : list Z) (io pio : Z) : tSMP_CB :=
  {| role := r; selected_association_model := SMP_MODEL_SEC_CONN_NUM_COMP;
     local_addr := local; local_addr_type := 0; remote_addr := remote; remote_addr_type := 0;
     local_io_capability := io; loc_oob_flag := 0; loc_auth_req := 13; loc_enc_size := 16; local_i_key := 3; local_r_key := 3;
     peer_io_caps := pio; peer_oob_flag := 0; peer_auth_req := 13; peer_enc_size := 16; peer_i_key := 3; peer_r_key := 3;
     tk := replicate 16 0; rand := rnd; rrand := prnd; loc_publ_key_x := x; peer_publ_key_x := px;
     dhkey := sample_V; local_random := loc_random; peer_random := per_random; Smp.round := 0;
     remote_commitment := []; div := 0; enc_rand := []; unknown_peer := None |}.
Definition sample_master : tSMP_CB :=
  sample_side HCI_ROLE_MASTER (seqZ 1 6) (seqZ 11 6) sample_U sample_V sample_N1 sample_N2 (replicate 16 0) (replicate 16 1) 1 4.
Definition sample_slave : tSMP_CB :=
  sample_side HCI_ROLE_SLAVE (seqZ 11 6) (seqZ 1 6) sample_V sample_U sample_N2 sample_N1 (replicate 16 1) (replicate 16 0) 4 1.

Ltac sample_ok := repeat match goal with |- _ ∧ _ => split end;
  match goal with |- _ ≤ _ => vm_compute; congruence | |- _ < _ => vm_compute; reflexivity | _ => exact I | _ => refine (bool_decide_eq_true_1 _ _); vm_compute; reflexivity end.
Lemma sample_master_ok : cb_ok sample_master.
Proof. split; sample_ok. Qed.
Lemma sample_slave_ok : cb_ok sample_slave.
Proof. split; sample_ok. Qed.
Lemma sample_mirrored : mirrored sample_master sample_slave ∧ mirrored sample_slave sample_master.
Proof. split; split; try reflexivity; repeat split; reflexivity. Qed.

Lemma key_functions_correct_witness :
  gives (smp_calculate_f4 (λ _, true) no_context [] sample_U sample_V sample_N1 0)
    (reverse (f4 (reverse sample_U) (reverse sample_V) (reverse sample_N1) [0])).
Proof.
  assert (U : octets 32 sample_U) by sample_ok. assert (V : octets 32 sample_V) by sample_ok.
  assert (N1 : block sample_N1) by sample_ok. assert (N2 : block sample_N2) by sample_ok.
  assert (I : octets 3 [1; 1; 2]) by sample_ok. assert (A : octets 7 (seqZ 1 7)) by sample_ok. assert (K : octets 4 (bytes "lebr")) by sample_ok.
  assert (Z0 : is_byte 0) by done.
  exact (proj1 (key_functions_correct (λ _, true) no_context [] sample_U sample_V sample_U sample_N1 sample_N2 sample_N1 sample_N2 sample_N1
    [1; 1; 2] (seqZ 1 7) (seqZ 1 7) (bytes "lebr") 0 (λ _, eq_refl) U V U N1 N2 N1 N2 N1 I A A K Z0)).
Defined.

Lemma secure_pairing_agrees_witness :
  ∃ ca n, 0 ≤ n ≤ BTM_MAX_PASSKEY_VAL ∧
    gives (smp_calculate_local_commitment (λ _, true) no_context [] sample_master) (Some ca) ∧
    gives (smp_calculate_peer_commitment (λ _, true) no_context [] sample_slave) (Some ca) ∧
    stores (smp_calculate_numeric_comparison_display_number (λ _, true) no_context sample_slave) (λ '(ok, k), (ok, number_to_display k)) (true, n).
Proof.
  assert (Hc : commitment_class (selected_association_model sample_master) ≠ None) by done.
  destruct (secure_pairing_agrees (λ _, true) no_context [] sample_master sample_slave (λ _, eq_refl) sample_master_ok sample_slave_ok
    (proj1 sample_mirrored) (proj2 sample_mirrored) eq_refl eq_refl Hc) as (ca & cb & n & mk & lk & ea & eb & H1 & H2 & H3 & _ & _ & _ & H4 & _).
  exists ca, n. exact (conj H1 (conj H2 (conj H3 H4))).
Defined.

Lemma legacy_pairing_agrees_witness :
  ∃ ca, gives (smp_generate_confirm (λ _, true) no_context sample_master) (Some ca) ∧
    gives (smp_generate_compare (λ _, true) no_context sample_slave) (Some ca).
Proof.
  destruct (legacy_pairing_agrees (λ _, true) no_context sample_master sample_slave (λ _, eq_refl) sample_master_ok sample_slave_ok
    (proj1 sample_mirrored) (proj2 sample_mirrored) eq_refl eq_refl eq_refl eq_refl) as (ca & cb & stk & H1 & H2 & _).
  exists ca. exact (conj H1 H2).
Defined.
