(* ===== verification/Ecc.v ===== *)
(** * Points of the curve of secure connections

    Models [src/components/bt/bluedroid/stack/smp/p_256_ecc_pp.c] for the key length
    of P-256, [p_256_init_curve] and its two callers in [smp_keys.c].  The
    product modulo the prime is a parameter of the operations on points: the code
    uses [multiprecision_mersenns_mult_mod]. *)

From S2P Require Import Prelude MultiPrecision.

Record Point := { px : list Z; py : list Z; pz : list Z }.

Definition p_256_init_point : Point := {| px := replicate 8 0; py := replicate 8 0; pz := replicate 8 0 |}.
Definition one : list Z := 1 :: replicate 7 0.

(** [curve_p256.G]; its [z] is not set before the first multiplication. *)
Definition curve_p256_G : Point :=
  {| px := [3633889942; 4104206661; 770388896; 1996717441; 1671708914; 4173129445; 3777774151; 1796723186];
     py := [935285237; 3417718888; 1798397646; 734933847; 2081398294; 2397563722; 4263149467; 1340293858];
     pz := replicate 8 0 |}.

Section Product.
Context (mul : list Z → list Z → outcome (list Z)).

Definition sub_m : list Z → list Z → list Z := multiprecision_sub_mod [].
Definition add_m : list Z → list Z → list Z := multiprecision_add_mod [].
Definition lshift_m : list Z → list Z := multiprecision_lshift_mod [].

(** [q] is what the result held: the coordinates of infinity are left alone. *)
Definition ECC_Double (q p : Point) : outcome Point :=
  if multiprecision_iszero (pz p) then Ok {| px := px q; py := py q; pz := multiprecision_init 8 |} else
  let x1 := px p in let y1 := py p in let z1 := pz p in
  t1 ← mul z1 z1;
  let t2 := sub_m x1 t1 in
  let t1 := add_m x1 t1 in
  t2 ← mul t1 t2;
  let t3 := lshift_m t2 in
  let t2 := add_m t3 t2 in
  z3 ← mul y1 z1;
  let z3 := lshift_m z3 in
  y3 ← mul y1 y1;
  let y3 := lshift_m y3 in
  t3 ← mul y3 x1;
  let t3 := lshift_m t3 in
  y3 ← mul y3 y3;
  let y3 := lshift_m y3 in
  x3 ← mul t2 t2;
  let t1 := lshift_m t3 in
  let x3 := sub_m x3 t1 in
  let t1 := sub_m t3 x3 in
  t1 ← mul t1 t2;
  let y3 := sub_m t1 y3 in
  Ok {| px := x3; py := y3; pz := z3 |}.

(** [r] is what the result held; the third coordinate of [q] is one. *)
Definition ECC_Add (r p q : Point) : outcome Point :=
  let x1 := px p in let y1 := py p in let z1 := pz p in
  let x2 := px q in let y2 := py q in let z2 := pz q in
  if multiprecision_iszero z2 then Ok p else
  if multiprecision_iszero z1 then Ok q else
  t1 ← mul z1 z1;
  t2 ← mul z1 t1;
  t1 ← mul x2 t1;
  t2 ← mul y2 t2;
  let t1 := sub_m t1 x1 in
  let t2 := sub_m t2 y1 in
  if multiprecision_iszero t1 then
    if multiprecision_iszero t2 then ECC_Double r q
    else Ok {| px := px r; py := py r; pz := multiprecision_init 8 |}
  else
  z3 ← mul z1 t1;
  y3 ← mul t1 t1;
  z1 ← mul y3 t1;
  y3 ← mul y3 x1;
  let t1 := lshift_m y3 in
  x3 ← mul t2 t2;
  let x3 := sub_m x3 t1 in
  let x3 := sub_m x3 z1 in
  let y3 := sub_m y3 x3 in
  y3 ← mul y3 t2;
  z1 ← mul z1 y1;
  let y3 := sub_m y3 z1 in
  Ok {| px := x3; py := y3; pz := z3 |}.

(** ** The digits of the scalar *)

(** [k[j]++] from the least significant word on, while it overflows; the word
    behind the array is not part of it. *)
Fixpoint increment (k : list Z) : outcome (list Z) :=
  match k with
  | [] => Fault OobWrite
  | x :: k =>
      if u32 (x + 1) =? 0 then k ← increment k; Ok (u32 (x + 1) :: k) else Ok (u32 (x + 1) :: k)
  end.

(** The array of digits is of 65 bytes of four digits each. *)
Fixpoint ECC_NAF (fuel : nat) (naf : list Z) (i : Z) (k : list Z) : outcome (list Z * Z * list Z) :=
  var ← multiprecision_most_signbits k;
  if 1 <=? var then
    match fuel with
    | O => Fault OutOfFuel
    | S fuel =>
        k0 ← load k 0;
        '(sign, k) ←
          (if negb (Z.land k0 1 =? 0) then
             let sign := Z.land k0 3 in
             if sign =? 1 then k ← store k 0 (Z.land k0 4294967294); Ok (sign, k)
             else k ← increment k; Ok (sign, k)
           else Ok (0, k));
        let k := multiprecision_rshift k in
        old ← load naf (i / 4);
        naf ← store naf (i / 4) (u8 (Z.lor old (Z.shiftl sign (i mod 4 * 2))));
        ECC_NAF fuel naf (i + 1) k
    end
  else Ok (naf, i, k).

(** The digit at [i]. *)
Definition naf_sign (naf : list Z) (i : Z) : outcome Z :=
  x ← load naf (i / 4); Ok (Z.land (Z.shiftr x (i mod 4 * 2)) 3).

(** [for (int i = NumNaf - 1; i >= 0; i--)], from digit [n - 1] down. *)
Fixpoint naf_loop (n : nat) (naf : list Z) (p minus_p q : Point) : outcome Point :=
  match n with
  | O => Ok q
  | S n =>
      q ← ECC_Double q q;
      sign ← naf_sign naf (Z.of_nat n);
      q ← (if sign =? 1 then ECC_Add q q p else if sign =? 3 then ECC_Add q q minus_p else Ok q);
      naf_loop n naf p minus_p q
  end.

(** The result, and what is left in the scalar. *)
Definition ECC_PointMult_Bin_NAF (p : Point) (n : list Z) : outcome (Point * list Z) :=
  let p := {| px := px p; py := py p; pz := one |} in
  let minus_p := {| px := px p; py := (multiprecision_sub curve_p256_p (py p)).1; pz := one |} in
  '(naf, NumNaf, n) ← ECC_NAF 257 (replicate 65 0) 0 n;
  q ← naf_loop (Z.to_nat NumNaf) naf p minus_p p_256_init_point;
  inverse ← multiprecision_inv_mod 513 (pz q);
  z ← mul inverse inverse;
  x ← mul (px q) z;
  z ← mul z inverse;
  y ← mul (py q) z;
  Ok ({| px := x; py := y; pz := z |}, n).

(** ** The keys *)

(** [smp_process_private_key] and [smp_compute_dhkey]: the scalar is a copy of the
    private key, as words. *)
Definition smp_process_private_key (private_key : list Z) : outcome (list Z * list Z) :=
  '(public_key, _) ← ECC_PointMult_Bin_NAF curve_p256_G private_key;
  Ok (px public_key, py public_key).
Definition smp_compute_dhkey (private_key peer_x peer_y : list Z) : outcome (list Z) :=
  '(new_publ_key, _) ← ECC_PointMult_Bin_NAF {| px := peer_x; py := peer_y; pz := replicate 8 0 |} private_key;
  Ok (px new_publ_key).
End Product.

(** The product of the code. *)
Definition code_mul : list Z → list Z → outcome (list Z) := multiprecision_mersenns_mult_mod (replicate 8 0).

(** Five times the base point, with the digits 1, 0, 1. *)
Example five_G : smp_process_private_key code_mul (words 8 5) =
  Ok (words 8 0x51590b7a515140d2d784c85608668fdfef8c82fd1f5be52421554a0dc3d033ed,
      words 8 0xe0c17da8904a727d8ae1bf36bf8a79260d012f00d4d80888d1d0bb44fda16da4).
Proof. vm_compute. reflexivity. Qed.
