(* ===== verification/EccProofs.v ===== *)
(** * The digits of the scalar, and points with their coordinates

    The non-adjacent form that [Ecc] computes of a scalar, the totality of the
    multiplication of a point, and the coordinates of doubled and added points
    as integers modulo the prime. *)

From S2P Require Import Prelude MultiPrecision MultiPrecisionProofs AesProofs Ecc.

#[local] Opaque p256.

(** ** Words and bits *)

Lemma most_signdwords_zero a : words_ok a → (multiprecision_most_signdwords a = 0%nat ↔ value a = 0).
Proof.
  intros Ha. unfold multiprecision_most_signdwords. rewrite <- (reverse_involutive a) at 2.
  assert (Hr : words_ok (reverse a)) by (by apply Forall_reverse). clear Ha. induction Hr as [|x l Hx Hl IH]; [done|].
  cbn [most_signdwords_down]. rewrite reverse_cons, value_app. cbn [value].
  pose proof (value_range (reverse l) ltac:(by apply Forall_reverse)) as R. pose proof (weight_pos (length (reverse l))) as Hw.
  unfold is_word in Hx. destruct (Z.eqb_spec x 0) as [->|Hne]; cbn [negb].
  - rewrite IH. lia.
  - split; [done|]. intros E. assert (1 ≤ x) by lia. nia.
Qed.

Lemma most_signdwords_top a : words_ok a → multiprecision_most_signdwords a ≠ 0%nat →
  ∃ x, a !! (multiprecision_most_signdwords a - 1)%nat = Some x ∧ x ≠ 0.
Proof.
  intros _. unfold multiprecision_most_signdwords. assert (E : a = reverse (reverse a)) by (by rewrite reverse_involutive).
  revert E. generalize (reverse a). intros l ->. induction l as [|x l IH]; [done|]. cbn [most_signdwords_down]. rewrite reverse_cons.
  destruct (Z.eqb_spec x 0) as [->|Hne]; cbn [negb]; intros H.
  - destruct (IH H) as (y & Hy & Hn). exists y. split; [|done]. apply lookup_app_l_Some, Hy.
  - exists x. split; [|done]. cbn [length]. rewrite lookup_app_r by (rewrite length_reverse; lia).
    rewrite length_reverse. by replace (S (length l) - 1 - length l)%nat with 0%nat by lia.
Qed.

Lemma dword_bits_loop_ge k i a : i ≤ dword_bits_loop k i a.
Proof. revert i a. induction k as [|k IH]; intros i a; cbn; [lia|]. destruct (a =? 0); [lia|]. etransitivity; [|apply IH]. lia. Qed.

Lemma most_signbits_zero a : words_ok a → ∃ v, multiprecision_most_signbits a = Ok v ∧ (1 <=? v) = negb (value a =? 0).
Proof.
  intros Ha. unfold multiprecision_most_signbits. pose proof (most_signdwords_zero a Ha) as Hz.
  destruct (Nat.eqb_spec (multiprecision_most_signdwords a) 0) as [E|E].
  - exists 0. split; [done|]. by rewrite (proj1 Hz E).
  - destruct (most_signdwords_top a Ha E) as (x & Ex & Hx). 
    replace (Z.of_nat (multiprecision_most_signdwords a) - 1) with (Z.of_nat (multiprecision_most_signdwords a - 1)) by lia.
    rewrite (index_lookup _ _ _ Ex), bind_ok. eexists. split; [done|].
    rewrite (proj2 (Z.eqb_neq (value a) 0)) by (intros E0; by apply E, Hz). apply Z.leb_le.
    assert (1 ≤ multiprecision_dword_bits x).
    { unfold multiprecision_dword_bits. change (Z.to_nat DWORD_BITS) with 32%nat. cbn [dword_bits_loop].
      rewrite (proj2 (Z.eqb_neq x 0) Hx). apply (dword_bits_loop_ge 31 (0 + 1)). }
    pose proof (proj2 (Z.shiftl_nonneg (Z.of_nat (multiprecision_most_signdwords a - 1)) 5)). lia.
Qed.

(** The first word is the value modulo powers of two. *)
Lemma low_bits x k n : words_ok (x :: k) → (n ≤ 32)%nat → x mod 2 ^ Z.of_nat n = value (x :: k) mod 2 ^ Z.of_nat n.
Proof.
  intros _ Hn. cbn [value]. change 4294967296 with (2 ^ 32). replace 32 with (32 - Z.of_nat n + Z.of_nat n) by lia.
  rewrite Z.pow_add_r by lia. replace (x + _) with (x + (2 ^ (32 - Z.of_nat n) * value k) * 2 ^ Z.of_nat n) by ring.
  by rewrite Z.mod_add by lia.
Qed.

Lemma land_clear x : is_word x → Z.odd x = true → Z.land x 4294967294 = x - 1.
Proof.
  intros Hx Ho. unfold is_word in Hx. change 4294967294 with (Z.ldiff (Z.ones 32) (Z.ones 1)).
  replace (Z.land x (Z.ldiff (Z.ones 32) (Z.ones 1))) with (Z.ldiff (Z.land x (Z.ones 32)) (Z.ones 1)).
  2: { apply Z.bits_inj'. intros i _. rewrite Z.ldiff_spec, !Z.land_spec, Z.ldiff_spec. by rewrite andb_assoc. }
  rewrite Z.land_ones, Z.mod_small, Z.ldiff_ones_r, Z.shiftl_mul_pow2, Z.shiftr_div_pow2 by lia.
  change (2 ^ 1) with 2. apply Z.odd_spec in Ho as [h ->]. 
  Z.div_mod_to_equations. lia.
Qed.

Lemma increment_value k : words_ok k → value k < weight (length k) - 1 →
  ∃ k', increment k = Ok k' ∧ words_ok k' ∧ length k' = length k ∧ value k' = value k + 1.
Proof.
  induction 1 as [|x k Hx Hk IH]; intros Hv; [change (weight (length [])) with 1 in Hv; cbn in Hv; lia|].
  cbn [value length increment] in *. rewrite weight_S in Hv. unfold is_word in Hx.
  destruct (decide (x = 4294967295)) as [->|Hne].
  - destruct IH as (k' & E & H1 & H2 & H3); [lia|]. change (u32 (4294967295 + 1)) with 0. cbn [Z.eqb]. rewrite E, bind_ok.
    exists (0 :: k'). split_and!; [done|by constructor|cbn; lia|cbn [value]; lia].
  - assert (E : u32 (x + 1) = x + 1) by (apply Z.mod_small; lia). rewrite E, (proj2 (Z.eqb_neq _ _)) by lia.
    exists (x + 1 :: k). split_and!; [done|constructor; [unfold is_word; lia|done]|done|cbn [value]; lia].
Qed.

(** ** The array of digits *)

Definition field (x m : Z) : Z := Z.land (Z.shiftr x (m * 2)) 3.
Definition naf_field (naf : list Z) (i : nat) : Z := field (nth (i / 4) naf 0) (Z.of_nat (i mod 4)).

(** Storing a digit in a byte whose field is empty. *)
Lemma field_store : ∀ x, is_byte x → Forall (λ m, field x m = 0 → Forall (λ s,
  is_byte (u8 (Z.lor x (Z.shiftl s (m * 2)))) ∧
  Forall (λ j, field (u8 (Z.lor x (Z.shiftl s (m * 2)))) j = if j =? m then s else field x j) [0; 1; 2; 3]) [0; 1; 3]) [0; 1; 2; 3].
Proof. by_bytes. Qed.

Lemma field_stored x m s j : is_byte x → 0 ≤ m < 4 → 0 ≤ j < 4 → field x m = 0 → s = 0 ∨ s = 1 ∨ s = 3 →
  is_byte (u8 (Z.lor x (Z.shiftl s (m * 2)))) ∧
  field (u8 (Z.lor x (Z.shiftl s (m * 2)))) j = if j =? m then s else field x j.
Proof.
  intros Hx Hm Hj H0 Hs. pose proof (field_store x Hx) as H. rewrite Forall_forall in H.
  assert (Hin : ∀ n, 0 ≤ n < 4 → n ∈ [0; 1; 2; 3]).
  { intros n Hn. rewrite !elem_of_cons. lia. }
  specialize (H m (Hin m Hm) H0). rewrite Forall_forall in H. destruct (H s) as [H1 H2]; [rewrite !elem_of_cons; tauto|].
  split; [done|]. rewrite Forall_forall in H2. by apply H2, Hin.
Qed.

(** Digits up to [i] are stored. *)
Record naf_ok (naf : list Z) (i : nat) : Prop := {
  naf_length : length naf = 65%nat; naf_bytes : bytes_ok naf;
  naf_rest : ∀ j, (i ≤ j < 260)%nat → naf_field naf j = 0 }.

Lemma naf_store naf i s : naf_ok naf i → (i < 260)%nat → s = 0 ∨ s = 1 ∨ s = 3 →
  ∃ naf', (old ← load naf (Z.of_nat i / 4);
           store naf (Z.of_nat i / 4) (u8 (Z.lor old (Z.shiftl s (Z.of_nat i mod 4 * 2))))) = Ok naf' ∧
    naf_ok naf' (S i) ∧ ∀ j, (j < 260)%nat → naf_field naf' j = if (j =? i)%nat then s else naf_field naf j.
Proof.
  intros [Hl Hb Hr] Hi Hs. change 4 with (Z.of_nat 4). rewrite <- Nat2Z.inj_div, <- Nat2Z.inj_mod. 
  assert (Hd : (i / 4 < 65)%nat) by (apply Nat.Div0.div_lt_upper_bound; lia).
  pose proof (Nat.mod_upper_bound i 4 ltac:(lia)) as Hm.
  destruct (lookup_lt_is_Some_2 naf (i / 4)) as [x Ex]; [lia|].
  assert (En : nth (i / 4) naf 0 = x) by (by rewrite nth_lookup, Ex).
  assert (Hx : is_byte x) by (rewrite <- En; by apply nth_byte).
  rewrite (load_lookup _ _ x) by (rewrite ?Nat2Z.id; done || lia). rewrite bind_ok. unfold store.
  rewrite decide_True by lia. rewrite Nat2Z.id. eexists. split; [reflexivity|].
  set (y := u8 _).
  assert (H0 : field x (Z.of_nat (i mod 4)) = 0) by (pose proof (Hr i ltac:(lia)) as H; unfold naf_field in H; by rewrite En in H).
  assert (Hf : ∀ j, (j < 260)%nat → naf_field (<[(i / 4)%nat := y]> naf) j = if (j =? i)%nat then s else naf_field naf j).
  { intros j Hj. pose proof (Nat.mod_upper_bound j 4 ltac:(lia)). unfold naf_field. rewrite nth_lookup.
    pose proof (Nat.div_mod_eq i 4). pose proof (Nat.div_mod_eq j 4). destruct (decide (j / 4 = i / 4)%nat) as [E|E].
    - rewrite E, list_lookup_insert_eq by lia. cbn [default]. rewrite En.
      destruct (field_stored x (Z.of_nat (i mod 4)) s (Z.of_nat (j mod 4)) Hx) as [_ F]; [lia|lia|done|done|]. fold y in F. cbn [from_option id]. rewrite F.
      destruct (Nat.eqb_spec j i) as [Eji|Eji], (Z.eqb_spec (Z.of_nat (j mod 4)) (Z.of_nat (i mod 4))) as [Em|Em]; try reflexivity; exfalso; lia || (apply Em; by rewrite Eji).
    - rewrite list_lookup_insert_ne by done. rewrite <- nth_lookup. destruct (Nat.eqb_spec j i); [by subst|done]. }
  split; [|done]. split; [by rewrite length_insert| |].
  - apply Forall_insert; [done|]. by apply (field_stored x (Z.of_nat (i mod 4)) s 0 Hx); [lia|lia|..].
  - intros j Hj. rewrite Hf by lia. rewrite (proj2 (Nat.eqb_neq _ _)) by lia. apply Hr. lia.
Qed.

(** ** The non-adjacent form *)

(** The digit that the two bits [s] stand for. *)
Definition digit (s : Z) : Z := if s =? 3 then -1 else s.
Definition naf_digits (naf : list Z) (i n : nat) : list Z := (λ j, digit (naf_field naf j)) <$> seq i n.
Definition digits_value (ds : list Z) : Z := foldr (λ d v, d + 2 * v) 0 ds.
(** No two digits in a row are not zero. *)
Fixpoint nonadjacent (ds : list Z) : Prop :=
  match ds with
  | d :: (d' :: _) as ds' => (d = 0 ∨ d' = 0) ∧ nonadjacent ds'
  | _ => True
  end.

(** One digit of the scalar. *)
Lemma naf_step k : words_ok k → length k = 8%nat → value k ≠ 0 → value k < 2 ^ 256 - 1 →
  ∃ k0 s k', load k 0 = Ok k0 ∧
    (if negb (Z.land k0 1 =? 0) then
       if Z.land k0 3 =? 1 then k ← store k 0 (Z.land k0 4294967294); Ok (Z.land k0 3, k)
       else k ← increment k; Ok (Z.land k0 3, k)
     else Ok (0, k)) = Ok (s, k') ∧
    (s = 0 ∨ s = 1 ∨ s = 3) ∧ words_ok k' ∧ length k' = 8%nat ∧ value k' = value k - digit s ∧ Z.even (value k') = true ∧
    (s ≠ 0 → Z.odd (value k) = true ∧ Z.even (value k' / 2) = true ∧ s = value k mod 4).
Proof.
  intros Hk Hl Hne Hlt. destruct k as [|x k]; [done|]. pose proof Hk as [Hx Hk']%Forall_cons_1.
  pose proof (low_bits x k 1 Hk ltac:(lia)) as E1. pose proof (low_bits x k 2 Hk ltac:(lia)) as E2.
  change (2 ^ Z.of_nat 1) with 2 in E1. change (2 ^ Z.of_nat 2) with 4 in E2.
  assert (L1 : Z.land x 1 = value (x :: k) mod 2) by (change 1 with (Z.ones 1); rewrite Z.land_ones by lia; exact E1).
  assert (L3 : Z.land x 3 = value (x :: k) mod 4) by (change 3 with (Z.ones 2); rewrite Z.land_ones by lia; exact E2).
  set (K := value (x :: k)) in *. exists x. rewrite L1, L3. pose proof (Z.mod_pos_bound K 4 ltac:(lia)). pose proof (Z.mod_pos_bound K 2 ltac:(lia)).
  pose proof (Z.div_mod K 4 ltac:(lia)) as D4. pose proof (Z.div_mod K 2 ltac:(lia)) as D2.
  assert (Hev : ∀ z, z mod 2 = 0 → Z.even z = true) by (intros z Ez; rewrite Zeven_mod, Ez; done).
  destruct (Z.eqb_spec (K mod 2) 0) as [E0|E0]; cbn [negb].
  - exists 0, (x :: k). split_and!; try done; [by left|cbn; unfold digit; cbn; lia|by apply Hev].
  - assert (Ho : Z.odd K = true) by (rewrite Zodd_mod; apply Z.eqb_eq; lia).
    assert (Hxo : Z.odd x = true) by (rewrite Zodd_mod; apply Z.eqb_eq; lia).
    destruct (Z.eqb_spec (K mod 4) 1) as [E4|E4].
    + exists (K mod 4), (Z.land x 4294967294 :: k). rewrite (land_clear x Hx Hxo). rewrite E4.
      unfold is_word in Hx. assert (x ≠ 0) by (intros ->; done).
      split_and!; try done; [by right; left|constructor; [unfold is_word; lia|done]|..]; change (digit 1) with 1; cbn [value]; fold K;
        replace (x - 1 + 4294967296 * value k) with (K - 1) by (subst K; cbn [value]; lia).
      * done.
      * apply Hev. Z.div_mod_to_equations. lia.
      * intros _. split; [done|]. split; [|by fold K]. apply Hev. Z.div_mod_to_equations. lia.
    + destruct (increment_value (x :: k) Hk) as (k' & Ek & I1 & I2 & I3); [rewrite Hl, weight_8; fold K; lia|].
      rewrite Ek. assert (E3 : K mod 4 = 3) by (Z.div_mod_to_equations; lia). exists (K mod 4), k'. rewrite E3.
      split_and!; try done; [by right; right|congruence|..]; change (digit 3) with (-1); rewrite I3; fold K.
      * apply Hev. Z.div_mod_to_equations. lia.
      * intros _. split; [done|]. split; [|by fold K]. apply Hev. Z.div_mod_to_equations. lia.
Qed.

Lemma nonadjacent_cons d ds : nonadjacent ds → (d = 0 ∨ head ds = None ∨ head ds = Some 0) → nonadjacent (d :: ds).
Proof. destruct ds as [|d' ds]; [done|]. cbn. intros H [->|[E|E]]; split; try done; [by left|by right; injection E]. Qed.

(** What the loop leaves from digit [i] on of a scalar [K]. *)
Definition naf_result (naf : list Z) (i : nat) (K : Z) (o : outcome (list Z * Z * list Z)) (naf' : list Z) (n : nat) : Prop :=
  (∃ k', o = Ok (naf', Z.of_nat (i + n), k') ∧ value k' = 0) ∧ naf_ok naf' (i + n) ∧
  (∀ j, (j < i)%nat → naf_field naf' j = naf_field naf j) ∧
  (∀ j, (i ≤ j < i + n)%nat → naf_field naf' j = 0 ∨ naf_field naf' j = 1 ∨ naf_field naf' j = 3) ∧
  digits_value (naf_digits naf' i n) = K ∧ nonadjacent (naf_digits naf' i n) ∧
  (Z.even K = true → n = 0%nat ∨ naf_field naf' i = 0).

Lemma naf_done fuel naf i k : words_ok k → value k = 0 → naf_ok naf i →
  naf_result naf i 0 (ECC_NAF fuel naf (Z.of_nat i) k) naf 0.
Proof.
  intros Hk E0 Hn. destruct (most_signbits_zero k Hk) as (v & E & Ev). rewrite E0 in Ev.
  unfold naf_result. rewrite Nat.add_0_r. split_and!; try done; [|intros; lia|by left].
  exists k. split; [|done]. destruct fuel; cbn [ECC_NAF]; rewrite E, bind_ok, Ev; done.
Qed.

Lemma naf_cons fuel naf i k : words_ok k → length k = 8%nat → value k ≠ 0 → value k < 2 ^ 256 - 1 → naf_ok naf i → (i < 260)%nat →
  ∃ s naf1 k1, naf_ok naf1 (S i) ∧ words_ok k1 ∧ length k1 = 8%nat ∧ value k = digit s + 2 * value k1 ∧ (s = 0 ∨ s = 1 ∨ s = 3) ∧ (s ≠ 0 → s = value k mod 4) ∧
    ∀ naf' n, naf_result naf1 (S i) (value k1) (ECC_NAF fuel naf1 (Z.of_nat (S i)) k1) naf' n →
      naf_result naf i (value k) (ECC_NAF (S fuel) naf (Z.of_nat i) k) naf' (S n).
Proof.
  intros Hk Hl Hne Hlt Hn Hi. destruct (most_signbits_zero k Hk) as (v & Ev & Ev1).
  destruct (naf_step k Hk Hl Hne Hlt) as (k0 & s & k' & E1 & E2 & Hs & Hk' & Hl' & Hv' & He & Hodd).
  destruct (naf_store naf i s Hn Hi Hs) as (naf1 & E3 & Hn1 & Hf1).
  destruct (rshift_value k' Hk') as (R1 & R2 & R3).
  assert (Hval : value k = digit s + 2 * value (multiprecision_rshift k')).
  { rewrite R3. apply Z.even_spec in He as [h Eh]. rewrite Eh, (Z.mul_comm 2 h), Z.div_mul by lia. lia. }
  exists s, naf1, (multiprecision_rshift k'). split_and!; try done; [congruence|by intros Hs0; apply Hodd|].
  intros naf' n ((k2 & Eo & E0) & H1 & H2 & H3 & H4 & H5 & H6).
  assert (Hfi : naf_field naf' i = s) by (rewrite H2 by lia; rewrite Hf1 by lia; by rewrite Nat.eqb_refl).
  assert (Hd : naf_digits naf' i (S n) = digit s :: naf_digits naf' (S i) n) by (unfold naf_digits; cbn; by rewrite Hfi).
  unfold naf_result. replace (i + S n)%nat with (S i + n)%nat by lia. split_and!; try done.
  - exists k2. split; [|done]. cbn [ECC_NAF]. rewrite Ev, bind_ok, Ev1, (proj2 (Z.eqb_neq _ _) Hne). cbn [negb].
    rewrite E1, bind_ok. cbv zeta. rewrite E2, bind_ok.
    destruct (load naf (Z.of_nat i / 4)) as [old|] eqn:Eold; [|done]. rewrite bind_ok in E3. rewrite bind_ok, E3, bind_ok.
    rewrite <- Eo. f_equal. lia.
  - intros j Hj. rewrite H2 by lia. rewrite Hf1 by lia. by rewrite (proj2 (Nat.eqb_neq _ _)) by lia.
  - intros j Hj. destruct (decide (j = i)) as [->|]; [by rewrite Hfi|]. apply H3. lia.
  - rewrite Hd. unfold digits_value in *. cbn [foldr]. rewrite H4. lia.
  - rewrite Hd. apply nonadjacent_cons; [done|]. destruct (decide (s = 0)) as [->|Hs0]; [by left|]. right.
    destruct n as [|n]; [by left|]. right. destruct (Hodd Hs0) as (_ & Hev & _). rewrite <- R3 in Hev.
    destruct (H6 Hev) as [|Ez]; [done|]. unfold naf_digits. cbn. by rewrite Ez.
  - intros Hev. right. rewrite Hfi. destruct (decide (s = 0)) as [->|Hs0]; [done|]. destruct (Hodd Hs0) as (Ho & _).
    rewrite <- Z.negb_odd, Ho in Hev. done.
Qed.

(** A scalar of at most [2^m] has at most [m + 1] digits. *)
Lemma naf_value m fuel naf i k : words_ok k → length k = 8%nat → value k ≤ 2 ^ Z.of_nat m → value k < 2 ^ 256 - 1 →
  (m < fuel)%nat → naf_ok naf i → (i + m < 260)%nat →
  ∃ naf' n, (n ≤ S m)%nat ∧ naf_result naf i (value k) (ECC_NAF fuel naf (Z.of_nat i) k) naf' n.
Proof.
  revert fuel naf i k. induction m as [|m IH]; intros [|fuel] naf i k Hk Hl Hv Hlt Hf Hn Hi; try lia;
    (destruct (decide (value k = 0)) as [E0|E0];
      [exists naf, 0%nat; split; [lia|]; rewrite E0; by apply naf_done|]);
    destruct (naf_cons fuel naf i k Hk Hl E0 Hlt Hn ltac:(lia)) as (s & naf1 & k1 & H1 & H2 & H3 & H4 & H5 & H6 & Hcons);
    pose proof (value_range k1 H2) as Hr.
  - change (2 ^ Z.of_nat 0) with 1 in Hv. assert (Ek1 : value k1 = 0).
    { pose proof (value_range k Hk). assert (E1 : value k = 1) by lia. rewrite E1 in H6. change (1 mod 4) with 1 in H6. unfold digit in H4. destruct H5 as [E|[E|E]]; rewrite E in H4; cbn in H4; lia. }
    exists naf1, 1%nat. split; [lia|]. apply Hcons. rewrite Ek1. by apply naf_done.
  - destruct (IH fuel naf1 (S i) k1 H2 H3) as (naf' & n & Hn' & Hres); try done; try lia.
    + rewrite Nat2Z.inj_succ, Z.pow_succ_r in Hv by lia. unfold digit in H4. destruct H5 as [E|[E|E]]; rewrite E in H4; cbn in H4; lia.
    + unfold digit in H4. destruct H5 as [E|[E|E]]; rewrite E in H4; cbn in H4; lia.
    + exists naf', (S n). split; [lia|]. by apply Hcons.
Qed.

(** ** Arrays of eight words *)

Definition octa (a : list Z) : Prop := words_ok a ∧ length a = 8%nat.

Lemma octa_curve : octa curve_p256_p.
Proof. split; [apply curve_words|done]. Qed.
Lemma octa_sub a b : octa a → octa b → octa (multiprecision_sub a b).1.
Proof. intros [Ha Hla] [Hb Hlb]. destruct (sub_wraps a b Ha Hb ltac:(congruence)) as (H1 & H2 & _). split; [done|congruence]. Qed.
Lemma octa_add a b : octa a → octa b → octa (multiprecision_add a b).1.
Proof. intros [Ha Hla] [Hb Hlb]. destruct (add_wraps a b Ha Hb ltac:(congruence)) as (H1 & H2 & _). split; [done|congruence]. Qed.
Lemma octa_lshift a : octa a → octa (multiprecision_lshift a).1.
Proof.
  intros [Ha Hl]. pose proof (lshift_value a Ha) as H. destruct (multiprecision_lshift a). cbn [fst]. destruct H as (H & E & _). split; [done|congruence].
Qed.
Create HintDb octa.
#[local] Hint Resolve octa_curve octa_sub octa_add octa_lshift : octa.

(** The operations modulo the prime keep arrays of eight words, residues or not. *)
Lemma octa_sub_m a b : octa a → octa b → octa (sub_m a b).
Proof.
  intros Ha Hb. unfold sub_m, multiprecision_sub_mod. rewrite (proj2 Ha), modulus_P256.
  pose proof (octa_sub a b Ha Hb). destruct (multiprecision_sub a b) as [c t]. cbn [fst] in *. case_match; auto with octa.
Qed.
Lemma octa_add_m a b : octa a → octa b → octa (add_m a b).
Proof.
  intros Ha Hb. unfold add_m, multiprecision_add_mod. rewrite (proj2 Ha), modulus_P256.
  pose proof (octa_add a b Ha Hb). destruct (multiprecision_add a b) as [c t]. cbn [fst] in *. repeat case_match; auto with octa.
Qed.
Lemma octa_lshift_m a : octa a → octa (lshift_m a).
Proof.
  intros Ha. unfold lshift_m, multiprecision_lshift_mod. rewrite (proj2 Ha), modulus_P256.
  pose proof (octa_lshift a Ha). destruct (multiprecision_lshift a) as [c t]. cbn [fst] in *. repeat case_match; auto with octa.
Qed.
Lemma octa_init : octa (multiprecision_init 8).
Proof. by decide_vm. Qed.
Lemma octa_one : octa one.
Proof. by decide_vm. Qed.
#[local] Hint Resolve octa_sub_m octa_add_m octa_lshift_m octa_init octa_one : octa.

(** ** The product always gives a residue *)

Lemma settle_octa U c : octa c → octa (settle U c).
Proof. 
  intros Hc. unfold settle. destruct (negb _).
  - induction (Z.to_nat _) as [|n IH]; [done|]. cbn [Nat.iter nat_rect]. apply octa_add; [exact IH|apply octa_curve].
  - induction (Z.to_nat _) as [|n IH]; [done|]. cbn [Nat.iter nat_rect]. apply octa_sub; [exact IH|apply octa_curve].
Qed.

Lemma uncarried_word d wrap x su : is_word (uncarries d (minus wrap x su)).1.
Proof. apply u32_word. Qed.

Lemma fast_mod_words_octa a0 a1 a2 a3 a4 a5 a6 a7 a8 a9 a10 a11 a12 a13 a14 a15 :
  octa (fast_mod_words a0 a1 a2 a3 a4 a5 a6 a7 a8 a9 a10 a11 a12 a13 a14 a15).1.
Proof.
  unfold fast_mod_words.
  repeat match goal with
  | |- context [let '(_, _) := uncarries ?d (minus ?w ?x ?su) in _] =>
      let H := fresh "H" in pose proof (uncarried_word d w x su) as H; destruct (uncarries d (minus w x su)) as [? ?]; cbn [fst] in H
  | |- context [let '(_, _) := ?e in _] => destruct e as [? ?]
  end.
  cbn [fst]. split; [|done]. rewrite !Forall_cons. split_and!; done.
Qed.

(** The interface that the operations on points need of a product. *)
Class Product (mul : list Z → list Z → outcome (list Z)) : Prop :=
  product_total : ∀ a b, octa a → octa b → ∃ r, mul a b = Ok r ∧ octa r.

Lemma fast_mod_residue a : words_ok a → length a = 16%nat → ∃ r, multiprecision_fast_mod_P256 a = Ok r ∧ residue r.
Proof.
  intros Ha Hl.
  destruct a as [|a0 [|a1 [|a2 [|a3 [|a4 [|a5 [|a6 [|a7 [|a8 [|a9 [|a10 [|a11 [|a12 [|a13 [|a14 [|a15 [|? ?]]]]]]]]]]]]]]]]]; try done.
  unfold multiprecision_fast_mod_P256. pose proof (fast_mod_words_octa a0 a1 a2 a3 a4 a5 a6 a7 a8 a9 a10 a11 a12 a13 a14 a15) as Hc.
  destruct (fast_mod_words _ _ _ _ _ _ _ _ _ _ _ _ _ _ _ _) as [c U]. eexists. split; [done|].
  destruct (settle_octa U c Hc) as [H1 H2]. by apply sub_if_ge_value.
Qed.

#[export] Instance code_product : Product code_mul.
Proof.
  intros a b [Ha Hla] [Hb Hlb]. unfold code_mul, multiprecision_mersenns_mult_mod.
  assert (Hj : words_ok (replicate 8 0)) by decide_vm.
  destruct (mult_value (replicate 8 0) a b Hj Ha Hb) as (H1 & H2 & _); [congruence|by rewrite length_replicate|].
  destruct (fast_mod_residue _ H1) as (r & E & []); [by rewrite H2, Hla|]. exists r. split; [done|]. by split.
Qed.

(** ** The operations always finish *)

Definition point_ok (p : Point) : Prop := octa (px p) ∧ octa (py p) ∧ octa (pz p).

Section Total.
Context (mul : list Z → list Z → outcome (list Z)) `{!Product mul}.

(** A product and what follows it. *)
Lemma bind_mul {A} a b (k : list Z → outcome A) (P : A → Prop) : octa a → octa b →
  (∀ r, octa r → ∃ x, k r = Ok x ∧ P x) → ∃ x, (mul a b ≫= k) = Ok x ∧ P x.
Proof. intros Ha Hb Hk. destruct (product_total a b Ha Hb) as (r & -> & Hr). rewrite bind_ok. by apply Hk. Qed.

Ltac step_mul := eapply bind_mul; [by auto 9 with octa|by auto 9 with octa|]; intros ??; cbv zeta.

Lemma double_total q p : point_ok q → point_ok p → ∃ r, ECC_Double mul q p = Ok r ∧ point_ok r.
Proof.
  intros (Qx & Qy & Qz) (Px & Py & Pz). unfold ECC_Double. destruct (multiprecision_iszero (pz p)).
  { eexists. split; [done|]. split_and!; cbn [px py pz]; auto 9 with octa. }
  do 8 step_mul. eexists. split; [done|]. split_and!; cbn [px py pz]; auto 9 with octa.
Qed.

Lemma add_total r p q : point_ok r → point_ok p → point_ok q → ∃ s, ECC_Add mul r p q = Ok s ∧ point_ok s.
Proof.
  intros Hr Hp Hq. pose proof Hr as (Rx & Ry & Rz). pose proof Hp as (Px & Py & Pz). pose proof Hq as (Qx & Qy & Qz). unfold ECC_Add.
  destruct (multiprecision_iszero (pz q)); [by eexists|]. destruct (multiprecision_iszero (pz p)); [by eexists|].
  do 4 step_mul. case_match; [case_match; [by apply double_total|]|].
  { eexists. split; [done|]. split_and!; cbn [px py pz]; auto 9 with octa. }
  do 7 step_mul. eexists. split; [done|]. split_and!; cbn [px py pz]; auto 9 with octa.
Qed.

Lemma naf_sign_value naf i : naf_ok naf i → ∀ j, (j < 260)%nat → naf_sign naf (Z.of_nat j) = Ok (naf_field naf j).
Proof.
  intros [Hl _ _] j Hj. unfold naf_sign, naf_field, field. change 4 with (Z.of_nat 4). rewrite <- Nat2Z.inj_div, <- Nat2Z.inj_mod.
  assert (j / 4 < 65)%nat by (apply Nat.Div0.div_lt_upper_bound; lia).
  destruct (lookup_lt_is_Some_2 naf (j / 4)) as [x Ex]; [lia|].
  rewrite (load_lookup _ _ x) by (rewrite ?Nat2Z.id; done || lia). by rewrite bind_ok, nth_lookup, Ex.
Qed.

Lemma naf_loop_total n m naf p minus_p q : naf_ok naf m → (n ≤ 260)%nat → point_ok p → point_ok minus_p → point_ok q →
  ∃ r, naf_loop mul n naf p minus_p q = Ok r ∧ point_ok r.
Proof.
  intros Hn Hl Hp Hm. revert q. induction n as [|n IH]; intros q Hq; cbn [naf_loop]; [by exists q|].
  destruct (double_total q q Hq Hq) as (q1 & -> & H1). rewrite bind_ok, (naf_sign_value naf m Hn n), bind_ok by lia.
  destruct (naf_field naf n =? 1); [|destruct (naf_field naf n =? 3)].
  - destruct (add_total q1 q1 p H1 H1 Hp) as (q2 & -> & H2). rewrite bind_ok. apply IH; [lia|done].
  - destruct (add_total q1 q1 minus_p H1 H1 Hm) as (q2 & -> & H2). rewrite bind_ok. apply IH; [lia|done].
  - rewrite bind_ok. apply IH; [lia|done].
Qed.

Lemma point_mult_total p k : octa (px p) → octa (py p) → octa k → value k < 2 ^ 256 - 1 →
  ∃ q k', ECC_PointMult_Bin_NAF mul p k = Ok (q, k') ∧ point_ok q ∧ value k' = 0.
Proof.
  intros Hx Hy Hk Hv. unfold ECC_PointMult_Bin_NAF. cbv zeta. cbn [px py].
  assert (Hn0 : naf_ok (replicate 65 0) 0).
  { split; [done|by apply Forall_replicate|]. intros j Hj. unfold naf_field, field. rewrite nth_lookup.
    destruct (replicate 65 0 !! (j / 4)%nat) eqn:E; [apply lookup_replicate in E as [-> _]|]; cbn [default from_option id]; by rewrite Z.shiftr_0_l. }
  destruct (naf_value 256 257 (replicate 65 0) 0 k) as (naf & n & Hn & (k' & E & E0) & Hnaf & _); try apply Hk; try done; try lia.
  change (Z.of_nat 0) with 0 in E. rewrite E, bind_ok. rewrite Nat2Z.id.
  destruct (naf_loop_total (0 + n) (0 + n) naf {| px := px p; py := py p; pz := one |}
    {| px := px p; py := (multiprecision_sub curve_p256_p (py p)).1; pz := one |} p_256_init_point) as (q & -> & (Q1 & Q2 & Q3)); try done; try lia.
  { split_and!; cbn [px py pz]; auto 9 with octa. } { split_and!; cbn [px py pz]; auto 9 with octa. } { by decide_vm. }
  rewrite bind_ok. destruct (inv_mod_total (pz q)) as (i & -> & []); [apply Q3..|]. rewrite bind_ok.
  assert (Hi : octa i) by done.
  enough (∃ x : Point * list Z, (z ← mul i i; x ← mul (px q) z; z ← mul z i; y ← mul (py q) z; Ok ({| px := x; py := y; pz := z |}, k')) = Ok x ∧
    (point_ok x.1 ∧ value x.2 = 0)) as ([q' k''] & Eq & Hq) by (exists q', k''; done).
  do 4 step_mul. eexists. split; [done|]. cbn [fst snd]. split; [|done]. split_and!; cbn [px py pz]; auto 9 with octa.
Qed.
End Total.

(** ** Coordinates modulo the prime *)

(** Congruence modulo the prime, for rewriting. *)
Record cong (a b : Z) : Prop := { cong_mod : a mod p256 = b mod p256 }.
#[local] Infix "≡p" := cong (at level 70).
#[export] Instance cong_equivalence : Equivalence cong.
Proof. split; [by intros a|by intros a b []|intros a b c [] []; split; congruence]. Qed.
#[export] Instance cong_add : Proper (cong ==> cong ==> cong) Z.add.
Proof. intros a b [E] c d [F]. split. by rewrite Z.add_mod, E, F, <- Z.add_mod by (pose proof p256_bounds; lia). Qed.
#[export] Instance cong_sub : Proper (cong ==> cong ==> cong) Z.sub.
Proof. intros a b [E] c d [F]. split. by rewrite Zminus_mod, E, F, <- Zminus_mod. Qed.
#[export] Instance cong_mul : Proper (cong ==> cong ==> cong) Z.mul.
Proof. intros a b [E] c d [F]. split. by rewrite Z.mul_mod, E, F, <- Z.mul_mod by (pose proof p256_bounds; lia). Qed.
Lemma mod_cong a b : a = b mod p256 → a ≡p b.
Proof. intros ->. split. apply Z.mod_mod. pose proof p256_bounds. lia. Qed.
Lemma eq_cong a b : a = b → a ≡p b.
Proof. by intros ->. Qed.
(** Proves a congruence that is an identity of polynomials. *)
Ltac cong_ring := apply eq_cong; ring.

(** A product that finishes with the residue of the product or not at all. *)
Class Exact (mul : list Z → list Z → outcome (list Z)) : Prop :=
  exact_product : ∀ a b r, residue a → residue b → mul a b = Ok r → residue r ∧ value r ≡p value a * value b.

Definition point_residue (p : Point) : Prop := residue (px p) ∧ residue (py p) ∧ residue (pz p).

Lemma sub_m_value a b : residue a → residue b → residue (sub_m a b) ∧ value (sub_m a b) ≡p value a - value b.
Proof. intros Ha Hb. destruct (sub_mod_value [] a b Ha Hb) as [H E]. split; [done|by apply mod_cong]. Qed.
Lemma add_m_value a b : residue a → residue b → residue (add_m a b) ∧ value (add_m a b) ≡p value a + value b.
Proof. intros Ha Hb. destruct (add_mod_value [] a b Ha Hb) as [H E]. split; [done|by apply mod_cong]. Qed.
Lemma lshift_m_value a : residue a → residue (lshift_m a) ∧ value (lshift_m a) ≡p 2 * value a.
Proof. intros Ha. destruct (lshift_mod_value [] a Ha) as [H E]. split; [done|by apply mod_cong]. Qed.

Section Curve.
Context (mul : list Z → list Z → outcome (list Z)) `{!Exact mul}.

Lemma mul_value {A} a b (k : list Z → outcome A) o : residue a → residue b → (mul a b ≫= k) = Ok o →
  ∃ r, k r = Ok o ∧ residue r ∧ value r ≡p value a * value b.
Proof.
  intros Ha Hb E. apply bind_inv in E as (r & Er & Ek). exists r. split; [done|]. by apply exact_product.
Qed.

(** The next operation of a run: its result, its value and the rest. *)
Ltac sub_step a b t := let H := fresh "R" in let E := fresh "E" in
  destruct (sub_m_value a b) as [H E]; [assumption..|]; set (t := sub_m a b) in *; clearbody t.
Ltac add_step a b t := let H := fresh "R" in let E := fresh "E" in
  destruct (add_m_value a b) as [H E]; [assumption..|]; set (t := add_m a b) in *; clearbody t.
Ltac dbl_step a t := let H := fresh "R" in let E := fresh "E" in
  destruct (lshift_m_value a) as [H E]; [assumption..|]; set (t := lshift_m a) in *; clearbody t.
Ltac mul_step t Hrun := let H := fresh "R" in let E := fresh "E" in
  apply mul_value in Hrun as (t & Hrun & H & E); [|assumption..]; cbv zeta in Hrun.

Ltac replay := repeat match goal with H : value ?t ≡p _ |- context [value ?t] => is_var t; rewrite !H end; cong_ring.

(** Doubling in terms of the coordinates. *)
Lemma double_value q p r : point_residue p → value (pz p) ≠ 0 → ECC_Double mul q p = Ok r →
  let X := value (px p) in let Y := value (py p) in let W := value (pz p) in
  let T := 3 * (X - W * W) * (X + W * W) in let S := 4 * X * Y * Y in
  point_residue r ∧ value (pz r) ≡p 2 * Y * W ∧ value (px r) ≡p T * T - 2 * S ∧
  value (py r) ≡p T * (S - (T * T - 2 * S)) - 8 * Y * Y * Y * Y.
Proof.
  intros (Hx & Hy & Hz) Hne Hrun X Y W T S. unfold ECC_Double in Hrun.
  rewrite iszero_value in Hrun by apply Hz. rewrite (proj2 (Z.eqb_neq _ _) Hne) in Hrun.
  mul_step t1 Hrun. sub_step (px p) t1 t2. add_step (px p) t1 t3.
  mul_step t4 Hrun. dbl_step t4 t5. add_step t5 t4 t6.
  mul_step z3 Hrun. dbl_step z3 z3'.
  mul_step y3 Hrun. dbl_step y3 y3'.
  mul_step s Hrun. dbl_step s s'.
  mul_step y4 Hrun. dbl_step y4 y4'.
  mul_step x3 Hrun. dbl_step s' s2. sub_step x3 s2 x3'. sub_step s' x3' t7.
  mul_step t8 Hrun. sub_step t8 y4' y5. injection Hrun as <-. cbn [px py pz].
  split; [done|]. subst T S X Y W. split_and!; replay.
Qed.

(** Addition of two points, the second with third coordinate one, that are
    different and not each other's negatives. *)
Lemma add_value_points r0 p q r : point_residue p → point_residue q → value (pz p) ≠ 0 → value (pz q) = 1 → ECC_Add mul r0 p q = Ok r →
  let X := value (px p) in let Y := value (py p) in let W := value (pz p) in
  let U := value (px q) * (W * W) - X in let S := value (py q) * (W * (W * W)) - Y in
  ¬ U ≡p 0 →
  point_residue r ∧ value (pz r) ≡p W * U ∧ value (px r) ≡p S * S - 2 * (U * U * X) - U * U * U ∧
  value (py r) ≡p S * (U * U * X - (S * S - 2 * (U * U * X) - U * U * U)) - U * U * U * Y.
Proof.
  intros (Hx & Hy & Hz) (Hx2 & Hy2 & Hz2) Hne H1 Hrun X Y W U S HU. unfold ECC_Add in Hrun.
  rewrite !iszero_value in Hrun by (apply Hz || apply Hz2). rewrite H1 in Hrun. change (1 =? 0) with false in Hrun.
  rewrite (proj2 (Z.eqb_neq _ _) Hne) in Hrun. cbv iota in Hrun.
  mul_step t1 Hrun. mul_step t2 Hrun. mul_step t3 Hrun. mul_step t4 Hrun. sub_step t3 (px p) u. sub_step t4 (py p) s.
  rewrite iszero_value in Hrun by (by match goal with R : residue u |- _ => destruct R end).
  destruct (Z.eqb_spec (value u) 0) as [Hu0|_].
  { destruct HU. assert (Eu : U ≡p value u) by (subst U X W; symmetry; replay). rewrite Eu, Hu0. reflexivity. }
  mul_step z3 Hrun. mul_step y3 Hrun. mul_step z1 Hrun. mul_step y4 Hrun. dbl_step y4 t5.
  mul_step x3 Hrun. sub_step x3 t5 x4. sub_step x4 z1 x5. sub_step y4 x5 y5.
  mul_step y6 Hrun. mul_step z4 Hrun. sub_step y6 z4 y7. injection Hrun as <-. cbn [px py pz].
  split; [done|]. subst U S X Y W. split_and!; replay.
Qed.

(** A point with third coordinate [Z] stands for the affine point [(x, y)]. *)
Definition affine (p : Point) (x y : Z) : Prop :=
  value (px p) ≡p x * (value (pz p) * value (pz p)) ∧
  value (py p) ≡p y * (value (pz p) * value (pz p) * value (pz p)).

(** Doubling is the intersection with the tangent, of slope [l]. *)
Lemma double_tangent q p r x y l : point_residue p → value (pz p) ≠ 0 → ECC_Double mul q p = Ok r →
  affine p x y → 2 * y * l ≡p 3 * (x * x - 1) →
  let x' := l * l - 2 * x in point_residue r ∧ affine r x' (l * (x - x') - y).
Proof.
  intros Hp Hne Hrun [Ax Ay] Hl x'. destruct (double_value q p r Hp Hne Hrun) as (Hr & Ez & Ex & Ey). cbv zeta in *.
  split; [done|]. set (W := value (pz p)) in *.
  assert (ET : 3 * (value (px p) - W * W) * (value (px p) + W * W) ≡p 2 * y * l * (W * W * W * W)).
  { rewrite Hl, Ax. cong_ring. }
  rewrite ET, Ax, Ay in Ex, Ey. rewrite Ay in Ez. unfold affine. rewrite Ez, Ex, Ey. subst x'. split; cong_ring.
Qed.

(** Addition is the intersection with the chord, of slope [l]. *)
Lemma add_chord r0 p q r x1 y1 l : point_residue p → point_residue q → value (pz p) ≠ 0 → value (pz q) = 1 →
  ECC_Add mul r0 p q = Ok r → let x2 := value (px q) in let y2 := value (py q) in
  affine p x1 y1 → ¬ (x2 - x1) * (value (pz p) * value (pz p)) ≡p 0 → (x2 - x1) * l ≡p y2 - y1 →
  let x' := l * l - x1 - x2 in point_residue r ∧ affine r x' (l * (x1 - x') - y1).
Proof.
  intros Hp Hq Hne H1 Hrun x2 y2 [Ax Ay] Hu Hl x'. pose proof (add_value_points r0 p q r Hp Hq Hne H1 Hrun) as H. cbv zeta in H.
  fold x2 y2 in H. set (W := value (pz p)) in *.
  assert (EU : x2 * (W * W) - value (px p) ≡p (x2 - x1) * (W * W)) by (rewrite Ax; cong_ring).
  assert (ES : y2 * (W * (W * W)) - value (py p) ≡p (x2 - x1) * l * (W * W * W)) by (rewrite Ay, Hl; cong_ring).
  destruct H as (Hr & Ez & Ex & Ey); [by rewrite EU|]. split; [done|].
  rewrite EU, ES, Ax in Ex, Ey. rewrite Ay in Ey. rewrite EU in Ez. unfold affine. rewrite Ez, Ex, Ey. subst x'. split; cong_ring.
Qed.
End Curve.
