(* ===== verification/EccSpec.v ===== *)
(** * What the points of secure connections promise

    The affine arithmetic of the curve as a reference, with slopes of tangents
    and chords, and the properties of [Ecc]: the digits of the scalar, the
    multiplication of a point that always stops, and the refinement of the
    reference by the coordinates of the code wherever its products are right. *)

From Stdlib Require Import Zpow_facts.
From S2P Require Import Prelude MultiPrecision MultiPrecisionProofs AesProofs Ecc EccProofs.

#[local] Infix "≡p" := cong (at level 70).

(** ** The affine reference *)

Module Affine.

(** [None] is the point at infinity. *)
Definition point : Type := option (Z * Z).

(** [a / b] modulo the prime, with the inverse of Fermat; undefined when [b] has none. *)
Definition slope (a b : Z) : option Z :=
  let i := Zpow_mod b (p256 - 2) p256 in
  if b * i mod p256 =? 1 then Some (a * i mod p256) else None.

(** The third intersection of the line of slope [l] through [(x1, y1)] and a point
    with first coordinate [x2], mirrored. *)
Definition third (l x1 y1 x2 : Z) : Z * Z :=
  let x := (l * l - x1 - x2) mod p256 in (x, (l * (x1 - x) - y1) mod p256).

Definition double (P : point) : option point :=
  match P with
  | None => Some None
  | Some (x, y) => l ← slope (3 * (x * x - 1)) (2 * y); Some (Some (third l x y x))
  end.

(** Undefined for points with the same first coordinate. *)
Definition add (P : point) (Q : Z * Z) : option point :=
  match P with
  | None => Some (Some Q)
  | Some (x1, y1) => l ← slope (Q.2 - y1) (Q.1 - x1); Some (Some (third l x1 y1 Q.1))
  end.

Definition negate (Q : Z * Z) : Z * Z := (Q.1, p256 - Q.2).

(** Horner's rule on digits, the least significant first. *)
Fixpoint mult (ds : list Z) (Q : Z * Z) : option point :=
  match ds with
  | [] => Some None
  | d :: ds =>
      P ← mult ds Q;
      P ← double P;
      if d =? 1 then add P Q else if d =? -1 then add P (negate Q) else Some P
  end.
End Affine.

(** The digits that the code computes of a scalar. *)
Definition digits_of (k : list Z) : list Z :=
  match ECC_NAF 257 (replicate 65 0) 0 k with
  | Ok (naf, n, _) => naf_digits naf 0 (Z.to_nat n)
  | Fault _ => []
  end.

(** ** The digits *)

Lemma empty_naf : naf_ok (replicate 65 0) 0.
Proof.
  split; [done|by apply Forall_replicate|]. intros j Hj. unfold naf_field, field. rewrite nth_lookup.
  destruct (replicate 65 0 !! (j / 4)%nat) eqn:E; [apply lookup_replicate in E as [-> _]|];
    cbn [default from_option id]; by rewrite Z.shiftr_0_l.
Qed.

Lemma naf_run k : octa k → value k < 2 ^ 256 - 1 → ∃ naf n, (n ≤ 257)%nat ∧
  naf_result (replicate 65 0) 0 (value k) (ECC_NAF 257 (replicate 65 0) 0 k) naf n.
Proof.
  intros [Hk Hl] Hv. apply (naf_value 256 257 (replicate 65 0) 0 k Hk Hl); try done; try lia. apply empty_naf.
Qed.

(** [C38] The digits of the scalar: for every scalar of eight words but 2^256 - 1,
    [ECC_NAF] stops within the 65 bytes of its array with the scalar used up, at
    most 257 digits -1, 0 or 1 whose value is the scalar, and no two digits in a
    row are not zero. *)
Theorem ecc_naf_correct k : words_ok k → length k = 8%nat → value k < 2 ^ 256 - 1 →
  ∃ naf n k', ECC_NAF 257 (replicate 65 0) 0 k = Ok (naf, Z.of_nat n, k') ∧ value k' = 0 ∧
    length naf = 65%nat ∧ (n ≤ 257)%nat ∧ length (digits_of k) = n ∧
    Forall (λ d, d = -1 ∨ d = 0 ∨ d = 1) (digits_of k) ∧
    digits_value (digits_of k) = value k ∧ nonadjacent (digits_of k).
Proof.
  intros Hk Hl Hv. destruct (naf_run k (conj Hk Hl) Hv) as (naf & n & Hn & (k' & E & E0) & Hok & _ & Hd & Hval & Hadj & _).
  exists naf, n, k'. unfold digits_of. rewrite E, Nat2Z.id, Nat.add_0_l. split_and!; try done.
  - apply Hok.
  - unfold naf_digits. by rewrite length_fmap, length_seq.
  - apply Forall_fmap, Forall_seq. intros j Hj. unfold compose, digit. destruct (Hd j ltac:(lia)) as [E1|[E1|E1]]; rewrite E1; cbn; lia.
Qed.
Lemma ecc_naf_correct_witness : let k := words 8 (2 ^ 256 - 2) in
  ∃ naf n k', ECC_NAF 257 (replicate 65 0) 0 k = Ok (naf, Z.of_nat n, k') ∧ value k' = 0 ∧
    length naf = 65%nat ∧ (n ≤ 257)%nat ∧ length (digits_of k) = n ∧
    Forall (λ d, d = -1 ∨ d = 0 ∨ d = 1) (digits_of k) ∧
    digits_value (digits_of k) = value k ∧ nonadjacent (digits_of k).
Proof. apply (ecc_naf_correct (words 8 (2 ^ 256 - 2))); [by decide_vm|done|vm_compute; done]. Defined.

(** The largest scalar overflows when its first digit, -1, is taken off: the carry
    is added to the word behind the array. *)
Theorem ecc_naf_overflow fuel naf i : (0 < fuel)%nat → ECC_NAF fuel naf i (words 8 (2 ^ 256 - 1)) = Fault OobWrite.
Proof. destruct fuel; [lia|]. intros _. reflexivity. Qed.

(** ** The multiplication stops *)

(** [C36] The multiplication of a point always stops, without an access outside its
    arrays: whatever the coordinates that the peer sent, a point of the curve or
    not, and for every scalar but 2^256 - 1, [smp_compute_dhkey] has a result of
    eight words. *)
Theorem smp_compute_dhkey_total private_key peer_x peer_y :
  words_ok private_key → length private_key = 8%nat → value private_key < 2 ^ 256 - 1 →
  words_ok peer_x → length peer_x = 8%nat → words_ok peer_y → length peer_y = 8%nat →
  ∃ dhkey, smp_compute_dhkey code_mul private_key peer_x peer_y = Ok dhkey ∧ words_ok dhkey ∧ length dhkey = 8%nat.
Proof.
  intros Hk Hl Hv Hx Hxl Hy Hyl. unfold smp_compute_dhkey.
  destruct (point_mult_total code_mul {| px := peer_x; py := peer_y; pz := replicate 8 0 |} private_key) as (q & k' & E & (Hq & _) & _);
    [by split..|done|]. rewrite E, bind_ok. by exists (px q).
Qed.
Lemma smp_compute_dhkey_total_witness :
  ∃ dhkey, smp_compute_dhkey code_mul (words 8 (2 ^ 256 - 2)) (words 8 (2 ^ 256 - 1)) (words 8 0) = Ok dhkey ∧
    words_ok dhkey ∧ length dhkey = 8%nat.
Proof.
  apply (smp_compute_dhkey_total (words 8 (2 ^ 256 - 2)) (words 8 (2 ^ 256 - 1)) (words 8 0));
    first [by decide_vm|done|vm_compute; done].
Defined.

(** ** Runs whose products are right *)

#[export] Instance residue_dec a : Decision (residue a).
Proof.
  refine (cast_if (decide (words_ok a ∧ length a = 8%nat ∧ 0 ≤ value a ∧ value a < p256)));
    [abstract (split; tauto)|abstract (intros [? ? []]; tauto)].
Defined.

(** The product of the code where it is the product, a fault where it is not. *)
Definition checked_mul (a b : list Z) : outcome (list Z) :=
  r ← code_mul a b;
  if decide (residue r) then if value r =? (value a * value b) mod p256 then Ok r else Fault OutOfFuel
  else Fault OutOfFuel.

#[export] Instance checked_exact : Exact checked_mul.
Proof.
  intros a b r _ _ E. unfold checked_mul in E. apply bind_inv in E as (r' & _ & E). case_decide as Hr; [|done].
  destruct (Z.eqb_spec (value r') ((value a * value b) mod p256)) as [Ev|]; [|done]. injection E as <-.
  split; [done|by apply mod_cong].
Qed.

(** A computation that has every result of another. *)
Definition extends {A} (o1 o2 : outcome A) : Prop := ∀ x, o1 = Ok x → o2 = Ok x.

Lemma extends_refl {A} (o : outcome A) : extends o o.
Proof. by intros x. Qed.
Lemma extends_bind {A B} (o1 o2 : outcome A) (k1 k2 : A → outcome B) :
  extends o1 o2 → (∀ x, extends (k1 x) (k2 x)) → extends (o1 ≫= k1) (o2 ≫= k2).
Proof. intros Ho Hk y E. apply bind_inv in E as (x & Ex & Ey). rewrite (Ho x Ex), bind_ok. by apply Hk. Qed.
Lemma checked_extends a b : extends (checked_mul a b) (code_mul a b).
Proof.
  intros r E. unfold checked_mul in E. apply bind_inv in E as (r' & E' & E). repeat case_match; try done. by injection E as <-.
Qed.
#[local] Hint Resolve extends_refl checked_extends : core.

Ltac extend := repeat first [by auto|apply extends_bind; [by auto|intros ?]; cbv zeta|case_match].

Lemma double_extends q p : extends (ECC_Double checked_mul q p) (ECC_Double code_mul q p).
Proof. unfold ECC_Double. cbv zeta. extend. Qed.
#[local] Hint Resolve double_extends : core.
Lemma add_extends r p q : extends (ECC_Add checked_mul r p q) (ECC_Add code_mul r p q).
Proof. unfold ECC_Add. cbv zeta. extend. Qed.
#[local] Hint Resolve add_extends : core.
Lemma naf_loop_extends n naf p minus_p q : extends (naf_loop checked_mul n naf p minus_p q) (naf_loop code_mul n naf p minus_p q).
Proof.
  revert q. induction n as [|n IH]; intros q; cbn [naf_loop]; [by auto|].
  do 2 (apply extends_bind; [by auto|intros ?]). apply extends_bind; [extend|intros ?; apply IH].
Qed.
#[local] Hint Resolve naf_loop_extends : core.
Lemma point_mult_extends p k : extends (ECC_PointMult_Bin_NAF checked_mul p k) (ECC_PointMult_Bin_NAF code_mul p k).
Proof. unfold ECC_PointMult_Bin_NAF. cbv zeta. apply extends_bind; [by auto|]. intros [[naf n] k']. extend. Qed.

(** ** Invertible numbers *)

Definition unit (b : Z) : Prop := ∃ i, b * i ≡p 1.

Lemma cong_one_zero : ¬ 1 ≡p 0.
Proof. intros [E]. vm_compute in E. done. Qed.
Lemma unit_not_zero b : unit b → ¬ b ≡p 0.
Proof. intros [i Hi] E. apply cong_one_zero. rewrite <- Hi, E. by rewrite Z.mul_0_l. Qed.
Lemma unit_mul a b : unit a → unit b → unit (a * b).
Proof.
  intros [i Hi] [j Hj]. exists (i * j). replace (a * b * (i * j)) with (a * i * (b * j)) by ring. by rewrite Hi, Hj.
Qed.
#[export] Instance unit_proper : Proper (cong ==> iff) unit.
Proof. intros a b E. split; intros [i Hi]; exists i; [rewrite <- E|rewrite E]; done. Qed.
Lemma unit_coprime b : unit b → coprime b p256.
Proof.
  intros [i [Hi]] d Hb Hp. pose proof p256_bounds. rewrite (Z.mod_small 1) in Hi by lia.
  rewrite Z.mod_eq in Hi by lia. replace 1 with (b * i - p256 * (b * i / p256)) by done.
  apply Z.divide_sub_r; by apply Z.divide_mul_l.
Qed.
Lemma residue_nonzero b : unit b → b ≠ 0.
Proof. intros H ->. by apply (unit_not_zero 0 H). Qed.

Lemma slope_spec a b l : Affine.slope a b = Some l → unit b ∧ b * l ≡p a.
Proof.
  unfold Affine.slope. generalize (Zpow_mod b (p256 - 2) p256). intros i. destruct (Z.eqb_spec (b * i mod p256) 1) as [E|]; [|done].
  intros [= <-]. assert (Hu : b * i ≡p 1).
  { split. rewrite E. symmetry. apply Z.mod_small. pose proof p256_bounds. lia. }
  split; [by exists i|]. rewrite (mod_cong (a * i mod p256) (a * i) eq_refl). replace (b * (a * i)) with (b * i * a) by ring.
  rewrite Hu. by rewrite Z.mul_1_l.
Qed.

(** ** Coordinates stand for affine points *)

#[export] Instance affine_proper p : Proper (cong ==> cong ==> iff) (affine p).
Proof. intros x x' Ex y y' Ey. unfold affine. by rewrite Ex, Ey. Qed.

Definition in_field (z : Z) : Prop := 0 ≤ z < p256.
Definition stands (p : Point) (P : Affine.point) : Prop :=
  point_residue p ∧
  match P with
  | None => value (pz p) = 0
  | Some (x, y) => unit (value (pz p)) ∧ affine p x y ∧ in_field x ∧ in_field y
  end.

(** A point whose third coordinate is one, and the pair of its coordinates. *)
Definition normal (q : Point) (Q : Z * Z) : Prop :=
  point_residue q ∧ value (pz q) = 1 ∧ value (px q) = Q.1 ∧ value (py q) = Q.2.

Lemma normal_stands q Q : normal q Q → stands q (Some Q).
Proof.
  destruct Q as [x y]. intros ((Hx & Hy & Hz) & H1 & Ex & Ey). cbn [fst snd] in *. split; [done|]. unfold affine.
  rewrite H1, Ex, Ey. split_and!; [by exists 1|cong_ring|cong_ring|rewrite <- Ex; apply Hx|rewrite <- Ey; apply Hy].
Qed.

Lemma mod_field z : in_field (z mod p256).
Proof. apply Z.mod_pos_bound. pose proof p256_bounds. lia. Qed.

(** Infinity is a fixed point of doubling. *)
Lemma infinity_iszero p : residue (pz p) → value (pz p) = 0 → multiprecision_iszero (pz p) = true.
Proof. intros [Hz _ _] E. by rewrite iszero_value, E. Qed.

Lemma third_affine r l x1 y1 x2 : unit (value (pz r)) → point_residue r →
  (let x' := l * l - x1 - x2 in affine r x' (l * (x1 - x') - y1)) → stands r (Some (Affine.third l x1 y1 x2)).
Proof.
  intros Hu Hr Ha. cbv zeta in Ha. split; [done|]. cbn [Affine.third]. split_and!; [done| |apply mod_field..].
  set (x := (l * l - x1 - x2) mod p256). assert (Ex : x ≡p l * l - x1 - x2) by exact (mod_cong x _ eq_refl).
  rewrite (mod_cong ((l * (x1 - x) - y1) mod p256) _ eq_refl). by rewrite Ex.
Qed.

Section Refinement.
Context (mul : list Z → list Z → outcome (list Z)) `{!Exact mul}.

Lemma double_stands p P r P' : stands p P → ECC_Double mul p p = Ok r → Affine.double P = Some P' → stands r P'.
Proof.
  intros [Hp HP] Hrun HD. destruct P as [[x y]|]; cbn [Affine.double] in HD.
  - destruct HP as (Hu & Ha & _). destruct (Affine.slope _ _) as [l|] eqn:Hl; [|done]. injection HD as <-.
    apply slope_spec in Hl as [Huy Hl]. pose proof (residue_nonzero _ Hu) as Hne.
    destruct (double_value mul p p r Hp Hne Hrun) as (_ & Ez & _). cbv zeta in Ez.
    destruct (double_tangent mul p p r x y l Hp Hne Hrun Ha Hl) as (Hr & Ha'). apply third_affine; [|done|].
    + destruct Ha as [_ Ay]. rewrite Ez, Ay. replace (2 * _ * _) with
        (2 * y * (value (pz p) * value (pz p) * (value (pz p) * value (pz p)))) by ring. auto using unit_mul.
    + cbv zeta. by replace (l * l - x - x) with (l * l - 2 * x) by ring.
  - injection HD as <-. unfold ECC_Double in Hrun. rewrite infinity_iszero in Hrun by (done || apply Hp). injection Hrun as <-.
    split; [|done]. destruct Hp as (? & ? & _). split_and!; cbn [px py pz]; [done..|by decide_vm].
Qed.

Lemma add_stands r0 p P q Q r P' : stands p P → normal q Q → ECC_Add mul r0 p q = Ok r → Affine.add P Q = Some P' → stands r P'.
Proof.
  intros [Hp HP] HQ Hrun HA. pose proof HQ as (Hq & H1 & Ex & Ey). destruct P as [[x y]|]; cbn [Affine.add] in HA.
  - destruct HP as (Hu & Ha & _). destruct (Affine.slope _ _) as [l|] eqn:Hl; [|done]. injection HA as <-.
    apply slope_spec in Hl as [Hux Hl]. pose proof (residue_nonzero _ Hu) as Hne. rewrite <- Ex, <- Ey in *.
    assert (Hd : unit ((value (px q) - x) * (value (pz p) * value (pz p)))) by auto using unit_mul.
    destruct (add_value_points mul r0 p q r Hp Hq Hne H1 Hrun) as (_ & Ez & _).
    { destruct Ha as [Ax _]. rewrite Ax. replace (_ - _) with ((value (px q) - x) * (value (pz p) * value (pz p))) by ring. by apply unit_not_zero. }
    destruct (add_chord mul r0 p q r x y l Hp Hq Hne H1 Hrun Ha) as (Hr & Ha'); [by apply unit_not_zero|done|].
    apply third_affine; [|done|done]. destruct Ha as [Ax _]. rewrite Ez, Ax.
    replace (_ * (_ - _)) with (value (pz p) * ((value (px q) - x) * (value (pz p) * value (pz p)))) by ring. by apply unit_mul.
  - injection HA as <-. unfold ECC_Add in Hrun. rewrite iszero_value, H1 in Hrun by apply Hq. change (1 =? 0) with false in Hrun.
    rewrite infinity_iszero in Hrun by (done || apply Hp). injection Hrun as <-. by apply normal_stands.
Qed.

Lemma affine_suffix ds ds' Q P : Affine.mult (ds ++ ds') Q = Some P → ∃ P', Affine.mult ds' Q = Some P'.
Proof.
  revert P. induction ds as [|d ds IH]; intros P E; [by exists P|]. cbn [app Affine.mult] in E.
  destruct (Affine.mult (ds ++ ds') Q) as [P1|]; [|done]. by apply (IH P1).
Qed.

(** One round of the loop is one digit of Horner's rule. *)
Lemma naf_loop_stands naf i p minus_p Q n m q P r P' : naf_ok naf i → normal p Q → normal minus_p (Affine.negate Q) →
  (n ≤ 260)%nat → (∀ j, (j < n)%nat → naf_field naf j = 0 ∨ naf_field naf j = 1 ∨ naf_field naf j = 3) →
  stands q P → Affine.mult (naf_digits naf n m) Q = Some P →
  naf_loop mul n naf p minus_p q = Ok r → Affine.mult (naf_digits naf 0 (n + m)) Q = Some P' → stands r P'.
Proof.
  intros Hnaf Hp Hm. revert m q P. induction n as [|n IH]; intros m q P Hn Hd Hq HP Hrun Hall; cbn [naf_loop] in Hrun.
  { injection Hrun as <-. cbn [Nat.add] in Hall. congruence. }
  apply bind_inv in Hrun as (q1 & E1 & Hrun). rewrite (naf_sign_value naf i Hnaf n), bind_ok in Hrun by lia.
  apply bind_inv in Hrun as (q2 & E2 & Hrun). replace (S n + m)%nat with (n + S m)%nat in Hall by lia.
  pose proof Hall as Hsuf. unfold naf_digits in Hsuf. rewrite seq_app, fmap_app, Nat.add_0_l in Hsuf.
  apply affine_suffix in Hsuf as [P2 H2]. fold (naf_digits naf n (S m)) in H2.
  apply (IH (S m) q2 P2); try done; [lia|intros j Hj; apply Hd; lia|].
  change (naf_digits naf n (S m)) with (digit (naf_field naf n) :: naf_digits naf (S n) m) in H2. cbn [Affine.mult] in H2.
  rewrite HP in H2. cbn [mbind option_bind] in H2. destruct (Affine.double P) as [P1|] eqn:ED; [|done]. cbn [mbind option_bind] in H2.
  pose proof (double_stands q P q1 P1 Hq E1 ED) as H1.
  destruct (Hd n ltac:(lia)) as [E|[E|E]]; rewrite E in E2, H2; cbn in E2, H2.
  - injection E2 as <-. by injection H2 as <-.
  - by apply (add_stands q1 q1 P1 p Q q2 P2).
  - by apply (add_stands q1 q1 P1 minus_p (Affine.negate Q) q2 P2).
Qed.

(** The last steps: the division by the powers of the third coordinate. *)
Lemma normalise q x y i z : affine q x y → value i * value (pz q) ≡p 1 → value z ≡p value i * value i →
  value (px q) * value z ≡p x ∧ ∀ w, w ≡p value z * value i → value (py q) * w ≡p y.
Proof.
  intros [Ax Ay] Hi Hz. split; [|intros w Hw]; rewrite ?Ax, ?Ay, ?Hw, Hz.
  - replace (_ * _) with (x * ((value i * value (pz q)) * (value i * value (pz q)))) by ring. rewrite Hi. cong_ring.
  - replace (_ * _) with (y * ((value i * value (pz q)) * (value i * value (pz q)) * (value i * value (pz q)))) by ring. rewrite Hi. cong_ring.
Qed.

Lemma cong_field a b : in_field a → in_field b → a ≡p b → a = b.
Proof. intros Ha Hb [E]. unfold in_field in *. by rewrite !Z.mod_small in E. Qed.

Lemma minus_normal p : residue (px p) → residue (py p) → value (py p) ≠ 0 →
  normal {| px := px p; py := (multiprecision_sub curve_p256_p (py p)).1; pz := one |} (Affine.negate (value (px p), value (py p))).
Proof.
  intros Hx Hy Hne. pose proof Hy as [Hw Hl Hv].
  pose proof (sub_value curve_p256_p (py p) curve_words Hw ltac:(by rewrite Hl)) as Hs.
  pose proof (octa_sub curve_p256_p (py p) octa_curve (conj Hw Hl)) as [Ho Hol].
  destruct (multiprecision_sub curve_p256_p (py p)) as [s c]. cbn [fst] in *. destruct Hs as (Hs & Hc & Hsw). unfold normal, point_residue. cbn [px py pz Affine.negate fst snd].
  rewrite curve_value in *. pose proof (value_range s Ho) as Hr. rewrite Hol, weight_8 in Hr. pose proof p256_bounds.
  change (weight (length curve_p256_p)) with (weight 8) in *. rewrite ?weight_8 in *.
  assert (Es : value s = p256 - value (py p)) by nia.
  split_and!; try done; [split; [done..|lia]|by decide_vm].
Qed.

Lemma point_mult_refines p k q k' x y : residue (px p) → residue (py p) → value (py p) ≠ 0 → octa k → value k < 2 ^ 256 - 1 →
  ECC_PointMult_Bin_NAF mul p k = Ok (q, k') →
  Affine.mult (digits_of k) (value (px p), value (py p)) = Some (Some (x, y)) →
  residue (px q) ∧ residue (py q) ∧ value (px q) = x ∧ value (py q) = y.
Proof.
  intros Hx Hy Hne Hk Hv Hrun HA. destruct (naf_run k Hk Hv) as (naf & n & Hn & (k1 & E & E0) & Hok & _ & Hd & _).
  unfold digits_of in HA. unfold ECC_PointMult_Bin_NAF in Hrun. rewrite E in Hrun, HA. rewrite bind_ok in Hrun. rewrite Nat2Z.id in *.
  cbn [Nat.add] in *. apply bind_inv in Hrun as (q1 & E1 & Hrun).
  assert (Hone : residue one) by (by decide_vm).
  assert (Hq1 : stands q1 (Some (x, y))).
  { cbn [px py] in E1. eapply (naf_loop_stands naf n _ _ (value (px p), value (py p)) n 0 p_256_init_point None); [done| | | | | | |exact E1|].
    - by split_and!.
    - by apply minus_normal.
    - lia.
    - intros j Hj. apply Hd. lia.
    - by split; [split_and!; by decide_vm|].
    - done.
    - by rewrite Nat.add_0_r. }
  destruct Hq1 as (Hq1 & Hu & Ha & Fx & Fy). pose proof Hq1 as (Rx & Ry & Rz).
  destruct (inv_mod_value (pz q1)) as (i & Ei & Hi & Hiv); [apply Rz..|by apply unit_coprime|].
  rewrite Ei, bind_ok in Hrun.
  apply (mul_value mul) in Hrun as (z & Hrun & Rz2 & Ez); [|done..].
  apply (mul_value mul) in Hrun as (x2 & Hrun & Rx2 & Ex); [|done..].
  apply (mul_value mul) in Hrun as (w & Hrun & Rw & Ew); [|done..].
  apply (mul_value mul) in Hrun as (y2 & Hrun & Ry2 & Ey); [|done..].
  injection Hrun as <- _. cbn [px py]. split_and!; [done..| |].
  all: assert (Hi1 : value i * value (pz q1) ≡p 1) by (split; rewrite Hiv; symmetry; apply Z.mod_small; pose proof p256_bounds; lia).
  all: destruct (normalise q1 x y i z Ha Hi1 Ez) as [N1 N2]; apply cong_field; [apply Rx2 || apply Ry2|done|].
  - by rewrite Ex.
  - rewrite Ey. by apply N2.
Qed.
End Refinement.

(** [C34] The coordinates of the code refine the affine arithmetic: where every
    product of a run is the product modulo the prime, the multiplication of a
    point with non-zero second coordinate ends with the coordinates of Horner's
    rule on the digits of the scalar, with the tangents and chords of the affine
    reference. *)
Theorem ecc_point_mult_affine p k q k' x y : residue (px p) → residue (py p) → value (py p) ≠ 0 →
  words_ok k → length k = 8%nat → value k < 2 ^ 256 - 1 →
  ECC_PointMult_Bin_NAF checked_mul p k = Ok (q, k') →
  Affine.mult (digits_of k) (value (px p), value (py p)) = Some (Some (x, y)) →
  ECC_PointMult_Bin_NAF code_mul p k = Ok (q, k') ∧ residue (px q) ∧ residue (py q) ∧ value (px q) = x ∧ value (py q) = y.
Proof.
  intros Hx Hy Hne Hk Hl Hv Hrun HA. split; [by apply point_mult_extends|]. by apply (point_mult_refines checked_mul p k q k' x y).
Qed.

(** Seven times the base point, with the digits -1, 0, 0, 1. *)
Lemma ecc_point_mult_affine_witness :
  let x := 0x8e533b6fa0bf7b4625bb30667c01fb607ef9f8b8a80fef5b300628703187b2a3 in
  let y := 0x73eb1dbde03318366d069f83a6f5900053c73633cb041b21c55e1a86c1f400b4 in
  ∃ q k', ECC_PointMult_Bin_NAF code_mul curve_p256_G (words 8 7) = Ok (q, k') ∧ residue (px q) ∧ residue (py q) ∧
    value (px q) = x ∧ value (py q) = y.
Proof.
  intros x y. eexists _, _. eapply (ecc_point_mult_affine curve_p256_G (words 8 7) _ _ x y);
    [by decide_vm|by decide_vm|vm_compute; done|by decide_vm|done|vm_compute; done|vm_compute; reflexivity|vm_compute; reflexivity].
Defined.
