(* ===== verification/SmpTables.v ===== *)
(** * The tables of the pairing state machine

    Models the tables of [src/components/bt/bluedroid/stack/smp/smp_main.c] and the
    part of [smp_sm_event] that looks an event up in them. *)

From S2P Require Import Prelude Smp.

Inductive tSMP_STATE :=
| SMP_STATE_IDLE | SMP_STATE_WAIT_APP_RSP | SMP_STATE_SEC_REQ_PENDING | SMP_STATE_PAIR_REQ_RSP
| SMP_STATE_WAIT_CONFIRM | SMP_STATE_CONFIRM | SMP_STATE_RAND | SMP_STATE_PUBLIC_KEY_EXCH
| SMP_STATE_SEC_CONN_PHS1_START | SMP_STATE_WAIT_COMMITMENT | SMP_STATE_WAIT_NONCE
| SMP_STATE_SEC_CONN_PHS2_START | SMP_STATE_WAIT_DHK_CHECK | SMP_STATE_DHK_CHECK
| SMP_STATE_ENCRYPTION_PENDING | SMP_STATE_BOND_PENDING | SMP_STATE_CREATE_LOCAL_SEC_CONN_OOB_DATA.

(** The events, numbered from 1; the first fifteen are the commands of the peer. *)
Inductive tSMP_EVENT :=
| SMP_PAIRING_REQ_EVT | SMP_PAIRING_RSP_EVT | SMP_CONFIRM_EVT | SMP_RAND_EVT
| SMP_PAIRING_FAILED_EVT | SMP_ENCRPTION_INFO_EVT | SMP_MASTER_ID_EVT | SMP_ID_INFO_EVT
| SMP_ID_ADDR_EVT | SMP_SIGN_INFO_EVT | SMP_SECURITY_REQ_EVT | SMP_PAIR_PUBLIC_KEY_EVT
| SMP_PAIR_DHKEY_CHCK_EVT | SMP_PAIR_KEYPRESS_NOTIFICATION_EVT | SMP_PAIR_COMMITM_EVT
| SMP_KEY_READY_EVT | SMP_ENCRYPTED_EVT | SMP_L2CAP_CONN_EVT | SMP_L2CAP_DISCONN_EVT
| SMP_IO_RSP_EVT | SMP_API_SEC_GRANT_EVT | SMP_TK_REQ_EVT | SMP_AUTH_CMPL_EVT | SMP_ENC_REQ_EVT
| SMP_BOND_REQ_EVT | SMP_DISCARD_SEC_REQ_EVT | SMP_PUBL_KEY_EXCH_REQ_EVT
| SMP_LOC_PUBL_KEY_CRTD_EVT | SMP_BOTH_PUBL_KEYS_RCVD_EVT | SMP_SC_DHKEY_CMPLT_EVT
| SMP_HAVE_LOC_NONCE_EVT | SMP_SC_PHASE1_CMPLT_EVT | SMP_SC_CALC_NC_EVT | SMP_SC_DSPL_NC_EVT
| SMP_SC_NC_OK_EVT | SMP_SC_2_DHCK_CHKS_PRES_EVT | SMP_SC_KEY_READY_EVT
| SMP_KEYPRESS_NOTIFICATION_EVENT | SMP_SC_OOB_DATA_EVT | SMP_CR_LOC_SC_OOB_DATA_EVT.

Inductive action :=
| SMP_PROC_SEC_REQ | SMP_SEND_PAIR_REQ | SMP_SEND_PAIR_RSP | SMP_SEND_CONFIRM | SMP_SEND_PAIR_FAIL
| SMP_SEND_RAND | SMP_SEND_ENC_INFO | SMP_SEND_ID_INFO | SMP_SEND_LTK_REPLY | SMP_PROC_PAIR_CMD
| SMP_PROC_PAIR_FAIL | SMP_PROC_CONFIRM | SMP_PROC_RAND | SMP_PROC_ENC_INFO | SMP_PROC_MASTER_ID
| SMP_PROC_ID_INFO | SMP_PROC_ID_ADDR | SMP_PROC_SRK_INFO | SMP_PROC_SEC_GRANT | SMP_PROC_SL_KEY
| SMP_PROC_COMPARE | SMP_PROC_IO_RSP | SMP_GENERATE_COMPARE | SMP_GENERATE_CONFIRM
| SMP_GENERATE_STK | SMP_KEY_DISTRIBUTE | SMP_START_ENC | SMP_PAIRING_CMPL | SMP_DECIDE_ASSO_MODEL
| SMP_SEND_APP_CBACK | SMP_CHECK_AUTH_REQ | SMP_PAIR_TERMINATE | SMP_ENC_CMPL | SMP_PROC_DISCARD
| SMP_CREATE_PRIVATE_KEY | SMP_USE_OOB_PRIVATE_KEY | SMP_SEND_PAIR_PUBLIC_KEY
| SMP_PROCESS_PAIR_PUBLIC_KEY | SMP_HAVE_BOTH_PUBLIC_KEYS | SMP_START_SEC_CONN_PHASE1
| SMP_PROCESS_LOCAL_NONCE | SMP_SEND_COMMITMENT | SMP_PROCESS_PAIRING_COMMITMENT
| SMP_PROCESS_PEER_NONCE | SMP_CALCULATE_LOCAL_DHKEY_CHECK | SMP_SEND_DHKEY_CHECK
| SMP_PROCESS_DHKEY_CHECK | SMP_CALCULATE_PEER_DHKEY_CHECK | SMP_MATCH_DHKEY_CHECKS
| SMP_CALCULATE_NUMERIC_COMPARISON_DISPLAY_NUMBER | SMP_MOVE_TO_SEC_CONN_PHASE2
| SMP_PH2_DHKEY_CHECKS_ARE_PRESENT | SMP_WAIT_FOR_BOTH_PUBLIC_KEYS | SMP_START_PASSKEY_VERIFICATION
| SMP_SEND_KEYPRESS_NOTIFICATION | SMP_PROCESS_KEYPRESS_NOTIFICATION
| SMP_PROCESS_SECURE_CONNECTION_OOB_DATA | SMP_SET_LOCAL_OOB_KEYS
| SMP_SET_LOCAL_OOB_RAND_COMMITMENT | SMP_IDLE_TERMINATE | SMP_FAST_CONN_PARAM | SMP_SM_NO_ACTION.

#[export] Instance state_eq_dec : EqDecision tSMP_STATE.
Proof. solve_decision. Defined.
#[export] Instance event_eq_dec : EqDecision tSMP_EVENT.
Proof. solve_decision. Defined.
#[export] Instance action_eq_dec : EqDecision action.
Proof. solve_decision. Defined.

Definition all_states : list tSMP_STATE :=
  [SMP_STATE_IDLE; SMP_STATE_WAIT_APP_RSP; SMP_STATE_SEC_REQ_PENDING; SMP_STATE_PAIR_REQ_RSP;
   SMP_STATE_WAIT_CONFIRM; SMP_STATE_CONFIRM; SMP_STATE_RAND; SMP_STATE_PUBLIC_KEY_EXCH;
   SMP_STATE_SEC_CONN_PHS1_START; SMP_STATE_WAIT_COMMITMENT; SMP_STATE_WAIT_NONCE;
   SMP_STATE_SEC_CONN_PHS2_START; SMP_STATE_WAIT_DHK_CHECK; SMP_STATE_DHK_CHECK;
   SMP_STATE_ENCRYPTION_PENDING; SMP_STATE_BOND_PENDING; SMP_STATE_CREATE_LOCAL_SEC_CONN_OOB_DATA].
Definition all_events : list tSMP_EVENT :=
  [SMP_PAIRING_REQ_EVT; SMP_PAIRING_RSP_EVT; SMP_CONFIRM_EVT; SMP_RAND_EVT; SMP_PAIRING_FAILED_EVT;
   SMP_ENCRPTION_INFO_EVT; SMP_MASTER_ID_EVT; SMP_ID_INFO_EVT; SMP_ID_ADDR_EVT; SMP_SIGN_INFO_EVT;
   SMP_SECURITY_REQ_EVT; SMP_PAIR_PUBLIC_KEY_EVT; SMP_PAIR_DHKEY_CHCK_EVT;
   SMP_PAIR_KEYPRESS_NOTIFICATION_EVT; SMP_PAIR_COMMITM_EVT; SMP_KEY_READY_EVT; SMP_ENCRYPTED_EVT;
   SMP_L2CAP_CONN_EVT; SMP_L2CAP_DISCONN_EVT; SMP_IO_RSP_EVT; SMP_API_SEC_GRANT_EVT;
   SMP_TK_REQ_EVT; SMP_AUTH_CMPL_EVT; SMP_ENC_REQ_EVT; SMP_BOND_REQ_EVT; SMP_DISCARD_SEC_REQ_EVT;
   SMP_PUBL_KEY_EXCH_REQ_EVT; SMP_LOC_PUBL_KEY_CRTD_EVT; SMP_BOTH_PUBL_KEYS_RCVD_EVT;
   SMP_SC_DHKEY_CMPLT_EVT; SMP_HAVE_LOC_NONCE_EVT; SMP_SC_PHASE1_CMPLT_EVT; SMP_SC_CALC_NC_EVT;
   SMP_SC_DSPL_NC_EVT; SMP_SC_NC_OK_EVT; SMP_SC_2_DHCK_CHKS_PRES_EVT; SMP_SC_KEY_READY_EVT;
   SMP_KEYPRESS_NOTIFICATION_EVENT; SMP_SC_OOB_DATA_EVT; SMP_CR_LOC_SC_OOB_DATA_EVT].

(** The numbers of the enumerations. *)
Definition state_number (s : tSMP_STATE) : Z :=
  match s with
  | SMP_STATE_IDLE => 0
  | SMP_STATE_WAIT_APP_RSP => 1
  | SMP_STATE_SEC_REQ_PENDING => 2
  | SMP_STATE_PAIR_REQ_RSP => 3
  | SMP_STATE_WAIT_CONFIRM => 4
  | SMP_STATE_CONFIRM => 5
  | SMP_STATE_RAND => 6
  | SMP_STATE_PUBLIC_KEY_EXCH => 7
  | SMP_STATE_SEC_CONN_PHS1_START => 8
  | SMP_STATE_WAIT_COMMITMENT => 9
  | SMP_STATE_WAIT_NONCE => 10
  | SMP_STATE_SEC_CONN_PHS2_START => 11
  | SMP_STATE_WAIT_DHK_CHECK => 12
  | SMP_STATE_DHK_CHECK => 13
  | SMP_STATE_ENCRYPTION_PENDING => 14
  | SMP_STATE_BOND_PENDING => 15
  | SMP_STATE_CREATE_LOCAL_SEC_CONN_OOB_DATA => 16
  end.
Definition event_number (e : tSMP_EVENT) : Z :=
  match e with
  | SMP_PAIRING_REQ_EVT => 1
  | SMP_PAIRING_RSP_EVT => 2
  | SMP_CONFIRM_EVT => 3
  | SMP_RAND_EVT => 4
  | SMP_PAIRING_FAILED_EVT => 5
  | SMP_ENCRPTION_INFO_EVT => 6
  | SMP_MASTER_ID_EVT => 7
  | SMP_ID_INFO_EVT => 8
  | SMP_ID_ADDR_EVT => 9
  | SMP_SIGN_INFO_EVT => 10
  | SMP_SECURITY_REQ_EVT => 11
  | SMP_PAIR_PUBLIC_KEY_EVT => 12
  | SMP_PAIR_DHKEY_CHCK_EVT => 13
  | SMP_PAIR_KEYPRESS_NOTIFICATION_EVT => 14
  | SMP_PAIR_COMMITM_EVT => 15
  | SMP_KEY_READY_EVT => 16
  | SMP_ENCRYPTED_EVT => 17
  | SMP_L2CAP_CONN_EVT => 18
  | SMP_L2CAP_DISCONN_EVT => 19
  | SMP_IO_RSP_EVT => 20
  | SMP_API_SEC_GRANT_EVT => 21
  | SMP_TK_REQ_EVT => 22
  | SMP_AUTH_CMPL_EVT => 23
  | SMP_ENC_REQ_EVT => 24
  | SMP_BOND_REQ_EVT => 25
  | SMP_DISCARD_SEC_REQ_EVT => 26
  | SMP_PUBL_KEY_EXCH_REQ_EVT => 27
  | SMP_LOC_PUBL_KEY_CRTD_EVT => 28
  | SMP_BOTH_PUBL_KEYS_RCVD_EVT => 29
  | SMP_SC_DHKEY_CMPLT_EVT => 30
  | SMP_HAVE_LOC_NONCE_EVT => 31
  | SMP_SC_PHASE1_CMPLT_EVT => 32
  | SMP_SC_CALC_NC_EVT => 33
  | SMP_SC_DSPL_NC_EVT => 34
  | SMP_SC_NC_OK_EVT => 35
  | SMP_SC_2_DHCK_CHKS_PRES_EVT => 36
  | SMP_SC_KEY_READY_EVT => 37
  | SMP_KEYPRESS_NOTIFICATION_EVENT => 38
  | SMP_SC_OOB_DATA_EVT => 39
  | SMP_CR_LOC_SC_OOB_DATA_EVT => 40
  end.
(** The event of a command of the peer. *)
Definition command_event (cmd : Z) : option tSMP_EVENT :=
  if decide (1 ≤ cmd) then take 15 all_events !! Z.to_nat (cmd - 1) else None.

(** ** The entry maps *)

Definition smp_master_entry_map : list (list Z) :=
  [[0; 0; 0; 0; 0; 0; 0; 0; 0; 0; 0; 0; 0; 0; 0; 0; 0];
   [0; 0; 0; 1; 0; 0; 0; 0; 0; 0; 0; 0; 0; 0; 0; 0; 0];
   [0; 0; 0; 0; 0; 1; 0; 0; 0; 0; 0; 0; 0; 0; 0; 0; 0];
   [0; 0; 0; 0; 0; 0; 1; 0; 0; 0; 1; 0; 0; 0; 0; 0; 0];
   [0; 129; 0; 129; 129; 129; 129; 129; 129; 129; 129; 129; 129; 129; 0; 129; 0];
   [0; 0; 0; 0; 0; 0; 0; 0; 0; 0; 0; 0; 0; 0; 0; 1; 0];
   [0; 0; 0; 0; 0; 0; 0; 0; 0; 0; 0; 0; 0; 0; 0; 4; 0];
   [0; 0; 0; 0; 0; 0; 0; 0; 0; 0; 0; 0; 0; 0; 0; 2; 0];
   [0; 0; 0; 0; 0; 0; 0; 0; 0; 0; 0; 0; 0; 0; 0; 5; 0];
   [0; 0; 0; 0; 0; 0; 0; 0; 0; 0; 0; 0; 0; 0; 0; 3; 0];
   [2; 0; 0; 0; 0; 0; 0; 0; 0; 0; 0; 0; 0; 0; 0; 0; 0];
   [0; 0; 0; 0; 0; 0; 0; 2; 0; 0; 0; 0; 0; 0; 0; 0; 0];
   [0; 0; 0; 0; 0; 0; 0; 0; 0; 0; 0; 0; 1; 0; 0; 0; 0];
   [0; 8; 0; 0; 0; 0; 0; 0; 5; 2; 0; 0; 0; 0; 0; 0; 0];
   [0; 0; 0; 0; 0; 0; 0; 0; 6; 1; 0; 0; 0; 0; 0; 0; 0];
   [0; 3; 0; 3; 1; 0; 2; 0; 4; 0; 0; 0; 0; 0; 1; 6; 0];
   [0; 0; 0; 0; 0; 0; 0; 0; 0; 0; 0; 0; 0; 0; 2; 0; 0];
   [1; 0; 0; 0; 0; 0; 0; 0; 0; 0; 0; 0; 0; 0; 0; 0; 0];
   [3; 131; 0; 131; 131; 131; 131; 131; 131; 131; 131; 131; 131; 131; 131; 131; 0];
   [0; 2; 0; 0; 0; 0; 0; 0; 0; 0; 0; 0; 0; 0; 0; 0; 0];
   [0; 1; 0; 0; 0; 0; 0; 0; 0; 0; 0; 0; 0; 0; 0; 0; 0];
   [0; 0; 0; 2; 0; 0; 0; 0; 3; 0; 0; 0; 0; 0; 0; 0; 0];
   [4; 130; 0; 130; 130; 130; 130; 130; 130; 130; 130; 130; 130; 130; 130; 130; 0];
   [0; 4; 0; 0; 0; 0; 3; 0; 0; 0; 0; 0; 0; 2; 0; 0; 0];
   [0; 0; 0; 0; 0; 0; 0; 0; 0; 0; 0; 0; 0; 0; 3; 0; 0];
   [0; 5; 0; 0; 0; 0; 0; 0; 0; 0; 0; 0; 0; 0; 3; 0; 0];
   [0; 0; 0; 4; 0; 0; 0; 0; 0; 0; 0; 0; 0; 0; 0; 0; 0];
   [0; 0; 0; 0; 0; 0; 0; 1; 0; 0; 0; 0; 0; 0; 0; 0; 1];
   [0; 0; 0; 0; 0; 0; 0; 3; 0; 0; 0; 0; 0; 0; 0; 0; 0];
   [0; 0; 0; 0; 0; 0; 0; 0; 1; 0; 0; 0; 0; 0; 0; 0; 0];
   [0; 0; 0; 0; 0; 0; 0; 0; 2; 0; 0; 0; 0; 0; 0; 0; 2];
   [0; 0; 0; 0; 0; 0; 0; 0; 0; 0; 0; 1; 0; 0; 0; 0; 0];
   [0; 0; 0; 0; 0; 0; 0; 0; 0; 0; 2; 0; 0; 0; 0; 0; 0];
   [0; 0; 0; 0; 0; 0; 0; 0; 0; 0; 3; 0; 0; 0; 0; 0; 0];
   [0; 6; 0; 0; 0; 0; 0; 0; 0; 0; 0; 0; 0; 0; 0; 0; 0];
   [0; 0; 0; 0; 0; 0; 0; 0; 0; 0; 0; 0; 0; 0; 0; 0; 0];
   [0; 7; 0; 0; 0; 0; 0; 0; 0; 0; 0; 0; 0; 1; 0; 0; 0];
   [0; 9; 0; 0; 0; 0; 0; 0; 0; 0; 0; 0; 0; 0; 0; 0; 0];
   [0; 10; 0; 0; 0; 0; 0; 0; 0; 0; 0; 0; 0; 0; 0; 0; 0];
   [5; 0; 0; 0; 0; 0; 0; 0; 0; 0; 0; 0; 0; 0; 0; 0; 0]].
Definition smp_slave_entry_map : list (list Z) :=
  [[2; 0; 1; 0; 0; 0; 0; 0; 0; 0; 0; 0; 0; 0; 0; 0; 0];
   [0; 0; 0; 0; 0; 0; 0; 0; 0; 0; 0; 0; 0; 0; 0; 0; 0];
   [0; 4; 0; 1; 1; 0; 0; 0; 0; 0; 0; 0; 0; 0; 0; 0; 0];
   [0; 0; 0; 0; 0; 1; 2; 0; 0; 0; 1; 0; 0; 0; 0; 0; 0];
   [0; 129; 129; 129; 129; 129; 129; 129; 129; 129; 129; 129; 129; 129; 129; 0; 0];
   [0; 0; 0; 0; 0; 0; 0; 0; 0; 0; 0; 0; 0; 0; 0; 3; 0];
   [0; 0; 0; 0; 0; 0; 0; 0; 0; 0; 0; 0; 0; 0; 0; 5; 0];
   [0; 0; 0; 0; 0; 0; 0; 0; 0; 0; 0; 0; 0; 0; 0; 4; 0];
   [0; 0; 0; 0; 0; 0; 0; 0; 0; 0; 0; 0; 0; 0; 0; 6; 0];
   [0; 0; 0; 0; 0; 0; 0; 0; 0; 0; 0; 0; 0; 0; 0; 2; 0];
   [0; 0; 0; 0; 0; 0; 0; 0; 0; 0; 0; 0; 0; 0; 0; 0; 0];
   [0; 0; 0; 5; 0; 0; 0; 2; 0; 0; 0; 0; 0; 0; 0; 0; 0];
   [0; 5; 0; 0; 0; 0; 0; 0; 0; 0; 0; 2; 1; 2; 0; 0; 0];
   [0; 9; 0; 0; 0; 0; 0; 0; 5; 2; 0; 0; 0; 0; 0; 0; 0];
   [0; 8; 0; 0; 0; 0; 0; 0; 6; 1; 0; 0; 0; 0; 0; 0; 0];
   [0; 3; 0; 3; 2; 2; 1; 0; 4; 0; 0; 0; 0; 0; 2; 1; 0];
   [0; 0; 2; 0; 0; 0; 0; 0; 0; 0; 0; 0; 0; 0; 3; 0; 0];
   [1; 0; 0; 0; 0; 0; 0; 0; 0; 0; 0; 0; 0; 0; 0; 0; 0];
   [0; 131; 131; 131; 131; 131; 131; 131; 131; 131; 131; 131; 131; 131; 131; 131; 0];
   [0; 1; 0; 0; 0; 0; 0; 0; 0; 0; 0; 0; 0; 0; 0; 0; 0];
   [0; 2; 0; 0; 0; 0; 0; 0; 0; 0; 0; 0; 0; 0; 0; 0; 0];
   [0; 0; 0; 2; 0; 0; 0; 0; 3; 0; 0; 0; 0; 0; 0; 0; 0];
   [0; 130; 130; 130; 130; 130; 130; 130; 130; 130; 130; 130; 130; 130; 130; 130; 0];
   [0; 0; 0; 0; 0; 0; 0; 0; 0; 0; 0; 0; 0; 0; 1; 0; 0];
   [0; 0; 0; 0; 0; 0; 0; 0; 0; 0; 0; 0; 0; 0; 4; 0; 0];
   [0; 0; 0; 0; 0; 0; 0; 0; 0; 0; 0; 0; 0; 0; 0; 0; 0];
   [0; 0; 0; 4; 0; 0; 0; 0; 0; 0; 0; 0; 0; 0; 0; 0; 0];
   [0; 0; 0; 0; 0; 0; 0; 1; 0; 0; 0; 0; 0; 0; 0; 0; 1];
   [0; 0; 0; 0; 0; 0; 0; 3; 0; 0; 0; 0; 0; 0; 0; 0; 0];
   [0; 0; 0; 0; 0; 0; 0; 0; 1; 0; 0; 0; 0; 0; 0; 0; 0];
   [0; 0; 0; 0; 0; 0; 0; 0; 2; 0; 0; 0; 0; 0; 0; 0; 2];
   [0; 0; 0; 0; 0; 0; 0; 0; 0; 0; 0; 1; 0; 0; 0; 0; 0];
   [0; 0; 0; 0; 0; 0; 0; 0; 0; 0; 2; 0; 0; 0; 0; 0; 0];
   [0; 0; 0; 0; 0; 0; 0; 0; 0; 0; 3; 0; 0; 0; 0; 0; 0];
   [0; 6; 0; 0; 0; 0; 0; 0; 0; 0; 0; 0; 0; 0; 0; 0; 0];
   [0; 0; 0; 0; 0; 0; 0; 0; 0; 0; 0; 0; 2; 0; 0; 0; 0];
   [0; 7; 0; 0; 0; 0; 0; 0; 0; 0; 0; 0; 0; 1; 0; 0; 0];
   [0; 10; 0; 0; 0; 0; 0; 0; 0; 0; 0; 0; 0; 0; 0; 0; 0];
   [0; 11; 0; 0; 0; 0; 0; 0; 0; 0; 0; 0; 0; 0; 0; 0; 0];
   [3; 0; 0; 0; 0; 0; 0; 0; 0; 0; 0; 0; 0; 0; 0; 0; 0]].

(** ** The state tables *)

(** Two actions and the next state. *)
Definition sm_row : Type := action * action * tSMP_STATE.

Definition smp_all_table : list sm_row :=
  [(SMP_PROC_PAIR_FAIL, SMP_PAIRING_CMPL, SMP_STATE_IDLE);
   (SMP_SEND_PAIR_FAIL, SMP_PAIRING_CMPL, SMP_STATE_IDLE);
   (SMP_PAIR_TERMINATE, SMP_SM_NO_ACTION, SMP_STATE_IDLE)].
Definition smp_master_idle_table : list sm_row :=
  [(SMP_SEND_APP_CBACK, SMP_SM_NO_ACTION, SMP_STATE_WAIT_APP_RSP);
   (SMP_PROC_SEC_REQ, SMP_SEND_APP_CBACK, SMP_STATE_WAIT_APP_RSP);
   (SMP_IDLE_TERMINATE, SMP_SM_NO_ACTION, SMP_STATE_IDLE);
   (SMP_PAIRING_CMPL, SMP_SM_NO_ACTION, SMP_STATE_IDLE);
   (SMP_CREATE_PRIVATE_KEY, SMP_SM_NO_ACTION, SMP_STATE_CREATE_LOCAL_SEC_CONN_OOB_DATA)].
Definition smp_slave_idle_table : list sm_row :=
  [(SMP_SEND_APP_CBACK, SMP_SM_NO_ACTION, SMP_STATE_WAIT_APP_RSP);
   (SMP_PROC_PAIR_CMD, SMP_SEND_APP_CBACK, SMP_STATE_WAIT_APP_RSP);
   (SMP_CREATE_PRIVATE_KEY, SMP_SM_NO_ACTION, SMP_STATE_CREATE_LOCAL_SEC_CONN_OOB_DATA)].
Definition smp_master_wait_for_app_response_table : list sm_row :=
  [(SMP_PROC_SEC_GRANT, SMP_SEND_APP_CBACK, SMP_STATE_WAIT_APP_RSP);
   (SMP_SEND_PAIR_REQ, SMP_FAST_CONN_PARAM, SMP_STATE_PAIR_REQ_RSP);
   (SMP_GENERATE_CONFIRM, SMP_SM_NO_ACTION, SMP_STATE_WAIT_CONFIRM);
   (SMP_START_ENC, SMP_FAST_CONN_PARAM, SMP_STATE_ENCRYPTION_PENDING);
   (SMP_PROC_DISCARD, SMP_SM_NO_ACTION, SMP_STATE_IDLE);
   (SMP_MOVE_TO_SEC_CONN_PHASE2, SMP_SM_NO_ACTION, SMP_STATE_SEC_CONN_PHS2_START);
   (SMP_START_PASSKEY_VERIFICATION, SMP_SM_NO_ACTION, SMP_STATE_SEC_CONN_PHS1_START);
   (SMP_PROCESS_KEYPRESS_NOTIFICATION, SMP_SEND_APP_CBACK, SMP_STATE_WAIT_APP_RSP);
   (SMP_SEND_KEYPRESS_NOTIFICATION, SMP_SM_NO_ACTION, SMP_STATE_WAIT_APP_RSP);
   (SMP_USE_OOB_PRIVATE_KEY, SMP_SM_NO_ACTION, SMP_STATE_PUBLIC_KEY_EXCH)].
Definition smp_slave_wait_for_app_response_table : list sm_row :=
  [(SMP_PROC_IO_RSP, SMP_FAST_CONN_PARAM, SMP_STATE_PAIR_REQ_RSP);
   (SMP_PROC_SEC_GRANT, SMP_SEND_APP_CBACK, SMP_STATE_WAIT_APP_RSP);
   (SMP_PROC_SL_KEY, SMP_SM_NO_ACTION, SMP_STATE_WAIT_APP_RSP);
   (SMP_PROC_CONFIRM, SMP_SM_NO_ACTION, SMP_STATE_CONFIRM);
   (SMP_PROCESS_DHKEY_CHECK, SMP_SM_NO_ACTION, SMP_STATE_WAIT_APP_RSP);
   (SMP_MOVE_TO_SEC_CONN_PHASE2, SMP_SM_NO_ACTION, SMP_STATE_SEC_CONN_PHS2_START);
   (SMP_START_PASSKEY_VERIFICATION, SMP_SM_NO_ACTION, SMP_STATE_SEC_CONN_PHS1_START);
   (SMP_PROCESS_PAIRING_COMMITMENT, SMP_SM_NO_ACTION, SMP_STATE_WAIT_APP_RSP);
   (SMP_PROCESS_KEYPRESS_NOTIFICATION, SMP_SEND_APP_CBACK, SMP_STATE_WAIT_APP_RSP);
   (SMP_SEND_KEYPRESS_NOTIFICATION, SMP_SM_NO_ACTION, SMP_STATE_WAIT_APP_RSP);
   (SMP_SEND_PAIR_RSP, SMP_SM_NO_ACTION, SMP_STATE_PAIR_REQ_RSP)].
Definition smp_slave_sec_request_table : list sm_row :=
  [(SMP_PROC_PAIR_CMD, SMP_SM_NO_ACTION, SMP_STATE_PAIR_REQ_RSP);
   (SMP_ENC_CMPL, SMP_SM_NO_ACTION, SMP_STATE_PAIR_REQ_RSP)].
Definition smp_master_pair_request_response_table : list sm_row :=
  [(SMP_PROC_PAIR_CMD, SMP_SM_NO_ACTION, SMP_STATE_PAIR_REQ_RSP);
   (SMP_SEND_APP_CBACK, SMP_SM_NO_ACTION, SMP_STATE_WAIT_APP_RSP);
   (SMP_GENERATE_CONFIRM, SMP_SM_NO_ACTION, SMP_STATE_WAIT_CONFIRM);
   (SMP_CREATE_PRIVATE_KEY, SMP_SM_NO_ACTION, SMP_STATE_PUBLIC_KEY_EXCH)].
Definition smp_slave_pair_request_response_table : list sm_row :=
  [(SMP_PROC_CONFIRM, SMP_SM_NO_ACTION, SMP_STATE_CONFIRM);
   (SMP_SEND_APP_CBACK, SMP_SM_NO_ACTION, SMP_STATE_WAIT_APP_RSP);
   (SMP_PROC_SL_KEY, SMP_SM_NO_ACTION, SMP_STATE_PAIR_REQ_RSP);
   (SMP_CREATE_PRIVATE_KEY, SMP_SM_NO_ACTION, SMP_STATE_PUBLIC_KEY_EXCH);
   (SMP_PROCESS_PAIR_PUBLIC_KEY, SMP_SM_NO_ACTION, SMP_STATE_PAIR_REQ_RSP)].
Definition smp_master_wait_for_confirm_table : list sm_row :=
  [(SMP_SEND_CONFIRM, SMP_SM_NO_ACTION, SMP_STATE_CONFIRM)].
Definition smp_slave_wait_confirm_table : list sm_row :=
  [(SMP_PROC_CONFIRM, SMP_SEND_CONFIRM, SMP_STATE_CONFIRM);
   (SMP_PROC_SL_KEY, SMP_SM_NO_ACTION, SMP_STATE_WAIT_CONFIRM)].
Definition smp_master_confirm_table : list sm_row :=
  [(SMP_PROC_CONFIRM, SMP_SEND_RAND, SMP_STATE_RAND)].
Definition smp_slave_confirm_table : list sm_row :=
  [(SMP_PROC_RAND, SMP_GENERATE_COMPARE, SMP_STATE_RAND);
   (SMP_PROC_SL_KEY, SMP_SM_NO_ACTION, SMP_STATE_CONFIRM)].
Definition smp_master_rand_table : list sm_row :=
  [(SMP_PROC_RAND, SMP_GENERATE_COMPARE, SMP_STATE_RAND);
   (SMP_PROC_COMPARE, SMP_SM_NO_ACTION, SMP_STATE_RAND);
   (SMP_GENERATE_STK, SMP_SM_NO_ACTION, SMP_STATE_ENCRYPTION_PENDING)].
Definition smp_slave_rand_table : list sm_row :=
  [(SMP_PROC_COMPARE, SMP_SM_NO_ACTION, SMP_STATE_RAND);
   (SMP_SEND_RAND, SMP_SM_NO_ACTION, SMP_STATE_ENCRYPTION_PENDING)].
Definition smp_master_public_key_exchange_table : list sm_row :=
  [(SMP_SEND_PAIR_PUBLIC_KEY, SMP_SM_NO_ACTION, SMP_STATE_PUBLIC_KEY_EXCH);
   (SMP_PROCESS_PAIR_PUBLIC_KEY, SMP_SM_NO_ACTION, SMP_STATE_PUBLIC_KEY_EXCH);
   (SMP_HAVE_BOTH_PUBLIC_KEYS, SMP_SM_NO_ACTION, SMP_STATE_SEC_CONN_PHS1_START)].
Definition smp_slave_public_key_exch_table : list sm_row :=
  [(SMP_WAIT_FOR_BOTH_PUBLIC_KEYS, SMP_SM_NO_ACTION, SMP_STATE_PUBLIC_KEY_EXCH);
   (SMP_PROCESS_PAIR_PUBLIC_KEY, SMP_SM_NO_ACTION, SMP_STATE_PUBLIC_KEY_EXCH);
   (SMP_HAVE_BOTH_PUBLIC_KEYS, SMP_SM_NO_ACTION, SMP_STATE_SEC_CONN_PHS1_START)].
Definition smp_master_sec_conn_phs1_start_table : list sm_row :=
  [(SMP_START_SEC_CONN_PHASE1, SMP_SM_NO_ACTION, SMP_STATE_SEC_CONN_PHS1_START);
   (SMP_PROCESS_LOCAL_NONCE, SMP_SM_NO_ACTION, SMP_STATE_WAIT_COMMITMENT);
   (SMP_SEND_APP_CBACK, SMP_SM_NO_ACTION, SMP_STATE_WAIT_APP_RSP);
   (SMP_START_PASSKEY_VERIFICATION, SMP_SM_NO_ACTION, SMP_STATE_SEC_CONN_PHS1_START);
   (SMP_PROCESS_KEYPRESS_NOTIFICATION, SMP_SEND_APP_CBACK, SMP_STATE_SEC_CONN_PHS1_START);
   (SMP_PROCESS_PAIRING_COMMITMENT, SMP_SM_NO_ACTION, SMP_STATE_SEC_CONN_PHS1_START)].
Definition smp_slave_sec_conn_phs1_start_table : list sm_row :=
  [(SMP_START_SEC_CONN_PHASE1, SMP_SM_NO_ACTION, SMP_STATE_SEC_CONN_PHS1_START);
   (SMP_PROCESS_LOCAL_NONCE, SMP_SM_NO_ACTION, SMP_STATE_WAIT_COMMITMENT);
   (SMP_SEND_APP_CBACK, SMP_SM_NO_ACTION, SMP_STATE_WAIT_APP_RSP);
   (SMP_START_PASSKEY_VERIFICATION, SMP_SM_NO_ACTION, SMP_STATE_SEC_CONN_PHS1_START);
   (SMP_PROCESS_KEYPRESS_NOTIFICATION, SMP_SEND_APP_CBACK, SMP_STATE_SEC_CONN_PHS1_START);
   (SMP_PROCESS_PAIRING_COMMITMENT, SMP_SM_NO_ACTION, SMP_STATE_SEC_CONN_PHS1_START)].
Definition smp_master_wait_commitment_table : list sm_row :=
  [(SMP_PROCESS_PAIRING_COMMITMENT, SMP_SEND_RAND, SMP_STATE_WAIT_NONCE);
   (SMP_PROCESS_KEYPRESS_NOTIFICATION, SMP_SEND_APP_CBACK, SMP_STATE_WAIT_COMMITMENT)].
Definition smp_slave_wait_commitment_table : list sm_row :=
  [(SMP_PROCESS_PAIRING_COMMITMENT, SMP_SEND_COMMITMENT, SMP_STATE_WAIT_NONCE);
   (SMP_PROCESS_KEYPRESS_NOTIFICATION, SMP_SEND_APP_CBACK, SMP_STATE_WAIT_COMMITMENT)].
Definition smp_master_wait_nonce_table : list sm_row :=
  [(SMP_PROC_RAND, SMP_PROCESS_PEER_NONCE, SMP_STATE_SEC_CONN_PHS2_START);
   (SMP_CALCULATE_NUMERIC_COMPARISON_DISPLAY_NUMBER, SMP_SM_NO_ACTION, SMP_STATE_WAIT_NONCE);
   (SMP_SEND_APP_CBACK, SMP_SM_NO_ACTION, SMP_STATE_WAIT_APP_RSP)].
Definition smp_slave_wait_nonce_table : list sm_row :=
  [(SMP_PROC_RAND, SMP_PROCESS_PEER_NONCE, SMP_STATE_SEC_CONN_PHS2_START);
   (SMP_CALCULATE_NUMERIC_COMPARISON_DISPLAY_NUMBER, SMP_SM_NO_ACTION, SMP_STATE_WAIT_NONCE);
   (SMP_SEND_APP_CBACK, SMP_SM_NO_ACTION, SMP_STATE_WAIT_APP_RSP)].
Definition smp_master_sec_conn_phs2_start_table : list sm_row :=
  [(SMP_CALCULATE_LOCAL_DHKEY_CHECK, SMP_SEND_DHKEY_CHECK, SMP_STATE_WAIT_DHK_CHECK)].
Definition smp_slave_sec_conn_phs2_start_table : list sm_row :=
  [(SMP_CALCULATE_LOCAL_DHKEY_CHECK, SMP_PH2_DHKEY_CHECKS_ARE_PRESENT, SMP_STATE_WAIT_DHK_CHECK);
   (SMP_PROCESS_DHKEY_CHECK, SMP_SM_NO_ACTION, SMP_STATE_SEC_CONN_PHS2_START)].
Definition smp_master_wait_dhk_check_table : list sm_row :=
  [(SMP_PROCESS_DHKEY_CHECK, SMP_CALCULATE_PEER_DHKEY_CHECK, SMP_STATE_DHK_CHECK)].
Definition smp_slave_wait_dhk_check_table : list sm_row :=
  [(SMP_PROCESS_DHKEY_CHECK, SMP_CALCULATE_PEER_DHKEY_CHECK, SMP_STATE_DHK_CHECK);
   (SMP_CALCULATE_PEER_DHKEY_CHECK, SMP_SM_NO_ACTION, SMP_STATE_DHK_CHECK)].
Definition smp_master_dhk_check_table : list sm_row :=
  [(SMP_MATCH_DHKEY_CHECKS, SMP_SM_NO_ACTION, SMP_STATE_DHK_CHECK);
   (SMP_GENERATE_STK, SMP_SM_NO_ACTION, SMP_STATE_ENCRYPTION_PENDING)].
Definition smp_slave_dhk_check_table : list sm_row :=
  [(SMP_MATCH_DHKEY_CHECKS, SMP_SM_NO_ACTION, SMP_STATE_DHK_CHECK);
   (SMP_SEND_DHKEY_CHECK, SMP_SM_NO_ACTION, SMP_STATE_ENCRYPTION_PENDING)].
Definition smp_master_enc_pending_table : list sm_row :=
  [(SMP_START_ENC, SMP_SM_NO_ACTION, SMP_STATE_ENCRYPTION_PENDING);
   (SMP_CHECK_AUTH_REQ, SMP_SM_NO_ACTION, SMP_STATE_ENCRYPTION_PENDING);
   (SMP_KEY_DISTRIBUTE, SMP_SM_NO_ACTION, SMP_STATE_BOND_PENDING)].
Definition smp_slave_enc_pending_table : list sm_row :=
  [(SMP_GENERATE_STK, SMP_SM_NO_ACTION, SMP_STATE_ENCRYPTION_PENDING);
   (SMP_SEND_LTK_REPLY, SMP_SM_NO_ACTION, SMP_STATE_ENCRYPTION_PENDING);
   (SMP_CHECK_AUTH_REQ, SMP_SM_NO_ACTION, SMP_STATE_ENCRYPTION_PENDING);
   (SMP_KEY_DISTRIBUTE, SMP_SM_NO_ACTION, SMP_STATE_BOND_PENDING)].
Definition smp_master_bond_pending_table : list sm_row :=
  [(SMP_PROC_ENC_INFO, SMP_SM_NO_ACTION, SMP_STATE_BOND_PENDING);
   (SMP_PROC_ID_INFO, SMP_SM_NO_ACTION, SMP_STATE_BOND_PENDING);
   (SMP_PROC_SRK_INFO, SMP_SM_NO_ACTION, SMP_STATE_BOND_PENDING);
   (SMP_PROC_MASTER_ID, SMP_SM_NO_ACTION, SMP_STATE_BOND_PENDING);
   (SMP_PROC_ID_ADDR, SMP_SM_NO_ACTION, SMP_STATE_BOND_PENDING);
   (SMP_SEND_ENC_INFO, SMP_SM_NO_ACTION, SMP_STATE_BOND_PENDING)].
Definition smp_slave_bond_pending_table : list sm_row :=
  [(SMP_SEND_ENC_INFO, SMP_SM_NO_ACTION, SMP_STATE_BOND_PENDING);
   (SMP_PROC_SRK_INFO, SMP_SM_NO_ACTION, SMP_STATE_BOND_PENDING);
   (SMP_PROC_ENC_INFO, SMP_SM_NO_ACTION, SMP_STATE_BOND_PENDING);
   (SMP_PROC_ID_INFO, SMP_SM_NO_ACTION, SMP_STATE_BOND_PENDING);
   (SMP_PROC_MASTER_ID, SMP_SM_NO_ACTION, SMP_STATE_BOND_PENDING);
   (SMP_PROC_ID_ADDR, SMP_SM_NO_ACTION, SMP_STATE_BOND_PENDING)].
Definition smp_master_create_local_sec_conn_oob_data : list sm_row :=
  [(SMP_SET_LOCAL_OOB_KEYS, SMP_SM_NO_ACTION, SMP_STATE_CREATE_LOCAL_SEC_CONN_OOB_DATA);
   (SMP_SET_LOCAL_OOB_RAND_COMMITMENT, SMP_SM_NO_ACTION, SMP_STATE_IDLE)].
Definition smp_slave_create_local_sec_conn_oob_data : list sm_row :=
  [(SMP_SET_LOCAL_OOB_KEYS, SMP_SM_NO_ACTION, SMP_STATE_CREATE_LOCAL_SEC_CONN_OOB_DATA);
   (SMP_SET_LOCAL_OOB_RAND_COMMITMENT, SMP_SM_NO_ACTION, SMP_STATE_IDLE)].

(** [None] is the null pointer. *)
Definition smp_state_table (s : tSMP_STATE) (r : role_t) : option (list sm_row) :=
  match s, r with
  | SMP_STATE_IDLE, HCI_ROLE_MASTER => Some smp_master_idle_table
  | SMP_STATE_IDLE, HCI_ROLE_SLAVE => Some smp_slave_idle_table
  | SMP_STATE_WAIT_APP_RSP, HCI_ROLE_MASTER => Some smp_master_wait_for_app_response_table
  | SMP_STATE_WAIT_APP_RSP, HCI_ROLE_SLAVE => Some smp_slave_wait_for_app_response_table
  | SMP_STATE_SEC_REQ_PENDING, HCI_ROLE_MASTER => None
  | SMP_STATE_SEC_REQ_PENDING, HCI_ROLE_SLAVE => Some smp_slave_sec_request_table
  | SMP_STATE_PAIR_REQ_RSP, HCI_ROLE_MASTER => Some smp_master_pair_request_response_table
  | SMP_STATE_PAIR_REQ_RSP, HCI_ROLE_SLAVE => Some smp_slave_pair_request_response_table
  | SMP_STATE_WAIT_CONFIRM, HCI_ROLE_MASTER => Some smp_master_wait_for_confirm_table
  | SMP_STATE_WAIT_CONFIRM, HCI_ROLE_SLAVE => Some smp_slave_wait_confirm_table
  | SMP_STATE_CONFIRM, HCI_ROLE_MASTER => Some smp_master_confirm_table
  | SMP_STATE_CONFIRM, HCI_ROLE_SLAVE => Some smp_slave_confirm_table
  | SMP_STATE_RAND, HCI_ROLE_MASTER => Some smp_master_rand_table
  | SMP_STATE_RAND, HCI_ROLE_SLAVE => Some smp_slave_rand_table
  | SMP_STATE_PUBLIC_KEY_EXCH, HCI_ROLE_MASTER => Some smp_master_public_key_exchange_table
  | SMP_STATE_PUBLIC_KEY_EXCH, HCI_ROLE_SLAVE => Some smp_slave_public_key_exch_table
  | SMP_STATE_SEC_CONN_PHS1_START, HCI_ROLE_MASTER => Some smp_master_sec_conn_phs1_start_table
  | SMP_STATE_SEC_CONN_PHS1_START, HCI_ROLE_SLAVE => Some smp_slave_sec_conn_phs1_start_table
  | SMP_STATE_WAIT_COMMITMENT, HCI_ROLE_MASTER => Some smp_master_wait_commitment_table
  | SMP_STATE_WAIT_COMMITMENT, HCI_ROLE_SLAVE => Some smp_slave_wait_commitment_table
  | SMP_STATE_WAIT_NONCE, HCI_ROLE_MASTER => Some smp_master_wait_nonce_table
  | SMP_STATE_WAIT_NONCE, HCI_ROLE_SLAVE => Some smp_slave_wait_nonce_table
  | SMP_STATE_SEC_CONN_PHS2_START, HCI_ROLE_MASTER => Some smp_master_sec_conn_phs2_start_table
  | SMP_STATE_SEC_CONN_PHS2_START, HCI_ROLE_SLAVE => Some smp_slave_sec_conn_phs2_start_table
  | SMP_STATE_WAIT_DHK_CHECK, HCI_ROLE_MASTER => Some smp_master_wait_dhk_check_table
  | SMP_STATE_WAIT_DHK_CHECK, HCI_ROLE_SLAVE => Some smp_slave_wait_dhk_check_table
  | SMP_STATE_DHK_CHECK, HCI_ROLE_MASTER => Some smp_master_dhk_check_table
  | SMP_STATE_DHK_CHECK, HCI_ROLE_SLAVE => Some smp_slave_dhk_check_table
  | SMP_STATE_ENCRYPTION_PENDING, HCI_ROLE_MASTER => Some smp_master_enc_pending_table
  | SMP_STATE_ENCRYPTION_PENDING, HCI_ROLE_SLAVE => Some smp_slave_enc_pending_table
  | SMP_STATE_BOND_PENDING, HCI_ROLE_MASTER => Some smp_master_bond_pending_table
  | SMP_STATE_BOND_PENDING, HCI_ROLE_SLAVE => Some smp_slave_bond_pending_table
  | SMP_STATE_CREATE_LOCAL_SEC_CONN_OOB_DATA, HCI_ROLE_MASTER => Some smp_master_create_local_sec_conn_oob_data
  | SMP_STATE_CREATE_LOCAL_SEC_CONN_OOB_DATA, HCI_ROLE_SLAVE => Some smp_slave_create_local_sec_conn_oob_data
  end.

Definition smp_entry_table (r : role_t) : list (list Z) :=
  match r with HCI_ROLE_MASTER => smp_master_entry_map | HCI_ROLE_SLAVE => smp_slave_entry_map end.

(** The row for an event, [None] for an event that is ignored.  The bit 128 of an
    entry selects the table for all states. *)
Definition sm_lookup (r : role_t) (s : tSMP_STATE) (e : tSMP_EVENT) : outcome (option sm_row) :=
  row ← index (smp_entry_table r) (event_number e - 1);
  entry ← index row (state_number s);
  if entry =? 0 then Ok None else
  table ← (if negb (Z.land entry 128 =? 0) then Ok smp_all_table
           else match smp_state_table s r with Some t => Ok t | None => Fault NullDeref end);
  row ← index table (Z.land entry 127 - 1);
  Ok (Some row).
