(* ===== verification/SmpCb.v ===== *)
(** * The pairing engine: its data and its surroundings

    The control block [smp_cb] of [src/components/bt/bluedroid/stack/smp/include/smp_int.h],
    the data that events carry, what the engine asks of the rest of the Bluetooth
    stack, and the state monad of its functions.  The fields for pairing over BR/EDR
    ([smp_over_br], [br_state]) are left out: they are 0 on a build without classic
    Bluetooth. *)

From S2P Require Import Prelude Aes Cmac MultiPrecision Ecc Smp SmpTables.

Abbreviation zeros n := (replicate n 0).

(** ** Constants *)

Definition SMP_OPCODE_CONFIRM : Z := 3.
Definition SMP_OPCODE_RAND : Z := 4.
Definition SMP_OPCODE_PAIRING_FAILED : Z := 5.
Definition SMP_OPCODE_ENCRYPT_INFO : Z := 6.
Definition SMP_OPCODE_MASTER_ID : Z := 7.
Definition SMP_OPCODE_IDENTITY_INFO : Z := 8.
Definition SMP_OPCODE_ID_ADDR : Z := 9.
Definition SMP_OPCODE_SIGN_INFO : Z := 10.
Definition SMP_OPCODE_SEC_REQ : Z := 11.
Definition SMP_OPCODE_PAIR_PUBLIC_KEY : Z := 12.
Definition SMP_OPCODE_PAIR_DHKEY_CHECK : Z := 13.
Definition SMP_OPCODE_PAIR_KEYPR_NOTIF : Z := 14.
Definition SMP_OPCODE_MAX : Z := SMP_OPCODE_PAIR_KEYPR_NOTIF.
Definition SMP_OPCODE_MIN : Z := SMP_OPCODE_PAIRING_REQ.
Definition SMP_OPCODE_PAIR_COMMITM : Z := 15.

Definition SMP_IO_CAP_REQ_EVT : Z := 1.
Definition SMP_SEC_REQUEST_EVT : Z := 2.
Definition SMP_PASSKEY_NOTIF_EVT : Z := 3.
Definition SMP_PASSKEY_REQ_EVT : Z := 4.
Definition SMP_OOB_REQ_EVT : Z := 5.
Definition SMP_NC_REQ_EVT : Z := 6.
Definition SMP_COMPLT_EVT : Z := 7.
Definition SMP_PEER_KEYPR_NOT_EVT : Z := 8.
Definition SMP_SC_OOB_REQ_EVT : Z := 9.
Definition SMP_SC_LOC_OOB_DATA_UP_EVT : Z := 10.

Definition SMP_SUCCESS : Z := 0.
Definition SMP_PASSKEY_ENTRY_FAIL : Z := 1.
Definition SMP_OOB_FAIL : Z := 2.
Definition SMP_PAIR_AUTH_FAIL : Z := 3.
Definition SMP_CONFIRM_VALUE_ERR : Z := 4.
Definition SMP_PAIR_NOT_SUPPORT : Z := 5.
Definition SMP_PAIR_FAIL_UNKNOWN : Z := 8.
Definition SMP_INVALID_PARAMETERS : Z := 10.
Definition SMP_DHKEY_CHK_FAIL : Z := 11.
Definition SMP_NUMERIC_COMPAR_FAIL : Z := 12.
Definition SMP_MAX_FAIL_RSN_PER_SPEC : Z := 14.
Definition SMP_PAIR_INTERNAL_ERR : Z := SMP_MAX_FAIL_RSN_PER_SPEC + 1.
Definition SMP_UNKNOWN_IO_CAP : Z := SMP_MAX_FAIL_RSN_PER_SPEC + 2.
Definition SMP_BUSY : Z := SMP_MAX_FAIL_RSN_PER_SPEC + 5.
Definition SMP_ENC_FAIL : Z := SMP_MAX_FAIL_RSN_PER_SPEC + 6.
Definition SMP_STARTED : Z := SMP_MAX_FAIL_RSN_PER_SPEC + 7.
Definition SMP_RSP_TIMEOUT : Z := SMP_MAX_FAIL_RSN_PER_SPEC + 8.
Definition SMP_FAIL : Z := SMP_MAX_FAIL_RSN_PER_SPEC + 10.
Definition SMP_CONN_TOUT : Z := SMP_MAX_FAIL_RSN_PER_SPEC + 11.

Definition SMP_IO_CAP_IN : Z := 2.
Definition SMP_IO_CAP_KBDISP : Z := 4.
Definition SMP_IO_CAP_MAX : Z := 5.
Definition SMP_OOB_NONE : Z := 0.
Definition SMP_OOB_PRESENT : Z := 1.
Definition SMP_OOB_INVALID_TYPE : Z := 0.
Definition SMP_OOB_PEER : Z := 1.
Definition SMP_OOB_LOCAL : Z := 2.
Definition SMP_OOB_BOTH : Z := 3.
Definition SMP_AUTH_NO_BOND : Z := 0.
Definition SMP_AUTH_BOND : Z := 1.
Definition SMP_AUTH_YN_BIT : Z := 4.
Definition SMP_SC_SUPPORT_BIT : Z := 8.
Definition SMP_KP_SUPPORT_BIT : Z := 16.
Definition SMP_SEC_UNAUTHENTICATE : Z := 1.
Definition SMP_SEC_AUTHENTICATED : Z := 4.
Definition SMP_ENCR_KEY_SIZE_MIN : Z := 7.
Definition SMP_ENCR_KEY_SIZE_MAX : Z := 16.
Definition SMP_SEC_KEY_TYPE_ENC : Z := 1.
Definition SMP_SEC_KEY_TYPE_ID : Z := 2.
Definition SMP_SEC_KEY_TYPE_CSRK : Z := 4.
Definition SMP_SEC_KEY_TYPE_LK : Z := 8.
Definition SMP_SEC_DEFAULT_KEY : Z := 15.
Definition SMP_MAX_ENC_KEY_SIZE : Z := 16.
Definition SMP_DEFAULT_AUTH_REQ : Z := 0.
Definition BTM_SP_KEY_OUT_OF_RANGE : Z := 5.
Definition BLE_ADDR_PUBLIC : Z := 0.

Definition SMP_PAIR_FLAGS_WE_STARTED_DD : Z := 1.
Definition SMP_PAIR_FLAGS_CMD_CONFIRM : Z := 8.
Definition SMP_PAIR_FLAG_ENC_AFTER_PAIR : Z := 16.
Definition SMP_PAIR_FLAG_HAVE_PEER_DHK_CHK : Z := 32.
Definition SMP_PAIR_FLAG_HAVE_PEER_PUBL_KEY : Z := 64.
Definition SMP_PAIR_FLAG_HAVE_PEER_COMM : Z := 128.
Definition SMP_PAIR_FLAG_HAVE_LOCAL_PUBL_KEY : Z := 256.

(** [x & m] as a condition, and [x &= ~m]. *)
Definition has (x m : Z) : bool := negb (Z.land x m =? 0).
Definition without (x m : Z) : Z := Z.ldiff x m.
Definition SMP_NO_MITM_REQUIRED (x : Z) : bool := negb (has x SMP_AUTH_YN_BIT).

(** ** Data *)

Record tSMP_PUBLIC_KEY := { publ_x : list Z; publ_y : list Z }.
Record tSMP_LOC_OOB_DATA := {
  loc_present : bool; loc_randomizer : list Z; loc_commitment : list Z; addr_sent_to : list Z * Z;
  private_key_used : list Z; publ_key_used : tSMP_PUBLIC_KEY }.
Record tSMP_PEER_OOB_DATA := {
  peer_present : bool; peer_randomizer : list Z; peer_commitment : list Z; addr_rcvd_from : list Z * Z }.
Record tSMP_SC_OOB_DATA := { loc_oob_data : tSMP_LOC_OOB_DATA; peer_oob_data : tSMP_PEER_OOB_DATA }.
Record tSMP_IO_REQ := {
  io_cap : Z; oob_data : Z; auth_req : Z; max_key_size : Z; init_keys : Z; resp_keys : Z }.

Inductive rand_enc_proc :=
| SMP_GEN_NONE | SMP_GEN_COMPARE | SMP_GEN_CONFIRM | SMP_GEN_DIV_LTK | SMP_GEN_DIV_CSRK | SMP_GEN_RAND_V | SMP_GEN_TK
| SMP_GEN_SRAND_MRAND | SMP_GEN_SRAND_MRAND_CONT
| SMP_GENERATE_PRIVATE_KEY_0_7 | SMP_GENERATE_PRIVATE_KEY_8_15 | SMP_GENERATE_PRIVATE_KEY_16_23
| SMP_GENERATE_PRIVATE_KEY_24_31 | SMP_GEN_NONCE_0_7 | SMP_GEN_NONCE_8_15.
Inductive key_type_t := SMP_KEY_TYPE_TK | SMP_KEY_TYPE_CFM | SMP_KEY_TYPE_CMP | SMP_KEY_TYPE_PEER_DHK_CHCK
| SMP_KEY_TYPE_STK | SMP_KEY_TYPE_LTK.
Inductive tBTM_BLE_SEC_REQ_ACT := BTM_BLE_SEC_REQ_ACT_NONE | BTM_BLE_SEC_REQ_ACT_ENCRYPT | BTM_BLE_SEC_REQ_ACT_PAIR
| BTM_BLE_SEC_REQ_ACT_DISCARD.
Inductive tBTM_STATUS := BTM_CMD_STARTED | BTM_BUSY | BTM_OTHER_STATUS.
Inductive security_mode_t := BTM_SEC_MODE_SC | BTM_SEC_MODE_SP | BTM_SEC_MODE_OTHER.

#[export] Instance key_type_eq_dec : EqDecision key_type_t.
Proof. solve_decision. Defined.
#[export] Instance asso_model_eq_dec : EqDecision association_model.
Proof. solve_decision. Defined.

Definition no_publ_key : tSMP_PUBLIC_KEY := {| publ_x := zeros 32; publ_y := zeros 32 |}.
Definition no_oob_data : tSMP_SC_OOB_DATA :=
  {| loc_oob_data := {| loc_present := false; loc_randomizer := zeros 16; loc_commitment := zeros 16;
                        addr_sent_to := (zeros 6, 0); private_key_used := zeros 32; publ_key_used := no_publ_key |};
     peer_oob_data := {| peer_present := false; peer_randomizer := zeros 16; peer_commitment := zeros 16;
                         addr_rcvd_from := (zeros 6, 0) |} |}.

(** The control block.  [p_callback] is whether an application has registered. *)
Record smp_cb := Build_smp_cb {
  p_callback : bool; pairing_bda : list Z; state : tSMP_STATE; derive_lk : bool; id_addr_rcvd : bool;
  id_addr_type : Z; id_addr : list Z; failure : Z; status : Z; role : role_t; flags : Z; cb_evt : Z;
  sec_level : Z; connect_initialized : bool; confirm : list Z; rconfirm : list Z; rrand : list Z;
  rand : list Z; private_key : list Z; dhkey : list Z; commitment : list Z; remote_commitment : list Z;
  local_random : list Z; peer_random : list Z; dhkey_check : list Z; remote_dhkey_check : list Z;
  loc_publ_key : tSMP_PUBLIC_KEY; peer_publ_key : tSMP_PUBLIC_KEY; req_oob_type : Z;
  sc_oob_data : tSMP_SC_OOB_DATA; peer_io_caps : Z; local_io_capability : Z; peer_oob_flag : Z;
  loc_oob_flag : Z; peer_auth_req : Z; loc_auth_req : Z; secure_connections_only_mode_required : bool;
  selected_association_model : association_model; le_secure_connections_mode_is_used : bool;
  local_keypress_notification : Z; peer_keypress_notification : Z; round : Z; number_to_display : Z;
  mac_key : list Z; peer_enc_size : Z; loc_enc_size : Z; peer_i_key : Z; peer_r_key : Z; local_i_key : Z;
  local_r_key : Z; tk : list Z; ltk : list Z; div : Z; csrk : list Z; ediv : Z; enc_rand : list Z;
  rand_enc_proc_state : rand_enc_proc; is_pair_cancel : bool; discard_sec_req : bool; rcvd_cmd_code : Z;
  rcvd_cmd_len : Z; total_tx_unacked : Z; wait_for_authorization_complete : bool }.
Definition cb_zero : smp_cb := Build_smp_cb
  false (zeros 6) SMP_STATE_IDLE false false 0 (zeros 6) 0 0 HCI_ROLE_MASTER 0 0 0 false (zeros 16) (zeros 16)
  (zeros 16) (zeros 16) (zeros 32) (zeros 32) (zeros 16) (zeros 16) (zeros 16) (zeros 16) (zeros 16) (zeros 16)
  no_publ_key no_publ_key 0 no_oob_data 0 0 0 0 0 0 false SMP_MODEL_ENCRYPTION_ONLY false 0 0 0 0 (zeros 16) 0
  0 0 0 0 0 (zeros 16) (zeros 16) 0 (zeros 16) 0 (zeros 8) SMP_GEN_NONE false false 0 0 0 false.
Definition eta (s : smp_cb) : smp_cb := Build_smp_cb
  (p_callback s) (pairing_bda s) (state s) (derive_lk s) (id_addr_rcvd s) (id_addr_type s) (id_addr s)
  (failure s) (status s) (role s) (flags s) (cb_evt s) (sec_level s) (connect_initialized s) (confirm s)
  (rconfirm s) (rrand s) (rand s) (private_key s) (dhkey s) (commitment s) (remote_commitment s)
  (local_random s) (peer_random s) (dhkey_check s) (remote_dhkey_check s) (loc_publ_key s) (peer_publ_key s)
  (req_oob_type s) (sc_oob_data s) (peer_io_caps s) (local_io_capability s) (peer_oob_flag s) (loc_oob_flag s)
  (peer_auth_req s) (loc_auth_req s) (secure_connections_only_mode_required s) (selected_association_model s)
  (le_secure_connections_mode_is_used s) (local_keypress_notification s) (peer_keypress_notification s)
  (round s) (number_to_display s) (mac_key s) (peer_enc_size s) (loc_enc_size s) (peer_i_key s) (peer_r_key s)
  (local_i_key s) (local_r_key s) (tk s) (ltk s) (div s) (csrk s) (ediv s) (enc_rand s) (rand_enc_proc_state s)
  (is_pair_cancel s) (discard_sec_req s) (rcvd_cmd_code s) (rcvd_cmd_len s) (total_tx_unacked s)
  (wait_for_authorization_complete s).

(** The assignments to its fields. *)
Ltac set_field eta f v s :=
  let e := eval cbv beta delta [eta] in (eta s) in
  let e := eval pattern (f s) in e in
  match e with ?g _ => let r := eval cbv beta in (g v) in exact r end.
Definition set_p_callback (v : bool) (s : smp_cb) : smp_cb := ltac:(set_field eta p_callback v s).
Definition set_pairing_bda (v : list Z) (s : smp_cb) : smp_cb := ltac:(set_field eta pairing_bda v s).
Definition set_state (v : tSMP_STATE) (s : smp_cb) : smp_cb := ltac:(set_field eta state v s).
Definition set_derive_lk (v : bool) (s : smp_cb) : smp_cb := ltac:(set_field eta derive_lk v s).
Definition set_id_addr_rcvd (v : bool) (s : smp_cb) : smp_cb := ltac:(set_field eta id_addr_rcvd v s).
Definition set_id_addr_type (v : Z) (s : smp_cb) : smp_cb := ltac:(set_field eta id_addr_type v s).
Definition set_id_addr (v : list Z) (s : smp_cb) : smp_cb := ltac:(set_field eta id_addr v s).
Definition set_failure (v : Z) (s : smp_cb) : smp_cb := ltac:(set_field eta failure v s).
Definition set_status (v : Z) (s : smp_cb) : smp_cb := ltac:(set_field eta status v s).
Definition set_role (v : role_t) (s : smp_cb) : smp_cb := ltac:(set_field eta role v s).
Definition set_flags (v : Z) (s : smp_cb) : smp_cb := ltac:(set_field eta flags v s).
Definition set_cb_evt (v : Z) (s : smp_cb) : smp_cb := ltac:(set_field eta cb_evt v s).
Definition set_sec_level (v : Z) (s : smp_cb) : smp_cb := ltac:(set_field eta sec_level v s).
Definition set_connect_initialized (v : bool) (s : smp_cb) : smp_cb := ltac:(set_field eta connect_initialized v s).
Definition set_confirm (v : list Z) (s : smp_cb) : smp_cb := ltac:(set_field eta confirm v s).
Definition set_rconfirm (v : list Z) (s : smp_cb) : smp_cb := ltac:(set_field eta rconfirm v s).
Definition set_rrand (v : list Z) (s : smp_cb) : smp_cb := ltac:(set_field eta rrand v s).
Definition set_rand (v : list Z) (s : smp_cb) : smp_cb := ltac:(set_field eta rand v s).
Definition set_private_key (v : list Z) (s : smp_cb) : smp_cb := ltac:(set_field eta private_key v s).
Definition set_dhkey (v : list Z) (s : smp_cb) : smp_cb := ltac:(set_field eta dhkey v s).
Definition set_commitment (v : list Z) (s : smp_cb) : smp_cb := ltac:(set_field eta commitment v s).
Definition set_remote_commitment (v : list Z) (s : smp_cb) : smp_cb := ltac:(set_field eta remote_commitment v s).
Definition set_local_random (v : list Z) (s : smp_cb) : smp_cb := ltac:(set_field eta local_random v s).
Definition set_peer_random (v : list Z) (s : smp_cb) : smp_cb := ltac:(set_field eta peer_random v s).
Definition set_dhkey_check (v : list Z) (s : smp_cb) : smp_cb := ltac:(set_field eta dhkey_check v s).
Definition set_remote_dhkey_check (v : list Z) (s : smp_cb) : smp_cb := ltac:(set_field eta remote_dhkey_check v s).
Definition set_loc_publ_key (v : tSMP_PUBLIC_KEY) (s : smp_cb) : smp_cb := ltac:(set_field eta loc_publ_key v s).
Definition set_peer_publ_key (v : tSMP_PUBLIC_KEY) (s : smp_cb) : smp_cb := ltac:(set_field eta peer_publ_key v s).
Definition set_req_oob_type (v : Z) (s : smp_cb) : smp_cb := ltac:(set_field eta req_oob_type v s).
Definition set_sc_oob_data (v : tSMP_SC_OOB_DATA) (s : smp_cb) : smp_cb := ltac:(set_field eta sc_oob_data v s).
Definition set_peer_io_caps (v : Z) (s : smp_cb) : smp_cb := ltac:(set_field eta peer_io_caps v s).
Definition set_local_io_capability (v : Z) (s : smp_cb) : smp_cb := ltac:(set_field eta local_io_capability v s).
Definition set_peer_oob_flag (v : Z) (s : smp_cb) : smp_cb := ltac:(set_field eta peer_oob_flag v s).
Definition set_loc_oob_flag (v : Z) (s : smp_cb) : smp_cb := ltac:(set_field eta loc_oob_flag v s).
Definition set_peer_auth_req (v : Z) (s : smp_cb) : smp_cb := ltac:(set_field eta peer_auth_req v s).
Definition set_loc_auth_req (v : Z) (s : smp_cb) : smp_cb := ltac:(set_field eta loc_auth_req v s).
Definition set_secure_connections_only_mode_required (v : bool) (s : smp_cb) : smp_cb := ltac:(set_field eta secure_connections_only_mode_required v s).
Definition set_selected_association_model (v : association_model) (s : smp_cb) : smp_cb := ltac:(set_field eta selected_association_model v s).
Definition set_le_secure_connections_mode_is_used (v : bool) (s : smp_cb) : smp_cb := ltac:(set_field eta le_secure_connections_mode_is_used v s).
Definition set_local_keypress_notification (v : Z) (s : smp_cb) : smp_cb := ltac:(set_field eta local_keypress_notification v s).
Definition set_peer_keypress_notification (v : Z) (s : smp_cb) : smp_cb := ltac:(set_field eta peer_keypress_notification v s).
Definition set_round (v : Z) (s : smp_cb) : smp_cb := ltac:(set_field eta round v s).
Definition set_number_to_display (v : Z) (s : smp_cb) : smp_cb := ltac:(set_field eta number_to_display v s).
Definition set_mac_key (v : list Z) (s : smp_cb) : smp_cb := ltac:(set_field eta mac_key v s).
Definition set_peer_enc_size (v : Z) (s : smp_cb) : smp_cb := ltac:(set_field eta peer_enc_size v s).
Definition set_loc_enc_size (v : Z) (s : smp_cb) : smp_cb := ltac:(set_field eta loc_enc_size v s).
Definition set_peer_i_key (v : Z) (s : smp_cb) : smp_cb := ltac:(set_field eta peer_i_key v s).
Definition set_peer_r_key (v : Z) (s : smp_cb) : smp_cb := ltac:(set_field eta peer_r_key v s).
Definition set_local_i_key (v : Z) (s : smp_cb) : smp_cb := ltac:(set_field eta local_i_key v s).
Definition set_local_r_key (v : Z) (s : smp_cb) : smp_cb := ltac:(set_field eta local_r_key v s).
Definition set_tk (v : list Z) (s : smp_cb) : smp_cb := ltac:(set_field eta tk v s).
Definition set_ltk (v : list Z) (s : smp_cb) : smp_cb := ltac:(set_field eta ltk v s).
Definition set_div (v : Z) (s : smp_cb) : smp_cb := ltac:(set_field eta div v s).
Definition set_csrk (v : list Z) (s : smp_cb) : smp_cb := ltac:(set_field eta csrk v s).
Definition set_ediv (v : Z) (s : smp_cb) : smp_cb := ltac:(set_field eta ediv v s).
Definition set_enc_rand (v : list Z) (s : smp_cb) : smp_cb := ltac:(set_field eta enc_rand v s).
Definition set_rand_enc_proc_state (v : rand_enc_proc) (s : smp_cb) : smp_cb := ltac:(set_field eta rand_enc_proc_state v s).
Definition set_is_pair_cancel (v : bool) (s : smp_cb) : smp_cb := ltac:(set_field eta is_pair_cancel v s).
Definition set_discard_sec_req (v : bool) (s : smp_cb) : smp_cb := ltac:(set_field eta discard_sec_req v s).
Definition set_rcvd_cmd_code (v : Z) (s : smp_cb) : smp_cb := ltac:(set_field eta rcvd_cmd_code v s).
Definition set_rcvd_cmd_len (v : Z) (s : smp_cb) : smp_cb := ltac:(set_field eta rcvd_cmd_len v s).
Definition set_total_tx_unacked (v : Z) (s : smp_cb) : smp_cb := ltac:(set_field eta total_tx_unacked v s).
Definition set_wait_for_authorization_complete (v : bool) (s : smp_cb) : smp_cb := ltac:(set_field eta wait_for_authorization_complete v s).

(** What an event carries: the null pointer, the bytes of a command behind its
    code, a byte such as a reason, a key, a number of 32 bits, or the type of the
    wanted out of band data. *)
Inductive int_data :=
| D_null | D_bytes (p : list Z) | D_u8 (v : Z) | D_key (key_type : key_type_t) (p_data : list Z)
| D_passkey (v : Z) | D_oob_type (v : Z).

(** [*(UINT8 * )p_data], [p_data->key], [p_data->passkey], [p_data->req_oob_type] and
    the command as bytes.  Data of another kind is not readable so. *)
Definition data_u8 (d : int_data) : outcome Z :=
  match d with
  | D_null => Fault NullDeref
  | D_bytes p => load p 0
  | D_u8 v | D_oob_type v => Ok v
  | D_passkey v => Ok (u8 v)
  | D_key _ _ => Fault UninitRead
  end.
Definition data_key (d : int_data) : outcome (key_type_t * list Z) :=
  match d with D_key t p => Ok (t, p) | D_null => Fault NullDeref | _ => Fault OobRead end.
Definition data_passkey (d : int_data) : outcome Z :=
  match d with D_passkey v => Ok v | D_null => Fault NullDeref | _ => Fault OobRead end.
Definition data_oob_type (d : int_data) : outcome Z :=
  match d with D_oob_type v => Ok v | D_null => Fault NullDeref | _ => Fault OobRead end.
Definition data_bytes (d : int_data) : outcome (list Z) :=
  match d with D_bytes p => Ok p | D_null => Fault NullDeref | _ => Fault OobRead end.

(** ** What the engine does to its surroundings *)

(** The data of a call of the application, by the event. *)
Inductive cb_data_t :=
| CB_none | CB_io_req (r : tSMP_IO_REQ) | CB_passkey (v : Z) | CB_oob_type (v : Z) | CB_loc_oob (d : tSMP_LOC_OOB_DATA)
| CB_cmplt (reason sec_level : Z) (is_pair_cancel : bool).
Inductive le_key :=
| LENC (ltk : list Z) (div key_size sec_level : Z) | PENC (ltk rand : list Z) (ediv sec_level key_size : Z)
| LID | PID (irk : list Z) (addr_type : Z) (static_addr : list Z)
| LCSRK (counter div sec_level : Z) (csrk : list Z) | PCSRK (counter : Z) (csrk : list Z) (sec_level : Z).
Inductive effect :=
| Sent (bda data : list Z)
| StopTimer | StartTimer
| RandRequested
| AppCallback (evt : Z) (bda : list Z) (d : cb_data_t)
| SavedKey (bda : list Z) (k : le_key)
| ClearedKeys (bda : list Z)
| LtkReply (bda key : list Z)
| StartedEncryption (bda : list Z) (stk : option (list Z))
| LinkKeyNotified (bda key : list Z) (key_type : Z)
| KeySizeUpdated (bda : list Z) (size : Z)
| ConnParamsUpdates (bda : list Z) (enabled : bool)
| IdleTimeout (bda : list Z)
| RemovedChannel (bda : list Z)
| Connected (bda : list Z).

(** The answers of the stack: those that may differ from call to call take the
    number of the call.  [callback] is the application's answer to a request for
    capabilities, [None] where its status is not success; [link_sec_check] is
    [None] for an unknown device, for which no action is stored. *)
Class Host := {
  available : nat → bool;
  cipher_ctx : aes_context;
  junk : list Z;
  L2CA_SendFixedChnlData : nat → bool;
  L2CA_ConnectFixedChnl : nat → bool;
  L2CA_GetBleConnRole : list Z → role_t;
  btsnd_hcic_ble_rand : nat → bool;
  callback : nat → tSMP_IO_REQ → option tSMP_IO_REQ;
  security_mode : security_mode_t;
  supports_secure_connections : bool;
  lmp_version : list Z → option Z;
  interop_disabled : list Z → bool;
  btm_find_dev : list Z → option (list Z);
  link_sec_check : nat → list Z → Z → option tBTM_BLE_SEC_REQ_ACT;
  btm_ble_start_encrypt : nat → tBTM_STATUS;
  btm_local_div : list Z → Z;
  device_ir : list Z;
  device_er : list Z;
  device_dhk : list Z;
  device_address : list Z;
  stack_address : list Z * Z;
  stack_confirm : list Z * list Z;
  BTM_ReadConnectionAddr : list Z → list Z * Z;
  BTM_ReadRemoteConnectionAddr : list Z → option (list Z * Z) }.

(** ** The state of the functions *)

Record world := World { cb : smp_cb; mem : smp_state; calls : nat; out : list effect }.

Definition rd {A} (f : smp_cb → A) : M world A := gets (λ w, f (cb w)).
Definition upd (f : smp_cb → smp_cb) : M world () := modify (λ w, World (f (cb w)) (mem w) (calls w) (out w)).
Definition emit (e : effect) : M world () := modify (λ w, World (cb w) (mem w) (calls w) (out w ++ [e])).
(** A call whose answer depends on its number. *)
Definition ask {A} (answer : nat → A) : M world A := λ w,
  Ok (answer (calls w), World (cb w) (mem w) (S (calls w)) (out w)).
Definition crypto {A} (m : M smp_state A) : M world A := λ w,
  match m (mem w) with Ok (a, s) => Ok (a, World (cb w) s (calls w) (out w)) | Fault f => Fault f end.
Definition when (b : bool) (m : M world ()) : M world () := if b then m else mret ().

Section Views.
Context `{Host}.

(** The control block as the key functions see it.  [smp_collect_peer_ble_address]
    leaves its result as the stack held it, [stack_address], where the device is unknown,
    and [smp_gen_p1_4_confirm] and [smp_gen_p2_4_confirm] leave theirs, [stack_confirm]. *)
Definition keys_cb (s : smp_cb) : Smp.tSMP_CB :=
  let '(la, lt) := BTM_ReadConnectionAddr (pairing_bda s) in
  let '(ra, rt) := default stack_address (BTM_ReadRemoteConnectionAddr (pairing_bda s)) in
  {| Smp.role := role s; Smp.selected_association_model := selected_association_model s;
     Smp.local_addr := la; Smp.local_addr_type := lt; Smp.remote_addr := ra; Smp.remote_addr_type := rt;
     Smp.local_io_capability := local_io_capability s; Smp.loc_oob_flag := loc_oob_flag s;
     Smp.loc_auth_req := loc_auth_req s; Smp.loc_enc_size := loc_enc_size s; Smp.local_i_key := local_i_key s;
     Smp.local_r_key := local_r_key s; Smp.peer_io_caps := peer_io_caps s; Smp.peer_oob_flag := peer_oob_flag s;
     Smp.peer_auth_req := peer_auth_req s; Smp.peer_enc_size := peer_enc_size s; Smp.peer_i_key := peer_i_key s;
     Smp.peer_r_key := peer_r_key s; Smp.tk := tk s; Smp.rand := rand s; Smp.rrand := rrand s;
     Smp.loc_publ_key_x := publ_x (loc_publ_key s); Smp.peer_publ_key_x := publ_x (peer_publ_key s);
     Smp.dhkey := dhkey s; Smp.local_random := local_random s; Smp.peer_random := peer_random s;
     Smp.round := round s; Smp.remote_commitment := remote_commitment s; Smp.div := div s; Smp.enc_rand := enc_rand s;
     Smp.unknown_peer := match BTM_ReadRemoteConnectionAddr (pairing_bda s) with Some _ => None | None => Some stack_confirm end |}.
Definition cb_keys (s : smp_cb) : Smp.smp_keys :=
  {| Smp.number_to_display := number_to_display s; Smp.commitment := commitment s; Smp.mac_key := mac_key s;
     Smp.ltk := ltk s; Smp.dhkey_check := dhkey_check s; Smp.ediv := ediv s |}.
Definition set_keys (k : Smp.smp_keys) (s : smp_cb) : smp_cb :=
  set_number_to_display (Smp.number_to_display k) (set_commitment (Smp.commitment k) (set_mac_key (Smp.mac_key k)
    (set_ltk (Smp.ltk k) (set_dhkey_check (Smp.dhkey_check k) (set_ediv (Smp.ediv k) s))))).
End Views.

(** Words of 32 bits in memory. *)
Fixpoint to_words (n : nat) (b : list Z) : list Z :=
  match n with O => [] | S n => stream_to_uint (take 4 b) :: to_words n (drop 4 b) end.
Definition of_words (w : list Z) : list Z :=
  concat ((λ v, [v mod 256; v / 256 mod 256; v / 65536 mod 256; v / 16777216]) <$> w).

Definition bda_eqb (a b : list Z) : bool := bool_decide (a = b).
