(* ===== verification/SmpCommands.v ===== *)
(** * The commands of pairing

    Models the part of [src/components/bt/bluedroid/stack/smp/smp_utils.c] that does
    not enter the state machine: the commands sent, the checks of a command
    received, and the choice of the association model. *)

From S2P Require Import Prelude Cmac Smp SmpTables SmpCb.

(** ** Received commands *)

Definition smp_cmd_size_per_spec : list Z := [0; 7; 7; 17; 17; 2; 17; 11; 17; 8; 17; 2; 65; 17; 2; 17].

Definition smp_command_has_valid_fixed_length (s : smp_cb) : outcome bool :=
  size ← index smp_cmd_size_per_spec (rcvd_cmd_code s);
  Ok (rcvd_cmd_len s =? size).
Definition smp_pairing_request_response_parameters_are_valid (s : smp_cb) : bool :=
  let io_caps := peer_io_caps s in
  let oob_flag := peer_oob_flag s in
  let bond_flag := Z.land (peer_auth_req s) 3 in
  let enc_size := peer_enc_size s in
  if SMP_IO_CAP_MAX <=? io_caps then false else
  if negb ((oob_flag =? SMP_OOB_NONE) || (oob_flag =? SMP_OOB_PRESENT)) then false else
  if negb ((bond_flag =? SMP_AUTH_NO_BOND) || (bond_flag =? SMP_AUTH_BOND)) then false else
  if (enc_size <? SMP_ENCR_KEY_SIZE_MIN) || (SMP_ENCR_KEY_SIZE_MAX <? enc_size) then false else
  true.
Definition smp_pairing_keypress_notification_is_valid (s : smp_cb) : bool :=
  if BTM_SP_KEY_OUT_OF_RANGE <=? peer_keypress_notification s then false else true.

(** [smp_cmd_len_is_valid] and [smp_cmd_param_ranges_are_valid]: the first entry
    rejects, and a command is checked by the entry of its code. *)
Definition cmd_len_is_valid (cmd : Z) (s : smp_cb) : outcome bool :=
  if cmd =? 0 then Ok false else smp_command_has_valid_fixed_length s.
Definition cmd_param_ranges_are_valid (cmd : Z) (s : smp_cb) : bool :=
  if cmd =? 0 then false
  else if (cmd =? SMP_OPCODE_PAIRING_REQ) || (cmd =? SMP_OPCODE_PAIRING_RSP) then
    smp_pairing_request_response_parameters_are_valid s
  else if cmd =? SMP_OPCODE_PAIR_KEYPR_NOTIF then smp_pairing_keypress_notification_is_valid s
  else true.
Definition smp_command_has_invalid_parameters (s : smp_cb) : outcome bool :=
  let cmd_code := rcvd_cmd_code s in
  if (SMP_OPCODE_MAX + 1 <? cmd_code) || (cmd_code <? SMP_OPCODE_MIN) then Ok true else
  len_ok ← cmd_len_is_valid cmd_code s;
  if negb len_ok then Ok true else
  if negb (cmd_param_ranges_are_valid cmd_code s) then Ok true else
  Ok false.

(** ** The association model *)

(** The tables by the role; the first index is the capability of the responder. *)
Abbreviation EO := SMP_MODEL_ENCRYPTION_ONLY (only parsing).
Abbreviation PK := SMP_MODEL_PASSKEY (only parsing).
Abbreviation KN := SMP_MODEL_KEY_NOTIF (only parsing).
Definition smp_association_table (r : role_t) : list (list association_model) :=
  match r with
  | HCI_ROLE_MASTER =>
      [[EO; EO; PK; EO; PK]; [EO; EO; PK; EO; PK]; [KN; KN; PK; EO; KN]; [EO; EO; EO; EO; EO]; [KN; KN; PK; EO; KN]]
  | HCI_ROLE_SLAVE =>
      [[EO; EO; KN; EO; KN]; [EO; EO; KN; EO; KN]; [PK; PK; PK; EO; PK]; [EO; EO; EO; EO; EO]; [PK; PK; KN; EO; PK]]
  end.
Abbreviation JW := SMP_MODEL_SEC_CONN_JUSTWORKS (only parsing).
Abbreviation NC := SMP_MODEL_SEC_CONN_NUM_COMP (only parsing).
Abbreviation PE := SMP_MODEL_SEC_CONN_PASSKEY_ENT (only parsing).
Abbreviation PD := SMP_MODEL_SEC_CONN_PASSKEY_DISP (only parsing).
Definition smp_association_table_sc (r : role_t) : list (list association_model) :=
  match r with
  | HCI_ROLE_MASTER =>
      [[JW; JW; PE; JW; PE]; [JW; NC; PE; JW; NC]; [PD; PD; PE; JW; PD]; [JW; JW; JW; JW; JW]; [PD; NC; PE; JW; NC]]
  | HCI_ROLE_SLAVE =>
      [[JW; JW; PD; JW; PD]; [JW; NC; PD; JW; NC]; [PE; PE; PE; JW; PE]; [JW; JW; JW; JW; JW]; [PE; NC; PD; JW; NC]]
  end.

Definition table_model (table : role_t → list (list association_model)) (s : smp_cb) : outcome association_model :=
  if (peer_io_caps s <? SMP_IO_CAP_MAX) && (local_io_capability s <? SMP_IO_CAP_MAX) then
    match role s with
    | HCI_ROLE_MASTER => row ← index (table (role s)) (peer_io_caps s); index row (local_io_capability s)
    | HCI_ROLE_SLAVE => row ← index (table (role s)) (local_io_capability s); index row (peer_io_caps s)
    end
  else Ok SMP_MODEL_OUT_OF_RANGE.
Definition smp_select_legacy_association_model (s : smp_cb) : outcome association_model :=
  if (peer_oob_flag s =? SMP_OOB_PRESENT) && (loc_oob_flag s =? SMP_OOB_PRESENT) then Ok SMP_MODEL_OOB else
  if SMP_NO_MITM_REQUIRED (peer_auth_req s) && SMP_NO_MITM_REQUIRED (loc_auth_req s) then Ok SMP_MODEL_ENCRYPTION_ONLY else
  table_model smp_association_table s.
Definition smp_select_association_model_secure_connections (s : smp_cb) : outcome association_model :=
  if (peer_oob_flag s =? SMP_OOB_PRESENT) || (loc_oob_flag s =? SMP_OOB_PRESENT) then Ok SMP_MODEL_SEC_CONN_OOB else
  if SMP_NO_MITM_REQUIRED (peer_auth_req s) && SMP_NO_MITM_REQUIRED (loc_auth_req s) then Ok SMP_MODEL_SEC_CONN_JUSTWORKS else
  table_model smp_association_table_sc s.

(** The model, and whether secure connections are used. *)
Definition select_model (s : smp_cb) : outcome (association_model * bool) :=
  let sc := has (peer_auth_req s) SMP_SC_SUPPORT_BIT && has (loc_auth_req s) SMP_SC_SUPPORT_BIT in
  model ← (if sc then smp_select_association_model_secure_connections s else smp_select_legacy_association_model s);
  Ok (model, sc).
Definition smp_select_association_model : M world association_model :=
  s ← gets cb;
  upd (set_le_secure_connections_mode_is_used false);;
  '(model, sc) ← lift (select_model s);
  upd (set_le_secure_connections_mode_is_used sc);;
  mret model.

(** ** Sent commands *)

Section Send.
Context `{Host}.

(** Each builder asks for a buffer first; [None] is the null pointer. *)
Definition build_cmd (data : list Z) : M world (option (list Z)) :=
  p_buf ← crypto (osi_malloc available);
  mret (if (p_buf : bool) then Some data else None).

Definition smp_build_pairing_cmd (cmd_code : Z) (s : smp_cb) : M world (option (list Z)) :=
  build_cmd (uint8 cmd_code ++ uint8 (local_io_capability s) ++ uint8 (loc_oob_flag s) ++ uint8 (loc_auth_req s) ++
             uint8 (loc_enc_size s) ++ uint8 (local_i_key s) ++ uint8 (local_r_key s)).
Definition smp_build_confirm_cmd (_ : Z) (s : smp_cb) := build_cmd (uint8 SMP_OPCODE_CONFIRM ++ confirm s).
Definition smp_build_rand_cmd (_ : Z) (s : smp_cb) := build_cmd (uint8 SMP_OPCODE_RAND ++ rand s).
Definition smp_build_encrypt_info_cmd (_ : Z) (s : smp_cb) := build_cmd (uint8 SMP_OPCODE_ENCRYPT_INFO ++ ltk s).
Definition smp_build_master_id_cmd (_ : Z) (s : smp_cb) :=
  build_cmd (uint8 SMP_OPCODE_MASTER_ID ++ [ediv s mod 256; ediv s / 256] ++ enc_rand s).
Definition smp_build_identity_info_cmd (_ : Z) (_ : smp_cb) := build_cmd (uint8 SMP_OPCODE_IDENTITY_INFO ++ device_ir).
Definition smp_build_id_addr_cmd (_ : Z) (_ : smp_cb) :=
  build_cmd (uint8 SMP_OPCODE_ID_ADDR ++ uint8 0 ++ bdaddr device_address).
Definition smp_build_signing_info_cmd (_ : Z) (s : smp_cb) := build_cmd (uint8 SMP_OPCODE_SIGN_INFO ++ csrk s).
Definition smp_build_pairing_fail (_ : Z) (s : smp_cb) := build_cmd (uint8 SMP_OPCODE_PAIRING_FAILED ++ uint8 (failure s)).
Definition smp_build_security_request (_ : Z) (s : smp_cb) :=
  build_cmd (uint8 SMP_OPCODE_SEC_REQ ++ uint8 (loc_auth_req s)).
Definition smp_build_pair_public_key_cmd (_ : Z) (s : smp_cb) :=
  build_cmd (uint8 SMP_OPCODE_PAIR_PUBLIC_KEY ++ publ_x (loc_publ_key s) ++ publ_y (loc_publ_key s)).
Definition smp_build_pairing_commitment_cmd (_ : Z) (s : smp_cb) := build_cmd (uint8 SMP_OPCODE_CONFIRM ++ commitment s).
Definition smp_build_pair_dhkey_check_cmd (_ : Z) (s : smp_cb) :=
  build_cmd (uint8 SMP_OPCODE_PAIR_DHKEY_CHECK ++ dhkey_check s).
Definition smp_build_pairing_keypress_notification_cmd (_ : Z) (s : smp_cb) :=
  build_cmd (uint8 SMP_OPCODE_PAIR_KEYPR_NOTIF ++ uint8 (local_keypress_notification s)).

Definition smp_cmd_build_act : list (option (Z → smp_cb → M world (option (list Z)))) :=
  [None; Some smp_build_pairing_cmd; Some smp_build_pairing_cmd; Some smp_build_confirm_cmd; Some smp_build_rand_cmd;
   Some smp_build_pairing_fail; Some smp_build_encrypt_info_cmd; Some smp_build_master_id_cmd;
   Some smp_build_identity_info_cmd; Some smp_build_id_addr_cmd; Some smp_build_signing_info_cmd;
   Some smp_build_security_request; Some smp_build_pair_public_key_cmd; Some smp_build_pair_dhkey_check_cmd;
   Some smp_build_pairing_keypress_notification_cmd; Some smp_build_pairing_commitment_cmd].

Definition smp_send_msg_to_L2CAP (rem_bda data : list Z) : M world bool :=
  n ← rd total_tx_unacked;
  upd (set_total_tx_unacked (u16 (n + 1)));;
  accepted ← ask L2CA_SendFixedChnlData;
  if negb accepted then
    n ← rd total_tx_unacked;
    upd (set_total_tx_unacked (u16 (n - 1)));; mret false
  else emit (Sent rem_bda data);; mret true.

Definition smp_reject_unexpected_pairing_command (bd_addr : list Z) : M world () :=
  p_buf ← build_cmd (uint8 SMP_OPCODE_PAIRING_FAILED ++ uint8 SMP_PAIR_NOT_SUPPORT);
  match p_buf with
  | Some data => smp_send_msg_to_L2CAP bd_addr data;; mret ()
  | None => mret ()
  end.

(** [smp_send_cmd] up to its failure, which the state machine handles. *)
Definition send_cmd (cmd_code : Z) : M world bool :=
  s ← gets cb;
  if negb (cmd_code <=? SMP_OPCODE_MAX + 1) then mret false else
  build ← lift (index smp_cmd_build_act cmd_code);
  match build with
  | None => mret false
  | Some build =>
      p_buf ← build cmd_code s;
      match p_buf with
      | None => mret false
      | Some data =>
          sent ← smp_send_msg_to_L2CAP (pairing_bda s) data;
          when sent (emit StopTimer;; emit StartTimer);;
          mret sent
      end
  end.

(** ** The end of a pairing *)

Definition smp_cb_cleanup : M world () := upd (λ s, set_p_callback (p_callback s) cb_zero).
Definition smp_reset_control_value : M world () :=
  emit StopTimer;;
  upd (set_flags 0);;
  bda ← rd pairing_bda;
  emit (IdleTimeout bda);;
  emit (RemovedChannel bda);;
  smp_cb_cleanup.
Definition smp_proc_pairing_cmpl : M world () :=
  s ← gets cb;
  let sec_level := if status s =? SMP_SUCCESS then sec_level s else 0 in
  when (bool_decide (role s = HCI_ROLE_SLAVE)) (emit (ConnParamsUpdates (pairing_bda s) true));;
  smp_reset_control_value;;
  when (p_callback s) (emit (AppCallback SMP_COMPLT_EVT (pairing_bda s) (CB_cmplt (status s) sec_level (is_pair_cancel s)))).

(** ** Keys *)

Definition smp_save_secure_connections_long_term_key : M world () :=
  s ← gets cb;
  emit (SavedKey (pairing_bda s) (LENC (ltk s) 0 (loc_enc_size s) (sec_level s)));;
  emit (SavedKey (pairing_bda s) (PENC (ltk s) (zeros 8) 0 (sec_level s) (loc_enc_size s))).

(** What [smp_request_oob_data] asks for. *)
Definition wanted_oob_type (s : smp_cb) : Z :=
  if (peer_oob_flag s =? SMP_OOB_PRESENT) && (loc_oob_flag s =? SMP_OOB_PRESENT) then SMP_OOB_BOTH
  else if peer_oob_flag s =? SMP_OOB_PRESENT then SMP_OOB_LOCAL
  else if loc_oob_flag s =? SMP_OOB_PRESENT then SMP_OOB_PEER
  else SMP_OOB_INVALID_TYPE.
End Send.
