(* ===== verification/SmpAct.v ===== *)
(** * The actions of the pairing state machine

    Models [src/components/bt/bluedroid/stack/smp/smp_act.c], the functions of
    [smp_keys.c] that request random numbers and continue with them, and
    [smp_sm_event] of [smp_main.c].  An action may raise events, and some actions
    call [smp_key_distribution], which picks an action: these two are variables of
    the section, and [engine] ties the knot with fuel. *)

From S2P Require Import Prelude Aes Cmac MultiPrecision Ecc Smp SmpTables SmpCb SmpCommands.

Definition eqb {A} `{EqDecision A} (x y : A) : bool := bool_decide (x = y).

(** [while (passkey > BTM_MAX_PASSKEY_VAL) passkey >>= 1;] *)
Fixpoint passkey_loop (fuel : nat) (passkey : Z) : outcome Z :=
  if BTM_MAX_PASSKEY_VAL <? passkey then
    match fuel with O => Fault OutOfFuel | S fuel => passkey_loop fuel (Z.shiftr passkey 1) end
  else Ok passkey.

Definition is_slave (s : smp_cb) : bool := eqb (role s) HCI_ROLE_SLAVE.
Definition is_master (s : smp_cb) : bool := eqb (role s) HCI_ROLE_MASTER.
(** [(peer_auth_req & SMP_AUTH_BOND) && (loc_auth_req & SMP_AUTH_BOND)] *)
Definition both_bond (s : smp_cb) : bool := has (peer_auth_req s) SMP_AUTH_BOND && has (loc_auth_req s) SMP_AUTH_BOND.

(** [p_cb->flags |= m] and [p_cb->flags &= ~m]. *)
Definition set_flag (m : Z) (s : smp_cb) : smp_cb := set_flags (Z.lor (flags s) m) s.
Definition clear_flag (m : Z) (s : smp_cb) : smp_cb := set_flags (without (flags s) m) s.

(** ** Key masks *)

Definition clear_i_key (key_type : Z) (s : smp_cb) : smp_cb := set_local_i_key (without (local_i_key s) key_type) s.
Definition clear_r_key (key_type : Z) (s : smp_cb) : smp_cb := set_local_r_key (without (local_r_key s) key_type) s.
Definition smp_update_key_mask (key_type : Z) (recv : bool) (s : smp_cb) : smp_cb :=
  if le_secure_connections_mode_is_used s &&
     ((key_type =? SMP_SEC_KEY_TYPE_ENC) || (key_type =? SMP_SEC_KEY_TYPE_LK)) then
    clear_r_key key_type (clear_i_key key_type s)
  else if is_slave s then
    if recv then clear_i_key key_type s else clear_r_key key_type s
  else
    if recv then clear_r_key key_type s else clear_i_key key_type s.

Section Actions.
Context `{Host}.
Context (smp_sm_event : tSMP_EVENT → int_data → M world ()) (smp_key_distribution : M world ()).

Definition auth_cmpl (reason : Z) : M world () := smp_sm_event SMP_AUTH_CMPL_EVT (D_u8 reason).

Definition smp_send_cmd (cmd_code : Z) : M world bool :=
  sent ← send_cmd cmd_code;
  when (negb sent) (auth_cmpl SMP_PAIR_INTERNAL_ERR);;
  mret sent.
Definition send (cmd_code : Z) : M world () := smp_send_cmd cmd_code;; mret ().

(** ** Random numbers

    [smp_rand_back(NULL)] ends the pairing. *)
Definition request_rand : M world () :=
  started ← ask btsnd_hcic_ble_rand;
  if (started : bool) then emit RandRequested else auth_cmpl SMP_PAIR_FAIL_UNKNOWN.

Definition smp_generate_passkey : M world () := upd (set_rand_enc_proc_state SMP_GEN_TK);; request_rand.
Definition smp_generate_srand_mrand_confirm : M world () :=
  upd (set_rand_enc_proc_state SMP_GEN_SRAND_MRAND);; request_rand.
Definition smp_generate_rand_cont : M world () :=
  upd (set_rand_enc_proc_state SMP_GEN_SRAND_MRAND_CONT);; request_rand.
Definition smp_generate_rand_vector : M world () := upd (set_rand_enc_proc_state SMP_GEN_RAND_V);; request_rand.
Definition smp_create_private_key : M world () :=
  upd (set_rand_enc_proc_state SMP_GENERATE_PRIVATE_KEY_0_7);; request_rand.
Definition smp_start_nonce_generation : M world () := upd (set_rand_enc_proc_state SMP_GEN_NONCE_0_7);; request_rand.
Definition smp_finish_nonce_generation : M world () := upd (set_rand_enc_proc_state SMP_GEN_NONCE_8_15);; request_rand.
Definition smp_process_new_nonce : M world () := smp_sm_event SMP_HAVE_LOC_NONCE_EVT D_null.

(** ** Notifying the application *)

Definition lmp_version_below (bda : list Z) (version : Z) : bool :=
  match lmp_version bda with
  | None => false
  | Some v => if v =? 0 then false else v <? version
  end.
Definition HCI_PROTO_VERSION_4_2 : Z := 8.

(** What the application's answer to [SMP_IO_CAP_REQ_EVT] does to the control block. *)
Definition take_io_req (r : tSMP_IO_REQ) (s : smp_cb) : smp_cb :=
  let s := set_loc_auth_req (auth_req r) s in
  let s := set_local_io_capability (io_cap r) s in
  let s := set_loc_oob_flag (oob_data r) s in
  let s := set_loc_enc_size (max_key_size r) s in
  let s := set_local_i_key (init_keys r) s in
  let s := set_local_r_key (resp_keys r) s in
  let s := if negb (has (loc_auth_req s) SMP_AUTH_BOND) then set_local_r_key 0 (set_local_i_key 0 s) else s in
  let s := set_secure_connections_only_mode_required
             (match security_mode with BTM_SEC_MODE_SC => true | _ => false end) s in
  let s := if secure_connections_only_mode_required s then set_loc_auth_req (Z.lor (loc_auth_req s) SMP_SC_SUPPORT_BIT) s
           else s in
  if negb (has (loc_auth_req s) SMP_SC_SUPPORT_BIT) || lmp_version_below (pairing_bda s) HCI_PROTO_VERSION_4_2 ||
     interop_disabled (pairing_bda s) then
    let s := set_loc_auth_req (without (loc_auth_req s) SMP_KP_SUPPORT_BIT) s in
    clear_r_key SMP_SEC_KEY_TYPE_LK (clear_i_key SMP_SEC_KEY_TYPE_LK s)
  else s.

Definition smp_send_app_cback (p_data : int_data) : M world () :=
  s ← gets cb;
  when (p_callback s && negb (cb_evt s =? 0)) (
    let io_req :=
      {| auth_req := peer_auth_req s; oob_data := SMP_OOB_NONE; io_cap := SMP_IO_CAP_KBDISP;
         max_key_size := SMP_MAX_ENC_KEY_SIZE; init_keys := local_i_key s; resp_keys := local_r_key s |} in
    cb_data ←
      (if cb_evt s =? SMP_IO_CAP_REQ_EVT then mret (CB_io_req io_req)
       else if cb_evt s =? SMP_NC_REQ_EVT then v ← lift (data_passkey p_data); mret (CB_passkey v)
       else if cb_evt s =? SMP_SC_OOB_REQ_EVT then t ← lift (data_oob_type p_data); mret (CB_oob_type t)
       else if cb_evt s =? SMP_SC_LOC_OOB_DATA_UP_EVT then mret (CB_loc_oob (loc_oob_data (sc_oob_data s)))
       else mret CB_none);
    emit (AppCallback (cb_evt s) (pairing_bda s) cb_data);;
    answer ← ask (λ n, callback n io_req);
    when (cb_evt s =? SMP_IO_CAP_REQ_EVT)
      (match answer with
       | Some r => upd (take_io_req r);; smp_sm_event SMP_IO_RSP_EVT D_null
       | None => mret ()
       end));;
  s ← gets cb;
  when ((cb_evt s =? 0) && discard_sec_req s) (
    upd (set_discard_sec_req false);;
    smp_sm_event SMP_DISCARD_SEC_REQ_EVT D_null).

(** ** Sending *)

Definition smp_send_pair_fail (p_data : int_data) : M world () :=
  v ← lift (data_u8 p_data);
  upd (set_status v);;
  upd (set_failure v);;
  when ((v <=? SMP_MAX_FAIL_RSN_PER_SPEC) && negb (v =? SMP_SUCCESS)) (
    send SMP_OPCODE_PAIRING_FAILED;;
    upd (set_wait_for_authorization_complete true)).
Definition smp_send_pair_req : M world () :=
  bda ← rd pairing_bda;
  when (bool_decide (is_Some (btm_find_dev bda))) (emit (ClearedKeys bda));;
  send SMP_OPCODE_PAIRING_REQ.
Definition smp_send_confirm : M world () := send SMP_OPCODE_CONFIRM.
Definition smp_send_init : M world () := send SMP_OPCODE_RAND.
Definition smp_send_rand : M world () := send SMP_OPCODE_RAND.
Definition smp_send_pair_public_key : M world () := send SMP_OPCODE_PAIR_PUBLIC_KEY.
Definition smp_send_commitment : M world () := send SMP_OPCODE_PAIR_COMMITM.
Definition smp_send_dhkey_check : M world () := send SMP_OPCODE_PAIR_DHKEY_CHECK.
Definition smp_send_keypress_notification (p_data : int_data) : M world () :=
  v ← lift (data_u8 p_data);
  upd (set_local_keypress_notification v);;
  send SMP_OPCODE_PAIR_KEYPR_NOTIF.
Definition smp_send_enc_info : M world () :=
  upd (smp_update_key_mask SMP_SEC_KEY_TYPE_ENC false);;
  send SMP_OPCODE_ENCRYPT_INFO;;
  send SMP_OPCODE_MASTER_ID;;
  s ← gets cb;
  when (both_bond s) (emit (SavedKey (pairing_bda s) (LENC (ltk s) (div s) (loc_enc_size s) (sec_level s))));;
  smp_key_distribution.
Definition smp_send_id_info : M world () :=
  upd (smp_update_key_mask SMP_SEC_KEY_TYPE_ID false);;
  send SMP_OPCODE_IDENTITY_INFO;;
  send SMP_OPCODE_ID_ADDR;;
  s ← gets cb;
  when (both_bond s) (emit (SavedKey (pairing_bda s) LID));;
  smp_key_distribution.
Definition smp_send_csrk_info : M world () :=
  upd (smp_update_key_mask SMP_SEC_KEY_TYPE_CSRK false);;
  sent ← smp_send_cmd SMP_OPCODE_SIGN_INFO;
  s ← gets cb;
  when sent (emit (SavedKey (pairing_bda s) (LCSRK 0 (div s) (sec_level s) (csrk s))));;
  smp_key_distribution.
Definition smp_send_ltk_reply (p_data : int_data) : M world () :=
  '(_, key) ← lift (data_key p_data);
  bda ← rd pairing_bda;
  emit (LtkReply bda key).

(** ** Legacy keys *)

Definition smp_process_confirm (output : list Z) : M world () :=
  upd (set_confirm output);;
  smp_sm_event SMP_KEY_READY_EVT (D_key SMP_KEY_TYPE_CFM output).
Definition smp_process_compare (output : list Z) : M world () :=
  smp_sm_event SMP_KEY_READY_EVT (D_key SMP_KEY_TYPE_CMP output).
Definition smp_calculate_comfirm (rand : list Z) : M world () :=
  s ← gets cb;
  output ← crypto (Smp.smp_calculate_comfirm available cipher_ctx (keys_cb s) rand);
  match output with
  | None => auth_cmpl SMP_PAIR_FAIL_UNKNOWN
  | Some output =>
      st ← rd rand_enc_proc_state;
      match st with
      | SMP_GEN_CONFIRM => smp_process_confirm output
      | SMP_GEN_COMPARE => smp_process_compare output
      | _ => mret ()
      end
  end.
Definition smp_generate_confirm : M world () :=
  upd (set_rand_enc_proc_state SMP_GEN_CONFIRM);;
  r ← rd rand; smp_calculate_comfirm r.
Definition smp_generate_compare : M world () :=
  upd (set_rand_enc_proc_state SMP_GEN_COMPARE);;
  r ← rd rrand; smp_calculate_comfirm r.

Definition smp_process_stk (output : list Z) : M world () :=
  s ← gets cb;
  smp_sm_event SMP_KEY_READY_EVT (D_key SMP_KEY_TYPE_STK (Smp.smp_mask_enc_key (loc_enc_size s) output)).
Definition smp_generate_stk : M world () :=
  s ← gets cb;
  if le_secure_connections_mode_is_used s then smp_process_stk (ltk s) else
  output ← crypto (smp_calculate_legacy_short_term_key available cipher_ctx (keys_cb s));
  match output with
  | None => auth_cmpl SMP_PAIR_FAIL_UNKNOWN
  | Some output => smp_process_stk output
  end.

Definition smp_process_ediv (output : tSMP_ENC) : M world () :=
  y ← lift (load_bytes (param_buf output) 0 2);
  s ← gets cb;
  upd (set_ediv (Z.lxor (div s) (stream_to_uint y)));;
  smp_sm_event SMP_KEY_READY_EVT (D_key SMP_KEY_TYPE_LTK (param_buf output)).
Definition smp_generate_y : M world () :=
  s ← gets cb;
  output ← crypto (SMP_Encrypt available cipher_ctx device_dhk BT_OCTET16_LEN (enc_rand s) 8);
  match output with
  | None => auth_cmpl SMP_PAIR_FAIL_UNKNOWN
  | Some output => smp_process_ediv output
  end.
Definition smp_generate_ltk_cont : M world () :=
  s ← gets cb;
  keys ← crypto (Smp.smp_generate_ltk_cont available cipher_ctx (keys_cb s) device_er (cb_keys s));
  match keys with
  | None => auth_cmpl SMP_PAIR_FAIL_UNKNOWN
  | Some keys => upd (set_keys keys);; smp_generate_rand_vector
  end.
Definition smp_process_secure_connection_long_term_key : M world () :=
  smp_save_secure_connections_long_term_key;;
  upd (smp_update_key_mask SMP_SEC_KEY_TYPE_ENC false);;
  smp_key_distribution.
(** [btm_get_local_div]: 0 where none is stored. *)
Definition btm_get_local_div : M world bool :=
  bda ← rd pairing_bda;
  upd (set_div (btm_local_div bda));;
  mret (negb (btm_local_div bda =? 0)).
Definition smp_generate_ltk : M world () :=
  s ← gets cb;
  if le_secure_connections_mode_is_used s then smp_process_secure_connection_long_term_key else
  div_status ← btm_get_local_div;
  if (div_status : bool) then smp_generate_ltk_cont else
  upd (set_rand_enc_proc_state SMP_GEN_DIV_LTK);; request_rand.
Definition smp_compute_csrk : M world () :=
  s ← gets cb;
  output ← crypto (SMP_Encrypt available cipher_ctx device_er BT_OCTET16_LEN [div s mod 256; div s / 256; 1; 0] 4);
  match output with
  | None => auth_cmpl SMP_PAIR_FAIL_UNKNOWN
  | Some output => upd (set_csrk (param_buf output));; smp_send_csrk_info
  end.
Definition smp_generate_csrk : M world () :=
  div_status ← btm_get_local_div;
  if (div_status : bool) then smp_compute_csrk else
  upd (set_rand_enc_proc_state SMP_GEN_DIV_CSRK);; request_rand.

(** ** Keys of secure connections *)

Definition smp_process_private_key : M world () :=
  k ← rd private_key;
  '(x, y) ← lift (Ecc.smp_process_private_key code_mul (to_words 8 k));
  upd (set_loc_publ_key {| publ_x := of_words x; publ_y := of_words y |});;
  upd (set_flag SMP_PAIR_FLAG_HAVE_LOCAL_PUBL_KEY);;
  smp_sm_event SMP_LOC_PUBL_KEY_CRTD_EVT D_null.
Definition smp_compute_dhkey : M world () :=
  s ← gets cb;
  x ← lift (Ecc.smp_compute_dhkey code_mul (to_words 8 (private_key s)) (to_words 8 (publ_x (peer_publ_key s)))
              (to_words 8 (publ_y (peer_publ_key s))));
  upd (set_dhkey (of_words x)).
Definition smp_calculate_local_commitment : M world () :=
  s ← gets cb;
  c ← crypto (Smp.smp_calculate_local_commitment available cipher_ctx junk (keys_cb s));
  match c with Some c => upd (set_commitment c) | None => mret () end.
Definition smp_check_commitment : M world bool :=
  s ← gets cb; crypto (Smp.smp_check_commitment available cipher_ctx junk (keys_cb s)).
Definition smp_calculate_numeric_comparison_display_number : M world () :=
  s ← gets cb;
  '(ok, keys) ← crypto (Smp.smp_calculate_numeric_comparison_display_number available cipher_ctx (keys_cb s) (cb_keys s));
  upd (set_keys keys);;
  if negb ok then
    upd (set_failure SMP_PAIR_FAIL_UNKNOWN);; auth_cmpl SMP_PAIR_FAIL_UNKNOWN
  else
    upd (set_cb_evt SMP_NC_REQ_EVT);;
    n ← rd number_to_display; smp_sm_event SMP_SC_DSPL_NC_EVT (D_passkey n).
Definition smp_calculate_local_dhkey_check : M world () :=
  s ← gets cb;
  keys ← crypto (Smp.smp_calculate_local_dhkey_check available cipher_ctx junk (keys_cb s) (cb_keys s));
  upd (set_keys keys).
Definition smp_calculate_peer_dhkey_check : M world () :=
  s ← gets cb;
  check ← crypto (Smp.smp_calculate_peer_dhkey_check available cipher_ctx junk (keys_cb s) (cb_keys s));
  match check with
  | Some param_buf => smp_sm_event SMP_SC_KEY_READY_EVT (D_key SMP_KEY_TYPE_PEER_DHK_CHCK param_buf)
  | None => auth_cmpl SMP_PAIR_FAIL_UNKNOWN
  end.

(** [BTM_LKEY_TYPE_...] of the derived link key, [None] for an unusable mode. *)
Definition link_key_type (sec_level : Z) : option Z :=
  match security_mode with
  | BTM_SEC_MODE_SC => Some 8
  | _ =>
      if supports_secure_connections then Some (if sec_level =? SMP_SEC_AUTHENTICATED then 8 else 7)
      else match security_mode with
           | BTM_SEC_MODE_SP => Some (if sec_level =? SMP_SEC_AUTHENTICATED then 5 else 4)
           | _ => None
           end
  end.
Definition BTM_LTK_DERIVED_LKEY_OFFSET : Z := 32.
Definition bda_for_link_key (s : smp_cb) : option (list Z) :=
  if id_addr_rcvd s && (id_addr_type s =? BLE_ADDR_PUBLIC) then Some (id_addr s)
  else match BTM_ReadRemoteConnectionAddr (pairing_bda s) with
       | Some (bda, t) => if t =? BLE_ADDR_PUBLIC then Some bda else None
       | None => None
       end.
Definition smp_calculate_link_key_from_long_term_key : M world bool :=
  s ← gets cb;
  match bda_for_link_key s with
  | None => mret false
  | Some bda =>
      if negb (bool_decide (is_Some (btm_find_dev (pairing_bda s)))) then mret false else
      '(ok, link_key) ← crypto (derive_link_key available cipher_ctx junk (ltk s));
      if negb ok then mret false else
      match link_key_type (sec_level s) with
      | None => mret false
      | Some t => emit (LinkKeyNotified bda (reverse link_key) (t + BTM_LTK_DERIVED_LKEY_OFFSET));; mret true
      end
  end.

(** ** The association model *)

Definition smp_decide_association_model : M world () :=
  model ← rd selected_association_model;
  match model with
  | SMP_MODEL_ENCRYPTION_ONLY =>
      upd (set_sec_level SMP_SEC_UNAUTHENTICATE);;
      upd (set_tk (zeros 16));;
      smp_sm_event SMP_KEY_READY_EVT (D_key SMP_KEY_TYPE_TK (zeros 16))
  | SMP_MODEL_PASSKEY =>
      upd (set_sec_level SMP_SEC_AUTHENTICATED);;
      upd (set_cb_evt SMP_PASSKEY_REQ_EVT);;
      smp_sm_event SMP_TK_REQ_EVT D_null
  | SMP_MODEL_OOB =>
      upd (set_sec_level SMP_SEC_AUTHENTICATED);;
      upd (set_cb_evt SMP_OOB_REQ_EVT);;
      smp_sm_event SMP_TK_REQ_EVT D_null
  | SMP_MODEL_KEY_NOTIF =>
      upd (set_sec_level SMP_SEC_AUTHENTICATED);;
      smp_generate_passkey
  | SMP_MODEL_SEC_CONN_JUSTWORKS | SMP_MODEL_SEC_CONN_NUM_COMP | SMP_MODEL_SEC_CONN_PASSKEY_ENT
  | SMP_MODEL_SEC_CONN_PASSKEY_DISP | SMP_MODEL_SEC_CONN_OOB => smp_sm_event SMP_PUBL_KEY_EXCH_REQ_EVT D_null
  | SMP_MODEL_OUT_OF_RANGE => auth_cmpl SMP_UNKNOWN_IO_CAP
  end.
Definition smp_use_oob_private_key : M world () :=
  s ← gets cb;
  if (req_oob_type s =? SMP_OOB_BOTH) || (req_oob_type s =? SMP_OOB_LOCAL) then
    upd (set_private_key (private_key_used (loc_oob_data (sc_oob_data s))));;
    smp_process_private_key
  else
    upd (set_state SMP_STATE_PAIR_REQ_RSP);;
    smp_decide_association_model.
Definition smp_request_oob_data : M world bool :=
  s ← gets cb;
  let req_oob_type := wanted_oob_type s in
  if req_oob_type =? SMP_OOB_INVALID_TYPE then mret false else
  upd (set_req_oob_type req_oob_type);;
  upd (set_cb_evt SMP_SC_OOB_REQ_EVT);;
  smp_sm_event SMP_TK_REQ_EVT (D_oob_type req_oob_type);;
  mret true.
Definition smp_send_pair_rsp : M world () :=
  upd (λ s, set_local_i_key (Z.land (local_i_key s) (peer_i_key s)) s);;
  upd (λ s, set_local_r_key (Z.land (local_r_key s) (peer_r_key s)) s);;
  sent ← smp_send_cmd SMP_OPCODE_PAIRING_RSP;
  s ← gets cb;
  when sent (if eqb (selected_association_model s) SMP_MODEL_SEC_CONN_OOB then smp_use_oob_private_key
             else smp_decide_association_model).

(** A model that secure connections only mode does not allow. *)
Definition mode_not_allowed (s : smp_cb) : bool :=
  secure_connections_only_mode_required s &&
  (negb (le_secure_connections_mode_is_used s) || eqb (selected_association_model s) SMP_MODEL_SEC_CONN_JUSTWORKS).

(** ** Receiving *)

Definition smp_proc_sec_req (p_data : int_data) : M world () :=
  auth_req ← lift (data_u8 p_data);
  upd (set_cb_evt 0);;
  bda ← rd pairing_bda;
  sec_req_act ← ask (λ n, link_sec_check n bda auth_req);
  match sec_req_act with
  | None => fail UninitRead
  | Some BTM_BLE_SEC_REQ_ACT_ENCRYPT => smp_sm_event SMP_ENC_REQ_EVT D_null
  | Some BTM_BLE_SEC_REQ_ACT_PAIR =>
      upd (set_secure_connections_only_mode_required (match security_mode with BTM_SEC_MODE_SC => true | _ => false end));;
      s ← gets cb;
      if secure_connections_only_mode_required s && negb (has auth_req SMP_SC_SUPPORT_BIT) then
        auth_cmpl SMP_PAIR_AUTH_FAIL
      else
        upd (set_peer_auth_req auth_req);;
        upd (set_local_i_key SMP_SEC_DEFAULT_KEY);;
        upd (set_local_r_key SMP_SEC_DEFAULT_KEY);;
        upd (set_cb_evt SMP_SEC_REQUEST_EVT)
  | Some BTM_BLE_SEC_REQ_ACT_DISCARD => upd (set_discard_sec_req true)
  | Some BTM_BLE_SEC_REQ_ACT_NONE => mret ()
  end.
Definition smp_proc_sec_grant (p_data : int_data) : M world () :=
  res ← lift (data_u8 p_data);
  if negb (res =? SMP_SUCCESS) then smp_sm_event SMP_AUTH_CMPL_EVT p_data
  else upd (set_cb_evt SMP_IO_CAP_REQ_EVT).
Definition smp_proc_pair_fail (p_data : int_data) : M world () :=
  v ← lift (data_u8 p_data); upd (set_status v).

(** The guard that the commands share. *)
Definition checked (body : M world ()) : M world () :=
  s ← gets cb;
  invalid ← lift (smp_command_has_invalid_parameters s);
  if (invalid : bool) then auth_cmpl SMP_INVALID_PARAMETERS else body.

Definition take_pairing_parameters (p : list Z) : M world () :=
  v ← lift (load p 0); upd (set_peer_io_caps v);;
  v ← lift (load p 1); upd (set_peer_oob_flag v);;
  v ← lift (load p 2); upd (set_peer_auth_req v);;
  v ← lift (load p 3); upd (set_peer_enc_size v);;
  v ← lift (load p 4); upd (set_peer_i_key v);;
  v ← lift (load p 5); upd (set_peer_r_key v).
Definition smp_proc_pair_cmd (p_data : int_data) : M world () :=
  s ← gets cb;
  when (bool_decide (is_Some (btm_find_dev (pairing_bda s))) && is_slave s) (emit (ClearedKeys (pairing_bda s)));;
  upd (set_flag SMP_PAIR_FLAG_ENC_AFTER_PAIR);;
  p ← lift (data_bytes p_data);
  take_pairing_parameters p;;
  checked (
    s ← gets cb;
    if is_slave s then
      if negb (has (flags s) SMP_PAIR_FLAGS_WE_STARTED_DD) then
        upd (set_local_i_key (peer_i_key s));;
        upd (set_local_r_key (peer_r_key s));;
        upd (set_cb_evt SMP_SEC_REQUEST_EVT)
      else
        upd (set_local_i_key (Z.land (local_i_key s) (peer_i_key s)));;
        upd (set_local_r_key (Z.land (local_r_key s) (peer_r_key s)));;
        model ← smp_select_association_model; upd (set_selected_association_model model);;
        s ← gets cb;
        if mode_not_allowed s then auth_cmpl SMP_PAIR_AUTH_FAIL else
        if eqb model SMP_MODEL_SEC_CONN_OOB then smp_request_oob_data;; mret ()
        else smp_send_pair_rsp
    else
      model ← smp_select_association_model; upd (set_selected_association_model model);;
      s ← gets cb;
      if mode_not_allowed s then auth_cmpl SMP_PAIR_AUTH_FAIL else
      if eqb model SMP_MODEL_SEC_CONN_OOB then smp_request_oob_data;; mret ()
      else smp_decide_association_model).

(** [if (p != NULL) STREAM_TO_ARRAY(...)] *)
Definition take_array_if (p_data : int_data) (set : list Z → smp_cb → smp_cb) : M world () :=
  match p_data with
  | D_null => mret ()
  | _ => p ← lift (data_bytes p_data); v ← lift (load_bytes p 0 BT_OCTET16_LEN); upd (set v)
  end.
Definition take_array (p_data : int_data) (set : list Z → smp_cb → smp_cb) : M world () :=
  p ← lift (data_bytes p_data); v ← lift (load_bytes p 0 BT_OCTET16_LEN); upd (set v).

Definition smp_proc_confirm (p_data : int_data) : M world () :=
  checked (take_array_if p_data set_rconfirm;; upd (set_flag SMP_PAIR_FLAGS_CMD_CONFIRM)).
Definition smp_proc_init (p_data : int_data) : M world () := checked (take_array p_data set_rrand).
Definition smp_proc_rand (p_data : int_data) : M world () := checked (take_array p_data set_rrand).

Definition smp_wait_for_both_public_keys : M world () :=
  s ← gets cb;
  when (has (flags s) SMP_PAIR_FLAG_HAVE_PEER_PUBL_KEY && has (flags s) SMP_PAIR_FLAG_HAVE_LOCAL_PUBL_KEY) (
    when (is_slave s && ((req_oob_type s =? SMP_OOB_LOCAL) || (req_oob_type s =? SMP_OOB_BOTH)))
      (upd (set_state SMP_STATE_PUBLIC_KEY_EXCH));;
    smp_sm_event SMP_BOTH_PUBL_KEYS_RCVD_EVT D_null).
Definition smp_process_pairing_public_key (p_data : int_data) : M world () :=
  checked (
    p ← lift (data_bytes p_data);
    x ← lift (load_bytes p 0 32);
    y ← lift (load_bytes p 32 32);
    upd (set_peer_publ_key {| publ_x := x; publ_y := y |});;
    upd (set_flag SMP_PAIR_FLAG_HAVE_PEER_PUBL_KEY);;
    smp_wait_for_both_public_keys).
Definition smp_process_pairing_commitment (p_data : int_data) : M world () :=
  checked (upd (set_flag SMP_PAIR_FLAG_HAVE_PEER_COMM);; take_array_if p_data set_remote_commitment).
Definition smp_process_dhkey_check (p_data : int_data) : M world () :=
  checked (take_array_if p_data set_remote_dhkey_check;; upd (set_flag SMP_PAIR_FLAG_HAVE_PEER_DHK_CHK)).
Definition smp_process_keypress_notification (p_data : int_data) : M world () :=
  v ← lift (data_u8 p_data);
  upd (set_status v);;
  checked (
    match p_data with
    | D_null => upd (set_peer_keypress_notification BTM_SP_KEY_OUT_OF_RANGE)
    | _ => v ← lift (data_u8 p_data); upd (set_peer_keypress_notification v)
    end;;
    upd (set_cb_evt SMP_PEER_KEYPR_NOT_EVT)).

Definition smp_proc_enc_info (p_data : int_data) : M world () := take_array p_data set_ltk;; smp_key_distribution.
Definition smp_proc_master_id (p_data : int_data) : M world () :=
  upd (smp_update_key_mask SMP_SEC_KEY_TYPE_ENC true);;
  p ← lift (data_bytes p_data);
  ediv ← lift (load_bytes p 0 2);
  rand ← lift (load_bytes p 2 8);
  s ← gets cb;
  when (both_bond s) (emit (SavedKey (pairing_bda s) (PENC (ltk s) rand (stream_to_uint ediv) (sec_level s) (loc_enc_size s))));;
  smp_key_distribution.
Definition smp_proc_id_info (p_data : int_data) : M world () := take_array p_data set_tk;; smp_key_distribution.
Definition smp_proc_id_addr (p_data : int_data) : M world () :=
  upd (smp_update_key_mask SMP_SEC_KEY_TYPE_ID true);;
  p ← lift (data_bytes p_data);
  addr_type ← lift (load p 0);
  addr ← lift (load_bytes p 1 6);
  let static_addr := reverse addr in
  upd (set_id_addr_rcvd true);;
  upd (set_id_addr_type addr_type);;
  upd (set_id_addr static_addr);;
  s ← gets cb;
  when (both_bond s) (emit (SavedKey (pairing_bda s) (PID (tk s) addr_type static_addr)));;
  smp_key_distribution.
Definition smp_proc_srk_info (p_data : int_data) : M world () :=
  upd (smp_update_key_mask SMP_SEC_KEY_TYPE_CSRK true);;
  p ← lift (data_bytes p_data);
  csrk ← lift (load_bytes p 0 BT_OCTET16_LEN);
  s ← gets cb;
  when (both_bond s) (emit (SavedKey (pairing_bda s) (PCSRK 0 csrk (sec_level s))));;
  smp_key_distribution.

(** ** Comparing *)

(** The smaller of the two maximal key sizes. *)
Definition settle_key_size (s : smp_cb) : smp_cb :=
  if peer_enc_size s <? loc_enc_size s then set_loc_enc_size (peer_enc_size s) s else s.
(** A master distributes the keys that were received. *)
Definition use_peer_keys (s : smp_cb) : smp_cb := set_local_r_key (peer_r_key s) (set_local_i_key (peer_i_key s) s).

Definition smp_proc_compare (p_data : int_data) : M world () :=
  '(_, value) ← lift (data_key p_data);
  s ← gets cb;
  if bool_decide (rconfirm s = value) then
    upd settle_key_size;;
    if is_slave s then smp_sm_event SMP_RAND_EVT D_null
    else upd use_peer_keys;; smp_sm_event SMP_ENC_REQ_EVT D_null
  else
    upd (set_failure SMP_CONFIRM_VALUE_ERR);;
    auth_cmpl SMP_CONFIRM_VALUE_ERR.
Definition smp_match_dhkey_checks (p_data : int_data) : M world () :=
  '(_, value) ← lift (data_key p_data);
  s ← gets cb;
  if negb (bool_decide (value = remote_dhkey_check s)) then
    upd (set_failure SMP_DHKEY_CHK_FAIL);;
    auth_cmpl SMP_DHKEY_CHK_FAIL
  else
    upd settle_key_size;;
    if is_slave s then smp_sm_event SMP_PAIR_DHKEY_CHCK_EVT D_null
    else upd use_peer_keys;; smp_sm_event SMP_ENC_REQ_EVT D_null.

Definition smp_proc_sl_key (p_data : int_data) : M world () :=
  '(key_type, _) ← lift (data_key p_data);
  match key_type with
  | SMP_KEY_TYPE_TK => smp_generate_srand_mrand_confirm
  | SMP_KEY_TYPE_CFM =>
      upd (set_state SMP_STATE_WAIT_CONFIRM);;
      s ← gets cb;
      when (has (flags s) SMP_PAIR_FLAGS_CMD_CONFIRM) (smp_sm_event SMP_CONFIRM_EVT D_null)
  | _ => mret ()
  end.

(** ** Encryption and key distribution *)

Definition smp_start_enc (p_data : int_data) : M world () :=
  bda ← rd pairing_bda;
  stk ← match p_data with
        | D_null => mret None
        | _ => '(_, key) ← lift (data_key p_data); mret (Some key)
        end;
  cmd ← ask btm_ble_start_encrypt;
  emit (StartedEncryption bda stk);;
  match cmd with
  | BTM_CMD_STARTED | BTM_BUSY => mret ()
  | BTM_OTHER_STATUS => auth_cmpl SMP_ENC_FAIL
  end.
Definition smp_proc_discard : M world () :=
  s ← gets cb;
  when (negb (has (flags s) SMP_PAIR_FLAGS_WE_STARTED_DD)) smp_reset_control_value.
Definition smp_enc_cmpl (p_data : int_data) : M world () :=
  enc_enable ← lift (data_u8 p_data);
  auth_cmpl (if negb (enc_enable =? 0) then SMP_SUCCESS else SMP_ENC_FAIL).

Definition keys_after_encryption (s : smp_cb) : smp_cb :=
  if le_secure_connections_mode_is_used s then
    let s := set_local_i_key (Z.lor (local_i_key s) SMP_SEC_KEY_TYPE_ENC) s in
    let s := set_local_r_key (Z.lor (local_r_key s) SMP_SEC_KEY_TYPE_ENC) s in
    let s := if negb (has (local_i_key s) SMP_SEC_KEY_TYPE_LK) || negb (has (local_r_key s) SMP_SEC_KEY_TYPE_LK) then
               clear_r_key SMP_SEC_KEY_TYPE_LK (clear_i_key SMP_SEC_KEY_TYPE_LK s)
             else s in
    if is_master s then set_local_r_key (Z.land (local_r_key s) (Z.lor SMP_SEC_KEY_TYPE_ID SMP_SEC_KEY_TYPE_CSRK)) s else s
  else clear_r_key SMP_SEC_KEY_TYPE_LK (clear_i_key SMP_SEC_KEY_TYPE_LK s).
Definition smp_check_auth_req (p_data : int_data) : M world () :=
  enc_enable ← lift (data_u8 p_data);
  let reason := if negb (enc_enable =? 0) then SMP_SUCCESS else SMP_ENC_FAIL in
  if enc_enable =? 1 then
    upd keys_after_encryption;;
    s ← gets cb;
    if negb (local_i_key s =? 0) || negb (local_r_key s =? 0) then smp_sm_event SMP_BOND_REQ_EVT D_null
    else auth_cmpl reason
  else when (enc_enable =? 0) (
    s ← gets cb;
    if has (flags s) SMP_PAIR_FLAG_ENC_AFTER_PAIR then auth_cmpl reason
    else when (is_master s) (auth_cmpl reason)).

Definition smp_set_derive_link_key : M world () :=
  upd (set_derive_lk true);;
  upd (smp_update_key_mask SMP_SEC_KEY_TYPE_LK false);;
  smp_key_distribution.
Definition smp_derive_link_key_from_long_term_key : M world () :=
  ok ← smp_calculate_link_key_from_long_term_key;
  when (negb ok) (auth_cmpl SMP_PAIR_FAIL_UNKNOWN).

Definition smp_distribute_act : list (M world ()) :=
  [smp_generate_ltk; smp_send_id_info; smp_generate_csrk; smp_set_derive_link_key].
(** [while (i < SMP_KEY_DIST_TYPE_MAX)], which stops at the first key. *)
Fixpoint pick_key (i : Z) (acts : list (M world ())) (key_to_dist : Z) : M world () :=
  match acts with
  | [] => mret ()
  | act :: acts => if has key_to_dist (Z.shiftl 1 i) then act else pick_key (i + 1) acts key_to_dist
  end.
Definition smp_key_pick_key : M world () :=
  s ← gets cb;
  pick_key 0 smp_distribute_act (if is_slave s then local_r_key s else local_i_key s).
Definition key_distribution : M world () :=
  s ← gets cb;
  when (is_slave s || ((local_r_key s =? 0) && is_master s)) smp_key_pick_key;;
  s ← gets cb;
  when ((local_i_key s =? 0) && (local_r_key s =? 0)) (
    when (eqb (state s) SMP_STATE_BOND_PENDING) (
      when (derive_lk s) (
        smp_derive_link_key_from_long_term_key;;
        upd (set_derive_lk false));;
      s ← gets cb;
      if total_tx_unacked s =? 0 then auth_cmpl SMP_SUCCESS
      else upd (set_wait_for_authorization_complete true))).

(** ** The other actions *)

Definition smp_process_io_response : M world () :=
  s ← gets cb;
  if has (flags s) SMP_PAIR_FLAGS_WE_STARTED_DD then
    upd (set_state SMP_STATE_SEC_REQ_PENDING);;
    send SMP_OPCODE_SEC_REQ
  else
    model ← smp_select_association_model; upd (set_selected_association_model model);;
    s ← gets cb;
    if mode_not_allowed s then auth_cmpl SMP_PAIR_AUTH_FAIL else
    requested ← (if eqb model SMP_MODEL_SEC_CONN_OOB then smp_request_oob_data else mret false);
    if (requested : bool) then mret () else smp_send_pair_rsp.
Definition smp_pairing_cmpl : M world () :=
  n ← rd total_tx_unacked;
  when (n =? 0) smp_proc_pairing_cmpl.
Definition smp_pair_terminate : M world () := upd (set_status SMP_CONN_TOUT);; smp_proc_pairing_cmpl.
Definition smp_idle_terminate : M world () :=
  s ← gets cb;
  when (has (flags s) SMP_PAIR_FLAGS_WE_STARTED_DD) (upd (set_status SMP_FAIL);; smp_proc_pairing_cmpl).
Definition smp_fast_conn_param : M world () := bda ← rd pairing_bda; emit (ConnParamsUpdates bda false).

Definition smp_both_have_public_keys : M world () :=
  smp_compute_dhkey;;
  s ← gets cb;
  when (is_slave s) smp_send_pair_public_key;;
  smp_sm_event SMP_SC_DHKEY_CMPLT_EVT D_null.

Definition smp_process_secure_connection_oob_data : M world () :=
  s ← gets cb;
  let loc := loc_oob_data (sc_oob_data s) in
  let peer := peer_oob_data (sc_oob_data s) in
  upd (set_local_random (if loc_present loc then loc_randomizer loc else zeros 16));;
  if negb (peer_present peer) then
    upd (set_peer_random (zeros 16));;
    smp_start_nonce_generation
  else
    upd (set_peer_random (peer_randomizer peer));;
    upd (set_remote_commitment (peer_commitment peer));;
    ok ← smp_check_commitment;
    if negb ok then
      upd (set_failure SMP_CONFIRM_VALUE_ERR);;
      auth_cmpl SMP_CONFIRM_VALUE_ERR
    else
      s ← gets cb;
      when (negb (peer_oob_flag s =? SMP_OOB_PRESENT)) (upd (set_local_random (zeros 16)));;
      smp_start_nonce_generation.
Definition smp_start_secure_connection_phase1 : M world () :=
  model ← rd selected_association_model;
  upd (set_sec_level (if eqb model SMP_MODEL_SEC_CONN_JUSTWORKS then SMP_SEC_UNAUTHENTICATE else SMP_SEC_AUTHENTICATED));;
  match model with
  | SMP_MODEL_SEC_CONN_JUSTWORKS | SMP_MODEL_SEC_CONN_NUM_COMP =>
      upd (set_local_random (zeros 16));;
      smp_start_nonce_generation
  | SMP_MODEL_SEC_CONN_PASSKEY_ENT =>
      upd (set_cb_evt SMP_PASSKEY_REQ_EVT);;
      smp_sm_event SMP_TK_REQ_EVT D_null
  | SMP_MODEL_SEC_CONN_PASSKEY_DISP => smp_generate_passkey
  | SMP_MODEL_SEC_CONN_OOB => smp_process_secure_connection_oob_data
  | _ => mret ()
  end.
Definition smp_process_local_nonce : M world () :=
  s ← gets cb;
  match selected_association_model s with
  | SMP_MODEL_SEC_CONN_JUSTWORKS | SMP_MODEL_SEC_CONN_NUM_COMP =>
      if is_slave s then
        smp_calculate_local_commitment;;
        smp_send_commitment;;
        upd (set_state SMP_STATE_WAIT_NONCE)
      else when (has (flags s) SMP_PAIR_FLAG_HAVE_PEER_COMM) (
        upd (clear_flag SMP_PAIR_FLAG_HAVE_PEER_COMM);;
        smp_send_rand;;
        upd (set_state SMP_STATE_WAIT_NONCE))
  | SMP_MODEL_SEC_CONN_PASSKEY_ENT | SMP_MODEL_SEC_CONN_PASSKEY_DISP =>
      smp_calculate_local_commitment;;
      if is_master s then smp_send_commitment
      else when (has (flags s) SMP_PAIR_FLAG_HAVE_PEER_COMM) (
        smp_send_commitment;;
        upd (set_state SMP_STATE_WAIT_NONCE))
  | SMP_MODEL_SEC_CONN_OOB =>
      when (is_master s) smp_send_rand;;
      upd (set_state SMP_STATE_WAIT_NONCE)
  | _ => mret ()
  end.
Definition confirm_value_error : M world () :=
  upd (set_failure SMP_CONFIRM_VALUE_ERR);; auth_cmpl SMP_CONFIRM_VALUE_ERR.
Definition smp_process_peer_nonce : M world () :=
  s ← gets cb;
  match selected_association_model s with
  | SMP_MODEL_SEC_CONN_JUSTWORKS | SMP_MODEL_SEC_CONN_NUM_COMP =>
      ok ← (if is_master s then smp_check_commitment else smp_send_rand;; mret true);
      if negb ok then confirm_value_error else
      model ← rd selected_association_model;
      if eqb model SMP_MODEL_SEC_CONN_JUSTWORKS then smp_sm_event SMP_SC_PHASE1_CMPLT_EVT D_null
      else
        upd (set_state SMP_STATE_WAIT_NONCE);;
        smp_sm_event SMP_SC_CALC_NC_EVT D_null
  | SMP_MODEL_SEC_CONN_PASSKEY_ENT | SMP_MODEL_SEC_CONN_PASSKEY_DISP =>
      ok ← smp_check_commitment;
      if negb ok then confirm_value_error else
      when (is_slave s) smp_send_rand;;
      upd (λ s, set_round (u8 (round s + 1)) s);;
      r ← rd round;
      if r <? 20 then
        upd (set_state SMP_STATE_SEC_CONN_PHS1_START);;
        upd (clear_flag SMP_PAIR_FLAG_HAVE_PEER_COMM);;
        smp_start_nonce_generation
      else smp_sm_event SMP_SC_PHASE1_CMPLT_EVT D_null
  | SMP_MODEL_SEC_CONN_OOB =>
      when (is_slave s) smp_send_rand;;
      smp_sm_event SMP_SC_PHASE1_CMPLT_EVT D_null
  | _ => mret ()
  end.
Definition smp_move_to_secure_connections_phase2 : M world () := smp_sm_event SMP_SC_PHASE1_CMPLT_EVT D_null.
Definition smp_phase_2_dhkey_checks_are_present : M world () :=
  s ← gets cb;
  when (has (flags s) SMP_PAIR_FLAG_HAVE_PEER_DHK_CHK) (smp_sm_event SMP_SC_2_DHCK_CHKS_PRES_EVT D_null).
(** [UINT32_TO_STREAM] *)
Definition uint32 (v : Z) : list Z := [v mod 256; v / 256 mod 256; v / 65536 mod 256; v / 16777216 mod 256].
Definition smp_start_passkey_verification (p_data : int_data) : M world () :=
  passkey ← lift (data_passkey p_data);
  upd (λ s, set_local_random (uint32 passkey ++ drop 4 (local_random s)) s);;
  upd (λ s, set_peer_random (uint32 passkey ++ drop 4 (peer_random s)) s);;
  upd (set_round 0);;
  smp_start_nonce_generation.

Definition set_loc_oob (f : tSMP_LOC_OOB_DATA → tSMP_LOC_OOB_DATA) (s : smp_cb) : smp_cb :=
  set_sc_oob_data {| loc_oob_data := f (loc_oob_data (sc_oob_data s)); peer_oob_data := peer_oob_data (sc_oob_data s) |} s.
Definition smp_set_local_oob_keys : M world () :=
  s ← gets cb;
  upd (set_loc_oob (λ l, {| loc_present := loc_present l; loc_randomizer := loc_randomizer l; loc_commitment := loc_commitment l;
                            addr_sent_to := addr_sent_to l; private_key_used := private_key s;
                            publ_key_used := loc_publ_key s |}));;
  smp_start_nonce_generation.
Definition smp_set_local_oob_random_commitment : M world () :=
  s ← gets cb;
  let x := publ_x (publ_key_used (loc_oob_data (sc_oob_data s))) in
  c ← crypto (smp_calculate_f4 available cipher_ctx junk x x (rand s) 0);
  upd (set_loc_oob (λ l, {| loc_present := loc_present l; loc_randomizer := rand s; loc_commitment := c;
                            addr_sent_to := addr_sent_to l; private_key_used := private_key_used l;
                            publ_key_used := publ_key_used l |}));;
  upd (set_cb_evt SMP_SC_LOC_OOB_DATA_UP_EVT);;
  smp_send_app_cback D_null;;
  smp_cb_cleanup.

(** ** Dispatch *)

Definition smp_sm_action (a : action) (d : int_data) : M world () :=
  match a with
  | SMP_PROC_SEC_REQ => smp_proc_sec_req d
  | SMP_SEND_PAIR_REQ => smp_send_pair_req
  | SMP_SEND_PAIR_RSP => smp_send_pair_rsp
  | SMP_SEND_CONFIRM => smp_send_confirm
  | SMP_SEND_PAIR_FAIL => smp_send_pair_fail d
  | SMP_SEND_RAND => smp_send_rand
  | SMP_SEND_ENC_INFO => smp_send_enc_info
  | SMP_SEND_ID_INFO => smp_send_id_info
  | SMP_SEND_LTK_REPLY => smp_send_ltk_reply d
  | SMP_PROC_PAIR_CMD => smp_proc_pair_cmd d
  | SMP_PROC_PAIR_FAIL => smp_proc_pair_fail d
  | SMP_PROC_CONFIRM => smp_proc_confirm d
  | SMP_PROC_RAND => smp_proc_rand d
  | SMP_PROC_ENC_INFO => smp_proc_enc_info d
  | SMP_PROC_MASTER_ID => smp_proc_master_id d
  | SMP_PROC_ID_INFO => smp_proc_id_info d
  | SMP_PROC_ID_ADDR => smp_proc_id_addr d
  | SMP_PROC_SRK_INFO => smp_proc_srk_info d
  | SMP_PROC_SEC_GRANT => smp_proc_sec_grant d
  | SMP_PROC_SL_KEY => smp_proc_sl_key d
  | SMP_PROC_COMPARE => smp_proc_compare d
  | SMP_PROC_IO_RSP => smp_process_io_response
  | SMP_GENERATE_COMPARE => smp_generate_compare
  | SMP_GENERATE_CONFIRM => smp_generate_srand_mrand_confirm
  | SMP_GENERATE_STK => smp_generate_stk
  | SMP_KEY_DISTRIBUTE => smp_key_distribution
  | SMP_START_ENC => smp_start_enc d
  | SMP_PAIRING_CMPL => smp_pairing_cmpl
  | SMP_DECIDE_ASSO_MODEL => smp_decide_association_model
  | SMP_SEND_APP_CBACK => smp_send_app_cback d
  | SMP_CHECK_AUTH_REQ => smp_check_auth_req d
  | SMP_PAIR_TERMINATE => smp_pair_terminate
  | SMP_ENC_CMPL => smp_enc_cmpl d
  | SMP_PROC_DISCARD => smp_proc_discard
  | SMP_CREATE_PRIVATE_KEY => smp_create_private_key
  | SMP_USE_OOB_PRIVATE_KEY => smp_use_oob_private_key
  | SMP_SEND_PAIR_PUBLIC_KEY => smp_send_pair_public_key
  | SMP_PROCESS_PAIR_PUBLIC_KEY => smp_process_pairing_public_key d
  | SMP_HAVE_BOTH_PUBLIC_KEYS => smp_both_have_public_keys
  | SMP_START_SEC_CONN_PHASE1 => smp_start_secure_connection_phase1
  | SMP_PROCESS_LOCAL_NONCE => smp_process_local_nonce
  | SMP_SEND_COMMITMENT => smp_send_commitment
  | SMP_PROCESS_PAIRING_COMMITMENT => smp_process_pairing_commitment d
  | SMP_PROCESS_PEER_NONCE => smp_process_peer_nonce
  | SMP_CALCULATE_LOCAL_DHKEY_CHECK => smp_calculate_local_dhkey_check
  | SMP_SEND_DHKEY_CHECK => smp_send_dhkey_check
  | SMP_PROCESS_DHKEY_CHECK => smp_process_dhkey_check d
  | SMP_CALCULATE_PEER_DHKEY_CHECK => smp_calculate_peer_dhkey_check
  | SMP_MATCH_DHKEY_CHECKS => smp_match_dhkey_checks d
  | SMP_CALCULATE_NUMERIC_COMPARISON_DISPLAY_NUMBER => smp_calculate_numeric_comparison_display_number
  | SMP_MOVE_TO_SEC_CONN_PHASE2 => smp_move_to_secure_connections_phase2
  | SMP_PH2_DHKEY_CHECKS_ARE_PRESENT => smp_phase_2_dhkey_checks_are_present
  | SMP_WAIT_FOR_BOTH_PUBLIC_KEYS => smp_wait_for_both_public_keys
  | SMP_START_PASSKEY_VERIFICATION => smp_start_passkey_verification d
  | SMP_SEND_KEYPRESS_NOTIFICATION => smp_send_keypress_notification d
  | SMP_PROCESS_KEYPRESS_NOTIFICATION => smp_process_keypress_notification d
  | SMP_PROCESS_SECURE_CONNECTION_OOB_DATA => smp_process_secure_connection_oob_data
  | SMP_SET_LOCAL_OOB_KEYS => smp_set_local_oob_keys
  | SMP_SET_LOCAL_OOB_RAND_COMMITMENT => smp_set_local_oob_random_commitment
  | SMP_IDLE_TERMINATE => smp_idle_terminate
  | SMP_FAST_CONN_PARAM => smp_fast_conn_param
  | SMP_SM_NO_ACTION => mret ()
  end.

(** [for (i = 0; i < SMP_NUM_ACTIONS; i++)], which stops at [SMP_SM_NO_ACTION]. *)
Definition run_actions (row : sm_row) (d : int_data) : M world () :=
  let '(a1, a2, _) := row in
  if eqb a1 SMP_SM_NO_ACTION then mret () else
  smp_sm_action a1 d;;
  if eqb a2 SMP_SM_NO_ACTION then mret () else smp_sm_action a2 d.
Definition sm_event (e : tSMP_EVENT) (d : int_data) : M world () :=
  s ← gets cb;
  row ← lift (sm_lookup (role s) (state s) e);
  match row with
  | None => mret ()
  | Some row => upd (set_state row.2);; run_actions row d
  end.
End Actions.

(** The state machine and the key distribution, each entered at most [fuel] times
    within itself. *)
Fixpoint engine `{Host} (fuel : nat) : (tSMP_EVENT → int_data → M world ()) * M world () :=
  match fuel with
  | O => (λ _ _, fail OutOfFuel, fail OutOfFuel)
  | S fuel => let e := engine fuel in (sm_event e.1 e.2, key_distribution e.1 e.2)
  end.
