(* ===== verification/SmpEvents.v ===== *)
(** * What enters the pairing state machine

    Models [src/components/bt/bluedroid/stack/smp/smp_l2c.c] (the channel of
    pairing), the operations of [smp_api.c], the callback for random numbers of
    [smp_keys.c], the timeout of [smp_utils.c], and the functions of [smp_act.c] that
    the link calls. *)

From S2P Require Import Prelude Aes Cmac Smp SmpTables SmpCb SmpCommands SmpAct.

Section Events.
Context `{Host, Fuel}.

Definition smp_sm_event : tSMP_EVENT → int_data → M world () := (engine fuel).1.
Definition smp_key_distribution : M world () := (engine fuel).2.

(** ** The channel *)

Definition smp_connect_callback (bd_addr : list Z) (connected : bool) : M world () :=
  if bda_eqb bd_addr (zeros 6) then mret () else
  s ← gets cb;
  if negb (bda_eqb bd_addr (pairing_bda s)) then mret () else
  if connected then
    when (negb (connect_initialized s)) (
      upd (set_connect_initialized true);;
      upd (set_role (L2CA_GetBleConnRole bd_addr));;
      upd (set_local_i_key SMP_SEC_DEFAULT_KEY);;
      upd (set_local_r_key SMP_SEC_DEFAULT_KEY);;
      upd (set_peer_auth_req SMP_DEFAULT_AUTH_REQ);;
      upd (set_loc_auth_req SMP_DEFAULT_AUTH_REQ);;
      upd (set_cb_evt SMP_IO_CAP_REQ_EVT);;
      smp_sm_event SMP_L2CAP_CONN_EVT D_null)
  else smp_sm_event SMP_L2CAP_DISCONN_EVT D_null.

(** The command with its code, from a device; the state machine gets the rest. *)
Definition smp_data_received (bd_addr data : list Z) : M world () :=
  cmd ← lift (load data 0);
  let p := drop 1 data in
  if (SMP_OPCODE_MAX <? cmd) || (cmd <? SMP_OPCODE_MIN) then mret () else
  s ← gets cb;
  accepted ←
    (if (cmd =? SMP_OPCODE_PAIRING_REQ) || (cmd =? SMP_OPCODE_SEC_REQ) then
       if eqb (state s) SMP_STATE_IDLE && negb (has (flags s) SMP_PAIR_FLAGS_WE_STARTED_DD) then
         upd (set_role (L2CA_GetBleConnRole bd_addr));;
         upd (set_pairing_bda bd_addr);;
         mret true
       else if negb (bda_eqb bd_addr (pairing_bda s)) then
         smp_reject_unexpected_pairing_command bd_addr;; mret false
       else mret true
     else mret true);
  s ← gets cb;
  when (accepted && bda_eqb bd_addr (pairing_bda s)) (
    emit StopTimer;; emit StartTimer;;
    let cmd :=
      if (cmd =? SMP_OPCODE_CONFIRM) && has (peer_auth_req s) SMP_SC_SUPPORT_BIT && has (loc_auth_req s) SMP_SC_SUPPORT_BIT
      then SMP_OPCODE_PAIR_COMMITM else cmd in
    upd (set_rcvd_cmd_code cmd);;
    upd (set_rcvd_cmd_len (u8 (zlen data)));;
    match command_event cmd with Some e => smp_sm_event e (D_bytes p) | None => mret () end).

Definition smp_tx_complete_callback (num_pkt : Z) : M world () :=
  s ← gets cb;
  when (num_pkt <=? total_tx_unacked s) (upd (set_total_tx_unacked (total_tx_unacked s - num_pkt)));;
  s ← gets cb;
  when ((total_tx_unacked s =? 0) && wait_for_authorization_complete s) (smp_sm_event SMP_AUTH_CMPL_EVT (D_u8 SMP_SUCCESS)).

Definition smp_rsp_timeout : M world () := smp_sm_event SMP_AUTH_CMPL_EVT (D_u8 SMP_RSP_TIMEOUT).

(** ** Random numbers

    [None] is the null pointer.  The bytes are copied as many as [param_len] says. *)

Definition copy_to (f : smp_cb → list Z) (set : list Z → smp_cb → smp_cb) (offset : Z) (p : tSMP_ENC) : M world () :=
  d ← lift (load_bytes (param_buf p) 0 (param_len p));
  s ← gets cb;
  a ← lift (store_bytes (f s) offset d);
  upd (set a).

Definition smp_continue_private_key_creation (p : tSMP_ENC) : M world () :=
  st ← rd rand_enc_proc_state;
  let continue offset next :=
    copy_to private_key set_private_key offset p;;
    upd (set_rand_enc_proc_state next);;
    request_rand smp_sm_event in
  match st with
  | SMP_GENERATE_PRIVATE_KEY_0_7 => continue 0 SMP_GENERATE_PRIVATE_KEY_8_15
  | SMP_GENERATE_PRIVATE_KEY_8_15 => continue 8 SMP_GENERATE_PRIVATE_KEY_16_23
  | SMP_GENERATE_PRIVATE_KEY_16_23 => continue 16 SMP_GENERATE_PRIVATE_KEY_24_31
  | SMP_GENERATE_PRIVATE_KEY_24_31 => copy_to private_key set_private_key 24 p;; smp_process_private_key smp_sm_event
  | _ => mret ()
  end.

Definition smp_proc_passkey (p : tSMP_ENC) : M world () :=
  b ← lift (load_bytes (param_buf p) 0 4);
  let passkey := Z.land (stream_to_uint b) 1048575 in
  passkey ← lift (passkey_loop 20 passkey);
  let key := uint32 passkey ++ zeros 12 in
  upd (set_tk key);;
  s ← gets cb;
  when (p_callback s) (emit (AppCallback SMP_PASSKEY_NOTIF_EVT (pairing_bda s) (CB_passkey passkey)));;
  smp_sm_event SMP_KEY_READY_EVT
    (if eqb (selected_association_model s) SMP_MODEL_SEC_CONN_PASSKEY_DISP then D_passkey passkey
     else D_key SMP_KEY_TYPE_TK key).

Definition take_div (p : tSMP_ENC) : M world () :=
  b ← lift (load_bytes (param_buf p) 0 2); upd (set_div (stream_to_uint b)).

Definition smp_rand_back (p : option tSMP_ENC) : M world () :=
  let failed := smp_sm_event SMP_AUTH_CMPL_EVT (D_u8 SMP_PAIR_FAIL_UNKNOWN) in
  match p with
  | None => failed
  | Some p =>
      if negb (Cmac.status p =? HCI_SUCCESS) then failed else
      st ← rd rand_enc_proc_state;
      match st with
      | SMP_GEN_SRAND_MRAND => copy_to rand set_rand 0 p;; smp_generate_rand_cont smp_sm_event
      | SMP_GEN_SRAND_MRAND_CONT => copy_to rand set_rand 8 p;; smp_generate_confirm smp_sm_event
      | SMP_GEN_DIV_LTK => take_div p;; smp_generate_ltk_cont smp_sm_event
      | SMP_GEN_DIV_CSRK => take_div p;; smp_compute_csrk smp_sm_event smp_key_distribution
      | SMP_GEN_TK => smp_proc_passkey p
      | SMP_GEN_RAND_V =>
          d ← lift (load_bytes (param_buf p) 0 8);
          upd (set_enc_rand d);;
          smp_generate_y smp_sm_event
      | SMP_GENERATE_PRIVATE_KEY_0_7 | SMP_GENERATE_PRIVATE_KEY_8_15 | SMP_GENERATE_PRIVATE_KEY_16_23
      | SMP_GENERATE_PRIVATE_KEY_24_31 => smp_continue_private_key_creation p
      | SMP_GEN_NONCE_0_7 => copy_to rand set_rand 0 p;; smp_finish_nonce_generation smp_sm_event
      | SMP_GEN_NONCE_8_15 => copy_to rand set_rand 8 p;; smp_process_new_nonce smp_sm_event
      | _ => mret ()
      end
  end.

(** ** The link *)

Definition smp_link_encrypted (bda : list Z) (encr_enable : Z) : M world () :=
  s ← gets cb;
  when (bda_eqb (pairing_bda s) bda) (
    when (negb (loc_enc_size s =? 0) && negb (encr_enable =? 0)) (emit (KeySizeUpdated bda (loc_enc_size s)));;
    smp_sm_event SMP_ENCRYPTED_EVT (D_u8 encr_enable)).
(** [btm_find_dev] gives the pseudo address of a device. *)
Definition smp_proc_ltk_request (bda : list Z) : M world bool :=
  s ← gets cb;
  let matches :=
    bda_eqb bda (pairing_bda s) ||
    match btm_find_dev bda with
    | Some pseudo_addr => bda_eqb pseudo_addr (pairing_bda s) && negb (bda_eqb pseudo_addr (zeros 6))
    | None => false
    end in
  if matches && eqb (state s) SMP_STATE_ENCRYPTION_PENDING then
    smp_sm_event SMP_ENC_REQ_EVT D_null;; mret true
  else mret false.

(** ** The application *)

Definition SMP_Init : M world () := upd (λ _, cb_zero).
Definition SMP_Register : M world bool := upd (set_p_callback true);; mret true.
Definition SMP_Pair (bd_addr : list Z) : M world Z :=
  s ← gets cb;
  if negb (eqb (state s) SMP_STATE_IDLE) || has (flags s) SMP_PAIR_FLAGS_WE_STARTED_DD then mret SMP_BUSY else
  upd (set_flags SMP_PAIR_FLAGS_WE_STARTED_DD);;
  upd (set_pairing_bda bd_addr);;
  connected ← ask L2CA_ConnectFixedChnl;
  if negb connected then
    smp_sm_event SMP_AUTH_CMPL_EVT (D_u8 SMP_PAIR_INTERNAL_ERR);; mret SMP_PAIR_INTERNAL_ERR
  else emit (Connected bd_addr);; mret SMP_STARTED.
Definition SMP_PairCancel (bd_addr : list Z) : M world bool :=
  s ← gets cb;
  if negb (eqb (state s) SMP_STATE_IDLE) && bda_eqb (pairing_bda s) bd_addr then
    upd (set_is_pair_cancel true);;
    smp_sm_event SMP_AUTH_CMPL_EVT (D_u8 SMP_PAIR_FAIL_UNKNOWN);; mret true
  else mret false.
Definition SMP_SecurityGrant (bd_addr : list Z) (res : Z) : M world () :=
  s ← gets cb;
  if negb (eqb (state s) SMP_STATE_WAIT_APP_RSP) || negb (cb_evt s =? SMP_SEC_REQUEST_EVT) ||
     negb (bda_eqb (pairing_bda s) bd_addr) then mret () else
  upd (set_cb_evt 0);;
  smp_sm_event SMP_API_SEC_GRANT_EVT (D_u8 res).
Definition smp_convert_string_to_tk (passkey : Z) : M world () :=
  s ← gets cb;
  let key := uint32 passkey ++ drop 4 (tk s) in
  upd (set_tk key);;
  smp_sm_event SMP_KEY_READY_EVT (D_key SMP_KEY_TYPE_TK key).
Definition SMP_PasskeyReply (bd_addr : list Z) (res passkey : Z) : M world () :=
  s ← gets cb;
  if negb (cb_evt s =? SMP_PASSKEY_REQ_EVT) then mret () else
  if negb (bda_eqb bd_addr (pairing_bda s)) then mret () else
  if negb (bool_decide (is_Some (btm_find_dev bd_addr))) then mret () else
  if (BTM_MAX_PASSKEY_VAL <? passkey) || negb (res =? SMP_SUCCESS) then
    smp_sm_event SMP_AUTH_CMPL_EVT (D_u8 SMP_PASSKEY_ENTRY_FAIL)
  else if eqb (selected_association_model s) SMP_MODEL_SEC_CONN_PASSKEY_ENT then
    smp_sm_event SMP_SC_KEY_READY_EVT (D_passkey passkey)
  else smp_convert_string_to_tk passkey.
Definition SMP_ConfirmReply (bd_addr : list Z) (res : Z) : M world () :=
  s ← gets cb;
  if negb (cb_evt s =? SMP_NC_REQ_EVT) then mret () else
  if negb (bda_eqb bd_addr (pairing_bda s)) then mret () else
  if negb (bool_decide (is_Some (btm_find_dev bd_addr))) then mret () else
  if negb (res =? SMP_SUCCESS) then smp_sm_event SMP_AUTH_CMPL_EVT (D_u8 SMP_NUMERIC_COMPAR_FAIL)
  else smp_sm_event SMP_SC_NC_OK_EVT D_null.
(** The address is not looked at. *)
Definition SMP_OobDataReply (res len : Z) (p_data : option (list Z)) : M world () :=
  s ← gets cb;
  if negb (eqb (state s) SMP_STATE_WAIT_APP_RSP) || negb (cb_evt s =? SMP_OOB_REQ_EVT) then mret () else
  match p_data with
  | Some p_data =>
      if negb (res =? SMP_SUCCESS) || (len =? 0) then smp_sm_event SMP_AUTH_CMPL_EVT (D_u8 SMP_OOB_FAIL) else
      let len := if BT_OCTET16_LEN <? len then BT_OCTET16_LEN else len in
      d ← lift (load_bytes p_data 0 len);
      key ← lift (store_bytes (tk s) 0 d);
      upd (set_tk key);;
      smp_sm_event SMP_KEY_READY_EVT (D_key SMP_KEY_TYPE_TK key)
  | None => smp_sm_event SMP_AUTH_CMPL_EVT (D_u8 SMP_OOB_FAIL)
  end.
Definition data_missing (req_oob_type : Z) (oob : tSMP_SC_OOB_DATA) : bool :=
  if req_oob_type =? SMP_OOB_PEER then negb (peer_present (peer_oob_data oob))
  else if req_oob_type =? SMP_OOB_LOCAL then negb (loc_present (loc_oob_data oob))
  else if req_oob_type =? SMP_OOB_BOTH then negb (loc_present (loc_oob_data oob)) || negb (peer_present (peer_oob_data oob))
  else true.
Definition SMP_SecureConnectionOobDataReply (p_oob : option tSMP_SC_OOB_DATA) : M world () :=
  match p_oob with
  | None => smp_sm_event SMP_AUTH_CMPL_EVT (D_u8 SMP_OOB_FAIL)
  | Some oob =>
      s ← gets cb;
      if negb (eqb (state s) SMP_STATE_WAIT_APP_RSP) || negb (cb_evt s =? SMP_SC_OOB_REQ_EVT) then mret () else
      if data_missing (req_oob_type s) oob then smp_sm_event SMP_AUTH_CMPL_EVT (D_u8 SMP_OOB_FAIL) else
      upd (set_sc_oob_data oob);;
      smp_sm_event SMP_SC_OOB_DATA_EVT D_null
  end.
Definition SMP_KeypressNotification (bd_addr : list Z) (value : Z) : M world () :=
  s ← gets cb;
  if negb (bda_eqb bd_addr (pairing_bda s)) then mret () else
  if negb (bool_decide (is_Some (btm_find_dev bd_addr))) then mret () else
  if negb (local_io_capability s =? SMP_IO_CAP_IN) then mret () else
  if negb (eqb (selected_association_model s) SMP_MODEL_SEC_CONN_PASSKEY_ENT) then mret () else
  smp_sm_event SMP_KEYPRESS_NOTIFICATION_EVENT (D_u8 value).
Definition SMP_CreateLocalSecureConnectionsOobData (addr_to_send_to : option (list Z * Z)) : M world bool :=
  match addr_to_send_to with
  | None => mret false
  | Some addr =>
      s ← gets cb;
      if negb (eqb (state s) SMP_STATE_IDLE) then mret false else
      upd (set_loc_oob (λ l, {| loc_present := loc_present l; loc_randomizer := loc_randomizer l;
                                loc_commitment := loc_commitment l; addr_sent_to := addr;
                                private_key_used := private_key_used l; publ_key_used := publ_key_used l |}));;
      smp_sm_event SMP_CR_LOC_SC_OOB_DATA_EVT D_null;; mret true
  end.

(** ** Everything that may happen *)

Inductive input :=
| In_connect (bd_addr : list Z) (connected : bool) | In_data (bd_addr data : list Z) | In_tx_complete (num_pkt : Z)
| In_timeout | In_rand (p : option tSMP_ENC) | In_encrypted (bda : list Z) (encr_enable : Z) | In_ltk_request (bda : list Z)
| In_Init | In_Register | In_Pair (bd_addr : list Z) | In_PairCancel (bd_addr : list Z) | In_SecurityGrant (bd_addr : list Z) (res : Z)
| In_PasskeyReply (bd_addr : list Z) (res passkey : Z) | In_ConfirmReply (bd_addr : list Z) (res : Z)
| In_OobDataReply (res len : Z) (p_data : option (list Z)) | In_SecureConnectionOobDataReply (p_oob : option tSMP_SC_OOB_DATA)
| In_KeypressNotification (bd_addr : list Z) (value : Z) | In_CreateLocalOobData (addr : option (list Z * Z)).

Definition handle (i : input) : M world () :=
  match i with
  | In_connect bd_addr connected => smp_connect_callback bd_addr connected
  | In_data bd_addr data => smp_data_received bd_addr data
  | In_tx_complete num_pkt => smp_tx_complete_callback num_pkt
  | In_timeout => smp_rsp_timeout
  | In_rand p => smp_rand_back p
  | In_encrypted bda encr_enable => smp_link_encrypted bda encr_enable
  | In_ltk_request bda => smp_proc_ltk_request bda;; mret ()
  | In_Init => SMP_Init
  | In_Register => SMP_Register;; mret ()
  | In_Pair bd_addr => SMP_Pair bd_addr;; mret ()
  | In_PairCancel bd_addr => SMP_PairCancel bd_addr;; mret ()
  | In_SecurityGrant bd_addr res => SMP_SecurityGrant bd_addr res
  | In_PasskeyReply bd_addr res passkey => SMP_PasskeyReply bd_addr res passkey
  | In_ConfirmReply bd_addr res => SMP_ConfirmReply bd_addr res
  | In_OobDataReply res len p_data => SMP_OobDataReply res len p_data
  | In_SecureConnectionOobDataReply p_oob => SMP_SecureConnectionOobDataReply p_oob
  | In_KeypressNotification bd_addr value => SMP_KeypressNotification bd_addr value
  | In_CreateLocalOobData addr => SMP_CreateLocalSecureConnectionsOobData addr;; mret ()
  end.
Definition handle_all (l : list input) : M world () := foldr (λ i m, handle i;; m) (mret ()) l.
End Events.
