(* ===== verification/SmpWf.v ===== *)
(** * The types of the control block of pairing

    The sizes and ranges of the fields of [smp_cb], as an invariant, what the
    surroundings must provide for it, and the shapes of the results of the key
    functions. *)

From S2P Require Import Prelude Aes AesProofs Cmac CmacProofs Smp SmpProofs MultiPrecision MultiPrecisionProofs Ecc EccProofs EccSpec.
From S2P Require Import SmpTables SmpCb SmpCommands SmpAct SmpEvents.

(** ** The invariant *)

Definition publ_wf (k : tSMP_PUBLIC_KEY) : Prop := octets 32 (publ_x k) ∧ octets 32 (publ_y k).
Record oob_wf (o : tSMP_SC_OOB_DATA) : Prop := {
  wf_loc_randomizer : block (loc_randomizer (loc_oob_data o));
  wf_loc_commitment : block (loc_commitment (loc_oob_data o));
  wf_private_key_used : octets 32 (private_key_used (loc_oob_data o));
  wf_publ_key_used : publ_wf (publ_key_used (loc_oob_data o));
  wf_peer_randomizer : block (peer_randomizer (peer_oob_data o));
  wf_peer_commitment : block (peer_commitment (peer_oob_data o)) }.

(** Every array has its size and holds bytes, and the integers that enter a key
    function have their width. *)
Record cb_wf (s : smp_cb) : Prop := {
  wf_confirm : block (confirm s); wf_rconfirm : block (rconfirm s);
  wf_rrand : block (rrand s); wf_rand : block (rand s);
  wf_commitment : block (commitment s); wf_remote_commitment : block (remote_commitment s);
  wf_local_random : block (local_random s); wf_peer_random : block (peer_random s);
  wf_dhkey_check : block (dhkey_check s); wf_remote_dhkey_check : block (remote_dhkey_check s);
  wf_mac_key : block (mac_key s); wf_tk : block (tk s); wf_ltk : block (ltk s); wf_csrk : block (csrk s);
  wf_private_key : octets 32 (private_key s); wf_dhkey : octets 32 (dhkey s);
  wf_loc_publ_key : publ_wf (loc_publ_key s); wf_peer_publ_key : publ_wf (peer_publ_key s);
  wf_oob : oob_wf (sc_oob_data s); wf_enc_rand : octets 8 (enc_rand s);
  wf_local_io : is_byte (local_io_capability s); wf_loc_oob : is_byte (loc_oob_flag s); wf_loc_auth : is_byte (loc_auth_req s);
  wf_peer_io : is_byte (peer_io_caps s); wf_peer_oob : is_byte (peer_oob_flag s); wf_peer_auth : is_byte (peer_auth_req s);
  wf_div : 0 ≤ div s < 65536 }.

Definition io_wf (r : tSMP_IO_REQ) : Prop := is_byte (io_cap r) ∧ is_byte (oob_data r) ∧ is_byte (auth_req r).
Definition data_wf (d : int_data) : Prop :=
  match d with D_bytes p => bytes_ok p | D_u8 v | D_oob_type v => is_byte v | _ => True end.

(** What the types of the surroundings say. *)
Class HostTypes `{Host} := {
  junk_block : block junk;
  er_block : block device_er;
  dhk_block : block device_dhk;
  conn_addr_octets bda : octets 6 (BTM_ReadConnectionAddr bda).1;
  remote_addr_octets bda a : BTM_ReadRemoteConnectionAddr bda = Some a → octets 6 a.1;
  stack_address_octets : octets 6 stack_address.1;
  stack_confirm_blocks : block stack_confirm.1 ∧ block stack_confirm.2;
  callback_io n q r : callback n q = Some r → io_wf r;
  local_div_range bda : 0 ≤ btm_local_div bda < 65536 }.

Lemma block_zeros : block (zeros 16).
Proof. split; [done|by apply Forall_replicate]. Qed.
Lemma octets_zeros n : octets n (zeros n).
Proof. split; [apply length_replicate|by apply Forall_replicate]. Qed.
Create HintDb smp.
#[export] Hint Resolve block_zeros octets_zeros : smp.

Lemma cb_wf_zero : cb_wf cb_zero.
Proof.
  assert (H32 : publ_wf no_publ_key) by (split; apply octets_zeros).
  constructor; try exact block_zeros; try apply octets_zeros; try done. constructor; try exact block_zeros; [apply octets_zeros|done].
Qed.

(** An assignment keeps the invariant when the new value is of the field's type. *)
Ltac wf_open := repeat match goal with H : cb_wf _ |- _ => destruct H end.
Ltac wf_field := cbn; first [assumption | solve [auto with smp] | idtac].
Ltac wf := match goal with |- cb_wf _ => wf_open; constructor; wf_field end.

(** ** Bytes and words *)

Lemma land_255 x : Z.land x 255 = x mod 256.
Proof. exact (Z.land_ones x 8 ltac:(lia)). Qed.
Lemma byte_land x m : is_byte x → is_byte (Z.land x m).
Proof.
  unfold is_byte. intros H. assert (E : Z.land x m = Z.land x m mod 256); [|rewrite E; apply Z.mod_pos_bound; lia].
  rewrite <- land_255, <- Z.land_assoc, (Z.land_comm m), Z.land_assoc, land_255. by rewrite (Z.mod_small x) by lia.
Qed.
Lemma byte_ldiff x m : is_byte x → is_byte (Z.ldiff x m).
Proof. intros H. rewrite Z.ldiff_land. by apply byte_land. Qed.
Lemma byte_lor x m : is_byte x → is_byte m → is_byte (Z.lor x m).
Proof.
  unfold is_byte. intros [H0 H1] [H2 H3]. split; [by apply Z.lor_nonneg|].
  replace (Z.lor x m) with (Z.lor x m mod 256); [apply Z.mod_pos_bound; lia|].
  change 256 with (2 ^ 8). apply Z.bits_inj'. intros i Hi. rewrite Z.testbit_mod_pow2 by lia.
  destruct (Z.ltb_spec i 8); [done|]. rewrite Z.lor_spec.
  assert (Hz : ∀ y, 0 ≤ y < 256 → Z.testbit y i = false).
  { intros y Hy. destruct (decide (y = 0)) as [->|]; [apply Z.testbit_0_l|]. apply Z.bits_above_log2; [lia|].
    apply Z.lt_le_trans with 8; [apply Z.log2_lt_pow2; cbn; lia|done]. }
  by rewrite !Hz.
Qed.
Lemma byte_u8 z : is_byte (u8 z).
Proof. apply Z.mod_pos_bound. lia. Qed.
#[export] Hint Resolve byte_land byte_ldiff byte_lor byte_u8 : smp.

Lemma load_is_byte b i v : bytes_ok b → load b i = Ok v → is_byte v.
Proof. intros Hb [_ E]%load_Ok. rewrite Forall_lookup in Hb. by eapply Hb. Qed.
Lemma load_bytes_octets b i n d : bytes_ok b → load_bytes b i n = Ok d → octets (Z.to_nat n) d.
Proof.
  intros Hb. unfold load_bytes. case_decide as Hd; [|done]. intros [= <-]. destruct Hd as (H0 & H1 & H2).
  split; [rewrite length_take, length_drop; lia|]. by apply Forall_take, Forall_drop.
Qed.
Lemma load_bytes_block b i d : bytes_ok b → load_bytes b i BT_OCTET16_LEN = Ok d → block d.
Proof. apply load_bytes_octets. Qed.
Lemma store_bytes_octets n b i d b' : octets n b → bytes_ok d → store_bytes b i d = Ok b' → octets n b'.
Proof.
  intros [Hl Hb] Hd E. split; [by rewrite (store_bytes_length _ _ _ _ E)|].
  unfold store_bytes in E. case_decide; [|done]. injection E as [= <-].
  apply Forall_app. split; [by apply Forall_take|]. apply Forall_app. split; [done|by apply Forall_drop].
Qed.

Lemma stream_range l : bytes_ok l → 0 ≤ stream_to_uint l < 256 ^ zlen l.
Proof. rewrite stream_to_uint_val. apply le_val_range. Qed.
Lemma stream2_range l : octets 2 l → 0 ≤ stream_to_uint l < 65536.
Proof. intros [Hl Hb]. pose proof (stream_range l Hb) as Hr. rewrite Hl in Hr. exact Hr. Qed.

Lemma to_words_octa n b : bytes_ok b → words_ok (to_words n b) ∧ length (to_words n b) = n.
Proof.
  revert b. induction n as [|n IH]; intros b Hb; [by split; [constructor|]|]. cbn [to_words length].
  destruct (IH (drop 4 b)) as [H1 H2]; [by apply Forall_drop|]. split; [|by rewrite H2].
  constructor; [|done]. pose proof (stream_range (take 4 b) ltac:(by apply Forall_take)) as Hr.
  assert (256 ^ zlen (take 4 b) ≤ 256 ^ 4) by (apply Z.pow_le_mono_r; [lia|]; rewrite length_take; lia).
  unfold is_word. change (256 ^ 4) with 4294967296 in *. lia.
Qed.
Lemma of_words_octets n w : words_ok w → length w = n → octets (4 * n) (of_words w).
Proof.
  intros Hw <-. unfold of_words. induction Hw as [|x w Hx Hw IH]; [done|]. rewrite fmap_cons. cbn [concat].
  replace (4 * length (x :: w))%nat with (4 + 4 * length w)%nat by (cbn; lia). apply octets_app; [|done].
  split; [done|]. unfold is_word in Hx. assert (0 ≤ x / 16777216 < 256).
  { split; [apply Z.div_pos; lia|apply Z.div_lt_upper_bound; lia]. }
  repeat constructor; try apply Z.mod_pos_bound; lia.
Qed.

(** ** The shapes of the results of the key functions *)

(** From every state [m] returns a result with [P] or stops at a fault that is not
    a lack of fuel. *)
Definition yields {A} (m : M smp_state A) (P : A → Prop) : Prop := ∀ s, wp m (λ a _, P a) s.

Lemma yields_ret {A} (a : A) (P : A → Prop) : P a → yields (mret a) P.
Proof. by intros H s. Qed.
Lemma yields_bind {A B} (m : M smp_state A) (k : A → M smp_state B) P Q :
  yields m P → (∀ a, P a → yields (k a) Q) → yields (m ≫= k) Q.
Proof. intros Hm Hk s. apply wp_bind. eapply wp_mono; [apply Hm|]. intros a s' Ha. by apply Hk. Qed.
Lemma yields_mono {A} (m : M smp_state A) (P Q : A → Prop) : yields m P → (∀ a, P a → Q a) → yields m Q.
Proof. intros Hm H s. eapply wp_mono; [apply Hm|]. intros a s' Ha. by apply H. Qed.
Lemma yields_lift {A} (o : outcome A) (P : A → Prop) : (∀ a, o = Ok a → P a) → o ≠ Fault OutOfFuel → yields (lift o) P.
Proof. intros H Hf s. apply wp_lift. destruct o; [by apply H|by intros ->]. Qed.

Definition maybe {A} (P : A → Prop) (o : option A) : Prop := ∀ a, o = Some a → P a.

Section Shapes.
Context (av : nat → bool) (ctx : aes_context) (jk : list Z) (Hjunk : block jk).

Lemma yields_encrypt key plain n : block key → (length plain ≤ 16)%nat → bytes_ok plain → n = zlen plain →
  yields (SMP_Encrypt av ctx key BT_OCTET16_LEN plain n) (maybe (λ o, block (param_buf o))).
Proof.
  intros Hk Hl Hb -> s. unfold wp. rewrite encrypt_value by done. intros o E. destruct (av (mallocs s)); [|done].
  injection E as <-. cbn [param_buf encrypted]. apply e_block; [done|]. split; [rewrite length_app, length_replicate; lia|].
  apply Forall_app. split; [done|by apply Forall_replicate].
Qed.
Lemma yields_cmac k m : block k → bytes_ok m → zlen m ≤ 4064 → yields (cmac av ctx k m) (maybe block).
Proof.
  intros Hk Hm Hl s. unfold wp, cmac. destruct (cmac_value av ctx k m 16 s Hk Hm Hl ltac:(lia)) as (r & s' & E & _ & Hr).
  unfold BT_OCTET16_LEN. rewrite E. intros c ->. destruct Hr as [[? _]|[= ->]]; [done|].
  change (Z.to_nat 16) with 16%nat. destruct (AES_CMAC_block (reverse k) (reverse m)) as [Hl' Hb'];
    [by apply reverse_block|by apply Forall_reverse|]. apply reverse_block. by rewrite take_ge by lia.
Qed.
(** A code whose result is kept even where it could not be calculated. *)
Lemma yields_code k m : block k → bytes_ok m → zlen m ≤ 4064 →
  yields (c ← cmac av ctx k m; mret (bool_decide (is_Some c), default jk c)) (λ r, block r.2).
Proof.
  intros Hk Hm Hl. eapply yields_bind; [by apply yields_cmac|]. intros c Hc. apply yields_ret. destruct c; [by apply Hc|done].
Qed.

Lemma yields_f4 u v x z : octets 32 u → octets 32 v → block x → yields (smp_calculate_f4 av ctx jk u v x z) block.
Proof.
  intros Hu Hv Hx. unfold smp_calculate_f4.
  assert (Hm : octets (1 + (32 + 32)) (uint8 z ++ v ++ u)).
  { repeat apply octets_app; try done. split; [done|]. constructor; [apply byte_u8|done]. }
  eapply yields_bind; [apply yields_cmac; [done|apply Hm|destruct Hm as [-> _]; done]|].
  intros c Hc. apply yields_ret. destruct c; [by apply Hc|done].
Qed.
Lemma yields_g2 u v x y : octets 32 u → octets 32 v → block x → block y → yields (smp_calculate_g2 av ctx u v x y) (λ _, True).
Proof.
  intros Hu Hv Hx Hy. unfold smp_calculate_g2.
  assert (Hm : octets (16 + (32 + 32)) (y ++ v ++ u)) by (by repeat apply octets_app).
  eapply yields_bind; [apply yields_cmac; [done|apply Hm|destruct Hm as [-> _]; done]|].
  intros [c|] Hc; [|by apply yields_ret]. specialize (Hc c eq_refl).
  eapply (yields_bind _ _ (octets 4)); [apply yields_lift; [|apply load_bytes_fault]|].
  { intros a. apply (load_bytes_octets c 0 4 a). apply Hc. }
  intros a [Hl Ha]. apply yields_lift; [done|].
  pose proof (stream_range a Ha) as Hr. rewrite Hl in Hr. by rewrite g2_loop_value by lia.
Qed.
Lemma yields_h6 w keyid : block w → octets 4 keyid → yields (smp_calculate_h6 av ctx jk w keyid) (λ r, block r.2).
Proof. intros Hw [Hl Hb]. apply yields_code; [done|done|by rewrite Hl]. Qed.
Lemma yields_f6 w n1 n2 r iocap a1 a2 : block w → block n1 → block n2 → block r → octets 3 iocap → octets 7 a1 → octets 7 a2 →
  yields (smp_calculate_f6 av ctx jk w n1 n2 r iocap a1 a2) (λ r, block r.2).
Proof.
  intros. assert (Hm : octets (7 + (7 + (3 + (16 + (16 + 16))))) (a2 ++ a1 ++ iocap ++ r ++ n2 ++ n1)) by (by repeat apply octets_app).
  apply yields_code; [done|apply Hm|destruct Hm as [-> _]; done].
Qed.
Lemma yields_f5 w n1 n2 a1 a2 mk lk : octets 32 w → block n1 → block n2 → octets 7 a1 → octets 7 a2 → block mk → block lk →
  yields (smp_calculate_f5 av ctx jk w n1 n2 a1 a2 mk lk) (λ r, block r.1.2 ∧ block r.2).
Proof.
  intros Hw H1 H2 Ha1 Ha2 Hmk Hlk. unfold smp_calculate_f5, smp_calculate_f5_key.
  eapply yields_bind; [apply yields_code; [by decide_vm|apply Hw|destruct Hw as [-> _]; done]|].
  intros [ok t] Ht. cbn [snd] in Ht. destruct ok; [|by apply yields_ret]. cbn [negb].
  unfold smp_calculate_f5_mackey_or_long_term_key.
  assert (Hm : ∀ c, is_byte c → octets (2 + (7 + (7 + (16 + (16 + (4 + 1))))))
    ([0; 1] ++ a2 ++ a1 ++ n2 ++ n1 ++ [101; 108; 116; 98] ++ [c])).
  { intros c Hc. repeat apply octets_app; try done; (split; [done|]); by rewrite ?Forall_cons. }
  eapply yields_bind; [apply yields_code; [done|by apply Hm|destruct (Hm 0) as [-> _]; done]|].
  intros [ok1 mk'] Hmk'. cbn [snd] in Hmk'. destruct ok1; [|by apply yields_ret]. cbn [negb].
  eapply yields_bind; [apply yields_code; [done|by apply Hm|destruct (Hm 1) as [-> _]; done]|].
  intros [ok2 lk'] Hlk'. by apply yields_ret.
Qed.
End Shapes.

(** ** The callers of the key functions *)

(** The round of a passkey entry may be any number: one that is too large is a
    read outside of the passkey. *)
Definition with_round (r : Z) (p : Smp.tSMP_CB) : Smp.tSMP_CB :=
  {| Smp.role := Smp.role p; Smp.selected_association_model := Smp.selected_association_model p;
     Smp.local_addr := Smp.local_addr p; Smp.local_addr_type := Smp.local_addr_type p;
     Smp.remote_addr := Smp.remote_addr p; Smp.remote_addr_type := Smp.remote_addr_type p;
     Smp.local_io_capability := Smp.local_io_capability p; Smp.loc_oob_flag := Smp.loc_oob_flag p;
     Smp.loc_auth_req := Smp.loc_auth_req p; Smp.loc_enc_size := Smp.loc_enc_size p; Smp.local_i_key := Smp.local_i_key p;
     Smp.local_r_key := Smp.local_r_key p; Smp.peer_io_caps := Smp.peer_io_caps p; Smp.peer_oob_flag := Smp.peer_oob_flag p;
     Smp.peer_auth_req := Smp.peer_auth_req p; Smp.peer_enc_size := Smp.peer_enc_size p; Smp.peer_i_key := Smp.peer_i_key p;
     Smp.peer_r_key := Smp.peer_r_key p; Smp.tk := Smp.tk p; Smp.rand := Smp.rand p; Smp.rrand := Smp.rrand p;
     Smp.loc_publ_key_x := Smp.loc_publ_key_x p; Smp.peer_publ_key_x := Smp.peer_publ_key_x p;
     Smp.dhkey := Smp.dhkey p; Smp.local_random := Smp.local_random p; Smp.peer_random := Smp.peer_random p;
     Smp.round := r; Smp.remote_commitment := Smp.remote_commitment p; Smp.div := Smp.div p; Smp.enc_rand := Smp.enc_rand p;
     Smp.unknown_peer := Smp.unknown_peer p |}.
Definition view_ok (p : Smp.tSMP_CB) : Prop := cb_ok (with_round 0 p).
Definition keys_wf (k : Smp.smp_keys) : Prop :=
  block (Smp.commitment k) ∧ block (Smp.mac_key k) ∧ block (Smp.ltk k) ∧ block (Smp.dhkey_check k).

Section Callers.
Context (av : nat → bool) (ctx : aes_context) (jk : list Z) (Hjunk : block jk).
Context (p : Smp.tSMP_CB) (Hp : view_ok p).

Lemma view_parts :
  octets 6 (Smp.local_addr p) ∧ octets 6 (Smp.remote_addr p) ∧ block (Smp.tk p) ∧ block (Smp.rand p) ∧ block (Smp.rrand p) ∧
  octets 32 (Smp.loc_publ_key_x p) ∧ octets 32 (Smp.peer_publ_key_x p) ∧ octets 32 (Smp.dhkey p) ∧
  block (Smp.local_random p) ∧ block (Smp.peer_random p) ∧
  octets 3 (smp_collect_local_io_capabilities p) ∧ octets 3 (smp_collect_peer_io_capabilities p) ∧
  octets 7 (smp_collect_local_ble_address p) ∧ octets 7 (smp_collect_peer_ble_address p).
Proof.
  destruct Hp as [[? ?] ? [? ?] (? & ? & ?) [? ?] _ Hl Hr _].
  pose proof (bytes3 _ _ _ Hl). pose proof (bytes3 _ _ _ Hr).
  split_and!; try done; by apply ble_address_octets.
Qed.

Lemma yields_local_commitment : yields (Smp.smp_calculate_local_commitment av ctx jk p) (maybe block).
Proof.
  destruct view_parts as (? & ? & ? & ? & ? & ? & ? & ? & ? & ? & _).
  assert (Hf4 : ∀ u v x z, octets 32 u → octets 32 v → block x →
    yields (c ← smp_calculate_f4 av ctx jk u v x z; mret (Some c)) (maybe block)).
  { intros. eapply yields_bind; [by apply yields_f4|]. intros c Hc. apply yields_ret. by intros ? [= <-]. }
  unfold Smp.smp_calculate_local_commitment.
  destruct (Smp.selected_association_model p); try (by apply yields_ret); try (by apply Hf4).
  all: eapply (yields_bind _ _ (λ _, True)); [apply yields_lift; [done|];
    unfold smp_calculate_random_input; cbv zeta; apply bind_fault; [apply load_fault|done]|].
  all: intros ri _; by apply Hf4.
Qed.
Lemma yields_peer_commitment : yields (Smp.smp_calculate_peer_commitment av ctx jk p) (maybe block).
Proof.
  destruct view_parts as (? & ? & ? & ? & ? & ? & ? & ? & ? & ? & _).
  assert (Hf4 : ∀ u v x z, octets 32 u → octets 32 v → block x →
    yields (c ← smp_calculate_f4 av ctx jk u v x z; mret (Some c)) (maybe block)).
  { intros. eapply yields_bind; [by apply yields_f4|]. intros c Hc. apply yields_ret. by intros ? [= <-]. }
  unfold Smp.smp_calculate_peer_commitment.
  destruct (Smp.selected_association_model p); try (by apply yields_ret); try (by apply Hf4).
  all: eapply (yields_bind _ _ (λ _, True)); [apply yields_lift; [done|];
    unfold smp_calculate_random_input; cbv zeta; apply bind_fault; [apply load_fault|done]|].
  all: intros ri _; by apply Hf4.
Qed.
Lemma yields_check_commitment : yields (Smp.smp_check_commitment av ctx jk p) (λ _, True).
Proof. eapply yields_bind; [apply yields_peer_commitment|]. intros c _. by apply yields_ret. Qed.

Lemma yields_numeric k : keys_wf k →
  yields (Smp.smp_calculate_numeric_comparison_display_number av ctx p k) (λ r, keys_wf r.2).
Proof.
  intros Hk. destruct view_parts as (? & ? & ? & ? & ? & ? & ? & _). eapply (yields_bind _ _ (λ _, True)).
  { destruct (Smp.role p); by apply yields_g2. }
  intros n _. by apply yields_ret.
Qed.
Lemma yields_keys k : keys_wf k → yields (Smp.smp_calculate_f5_mackey_and_long_term_key av ctx jk p k) (λ r, keys_wf r.2).
Proof.
  intros (? & ? & ? & ?). destruct view_parts as (? & ? & ? & ? & ? & ? & ? & ? & ? & ? & ? & ? & ? & ?).
  unfold Smp.smp_calculate_f5_mackey_and_long_term_key.
  destruct (Smp.role p); (eapply yields_bind; [by apply yields_f5|]); intros [[ok mk] lk] [? ?]; by apply yields_ret.
Qed.
Lemma yields_local_check k : keys_wf k → yields (Smp.smp_calculate_local_dhkey_check av ctx jk p k) keys_wf.
Proof.
  intros Hk. destruct view_parts as (? & ? & ? & ? & ? & ? & ? & ? & ? & ? & ? & ? & ? & ?).
  eapply yields_bind; [by apply yields_keys|]. intros [ok k'] (? & ? & ? & ?).
  eapply yields_bind; [by apply yields_f6|]. intros [ok' c] ?. by apply yields_ret.
Qed.
Lemma yields_peer_check k : keys_wf k → yields (Smp.smp_calculate_peer_dhkey_check av ctx jk p k) (maybe block).
Proof.
  intros (? & ? & ? & ?). destruct view_parts as (? & ? & ? & ? & ? & ? & ? & ? & ? & ? & ? & ? & ? & ?).
  eapply yields_bind; [by apply yields_f6|]. intros [[] c] Hc; apply yields_ret; [|done]. by intros ? [= <-].
Qed.

Lemma yields_confirm r : block r → yields (Smp.smp_calculate_comfirm av ctx p r) (maybe block).
Proof.
  intros Hr. destruct (confirm_parts (with_round 0 p) Hp) as [H1 H2].
  change (block (smp_gen_p1_4_confirm p)) in H1. change (block (smp_gen_p2_4_confirm p)) in H2.
  destruct view_parts as (_ & _ & Htk & _). unfold Smp.smp_calculate_comfirm. cbv zeta.
  assert (Henc : ∀ x, block x → yields (SMP_Encrypt av ctx (Smp.tk p) BT_OCTET16_LEN x BT_OCTET16_LEN) (maybe (λ o, block (param_buf o)))).
  { intros x [Hl Hb]. apply yields_encrypt; [done|by rewrite Hl|done|by rewrite Hl]. }
  eapply yields_bind; [apply Henc; by apply xor_block_block|]. intros [o|] Ho; [|by apply yields_ret].
  eapply yields_bind; [apply Henc; apply xor_block_block; [done|by apply Ho]|]. intros o' Ho'. apply yields_ret.
  destruct o' as [o'|]; [|done]. intros c [= <-]. by apply Ho'.
Qed.
Lemma yields_stk : yields (smp_calculate_legacy_short_term_key av ctx p) (maybe block).
Proof.
  destruct view_parts as (_ & _ & Htk & [H1 H2] & [H3 H4] & _). unfold smp_calculate_legacy_short_term_key. cbv zeta.
  eapply yields_bind; [apply yields_encrypt; [done|..]|].
  1, 3: destruct (Smp.role p); rewrite length_app, !length_take; unfold BT_OCTET16_LEN; lia.
  { destruct (Smp.role p); (apply Forall_app; split; by apply Forall_take). }
  intros [o|] Ho; apply yields_ret; [|done]. intros c [= <-]. by apply Ho.
Qed.
Lemma mask_block n b : block b → block (Smp.smp_mask_enc_key n b).
Proof.
  intros [Hl Hb]. unfold Smp.smp_mask_enc_key, BT_OCTET16_LEN. destruct (Z.ltb_spec n 16); [|done]. split.
  - rewrite !length_app, length_take, length_replicate, length_drop. lia.
  - apply Forall_app. split; [by apply Forall_take|]. apply Forall_app. split; [by apply Forall_replicate|by apply Forall_drop].
Qed.
Lemma yields_ltk_cont er k : block er → 0 ≤ Smp.div p < 65536 → keys_wf k →
  yields (Smp.smp_generate_ltk_cont av ctx p er k) (maybe keys_wf).
Proof.
  intros Her Hd (? & ? & ? & ?). assert (is_byte (Smp.div p mod 256) ∧ is_byte (Smp.div p / 256)) as [? ?].
  { unfold is_byte. split; [apply Z.mod_pos_bound; lia|]. split; [apply Z.div_pos; lia|apply Z.div_lt_upper_bound; lia]. }
  eapply yields_bind; [apply yields_encrypt; [done|cbn; lia|by rewrite !Forall_cons|done]|].
  intros [o|] Ho; apply yields_ret; [|done]. intros k' [= <-]. split_and!; try done. apply mask_block. by apply Ho.
Qed.
End Callers.

Lemma yields_derive_link_key av ctx jk k : block jk → block k → yields (derive_link_key av ctx jk k) (λ _, True).
Proof.
  intros Hj Hk. unfold derive_link_key. eapply yields_bind; [apply yields_h6; [done|done|by decide_vm]|].
  intros [ok i] Hi. cbn [snd] in Hi. destruct ok; [|by apply yields_ret]. cbn [negb].
  eapply yields_mono; [apply yields_h6; [done|done|by decide_vm]|done].
Qed.

(** ** The keys of the curve *)

(** A multiplication of a point, by any scalar. *)
Lemma point_mult_shape p k : octa (px p) → octa (py p) → octa k →
  match ECC_PointMult_Bin_NAF code_mul p k with
  | Ok (q, _) => octa (px q) ∧ octa (py q)
  | Fault f => f ≠ OutOfFuel
  end.
Proof.
  intros Hx Hy Hk. destruct (decide (value k < 2 ^ 256 - 1)) as [Hv|Hv].
  - destruct (point_mult_total code_mul p k) as (q & k' & -> & (? & ? & _) & _); done.
  - assert (k = words 8 (2 ^ 256 - 1)) as ->; [|by unfold ECC_PointMult_Bin_NAF; rewrite ecc_naf_overflow by lia].
    destruct Hk as [Wk Lk]. apply value_inj; [done|apply words_words_ok|by rewrite words_length|].
    pose proof (value_range k Wk) as Hr. rewrite Lk in Hr. change (weight 8) with (2 ^ 256) in Hr.
    rewrite value_words. change (weight 8) with (2 ^ 256). rewrite Z.mod_small; lia.
Qed.
Lemma octets_octa k : octets 32 k → octa (to_words 8 k).
Proof. intros [_ Hk]. by apply to_words_octa. Qed.
Lemma octa_octets w : octa w → octets 32 (of_words w).
Proof. intros [Hw Hl]. by apply (of_words_octets 8). Qed.

Lemma compute_dhkey_shape k x y : octets 32 k → octets 32 x → octets 32 y →
  match Ecc.smp_compute_dhkey code_mul (to_words 8 k) (to_words 8 x) (to_words 8 y) with
  | Ok d => octets 32 (of_words d)
  | Fault f => f ≠ OutOfFuel
  end.
Proof.
  intros Hk%octets_octa Hx%octets_octa Hy%octets_octa. unfold Ecc.smp_compute_dhkey.
  pose proof (point_mult_shape {| px := to_words 8 x; py := to_words 8 y; pz := replicate 8 0 |} _ Hx Hy Hk) as H.
  destruct (ECC_PointMult_Bin_NAF _ _ _) as [[q ?]|f]; [|exact H]. cbn. apply octa_octets, H.
Qed.
Lemma private_key_shape k : octets 32 k →
  match Ecc.smp_process_private_key code_mul (to_words 8 k) with
  | Ok (x, y) => publ_wf {| publ_x := of_words x; publ_y := of_words y |}
  | Fault f => f ≠ OutOfFuel
  end.
Proof.
  intros Hk%octets_octa. unfold Ecc.smp_process_private_key.
  pose proof (point_mult_shape curve_p256_G _ ltac:(split; [by decide_vm|done]) ltac:(split; [by decide_vm|done]) Hk) as H.
  destruct (ECC_PointMult_Bin_NAF _ _ _) as [[q ?]|f]; [|exact H]. cbn. split; apply octa_octets, H.
Qed.

(** ** The view of the key functions *)

Section View.
Context `{HostTypes}.

Lemma cb_wf_view s : cb_wf s → view_ok (keys_cb s).
Proof.
  intros []. unfold keys_cb, view_ok.
  destruct (BTM_ReadConnectionAddr (pairing_bda s)) as [la lt] eqn:El.
  destruct (default stack_address (BTM_ReadRemoteConnectionAddr (pairing_bda s))) as [ra rt] eqn:Er.
  assert (octets 6 la) by (pose proof (conn_addr_octets (pairing_bda s)) as Hc; by rewrite El in Hc).
  assert (octets 6 ra).
  { destruct (BTM_ReadRemoteConnectionAddr (pairing_bda s)) as [a|] eqn:Ea; cbn in Er.
    - subst a. by apply (remote_addr_octets _ _ Ea).
    - pose proof stack_address_octets as Hs. by rewrite Er in Hs. }
  assert (match match BTM_ReadRemoteConnectionAddr (pairing_bda s) with Some _ => None | None => Some stack_confirm end with
    | Some (p1, p2) => block p1 ∧ block p2 | None => True end).
  { destruct (BTM_ReadRemoteConnectionAddr (pairing_bda s)); [done|]. pose proof stack_confirm_blocks. by destruct stack_confirm. }
  unfold publ_wf in *. constructor; cbn; try assumption; try tauto; try lia; by rewrite !Forall_cons.
Qed.
Lemma view_div s : cb_wf s → 0 ≤ Smp.div (keys_cb s) < 65536.
Proof.
  intros []. unfold keys_cb. destruct (BTM_ReadConnectionAddr _), (default _ _). done.
Qed.
Lemma cb_wf_keys s : cb_wf s → keys_wf (cb_keys s).
Proof. by intros []. Qed.
Lemma cb_wf_set_keys k s : cb_wf s → keys_wf k → cb_wf (set_keys k s).
Proof. intros ? (? & ? & ? & ?). unfold set_keys. wf. Qed.
End View.
