(* ===== verification/SmpLab.v ===== *)
(** * Surroundings to run the pairing engine in

    A stack that takes every command, and an application that answers with given
    capabilities: concrete inputs for the theorems about pairing. *)

From S2P Require Import Prelude Aes AesProofs Cmac Smp SmpProofs EccSpec SmpTables SmpCb SmpWf.

(** The addresses of a master and of a slave. *)
Definition master_address : list Z := seqZ 1 6.
Definition slave_address : list Z := seqZ 11 6.

(** The side [r], that answers a request for capabilities with [io]. *)
Definition lab (r : role_t) (io : tSMP_IO_REQ) : Host :=
  let '(own, peer) := match r with HCI_ROLE_MASTER => (master_address, slave_address) | HCI_ROLE_SLAVE => (slave_address, master_address) end in {|
  available := λ _, true; cipher_ctx := no_context; junk := zeros 16; L2CA_SendFixedChnlData := λ _, true;
  L2CA_ConnectFixedChnl := λ _, true; L2CA_GetBleConnRole := λ _, r; btsnd_hcic_ble_rand := λ _, true;
  callback := λ _ _, Some io; security_mode := BTM_SEC_MODE_SP; supports_secure_connections := false;
  lmp_version := λ _, None; interop_disabled := λ _, false; btm_find_dev := Some;
  link_sec_check := λ _ _ _, Some BTM_BLE_SEC_REQ_ACT_PAIR; btm_ble_start_encrypt := λ _, BTM_CMD_STARTED;
  btm_local_div := λ _, 0; device_ir := zeros 16; device_er := zeros 16; device_dhk := zeros 16; device_address := own;
  stack_address := (zeros 6, 0); stack_confirm := (zeros 16, zeros 16); BTM_ReadConnectionAddr := λ _, (own, 0); BTM_ReadRemoteConnectionAddr := λ _, Some (peer, 0) |}.
Lemma lab_types r io : io_wf io → HostTypes (H := lab r io).
Proof.
  intros Hio. destruct r; (constructor; cbn; try done; try exact block_zeros; try (intros; by decide_vm)).
  all: try (by decide_vm); try (intros; simplify_eq; done || by decide_vm); try (by intros ? ? ? [= <-]).
Qed.

(** Capabilities: bonding, with or without protection, and all keys but CSRK and LK. *)
Definition capabilities (io auth : Z) : tSMP_IO_REQ :=
  {| io_cap := io; oob_data := 0; auth_req := auth; max_key_size := 16; init_keys := 3; resp_keys := 3 |}.
Lemma capabilities_wf io auth : is_byte io → is_byte auth → io_wf (capabilities io auth).
Proof. intros. by split_and!. Qed.

(** A registered application, and nothing done. *)
Definition registered : smp_cb := set_p_callback true cb_zero.
Definition started (s : smp_cb) : world := World s {| cmac_cb := {| text := None; len := 0; Cmac.round := 0 |}; mallocs := 0 |} 0 [].
Lemma registered_wf : cb_wf registered.
Proof. pose proof cb_wf_zero. unfold registered. wf. Qed.
