(* ===== verification/SmpEngine.v ===== *)
(** * The pairing state machine returns

    Every event is handled with a fixed amount of fuel, and the control block keeps
    its types: the events that an action may raise, and the places of the state
    machine where it may raise them, are followed through the tables. *)

From S2P Require Import Prelude Aes AesProofs Cmac Smp SmpProofs SmpTables SmpCb SmpCommands SmpAct SmpEvents SmpWf.

(** ** The events that an action raises *)

Definition place : Type := role_t * tSMP_STATE * tSMP_EVENT.
Definition both_roles : list role_t := [HCI_ROLE_MASTER; HCI_ROLE_SLAVE].
Definition places (rs : list role_t) (ss : list tSMP_STATE) (es : list tSMP_EVENT) : list place :=
  r ← rs; s ← ss; e ← es; [(r, s, e)].
(** In the state of the action, or in the idle state if the pairing has ended
    within the action. *)
Definition here (r : role_t) (st : tSMP_STATE) (es : list tSMP_EVENT) : list place :=
  places [r] [st] es ++ places both_roles [SMP_STATE_IDLE] es.

Definition decide_raises (r : role_t) (st : tSMP_STATE) : list place :=
  here r st [SMP_KEY_READY_EVT; SMP_TK_REQ_EVT; SMP_PUBL_KEY_EXCH_REQ_EVT].
Definition oob_key_raises (r : role_t) (st : tSMP_STATE) : list place :=
  here r st [SMP_LOC_PUBL_KEY_CRTD_EVT] ++
  decide_raises HCI_ROLE_MASTER SMP_STATE_PAIR_REQ_RSP ++ decide_raises HCI_ROLE_SLAVE SMP_STATE_PAIR_REQ_RSP.
Definition pair_rsp_raises (r : role_t) (st : tSMP_STATE) : list place := decide_raises r st ++ oob_key_raises r st.
Definition compare_raises (r : role_t) (st : tSMP_STATE) (e : tSMP_EVENT) : list place :=
  places [r] [st] [match r with HCI_ROLE_SLAVE => e | HCI_ROLE_MASTER => SMP_ENC_REQ_EVT end] ++
  places both_roles [SMP_STATE_IDLE] [e; SMP_ENC_REQ_EVT].
Definition anywhere (es : list tSMP_EVENT) : list place := places both_roles all_states es.

(** The places of the events that an action raises within [e], but for
    [SMP_AUTH_CMPL_EVT], which may be raised anywhere. *)
Definition raises (e : tSMP_EVENT) (a : action) (r : role_t) (st : tSMP_STATE) : list place :=
  match a with
  | SMP_SEND_APP_CBACK =>
      match e with
      | SMP_TK_REQ_EVT | SMP_SC_DSPL_NC_EVT => anywhere [SMP_DISCARD_SEC_REQ_EVT]
      | _ => anywhere [SMP_IO_RSP_EVT; SMP_DISCARD_SEC_REQ_EVT]
      end
  | SMP_SET_LOCAL_OOB_RAND_COMMITMENT => anywhere [SMP_DISCARD_SEC_REQ_EVT]
  | SMP_SEND_PAIR_RSP | SMP_PROC_PAIR_CMD | SMP_PROC_IO_RSP => pair_rsp_raises r st
  | SMP_USE_OOB_PRIVATE_KEY => oob_key_raises r st
  | SMP_DECIDE_ASSO_MODEL => decide_raises r st
  | SMP_PROC_SEC_REQ => here r st [SMP_ENC_REQ_EVT]
  | SMP_PROC_SL_KEY => places both_roles [SMP_STATE_WAIT_CONFIRM] [SMP_CONFIRM_EVT]
  | SMP_PROC_COMPARE => compare_raises r st SMP_RAND_EVT
  | SMP_MATCH_DHKEY_CHECKS => compare_raises r st SMP_PAIR_DHKEY_CHCK_EVT
  | SMP_GENERATE_COMPARE | SMP_GENERATE_STK => here r st [SMP_KEY_READY_EVT]
  | SMP_CHECK_AUTH_REQ => here r st [SMP_BOND_REQ_EVT]
  | SMP_PROCESS_PAIR_PUBLIC_KEY | SMP_WAIT_FOR_BOTH_PUBLIC_KEYS =>
      here r st [SMP_BOTH_PUBL_KEYS_RCVD_EVT] ++ places both_roles [SMP_STATE_PUBLIC_KEY_EXCH] [SMP_BOTH_PUBL_KEYS_RCVD_EVT]
  | SMP_HAVE_BOTH_PUBLIC_KEYS => here r st [SMP_SC_DHKEY_CMPLT_EVT]
  | SMP_START_SEC_CONN_PHASE1 => here r st [SMP_TK_REQ_EVT]
  | SMP_PROCESS_PEER_NONCE =>
      here r st [SMP_SC_PHASE1_CMPLT_EVT] ++ places both_roles [SMP_STATE_WAIT_NONCE] [SMP_SC_CALC_NC_EVT]
  | SMP_CALCULATE_PEER_DHKEY_CHECK => here r st [SMP_SC_KEY_READY_EVT]
  | SMP_CALCULATE_NUMERIC_COMPARISON_DISPLAY_NUMBER => here r st [SMP_SC_DSPL_NC_EVT]
  | SMP_MOVE_TO_SEC_CONN_PHASE2 => here r st [SMP_SC_PHASE1_CMPLT_EVT]
  | SMP_PH2_DHKEY_CHECKS_ARE_PRESENT => here r st [SMP_SC_2_DHCK_CHKS_PRES_EVT]
  | _ => []
  end.

(** An event at a place nests at most [n] deep. *)
Fixpoint fits (n : nat) (p : place) : bool :=
  match n with
  | O => false
  | S n =>
      let '(r, st, e) := p in
      match sm_lookup r st e with
      | Ok (Some (a1, a2, st')) => forallb (fits n) (raises e a1 r st') && forallb (fits n) (raises e a2 r st')
      | _ => true
      end
  end.
Definition nesting : nat := 5.

Lemma all_states_complete st : st ∈ all_states.
Proof. by destruct st; decide_vm. Qed.
Lemma all_events_complete e : e ∈ all_events.
Proof. by destruct e; decide_vm. Qed.
Lemma places_complete rs ss es r s e : r ∈ rs → s ∈ ss → e ∈ es → (r, s, e) ∈ places rs ss es.
Proof. intros. unfold places. repeat (apply list_elem_of_bind; eexists; split; [|eassumption]). by apply list_elem_of_singleton. Qed.
Lemma fits_everywhere p : fits nesting p = true.
Proof.
  assert (H : forallb (fits nesting) (places both_roles all_states all_events) = true) by by vm_compute.
  rewrite forallb_forall in H. apply H. destruct p as [[r s] e]. apply list_elem_of_In, places_complete;
    [by destruct r; decide_vm|apply all_states_complete|apply all_events_complete].
Qed.

(** ** Steps on the world *)

Section Steps.
Context {A : Type}.
Implicit Types (Q : () → world → Prop) (w : world).

Lemma wp_rd (f : smp_cb → A) (Q : A → world → Prop) w : Q (f (cb w)) w → wp (rd f) Q w.
Proof. done. Qed.
Lemma wp_upd f Q w : Q () (World (f (cb w)) (mem w) (calls w) (out w)) → wp (upd f) Q w.
Proof. done. Qed.
Lemma wp_emit e Q w : Q () (World (cb w) (mem w) (calls w) (out w ++ [e])) → wp (emit e) Q w.
Proof. done. Qed.
Lemma wp_ask (f : nat → A) (Q : A → world → Prop) w :
  Q (f (calls w)) (World (cb w) (mem w) (S (calls w)) (out w)) → wp (ask f) Q w.
Proof. done. Qed.
Lemma wp_crypto (m : M smp_state A) (P : A → Prop) (Q : A → world → Prop) w : yields m P →
  (∀ a s, P a → Q a (World (cb w) s (calls w) (out w))) → wp (crypto m) Q w.
Proof.
  intros Hm H. specialize (Hm (mem w)). unfold wp, crypto in *. destruct (m (mem w)) as [[a s]|f]; [by apply H|done].
Qed.
Lemma wp_safe_lift (o : outcome A) (Q : A → world → Prop) w :
  o ≠ Fault OutOfFuel → (∀ a, o = Ok a → Q a w) → wp (lift o) Q w.
Proof. intros Hf H. apply wp_lift. destruct o; [by apply H|by intros ->]. Qed.
End Steps.

(** ** Keys that are left to distribute *)

Definition bit_count (z : Z) : nat :=
  length (filter (λ i, Z.testbit z i = true) [0; 1; 2; 3]).
Definition own_keys (s : smp_cb) : Z := if is_slave s then local_r_key s else local_i_key s.
Definition keys_left (s : smp_cb) : nat := bit_count (own_keys s).

Lemma bit_count_le z z' : (∀ i, Z.testbit z' i = true → Z.testbit z i = true) → (bit_count z' ≤ bit_count z)%nat.
Proof.
  intros H. unfold bit_count. induction [0; 1; 2; 3] as [|i l IH]; [done|]. rewrite !filter_cons.
  repeat case_decide; cbn [length]; try lia. exfalso. auto.
Qed.
Lemma bit_count_lt z z' j : 0 ≤ j < 4 → (∀ i, Z.testbit z' i = true → Z.testbit z i = true) →
  Z.testbit z j = true → Z.testbit z' j = false → (bit_count z' < bit_count z)%nat.
Proof.
  intros Hj H Hz Hz'. unfold bit_count.
  assert (Hle : ∀ l, (length (filter (λ i, Z.testbit z' i = true) l) ≤ length (filter (λ i, Z.testbit z i = true) l))%nat).
  { induction l as [|i l IH]; [done|]. rewrite !filter_cons. repeat case_decide; cbn [length]; try lia. exfalso. auto. }
  assert (Hin : j ∈ [0; 1; 2; 3]) by (rewrite !elem_of_cons; lia).
  clear Hj. induction [0; 1; 2; 3] as [|i l IH]; [by apply elem_of_nil in Hin|]. rewrite !filter_cons.
  apply elem_of_cons in Hin as [<-|Hin].
  - rewrite (decide_False (P := Z.testbit z' j = true)) by congruence. rewrite decide_True by done. specialize (Hle l). cbn [length]. lia.
  - specialize (IH Hin). repeat case_decide; cbn [length]; try lia. exfalso. auto.
Qed.
Lemma without_bits z m i : Z.testbit (without z m) i = true → Z.testbit z i = true.
Proof. unfold without. rewrite Z.ldiff_spec. by intros [? _]%andb_true_iff. Qed.
Lemma bit_count_without z m : (bit_count (without z m) ≤ bit_count z)%nat.
Proof. apply bit_count_le, without_bits. Qed.
Lemma has_bit z i : 0 ≤ i → has z (Z.shiftl 1 i) = Z.testbit z i.
Proof.
  intros Hi. unfold has. rewrite Z.shiftl_1_l. destruct (Z.testbit z i) eqn:E.
  - apply negb_true_iff, Z.eqb_neq. intros H. apply (f_equal (λ x, Z.testbit x i)) in H.
    by rewrite Z.land_spec, E, Z.pow2_bits_true, Z.testbit_0_l in H by done.
  - apply negb_false_iff, Z.eqb_eq. apply Z.bits_inj'. intros j Hj. rewrite Z.land_spec, Z.testbit_0_l.
    destruct (decide (j = i)) as [->|]; [by rewrite E|]. by rewrite Z.pow2_bits_false, andb_false_r by done.
Qed.
Lemma bit_count_cleared z i : 0 ≤ i < 4 → has z (Z.shiftl 1 i) = true →
  (bit_count (without z (Z.shiftl 1 i)) < bit_count z)%nat.
Proof.
  intros Hi H. rewrite has_bit in H by lia. apply (bit_count_lt _ _ i); [done|apply without_bits|done|].
  unfold without. rewrite Z.ldiff_spec, Z.shiftl_1_l, Z.pow2_bits_true by lia. by rewrite andb_false_r.
Qed.
(** A key that is sent is no longer left. *)
Lemma update_key_mask_left i s : 0 ≤ i < 4 → has (own_keys s) (Z.shiftl 1 i) = true →
  (keys_left (smp_update_key_mask (Z.shiftl 1 i) false s) < keys_left s)%nat.
Proof.
  intros Hi H. pose proof (bit_count_cleared _ _ Hi H) as Hlt. revert Hlt. unfold keys_left, own_keys, smp_update_key_mask, is_slave.
  destruct (_ && _); [by cbn; destruct (eqb (role s) HCI_ROLE_SLAVE)|].
  destruct (eqb (role s) HCI_ROLE_SLAVE) eqn:E; cbn; by rewrite E.
Qed.

(** ** The actions *)

(** Where an action is: in the state where it has started, or in the idle state. *)
Definition settled (r : role_t) (st : tSMP_STATE) (s : smp_cb) : Prop :=
  (role s = r ∧ state s = st) ∨ state s = SMP_STATE_IDLE.
(** A pairing event that shows the application something other than a request for
    capabilities. *)
Definition event_ready (e : tSMP_EVENT) (s : smp_cb) : Prop :=
  match e with SMP_TK_REQ_EVT | SMP_SC_DSPL_NC_EVT => cb_evt s ≠ 0 ∧ cb_evt s ≠ SMP_IO_CAP_REQ_EVT | _ => True end.

Lemma settled_refl s : settled (role s) (state s) s.
Proof. by left. Qed.
Lemma settled_trans r st s s' : settled r st s → settled (role s) (state s) s' → settled r st s'.
Proof. intros [[<- <-]|H] H'; [done|]. destruct H' as [[_ H']|H']; right; congruence. Qed.

Section Actions.
Context `{HostTypes}.
(** The places where an event may be raised. *)
Context (allowed : place → Prop) (ev : tSMP_EVENT → int_data → M world ()).

Definition kept (r : role_t) (st : tSMP_STATE) (n : nat) (s : smp_cb) : Prop :=
  cb_wf s ∧ settled r st s ∧ (keys_left s ≤ n)%nat.

Context (Hev : ∀ e d w, allowed (role (cb w), state (cb w), e) → event_ready e (cb w) → cb_wf (cb w) → data_wf d →
  wp (ev e d) (λ _ w', cb_wf (cb w') ∧
    (e = SMP_AUTH_CMPL_EVT → kept (role (cb w)) (state (cb w)) (keys_left (cb w)) (cb w'))) w).

Definition can (r : role_t) (st : tSMP_STATE) (e : tSMP_EVENT) : Prop :=
  allowed (r, st, e) ∧ ∀ r', allowed (r', SMP_STATE_IDLE, e).
Lemma can_settled r st e s : can r st e → settled r st s → allowed (role s, state s, e).
Proof. intros [H1 H2] [[-> ->]|E]; [done|]. rewrite E. apply H2. Qed.

Lemma raise r st e d w : can r st e → settled r st (cb w) → event_ready e (cb w) → cb_wf (cb w) → data_wf d →
  wp (ev e d) (λ _ w', cb_wf (cb w')) w.
Proof. intros Hc Hs Hp Hw Hd. eapply wp_mono; [apply Hev; [by eapply can_settled|done..]|]. by intros [] w' [? _]. Qed.
Lemma auth_cmpl_kept r st n v w : can r st SMP_AUTH_CMPL_EVT → is_byte v → kept r st n (cb w) →
  wp (auth_cmpl ev v) (λ _ w', kept r st n (cb w')) w.
Proof.
  intros Hc Hv (Hw & Hs & Hn). unfold auth_cmpl. eapply wp_mono; [apply Hev; [by eapply can_settled|done..]|].
  intros [] w' [_ Hk]. destruct (Hk eq_refl) as (? & ? & ?). split_and!; [done|by eapply settled_trans|lia].
Qed.

(** [kept] depends on these fields only. *)
Lemma kept_set r st n s s' : kept r st n s → cb_wf s' → role s' = role s → state s' = state s →
  own_keys s' = own_keys s → kept r st n s'.
Proof.
  intros (_ & Hs & Hn) Hw Er Es Ek. split_and!; [done| |unfold keys_left in *; by rewrite Ek].
  unfold settled in *. by rewrite Er, Es.
Qed.
End Actions.

Ltac wp_step :=
  lazymatch goal with
  | |- wp (mbind _ _) _ _ => apply wp_bind
  | |- wp (mret _) _ _ => apply wp_ret
  | |- wp (gets _) _ _ => apply wp_gets
  | |- wp (rd _) _ _ => apply wp_rd
  | |- wp (upd _) _ _ => apply wp_upd
  | |- wp (emit _) _ _ => apply wp_emit
  | |- wp (ask _) _ _ => apply wp_ask
  | |- wp (when ?b _) _ _ => unfold when; destruct b eqn:?
  | |- wp (if ?b then _ else _) _ _ => destruct b eqn:?
  end; cbv beta; cbn [cb mem calls out].
Ltac wp_steps := repeat wp_step.

(** The pairing ends with a reason. *)
Ltac ends_kept := eapply auth_cmpl_kept; try eassumption; try (by decide_vm).

(** The rest of a computation behind a call whose property [t] shows. *)
Ltac behind t := eapply wp_mono; [t|cbv beta].

Section Quiet.
Context `{HostTypes}.
Context (allowed : place → Prop).
Context (ev : tSMP_EVENT → int_data → M world ()).
Context (Hev : ∀ e d w, allowed (role (cb w), state (cb w), e) → event_ready e (cb w) → cb_wf (cb w) → data_wf d →
  wp (ev e d) (λ _ w', cb_wf (cb w') ∧
    (e = SMP_AUTH_CMPL_EVT → kept (role (cb w)) (state (cb w)) (keys_left (cb w)) (cb w'))) w).
Context (r : role_t) (st : tSMP_STATE) (Hcan : can allowed r st SMP_AUTH_CMPL_EVT).

Lemma send_cmd_kept n c w : kept r st n (cb w) → wp (send_cmd c) (λ _ w', kept r st n (cb w')) w.
Proof.
  intros Hk. unfold send_cmd. wp_steps; [done|]. apply wp_safe_lift; [apply index_fault|]. intros build Hb. destruct build as [build|]; wp_steps; [|done].
  assert (Hbuild : ∃ data, build c (cb w) = build_cmd data).
  { unfold index in Hb. case_decide; [|done]. destruct (smp_cmd_build_act !! Z.to_nat c) as [x|] eqn:E; [|done].
    injection Hb as ->. apply list_elem_of_lookup_2 in E. unfold smp_cmd_build_act in E.
    repeat (apply elem_of_cons in E as [E|E]; [try done; injection E as ->; by eexists|]). by apply elem_of_nil in E. }
  destruct Hbuild as [data ->]. unfold build_cmd. wp_steps. eapply (wp_crypto _ (λ _, True)); [by intros ?|]. intros b s _. wp_steps.
  destruct b; [|by wp_steps]. unfold smp_send_msg_to_L2CAP. wp_steps.
  all: destruct Hk as (Hw & Hs & Hn); eapply kept_set; [by split_and!|wf|done..].
Qed.
Lemma smp_send_cmd_kept n c w : kept r st n (cb w) → wp (smp_send_cmd ev c) (λ _ w', kept r st n (cb w')) w.
Proof.
  intros Hk. unfold smp_send_cmd. wp_steps. behind ltac:(by apply send_cmd_kept). intros sent w' Hk'. wp_steps; [|done].
  behind ends_kept. intros [] w'' Hk''. by wp_steps.
Qed.
Lemma send_kept n c w : kept r st n (cb w) → wp (send ev c) (λ _ w', kept r st n (cb w')) w.
Proof. intros Hk. unfold send. wp_steps. behind ltac:(by apply smp_send_cmd_kept). intros sent w' Hk'. by wp_steps. Qed.
Lemma request_rand_kept n w : kept r st n (cb w) → wp (request_rand ev) (λ _ w', kept r st n (cb w')) w.
Proof. intros Hk. unfold request_rand. wp_steps; [done|]. ends_kept. Qed.

Definition stays (s : smp_cb) : Prop := cb_wf s ∧ settled r st s.
Lemma stays_kept s : stays s → kept r st (keys_left s) s.
Proof. intros [? ?]. by split_and!. Qed.
Lemma stays_set s s' : stays s → cb_wf s' → role s' = role s → state s' = state s → stays s'.
Proof. intros [_ Hs] Hw Er Es. split; [done|]. unfold settled in *. by rewrite Er, Es. Qed.
Lemma from_kept {A} (m : M world A) w :
  stays (cb w) → (∀ n, kept r st n (cb w) → wp m (λ _ w', kept r st n (cb w')) w) → wp m (λ _ w', stays (cb w')) w.
Proof. intros Hs Hm. behind ltac:(apply Hm; by apply stays_kept). by intros a w' (? & ? & _). Qed.
Lemma auth_cmpl_stays v w : is_byte v → stays (cb w) → wp (auth_cmpl ev v) (λ _ w', stays (cb w')) w.
Proof. intros Hv Hs. apply from_kept; [done|]. intros n Hk. by eapply auth_cmpl_kept. Qed.
Lemma end_stays d w : data_wf d → stays (cb w) → wp (ev SMP_AUTH_CMPL_EVT d) (λ _ w', stays (cb w')) w.
Proof.
  intros Hd [Hw Hs]. behind ltac:(apply Hev; [by eapply can_settled|done..]). intros [] w' [_ Hk].
  destruct (Hk eq_refl) as (? & ? & _). split; [done|by eapply settled_trans].
Qed.
Lemma smp_send_cmd_stays c w : stays (cb w) → wp (smp_send_cmd ev c) (λ _ w', stays (cb w')) w.
Proof. intros Hs. apply from_kept; [done|]. intros n. apply smp_send_cmd_kept. Qed.
Lemma send_stays c w : stays (cb w) → wp (send ev c) (λ _ w', stays (cb w')) w.
Proof. intros Hs. apply from_kept; [done|]. intros n. apply send_kept. Qed.
Lemma request_rand_stays w : stays (cb w) → wp (request_rand ev) (λ _ w', stays (cb w')) w.
Proof. intros Hs. apply from_kept; [done|]. intros n. apply request_rand_kept. Qed.

Lemma uint32_octets v : octets 4 (uint32 v).
Proof. split; [done|]. unfold uint32. repeat constructor; apply Z.mod_pos_bound; lia. Qed.
Lemma passkey_block v b : block b → block (uint32 v ++ drop 4 b).
Proof.
  intros [Hl Hb]. apply (octets_app 4 12); [apply uint32_octets|]. split; [by rewrite length_drop, Hl|by apply Forall_drop].
Qed.

(** Every array read from a command is of bytes. *)
Lemma data_bytes_wf d p : data_wf d → data_bytes d = Ok p → bytes_ok p.
Proof. destruct d; try done. by intros ? [= <-]. Qed.
Lemma data_bytes_fault d : data_bytes d ≠ Fault OutOfFuel.
Proof. by destruct d. Qed.
Lemma data_u8_fault d : data_u8 d ≠ Fault OutOfFuel.
Proof. destruct d; try done. apply load_fault. Qed.
Lemma data_u8_byte d v : data_wf d → data_u8 d = Ok v → is_byte v.
Proof. destruct d; try done; cbn; [by apply load_is_byte|by intros ? [= <-]|intros _ [= <-]; apply byte_u8|by intros ? [= <-]]. Qed.
Lemma data_key_fault d : data_key d ≠ Fault OutOfFuel.
Proof. by destruct d. Qed.
Lemma data_passkey_fault d : data_passkey d ≠ Fault OutOfFuel.
Proof. by destruct d. Qed.
Lemma data_oob_fault d : data_oob_type d ≠ Fault OutOfFuel.
Proof. by destruct d. Qed.
Lemma invalid_parameters_fault s : smp_command_has_invalid_parameters s ≠ Fault OutOfFuel.
Proof.
  unfold smp_command_has_invalid_parameters. destruct (_ || _); [done|]. apply bind_fault.
  { unfold cmd_len_is_valid, smp_command_has_valid_fixed_length. destruct (_ =? 0); [done|]. apply bind_fault; [apply index_fault|done]. }
  intros ok _. destruct (negb ok); [done|]. by destruct (negb _).
Qed.
Hint Resolve data_bytes_fault data_u8_fault data_key_fault data_passkey_fault data_oob_fault invalid_parameters_fault : wp.

Lemma checked_stays body w : stays (cb w) → (stays (cb w) → wp body (λ _ w', stays (cb w')) w) →
  wp (checked ev body) (λ _ w', stays (cb w')) w.
Proof.
  intros Hs Hb. unfold checked. wp_steps. apply wp_safe_lift; [auto with wp|]. intros invalid _. wp_steps; [|by apply Hb].
  apply auth_cmpl_stays; [by decide_vm|done].
Qed.
Lemma take_array_stays d set w : stays (cb w) → data_wf d → (∀ v, block v → stays (set v (cb w))) →
  wp (take_array d set) (λ _ w', stays (cb w')) w.
Proof.
  intros Hs Hd Hset. unfold take_array. wp_steps. apply wp_safe_lift; [auto with wp|]. intros p Hp. wp_steps.
  apply wp_safe_lift; [apply load_bytes_fault|]. intros v Hv. wp_steps. apply Hset. eapply load_bytes_block; [|exact Hv].
  by eapply data_bytes_wf.
Qed.
Lemma take_array_if_stays d set w : stays (cb w) → data_wf d → (∀ v, block v → stays (set v (cb w))) →
  wp (take_array_if d set) (λ _ w', stays (cb w')) w.
Proof. intros Hs Hd Hset. destruct d; [by wp_steps|by apply take_array_stays..]. Qed.
End Quiet.

(** ** Driving a proof through an action *)

#[export] Hint Resolve data_bytes_fault data_u8_fault data_key_fault data_passkey_fault data_oob_fault
  invalid_parameters_fault : wp.

(** The control block keeps its types, and its place. *)
Ltac wf_from :=
  repeat match goal with
    | H : stays _ _ _ |- _ => pose proof (proj1 H); clear H
    | H : kept _ _ _ _ |- _ => pose proof (proj1 H); clear H
    end; wf.
Ltac kept := eapply kept_set; [eassumption|wf_from|reflexivity..].
Ltac stays :=
  match goal with
  | H : stays ?r ?st ?s |- stays ?r ?st ?s => exact H
  | H : stays ?r ?st ?s |- stays ?r ?st ?s' => solve [apply (stays_set r st s s' H); [wf_from|reflexivity..]]
  end.
(** What is read from an event's data has the type of what it is stored in. *)
Ltac read :=
  lazymatch goal with
  | |- wp (lift (data_bytes ?d)) _ _ =>
      apply wp_safe_lift; [apply data_bytes_fault|]; let p := fresh "p" in let E := fresh "E" in
      intros p E; match goal with H : data_wf d |- _ => pose proof (data_bytes_wf d p H E) end
  | |- wp (lift (data_u8 ?d)) _ _ =>
      apply wp_safe_lift; [apply data_u8_fault|]; let v := fresh "v" in let E := fresh "E" in
      intros v E; match goal with H : data_wf d |- _ => pose proof (data_u8_byte d v H E) end
  | |- wp (lift (load ?p ?i)) _ _ =>
      apply wp_safe_lift; [apply load_fault|]; let v := fresh "v" in let E := fresh "E" in
      intros v E; match goal with H : Forall is_byte p |- _ => pose proof (load_is_byte p i v H E) end
  | |- wp (lift (load_bytes ?p ?i BT_OCTET16_LEN)) _ _ =>
      apply wp_safe_lift; [apply load_bytes_fault|]; let v := fresh "v" in let E := fresh "E" in
      intros v E; match goal with H : Forall is_byte p |- _ => pose proof (load_bytes_block p i v H E) end
  | |- wp (lift (load_bytes ?p ?i ?n)) _ _ =>
      apply wp_safe_lift; [apply load_bytes_fault|]; let v := fresh "v" in let E := fresh "E" in
      intros v E; match goal with H : Forall is_byte p |- _ => pose proof (load_bytes_octets p i n v H E) end
  | |- wp (lift ?o) _ _ => apply wp_safe_lift; [solve [auto with wp]|]; intros ? ?
  end; cbv beta.
Ltac seen := let w := fresh "w" in let H := fresh "Hs" in intros ? w H.
Ltac call :=
  lazymatch goal with
  | |- wp (auth_cmpl _ _) _ _ => behind ltac:(eapply auth_cmpl_stays; [eassumption..|by decide_vm|stays]); seen
  | |- wp (send _ _) _ _ => behind ltac:(eapply send_stays; [eassumption..|stays]); seen
  | |- wp (smp_send_cmd _ _) _ _ => behind ltac:(eapply smp_send_cmd_stays; [eassumption..|stays]); seen
  | |- wp (request_rand _) _ _ => behind ltac:(eapply request_rand_stays; [eassumption..|stays]); seen
  | |- wp (checked _ _) _ _ => behind ltac:(eapply checked_stays; [eassumption..|stays|intros ?]); [|seen]
  | |- wp (take_array _ _) _ _ => match goal with Hcan : can _ ?r ?st _ |- _ => behind ltac:(apply (take_array_stays r st); [stays|assumption|intros ? ?; stays]); seen end
  | |- wp (take_array_if _ _) _ _ => match goal with Hcan : can _ ?r ?st _ |- _ => behind ltac:(apply (take_array_if_stays r st); [stays|assumption|intros ? ?; stays]); seen end
  end.
Ltac drive := repeat first [wp_step | read | call].

Create HintDb smp_act.
#[export] Hint Unfold smp_send_pair_req smp_send_confirm smp_send_rand smp_send_ltk_reply smp_proc_pair_fail smp_proc_confirm
  smp_proc_rand smp_generate_srand_mrand_confirm smp_start_enc smp_enc_cmpl smp_create_private_key smp_send_pair_public_key
  smp_send_commitment smp_process_pairing_commitment smp_calculate_local_dhkey_check smp_send_dhkey_check
  smp_process_dhkey_check smp_start_passkey_verification smp_send_keypress_notification smp_process_keypress_notification
  smp_set_local_oob_keys smp_fast_conn_param smp_proc_sec_grant smp_start_nonce_generation : smp_act.

Section Acting.
Context `{HostTypes}.
Context (allowed : place → Prop).
Context (ev : tSMP_EVENT → int_data → M world ()) (kd : M world ()).
Context (Hev : ∀ e d w, allowed (role (cb w), state (cb w), e) → event_ready e (cb w) → cb_wf (cb w) → data_wf d →
  wp (ev e d) (λ _ w', cb_wf (cb w') ∧
    (e = SMP_AUTH_CMPL_EVT → kept (role (cb w)) (state (cb w)) (keys_left (cb w)) (cb w'))) w).
Context (r : role_t) (st : tSMP_STATE) (Hcan : can allowed r st SMP_AUTH_CMPL_EVT).

(** The actions that at most end the pairing. *)
Definition quiet_action (a : action) : bool :=
  match a with
  | SMP_SEND_PAIR_REQ | SMP_SEND_CONFIRM | SMP_SEND_RAND | SMP_SEND_LTK_REPLY | SMP_PROC_PAIR_FAIL | SMP_PROC_CONFIRM
  | SMP_PROC_RAND | SMP_GENERATE_CONFIRM | SMP_START_ENC | SMP_ENC_CMPL | SMP_CREATE_PRIVATE_KEY
  | SMP_SEND_PAIR_PUBLIC_KEY | SMP_SEND_COMMITMENT | SMP_PROCESS_PAIRING_COMMITMENT | SMP_CALCULATE_LOCAL_DHKEY_CHECK
  | SMP_SEND_DHKEY_CHECK | SMP_PROCESS_DHKEY_CHECK | SMP_START_PASSKEY_VERIFICATION | SMP_SEND_KEYPRESS_NOTIFICATION
  | SMP_PROCESS_KEYPRESS_NOTIFICATION | SMP_SET_LOCAL_OOB_KEYS | SMP_FAST_CONN_PARAM | SMP_SM_NO_ACTION
  | SMP_PROC_SEC_GRANT => true
  | _ => false
  end.
Lemma quiet_action_stays a d w : quiet_action a = true → data_wf d → stays r st (cb w) →
  wp (smp_sm_action ev kd a d) (λ _ w', stays r st (cb w')) w.
Proof.
  intros Ha Hd Hs. destruct a; try done; cbn [smp_sm_action]; clear Ha.
  all: autounfold with smp_act; drive.
  all: try stays; try done.
  - destruct a. drive. stays.
  - by eapply end_stays.
  - destruct d; drive; try (destruct a; drive); destruct (btm_ble_start_encrypt _); drive; stays.
  - eapply auth_cmpl_stays; [eassumption..| |done]. by destruct (negb _); decide_vm.
  - destruct Hs as [Hw Hs]. eapply wp_crypto; [apply yields_local_check|].
    { apply junk_block. } { by apply cb_wf_view. } { by apply cb_wf_keys. }
    intros k m Hk. wp_steps. split; [by apply cb_wf_set_keys|exact Hs].
  - eapply request_rand_stays; [eassumption..|]. eapply stays_set; [exact Hs| |done..]. pose proof (proj1 Hs) as Hw.
    pose proof (wf_local_random _ Hw). pose proof (wf_peer_random _ Hw). destruct Hw. constructor; try done; by apply passkey_block.
  - destruct d; drive; stays.
  - eapply request_rand_stays; [eassumption..|]. eapply stays_set; [exact Hs| |done..]. pose proof (proj1 Hs) as Hw.
    pose proof (wf_oob _ Hw) as []. destruct Hw. by constructor.
Qed.
End Acting.

(** ** The end of a pairing *)

Section Ending.
Context `{HostTypes}.

Lemma kept_clean r st n b : kept r st n (set_p_callback b cb_zero).
Proof.
  split_and!; [pose proof cb_wf_zero; wf|by right|]. by destruct b; apply Nat.le_0_l.
Qed.
Lemma pairing_cmpl_kept r st n w : wp smp_proc_pairing_cmpl (λ _ w', kept r st n (cb w')) w.
Proof. unfold smp_proc_pairing_cmpl, smp_reset_control_value, smp_cb_cleanup. wp_steps; apply kept_clean. Qed.

Definition final_action (a : action) : bool :=
  match a with SMP_PAIRING_CMPL | SMP_PAIR_TERMINATE | SMP_IDLE_TERMINATE | SMP_PROC_DISCARD => true | _ => false end.
Lemma final_action_kept ev kd a d r st n w : final_action a = true → kept r st n (cb w) →
  wp (smp_sm_action ev kd a d) (λ _ w', kept r st n (cb w')) w.
Proof.
  intros Ha Hk. destruct a; try done; cbn [smp_sm_action]; clear Ha.
  all: unfold smp_pairing_cmpl, smp_pair_terminate, smp_idle_terminate, smp_proc_discard, smp_reset_control_value, smp_cb_cleanup; wp_steps.
  all: try apply pairing_cmpl_kept; try apply kept_clean; done.
Qed.

Lemma wp_row (ev : tSMP_EVENT → int_data → M world ()) kd e d Q w a1 a2 st :
  sm_lookup (role (cb w)) (state (cb w)) e = Ok (Some (a1, a2, st)) → a1 ≠ SMP_SM_NO_ACTION →
  wp (smp_sm_action ev kd a1 d) (λ _ w', wp (smp_sm_action ev kd a2 d) Q w')
    (World (set_state st (cb w)) (mem w) (calls w) (out w)) →
  wp (sm_event ev kd e d) Q w.
Proof.
  intros E Ha Hr. unfold sm_event. wp_steps. rewrite E. apply wp_lift. wp_steps. unfold run_actions.
  unfold eqb. rewrite bool_decide_false by done. apply wp_bind. eapply wp_mono; [exact Hr|]. intros [] w' Hw'.
  case_bool_decide; [by subst|done].
Qed.
Lemma wp_ignored (ev : tSMP_EVENT → int_data → M world ()) kd e d Q w :
  sm_lookup (role (cb w)) (state (cb w)) e = Ok None → Q () w → wp (sm_event ev kd e d) Q w.
Proof. intros E HQ. unfold sm_event. wp_steps. rewrite E. by apply wp_lift. Qed.

Lemma auth_cmpl_row r st :
  sm_lookup r st SMP_AUTH_CMPL_EVT = Ok None ∨
  sm_lookup r st SMP_AUTH_CMPL_EVT = Ok (Some (SMP_PAIRING_CMPL, SMP_SM_NO_ACTION, SMP_STATE_IDLE)) ∨
  st ≠ SMP_STATE_IDLE ∧ sm_lookup r st SMP_AUTH_CMPL_EVT = Ok (Some (SMP_SEND_PAIR_FAIL, SMP_PAIRING_CMPL, SMP_STATE_IDLE)).
Proof. destruct r, st; first [by left|right; left; by vm_compute|right; right; split; [done|by vm_compute]]. Qed.
Lemma kept_idle r st n s : kept r st n s → kept r st n (set_state SMP_STATE_IDLE s).
Proof. intros (Hw & _ & Hn). split_and!; [wf|by right|done]. Qed.
Lemma kept_refl s : cb_wf s → kept (role s) (state s) (keys_left s) s.
Proof. intros Hw. split_and!; [done|by left|done]. Qed.
Lemma auth_cmpl_idle ev kd d w : cb_wf (cb w) → state (cb w) = SMP_STATE_IDLE →
  wp (sm_event ev kd SMP_AUTH_CMPL_EVT d) (λ _ w', kept (role (cb w)) (state (cb w)) (keys_left (cb w)) (cb w')) w.
Proof.
  intros Hw Hi. destruct (auth_cmpl_row (role (cb w)) (state (cb w))) as [E|[E|[? _]]]; [|eapply wp_row; [done..|]|done].
  { eapply wp_ignored; [done|by apply kept_refl]. }
  eapply wp_mono; [apply (final_action_kept ev kd SMP_PAIRING_CMPL); [done|]|].
  - by apply kept_idle, kept_refl.
  - intros [] w' Hk. cbn [smp_sm_action]. by wp_steps.
Qed.
Lemma auth_cmpl_returns k d w : (2 ≤ k)%nat → cb_wf (cb w) → data_wf d →
  wp ((engine k).1 SMP_AUTH_CMPL_EVT d) (λ _ w', kept (role (cb w)) (state (cb w)) (keys_left (cb w)) (cb w')) w.
Proof.
  intros Hk Hw Hd. destruct k as [|[|k]]; [lia..|]. set (k' := S k). cbn [engine fst snd].
  destruct (auth_cmpl_row (role (cb w)) (state (cb w))) as [E|[E|[? E]]]; [by eapply wp_ignored, kept_refl| |];
    (eapply wp_row; [done..|]).
  { eapply wp_mono; [apply final_action_kept; [done|by apply kept_idle, kept_refl]|].
    intros [] w' Hk'. cbn [smp_sm_action]. by wp_steps. }
  pose (allowed := λ p : place, p.1.2 = SMP_STATE_IDLE ∧ p.2 = SMP_AUTH_CMPL_EVT).
  assert (Hev : ∀ e d w, allowed (role (cb w), state (cb w), e) → event_ready e (cb w) → cb_wf (cb w) → data_wf d →
    wp ((engine k').1 e d) (λ _ w', cb_wf (cb w') ∧
      (e = SMP_AUTH_CMPL_EVT → kept (role (cb w)) (state (cb w)) (keys_left (cb w)) (cb w'))) w).
  { intros e d0 w0 [Hi He] _ Hw0 _. cbn in Hi, He. subst e. eapply wp_mono; [by apply auth_cmpl_idle|]. by intros [] w' (? & ? & ?). }
  assert (Hcan : can allowed (role (cb w)) SMP_STATE_IDLE SMP_AUTH_CMPL_EVT) by done.
  assert (Hs : kept (role (cb w)) SMP_STATE_IDLE (keys_left (cb w)) (set_state SMP_STATE_IDLE (cb w))).
  { split_and!; [wf|by left|done]. }
  assert (Hfail : wp (smp_send_pair_fail (engine k').1 d)
    (λ _ w', kept (role (cb w)) SMP_STATE_IDLE (keys_left (cb w)) (cb w'))
    (World (set_state SMP_STATE_IDLE (cb w)) (mem w) (calls w) (out w))).
  { unfold smp_send_pair_fail. wp_steps. read. wp_steps; [|by kept]. behind ltac:(eapply send_kept; [exact Hev|exact Hcan|kept]).
    intros [] w' Hk'. wp_steps. kept. }
  eapply wp_mono; [exact Hfail|]. intros [] w' Hk'.
  eapply wp_mono; [by apply final_action_kept|]. intros [] w'' (? & Hs'' & ?). split_and!; [done| |done].
  destruct Hs'' as [[_ Hs'']|Hs'']; by right.
Qed.
End Ending.

(** ** Key distribution *)

Lemma update_key_mask_place t b s : cb_wf s → let s' := smp_update_key_mask t b s in cb_wf s' ∧ role s' = role s ∧ state s' = state s.
Proof. intros Hw. cbv zeta. unfold smp_update_key_mask. repeat case_match; (split_and!; [wf|done..]). Qed.
(** A key is taken out of those that are left. *)
Lemma update_key_mask_kept r st n i s : 0 ≤ i < 4 → has (own_keys s) (Z.shiftl 1 i) = true → kept r st (S n) s →
  kept r st n (smp_update_key_mask (Z.shiftl 1 i) false s).
Proof.
  intros Hi Ho (Hw & Hs & Hn). pose proof (update_key_mask_left i s Hi Ho).
  destruct (update_key_mask_place (Z.shiftl 1 i) false s Hw) as (? & Er & Es). split_and!; [done| |lia].
  unfold settled in *. by rewrite Er, Es.
Qed.
Lemma update_set_csrk v t b s : smp_update_key_mask t b (set_csrk v s) = set_csrk v (smp_update_key_mask t b s).
Proof.
  unfold smp_update_key_mask, is_slave. cbn [le_secure_connections_mode_is_used role set_csrk].
  by repeat match goal with |- context [if ?c then _ else _] => destruct c end.
Qed.
Lemma update_set_div v t b s : smp_update_key_mask t b (set_div v s) = set_div v (smp_update_key_mask t b s).
Proof.
  unfold smp_update_key_mask, is_slave. cbn [le_secure_connections_mode_is_used role set_div].
  by repeat match goal with |- context [if ?c then _ else _] => destruct c end.
Qed.
Lemma stays_here s : cb_wf s → stays (role s) (state s) s.
Proof. intros Hw. split; [done|]. by left. Qed.
Lemma div_bytes s : cb_wf s → is_byte (div s mod 256) ∧ is_byte (div s / 256).
Proof.
  intros []. unfold is_byte. split; [apply Z.mod_pos_bound; lia|]. split; [apply Z.div_pos; lia|apply Z.div_lt_upper_bound; lia].
Qed.
Lemma cb_wf_rand_proc p s : cb_wf s → cb_wf (set_rand_enc_proc_state p s).
Proof. intros Hw. wf. Qed.
Lemma keys_left_bound s : (keys_left s ≤ 4)%nat.
Proof. unfold keys_left, bit_count. etrans; [apply length_filter|]. done. Qed.

Section Distributing.
Context `{HostTypes}.
Context (allowed : place → Prop) (ev : tSMP_EVENT → int_data → M world ()) (kd : M world ()).
Context (Hev : ∀ e d w, allowed (role (cb w), state (cb w), e) → event_ready e (cb w) → cb_wf (cb w) → data_wf d →
  wp (ev e d) (λ _ w', cb_wf (cb w') ∧
    (e = SMP_AUTH_CMPL_EVT → kept (role (cb w)) (state (cb w)) (keys_left (cb w)) (cb w'))) w).
Context (Hcan : ∀ r st, can allowed r st SMP_AUTH_CMPL_EVT).
Context (n : nat) (Hkd : ∀ w, cb_wf (cb w) → (keys_left (cb w) < n)%nat → wp kd (λ _ w', cb_wf (cb w')) w).
Implicit Types w : world.

Lemma then_distribute r st m w : (m < n)%nat → kept r st m (cb w) → wp kd (λ _ w', cb_wf (cb w')) w.
Proof. intros Hm (Hw & _ & Hl). apply Hkd; [done|lia]. Qed.

Lemma send_id_info_wf r st m w : (m < n)%nat → kept r st m (smp_update_key_mask SMP_SEC_KEY_TYPE_ID false (cb w)) →
  wp (smp_send_id_info ev kd) (λ _ w', cb_wf (cb w')) w.
Proof.
  intros Hm Hk. unfold smp_send_id_info. wp_steps. behind ltac:(by eapply send_kept). intros ? w' Hk'. wp_steps.
  behind ltac:(by eapply send_kept). intros ? w'' Hk''. wp_steps; by eapply then_distribute.
Qed.
Lemma send_csrk_info_wf r st m w : (m < n)%nat → kept r st m (smp_update_key_mask SMP_SEC_KEY_TYPE_CSRK false (cb w)) →
  wp (smp_send_csrk_info ev kd) (λ _ w', cb_wf (cb w')) w.
Proof.
  intros Hm Hk. unfold smp_send_csrk_info. wp_steps. behind ltac:(by eapply smp_send_cmd_kept). intros ? w' Hk'. wp_steps; by eapply then_distribute.
Qed.
Lemma compute_csrk_wf r st m w : (m < n)%nat → cb_wf (cb w) → kept r st m (smp_update_key_mask SMP_SEC_KEY_TYPE_CSRK false (cb w)) →
  wp (smp_compute_csrk ev kd) (λ _ w', cb_wf (cb w')) w.
Proof.
  intros Hm Hw Hk. unfold smp_compute_csrk. pose proof (div_bytes _ Hw) as [? ?]. wp_steps.
  eapply wp_crypto; [apply yields_encrypt; [apply er_block|cbn; lia|by rewrite !Forall_cons|done]|].
  intros [o|] mm Ho; wp_steps.
  - eapply (send_csrk_info_wf r st m); [done|]. cbn [cb]. rewrite update_set_csrk. pose proof (Ho _ eq_refl). kept.
  - behind ltac:(eapply auth_cmpl_stays; [eassumption|apply Hcan|by decide_vm|by apply stays_here]). by intros ? w' [? _].
Qed.
Lemma generate_csrk_wf r st m w : (m < n)%nat → cb_wf (cb w) → kept r st m (smp_update_key_mask SMP_SEC_KEY_TYPE_CSRK false (cb w)) →
  wp (smp_generate_csrk ev kd) (λ _ w', cb_wf (cb w')) w.
Proof.
  intros Hm Hw Hk. unfold smp_generate_csrk, btm_get_local_div. pose proof (local_div_range (pairing_bda (cb w))). wp_steps.
  - eapply compute_csrk_wf; [done|cbn; wf|]. cbn [cb]. rewrite update_set_div. kept.
  - eapply wp_mono; [eapply request_rand_stays; [eassumption|apply Hcan|apply stays_here; cbn; wf]|]. by intros ? w' [? _].
Qed.
Lemma generate_ltk_cont_wf w : cb_wf (cb w) → wp (smp_generate_ltk_cont ev) (λ _ w', cb_wf (cb w')) w.
Proof.
  intros Hw. unfold smp_generate_ltk_cont. wp_steps. eapply wp_crypto.
  { apply yields_ltk_cont; [apply er_block|by apply view_div|by apply cb_wf_keys]. }
  intros [k|] mm Hk; wp_steps.
  - unfold smp_generate_rand_vector. wp_steps. eapply wp_mono; [eapply request_rand_stays; [eassumption|apply Hcan|apply stays_here]|].
    + apply cb_wf_rand_proc, cb_wf_set_keys; [done|by apply Hk].
    + by intros ? w' [? _].
  - behind ltac:(eapply auth_cmpl_stays; [eassumption|apply Hcan|by decide_vm|by apply stays_here]). by intros ? w' [? _].
Qed.
Lemma generate_ltk_wf r st m w : (m < n)%nat → cb_wf (cb w) → kept r st m (smp_update_key_mask SMP_SEC_KEY_TYPE_ENC false (cb w)) →
  wp (smp_generate_ltk ev kd) (λ _ w', cb_wf (cb w')) w.
Proof.
  intros Hm Hw Hk. unfold smp_generate_ltk, btm_get_local_div. pose proof (local_div_range (pairing_bda (cb w))). wp_steps.
  - unfold smp_process_secure_connection_long_term_key, smp_save_secure_connections_long_term_key. wp_steps. by eapply then_distribute.
  - apply generate_ltk_cont_wf. cbn. wf.
  - eapply wp_mono; [eapply request_rand_stays; [eassumption|apply Hcan|apply stays_here; cbn; wf]|]. by intros ? w' [? _].
Qed.
Lemma set_derive_link_key_wf r st m w : (m < n)%nat → kept r st m (smp_update_key_mask SMP_SEC_KEY_TYPE_LK false (cb w)) →
  wp (smp_set_derive_link_key kd) (λ _ w', cb_wf (cb w')) w.
Proof.
  intros Hm Hk. unfold smp_set_derive_link_key. wp_steps. eapply (then_distribute r st m); [done|]. cbn [cb].
  assert (E : smp_update_key_mask SMP_SEC_KEY_TYPE_LK false (set_derive_lk true (cb w)) =
    set_derive_lk true (smp_update_key_mask SMP_SEC_KEY_TYPE_LK false (cb w))); [|rewrite E; kept].
  unfold smp_update_key_mask, is_slave. cbn [le_secure_connections_mode_is_used role set_derive_lk].
  by repeat match goal with |- context [if ?c then _ else _] => destruct c end.
Qed.

Lemma key_pick_key_wf w : cb_wf (cb w) → (keys_left (cb w) ≤ n)%nat → wp (smp_key_pick_key ev kd) (λ _ w', cb_wf (cb w')) w.
Proof.
  intros Hw Hn. unfold smp_key_pick_key. wp_steps. fold (own_keys (cb w)).
  assert (Hk : ∀ i, 0 ≤ i < 4 → has (own_keys (cb w)) (Z.shiftl 1 i) = true →
    ∃ m, (m < n)%nat ∧ kept (role (cb w)) (state (cb w)) m (smp_update_key_mask (Z.shiftl 1 i) false (cb w))).
  { intros i Hi Ho. pose proof (update_key_mask_left i (cb w) Hi Ho). exists (pred (keys_left (cb w))). split; [lia|].
    apply update_key_mask_kept; [done..|]. split_and!; [done|by left|lia]. }
  unfold smp_distribute_act. cbn [pick_key]. change (0 + 1) with 1. change (1 + 1) with 2. change (2 + 1) with 3.
  repeat (case_match; [match goal with E : has _ (Z.shiftl 1 ?i) = true |- _ => destruct (Hk i ltac:(lia) E) as (m & ? & ?) end|]); [..|done].
  - by eapply generate_ltk_wf.
  - by eapply send_id_info_wf.
  - by eapply generate_csrk_wf.
  - by eapply set_derive_link_key_wf.
Qed.
Lemma derive_link_key_wf w : cb_wf (cb w) → wp (smp_derive_link_key_from_long_term_key ev) (λ _ w', cb_wf (cb w')) w.
Proof.
  intros Hw. unfold smp_derive_link_key_from_long_term_key, smp_calculate_link_key_from_long_term_key.
  assert (Hend : ∀ w, cb_wf (cb w) → wp (auth_cmpl ev SMP_PAIR_FAIL_UNKNOWN) (λ _ w', cb_wf (cb w')) w).
  { intros w' Hw'. behind ltac:(eapply auth_cmpl_stays; [eassumption|apply Hcan|by decide_vm|by apply stays_here]). by intros ? w'' [? _]. }
  wp_steps. destruct (bda_for_link_key _); wp_steps; try done; try by apply Hend.
  eapply wp_crypto; [apply yields_derive_link_key; [apply junk_block|by apply wf_ltk]|]. intros [ok k] mm _.
  wp_steps; try done; try by apply Hend. destruct (link_key_type _); wp_steps; try done; by apply Hend.
Qed.
Lemma key_distribution_wf w : cb_wf (cb w) → (keys_left (cb w) ≤ n)%nat → wp (key_distribution ev kd) (λ _ w', cb_wf (cb w')) w.
Proof.
  intros Hw Hn. unfold key_distribution.
  assert (Hrest : ∀ w, cb_wf (cb w) → wp (s ← gets cb;
    when ((local_i_key s =? 0) && (local_r_key s =? 0)) (
      when (eqb (state s) SMP_STATE_BOND_PENDING) (
        when (derive_lk s) (smp_derive_link_key_from_long_term_key ev;; upd (set_derive_lk false));;
        s ← gets cb;
        if total_tx_unacked s =? 0 then auth_cmpl ev SMP_SUCCESS
        else upd (set_wait_for_authorization_complete true)))) (λ _ w', cb_wf (cb w')) w).
  { clear w Hw Hn. intros w Hw.
    assert (Hend : ∀ w, cb_wf (cb w) → wp (s ← gets cb;
      if total_tx_unacked s =? 0 then auth_cmpl ev SMP_SUCCESS
      else upd (set_wait_for_authorization_complete true)) (λ _ w', cb_wf (cb w')) w).
    { intros w' Hw'. wp_steps; [|wf].
      behind ltac:(eapply auth_cmpl_stays; [eassumption|apply Hcan|by decide_vm|by apply stays_here]). by intros ? w'' [? _]. }
    wp_step. wp_step. wp_step; [|by wp_steps]. wp_step; [|by wp_steps]. wp_step. wp_step; [|wp_step; by apply Hend].
    wp_step. behind ltac:(by apply derive_link_key_wf). intros ? w' Hw'. wp_step. apply Hend. cbn. wf. }
  wp_step. wp_step. wp_step. wp_step; [|wp_step; by apply Hrest].
  behind ltac:(by apply key_pick_key_wf). intros ? w' Hw'. by apply Hrest.
Qed.
End Distributing.
