(* ===== verification/SmpActProofs.v ===== *)
(** * The actions that raise events

    Each action of the pairing state machine keeps the types of the control block,
    provided that every event it raises does. *)

From S2P Require Import Prelude Aes AesProofs Cmac Ecc Smp SmpProofs EccSpec SmpTables SmpCb SmpCommands SmpAct SmpEvents SmpWf SmpEngine.

(** The application is shown a request that is not for capabilities. *)
Ltac ready := first [exact I | split; cbn; discriminate].

Section Raising.
Context `{HostTypes}.
Context (allowed : place → Prop) (ev : tSMP_EVENT → int_data → M world ()) (kd : M world ()).
Context (Hev : ∀ e d w, allowed (role (cb w), state (cb w), e) → event_ready e (cb w) → cb_wf (cb w) → data_wf d →
  wp (ev e d) (λ _ w', cb_wf (cb w') ∧
    (e = SMP_AUTH_CMPL_EVT → kept (role (cb w)) (state (cb w)) (keys_left (cb w)) (cb w'))) w).
Context (Hcan : ∀ r st, can allowed r st SMP_AUTH_CMPL_EVT).
Context (Hkd : ∀ w, cb_wf (cb w) → wp kd (λ _ w', cb_wf (cb w')) w).
Implicit Types (w : world) (r : role_t) (st : tSMP_STATE).

(** ** Where events are allowed *)

Lemma can_here r st es e : Forall allowed (here r st es) → e ∈ es → can allowed r st e.
Proof.
  intros [H1 H2]%Forall_app He. rewrite Forall_forall in H1, H2. split.
  - apply H1, places_complete; [by apply list_elem_of_singleton..|done].
  - intros r'. apply H2, places_complete; [by destruct r'; decide_vm|by apply list_elem_of_singleton|done].
Qed.
Lemma allowed_places rs ss es r st e :
  Forall allowed (places rs ss es) → r ∈ rs → st ∈ ss → e ∈ es → allowed (r, st, e).
Proof. rewrite Forall_forall. intros Ha ? ? ?. by apply Ha, places_complete. Qed.
Lemma allowed_anywhere es r st e : Forall allowed (anywhere es) → e ∈ es → allowed (r, st, e).
Proof. intros Ha He. eapply allowed_places; [exact Ha|by destruct r; decide_vm|apply all_states_complete|done]. Qed.

Lemma raise_here r st e d w : stays r st (cb w) → can allowed r st e → event_ready e (cb w) → data_wf d →
  wp (ev e d) (λ _ w', cb_wf (cb w')) w.
Proof. intros [Hw Hs] Hc Hr Hd. by eapply raise. Qed.
Lemma raise_at e d w : cb_wf (cb w) → allowed (role (cb w), state (cb w), e) → event_ready e (cb w) → data_wf d →
  wp (ev e d) (λ _ w', cb_wf (cb w')) w.
Proof. intros Hw Ha Hr Hd. eapply wp_mono; [by apply Hev|]. by intros [] w' [? _]. Qed.
Lemma auth_cmpl_wf v w : is_byte v → cb_wf (cb w) → wp (auth_cmpl ev v) (λ _ w', cb_wf (cb w')) w.
Proof.
  intros Hv Hw. behind ltac:(eapply auth_cmpl_stays; [eassumption|apply Hcan|done|by apply stays_here]). by intros ? w'' [? _].
Qed.
Lemma send_wf c w : cb_wf (cb w) → wp (send ev c) (λ _ w', cb_wf (cb w')) w.
Proof. intros Hw. behind ltac:(eapply send_stays; [eassumption|apply Hcan|by apply stays_here]). by intros ? w'' [? _]. Qed.
Lemma request_rand_wf w : cb_wf (cb w) → wp (request_rand ev) (λ _ w', cb_wf (cb w')) w.
Proof. intros Hw. behind ltac:(eapply request_rand_stays; [eassumption|apply Hcan|by apply stays_here]). by intros ? w'' [? _]. Qed.

Lemma stays_set_keys r st k s : stays r st s → keys_wf k → stays r st (set_keys k s).
Proof. intros [Hw Hs] Hk. split; [by apply cb_wf_set_keys|]. by destruct s. Qed.

(** ** Keys *)

Lemma calculate_comfirm_wf r st rnd w : stays r st (cb w) → can allowed r st SMP_KEY_READY_EVT → block rnd →
  wp (smp_calculate_comfirm ev rnd) (λ _ w', cb_wf (cb w')) w.
Proof.
  intros Hs Hc Hr. unfold smp_calculate_comfirm, smp_process_confirm, smp_process_compare. wp_steps.
  eapply wp_crypto; [apply yields_confirm; [by apply cb_wf_view, Hs|done]|]. intros [o|] mm Ho.
  - specialize (Ho _ eq_refl). wp_steps. destruct (rand_enc_proc_state (cb w)); wp_steps; try apply Hs;
      (eapply raise_here; [|done..]); stays.
  - apply auth_cmpl_wf; [by decide_vm|apply Hs].
Qed.
Lemma generate_compare_wf r st w : stays r st (cb w) → can allowed r st SMP_KEY_READY_EVT →
  wp (smp_generate_compare ev) (λ _ w', cb_wf (cb w')) w.
Proof.
  intros Hs Hc. unfold smp_generate_compare. wp_steps. eapply calculate_comfirm_wf; [|exact Hc|cbn; by apply wf_rrand, Hs]. stays.
Qed.
Lemma generate_confirm_wf r st w : stays r st (cb w) → can allowed r st SMP_KEY_READY_EVT →
  wp (smp_generate_confirm ev) (λ _ w', cb_wf (cb w')) w.
Proof.
  intros Hs Hc. unfold smp_generate_confirm. wp_steps. eapply calculate_comfirm_wf; [|exact Hc|cbn; by apply wf_rand, Hs]. stays.
Qed.
Lemma generate_stk_wf r st w : stays r st (cb w) → can allowed r st SMP_KEY_READY_EVT →
  wp (smp_generate_stk ev) (λ _ w', cb_wf (cb w')) w.
Proof.
  intros Hs Hc. unfold smp_generate_stk, smp_process_stk. wp_steps; [by eapply raise_here|].
  eapply wp_crypto; [apply yields_stk; by apply cb_wf_view, Hs|]. intros [o|] mm Ho; wp_steps.
  - by eapply raise_here.
  - apply auth_cmpl_wf; [by decide_vm|apply Hs].
Qed.
Lemma generate_y_wf r st w : stays r st (cb w) → can allowed r st SMP_KEY_READY_EVT →
  wp (smp_generate_y ev) (λ _ w', cb_wf (cb w')) w.
Proof.
  intros Hs Hc. unfold smp_generate_y, smp_process_ediv. wp_steps. pose proof (wf_enc_rand _ (proj1 Hs)) as [Hl Hb].
  eapply wp_crypto; [apply yields_encrypt; [apply dhk_block|rewrite Hl; lia|done|by rewrite Hl]|].
  intros [o|] mm Ho; wp_steps; [|apply auth_cmpl_wf; [by decide_vm|apply Hs]].
  apply wp_safe_lift; [apply load_bytes_fault|]. intros y _. wp_steps. eapply raise_here; [|done..]. stays.
Qed.
Lemma numeric_wf r st w : stays r st (cb w) → can allowed r st SMP_SC_DSPL_NC_EVT →
  wp (smp_calculate_numeric_comparison_display_number ev) (λ _ w', cb_wf (cb w')) w.
Proof.
  intros Hs Hc. unfold smp_calculate_numeric_comparison_display_number. wp_steps.
  eapply wp_crypto; [apply yields_numeric; [by apply cb_wf_view, Hs|by apply cb_wf_keys, Hs]|]. intros [ok k] mm Hk. cbn [snd] in Hk.
  pose proof (stays_set_keys _ _ _ _ Hs Hk) as Hs'. do 2 wp_step. revert Hs'. generalize (set_keys k (cb w)). intros s Hs'.
  wp_steps.
  - apply auth_cmpl_wf; [by decide_vm|]. pose proof (proj1 Hs'). wf.
  - eapply raise_here; [|exact Hc|done|done]. stays.
Qed.
Lemma peer_check_wf r st w : stays r st (cb w) → can allowed r st SMP_SC_KEY_READY_EVT →
  wp (smp_calculate_peer_dhkey_check ev) (λ _ w', cb_wf (cb w')) w.
Proof.
  intros Hs Hc. unfold smp_calculate_peer_dhkey_check. wp_steps.
  eapply wp_crypto; [apply yields_peer_check; [apply junk_block|by apply cb_wf_view, Hs|by apply cb_wf_keys, Hs]|]. intros [o|] mm _.
  - by eapply raise_here.
  - apply auth_cmpl_wf; [by decide_vm|apply Hs].
Qed.

(** ** The application *)

Lemma take_io_req_wf q s : io_wf q → cb_wf s → cb_wf (take_io_req q s).
Proof.
  intros (Hi & Ho & Ha) Hw. unfold take_io_req.
  assert (H1 : cb_wf (set_local_r_key (resp_keys q) (set_local_i_key (init_keys q) (set_loc_enc_size (max_key_size q)
    (set_loc_oob_flag (oob_data q) (set_local_io_capability (io_cap q) (set_loc_auth_req (auth_req q) s))))))).
  { destruct Hw. by constructor. }
  revert H1. generalize (set_local_r_key (resp_keys q) (set_local_i_key (init_keys q) (set_loc_enc_size (max_key_size q)
    (set_loc_oob_flag (oob_data q) (set_local_io_capability (io_cap q) (set_loc_auth_req (auth_req q) s)))))). clear s Hw. intros s Hw.
  assert (H2 : cb_wf (if negb (has (loc_auth_req s) SMP_AUTH_BOND) then set_local_r_key 0 (set_local_i_key 0 s) else s)).
  { destruct (negb _); [wf|done]. }
  cbv zeta. revert H2. generalize (if negb (has (loc_auth_req s) SMP_AUTH_BOND) then set_local_r_key 0 (set_local_i_key 0 s) else s).
  clear s Hw. intros s Hw.
  match goal with |- context [set_secure_connections_only_mode_required ?b s] => generalize b end. intros b.
  assert (H3 : cb_wf (set_secure_connections_only_mode_required b s)) by wf. revert H3.
  generalize (set_secure_connections_only_mode_required b s). clear s Hw. intros s Hw.
  assert (H4 : cb_wf (if secure_connections_only_mode_required s
    then set_loc_auth_req (Z.lor (loc_auth_req s) SMP_SC_SUPPORT_BIT) s else s)).
  { destruct (secure_connections_only_mode_required s); [|done]. pose proof (wf_loc_auth _ Hw).
    assert (is_byte SMP_SC_SUPPORT_BIT) by by decide_vm. wf. }
  revert H4. generalize (if secure_connections_only_mode_required s
    then set_loc_auth_req (Z.lor (loc_auth_req s) SMP_SC_SUPPORT_BIT) s else s). clear s Hw. intros s Hw.
  destruct (_ || _); [|done]. unfold clear_r_key, clear_i_key. pose proof (wf_loc_auth _ Hw).
  assert (is_byte (without (loc_auth_req s) SMP_KP_SUPPORT_BIT)) by by apply byte_ldiff. wf.
Qed.

Lemma app_cback_wf d w : cb_wf (cb w) → data_wf d →
  (cb_evt (cb w) = SMP_IO_CAP_REQ_EVT → ∀ r st, allowed (r, st, SMP_IO_RSP_EVT)) →
  (∀ r st, allowed (r, st, SMP_DISCARD_SEC_REQ_EVT)) → wp (smp_send_app_cback ev d) (λ _ w', cb_wf (cb w')) w.
Proof.
  intros Hw Hd Hio Hdisc. unfold smp_send_app_cback.
  assert (Hrest : ∀ w, cb_wf (cb w) → wp (s ← gets cb; when ((cb_evt s =? 0) && discard_sec_req s) (
    upd (set_discard_sec_req false);; ev SMP_DISCARD_SEC_REQ_EVT D_null)) (λ _ w', cb_wf (cb w')) w).
  { intros w' Hw'. wp_steps; [|done]. apply raise_at; [cbn; wf|apply Hdisc|done|done]. }
  wp_step. wp_step. wp_step. wp_step; [|wp_step; by apply Hrest]. cbv zeta. wp_step.
  assert (Hcall : ∀ x, wp (emit (AppCallback (cb_evt (cb w)) (pairing_bda (cb w)) x);;
    answer ← ask (λ n, callback n {| auth_req := peer_auth_req (cb w); oob_data := SMP_OOB_NONE; io_cap := SMP_IO_CAP_KBDISP;
         max_key_size := SMP_MAX_ENC_KEY_SIZE; init_keys := local_i_key (cb w); resp_keys := local_r_key (cb w) |});
    when (cb_evt (cb w) =? SMP_IO_CAP_REQ_EVT)
      (match answer with
       | Some r => upd (take_io_req r);; ev SMP_IO_RSP_EVT D_null
       | None => mret ()
       end)) (λ _ w', wp (s ← gets cb; when ((cb_evt s =? 0) && discard_sec_req s) (
    upd (set_discard_sec_req false);; ev SMP_DISCARD_SEC_REQ_EVT D_null)) (λ _ w', cb_wf (cb w')) w') w).
  { intros x. do 5 wp_step; [|wp_step; by apply Hrest]. destruct (callback _ _) as [q|] eqn:E; [|wp_step; by apply Hrest].
    apply wp_bind, wp_upd. eapply wp_mono; [apply raise_at|intros [] w'; apply Hrest].
    - cbn [cb]. apply take_io_req_wf; [by eapply callback_io|done].
    - apply Hio. by apply Z.eqb_eq.
    - done.
    - done. }
  repeat match goal with |- wp (if ?b then _ else _) _ _ => destruct b end.
  all: first [apply wp_ret, Hcall|apply wp_bind, wp_safe_lift; [auto with wp|]; intros ? _; apply wp_ret, Hcall].
Qed.

(** ** The association model *)

Lemma generate_passkey_wf w : cb_wf (cb w) → wp (smp_generate_passkey ev) (λ _ w', cb_wf (cb w')) w.
Proof. intros Hw. unfold smp_generate_passkey. wp_steps. apply request_rand_wf. cbn. wf. Qed.
Lemma decide_wf r st w : stays r st (cb w) → Forall allowed (decide_raises r st) →
  wp (smp_decide_association_model ev) (λ _ w', cb_wf (cb w')) w.
Proof.
  intros Hs Ha. unfold smp_decide_association_model.
  assert (Hkey : can allowed r st SMP_KEY_READY_EVT) by (eapply can_here; [exact Ha|decide_vm]).
  assert (Htk : can allowed r st SMP_TK_REQ_EVT) by (eapply can_here; [exact Ha|decide_vm]).
  assert (Hpub : can allowed r st SMP_PUBL_KEY_EXCH_REQ_EVT) by (eapply can_here; [exact Ha|decide_vm]).
  wp_steps. destruct (selected_association_model (cb w)); wp_steps.
  all: first [apply auth_cmpl_wf; [by decide_vm|apply Hs] | apply generate_passkey_wf; wf_from |
    apply (raise_here r st); [stays|assumption|ready|done]].
Qed.
Lemma process_private_key_wf r st w : stays r st (cb w) → can allowed r st SMP_LOC_PUBL_KEY_CRTD_EVT →
  wp (smp_process_private_key ev) (λ _ w', cb_wf (cb w')) w.
Proof.
  intros Hs Hc. unfold smp_process_private_key. wp_steps. pose proof (private_key_shape _ (wf_private_key _ (proj1 Hs))) as Hk.
  apply wp_lift. destruct (Ecc.smp_process_private_key _ _) as [[x y]|f]; [|exact Hk]. wp_steps.
  eapply raise_here; [|exact Hc|done|done]. stays.
Qed.
Lemma use_oob_private_key_wf r st w : stays r st (cb w) → Forall allowed (oob_key_raises r st) →
  wp (smp_use_oob_private_key ev) (λ _ w', cb_wf (cb w')) w.
Proof.
  intros Hs [Ha [Hm Hsl]%Forall_app]%Forall_app. unfold smp_use_oob_private_key. wp_steps.
  - pose proof (wf_private_key_used _ (wf_oob _ (proj1 Hs))). eapply process_private_key_wf; [|by eapply can_here; [exact Ha|decide_vm]]. stays.
  - eapply (decide_wf (role (cb w)) SMP_STATE_PAIR_REQ_RSP); [split; [cbn; wf_from|by left]|]. by destruct (role (cb w)).
Qed.
Lemma wanted_oob_byte s : is_byte (wanted_oob_type s).
Proof. unfold wanted_oob_type. repeat case_match; by decide_vm. Qed.
Lemma request_oob_data_wf r st w : stays r st (cb w) → can allowed r st SMP_TK_REQ_EVT →
  wp (smp_request_oob_data ev) (λ b w', cb_wf (cb w') ∧ (b = false → stays r st (cb w'))) w.
Proof.
  intros Hs Hc. unfold smp_request_oob_data. pose proof (wanted_oob_byte (cb w)). wp_steps; [by split; [apply Hs|]|].
  behind ltac:(eapply (raise_here r st); [stays|exact Hc|ready|done]). intros ? w' Hw'. by wp_steps.
Qed.
Lemma send_pair_rsp_wf r st w : stays r st (cb w) → Forall allowed (pair_rsp_raises r st) →
  wp (smp_send_pair_rsp ev) (λ _ w', cb_wf (cb w')) w.
Proof.
  intros Hs [Hd Ho]%Forall_app. unfold smp_send_pair_rsp. wp_steps.
  behind ltac:(apply (smp_send_cmd_stays _ _ Hev r st (Hcan r st)); stays). intros sent w' Hs'. wp_steps; [|..|apply Hs'].
  - by eapply use_oob_private_key_wf.
  - by eapply decide_wf.
Qed.
(** The model is one of those of the table, and the rest of the block stays. *)
Lemma select_fault s : select_model s ≠ Fault OutOfFuel.
Proof.
  unfold select_model. apply bind_fault; [|done]. unfold smp_select_association_model_secure_connections,
    smp_select_legacy_association_model, table_model. repeat case_match; try done; apply bind_fault; try apply index_fault; intros; apply index_fault.
Qed.
Lemma select_stays r st w : stays r st (cb w) → wp smp_select_association_model (λ _ w', stays r st (cb w')) w.
Proof.
  intros Hs. unfold smp_select_association_model. wp_steps. apply wp_safe_lift; [apply select_fault|]. intros [m sc] _. wp_steps. stays.
Qed.
Lemma proc_sec_req_wf r st d w : stays r st (cb w) → data_wf d → can allowed r st SMP_ENC_REQ_EVT →
  wp (smp_proc_sec_req ev d) (λ _ w', cb_wf (cb w')) w.
Proof.
  intros Hs Hd Hc. unfold smp_proc_sec_req. wp_steps. read. wp_steps.
  destruct (link_sec_check _ _ _) as [[]|]; wp_steps; try done; try wf_from.
  - eapply raise_here; [|exact Hc|done|done]. stays.
  - apply auth_cmpl_wf; [by decide_vm|wf_from].
Qed.

(** ** Commands of the peer *)

Lemma pairing_parameters_stays r st p w : stays r st (cb w) → bytes_ok p →
  wp (take_pairing_parameters p) (λ _ w', stays r st (cb w')) w.
Proof. intros Hs Hp. unfold take_pairing_parameters. drive. stays. Qed.
Lemma choose_model_wf r st w (rest : M world ()) : stays r st (cb w) → Forall allowed (pair_rsp_raises r st) →
  (∀ w, stays r st (cb w) → wp rest (λ _ w', cb_wf (cb w')) w) →
  wp (model ← smp_select_association_model; upd (set_selected_association_model model);;
      s ← gets cb;
      if mode_not_allowed s then auth_cmpl ev SMP_PAIR_AUTH_FAIL else
      if eqb model SMP_MODEL_SEC_CONN_OOB then smp_request_oob_data ev;; mret () else rest) (λ _ w', cb_wf (cb w')) w.
Proof.
  intros Hs [Ha _]%Forall_app Hrest. wp_step. behind ltac:(by apply select_stays). intros m w' Hs'. wp_steps.
  - apply auth_cmpl_wf; [by decide_vm|wf_from].
  - behind ltac:(apply (request_oob_data_wf r st); [stays|by eapply can_here; [exact Ha|decide_vm]]). intros ? w'' [Hw'' _]. by wp_steps.
  - apply Hrest. stays.
Qed.
Lemma proc_pair_cmd_wf r st d w : stays r st (cb w) → data_wf d → Forall allowed (pair_rsp_raises r st) →
  wp (smp_proc_pair_cmd ev d) (λ _ w', cb_wf (cb w')) w.
Proof.
  intros Hs Hd Ha. unfold smp_proc_pair_cmd. do 3 wp_step.
  eapply (wp_mono _ (λ _ w', stays r st (cb w'))); [by wp_steps|]. clear w Hs. intros [] w Hs. wp_steps. read. wp_step.
  behind ltac:(apply (pairing_parameters_stays r st); [stays|done]). clear w Hs. intros [] w Hs.
  unfold checked. wp_steps. apply wp_safe_lift; [auto with wp|]. intros [] _; [apply auth_cmpl_wf; [by decide_vm|apply Hs]|].
  do 2 wp_step. wp_step; [wp_step|].
  - wp_steps. wf_from.
  - do 4 wp_step. apply (choose_model_wf r st); [stays|done|]. intros. by eapply send_pair_rsp_wf.
  - apply (choose_model_wf r st); [done..|]. intros. eapply decide_wf; [done|]. by apply Forall_app in Ha as [? _].
Qed.
Lemma process_io_response_wf r st w : stays r st (cb w) → Forall allowed (pair_rsp_raises r st) →
  wp (smp_process_io_response ev) (λ _ w', cb_wf (cb w')) w.
Proof.
  intros Hs Ha. unfold smp_process_io_response. wp_step. wp_step. wp_step.
  { wp_steps. apply send_wf. cbn. wf_from. }
  wp_step. behind ltac:(by apply select_stays). intros m w' Hs'. wp_steps.
  - apply auth_cmpl_wf; [by decide_vm|wf_from].
  - behind ltac:(apply (request_oob_data_wf r st); [stays|apply Forall_app in Ha as [Ha _]; by eapply can_here; [exact Ha|decide_vm]]).
    intros requested w'' [Hw'' Hs'']. wp_steps; [done|]. eapply send_pair_rsp_wf; [by apply Hs''|done].
  - eapply (send_pair_rsp_wf r st); [stays|done].
Qed.

Lemma proc_sl_key_wf r st d w : stays r st (cb w) →
  Forall allowed (places both_roles [SMP_STATE_WAIT_CONFIRM] [SMP_CONFIRM_EVT]) →
  wp (smp_proc_sl_key ev d) (λ _ w', cb_wf (cb w')) w.
Proof.
  intros Hs Ha. unfold smp_proc_sl_key. wp_steps. apply wp_safe_lift; [auto with wp|]. intros [t v] _.
  destruct t; wp_steps; try wf_from.
  - unfold smp_generate_srand_mrand_confirm. wp_steps. apply request_rand_wf. cbn. wf_from.
  - apply raise_at; [cbn; wf_from| |done|done]. cbn. eapply allowed_places; [exact Ha|by destruct (role (cb w)); decide_vm|decide_vm..].
Qed.

(** ** Comparing *)

Lemma settle_key_size_stays r st s : stays r st s → stays r st (settle_key_size s).
Proof. intros Hs. unfold settle_key_size. destruct (_ <? _); [stays|done]. Qed.
Lemma settle_key_size_place s : role (settle_key_size s) = role s ∧ state (settle_key_size s) = state s.
Proof. unfold settle_key_size. by destruct (_ <? _). Qed.
(** What a comparison that has succeeded raises. *)
Lemma compare_allowed r st e s : stays r st s → Forall allowed (compare_raises r st e) →
  allowed (role s, state s, match role s with HCI_ROLE_SLAVE => e | HCI_ROLE_MASTER => SMP_ENC_REQ_EVT end).
Proof.
  intros [_ Hs] [H1 H2]%Forall_app. destruct Hs as [[-> ->]|Hs].
  - eapply allowed_places; [exact H1|by apply list_elem_of_singleton..].
  - eapply allowed_places; [exact H2|by destruct (role s); decide_vm|rewrite Hs; decide_vm|].
    destruct (role s); rewrite !elem_of_cons; auto.
Qed.
Lemma compared_wf r st e w : stays r st (cb w) → Forall allowed (compare_raises r st e) →
  e ≠ SMP_TK_REQ_EVT → e ≠ SMP_SC_DSPL_NC_EVT →
  wp (upd settle_key_size;;
      if is_slave (cb w) then ev e D_null else upd use_peer_keys;; ev SMP_ENC_REQ_EVT D_null) (λ _ w', cb_wf (cb w')) w.
Proof.
  intros Hs Ha H1 H2. pose proof (settle_key_size_stays _ _ _ Hs) as Hs'. pose proof (compare_allowed _ _ _ _ Hs' Ha) as Hal.
  destruct (settle_key_size_place (cb w)) as [Er _]. unfold is_slave, eqb. rewrite <- Er.
  do 2 wp_step. revert Hs' Hal. generalize (settle_key_size (cb w)). intros s Hs' Hal. wp_steps.
  - apply raise_at; [apply Hs'|cbn|by destruct e|done]. apply bool_decide_eq_true in Heqb. by rewrite Heqb in *.
  - apply raise_at; [cbn; unfold use_peer_keys; wf_from|cbn|done|done]. apply bool_decide_eq_false in Heqb. by destruct (role s).
Qed.
Lemma proc_compare_wf r st d w : stays r st (cb w) → Forall allowed (compare_raises r st SMP_RAND_EVT) →
  wp (smp_proc_compare ev d) (λ _ w', cb_wf (cb w')) w.
Proof.
  intros Hs Ha. unfold smp_proc_compare. wp_step. apply wp_safe_lift; [auto with wp|]. intros [t v] _. do 2 wp_step. wp_step.
  - by eapply compared_wf.
  - wp_steps. apply auth_cmpl_wf; [by decide_vm|wf_from].
Qed.
Lemma match_dhkey_checks_wf r st d w : stays r st (cb w) → Forall allowed (compare_raises r st SMP_PAIR_DHKEY_CHCK_EVT) →
  wp (smp_match_dhkey_checks ev d) (λ _ w', cb_wf (cb w')) w.
Proof.
  intros Hs Ha. unfold smp_match_dhkey_checks. wp_step. apply wp_safe_lift; [auto with wp|]. intros [t v] _. do 2 wp_step. wp_step.
  - wp_steps. apply auth_cmpl_wf; [by decide_vm|wf_from].
  - by eapply compared_wf.
Qed.
Lemma keys_after_encryption_stays r st s : stays r st s → stays r st (keys_after_encryption s).
Proof.
  intros Hs. unfold keys_after_encryption, clear_r_key, clear_i_key, is_master. cbv zeta. destruct (le_secure_connections_mode_is_used s); [|stays].
  repeat match goal with |- context [if ?c then _ else _] => destruct c end; stays.
Qed.
Lemma check_auth_req_wf r st d w : stays r st (cb w) → can allowed r st SMP_BOND_REQ_EVT →
  wp (smp_check_auth_req ev d) (λ _ w', cb_wf (cb w')) w.
Proof.
  intros Hs Hc. unfold smp_check_auth_req. wp_step. apply wp_safe_lift; [auto with wp|]. intros v _. cbv zeta.
  assert (Hend : ∀ b w, cb_wf (cb w) → wp (auth_cmpl ev (if negb b then SMP_SUCCESS else SMP_ENC_FAIL)) (λ _ w', cb_wf (cb w')) w).
  { intros b w' Hw'. apply auth_cmpl_wf; [|done]. by destruct b; decide_vm. }
  pose proof (keys_after_encryption_stays _ _ _ Hs) as Hs'. wp_step.
  - do 2 wp_step. revert Hs'. generalize (keys_after_encryption (cb w)). intros s Hs'. wp_step. wp_step. wp_step.
    + by eapply raise_here.
    + apply Hend, Hs'.
  - wp_steps; first [apply Hend, Hs | apply Hs].
Qed.

(** ** Public keys *)

Lemma wait_for_both_wf r st w : stays r st (cb w) → can allowed r st SMP_BOTH_PUBL_KEYS_RCVD_EVT →
  Forall allowed (places both_roles [SMP_STATE_PUBLIC_KEY_EXCH] [SMP_BOTH_PUBL_KEYS_RCVD_EVT]) →
  wp (smp_wait_for_both_public_keys ev) (λ _ w', cb_wf (cb w')) w.
Proof.
  intros Hs Hc Ha. unfold smp_wait_for_both_public_keys. wp_steps; [| |apply Hs].
  - apply raise_at; [cbn; wf_from| |done|done]. cbn. eapply allowed_places; [exact Ha|by destruct (role (cb w)); decide_vm|decide_vm..].
  - by eapply raise_here.
Qed.
Lemma process_public_key_wf r st d w : stays r st (cb w) → data_wf d → can allowed r st SMP_BOTH_PUBL_KEYS_RCVD_EVT →
  Forall allowed (places both_roles [SMP_STATE_PUBLIC_KEY_EXCH] [SMP_BOTH_PUBL_KEYS_RCVD_EVT]) →
  wp (smp_process_pairing_public_key ev d) (λ _ w', cb_wf (cb w')) w.
Proof.
  intros Hs Hd Hc Ha. unfold smp_process_pairing_public_key, checked. wp_steps. apply wp_safe_lift; [auto with wp|].
  intros [] _; [apply auth_cmpl_wf; [by decide_vm|apply Hs]|]. drive. eapply (wait_for_both_wf r st); [|done..].
  cbn [cb]. assert (publ_wf {| publ_x := v; publ_y := v0 |}) by done. stays.
Qed.
Lemma compute_dhkey_stays r st w : stays r st (cb w) → wp smp_compute_dhkey (λ _ w', stays r st (cb w')) w.
Proof.
  intros Hs. unfold smp_compute_dhkey. wp_steps.
  pose proof (compute_dhkey_shape _ _ _ (wf_private_key _ (proj1 Hs)) (proj1 (wf_peer_publ_key _ (proj1 Hs))) (proj2 (wf_peer_publ_key _ (proj1 Hs)))) as Hd.
  apply wp_lift. destruct (Ecc.smp_compute_dhkey _ _ _ _) as [x|f]; [|exact Hd]. wp_steps. stays.
Qed.
Lemma both_have_wf r st w : stays r st (cb w) → can allowed r st SMP_SC_DHKEY_CMPLT_EVT →
  wp (smp_both_have_public_keys ev) (λ _ w', cb_wf (cb w')) w.
Proof.
  intros Hs Hc. unfold smp_both_have_public_keys. wp_step. behind ltac:(by apply compute_dhkey_stays). intros ? w' Hs'. wp_steps.
  - behind ltac:(apply (send_stays _ _ Hev r st (Hcan r st)); stays). intros ? w'' Hs''. by eapply raise_here.
  - by eapply raise_here.
Qed.

(** ** The phases of secure connections *)

Lemma start_nonce_wf w : cb_wf (cb w) → wp (smp_start_nonce_generation ev) (λ _ w', cb_wf (cb w')) w.
Proof. intros Hw. unfold smp_start_nonce_generation. wp_steps. apply request_rand_wf. cbn. wf. Qed.
Lemma check_commitment_wp (Q : bool → world → Prop) w : cb_wf (cb w) →
  (∀ b m, Q b (World (cb w) m (calls w) (out w))) → wp smp_check_commitment Q w.
Proof.
  intros Hw HQ. unfold smp_check_commitment. wp_steps.
  eapply wp_crypto; [apply yields_check_commitment; [apply junk_block|by apply cb_wf_view]|]. intros b m _. apply HQ.
Qed.
Lemma confirm_value_error_wf w : cb_wf (cb w) → wp (confirm_value_error ev) (λ _ w', cb_wf (cb w')) w.
Proof. intros Hw. unfold confirm_value_error. wp_steps. apply auth_cmpl_wf; [by decide_vm|cbn; wf]. Qed.
Lemma oob_data_wf w : cb_wf (cb w) → wp (smp_process_secure_connection_oob_data ev) (λ _ w', cb_wf (cb w')) w.
Proof.
  intros Hw. pose proof (wf_oob _ Hw) as Ho. destruct Ho.
  assert (Hr : block (if loc_present (loc_oob_data (sc_oob_data (cb w))) then loc_randomizer (loc_oob_data (sc_oob_data (cb w))) else zeros 16)).
  { destruct (loc_present _); [done|apply block_zeros]. }
  unfold smp_process_secure_connection_oob_data. cbv zeta. do 4 wp_step. wp_step.
  - wp_steps. apply start_nonce_wf. cbn. wf.
  - do 4 wp_step. wp_step. apply check_commitment_wp; [cbn; wf|]. intros b m. wp_steps; first [apply auth_cmpl_wf; [by decide_vm|] | apply start_nonce_wf]; cbn; wf.
Qed.
Lemma start_phase1_wf r st w : stays r st (cb w) → can allowed r st SMP_TK_REQ_EVT →
  wp (smp_start_secure_connection_phase1 ev) (λ _ w', cb_wf (cb w')) w.
Proof.
  intros Hs Hc. unfold smp_start_secure_connection_phase1.
  set (level := λ m, if eqb m SMP_MODEL_SEC_CONN_JUSTWORKS then SMP_SEC_UNAUTHENTICATE else SMP_SEC_AUTHENTICATED).
  wp_steps. fold (level (selected_association_model (cb w))). generalize (level (selected_association_model (cb w))). intros l.
  destruct (selected_association_model (cb w)); wp_steps; try wf_from.
  all: first [apply start_nonce_wf; cbn; wf_from | apply generate_passkey_wf; cbn; wf_from | apply oob_data_wf; cbn; wf_from |
    apply (raise_here r st); [stays|assumption|ready|done]].
Qed.
Lemma local_commitment_stays r st w : stays r st (cb w) → wp smp_calculate_local_commitment (λ _ w', stays r st (cb w')) w.
Proof.
  intros Hs. unfold smp_calculate_local_commitment. wp_steps.
  eapply wp_crypto; [apply yields_local_commitment; [apply junk_block|by apply cb_wf_view, Hs]|]. intros [c|] m Hc; wp_steps; [|done].
  specialize (Hc _ eq_refl). stays.
Qed.
Lemma local_nonce_wf r st w : stays r st (cb w) → wp (smp_process_local_nonce ev) (λ _ w', cb_wf (cb w')) w.
Proof.
  intros Hs. unfold smp_process_local_nonce, smp_send_commitment, smp_send_rand. wp_step. wp_step.
  assert (Hsend : ∀ c w, stays r st (cb w) → wp (send ev c) (λ _ w', stays r st (cb w')) w).
  { intros c w' Hs'. by apply (send_stays _ _ Hev r st (Hcan r st)). }
  assert (Hwait : ∀ c w, stays r st (cb w) → wp (send ev c;; upd (set_state SMP_STATE_WAIT_NONCE)) (λ _ w', cb_wf (cb w')) w).
  { intros c w' Hs'. wp_step. behind ltac:(by apply Hsend). intros ? w'' Hs''. wp_step. wf_from. }
  destruct (selected_association_model (cb w)); try (wp_step; apply Hs).
  - wp_step; [|wp_step; [|wp_step; apply Hs]].
    + wp_step. behind ltac:(by apply local_commitment_stays). intros ? w' Hs'. by apply Hwait.
    + do 2 wp_step. apply Hwait. stays.
  - wp_step; [|wp_step; [|wp_step; apply Hs]].
    + wp_step. behind ltac:(by apply local_commitment_stays). intros ? w' Hs'. by apply Hwait.
    + do 2 wp_step. apply Hwait. stays.
  - wp_step. behind ltac:(by apply local_commitment_stays). intros ? w' Hs'. wp_step; [|wp_step; [by apply Hwait|wp_step; apply Hs']].
    apply send_wf, Hs'.
  - wp_step. behind ltac:(by apply local_commitment_stays). intros ? w' Hs'. wp_step; [|wp_step; [by apply Hwait|wp_step; apply Hs']].
    apply send_wf, Hs'.
  - wp_step. wp_step; [|wp_steps; wf_from]. behind ltac:(by apply Hsend). intros ? w' Hs'. wp_step. wf_from.
Qed.
Lemma peer_nonce_wf r st w : stays r st (cb w) → can allowed r st SMP_SC_PHASE1_CMPLT_EVT →
  Forall allowed (places both_roles [SMP_STATE_WAIT_NONCE] [SMP_SC_CALC_NC_EVT]) →
  wp (smp_process_peer_nonce ev) (λ _ w', cb_wf (cb w')) w.
Proof.
  intros Hs Hc Ha. unfold smp_process_peer_nonce, smp_send_rand. wp_step. wp_step.
  assert (Hsend : ∀ c w, stays r st (cb w) → wp (send ev c) (λ _ w', stays r st (cb w')) w).
  { intros c w' Hs'. by apply (send_stays _ _ Hev r st (Hcan r st)). }
  assert (Hdone : ∀ w, stays r st (cb w) → wp (ev SMP_SC_PHASE1_CMPLT_EVT D_null) (λ _ w', cb_wf (cb w')) w).
  { intros. by apply (raise_here r st). }
  assert (Hnumeric : ∀ b w, stays r st (cb w) → wp (if negb b then confirm_value_error ev else
      model ← rd selected_association_model;
      if eqb model SMP_MODEL_SEC_CONN_JUSTWORKS then ev SMP_SC_PHASE1_CMPLT_EVT D_null
      else upd (set_state SMP_STATE_WAIT_NONCE);; ev SMP_SC_CALC_NC_EVT D_null) (λ _ w', cb_wf (cb w')) w).
  { intros b w' Hs'. wp_steps; [apply confirm_value_error_wf, Hs'|by apply Hdone|].
    apply raise_at; [cbn; wf_from| |done|done]. cbn. eapply allowed_places; [exact Ha|by destruct (role (cb w')); decide_vm|decide_vm..]. }
  assert (Hround : ∀ w, stays r st (cb w) → wp (upd (λ s, set_round (u8 (round s + 1)) s);;
      r ← rd round;
      if r <? 20 then
        upd (set_state SMP_STATE_SEC_CONN_PHS1_START);;
        upd (clear_flag SMP_PAIR_FLAG_HAVE_PEER_COMM);;
        smp_start_nonce_generation ev
      else ev SMP_SC_PHASE1_CMPLT_EVT D_null) (λ _ w', cb_wf (cb w')) w).
  { intros w' Hs'. wp_steps; [apply start_nonce_wf; cbn; wf_from|]. apply Hdone. stays. }
  assert (Hpasskey : wp (ok ← smp_check_commitment; if negb ok then confirm_value_error ev else
      when (is_slave (cb w)) (send ev SMP_OPCODE_RAND);;
      upd (λ s, set_round (u8 (round s + 1)) s);;
      r ← rd round;
      if r <? 20 then
        upd (set_state SMP_STATE_SEC_CONN_PHS1_START);;
        upd (clear_flag SMP_PAIR_FLAG_HAVE_PEER_COMM);;
        smp_start_nonce_generation ev
      else ev SMP_SC_PHASE1_CMPLT_EVT D_null) (λ _ w', cb_wf (cb w')) w).
  { wp_step. apply check_commitment_wp; [apply Hs|]. intros b m. wp_step; [by apply confirm_value_error_wf, Hs|]. wp_step. wp_step; [|wp_step; by apply Hround].
    behind ltac:(by apply Hsend). intros ? w' Hs'. by apply Hround. }
  destruct (selected_association_model (cb w)); try (wp_step; apply Hs); try exact Hpasskey.
  1, 2: wp_step; wp_step; [apply check_commitment_wp; [apply Hs|]; intros b m; by apply Hnumeric|].
  1, 2: wp_step; behind ltac:(by apply Hsend); intros ? w' Hs'; wp_step; by apply Hnumeric.
  wp_step. wp_step; [|wp_step; by apply Hdone]. behind ltac:(by apply Hsend). intros ? w' Hs'. by apply Hdone.
Qed.

(** ** Keys of the peer *)

Lemma update_key_mask_stays r st t b s : stays r st s → stays r st (smp_update_key_mask t b s).
Proof.
  intros [Hw Hs]. destruct (update_key_mask_place t b s Hw) as (? & Er & Es). split; [done|]. unfold settled in *. by rewrite Er, Es.
Qed.
Lemma take_array_wf d set w : cb_wf (cb w) → data_wf d → (∀ v, block v → cb_wf (set v (cb w))) →
  wp (take_array d set) (λ _ w', cb_wf (cb w')) w.
Proof. intros Hw Hd Hset. unfold take_array. drive. by apply Hset. Qed.
Lemma proc_enc_info_wf d w : cb_wf (cb w) → data_wf d → wp (smp_proc_enc_info kd d) (λ _ w', cb_wf (cb w')) w.
Proof.
  intros Hw Hd. unfold smp_proc_enc_info. wp_step. behind ltac:(apply take_array_wf; [done..|intros; wf]). intros ? w' Hw'. by apply Hkd.
Qed.
Lemma proc_id_info_wf d w : cb_wf (cb w) → data_wf d → wp (smp_proc_id_info kd d) (λ _ w', cb_wf (cb w')) w.
Proof.
  intros Hw Hd. unfold smp_proc_id_info. wp_step. behind ltac:(apply take_array_wf; [done..|intros; wf]). intros ? w' Hw'. by apply Hkd.
Qed.
Lemma update_key_mask_wf t b s : cb_wf s → cb_wf (smp_update_key_mask t b s).
Proof. intros Hw. by destruct (update_key_mask_place t b s Hw). Qed.
Lemma proc_master_id_wf d w : cb_wf (cb w) → data_wf d → wp (smp_proc_master_id kd d) (λ _ w', cb_wf (cb w')) w.
Proof.
  intros Hw Hd. pose proof (update_key_mask_wf SMP_SEC_KEY_TYPE_ENC true _ Hw). unfold smp_proc_master_id. drive; by apply Hkd.
Qed.
Lemma proc_srk_info_wf d w : cb_wf (cb w) → data_wf d → wp (smp_proc_srk_info kd d) (λ _ w', cb_wf (cb w')) w.
Proof.
  intros Hw Hd. pose proof (update_key_mask_wf SMP_SEC_KEY_TYPE_CSRK true _ Hw). unfold smp_proc_srk_info. drive; by apply Hkd.
Qed.
Lemma proc_id_addr_wf d w : cb_wf (cb w) → data_wf d → wp (smp_proc_id_addr kd d) (λ _ w', cb_wf (cb w')) w.
Proof.
  intros Hw Hd. pose proof (update_key_mask_wf SMP_SEC_KEY_TYPE_ID true _ Hw) as Hw'. unfold smp_proc_id_addr. do 2 wp_step. revert Hw'.
  generalize (smp_update_key_mask SMP_SEC_KEY_TYPE_ID true (cb w)). intros s Hw'. drive; apply Hkd; cbn; wf.
Qed.
Lemma key_info_wf (first second : Z) (t : Z) k w : cb_wf (cb w) →
  wp (upd (smp_update_key_mask t false);; send ev first;; send ev second;;
      s ← gets cb; when (both_bond s) (emit (SavedKey (pairing_bda s) (k s)));; kd) (λ _ w', cb_wf (cb w')) w.
Proof.
  intros Hw. pose proof (update_key_mask_wf t false _ Hw). do 3 wp_step. behind ltac:(by apply send_wf). intros ? w' Hw'. wp_step.
  behind ltac:(by apply send_wf). intros ? w'' Hw''. wp_steps; by apply Hkd.
Qed.
Lemma send_csrk_wf w : cb_wf (cb w) → wp (smp_send_csrk_info ev kd) (λ _ w', cb_wf (cb w')) w.
Proof.
  intros Hw. unfold smp_send_csrk_info. do 3 wp_step.
  behind ltac:(apply (smp_send_cmd_stays _ _ Hev (role (cb w)) (state (cb w)) (Hcan _ _)), update_key_mask_stays, stays_here, Hw). intros ? w' [Hw' _].
  wp_steps; by apply Hkd.
Qed.
Lemma csrk_wf w : cb_wf (cb w) → wp (smp_compute_csrk ev kd) (λ _ w', cb_wf (cb w')) w.
Proof.
  intros Hw. unfold smp_compute_csrk. pose proof (div_bytes _ Hw) as [? ?]. wp_steps.
  eapply wp_crypto; [apply yields_encrypt; [apply er_block|cbn; lia|by rewrite !Forall_cons|done]|].
  intros [o|] mm Ho; wp_steps; [|by apply auth_cmpl_wf; [decide_vm|]]. apply send_csrk_wf. pose proof (Ho _ eq_refl). cbn. wf.
Qed.

(** ** Out of band data *)

Lemma oob_rand_commitment_wf w : cb_wf (cb w) → (∀ r st, allowed (r, st, SMP_DISCARD_SEC_REQ_EVT)) →
  wp (smp_set_local_oob_random_commitment ev) (λ _ w', cb_wf (cb w')) w.
Proof.
  intros Hw Ha. pose proof (wf_oob _ Hw) as Ho. destruct Ho. unfold smp_set_local_oob_random_commitment. cbv zeta. wp_steps.
  destruct wf_publ_key_used.
  eapply wp_crypto; [apply yields_f4; [apply junk_block|done|done|by apply wf_rand]|]. intros c m Hc. do 5 wp_step.
  behind ltac:(apply app_cback_wf; [|done|done|apply Ha]).
  - cbn. destruct Hw. by constructor.
  - intros ? w' Hw'. unfold smp_cb_cleanup. wp_step. apply (kept_clean (role (cb w)) (state (cb w)) 0).
Qed.
Lemma send_pair_fail_wf d w : cb_wf (cb w) → data_wf d → wp (smp_send_pair_fail ev d) (λ _ w', cb_wf (cb w')) w.
Proof.
  intros Hw Hd. unfold smp_send_pair_fail. wp_steps. read. wp_steps; [|cbn; wf].
  behind ltac:(apply send_wf; cbn; wf). intros ? w' Hw'. wp_step. wf.
Qed.

(** ** Every action *)

Lemma action_wf e a r st d w : stays r st (cb w) → event_ready e (cb w) → data_wf d →
  Forall allowed (raises e a r st) → wp (smp_sm_action ev kd a d) (λ _ w', cb_wf (cb w')) w.
Proof.
  intros Hs Hr Hd Ha. pose proof (proj1 Hs) as Hw. destruct (quiet_action a) eqn:Hq.
  { eapply wp_mono; [by apply (quiet_action_stays allowed ev kd Hev r st)|]. by intros ? w' [? _]. }
  destruct (final_action a) eqn:Hf.
  { eapply wp_mono; [eapply (final_action_kept ev kd); [done|by apply stays_kept]|]. by intros ? w' [? _]. }
  destruct a; try done; clear Hq Hf; cbn [smp_sm_action]; cbn [raises] in Ha.
  - eapply proc_sec_req_wf; [done..|]. by eapply can_here; [exact Ha|decide_vm].
  - by eapply send_pair_rsp_wf.
  - by apply send_pair_fail_wf.
  - by apply key_info_wf.
  - by apply (key_info_wf _ _ _ (λ _, LID)).
  - by eapply proc_pair_cmd_wf.
  - by apply proc_enc_info_wf.
  - by apply proc_master_id_wf.
  - by apply proc_id_info_wf.
  - by apply proc_id_addr_wf.
  - by apply proc_srk_info_wf.
  - by eapply proc_sl_key_wf.
  - by eapply proc_compare_wf.
  - by eapply process_io_response_wf.
  - eapply generate_compare_wf; [done|]. by eapply can_here; [exact Ha|decide_vm].
  - eapply generate_stk_wf; [done|]. by eapply can_here; [exact Ha|decide_vm].
  - by apply Hkd.
  - by eapply decide_wf.
  - apply app_cback_wf; [done..| |].
    + intros Hio r' st'. destruct e; try (by eapply allowed_anywhere; [exact Ha|decide_vm]); destruct Hr; congruence.
    + intros r' st'. destruct e; by eapply allowed_anywhere; [exact Ha|decide_vm].
  - eapply check_auth_req_wf; [done|]. by eapply can_here; [exact Ha|decide_vm].
  - by eapply use_oob_private_key_wf.
  - apply Forall_app in Ha as [Ha1 Ha2]. eapply process_public_key_wf; [done..| |done]. by eapply can_here; [exact Ha1|decide_vm].
  - eapply both_have_wf; [done|]. by eapply can_here; [exact Ha|decide_vm].
  - eapply start_phase1_wf; [done|]. by eapply can_here; [exact Ha|decide_vm].
  - by eapply local_nonce_wf.
  - apply Forall_app in Ha as [Ha1 Ha2]. eapply peer_nonce_wf; [done| |done]. by eapply can_here; [exact Ha1|decide_vm].
  - eapply peer_check_wf; [done|]. by eapply can_here; [exact Ha|decide_vm].
  - eapply match_dhkey_checks_wf; [done|exact Ha].
  - eapply numeric_wf; [done|]. by eapply can_here; [exact Ha|decide_vm].
  - eapply raise_here; [done| |done|done]. by eapply can_here; [exact Ha|decide_vm].
  - unfold smp_phase_2_dhkey_checks_are_present. wp_steps; [|done]. eapply raise_here; [done| |done|done]. by eapply can_here; [exact Ha|decide_vm].
  - apply Forall_app in Ha as [Ha1 Ha2]. eapply wait_for_both_wf; [done| |done]. by eapply can_here; [exact Ha1|decide_vm].
  - by apply oob_data_wf.
  - apply oob_rand_commitment_wf; [done|]. intros r' st'. by eapply allowed_anywhere; [exact Ha|decide_vm].
Qed.
End Raising.
