(* ===== verification/SmpReturns.v ===== *)
(** * Pairing returns

    From every state of the machine, every event is handled within [engine_depth]
    levels of events within events, and leaves a well typed control block. *)

From S2P Require Import Prelude Aes AesProofs Cmac Ecc Smp SmpProofs EccSpec SmpTables SmpCb SmpCommands SmpAct SmpEvents SmpWf SmpEngine SmpActProofs SmpLab.

(** ** The rows of the tables *)

(** An action that may follow any other. *)
Definition anywhere_action (a : action) : bool :=
  match a with SMP_SEND_APP_CBACK | SMP_FAST_CONN_PARAM | SMP_SM_NO_ACTION => true | _ => false end.
(** The event shows the application a request that the engine has chosen. *)
Definition shows_request (e : tSMP_EVENT) : bool := match e with SMP_TK_REQ_EVT | SMP_SC_DSPL_NC_EVT => true | _ => false end.
Definition row_ok (p : place) : bool :=
  let '(r, st, e) := p in
  match sm_lookup r st e with
  | Ok None => true
  | Ok (Some (a1, a2, _)) =>
      negb (bool_decide (a1 = SMP_SM_NO_ACTION)) && (quiet_action a1 || anywhere_action a2 || bool_decide (e = SMP_AUTH_CMPL_EVT)) &&
      (negb (shows_request e) || bool_decide (a2 = SMP_SM_NO_ACTION))
  | Fault _ => false
  end.
Lemma rows_ok p : row_ok p = true.
Proof.
  assert (H : forallb row_ok (places both_roles all_states all_events) = true) by by vm_compute.
  rewrite forallb_forall in H. apply H. destruct p as [[r s] e]. apply list_elem_of_In, places_complete;
    [by destruct r; decide_vm|apply all_states_complete|apply all_events_complete].
Qed.

(** ** Events *)

Section Returns.
Context `{HostTypes}.

(** What the handling of an event within the engine promises. *)
Definition handled (e : tSMP_EVENT) (w w' : world) : Prop :=
  cb_wf (cb w') ∧ (e = SMP_AUTH_CMPL_EVT → kept (role (cb w)) (state (cb w)) (keys_left (cb w)) (cb w')).

Lemma auth_cmpl_handled k d w : (2 ≤ k)%nat → cb_wf (cb w) → data_wf d →
  wp ((engine k).1 SMP_AUTH_CMPL_EVT d) (λ _ w', handled SMP_AUTH_CMPL_EVT w w') w.
Proof. intros Hk Hw Hd. eapply wp_mono; [by apply auth_cmpl_returns|]. intros [] w' Hk'. by split; [apply Hk'|]. Qed.

Definition ending (p : place) : Prop := p.2 = SMP_AUTH_CMPL_EVT.
Lemma distribution_returns n j w : (n + 3 ≤ j)%nat → cb_wf (cb w) → (keys_left (cb w) ≤ n)%nat →
  wp (engine j).2 (λ _ w', cb_wf (cb w')) w.
Proof.
  revert j w. induction n as [|n IH]; intros j w Hj Hw Hn; (destruct j as [|j]; [lia|]); cbn [engine snd fst].
  all: eapply (key_distribution_wf ending); [|done| |done|exact Hn].
  1, 3: intros e d w' He Hr Hw' Hd; unfold ending in He; cbn in He; subst e; by apply auth_cmpl_handled; [lia|..].
  - intros w' _ Hl. lia.
  - intros w' Hw' Hl. apply IH; [lia|done|lia].
Qed.

Definition engine_depth : nat := nesting + 7.
Lemma event_handled k m e d w : fits k (role (cb w), state (cb w), e) = true → (k + 7 ≤ m)%nat →
  event_ready e (cb w) → cb_wf (cb w) → data_wf d → wp ((engine m).1 e d) (λ _ w', handled e w w') w.
Proof.
  revert m e d w. induction k as [|k IH]; intros m e d w Hf Hm Hr Hw Hd; [done|].
  destruct (decide (e = SMP_AUTH_CMPL_EVT)) as [->|He]; [by apply auth_cmpl_handled; [lia|..]|].
  destruct m as [|m]; [lia|]. cbn [engine fst]. eapply (wp_mono _ (λ _ w', cb_wf (cb w'))); [|intros [] w' Hw'; split; [exact Hw'|by intros ->]].
  pose proof (rows_ok (role (cb w), state (cb w), e)) as Hrow. cbn [row_ok fits] in Hrow, Hf.
  destruct (sm_lookup _ _ e) as [[[[a1 a2] st]|]|f] eqn:E; [|by eapply wp_ignored|done].
  apply andb_true_iff in Hf as [Hf1 Hf2]. apply andb_true_iff in Hrow as [[Hn Ho]%andb_true_iff Hshow].
  apply negb_true_iff, bool_decide_eq_false in Hn. rewrite (bool_decide_false (e = _)), orb_false_r in Ho by done.
  pose (allowed := λ p : place, ending p ∨ fits k p = true).
  assert (Hev : ∀ e d w, allowed (role (cb w), state (cb w), e) → event_ready e (cb w) → cb_wf (cb w) → data_wf d →
    wp ((engine m).1 e d) (λ _ w', handled e w w') w).
  { intros e' d' w' [Ha|Ha] ? ? ?; [unfold ending in Ha; cbn in Ha; subst e'; apply auth_cmpl_handled|apply IH]; (done || lia). }
  assert (Hcan : ∀ r st, can allowed r st SMP_AUTH_CMPL_EVT) by (intros; split; intros; by left).
  assert (Hkd : ∀ w, cb_wf (cb w) → wp (engine m).2 (λ _ w', cb_wf (cb w')) w).
  { intros w' Hw'. pose proof (keys_left_bound (cb w')). by apply (distribution_returns (keys_left (cb w'))); [lia|..]. }
  assert (Hraises : ∀ a, forallb (fits k) (raises e a (role (cb w)) st) = true → Forall allowed (raises e a (role (cb w)) st)).
  { intros a Ha. rewrite Forall_forall. intros p Hp. right. rewrite forallb_forall in Ha. by apply Ha, list_elem_of_In. }
  eapply wp_row; [done..|].
  assert (Hs : stays (role (cb w)) st (set_state st (cb w))) by (split; [wf|by left]).
  assert (Hready : event_ready e (set_state st (cb w))) by by destruct e.
  destruct (quiet_action a1) eqn:Hq.
  - eapply wp_mono; [by apply (quiet_action_stays allowed _ _ Hev (role (cb w)) st)|]. intros [] w' Hs'.
    destruct (shows_request e) eqn:Hsh.
    + apply bool_decide_eq_true in Hshow. subst a2. cbn [smp_sm_action]. wp_step. apply Hs'.
    + eapply (action_wf allowed _ _ Hev Hcan Hkd e); [exact Hs'|by destruct e|done|by apply Hraises].
  - eapply wp_mono; [eapply (action_wf allowed _ _ Hev Hcan Hkd e); [exact Hs|done|done|by apply Hraises]|]. intros [] w' Hw'.
    destruct a2; try done; cbn [smp_sm_action].
    + destruct (shows_request e) eqn:Hsh; [by apply bool_decide_eq_true in Hshow|].
      assert (Ha2 : Forall allowed (anywhere [SMP_IO_RSP_EVT; SMP_DISCARD_SEC_REQ_EVT])).
      { pose proof (Hraises _ Hf2) as Ha2. by destruct e. }
      eapply (app_cback_wf allowed); [exact Hev|done|done|intros _|]; intros r' st'; (eapply allowed_anywhere; [exact Ha2|decide_vm]).
Qed.
Lemma event_returns m e d w : (engine_depth ≤ m)%nat → event_ready e (cb w) → cb_wf (cb w) → data_wf d →
  wp ((engine m).1 e d) (λ _ w', cb_wf (cb w')) w.
Proof.
  intros Hm Hr Hw Hd. eapply wp_mono; [apply (event_handled nesting); [apply fits_everywhere|done..]|]. by intros [] w' [? _].
Qed.
End Returns.

(** ** Inputs *)

(** What the types of the parameters say. *)
Definition input_wf (i : input) : Prop :=
  match i with
  | In_data _ data => bytes_ok data
  | In_rand (Some p) => bytes_ok (param_buf p)
  | In_encrypted _ v | In_SecurityGrant _ v | In_KeypressNotification _ v => is_byte v
  | In_OobDataReply _ _ (Some d) => bytes_ok d
  | In_SecureConnectionOobDataReply (Some oob) => oob_wf oob
  | _ => True
  end.

Lemma passkey_loop_returns p : 0 ≤ p < 1048576 → ∃ q, passkey_loop 20 p = Ok q ∧ 0 ≤ q ≤ BTM_MAX_PASSKEY_VAL.
Proof.
  intros Hp. cbn [passkey_loop]. destruct (Z.ltb_spec BTM_MAX_PASSKEY_VAL p) as [H|H]; [|exists p; done || (split; [done|lia])].
  rewrite Z.shiftr_div_pow2 by lia. change (2 ^ 1) with 2.
  assert (0 ≤ p / 2 < 524288) by (split; [apply Z.div_pos; lia|apply Z.div_lt_upper_bound; lia]).
  unfold BTM_MAX_PASSKEY_VAL in *. destruct (Z.ltb_spec 999999 (p / 2)); [lia|]. exists (p / 2). split; [done|lia].
Qed.

Section Inputs.
Context `{HostTypes, Fuel}.
Context (Hfuel : (engine_depth ≤ fuel)%nat).
Implicit Types w : world.

Lemma event_wf e d w : event_ready e (cb w) → cb_wf (cb w) → data_wf d → wp (smp_sm_event e d) (λ _ w', cb_wf (cb w')) w.
Proof. intros. by apply event_returns. Qed.
(** From outside the engine every event may be raised anywhere. *)
Definition anyplace (p : place) : Prop := p = p.
Lemma event_anywhere e d w : anyplace (role (cb w), state (cb w), e) → event_ready e (cb w) → cb_wf (cb w) → data_wf d →
  wp (smp_sm_event e d) (λ _ w', handled e w w') w.
Proof. intros _ Hr Hw Hd. eapply (event_handled nesting); [apply fits_everywhere|exact Hfuel|done..]. Qed.
Lemma ends_anywhere r st : can anyplace r st SMP_AUTH_CMPL_EVT.
Proof. done. Qed.
Lemma distribution_wf w : cb_wf (cb w) → wp smp_key_distribution (λ _ w', cb_wf (cb w')) w.
Proof.
  intros Hw. pose proof (keys_left_bound (cb w)). apply (distribution_returns (keys_left (cb w))); [|done..].
  unfold engine_depth in Hfuel. lia.
Qed.

Lemma copy_to_wf f set offset p w : cb_wf (cb w) → bytes_ok (param_buf p) →
  (∀ n, octets n (f (cb w)) → ∀ b, octets n b → cb_wf (set b (cb w))) → (∃ n, octets n (f (cb w))) →
  wp (copy_to f set offset p) (λ _ w', cb_wf (cb w')) w.
Proof.
  intros Hw Hp Hset [n Hn]. unfold copy_to. wp_steps. apply wp_safe_lift; [apply load_bytes_fault|]. intros d Hd. wp_steps.
  apply wp_safe_lift; [apply store_bytes_fault|]. intros b Hb. wp_steps. apply (Hset n Hn).
  eapply store_bytes_octets; [exact Hn| |exact Hb]. by eapply load_bytes_octets.
Qed.
Lemma copy_rand_wf offset p w : cb_wf (cb w) → bytes_ok (param_buf p) →
  wp (copy_to rand set_rand offset p) (λ _ w', cb_wf (cb w')) w.
Proof.
  intros Hw Hp. apply copy_to_wf; [done..| |exists 16%nat; apply Hw]. intros n [Hn _] b Hb.
  pose proof (wf_rand _ Hw) as [Hl _]. assert (block b) by (unfold block; replace 16%nat with n by congruence; exact Hb). wf.
Qed.
Lemma copy_private_key_wf offset p w : cb_wf (cb w) → bytes_ok (param_buf p) →
  wp (copy_to private_key set_private_key offset p) (λ _ w', cb_wf (cb w')) w.
Proof.
  intros Hw Hp. apply copy_to_wf; [done..| |exists 32%nat; apply Hw]. intros n [Hn _] b Hb.
  pose proof (wf_private_key _ Hw) as [Hl _]. assert (octets 32 b) by (by replace 32%nat with n by congruence). wf.
Qed.
Lemma request_rand_returns w : cb_wf (cb w) → wp (request_rand smp_sm_event) (λ _ w', cb_wf (cb w')) w.
Proof. intros Hw. by apply (request_rand_wf anyplace _ event_anywhere ends_anywhere). Qed.
Lemma take_div_wf p w : cb_wf (cb w) → bytes_ok (param_buf p) → wp (take_div p) (λ _ w', cb_wf (cb w')) w.
Proof.
  intros Hw Hp. unfold take_div. wp_steps. apply wp_safe_lift; [apply load_bytes_fault|]. intros b Hb. wp_steps.
  pose proof (stream2_range b (load_bytes_octets _ _ 2 _ Hp Hb)). wf.
Qed.
Lemma proc_passkey_wf p w : cb_wf (cb w) → bytes_ok (param_buf p) → wp (smp_proc_passkey p) (λ _ w', cb_wf (cb w')) w.
Proof.
  intros Hw Hp. unfold smp_proc_passkey. wp_steps. apply wp_safe_lift; [apply load_bytes_fault|]. intros b _. cbv zeta. wp_steps.
  destruct (passkey_loop_returns (Z.land (stream_to_uint b) 1048575)) as (q & -> & _).
  { change 1048575 with (Z.ones 20). rewrite Z.land_ones by lia. by apply Z.mod_pos_bound. }
  apply wp_lift. pose proof (passkey_block q (zeros 16) block_zeros) as Hk. change (drop 4 (zeros 16)) with (zeros 12) in Hk.
  wp_steps; (apply event_wf; [done|cbn; wf|by destruct (eqb _ _)]).
Qed.
Lemma rand_back_wf p w : cb_wf (cb w) → (∀ q, p = Some q → bytes_ok (param_buf q)) → wp (smp_rand_back p) (λ _ w', cb_wf (cb w')) w.
Proof.
  intros Hw Hp. unfold smp_rand_back, smp_continue_private_key_creation. cbv zeta. destruct p as [p|]; [|by apply event_wf; [done..|decide_vm]].
  specialize (Hp p eq_refl). wp_step; [by apply event_wf; [done..|decide_vm]|]. wp_step. wp_step.
  assert (Hcont : ∀ offset next, wp (copy_to private_key set_private_key offset p;; upd (set_rand_enc_proc_state next);;
    request_rand smp_sm_event) (λ _ w', cb_wf (cb w')) w).
  { intros offset next. wp_step. behind ltac:(by apply copy_private_key_wf). intros ? w' Hw'. do 2 wp_step. apply request_rand_returns. cbn. wf. }
  destruct (rand_enc_proc_state (cb w)) eqn:E; try (by wp_step); try (do 2 wp_step; rewrite E; by apply Hcont).
  - wp_step. behind ltac:(by apply take_div_wf). intros ? w' Hw'. by eapply (generate_ltk_cont_wf anyplace _ event_anywhere ends_anywhere).
  - wp_step. behind ltac:(by apply take_div_wf). intros ? w' Hw'. by apply (csrk_wf anyplace _ _ event_anywhere ends_anywhere distribution_wf).
  - wp_step. apply wp_safe_lift; [apply load_bytes_fault|]. intros d Hd. do 2 wp_step.
    pose proof (load_bytes_octets _ _ 8 _ Hp Hd). eapply (generate_y_wf anyplace _ event_anywhere ends_anywhere); [apply stays_here; cbn; wf|done].
  - by apply proc_passkey_wf.
  - wp_step. behind ltac:(by apply copy_rand_wf). intros ? w' Hw'. unfold smp_generate_rand_cont. wp_steps. apply request_rand_returns. cbn. wf.
  - wp_step. behind ltac:(by apply copy_rand_wf). intros ? w' Hw'.
    eapply (generate_confirm_wf anyplace _ event_anywhere ends_anywhere); [by apply stays_here|done].
  - do 2 wp_step. rewrite E. wp_step. behind ltac:(by apply copy_private_key_wf). intros ? w' Hw'.
    eapply (process_private_key_wf anyplace _ event_anywhere); [by apply stays_here|done].
  - wp_step. behind ltac:(by apply copy_rand_wf). intros ? w' Hw'. unfold smp_finish_nonce_generation. wp_steps. apply request_rand_returns. cbn. wf.
  - wp_step. behind ltac:(by apply copy_rand_wf). intros ? w' Hw'. by apply event_wf.
Qed.

(** A byte that ends the pairing, or a null event, raised by an input. *)
Ltac raised := (apply event_wf; [done|try (cbn; wf)|]); try done; try (by decide_vm).

Lemma data_received_wf bda data w : cb_wf (cb w) → bytes_ok data → wp (smp_data_received bda data) (λ _ w', cb_wf (cb w')) w.
Proof.
  intros Hw Hd. unfold smp_data_received. cbv zeta. wp_step. apply wp_safe_lift; [apply load_fault|]. intros c _. wp_step; [by wp_step|].
  wp_step. wp_step. wp_step. eapply (wp_mono _ (λ _ w', cb_wf (cb w'))).
  { wp_steps; try wf; try done. unfold smp_reject_unexpected_pairing_command, build_cmd, smp_send_msg_to_L2CAP. wp_steps.
    eapply (wp_crypto _ (λ _, True)); [by intros ?|]. intros b m _. wp_steps; destruct b; wp_steps; try done; wf. }
  intros accepted w' Hw'. do 2 wp_step. wp_step; [|by wp_step]. do 8 wp_step.
  destruct (command_event _) as [e|] eqn:Ee; [|by wp_step; cbn; wf].
  apply event_wf; [|cbn; wf|by apply Forall_drop]. unfold command_event in Ee. case_decide; [|done].
  apply list_elem_of_lookup_2 in Ee. cbn in Ee. repeat (apply elem_of_cons in Ee as [->|Ee]; [done|]). by apply elem_of_nil in Ee.
Qed.
Lemma passkey_reply_wf bda res p w : cb_wf (cb w) → wp (SMP_PasskeyReply bda res p) (λ _ w', cb_wf (cb w')) w.
Proof.
  intros Hw. pose proof (passkey_block p _ (wf_tk _ Hw)). unfold SMP_PasskeyReply, smp_convert_string_to_tk. cbv zeta. wp_steps; try done; raised.
Qed.
Lemma oob_data_reply_wf res len d w : cb_wf (cb w) → (∀ b, d = Some b → bytes_ok b) → wp (SMP_OobDataReply res len d) (λ _ w', cb_wf (cb w')) w.
Proof.
  intros Hw Hd. unfold SMP_OobDataReply. cbv zeta. wp_step. wp_step. wp_step; [by wp_step|]. destruct d as [d|]; [|raised].
  wp_step; [raised|]. wp_step. apply wp_safe_lift; [apply load_bytes_fault|]. intros b Hb. wp_step.
  apply wp_safe_lift; [apply store_bytes_fault|]. intros key Hkey. do 2 wp_step.
  assert (block key); [|raised]. eapply (store_bytes_octets 16); [by apply wf_tk| |exact Hkey]. eapply load_bytes_octets; [|exact Hb]. by apply Hd.
Qed.
Lemma create_oob_wf a w : cb_wf (cb w) → wp (SMP_CreateLocalSecureConnectionsOobData a) (λ _ w', cb_wf (cb w')) w.
Proof.
  intros Hw. unfold SMP_CreateLocalSecureConnectionsOobData. destruct a as [a|]; [|by wp_step]. wp_step. wp_step. wp_step; [by wp_step|].
  do 3 wp_step. behind ltac:(apply event_wf; [done| |done]).
  - cbn. pose proof (wf_oob _ Hw) as []. destruct Hw. by constructor.
  - intros ? w' Hw'. by wp_step.
Qed.

Lemma handle_wf i w : cb_wf (cb w) → input_wf i → wp (handle i) (λ _ w', cb_wf (cb w')) w.
Proof.
  intros Hw Hi.
  assert (Hreply : ∀ {A} (m : M world A), wp m (λ _ w', cb_wf (cb w')) w → wp (m;; mret ()) (λ _ w', cb_wf (cb w')) w).
  { intros A m Hm. wp_step. behind ltac:(exact Hm). intros ? w' Hw'. by wp_step. }
  destruct i; cbn [handle]; try apply Hreply.
  - unfold smp_connect_callback. wp_steps; try done; raised.
  - by apply data_received_wf.
  - unfold smp_tx_complete_callback. wp_steps; try done; try wf; raised.
  - unfold smp_rsp_timeout. raised.
  - apply rand_back_wf; [done|]. by intros q ->.
  - unfold smp_link_encrypted. wp_steps; try done; raised.
  - unfold smp_proc_ltk_request. cbv zeta. wp_steps; [|done]. behind ltac:(by apply event_wf). intros ? w' Hw'. by wp_step.
  - unfold SMP_Init. wp_step. apply cb_wf_zero.
  - unfold SMP_Register. wp_steps. wf.
  - unfold SMP_Pair. wp_steps; try done; [|wf]. behind ltac:(raised). intros ? w' Hw'. by wp_step.
  - unfold SMP_PairCancel. wp_steps; [|done]. behind ltac:(raised). intros ? w' Hw'. by wp_step.
  - unfold SMP_SecurityGrant. wp_steps; try done; raised.
  - by apply passkey_reply_wf.
  - unfold SMP_ConfirmReply. wp_steps; try done; raised.
  - apply oob_data_reply_wf; [done|]. by intros b ->.
  - unfold SMP_SecureConnectionOobDataReply. destruct p_oob; wp_steps; try done; raised.
  - unfold SMP_KeypressNotification. wp_steps; try done; raised.
  - by apply create_oob_wf.
Qed.

(** [C18] Pairing returns: from every well typed control block, whatever the state
    of the machine, the answers of the stack and the application, and the input (a
    command of any bytes, a callback, a timeout, a call of the interface), the
    input is handled within [engine_depth] (12) levels of events that actions raise
    and keys that are distributed, and after every sequence of such inputs each
    array of the control block has its size and holds bytes; a sequence stops
    early only at an access that the code gets wrong. *)
Theorem pairing_returns l w : cb_wf (cb w) → Forall input_wf l →
  match handle_all l w with
  | Ok (_, w') => cb_wf (cb w')
  | Fault f => f ≠ OutOfFuel
  end.
Proof.
  intros Hw Hl. change (wp (handle_all l) (λ _ w', cb_wf (cb w')) w). revert w Hw.
  induction Hl as [|i l Hi Hl IH]; intros w Hw; cbn [handle_all foldr]; [by wp_step|].
  wp_step. behind ltac:(by apply handle_wf). intros [] w' Hw'. by apply IH.
Qed.
End Inputs.

(** A slave is asked to pair, its application consents, and two frames of nonsense
    follow. *)
Definition sample_inputs : list input :=
  [In_data master_address [SMP_OPCODE_PAIRING_REQ; 3; 0; 1; 16; 3; 3]; In_SecurityGrant master_address SMP_SUCCESS;
   In_rand None; In_data master_address [SMP_OPCODE_RAND; 255]].
Lemma pairing_returns_witness :
  match handle_all (H := lab HCI_ROLE_SLAVE (capabilities 3 1)) (H0 := engine_depth) sample_inputs (started registered) with
  | Ok (_, w') => cb_wf (cb w')
  | Fault f => f ≠ OutOfFuel
  end.
Proof.
  apply (pairing_returns (H := lab HCI_ROLE_SLAVE (capabilities 3 1)) (H0 := lab_types HCI_ROLE_SLAVE (capabilities 3 1) ltac:(by apply capabilities_wf)) (H1 := engine_depth)
    (le_n engine_depth) sample_inputs (started registered)); [exact registered_wf|].
  unfold sample_inputs. repeat constructor; done.
Defined.
