(* ===== verification/SmpPairing.v ===== *)
(** * How a pairing goes

    Runs of the pairing state machine: whom legacy pairing accepts, how a failure is
    reported, and what stops a pairing. *)

From S2P Require Import Prelude Aes AesProofs Cmac CmacProofs Smp SmpProofs EccSpec SmpTables SmpCb SmpCommands SmpAct SmpEvents SmpWf SmpEngine SmpReturns SmpLab.

(** ** Running the machine *)

(** The commands sent, and the calls of the application. *)
Definition sent (w : world) : list (list Z) := omap (λ e, match e with Sent _ d => Some d | _ => None end) (out w).
Definition told (w : world) : list (Z * cb_data_t) := omap (λ e, match e with AppCallback evt _ d => Some (evt, d) | _ => None end) (out w).

Section Steps.
Context {A : Type}.
Implicit Types (Q : () → world → Prop) (w : world).

Lemma twp_rd (f : smp_cb → A) (Q : A → world → Prop) w : Q (f (cb w)) w → twp (rd f) Q w.
Proof. done. Qed.
Lemma twp_upd f Q w : Q () (World (f (cb w)) (mem w) (calls w) (out w)) → twp (upd f) Q w.
Proof. done. Qed.
Lemma twp_emit e Q w : Q () (World (cb w) (mem w) (calls w) (out w ++ [e])) → twp (emit e) Q w.
Proof. done. Qed.
Lemma twp_ask (f : nat → A) (Q : A → world → Prop) w :
  Q (f (calls w)) (World (cb w) (mem w) (S (calls w)) (out w)) → twp (ask f) Q w.
Proof. done. Qed.
Lemma twp_crypto (m : M smp_state A) a (Q : A → world → Prop) w : gives m a →
  (∀ s, Q a (World (cb w) s (calls w) (out w))) → twp (crypto m) Q w.
Proof. intros Hm H. destruct (Hm (mem w)) as [s E]. unfold twp, crypto. rewrite E. apply H. Qed.
Lemma gives_malloc av : (∀ n, av n = true) → gives (osi_malloc av) true.
Proof. intros Hav s. eexists. unfold osi_malloc. by rewrite Hav. Qed.
End Steps.

Ltac tstep :=
  lazymatch goal with
  | |- twp (mbind _ _) _ _ => apply twp_bind
  | |- twp (mret _) _ _ => apply twp_ret
  | |- twp (gets _) _ _ => apply twp_gets
  | |- twp (rd _) _ _ => apply twp_rd
  | |- twp (upd _) _ _ => apply twp_upd
  | |- twp (emit _) _ _ => apply twp_emit
  | |- twp (ask _) _ _ => apply twp_ask
  end; cbv beta; cbn [cb mem calls out].
Ltac tsteps := repeat tstep.

Section Engine.
Context `{Host}.

Lemma twp_row n e d Q w a1 a2 st :
  sm_lookup (role (cb w)) (state (cb w)) e = Ok (Some (a1, a2, st)) → a1 ≠ SMP_SM_NO_ACTION →
  twp (smp_sm_action (engine n).1 (engine n).2 a1 d) (λ _ w', twp (smp_sm_action (engine n).1 (engine n).2 a2 d) Q w')
    (World (set_state st (cb w)) (mem w) (calls w) (out w)) →
  twp ((engine (S n)).1 e d) Q w.
Proof.
  intros E Ha Hr. cbn [engine fst]. unfold sm_event. tsteps. eapply twp_lift; [exact E|]. cbv beta iota. tsteps. unfold run_actions, eqb.
  rewrite bool_decide_false by done. apply twp_bind. eapply twp_mono; [exact Hr|]. intros [] w' Hw'. case_bool_decide; [by subst|done].
Qed.
Lemma twp_ignored n e d Q w : sm_lookup (role (cb w)) (state (cb w)) e = Ok None → Q () w → twp ((engine (S n)).1 e d) Q w.
Proof. intros E HQ. cbn [engine fst]. unfold sm_event. tsteps. by eapply twp_lift. Qed.
End Engine.

(** ** Legacy pairing *)

(** The confirm value that belongs to a random number of the peer. *)
Definition confirm_value `{Host} (s : smp_cb) (r : list Z) : list Z :=
  let p := keys_cb s in
  CmacProofs.e (tk s) (smp_xor_128 (smp_gen_p2_4_confirm p) (CmacProofs.e (tk s) (smp_xor_128 (smp_gen_p1_4_confirm p) r))).
(** The short term key, of the random numbers of the master and the slave. *)
Definition short_term_key (s : smp_cb) : list Z :=
  let plain := match role s with
    | HCI_ROLE_MASTER => take 8 (rand s) ++ take 8 (rrand s)
    | HCI_ROLE_SLAVE => take 8 (rrand s) ++ take 8 (rand s)
    end in
  CmacProofs.e (tk s) plain.

Section Legacy.
Context `{HostTypes, Fuel}.

Lemma keys_cb_tk s : Smp.tk (keys_cb s) = tk s ∧ Smp.role (keys_cb s) = role s ∧ Smp.rand (keys_cb s) = rand s ∧ Smp.rrand (keys_cb s) = rrand s.
Proof. unfold keys_cb. by destruct (BTM_ReadConnectionAddr _), (default _ _). Qed.
Lemma gives_confirm_value s r : (∀ n, available n = true) → cb_wf s → block r →
  gives (Smp.smp_calculate_comfirm available cipher_ctx (keys_cb s) r) (Some (confirm_value s r)).
Proof.
  intros Hav Hw Hr. pose proof (gives_confirm available cipher_ctx Hav (with_round 0 (keys_cb s)) r (cb_wf_view _ Hw) Hr) as Hg.
  unfold confirm_value. destruct (keys_cb_tk s) as (<- & _). exact Hg.
Qed.
Lemma confirm_value_block s r : cb_wf s → block r → block (confirm_value s r).
Proof.
  intros Hw Hr. destruct (confirm_parts (with_round 0 (keys_cb s)) (cb_wf_view _ Hw)) as [Hp1 Hp2]. pose proof (wf_tk _ Hw) as Ht.
  unfold confirm_value. cbv zeta. apply e_block; [exact Ht|]. apply xor_block_block; [exact Hp2|]. apply e_block; [exact Ht|].
  by apply xor_block_block.
Qed.
Lemma confirm_value_set s s' r : tk s' = tk s → keys_cb s' = keys_cb s → confirm_value s' r = confirm_value s r.
Proof. unfold confirm_value. by intros -> ->. Qed.
Lemma gives_stk av ctx p : (∀ n, av n = true) → block (Smp.tk p) → block (Smp.rand p) → block (Smp.rrand p) →
  gives (smp_calculate_legacy_short_term_key av ctx p) (Some (CmacProofs.e (Smp.tk p)
    (match Smp.role p with
     | HCI_ROLE_MASTER => take 8 (Smp.rand p) ++ take 8 (Smp.rrand p)
     | HCI_ROLE_SLAVE => take 8 (Smp.rrand p) ++ take 8 (Smp.rand p)
     end))).
Proof.
  intros Hav Ht [L1 B1] [L2 B2]. unfold smp_calculate_legacy_short_term_key. cbv zeta.
  eapply gives_bind; [apply gives_encrypt; [exact Hav|exact Ht|]|apply gives_ret].
  destruct (Smp.role p); apply (octets_app 8 8); (split; [rewrite length_take; lia|by apply Forall_take]).
Qed.
Lemma gives_short_term_key s : (∀ n, available n = true) → cb_wf s →
  gives (smp_calculate_legacy_short_term_key available cipher_ctx (keys_cb s)) (Some (short_term_key s)).
Proof.
  intros Hav Hw. destruct (keys_cb_tk s) as (Et & Er & En & Ern). pose proof (gives_stk available cipher_ctx (keys_cb s) Hav) as Hg.
  rewrite Et, Er, En, Ern in Hg. unfold short_term_key. cbv zeta. apply Hg; apply Hw.
Qed.

(** The stack takes every command, and has buffers for them. *)
Context (Hav : ∀ n, available n = true) (Hsend : ∀ n, L2CA_SendFixedChnlData n = true).
Implicit Types w : world.

Lemma twp_send ev c build data Q w : index smp_cmd_build_act c = Ok (Some build) → build c (cb w) = build_cmd data → c ≤ SMP_OPCODE_MAX + 1 →
  (∀ m, Q () (World (set_total_tx_unacked (u16 (total_tx_unacked (cb w) + 1)) (cb w)) m (S (calls w))
    (((out w ++ [Sent (pairing_bda (cb w)) data]) ++ [StopTimer]) ++ [StartTimer]))) → twp (send ev c) Q w.
Proof.
  intros Hi Hb Hc HQ. unfold send, smp_send_cmd, send_cmd. tsteps. rewrite (proj2 (Z.leb_le _ _) Hc). cbn [negb]. tsteps.
  eapply twp_lift; [exact Hi|]. cbv beta iota. tsteps. rewrite Hb. unfold build_cmd. tsteps.
  eapply twp_crypto; [by apply gives_malloc|]. intros m. cbv iota. tsteps. unfold smp_send_msg_to_L2CAP. tsteps. rewrite Hsend.
  cbn [negb]. tsteps. unfold when. tsteps. cbn [negb]. tsteps. apply HQ.
Qed.
(** A command of the peer of the pairing comes in. *)
Lemma frame_received c e p w Q : SMP_OPCODE_MIN ≤ c ≤ SMP_OPCODE_MAX → c ≠ SMP_OPCODE_PAIRING_REQ → c ≠ SMP_OPCODE_SEC_REQ →
  (c = SMP_OPCODE_CONFIRM → has (peer_auth_req (cb w)) SMP_SC_SUPPORT_BIT && has (loc_auth_req (cb w)) SMP_SC_SUPPORT_BIT = false) →
  command_event c = Some e → zlen p < 255 →
  twp (smp_sm_event e (D_bytes p)) Q
    (World (set_rcvd_cmd_len (zlen p + 1) (set_rcvd_cmd_code c (cb w))) (mem w) (calls w) ((out w ++ [StopTimer]) ++ [StartTimer])) →
  twp (smp_data_received (pairing_bda (cb w)) (c :: p)) Q w.
Proof.
  intros Hc Hreq Hsecreq Hsc He Hp HQ. unfold smp_data_received. cbv zeta. tstep. eapply twp_lift; [done|]. cbv beta.
  rewrite (proj2 (Z.ltb_ge SMP_OPCODE_MAX c)), (proj2 (Z.ltb_ge c SMP_OPCODE_MIN)) by lia. cbn [orb]. cbv iota. tsteps.
  rewrite (proj2 (Z.eqb_neq c _) Hreq), (proj2 (Z.eqb_neq c _) Hsecreq). cbn [orb]. cbv iota. tsteps.
  unfold bda_eqb. rewrite bool_decide_true by done. unfold when. cbn [andb]. cbv iota. tsteps.
  assert (Eb : (c =? SMP_OPCODE_CONFIRM) && has (peer_auth_req (cb w)) SMP_SC_SUPPORT_BIT && has (loc_auth_req (cb w)) SMP_SC_SUPPORT_BIT = false).
  { destruct (Z.eqb_spec c SMP_OPCODE_CONFIRM) as [E|]; [|done]. cbn [andb]. by apply Hsc. }
  rewrite Eb. cbv iota. rewrite He. assert (El : u8 (zlen (c :: p)) = zlen p + 1) by (cbn [length]; unfold u8; rewrite Z.mod_small by lia; lia).
  rewrite El. exact HQ.
Qed.
Lemma random_received w p Q : octets 16 p →
  twp (smp_sm_event SMP_RAND_EVT (D_bytes p)) Q
    (World (set_rcvd_cmd_len 17 (set_rcvd_cmd_code SMP_OPCODE_RAND (cb w))) (mem w) (calls w) ((out w ++ [StopTimer]) ++ [StartTimer])) →
  twp (smp_data_received (pairing_bda (cb w)) (SMP_OPCODE_RAND :: p)) Q w.
Proof. intros [Hl _] HQ. eapply frame_received; [done..|by rewrite Hl|]. by rewrite Hl. Qed.
Lemma confirm_stored_wf m c st l k s : cb_wf s → block c →
  cb_wf (set_flag m (set_rconfirm c (set_state st (set_rcvd_cmd_len l (set_rcvd_cmd_code k s))))).
Proof. intros Hw Hc. unfold set_flag. wf. Qed.
(** A confirm value that is awaited is stored. *)
Lemma confirm_received w c st Q : block c → has (peer_auth_req (cb w)) SMP_SC_SUPPORT_BIT && has (loc_auth_req (cb w)) SMP_SC_SUPPORT_BIT = false →
  sm_lookup (role (cb w)) (state (cb w)) SMP_CONFIRM_EVT = Ok (Some (SMP_PROC_CONFIRM, SMP_SM_NO_ACTION, st)) → (1 ≤ fuel)%nat →
  Q () (World (set_flag SMP_PAIR_FLAGS_CMD_CONFIRM (set_rconfirm c (set_state st (set_rcvd_cmd_len 17 (set_rcvd_cmd_code SMP_OPCODE_CONFIRM (cb w))))))
    (mem w) (calls w) ((out w ++ [StopTimer]) ++ [StartTimer])) →
  twp (smp_data_received (pairing_bda (cb w)) (SMP_OPCODE_CONFIRM :: c)) Q w.
Proof.
  intros [Hl Hb] Hsc E Hf HQ. eapply frame_received; [done..|by rewrite Hl|]. rewrite Hl. unfold smp_sm_event. destruct fuel as [|n]; [lia|].
  eapply twp_row; [exact E|done|]. cbn [smp_sm_action]. unfold smp_proc_confirm, checked, take_array_if. tsteps. eapply (twp_lift false); [done|].
  cbv iota. tsteps. eapply twp_lift; [done|]. cbv beta. tsteps. eapply twp_lift.
  { apply (load_bytes_at c [] c []); [by rewrite app_nil_r|done|]. by rewrite Hl. }
  cbv beta. tsteps. exact HQ.
Qed.

(** The number is compared, up to the event of the comparison. *)
Lemma random_compared n w p Q : cb_wf (cb w) → block p → rcvd_cmd_code (cb w) = SMP_OPCODE_RAND → rcvd_cmd_len (cb w) = 17 →
  sm_lookup (role (cb w)) (state (cb w)) SMP_RAND_EVT = Ok (Some (SMP_PROC_RAND, SMP_GENERATE_COMPARE, SMP_STATE_RAND)) →
  sm_lookup (role (cb w)) SMP_STATE_RAND SMP_KEY_READY_EVT = Ok (Some (SMP_PROC_COMPARE, SMP_SM_NO_ACTION, SMP_STATE_RAND)) →
  (∀ m, let s := set_rand_enc_proc_state SMP_GEN_COMPARE (set_rrand p (set_state SMP_STATE_RAND (cb w))) in
    twp (smp_proc_compare (engine n).1 (D_key SMP_KEY_TYPE_CMP (confirm_value (cb w) p))) Q (World (set_state SMP_STATE_RAND s) m (calls w) (out w))) →
  twp ((engine (S (S n))).1 SMP_RAND_EVT (D_bytes p)) Q w.
Proof.
  intros Hw Hp Hc Hl E1 E2 HQ. eapply twp_row; [exact E1|done|]. cbn [smp_sm_action]. unfold smp_proc_rand, checked, take_array. tsteps.
  eapply (twp_lift false). { unfold smp_command_has_invalid_parameters. cbn [rcvd_cmd_code set_state]. rewrite Hc.
    unfold cmd_len_is_valid, smp_command_has_valid_fixed_length. cbn [rcvd_cmd_code rcvd_cmd_len set_state]. by rewrite Hc, Hl. }
  cbv iota. tsteps. eapply twp_lift; [done|]. cbv beta. tsteps. eapply twp_lift.
  { apply (load_bytes_at p [] p []); [by rewrite app_nil_r|done|]. destruct Hp as [-> _]. done. }
  cbv beta. tsteps. unfold smp_generate_compare, smp_calculate_comfirm. tsteps.
  set (s := set_rand_enc_proc_state SMP_GEN_COMPARE (set_rrand p (set_state SMP_STATE_RAND (cb w)))).
  assert (Hs : cb_wf s) by (unfold s; pose proof Hp; wf).
  eapply twp_crypto; [apply (gives_confirm_value s p); [done..|exact Hp]|]. intros m. cbv iota. tsteps.
  cbn [rand_enc_proc_state s set_rand_enc_proc_state]. unfold smp_process_compare.
  assert (Ec : confirm_value s p = confirm_value (cb w) p).
  { unfold confirm_value, keys_cb, s. cbn [pairing_bda tk set_rand_enc_proc_state set_rrand set_state]. by destruct (BTM_ReadConnectionAddr _), (default _ _). }
  rewrite Ec. eapply twp_row; [exact E2|done|]. cbn [smp_sm_action].
  eapply twp_mono; [apply HQ|]. intros [] w' HQ'. tsteps. done.
Qed.

(** ** The end of a pairing *)

(** A pairing that ends with a reason of the specification. *)
Definition failed (reason : Z) (s : smp_cb) : smp_cb :=
  set_wait_for_authorization_complete true (set_total_tx_unacked (total_tx_unacked s + 1)
    (set_failure reason (set_status reason (set_state SMP_STATE_IDLE s)))).
Definition failure_sent (reason : Z) (w : world) : list effect :=
  out w ++ [Sent (pairing_bda (cb w)) [SMP_OPCODE_PAIRING_FAILED; reason]; StopTimer; StartTimer].
Lemma pairing_failed n w reason Q : 0 < reason ≤ SMP_MAX_FAIL_RSN_PER_SPEC → 0 ≤ total_tx_unacked (cb w) < 65535 →
  sm_lookup (role (cb w)) (state (cb w)) SMP_AUTH_CMPL_EVT = Ok (Some (SMP_SEND_PAIR_FAIL, SMP_PAIRING_CMPL, SMP_STATE_IDLE)) →
  (∀ m k, Q () (World (failed reason (cb w)) m k (failure_sent reason w))) →
  twp ((engine (S n)).1 SMP_AUTH_CMPL_EVT (D_u8 reason)) Q w.
Proof.
  intros Hr Ht E HQ. unfold SMP_MAX_FAIL_RSN_PER_SPEC in *. eapply twp_row; [exact E|done|]. cbn [smp_sm_action]. unfold smp_send_pair_fail. tsteps.
  eapply twp_lift; [done|]. cbv beta. tsteps. unfold SMP_MAX_FAIL_RSN_PER_SPEC, SMP_SUCCESS. rewrite (proj2 (Z.leb_le reason 14)), (proj2 (Z.eqb_neq reason 0)) by lia.
  cbn [negb andb]. unfold when at 1. cbv iota. tsteps.
  eapply (twp_send _ _ _ [SMP_OPCODE_PAIRING_FAILED; reason]); [done| |done|].
  { unfold smp_build_pairing_fail, uint8, u8. cbn [failure set_failure]. by rewrite (Z.mod_small reason) by lia. }
  intros m. tsteps. unfold smp_pairing_cmpl. tsteps. cbn [total_tx_unacked set_wait_for_authorization_complete set_total_tx_unacked set_failure set_status set_state].
  assert (Eu : u16 (total_tx_unacked (cb w) + 1) = total_tx_unacked (cb w) + 1) by (unfold u16; rewrite Z.mod_small by lia; done).
  rewrite Eu, (proj2 (Z.eqb_neq (total_tx_unacked (cb w) + 1) 0)) by lia. unfold when. tsteps.
  specialize (HQ m (S (calls w))). unfold failure_sent in HQ. rewrite <- !app_assoc. exact HQ.
Qed.

Context (Hfuel : (engine_depth ≤ fuel)%nat).

Lemma fuel_levels : ∃ n, fuel = S (S (S (S (S n)))).
Proof. unfold engine_depth, nesting in Hfuel. exists (fuel - 5)%nat. lia. Qed.

(** The states in which a side takes the random number of the other. *)
Definition awaits_random (s : smp_cb) : Prop :=
  match role s with HCI_ROLE_MASTER => state s = SMP_STATE_RAND | HCI_ROLE_SLAVE => state s = SMP_STATE_CONFIRM end.

Lemma sent_app w s m k l : sent (World s m k (out w ++ l)) = sent w ++ omap (λ e, match e with Sent _ d => Some d | _ => None end) l.
Proof. unfold sent. cbn [out]. apply omap_app. Qed.
Lemma told_app w s m k l : told (World s m k (out w ++ l)) = told w ++ omap (λ e, match e with AppCallback evt _ d => Some (evt, d) | _ => None end) l.
Proof. unfold told. cbn [out]. apply omap_app. Qed.

Lemma confirm_value_received s c l r : confirm_value (set_rcvd_cmd_len l (set_rcvd_cmd_code c s)) r = confirm_value s r.
Proof.
  unfold confirm_value, keys_cb. cbn [pairing_bda tk set_rcvd_cmd_len set_rcvd_cmd_code].
  by destruct (BTM_ReadConnectionAddr _), (default _ _).
Qed.

(** The slave answers. *)
Lemma slave_answers n w s m k o : role s = HCI_ROLE_SLAVE → state s = SMP_STATE_RAND →
  twp ((engine (S n)).1 SMP_RAND_EVT D_null) (λ _ w',
    state (cb w') = SMP_STATE_ENCRYPTION_PENDING ∧ rrand (cb w') = rrand s ∧ sec_level (cb w') = sec_level s ∧
    out w' = o ++ [Sent (pairing_bda s) (SMP_OPCODE_RAND :: rand s); StopTimer; StartTimer]) (World s m k o).
Proof.
  intros Er Es. eapply twp_row; [cbn [cb]; by rewrite Er, Es|done|]. cbn [smp_sm_action]. unfold smp_send_rand.
  eapply (twp_send _ _ _ (SMP_OPCODE_RAND :: rand s)); [done..|]. intros m'. tsteps. by rewrite <- !app_assoc.
Qed.
Lemma short_term_key_state st s : short_term_key (set_state st s) = short_term_key s.
Proof. unfold short_term_key. by cbn [role rand rrand tk set_state]. Qed.
(** The master starts the encryption. *)
Lemma master_starts n s m k o : cb_wf s → role s = HCI_ROLE_MASTER → state s = SMP_STATE_RAND → (∀ n, btm_ble_start_encrypt n = BTM_CMD_STARTED) →
  le_secure_connections_mode_is_used s = false →
  twp ((engine (S (S n))).1 SMP_ENC_REQ_EVT D_null) (λ _ w',
    state (cb w') = SMP_STATE_ENCRYPTION_PENDING ∧ rrand (cb w') = rrand s ∧ sec_level (cb w') = sec_level s ∧ loc_enc_size (cb w') = loc_enc_size s ∧
    short_term_key (cb w') = short_term_key s ∧
    out w' = o ++ [StartedEncryption (pairing_bda s) (Some (Smp.smp_mask_enc_key (loc_enc_size s) (short_term_key s)))]) (World s m k o).
Proof.
  intros Hw Er Es Hstart Hle. eapply twp_row; [cbn [cb]; by rewrite Er, Es|done|]. cbn [smp_sm_action]. unfold smp_generate_stk. tsteps.
  cbn [le_secure_connections_mode_is_used set_state]. rewrite Hle. tsteps.
  eapply twp_crypto; [apply (gives_short_term_key (set_state SMP_STATE_ENCRYPTION_PENDING s)); [done|wf]|]. intros m'. rewrite short_term_key_state. cbv iota. unfold smp_process_stk. tsteps.
  cbn [loc_enc_size set_state]. generalize (Smp.smp_mask_enc_key (loc_enc_size s) (short_term_key s)). intros key.
  eapply twp_row; [cbn [cb role state set_state]; by rewrite Er|done|]. cbn [smp_sm_action]. unfold smp_start_enc. tsteps.
  eapply twp_lift; [done|]. cbv beta iota. tsteps. rewrite Hstart. tsteps. cbn [cb]. rewrite !short_term_key_state. by split_and!.
Qed.

(** The outcomes, for a control block [s] whose number is stored, and the effects
    [o] before. *)
Definition accepts (s : smp_cb) (o : list effect) (w' : world) : Prop :=
  state (cb w') = SMP_STATE_ENCRYPTION_PENDING ∧ rrand (cb w') = rrand s ∧ sec_level (cb w') = sec_level s ∧
  match role s with
  | HCI_ROLE_SLAVE => out w' = o ++ [Sent (pairing_bda s) (SMP_OPCODE_RAND :: rand s); StopTimer; StartTimer]
  | HCI_ROLE_MASTER => out w' = o ++ [StartedEncryption (pairing_bda s)
      (Some (Smp.smp_mask_enc_key (Z.min (peer_enc_size s) (loc_enc_size s)) (short_term_key s)))]
  end.
Definition rejects (s : smp_cb) (o : list effect) (w' : world) : Prop :=
  state (cb w') = SMP_STATE_IDLE ∧ wait_for_authorization_complete (cb w') = true ∧
  out w' = o ++ [Sent (pairing_bda s) [SMP_OPCODE_PAIRING_FAILED; SMP_CONFIRM_VALUE_ERR]; StopTimer; StartTimer].
Lemma settle_is s : settle_key_size s = set_loc_enc_size (Z.min (peer_enc_size s) (loc_enc_size s)) s.
Proof.
  unfold settle_key_size. destruct (Z.ltb_spec (peer_enc_size s) (loc_enc_size s)); [by rewrite Z.min_l by lia|].
  rewrite Z.min_r by lia. by destruct s.
Qed.
Lemma short_term_key_settled z s : short_term_key (use_peer_keys (set_loc_enc_size z s)) = short_term_key s.
Proof. unfold short_term_key, use_peer_keys. by cbn [role rand rrand tk set_loc_enc_size set_local_i_key set_local_r_key]. Qed.
Lemma compare_decides n s m k o c : cb_wf s → state s = SMP_STATE_RAND → 0 ≤ total_tx_unacked s < 65535 →
  le_secure_connections_mode_is_used s = false → (∀ n, btm_ble_start_encrypt n = BTM_CMD_STARTED) →
  twp (smp_proc_compare (engine (S (S n))).1 (D_key SMP_KEY_TYPE_CMP c)) (λ _ w',
    if bool_decide (rconfirm s = c) then accepts s o w' else rejects s o w') (World s m k o).
Proof.
  intros Hw Es Ht Hle Hstart. unfold smp_proc_compare. tstep. eapply twp_lift; [done|]. cbv beta iota. tsteps. case_bool_decide as Hc.
  - tsteps. rewrite settle_is. set (z := Z.min _ _). unfold is_slave, eqb, accepts. fold z. destruct (role s) eqn:Er; cbn [bool_decide].
    + rewrite bool_decide_false by done. tsteps. eapply twp_mono; [apply master_starts; [unfold use_peer_keys; wf|done..]|].
      intros [] w' (E1 & E2 & E3 & _ & _ & Eo). rewrite short_term_key_settled in Eo. by split_and!.
    + rewrite bool_decide_true by done. eapply twp_mono; [by apply slave_answers|]. intros [] w' (E1 & E2 & E3 & Eo). by split_and!.
  - tsteps. unfold auth_cmpl. eapply pairing_failed; [done|done| |].
    + cbn [cb role state set_failure]. rewrite Es. by destruct (role s).
    + intros m' k'. unfold rejects, failure_sent. by cbn [cb out].
Qed.

Lemma random_outcome w p : cb_wf (cb w) → block p → awaits_random (cb w) → 0 ≤ total_tx_unacked (cb w) < 65535 →
  le_secure_connections_mode_is_used (cb w) = false → (∀ n, btm_ble_start_encrypt n = BTM_CMD_STARTED) →
  twp (smp_data_received (pairing_bda (cb w)) (SMP_OPCODE_RAND :: p)) (λ _ w',
    if bool_decide (rconfirm (cb w) = confirm_value (cb w) p)
    then accepts (set_rrand p (cb w)) (out w ++ [StopTimer; StartTimer]) w'
    else rejects (cb w) (out w ++ [StopTimer; StartTimer]) w') w.
Proof.
  intros Hw Hp Ha Ht Hle Hstart. apply random_received; [exact Hp|]. unfold smp_sm_event. destruct fuel_levels as [n ->].
  set (w1 := World _ _ _ _). assert (Hw1 : cb_wf (cb w1)) by (unfold w1; cbn [cb]; wf).
  assert (Hrole : role (cb w) = HCI_ROLE_MASTER ∧ state (cb w) = SMP_STATE_RAND ∨ role (cb w) = HCI_ROLE_SLAVE ∧ state (cb w) = SMP_STATE_CONFIRM).
  { unfold awaits_random in Ha. destruct (role (cb w)); auto. }
  assert (E1 : sm_lookup (role (cb w1)) (state (cb w1)) SMP_RAND_EVT = Ok (Some (SMP_PROC_RAND, SMP_GENERATE_COMPARE, SMP_STATE_RAND))).
  { unfold w1. cbn [cb role state set_rcvd_cmd_len set_rcvd_cmd_code]. by destruct Hrole as [[-> ->]|[-> ->]]. }
  assert (E2 : sm_lookup (role (cb w1)) SMP_STATE_RAND SMP_KEY_READY_EVT = Ok (Some (SMP_PROC_COMPARE, SMP_SM_NO_ACTION, SMP_STATE_RAND))).
  { unfold w1. cbn [cb role set_rcvd_cmd_len set_rcvd_cmd_code]. by destruct Hrole as [[-> _]|[-> _]]. }
  apply random_compared; [done..|]. intros m. cbv zeta. unfold w1 at 1. cbn [cb]. rewrite confirm_value_received.
  set (s := set_state SMP_STATE_RAND _). assert (Hs : cb_wf s) by (unfold s, w1; cbn [cb] in *; pose proof Hp; wf).
  assert (Eo : out w1 = out w ++ [StopTimer; StartTimer]) by (unfold w1; cbn [out]; by rewrite <- app_assoc).
  assert (Ek : short_term_key s = short_term_key (set_rrand p (cb w))).
  { unfold short_term_key, s, w1. by cbn [role rand rrand tk cb set_rrand set_state set_rand_enc_proc_state set_rcvd_cmd_len set_rcvd_cmd_code]. }
  eapply twp_mono; [apply (compare_decides (S n) s); [exact Hs|done|exact Ht|exact Hle|exact Hstart]|]. intros [] w'.
  change (rconfirm s) with (rconfirm (cb w)). rewrite Eo. destruct (bool_decide _).
  - unfold accepts. rewrite Ek. exact (λ H, H).
  - exact (λ H, H).
Qed.

(** [C23] Legacy pairing accepts a device exactly when it knew the temporary key: a
    well typed control block that waits for the random number of the peer (the
    slave in CONFIRM, the master in RAND) and receives one compares its confirm
    value, calculated with its own temporary key, with the one received before.
    Where they agree the state is ENCRYPTION_PENDING, the slave has answered with
    its own random number, and the master has started the encryption with the short
    term key of both random numbers; where they differ the peer gets Pairing Failed
    with the reason Confirm Value Failed, and the machine is idle. *)
Theorem random_decides w p : cb_wf (cb w) → block p → awaits_random (cb w) → 0 ≤ total_tx_unacked (cb w) < 65535 →
  le_secure_connections_mode_is_used (cb w) = false → (∀ n, btm_ble_start_encrypt n = BTM_CMD_STARTED) →
  twp (smp_data_received (pairing_bda (cb w)) (SMP_OPCODE_RAND :: p)) (λ _ w',
    if bool_decide (rconfirm (cb w) = confirm_value (cb w) p)
    then accepts (set_rrand p (cb w)) (out w ++ [StopTimer; StartTimer]) w'
    else rejects (cb w) (out w ++ [StopTimer; StartTimer]) w') w.
Proof. apply random_outcome. Qed.

(** A slave that has stored the confirm value that belongs to [r]. *)
Lemma matching_slave_accepts w r : rconfirm (cb w) = confirm_value (cb w) r → cb_wf (cb w) → block r →
  role (cb w) = HCI_ROLE_SLAVE → state (cb w) = SMP_STATE_CONFIRM →
  le_secure_connections_mode_is_used (cb w) = false → 0 ≤ total_tx_unacked (cb w) < 65535 → (∀ n, btm_ble_start_encrypt n = BTM_CMD_STARTED) →
  twp (smp_data_received (pairing_bda (cb w)) (SMP_OPCODE_RAND :: r)) (λ _ w',
    state (cb w') = SMP_STATE_ENCRYPTION_PENDING ∧ sec_level (cb w') = sec_level (cb w) ∧
    told w' = told w ∧ sent w' = sent w ++ [SMP_OPCODE_RAND :: rand (cb w)]) w.
Proof.
  intros Ec Hw Hr Er Es Hle Ht Hstart. eapply twp_mono; [apply (random_outcome w r Hw Hr); [|done..]|].
  { unfold awaits_random. by rewrite Er. }
  intros [] w'. rewrite (bool_decide_true _ Ec). unfold accepts. change (role (set_rrand r (cb w))) with (role (cb w)). rewrite Er.
  intros (E1 & _ & E3 & Eo). split_and!; [exact E1|exact E3|..].
  - unfold told. rewrite Eo. by rewrite !omap_app, !app_nil_r.
  - unfold sent. rewrite Eo. by rewrite !omap_app, !app_nil_r.
Qed.
Lemma confirm_value_stored m c st l k s r :
  confirm_value (set_flag m (set_rconfirm c (set_state st (set_rcvd_cmd_len l (set_rcvd_cmd_code k s))))) r = confirm_value s r.
Proof.
  unfold confirm_value, keys_cb. cbn [pairing_bda tk set_flag set_flags set_rconfirm set_state set_rcvd_cmd_len set_rcvd_cmd_code].
  by destruct (BTM_ReadConnectionAddr _), (default _ _).
Qed.

(** [C25] Passkey entry can be passed over: a slave that has asked its application
    for the passkey, and has no temporary key yet, takes a confirm value and a
    random number that belong to the temporary key 0.  Without an answer of the
    application it is then in ENCRYPTION_PENDING, its security level is still that
    of an authenticated pairing, and it has sent its random number. *)
Theorem passkey_bypassed w r : cb_wf (cb w) → block r → role (cb w) = HCI_ROLE_SLAVE → state (cb w) = SMP_STATE_WAIT_APP_RSP →
  cb_evt (cb w) = SMP_PASSKEY_REQ_EVT → sec_level (cb w) = SMP_SEC_AUTHENTICATED → tk (cb w) = zeros 16 →
  le_secure_connections_mode_is_used (cb w) = false → 0 ≤ total_tx_unacked (cb w) < 65535 →
  has (peer_auth_req (cb w)) SMP_SC_SUPPORT_BIT && has (loc_auth_req (cb w)) SMP_SC_SUPPORT_BIT = false →
  (∀ n, btm_ble_start_encrypt n = BTM_CMD_STARTED) →
  let peer := pairing_bda (cb w) in
  twp (handle_all [In_data peer (SMP_OPCODE_CONFIRM :: confirm_value (cb w) r); In_data peer (SMP_OPCODE_RAND :: r)]) (λ _ w',
    state (cb w') = SMP_STATE_ENCRYPTION_PENDING ∧ sec_level (cb w') = SMP_SEC_AUTHENTICATED ∧
    told w' = told w ∧ sent w' = sent w ++ [SMP_OPCODE_RAND :: rand (cb w)]) w.
Proof.
  intros Hw Hr Er Es _ Hlevel _ Hle Ht Hsc Hstart peer. unfold peer. clear peer. cbn [handle_all foldr handle]. tstep.
  pose proof (confirm_value_block _ r Hw Hr) as Hcv. unfold engine_depth in Hfuel.
  eapply (confirm_received _ _ SMP_STATE_CONFIRM); [exact Hcv|exact Hsc|by rewrite Er, Es|lia|]. tstep.
  match goal with |- twp _ _ ?w1 => eapply twp_mono; [apply (matching_slave_accepts w1 r)|] end.
  - cbn [cb]. rewrite confirm_value_stored. reflexivity.
  - by apply confirm_stored_wf.
  - exact Hr.
  - exact Er.
  - reflexivity.
  - exact Hle.
  - exact Ht.
  - exact Hstart.
  - intros [] w' (E1 & E2 & E3 & E4). tsteps. split_and!; [exact E1|rewrite E2; exact Hlevel|rewrite E3|rewrite E4].
    + unfold told. cbn [out]. by rewrite !omap_app, !app_nil_r.
    + unfold sent. cbn [out]. by rewrite !omap_app, !app_nil_r.
Qed.
End Legacy.

(** ** Concrete pairings *)

(** A slave with a keyboard, asked to pair by a master with a display, whose
    application has consented and is asked for the passkey. *)
Definition keyboard_slave : Host := lab HCI_ROLE_SLAVE (capabilities 2 (SMP_AUTH_BOND + SMP_AUTH_YN_BIT)).
Definition keyboard_slave_types : HostTypes (H := keyboard_slave) :=
  lab_types HCI_ROLE_SLAVE (capabilities 2 (SMP_AUTH_BOND + SMP_AUTH_YN_BIT)) ltac:(by apply capabilities_wf).
Definition asked : world :=
  match handle_all (H := keyboard_slave) (H0 := engine_depth)
    [In_data master_address [SMP_OPCODE_PAIRING_REQ; 0; 0; 5; 16; 3; 3]; In_SecurityGrant master_address SMP_SUCCESS] (started registered) with
  | Ok (_, w) => w
  | Fault _ => started registered
  end.
Lemma passkey_bypassed_witness :
  block (seqZ 1 16) ∧ state (cb asked) = SMP_STATE_WAIT_APP_RSP ∧
  twp (handle_all (H := keyboard_slave) (H0 := engine_depth)
    [In_data master_address (SMP_OPCODE_CONFIRM :: confirm_value (H := keyboard_slave) (cb asked) (seqZ 1 16));
     In_data master_address (SMP_OPCODE_RAND :: seqZ 1 16)]) (λ _ w',
    state (cb w') = SMP_STATE_ENCRYPTION_PENDING ∧ sec_level (cb w') = SMP_SEC_AUTHENTICATED ∧
    told w' = told asked ∧ sent w' = sent asked ++ [SMP_OPCODE_RAND :: rand (cb asked)]) asked.
Proof.
  assert (Hr : block (seqZ 1 16)) by by decide_vm. split; [exact Hr|]. split; [by vm_compute|].
  assert (Hw : cb_wf (cb asked)).
  { constructor; try (by decide_vm); split; by decide_vm. }
  exact (passkey_bypassed (H := keyboard_slave) (H0 := keyboard_slave_types) (H1 := engine_depth) (λ _, eq_refl) (λ _, eq_refl) (le_n engine_depth)
    asked (seqZ 1 16) Hw Hr ltac:(by vm_compute) ltac:(by vm_compute) ltac:(by vm_compute) ltac:(by vm_compute) ltac:(by vm_compute)
    ltac:(by vm_compute) ltac:(by decide_vm) ltac:(by vm_compute) (λ _, eq_refl)).
Defined.

(** A master that has the random number of the slave. *)
Definition waiting_master : world :=
  started (set_state SMP_STATE_RAND (set_pairing_bda slave_address (set_rand (seqZ 1 16) registered))).
Definition display_master : Host := lab HCI_ROLE_MASTER (capabilities 3 1).
Definition display_master_types : HostTypes (H := display_master) := lab_types HCI_ROLE_MASTER (capabilities 3 1) ltac:(by apply capabilities_wf).
Lemma random_decides_witness :
  let w := waiting_master in let p := seqZ 17 16 in
  twp (smp_data_received (H := display_master) (H0 := engine_depth) (pairing_bda (cb w)) (SMP_OPCODE_RAND :: p)) (λ _ w',
    if bool_decide (rconfirm (cb w) = confirm_value (H := display_master) (cb w) p)
    then accepts (set_rrand p (cb w)) (out w ++ [StopTimer; StartTimer]) w'
    else rejects (cb w) (out w ++ [StopTimer; StartTimer]) w') w.
Proof.
  assert (Hr : block (seqZ 17 16)) by by decide_vm.
  assert (Hw : cb_wf (cb waiting_master)) by (constructor; try (by decide_vm); split; by decide_vm).
  assert (Ha : awaits_random (cb waiting_master)) by by vm_compute.
  assert (Ht : 0 ≤ total_tx_unacked (cb waiting_master) < 65535) by by decide_vm.
  assert (Hle : le_secure_connections_mode_is_used (cb waiting_master) = false) by by vm_compute.
  intros w p. exact (random_decides (H := display_master) (H0 := display_master_types) (H1 := engine_depth)
    (λ _, eq_refl) (λ _, eq_refl) (le_n engine_depth) w p Hw Hr Ha Ht Hle (λ _, eq_refl)).
Defined.
