(* ===== verification/SmpFailures.v ===== *)
(** * How a pairing fails

    What the peer and the application are told of a pairing that fails, and the
    inputs that the engine does not survive. *)

From S2P Require Import Prelude Aes AesProofs Cmac CmacProofs Smp SmpProofs EccSpec SmpTables SmpCb SmpCommands SmpAct SmpEvents SmpWf SmpEngine SmpReturns SmpPairing SmpLab.

Section Failures.
Context `{HostTypes, Fuel}.
Context (Hav : ∀ n, available n = true).
Context (Hfuel : (engine_depth ≤ fuel)%nat).
Implicit Types w : world.

(** ** What is reported *)

Lemma failing_row r st : st ≠ SMP_STATE_IDLE → st ≠ SMP_STATE_CREATE_LOCAL_SEC_CONN_OOB_DATA → (r, st) ≠ (HCI_ROLE_MASTER, SMP_STATE_SEC_REQ_PENDING) →
  sm_lookup r st SMP_AUTH_CMPL_EVT = Ok (Some (SMP_SEND_PAIR_FAIL, SMP_PAIRING_CMPL, SMP_STATE_IDLE)).
Proof. by destruct r, st. Qed.

(** [C26] A pairing that fails is reported to the peer by both sides and to the
    application by the master alone: when a pairing ends with a reason of the
    specification, and the stack has then transmitted every command, the peer has
    got Pairing Failed with the reason and the machine is idle; a master has called
    the application with the reason and cleared its control block, while a slave
    has told the application nothing and keeps the flags and the address of the
    pairing. *)
Theorem failure_reported w reason : 0 < reason ≤ SMP_MAX_FAIL_RSN_PER_SPEC → 0 ≤ total_tx_unacked (cb w) < 65535 →
  p_callback (cb w) = true → (∀ n, L2CA_SendFixedChnlData n = true) →
  state (cb w) ≠ SMP_STATE_IDLE → state (cb w) ≠ SMP_STATE_CREATE_LOCAL_SEC_CONN_OOB_DATA →
  (role (cb w), state (cb w)) ≠ (HCI_ROLE_MASTER, SMP_STATE_SEC_REQ_PENDING) →
  twp (smp_sm_event SMP_AUTH_CMPL_EVT (D_u8 reason);; smp_tx_complete_callback (total_tx_unacked (cb w) + 1)) (λ _ w',
    sent w' = sent w ++ [[SMP_OPCODE_PAIRING_FAILED; reason]] ∧ state (cb w') = SMP_STATE_IDLE ∧
    match role (cb w) with
    | HCI_ROLE_MASTER =>
        told w' = told w ++ [(SMP_COMPLT_EVT, CB_cmplt reason 0 (is_pair_cancel (cb w)))] ∧ cb w' = set_p_callback true cb_zero
    | HCI_ROLE_SLAVE => told w' = told w ∧ flags (cb w') = flags (cb w) ∧ pairing_bda (cb w') = pairing_bda (cb w)
    end) w.
Proof.
  intros Hr Ht Hcb Hsend Hi Hc Hm. unfold smp_sm_event. unfold engine_depth in Hfuel. destruct fuel as [|n] eqn:Ef; [lia|].
  tstep. eapply pairing_failed; [done..|by apply failing_row|]. intros m k. unfold smp_tx_complete_callback, failure_sent, failed. tsteps.
  cbn [total_tx_unacked set_wait_for_authorization_complete set_total_tx_unacked]. rewrite Z.leb_refl. unfold when. tsteps.
  cbn [total_tx_unacked wait_for_authorization_complete set_wait_for_authorization_complete set_total_tx_unacked].
  rewrite Z.sub_diag. cbn [Z.eqb andb]. unfold smp_sm_event. rewrite Ef.
  destruct (role (cb w)) eqn:Er.
  - eapply twp_row; [cbn [cb role state set_wait_for_authorization_complete set_total_tx_unacked set_failure set_status set_state]; by rewrite Er|done|].
    cbn [smp_sm_action]. unfold smp_pairing_cmpl. tsteps. cbn [total_tx_unacked set_wait_for_authorization_complete set_total_tx_unacked set_state].
    unfold when at 1. cbn [Z.eqb]. unfold smp_proc_pairing_cmpl, smp_reset_control_value, smp_cb_cleanup. tsteps.
    rewrite bool_decide_false; [|cbn [role set_wait_for_authorization_complete set_total_tx_unacked set_failure set_status set_state]; by rewrite Er].
    unfold when. tsteps. cbn [p_callback set_wait_for_authorization_complete set_total_tx_unacked set_failure set_status set_state set_p_callback set_flags].
    rewrite Hcb. tsteps. unfold sent, told. cbn [out]. rewrite !omap_app. cbn [omap list_omap]. rewrite !app_nil_r.
    cbn [status is_pair_cancel set_wait_for_authorization_complete set_total_tx_unacked set_failure set_status set_state].
    rewrite (proj2 (Z.eqb_neq reason SMP_SUCCESS)) by (unfold SMP_SUCCESS; lia).
    split_and!; reflexivity.
  - eapply twp_ignored; [cbn [cb role state set_wait_for_authorization_complete set_total_tx_unacked set_failure set_status set_state]; by rewrite Er|].
    unfold sent, told. cbn [out]. rewrite !omap_app. cbn [omap list_omap]. rewrite !app_nil_r. by split_and!.
Qed.

(** ** Commands that are too short *)

Lemma fault_row n e d w a1 a2 st f : sm_lookup (role (cb w)) (state (cb w)) e = Ok (Some (a1, a2, st)) → a1 ≠ SMP_SM_NO_ACTION →
  smp_sm_action (engine n).1 (engine n).2 a1 d (World (set_state st (cb w)) (mem w) (calls w) (out w)) = Fault f →
  (engine (S n)).1 e d w = Fault f.
Proof.
  intros E Ha Hf. cbn [engine fst]. unfold sm_event. apply twp_then_fault, twp_gets. rewrite (lift_run _ _ _ _ E). cbv iota.
  apply twp_then_fault, twp_upd. unfold run_actions, eqb. rewrite bool_decide_false by done. cbn [snd].
  unfold mbind, M_bind. by rewrite Hf.
Qed.
Lemma short_bytes p i n : 0 ≤ n → zlen p < i + n → load_bytes p i n = Fault OobRead.
Proof. clear Hfuel. intros Hn Hp. unfold load_bytes. case_decide; [lia|done]. Qed.
Lemma short_byte p i : zlen p ≤ i → load p i = Fault OobRead.
Proof. clear Hfuel. intros Hp. unfold load. case_decide; [|done]. by rewrite lookup_ge_None_2 by lia. Qed.
Lemma short_array p set w : zlen p < 16 → take_array (D_bytes p) set w = Fault OobRead.
Proof. clear Hfuel.
  intros Hp. unfold take_array. rewrite (lift_run _ _ p) by done. apply lift_fault, short_bytes; [done|]. unfold BT_OCTET16_LEN. lia.
Qed.
(** A command of the peer of the pairing reaches the machine. *)
Lemma frame_faults c e p w f : SMP_OPCODE_MIN ≤ c ≤ SMP_OPCODE_MAX → c ≠ SMP_OPCODE_PAIRING_REQ → c ≠ SMP_OPCODE_SEC_REQ → c ≠ SMP_OPCODE_CONFIRM →
  command_event c = Some e → zlen p < 255 →
  smp_sm_event e (D_bytes p) (World (set_rcvd_cmd_len (zlen p + 1) (set_rcvd_cmd_code c (cb w))) (mem w) (calls w)
    ((out w ++ [StopTimer]) ++ [StartTimer])) = Fault f →
  smp_data_received (pairing_bda (cb w)) (c :: p) w = Fault f.
Proof. clear Hfuel.
  intros Hc Hreq Hsec Hconf He Hp Hf. unfold smp_data_received. cbv zeta. rewrite (lift_run _ _ c) by done.
  rewrite (proj2 (Z.ltb_ge SMP_OPCODE_MAX c)), (proj2 (Z.ltb_ge c SMP_OPCODE_MIN)) by lia. cbn [orb]. cbv iota.
  apply twp_then_fault, twp_gets. rewrite (proj2 (Z.eqb_neq c _) Hreq), (proj2 (Z.eqb_neq c _) Hsec). cbn [orb]. cbv iota.
  apply twp_then_fault, twp_ret, twp_then_fault, twp_gets. unfold bda_eqb. rewrite bool_decide_true by done. unfold when. cbn [andb]. cbv iota.
  rewrite (proj2 (Z.eqb_neq c _) Hconf). cbn [andb]. cbv iota.
  do 4 (apply twp_then_fault; first [apply twp_emit|apply twp_upd]). rewrite He. cbn [cb mem calls out].
  assert (El : u8 (zlen (c :: p)) = zlen p + 1) by (cbn [length]; unfold u8; rewrite Z.mod_small by lia; lia). rewrite El. exact Hf.
Qed.

(** The length of the command that is read in BOND_PENDING. *)
Definition key_command_length (c : Z) : option Z :=
  if (c =? SMP_OPCODE_ENCRYPT_INFO) || (c =? SMP_OPCODE_IDENTITY_INFO) || (c =? SMP_OPCODE_SIGN_INFO) then Some 16
  else if c =? SMP_OPCODE_MASTER_ID then Some 10 else if c =? SMP_OPCODE_ID_ADDR then Some 7 else None.

Lemma short_key_command n c need p w : key_command_length c = Some need → zlen p < need → 
  ∃ e, command_event c = Some e ∧ ∀ st, ∃ a, sm_lookup st SMP_STATE_BOND_PENDING e = Ok (Some (a, SMP_SM_NO_ACTION, SMP_STATE_BOND_PENDING)) ∧
    a ≠ SMP_SM_NO_ACTION ∧ smp_sm_action (engine n).1 (engine n).2 a (D_bytes p) w = Fault OobRead.
Proof. clear Hfuel.
  unfold key_command_length. intros Hc Hp.
  destruct (Z.eqb_spec c SMP_OPCODE_ENCRYPT_INFO) as [->|]; [|destruct (Z.eqb_spec c SMP_OPCODE_IDENTITY_INFO) as [->|]; [|
    destruct (Z.eqb_spec c SMP_OPCODE_SIGN_INFO) as [->|]; [|destruct (Z.eqb_spec c SMP_OPCODE_MASTER_ID) as [->|]; [|
    destruct (Z.eqb_spec c SMP_OPCODE_ID_ADDR) as [->|]; [|done]]]]]; cbn [orb] in Hc; injection Hc as <-.
  - exists SMP_ENCRPTION_INFO_EVT. split; [done|]. intros st. exists SMP_PROC_ENC_INFO. split_and!; [by destruct st|done|]. cbn [smp_sm_action].
    unfold smp_proc_enc_info. unfold mbind at 1, M_bind at 1. by rewrite short_array by lia.
  - exists SMP_ID_INFO_EVT. split; [done|]. intros st. exists SMP_PROC_ID_INFO. split_and!; [by destruct st|done|]. cbn [smp_sm_action].
    unfold smp_proc_id_info. unfold mbind at 1, M_bind at 1. by rewrite short_array by lia.
  - exists SMP_SIGN_INFO_EVT. split; [done|]. intros st. exists SMP_PROC_SRK_INFO. split_and!; [by destruct st|done|]. cbn [smp_sm_action].
    unfold smp_proc_srk_info. apply twp_then_fault, twp_upd. rewrite (lift_run _ _ p) by done. apply lift_fault, short_bytes; [done|]. unfold BT_OCTET16_LEN. lia.
  - exists SMP_MASTER_ID_EVT. split; [done|]. intros st. exists SMP_PROC_MASTER_ID. split_and!; [by destruct st|done|]. cbn [smp_sm_action].
    unfold smp_proc_master_id. apply twp_then_fault, twp_upd. rewrite (lift_run _ _ p) by done.
    destruct (decide (zlen p < 2)); [apply lift_fault, short_bytes; lia|].
    rewrite (lift_run _ _ (take 2 p)) by (apply (load_bytes_at p [] _ (drop 2 p)); [by rewrite take_drop|done|rewrite length_take; lia]).
    apply lift_fault, short_bytes; lia.
  - exists SMP_ID_ADDR_EVT. split; [done|]. intros st. exists SMP_PROC_ID_ADDR. split_and!; [by destruct st|done|]. cbn [smp_sm_action].
    unfold smp_proc_id_addr. apply twp_then_fault, twp_upd. rewrite (lift_run _ _ p) by done. destruct p as [|x p]; [by apply lift_fault|].
    rewrite (lift_run _ _ x) by done. apply lift_fault, short_bytes; lia.
Qed.

Lemma short_parameters p w : zlen p < 6 → take_pairing_parameters p w = Fault OobRead.
Proof. clear Hfuel.
  intros Hp. do 6 (destruct p as [|? p]; [reflexivity|]). cbn [length] in Hp. lia.
Qed.
Lemma pairing_request_faults w p bda : state (cb w) = SMP_STATE_IDLE → has (flags (cb w)) SMP_PAIR_FLAGS_WE_STARTED_DD = false →
  L2CA_GetBleConnRole bda = HCI_ROLE_SLAVE → zlen p < 6 → smp_data_received bda (SMP_OPCODE_PAIRING_REQ :: p) w = Fault OobRead.
Proof.
  intros Hi Hf Hrole Hp. unfold smp_data_received. cbv zeta. rewrite (lift_run _ _ SMP_OPCODE_PAIRING_REQ) by done.
  change ((SMP_OPCODE_MAX <? SMP_OPCODE_PAIRING_REQ) || (SMP_OPCODE_PAIRING_REQ <? SMP_OPCODE_MIN)) with false. cbv iota.
  apply twp_then_fault, twp_gets. change ((SMP_OPCODE_PAIRING_REQ =? SMP_OPCODE_PAIRING_REQ) || _) with true. cbv iota.
  rewrite Hi, Hf. cbn [negb andb]. unfold eqb. rewrite bool_decide_true by done. cbn [andb]. apply twp_then_fault. tsteps.
  apply twp_then_fault, twp_gets. cbn [pairing_bda set_pairing_bda cb]. unfold bda_eqb. rewrite bool_decide_true by done. unfold when. cbn [andb]. cbv iota.
  change (SMP_OPCODE_PAIRING_REQ =? SMP_OPCODE_CONFIRM) with false. cbn [andb]. cbv iota.
  do 4 (apply twp_then_fault; first [apply twp_emit|apply twp_upd]). cbn [cb mem calls out].
  unfold smp_sm_event. unfold engine_depth in Hfuel. destruct fuel as [|n]; [lia|].
  eapply (fault_row n SMP_PAIRING_REQ_EVT); [cbn [cb role state set_rcvd_cmd_len set_rcvd_cmd_code set_pairing_bda set_role]; by rewrite Hi, Hrole|done|].
  cbn [smp_sm_action]. unfold smp_proc_pair_cmd. apply twp_then_fault, twp_gets.
  apply twp_then_fault. unfold when. match goal with |- context [if ?b then _ else _] => destruct b end; tsteps; (apply twp_then_fault, twp_upd;
    rewrite (lift_run _ _ p) by done; unfold mbind, M_bind; by rewrite short_parameters).
Qed.

(** A frame of the peer that is shorter than what is read of it. *)
Inductive short_frame (w : world) : list Z → Prop :=
| Short_empty : short_frame w []
| Short_request p : state (cb w) = SMP_STATE_IDLE → has (flags (cb w)) SMP_PAIR_FLAGS_WE_STARTED_DD = false →
    L2CA_GetBleConnRole (pairing_bda (cb w)) = HCI_ROLE_SLAVE → zlen p < 6 → short_frame w (SMP_OPCODE_PAIRING_REQ :: p)
| Short_key c need p : state (cb w) = SMP_STATE_BOND_PENDING → key_command_length c = Some need → zlen p < need → short_frame w (c :: p).

(** [C27] A command of the peer may be shorter than what is read of it: an empty
    frame, a pairing request of less than six bytes behind its code to an idle
    slave, and a key of less than its bytes in BOND_PENDING are read beyond their
    end.  The length of a pairing request is checked only afterwards, and that of a
    key never. *)
Theorem short_frame_overruns w d : short_frame w d → handle (In_data (pairing_bda (cb w)) d) w = Fault OobRead.
Proof.
  intros [|p Hi Hf Hrole Hp|c need p Hs Hc Hp]; cbn [handle]; [done|by apply pairing_request_faults|].
  assert (Hrange : c ∈ [6; 7; 8; 9; 10] ∧ need ≤ 16).
  { unfold key_command_length in Hc. repeat match type of Hc with context [?a =? ?b] => destruct (Z.eqb_spec a b) as [->|] end; cbn [orb] in Hc;
      try done; injection Hc as <-; split; first [decide_vm|lia]. }
  destruct Hrange as [Hrange Hneed]. rewrite !elem_of_cons, elem_of_nil in Hrange. unfold engine_depth in Hfuel. destruct fuel as [|n] eqn:Ef; [lia|].
  set (w1 := World (set_rcvd_cmd_len (zlen p + 1) (set_rcvd_cmd_code c (cb w))) (mem w) (calls w) ((out w ++ [StopTimer]) ++ [StartTimer])).
  destruct (short_key_command n c need p (World (set_state SMP_STATE_BOND_PENDING (cb w1)) (mem w1) (calls w1) (out w1)) Hc Hp) as (e & He & Ha).
  destruct (Ha (role (cb w))) as (a & E & Hn & Hfault).
  eapply (frame_faults c e); [unfold SMP_OPCODE_MIN, SMP_OPCODE_PAIRING_REQ, SMP_OPCODE_MAX, SMP_OPCODE_PAIR_KEYPR_NOTIF; lia| | | |done|lia|];
    [unfold SMP_OPCODE_PAIRING_REQ, SMP_OPCODE_SEC_REQ, SMP_OPCODE_CONFIRM; lia..|].
  unfold smp_sm_event. rewrite Ef. eapply (fault_row n e); [|exact Hn|exact Hfault].
  cbn [cb w1 role state set_rcvd_cmd_len set_rcvd_cmd_code]. by rewrite Hs.
Qed.

(** ** A machine that is stuck *)

Lemma twp_either (b : bool) (m m' : M world ()) Q w : twp m Q w → twp m' Q w → twp (if b then m else m') Q w.
Proof. by destruct b. Qed.
(** The stack refuses a command. *)
Lemma refused_send ev c build data Q w : index smp_cmd_build_act c = Ok (Some build) → build c (cb w) = build_cmd data → c ≤ SMP_OPCODE_MAX + 1 →
  L2CA_SendFixedChnlData (calls w) = false → total_tx_unacked (cb w) = 0 →
  (∀ m, twp (auth_cmpl ev SMP_PAIR_INTERNAL_ERR) Q
    (World (set_total_tx_unacked 0 (set_total_tx_unacked 1 (cb w))) m (S (calls w)) (out w))) → twp (send ev c) Q w.
Proof.
  clear Hfuel. intros Hi Hb Hc Hs Ht HQ. unfold send, smp_send_cmd, send_cmd. tsteps. rewrite (proj2 (Z.leb_le _ _) Hc). cbn [negb]. tsteps.
  eapply twp_lift; [exact Hi|]. cbv beta iota. tsteps. rewrite Hb. unfold build_cmd. tsteps.
  eapply twp_crypto; [by apply gives_malloc|]. intros m. cbv iota. tsteps. unfold smp_send_msg_to_L2CAP. tsteps. rewrite Hs, Ht.
  cbn [negb]. tsteps. cbn [total_tx_unacked set_total_tx_unacked]. change (u16 (u16 (0 + 1) - 1)) with 0. change (u16 (0 + 1)) with 1.
  unfold when. tsteps. cbn [negb]. eapply twp_mono; [apply HQ|]. intros [] w' Hw'. by tsteps.
Qed.
(** An internal error clears the control block at once. *)
Lemma internal_error n w Q : total_tx_unacked (cb w) = 0 →
  sm_lookup (role (cb w)) (state (cb w)) SMP_AUTH_CMPL_EVT = Ok (Some (SMP_SEND_PAIR_FAIL, SMP_PAIRING_CMPL, SMP_STATE_IDLE)) →
  (∀ o, Q () (World (set_p_callback (p_callback (cb w)) cb_zero) (mem w) (calls w) o)) →
  twp ((engine (S n)).1 SMP_AUTH_CMPL_EVT (D_u8 SMP_PAIR_INTERNAL_ERR)) Q w.
Proof.
  clear Hfuel. intros Ht E HQ. eapply twp_row; [exact E|done|]. cbn [smp_sm_action]. unfold smp_send_pair_fail. tsteps.
  eapply twp_lift; [done|]. cbv beta. tsteps. unfold when at 1.
  change ((SMP_PAIR_INTERNAL_ERR <=? SMP_MAX_FAIL_RSN_PER_SPEC) && negb (SMP_PAIR_INTERNAL_ERR =? SMP_SUCCESS)) with false. cbv iota. tsteps.
  unfold smp_pairing_cmpl. tsteps. cbn [total_tx_unacked set_failure set_status set_state]. rewrite Ht. unfold when at 1. cbn [Z.eqb].
  unfold smp_proc_pairing_cmpl, smp_reset_control_value, smp_cb_cleanup, when. tsteps.
  apply twp_either; tsteps; apply twp_either; tsteps; apply HQ.
Qed.

Lemma commitment_gives s : cb_wf s → selected_association_model s = SMP_MODEL_SEC_CONN_JUSTWORKS →
  ∃ c, gives (Smp.smp_calculate_local_commitment available cipher_ctx junk (keys_cb s)) c.
Proof.
  clear Hfuel. intros Hw Hm. pose proof (view_parts _ (cb_wf_view _ Hw)) as (_ & _ & _ & Hrand & _ & Hlp & Hpp & _).
  unfold Smp.smp_calculate_local_commitment.
  assert (Em : Smp.selected_association_model (keys_cb s) = SMP_MODEL_SEC_CONN_JUSTWORKS).
  { unfold keys_cb. by destruct (BTM_ReadConnectionAddr _), (default _ _). }
  rewrite Em. eexists. eapply gives_bind; [by apply gives_f4|apply gives_ret].
Qed.

(** A slave whose commitment the stack refuses ends the pairing, and then waits for
    the nonce of nobody: from then on every request to pair is answered that the
    engine is busy. *)
Theorem refused_commitment_sticks w bda : cb_wf (cb w) → role (cb w) = HCI_ROLE_SLAVE → state (cb w) = SMP_STATE_SEC_CONN_PHS1_START →
  selected_association_model (cb w) = SMP_MODEL_SEC_CONN_JUSTWORKS → total_tx_unacked (cb w) = 0 → L2CA_SendFixedChnlData (calls w) = false →
  twp (smp_sm_event SMP_HAVE_LOC_NONCE_EVT D_null;; SMP_Pair bda) (λ r w',
    r = SMP_BUSY ∧ cb w' = set_state SMP_STATE_WAIT_NONCE (set_p_callback (p_callback (cb w)) cb_zero)) w.
Proof.
  intros Hw Er Es Em Ht Hs. unfold smp_sm_event. unfold engine_depth, nesting in Hfuel. destruct fuel as [|[|n]] eqn:Ef; [lia..|].
  tstep. eapply twp_row; [by rewrite Er, Es|done|]. cbn [smp_sm_action]. unfold smp_process_local_nonce. tsteps.
  cbn [selected_association_model set_state]. rewrite Em. unfold is_slave, eqb. cbn [role set_state]. rewrite Er, bool_decide_true by done.
  unfold smp_calculate_local_commitment. tsteps. set (s := set_state SMP_STATE_WAIT_COMMITMENT (cb w)).
  assert (Hws : cb_wf s) by (unfold s; wf). destruct (commitment_gives s Hws Em) as [c Hc]. eapply twp_crypto; [exact Hc|]. intros m. 
  assert (Hgo : ∀ t, role t = HCI_ROLE_SLAVE → state t = SMP_STATE_WAIT_COMMITMENT → total_tx_unacked t = 0 → p_callback t = p_callback (cb w) →
    twp (smp_send_commitment (engine (S n)).1) (λ _ w', twp (upd (set_state SMP_STATE_WAIT_NONCE)) (λ _ w', twp (smp_sm_action (engine (S n)).1 (engine (S n)).2 SMP_SM_NO_ACTION D_null)
      (λ _ w', twp (SMP_Pair bda) (λ r w', r = SMP_BUSY ∧ cb w' = set_state SMP_STATE_WAIT_NONCE (set_p_callback (p_callback (cb w)) cb_zero)) w') w') w')
      (World t m (calls w) (out w))).
  { intros t Etr Ets Ett Etp. unfold smp_send_commitment. eapply refused_send; [done..|]. intros m'. unfold auth_cmpl. apply internal_error; [done| |].
    - cbn [cb role state set_total_tx_unacked]. by rewrite Etr, Ets.
    - intros o. cbn [cb p_callback set_total_tx_unacked]. rewrite Etp. tsteps. cbn [smp_sm_action]. tsteps. unfold SMP_Pair. tsteps.
      cbn [state set_state]. unfold eqb. rewrite bool_decide_false by done. cbn [negb orb]. tsteps. done. }
  destruct c as [c|]; tsteps; by apply Hgo.
Qed.
End Failures.

(** ** Concrete failures *)

(** A slave that waits for a confirm value. *)
Definition waiting_slave : world :=
  started (set_role HCI_ROLE_SLAVE (set_state SMP_STATE_WAIT_CONFIRM (set_pairing_bda master_address registered))).
Lemma failure_reported_witness :
  twp (smp_sm_event (H := lab HCI_ROLE_SLAVE (capabilities 3 1)) (H0 := engine_depth) SMP_AUTH_CMPL_EVT (D_u8 SMP_CONFIRM_VALUE_ERR);;
       smp_tx_complete_callback (H := lab HCI_ROLE_SLAVE (capabilities 3 1)) (H0 := engine_depth) 1) (λ _ w',
    sent w' = [[SMP_OPCODE_PAIRING_FAILED; SMP_CONFIRM_VALUE_ERR]] ∧ state (cb w') = SMP_STATE_IDLE ∧
    told w' = [] ∧ flags (cb w') = 0 ∧ pairing_bda (cb w') = master_address) waiting_slave.
Proof.
  exact (failure_reported (H := lab HCI_ROLE_SLAVE (capabilities 3 1)) (H1 := engine_depth) (λ _, eq_refl) (le_n engine_depth)
    waiting_slave SMP_CONFIRM_VALUE_ERR ltac:(by decide_vm) ltac:(by decide_vm) eq_refl (λ _, eq_refl) ltac:(done) ltac:(done) ltac:(done)).
Defined.
Lemma short_frame_overruns_witness :
  handle (H := lab HCI_ROLE_SLAVE (capabilities 3 1)) (H0 := engine_depth) (In_data (zeros 6) [SMP_OPCODE_PAIRING_REQ; 3; 0]) (started registered) = Fault OobRead.
Proof.
  apply (short_frame_overruns (H := lab HCI_ROLE_SLAVE (capabilities 3 1)) (H1 := engine_depth) (le_n engine_depth) (started registered)).
  apply Short_request; [done..|by decide_vm].
Defined.
