(* ===== verification/SmpPasskey.v ===== *)
(** * Passkey entry between two devices

    A slave shows a passkey and the user of the master enters one: the two pairing
    machines, each in surroundings of its own, joined by a link, with any random
    numbers and any passkey. *)

From S2P Require Import Prelude Aes AesProofs Cmac CmacProofs Smp SmpProofs EccSpec SmpTables SmpCb SmpCommands SmpAct SmpEvents SmpWf SmpEngine SmpActProofs SmpReturns SmpPairing SmpLab.

(** ** What the specification computes

    On little endian arrays: the temporary key of a passkey, the confirm value
    function c1 and the key generation function s1, and a key of a smaller size. *)

Definition passkey_key (k : Z) : list Z := (λ i, k / 256 ^ i mod 256) <$> seqZ 0 16.

(** What the two sides have exchanged before, and the addresses with their types. *)
Record exchange := {
  pairing_request : list Z; pairing_response : list Z;
  of_master : list Z * Z; of_slave : list Z * Z;
  key_size : Z }.
Definition xor (a b : list Z) : list Z := zip_with Z.lxor a b.
Definition c1 (x : exchange) (k r : list Z) : list Z :=
  let p1 := [(of_master x).2; (of_slave x).2] ++ pairing_request x ++ pairing_response x in
  let p2 := reverse (of_slave x).1 ++ reverse (of_master x).1 ++ replicate 4 0 in
  CmacProofs.e k (xor p2 (CmacProofs.e k (xor p1 r))).
Definition s1 (k master_rand slave_rand : list Z) : list Z := CmacProofs.e k (take 8 master_rand ++ take 8 slave_rand).
Definition shorten (n : Z) (key : list Z) : list Z := take (Z.to_nat n) key ++ replicate (16 - Z.to_nat n) 0.

Lemma passkey_key_block k : block (passkey_key k).
Proof.
  unfold passkey_key. split; [by rewrite length_fmap, length_seqZ|]. apply Forall_fmap, Forall_forall. intros i _. cbn. apply Z.mod_pos_bound. lia.
Qed.
Lemma uint32_key k : 0 ≤ k ≤ BTM_MAX_PASSKEY_VAL → uint32 k ++ zeros 12 = passkey_key k.
Proof.
  unfold BTM_MAX_PASSKEY_VAL. intros Hk. change (seqZ 0 16) with ([0; 1; 2; 3] ++ seqZ 4 12). unfold passkey_key.
  change (seqZ 0 16) with ([0; 1; 2; 3] ++ seqZ 4 12). rewrite fmap_app. f_equal.
  - unfold uint32. cbn [fmap list_fmap]. change (256 ^ 0) with 1. change (256 ^ 1) with 256. change (256 ^ 2) with 65536.
    change (256 ^ 3) with 16777216. by rewrite Z.div_1_r.
  - transitivity ((λ _, 0) <$> seqZ 4 12); [done|]. apply list_fmap_ext. intros i j Hj. apply lookup_seqZ in Hj as [-> _].
    rewrite Z.div_small; [done|]. split; [lia|]. apply Z.lt_le_trans with (256 ^ 4); [lia|]. apply Z.pow_le_mono_r; lia.
Qed.
(** Different passkeys have different keys. *)
Lemma passkey_key_inj k k' : 0 ≤ k ≤ BTM_MAX_PASSKEY_VAL → 0 ≤ k' ≤ BTM_MAX_PASSKEY_VAL → passkey_key k = passkey_key k' → k = k'.
Proof.
  unfold BTM_MAX_PASSKEY_VAL. intros Hk Hk' E. rewrite <- !uint32_key in E by done. apply app_inv_tail in E. unfold uint32 in E.
  injection E as E0 E1 E2 E3. Z.div_mod_to_equations. lia.
Qed.
Lemma mask_shorten n key : length key = 16%nat → Smp.smp_mask_enc_key n key = shorten n key.
Proof.
  intros Hl. unfold Smp.smp_mask_enc_key, shorten, BT_OCTET16_LEN. destruct (Z.ltb_spec n 16).
  - by rewrite drop_ge, app_nil_r by lia.
  - rewrite take_ge by lia. replace (16 - Z.to_nat n)%nat with 0%nat by lia. by rewrite app_nil_r.
Qed.

(** The passkey that is made of a random number: 20 bits of it, halved when that is
    more than six digits. *)
Definition passkey_of (r : list Z) : Z :=
  let v := stream_to_uint (take 4 r) mod 2 ^ 20 in if v <=? BTM_MAX_PASSKEY_VAL then v else v / 2.
Lemma passkey_loop_value p : 0 ≤ p < 2 ^ 20 → passkey_loop 20 p = Ok (if p <=? BTM_MAX_PASSKEY_VAL then p else p / 2).
Proof.
  intros Hp. cbn [passkey_loop]. unfold BTM_MAX_PASSKEY_VAL. destruct (Z.ltb_spec 999999 p) as [H|H].
  - rewrite Z.shiftr_div_pow2, (proj2 (Z.leb_gt p 999999)) by lia. change (2 ^ 1) with 2.
    assert (p / 2 < 524288) by (apply Z.div_lt_upper_bound; lia). by destruct (Z.ltb_spec 999999 (p / 2)); [lia|].
  - by rewrite (proj2 (Z.leb_le p 999999)) by lia.
Qed.
Lemma passkey_of_range r : 0 ≤ passkey_of r ≤ BTM_MAX_PASSKEY_VAL.
Proof.
  unfold passkey_of, BTM_MAX_PASSKEY_VAL. pose proof (Z.mod_pos_bound (stream_to_uint (take 4 r)) (2 ^ 20) ltac:(lia)) as Hp.
  destruct (Z.leb_spec (stream_to_uint (take 4 r) mod 2 ^ 20) 999999); [lia|]. split; [apply Z.div_pos; lia|].
  apply Z.lt_succ_r, Z.div_lt_upper_bound; lia.
Qed.

(** ** A side of the exchange *)

Definition own_features (s : smp_cb) : list Z :=
  [match role s with HCI_ROLE_MASTER => SMP_OPCODE_PAIRING_REQ | HCI_ROLE_SLAVE => SMP_OPCODE_PAIRING_RSP end;
   u8 (local_io_capability s); u8 (loc_oob_flag s); u8 (loc_auth_req s); u8 (loc_enc_size s); u8 (local_i_key s); u8 (local_r_key s)].
Definition peer_features (s : smp_cb) : list Z :=
  [match role s with HCI_ROLE_MASTER => SMP_OPCODE_PAIRING_RSP | HCI_ROLE_SLAVE => SMP_OPCODE_PAIRING_REQ end;
   u8 (peer_io_caps s); u8 (peer_oob_flag s); u8 (peer_auth_req s); u8 (peer_enc_size s); u8 (peer_i_key s); u8 (peer_r_key s)].
(** What does not change before the confirm values have been compared. *)
Record unmoved (s s' : smp_cb) : Prop := {
  same_role : role s' = role s; same_peer : pairing_bda s' = pairing_bda s;
  same_legacy : le_secure_connections_mode_is_used s' = le_secure_connections_mode_is_used s;
  same_auth : peer_auth_req s' = peer_auth_req s ∧ loc_auth_req s' = loc_auth_req s;
  same_callback : p_callback s' = p_callback s; same_cancel : is_pair_cancel s' = is_pair_cancel s;
  same_wait : wait_for_authorization_complete s' = wait_for_authorization_complete s;
  same_size : peer_enc_size s' = peer_enc_size s ∧ loc_enc_size s' = loc_enc_size s;
  same_features : own_features s' = own_features s ∧ peer_features s' = peer_features s }.

Section Side.
Context `{Host}.

(** A well typed side of a legacy pairing with [peer] that has exchanged [x]. *)
Record joins (x : exchange) (peer : list Z) (s : smp_cb) : Prop := {
  join_wf : cb_wf s; join_peer : pairing_bda s = peer;
  join_legacy : le_secure_connections_mode_is_used s = false;
  join_features_sc : has (peer_auth_req s) SMP_SC_SUPPORT_BIT && has (loc_auth_req s) SMP_SC_SUPPORT_BIT = false;
  join_callback : p_callback s = true; join_cancel : is_pair_cancel s = false;
  join_wait : wait_for_authorization_complete s = false;
  join_size : Z.min (peer_enc_size s) (loc_enc_size s) = key_size x;
  join_types : is_byte (of_master x).2 ∧ is_byte (of_slave x).2;
  join_addresses : (BTM_ReadConnectionAddr peer, BTM_ReadRemoteConnectionAddr peer) =
    match role s with HCI_ROLE_MASTER => (of_master x, Some (of_slave x)) | HCI_ROLE_SLAVE => (of_slave x, Some (of_master x)) end;
  join_features : (own_features s, peer_features s) =
    match role s with
    | HCI_ROLE_MASTER => (pairing_request x, pairing_response x)
    | HCI_ROLE_SLAVE => (pairing_response x, pairing_request x)
    end }.

Lemma joins_unmoved x peer s s' : joins x peer s → cb_wf s' → unmoved s s' → joins x peer s'.
Proof.
  intros [] Hw [Er ? ? [? ?] ? ? ? [? ?] [? ?]]. constructor; rewrite ?Er; congruence || done.
Qed.

(** The confirm value of the code is that of the specification. *)
Lemma joins_confirm x peer s r : joins x peer s → confirm_value s r = c1 x (tk s) r.
Proof.
  intros [_ Ep _ _ _ _ _ _ [T1 T2] Ea Ef]. unfold confirm_value, c1, keys_cb. rewrite Ep.
  assert (Hu : ∀ z, is_byte z → u8 z = z) by (intros z Hz; apply Z.mod_small, Hz).
  unfold own_features, peer_features in Ef. destruct x as [req rsp [ma mt] [sa st] sz]. cbn [of_master of_slave pairing_request pairing_response fst snd] in *.
  destruct (role s) eqn:Er; injection Ea as -> ->; injection Ef as <- <-;
    unfold smp_gen_p1_4_confirm, smp_gen_p2_4_confirm, smp_concatenate_local, smp_concatenate_peer, uint8, bdaddr;
    cbn [from_option id Smp.role Smp.unknown_peer Smp.local_addr Smp.local_addr_type Smp.remote_addr Smp.remote_addr_type
      Smp.local_io_capability Smp.loc_oob_flag Smp.loc_auth_req Smp.loc_enc_size Smp.local_i_key Smp.local_r_key
      Smp.peer_io_caps Smp.peer_oob_flag Smp.peer_auth_req Smp.peer_enc_size Smp.peer_i_key Smp.peer_r_key];
    rewrite (Hu mt T1), (Hu st T2); done.
Qed.

(** The side [s] in the state [st] with the temporary key [key] and [u] commands
    that are not transmitted yet. *)
Record stage (x : exchange) (peer : list Z) (r : role_t) (st : tSMP_STATE) (key : list Z) (u : Z) (s : smp_cb) : Prop := {
  stage_joins : joins x peer s; stage_role : role s = r; stage_state : state s = st;
  stage_key : tk s = key; stage_unacked : total_tx_unacked s = u }.
Lemma stage_move x peer r st key u s st' key' u' s' : stage x peer r st key u s → cb_wf s' → unmoved s s' →
  state s' = st' → tk s' = key' → total_tx_unacked s' = u' → stage x peer r st' key' u' s'.
Proof. intros [Hj Hr _ _ _] Hw Hu Es Ek Eu. split; [by eapply joins_unmoved|by rewrite (same_role _ _ Hu)|done..]. Qed.
End Side.

(** What a stage says of its control block. *)
Ltac facts H :=
  let H' := fresh in pose proof H as H'; destruct H' as [[Hw Eb Ele Esc Ecall Ecan Ewait Esize _ _ _] Er Es Etk Eu].
Ltac unmoved := constructor; cbn; repeat split.

(** Eight bytes from the random number generator of the controller. *)
Definition number (b : list Z) : option tSMP_ENC := Some {| Cmac.status := HCI_SUCCESS; param_len := 8; Cmac.opcode := 0; param_buf := b |}.

(** ** The steps of the two sides *)

Section Steps.
Context `{HostTypes, Fuel}.
Context (Hav : ∀ n, available n = true) (Hsend : ∀ n, L2CA_SendFixedChnlData n = true) (Hrand : ∀ n, btsnd_hcic_ble_rand n = true).
Context (Hfuel : (engine_depth ≤ fuel)%nat).
Context (x : exchange) (peer : list Z).
Implicit Types w : world.

Lemma twp_request ev w (Q : () → world → Prop) : (∀ k, Q () (World (cb w) (mem w) k (out w ++ [RandRequested]))) → twp (request_rand ev) Q w.
Proof. intros HQ. unfold request_rand. tsteps. rewrite Hrand. tsteps. apply HQ. Qed.

(** The slave makes a passkey and shows it. *)
Lemma passkey_made w b key : stage x peer HCI_ROLE_SLAVE SMP_STATE_PAIR_REQ_RSP key 0 (cb w) → octets 8 b →
  rand_enc_proc_state (cb w) = SMP_GEN_TK → selected_association_model (cb w) = SMP_MODEL_KEY_NOTIF →
  let k := passkey_of b in
  twp (smp_rand_back (number b)) (λ _ w', stage x peer HCI_ROLE_SLAVE SMP_STATE_PAIR_REQ_RSP (passkey_key k) 0 (cb w') ∧
    rand_enc_proc_state (cb w') = SMP_GEN_SRAND_MRAND ∧ flags (cb w') = flags (cb w) ∧
    out w' = out w ++ [AppCallback SMP_PASSKEY_NOTIF_EVT peer (CB_passkey k); RandRequested]) w.
Proof.
  intros Hs [Hl Hb] Ep Em k. unfold smp_rand_back, number. cbn [Cmac.status]. rewrite Z.eqb_refl. cbn [negb]. tsteps. rewrite Ep. unfold smp_proc_passkey. tsteps. cbn [param_buf].
  eapply twp_lift. { apply (load_bytes_at b [] (take 4 b) (drop 4 b)); [by rewrite app_nil_l, take_drop|done|by rewrite length_take, Hl]. }
  cbv beta. tsteps. change 1048575 with (Z.ones 20). rewrite Z.land_ones by lia.
  eapply twp_lift; [apply passkey_loop_value, Z.mod_pos_bound; lia|]. fold (passkey_of b). fold k. pose proof (passkey_of_range b : 0 ≤ k ≤ _) as Hk.
  cbv beta. tsteps. cbn [p_callback set_tk].
  facts Hs. rewrite Ecall. unfold when. tsteps.
  cbn [selected_association_model set_tk pairing_bda]. rewrite Em, Eb. unfold eqb. rewrite bool_decide_false by done. rewrite uint32_key by done.
  unfold smp_sm_event. destruct (fuel_levels Hfuel) as [n ->].
  eapply twp_row; [cbn [cb role state set_tk]; by rewrite Er, Es|done|].
  cbn [smp_sm_action]. unfold smp_proc_sl_key. tsteps. eapply twp_lift; [done|]. cbv beta iota.
  unfold smp_generate_srand_mrand_confirm. tsteps. apply twp_request. intros j. tsteps.
  split; [|split_and!; [done|done|by rewrite <- app_assoc]].
  pose proof (passkey_key_block k). eapply stage_move; [exact Hs|wf|unmoved|done..|by apply Hs].
Qed.

(** The two halves of the side's own random number. *)
Lemma twp_copy offset b r w (Q : () → world → Prop) : octets 8 b → store_bytes (rand (cb w)) offset b = Ok r →
  Q () (World (set_rand r (cb w)) (mem w) (calls w) (out w)) →
  twp (copy_to rand set_rand offset {| Cmac.status := HCI_SUCCESS; param_len := 8; Cmac.opcode := 0; param_buf := b |}) Q w.
Proof.
  intros [Hl Hb] Er HQ. unfold copy_to. tsteps. cbn [param_buf param_len].
  eapply twp_lift; [apply (load_bytes_at b [] b []); [by rewrite app_nil_r|done|by rewrite Hl]|]. cbv beta. tsteps.
  eapply twp_lift; [exact Er|]. cbv beta. tsteps. exact HQ.
Qed.
Lemma first_half w b r st key : stage x peer r st key 0 (cb w) → octets 8 b → rand_enc_proc_state (cb w) = SMP_GEN_SRAND_MRAND →
  twp (smp_rand_back (number b)) (λ _ w', stage x peer r st key 0 (cb w') ∧ rand_enc_proc_state (cb w') = SMP_GEN_SRAND_MRAND_CONT ∧
    flags (cb w') = flags (cb w) ∧ take 8 (rand (cb w')) = b ∧ out w' = out w ++ [RandRequested]) w.
Proof.
  intros Hs Hb Ep. facts Hs. pose proof (wf_rand _ Hw) as [Hl Hr]. pose proof Hb as [Hlb Hbb].
  unfold smp_rand_back, number. cbn [Cmac.status]. rewrite Z.eqb_refl. cbn [negb]. tsteps. rewrite Ep. tsteps.
  eapply (twp_copy 0 b (b ++ drop 8 (rand (cb w)))); [exact Hb| |].
  { unfold store_bytes. rewrite decide_True by (rewrite Hl, Hlb; lia). change (Z.to_nat 0) with 0%nat. by rewrite Hlb. }
  unfold smp_generate_rand_cont. tsteps. apply twp_request. intros k. cbn [cb mem out].
  assert (block (b ++ drop 8 (rand (cb w)))) by (apply (octets_app 8 8); [done|split; [by rewrite length_drop, Hl|by apply Forall_drop]]).
  split_and!; [eapply stage_move; [exact Hs|wf|unmoved|done..]|done|done| |done].
  cbn. by rewrite take_app_length' by done.
Qed.

(** The confirm value is calculated, up to the event of its end. *)
Lemma confirm_made w a b r st key Q : stage x peer r st key 0 (cb w) → octets 8 a → octets 8 b →
  rand_enc_proc_state (cb w) = SMP_GEN_SRAND_MRAND_CONT → take 8 (rand (cb w)) = a →
  (∀ m c, c = c1 x key (a ++ b) → block c → twp (smp_sm_event SMP_KEY_READY_EVT (D_key SMP_KEY_TYPE_CFM c)) Q
    (World (set_confirm c (set_rand_enc_proc_state SMP_GEN_CONFIRM (set_rand (a ++ b) (cb w)))) m (calls w) (out w))) →
  twp (smp_rand_back (number b)) Q w.
Proof.
  intros Hs Ha Hb Ep Ea HQ. pose proof (octets_app 8 8 _ _ Ha Hb : block (a ++ b)) as Hab. facts Hs. pose proof (wf_rand _ Hw) as [Hl Hr]. pose proof Hb as [Hlb Hbb].
  unfold smp_rand_back, number. cbn [Cmac.status]. rewrite Z.eqb_refl. cbn [negb]. tsteps. rewrite Ep. tsteps.
  eapply (twp_copy 8 b (a ++ b)); [exact Hb| |].
  { unfold store_bytes. rewrite decide_True by (rewrite Hl, Hlb; lia). change (Z.to_nat 8) with 8%nat.
    by rewrite Ea, drop_ge, app_nil_r by (rewrite Hl, Hlb; lia). }
  unfold smp_generate_confirm, smp_calculate_comfirm. tsteps. cbn [rand set_rand set_rand_enc_proc_state].
  set (s := set_rand_enc_proc_state _ _).
  assert (Hs' : stage x peer r st key 0 s) by (eapply stage_move; [exact Hs|unfold s; wf|unmoved|done..]). 
  eapply twp_crypto; [apply (gives_confirm_value s); [done|apply Hs'|done]|]. intros m.
  pose proof (confirm_value_block s (a ++ b) (join_wf _ _ _ (stage_joins _ _ _ _ _ _ _ Hs')) Hab) as Hc.
  assert (Ec : confirm_value s (a ++ b) = c1 x key (a ++ b))
    by (rewrite (joins_confirm x peer s) by apply Hs'; by rewrite (stage_key _ _ _ _ _ _ _ Hs')).
  revert Ec Hc. generalize (confirm_value s (a ++ b)). intros c Ec Hc. cbv iota. tsteps.
  cbn [rand_enc_proc_state s set_rand_enc_proc_state]. unfold smp_process_confirm. tsteps. by apply HQ.
Qed.
Lemma c1_block s k r : joins x peer s → block k → block r → block (c1 x k r).
Proof.
  intros Hj Hk Hr. pose proof (join_wf _ _ _ Hj) as Hw. set (s' := set_tk k s). assert (Hw' : cb_wf s') by (unfold s'; wf).
  assert (Hj' : joins x peer s') by (eapply joins_unmoved; [exact Hj|exact Hw'|unmoved]).
  change k with (tk s'). rewrite <- (joins_confirm x peer s' r Hj'). by apply confirm_value_block.
Qed.
Lemma slave_confirm w a b key : stage x peer HCI_ROLE_SLAVE SMP_STATE_PAIR_REQ_RSP key 0 (cb w) → octets 8 a → octets 8 b →
  rand_enc_proc_state (cb w) = SMP_GEN_SRAND_MRAND_CONT → take 8 (rand (cb w)) = a → has (flags (cb w)) SMP_PAIR_FLAGS_CMD_CONFIRM = false →
  twp (smp_rand_back (number b)) (λ _ w', stage x peer HCI_ROLE_SLAVE SMP_STATE_WAIT_CONFIRM key 0 (cb w') ∧
    rand (cb w') = a ++ b ∧ confirm (cb w') = c1 x key (a ++ b) ∧ out w' = out w) w.
Proof.
  intros Hs Ha Hb Ep Ea Hflag. apply (confirm_made w a b _ _ _ _ Hs Ha Hb Ep Ea). intros m c ->. generalize (c1 x key (a ++ b)). intros c Hc. facts Hs.
  pose proof (octets_app 8 8 _ _ Ha Hb : block (a ++ b)). unfold smp_sm_event. destruct (fuel_levels Hfuel) as [n ->].
  eapply twp_row; [cbn [cb role state set_confirm set_rand set_rand_enc_proc_state]; by rewrite Er, Es|done|].
  cbn [smp_sm_action]. unfold smp_proc_sl_key. tsteps. eapply twp_lift; [done|]. cbv beta iota. tsteps.
  cbn [flags set_state set_confirm set_rand set_rand_enc_proc_state]. rewrite Hflag. unfold when. tsteps.
  split; [|done]. eapply stage_move; [exact Hs|wf|unmoved|done..].
Qed.
Lemma master_confirm w a b key : stage x peer HCI_ROLE_MASTER SMP_STATE_WAIT_CONFIRM key 0 (cb w) → octets 8 a → octets 8 b →
  rand_enc_proc_state (cb w) = SMP_GEN_SRAND_MRAND_CONT → take 8 (rand (cb w)) = a →
  twp (smp_rand_back (number b)) (λ _ w', stage x peer HCI_ROLE_MASTER SMP_STATE_CONFIRM key 1 (cb w') ∧
    rand (cb w') = a ++ b ∧ out w' = out w ++ [Sent peer (SMP_OPCODE_CONFIRM :: c1 x key (a ++ b)); StopTimer; StartTimer]) w.
Proof.
  intros Hs Ha Hb Ep Ea. apply (confirm_made w a b _ _ _ _ Hs Ha Hb Ep Ea). intros m c ->. generalize (c1 x key (a ++ b)). intros c Hc. facts Hs.
  pose proof (octets_app 8 8 _ _ Ha Hb : block (a ++ b)). unfold smp_sm_event. destruct (fuel_levels Hfuel) as [n ->].
  eapply twp_row; [cbn [cb role state set_confirm set_rand set_rand_enc_proc_state]; by rewrite Er, Es|done|].
  cbn [smp_sm_action]. unfold smp_send_confirm.
  eapply (twp_send Hav Hsend _ _ _ (SMP_OPCODE_CONFIRM :: c)); [done..|].
  intros m'. tsteps. cbn [pairing_bda set_state set_confirm set_rand set_rand_enc_proc_state]. rewrite Eb, <- !app_assoc.
  split; [|done]. eapply stage_move; [exact Hs|wf|unmoved|done|done|cbn; by rewrite Eu].
Qed.

(** The user of the master enters a passkey. *)
Lemma passkey_entered w k key : stage x peer HCI_ROLE_MASTER SMP_STATE_WAIT_APP_RSP key 0 (cb w) → drop 4 key = zeros 12 →
  cb_evt (cb w) = SMP_PASSKEY_REQ_EVT → selected_association_model (cb w) = SMP_MODEL_PASSKEY → is_Some (btm_find_dev peer) →
  0 ≤ k ≤ BTM_MAX_PASSKEY_VAL →
  twp (SMP_PasskeyReply peer SMP_SUCCESS k) (λ _ w', stage x peer HCI_ROLE_MASTER SMP_STATE_WAIT_CONFIRM (passkey_key k) 0 (cb w') ∧
    rand_enc_proc_state (cb w') = SMP_GEN_SRAND_MRAND ∧ out w' = out w ++ [RandRequested]) w.
Proof.
  intros Hs Hkey Eevt Em Hdev Hk. facts Hs. unfold SMP_PasskeyReply. tsteps. rewrite Eevt, Z.eqb_refl, Eb. unfold bda_eqb.
  rewrite (bool_decide_true (peer = peer)), (bool_decide_true (is_Some _)) by done. cbn [negb].
  rewrite (proj2 (Z.ltb_ge _ _)) by lia. cbn [orb negb]. rewrite Z.eqb_refl, Em. unfold eqb. rewrite bool_decide_false by done. cbn [negb].
  unfold smp_convert_string_to_tk. tsteps. rewrite Etk, Hkey, uint32_key by done.
  unfold smp_sm_event. destruct (fuel_levels Hfuel) as [n ->].
  eapply twp_row; [cbn [cb role state set_tk]; by rewrite Er, Es|done|]. cbn [smp_sm_action].
  unfold smp_generate_srand_mrand_confirm. tsteps. apply twp_request. intros j. tsteps. cbn [cb out].
  pose proof (passkey_key_block k). split; [|done]. eapply stage_move; [exact Hs|wf|unmoved|done..].
Qed.

(** A command has been transmitted; a slave that has failed is not called. *)
Lemma transmitted w : total_tx_unacked (cb w) = 1 →
  wait_for_authorization_complete (cb w) = false ∨ role (cb w) = HCI_ROLE_SLAVE ∧ state (cb w) = SMP_STATE_IDLE →
  twp (smp_tx_complete_callback 1) (λ _ w', w' = World (set_total_tx_unacked 0 (cb w)) (mem w) (calls w) (out w)) w.
Proof.
  intros Eu Hq. unfold smp_tx_complete_callback. tsteps. rewrite Eu. change (1 <=? 1) with true. unfold when. tsteps.
  cbn [wait_for_authorization_complete set_total_tx_unacked]. destruct Hq as [->|[Er Es]]; [by rewrite andb_false_r; tsteps|].
  destruct (_ && _); [|by tsteps]. unfold smp_sm_event. destruct (fuel_levels Hfuel) as [n ->].
  eapply twp_ignored; [cbn [cb role state set_total_tx_unacked]; by rewrite Er, Es|done].
Qed.

(** A confirm value comes in and is stored, and the second action of the row runs. *)
Lemma confirm_heard w c r st key a st' u (P : smp_cb → list effect → Prop) n : stage x peer r st key u (cb w) → block c → fuel = S n →
  sm_lookup r st SMP_CONFIRM_EVT = Ok (Some (SMP_PROC_CONFIRM, a, st')) → a ≠ SMP_SM_NO_ACTION →
  (∀ s m k, stage x peer r st' key u s → rand s = rand (cb w) → confirm s = confirm (cb w) → rconfirm s = c →
    twp (smp_sm_action (engine n).1 (engine n).2 a (D_bytes c)) (λ _ w', P (cb w') (out w')) (World s m k (out w ++ [StopTimer; StartTimer]))) →
  twp (smp_data_received peer (SMP_OPCODE_CONFIRM :: c)) (λ _ w', P (cb w') (out w')) w.
Proof.
  intros Hs [Hl Hb] En E Ha HQ. facts Hs. rewrite <- Eb. eapply frame_received; [done..|by rewrite Hl|]. rewrite Hl. unfold smp_sm_event. rewrite En.
  eapply twp_row; [cbn [cb role state set_rcvd_cmd_len set_rcvd_cmd_code]; rewrite Er, Es; exact E|done|].
  cbn [smp_sm_action]. unfold smp_proc_confirm, checked, take_array_if. tsteps. eapply (twp_lift false); [done|].
  cbv iota. tsteps. eapply twp_lift; [done|]. cbv beta. tsteps. eapply twp_lift.
  { apply (load_bytes_at c [] c []); [by rewrite app_nil_r|done|by rewrite Hl]. }
  cbv beta. tsteps. rewrite <- app_assoc. apply HQ; try done.
  assert (block c) by done. eapply stage_move; [exact Hs|unfold set_flag; wf|unmoved|done..].
Qed.
Lemma slave_hears w c key : stage x peer HCI_ROLE_SLAVE SMP_STATE_WAIT_CONFIRM key 0 (cb w) → block c →
  twp (smp_data_received peer (SMP_OPCODE_CONFIRM :: c)) (λ _ w', stage x peer HCI_ROLE_SLAVE SMP_STATE_CONFIRM key 1 (cb w') ∧
    rand (cb w') = rand (cb w) ∧ rconfirm (cb w') = c ∧
    out w' = out w ++ [StopTimer; StartTimer; Sent peer (SMP_OPCODE_CONFIRM :: confirm (cb w)); StopTimer; StartTimer]) w.
Proof.
  intros Hs Hc. destruct (fuel_levels Hfuel) as [n En].
  apply (confirm_heard w c _ _ key SMP_SEND_CONFIRM SMP_STATE_CONFIRM 0 (λ s o, stage x peer HCI_ROLE_SLAVE SMP_STATE_CONFIRM key 1 s ∧
    rand s = rand (cb w) ∧ rconfirm s = c ∧ o = out w ++ _) _ Hs Hc En); [done..|].
  intros s m k Hs' Erand Ec Erc. facts Hs'. cbn [smp_sm_action]. unfold smp_send_confirm.
  eapply (twp_send Hav Hsend _ _ _ (SMP_OPCODE_CONFIRM :: confirm s)); [done..|]. intros m'. cbv beta. cbn [cb out]. rewrite Eb, Ec, <- !app_assoc.
  split; [|done]. eapply stage_move; [exact Hs'|wf|unmoved|done|done|cbn; by rewrite Eu].
Qed.
Lemma master_hears w c key : stage x peer HCI_ROLE_MASTER SMP_STATE_CONFIRM key 0 (cb w) → block c →
  twp (smp_data_received peer (SMP_OPCODE_CONFIRM :: c)) (λ _ w', stage x peer HCI_ROLE_MASTER SMP_STATE_RAND key 1 (cb w') ∧
    rand (cb w') = rand (cb w) ∧ rconfirm (cb w') = c ∧
    out w' = out w ++ [StopTimer; StartTimer; Sent peer (SMP_OPCODE_RAND :: rand (cb w)); StopTimer; StartTimer]) w.
Proof.
  intros Hs Hc. destruct (fuel_levels Hfuel) as [n En].
  apply (confirm_heard w c _ _ key SMP_SEND_RAND SMP_STATE_RAND 0 (λ s o, stage x peer HCI_ROLE_MASTER SMP_STATE_RAND key 1 s ∧
    rand s = rand (cb w) ∧ rconfirm s = c ∧ o = out w ++ _) _ Hs Hc En); [done..|].
  intros s m k Hs' Erand Ec Erc. facts Hs'. cbn [smp_sm_action]. unfold smp_send_rand.
  eapply (twp_send Hav Hsend _ _ _ (SMP_OPCODE_RAND :: rand s)); [done..|]. intros m'. cbv beta. cbn [cb out]. rewrite Eb, Erand, <- !app_assoc.
  split; [|done]. eapply stage_move; [exact Hs'|wf|unmoved|done|done|cbn; by rewrite Eu].
Qed.

(** The slave compares. *)
Record slave_accepts (key r p : list Z) (u : Z) (s : smp_cb) : Prop := {
  acc_wf : cb_wf s; acc_role : role s = HCI_ROLE_SLAVE; acc_state : state s = SMP_STATE_ENCRYPTION_PENDING; acc_peer : pairing_bda s = peer;
  acc_legacy : le_secure_connections_mode_is_used s = false; acc_key : tk s = key; acc_rand : rand s = r; acc_rrand : rrand s = p;
  acc_size : loc_enc_size s = key_size x; acc_unacked : total_tx_unacked s = u; acc_wait : wait_for_authorization_complete s = false }.
Record slave_refuses (u : Z) (s : smp_cb) : Prop := {
  ref_role : role s = HCI_ROLE_SLAVE; ref_state : state s = SMP_STATE_IDLE; ref_peer : pairing_bda s = peer;
  ref_unacked : total_tx_unacked s = u }.
Lemma slave_decides w p key : stage x peer HCI_ROLE_SLAVE SMP_STATE_CONFIRM key 0 (cb w) → block p →
  twp (smp_data_received peer (SMP_OPCODE_RAND :: p)) (λ _ w',
    if bool_decide (rconfirm (cb w) = c1 x key p)
    then slave_accepts key (rand (cb w)) p 1 (cb w') ∧
      out w' = out w ++ [StopTimer; StartTimer; Sent peer (SMP_OPCODE_RAND :: rand (cb w)); StopTimer; StartTimer]
    else slave_refuses 1 (cb w') ∧
      out w' = out w ++ [StopTimer; StartTimer; Sent peer [SMP_OPCODE_PAIRING_FAILED; SMP_CONFIRM_VALUE_ERR]; StopTimer; StartTimer]) w.
Proof.
  intros Hs Hp. facts Hs. rewrite <- Eb at 1. apply random_received; [exact Hp|]. unfold smp_sm_event. destruct (fuel_levels Hfuel) as [n ->].
  apply random_compared; [done|cbn [cb]; wf|done|done|done|cbn; by rewrite Er, Es|cbn; by rewrite Er|]. intros m. cbv zeta. cbn [cb].
  rewrite confirm_value_received, (joins_confirm x peer), Etk by apply Hs. generalize (c1 x key p). intros c.
  unfold smp_proc_compare. tstep. eapply twp_lift; [done|]. cbv beta iota. tsteps.
  change (rconfirm (set_state _ _)) with (rconfirm (cb w)). case_bool_decide as Hc.
  - tsteps. rewrite settle_is by done. unfold is_slave, eqb. rewrite bool_decide_true by (cbn; done).
    eapply twp_row; [cbn; by rewrite Er|done|]. cbn [smp_sm_action]. unfold smp_send_rand.
    eapply (twp_send Hav Hsend _ _ _ (SMP_OPCODE_RAND :: rand (cb w))); [done..|]. intros m'. tsteps. cbn [out]. rewrite <- !app_assoc.
    split; [|cbn; by rewrite Eb]. constructor; cbn; try done; [wf|by rewrite Eu].
  - tsteps. unfold auth_cmpl. eapply (pairing_failed Hav Hsend); [done|cbn; by rewrite Eu|cbn; by rewrite Er|].
    intros m' k'. unfold failure_sent, failed. cbn [cb out]. rewrite <- !app_assoc. split; [|cbn; by rewrite Eb].
    constructor; cbn; try done. by rewrite Eu.
Qed.

(** The link asks the slave for the key. *)
Lemma slave_replies w key r p : slave_accepts key r p 0 (cb w) →
  twp (smp_proc_ltk_request peer) (λ _ w', state (cb w') = SMP_STATE_ENCRYPTION_PENDING ∧
    out w' = out w ++ [LtkReply peer (shorten (key_size x) (s1 key p r))]) w.
Proof.
  intros [Hw Er Es Eb Ele Ek Ern Erp Esz Eu Ewait]. unfold smp_proc_ltk_request. tsteps. rewrite Es, Eb. unfold bda_eqb, eqb.
  rewrite !bool_decide_true by done. cbn [orb andb]. tsteps. unfold smp_sm_event. destruct (fuel_levels Hfuel) as [n ->].
  eapply twp_row; [by rewrite Er, Es|done|]. cbn [smp_sm_action]. unfold smp_generate_stk. tsteps.
  cbn [le_secure_connections_mode_is_used set_state]. rewrite Ele. tsteps.
  eapply twp_crypto; [apply (gives_short_term_key (set_state SMP_STATE_ENCRYPTION_PENDING (cb w))); [done|wf]|]. intros m.
  assert (Est : short_term_key (set_state SMP_STATE_ENCRYPTION_PENDING (cb w)) = s1 key p r)
    by (unfold short_term_key, s1; cbn [role rand rrand tk set_state]; rewrite Er, Ek, Ern, Erp; reflexivity).
  assert (Hl : length (s1 key p r) = 16%nat).
  { pose proof (wf_tk _ Hw) as Hk. rewrite Ek in Hk. pose proof (wf_rand _ Hw) as [L1 B1]. pose proof (wf_rrand _ Hw) as [L2 B2].
    rewrite Ern in L1, B1. rewrite Erp in L2, B2. apply e_block; [done|].
    apply (octets_app 8 8); (split; [rewrite length_take; lia|by apply Forall_take]). }
  rewrite Est. revert Hl. generalize (s1 key p r). intros stk Hl. cbv iota. unfold smp_process_stk. tsteps. cbn [loc_enc_size set_state].
  rewrite Esz, mask_shorten by done. eapply twp_row; [cbn; by rewrite Er|done|]. cbn [smp_sm_action]. unfold smp_send_ltk_reply. tsteps.
  eapply twp_lift; [done|]. cbv beta iota. tsteps. split; [done|]. cbn. by rewrite Eb.
Qed.
Lemma slave_silent w : slave_refuses 0 (cb w) → twp (smp_proc_ltk_request peer) (λ _ w', w' = w) w.
Proof.
  intros [Er Es Eb Eu]. unfold smp_proc_ltk_request. tsteps. rewrite Es. unfold eqb. rewrite (bool_decide_false (SMP_STATE_IDLE = _)) by done.
  by rewrite andb_false_r.
Qed.

(** The master compares, and finds the numbers right; or it hears of the failure. *)
Lemma master_accepts w p key : stage x peer HCI_ROLE_MASTER SMP_STATE_RAND key 0 (cb w) → block p → rconfirm (cb w) = c1 x key p →
  (∀ n, btm_ble_start_encrypt n = BTM_CMD_STARTED) →
  twp (smp_data_received peer (SMP_OPCODE_RAND :: p)) (λ _ w', state (cb w') = SMP_STATE_ENCRYPTION_PENDING ∧
    out w' = out w ++ [StopTimer; StartTimer; StartedEncryption peer (Some (shorten (key_size x) (s1 key (rand (cb w)) p)))]) w.
Proof.
  intros Hs Hp Ec Hstart. facts Hs. rewrite <- Eb at 1. eapply twp_mono.
  { apply (random_outcome Hav Hsend Hfuel w p); [done|done|unfold awaits_random; by rewrite Er|lia|done|done]. }
  intros [] w'. rewrite (joins_confirm x peer), Etk, Ec by apply Hs. rewrite bool_decide_true by done. unfold accepts.
  assert (Est : short_term_key (set_rrand p (cb w)) = s1 key (rand (cb w)) p)
    by (unfold short_term_key, s1; cbn [role rand rrand tk set_rrand]; rewrite Er, Etk; reflexivity).
  rewrite Est. cbn [role set_rrand pairing_bda]. rewrite Er. intros (E1 & _ & _ & Eo). split; [done|].
  rewrite Eo, <- app_assoc. cbn [peer_enc_size loc_enc_size set_rrand]. rewrite Esize, Eb, mask_shorten; [done|].
  assert (block key) by (rewrite <- Etk; apply Hw). destruct Hp. pose proof (wf_rand _ Hw) as [].
  apply e_block; [done|]. apply (octets_app 8 8); (split; [rewrite length_take; lia|by apply Forall_take]).
Qed.
Lemma master_told w key reason : stage x peer HCI_ROLE_MASTER SMP_STATE_RAND key 0 (cb w) → reason ≠ SMP_SUCCESS →
  twp (smp_data_received peer [SMP_OPCODE_PAIRING_FAILED; reason]) (λ _ w', state (cb w') = SMP_STATE_IDLE ∧
    out w' = out w ++ [StopTimer; StartTimer; StopTimer; IdleTimeout peer; RemovedChannel peer;
      AppCallback SMP_COMPLT_EVT peer (CB_cmplt reason 0 false)]) w.
Proof.
  intros Hs Hr. facts Hs. rewrite <- Eb at 1. eapply frame_received; [done..|]. unfold smp_sm_event. destruct (fuel_levels Hfuel) as [n ->].
  eapply twp_row; [cbn; by rewrite Er, Es|done|]. cbn [smp_sm_action]. unfold smp_proc_pair_fail. tsteps. eapply twp_lift; [done|]. cbv beta.
  tsteps. unfold smp_pairing_cmpl. tsteps. cbn [total_tx_unacked set_status set_state set_rcvd_cmd_len set_rcvd_cmd_code]. rewrite Eu.
  unfold when at 1. cbn [Z.eqb]. unfold smp_proc_pairing_cmpl, smp_reset_control_value, smp_cb_cleanup. tsteps.
  rewrite bool_decide_false by (cbn; by rewrite Er). unfold when. tsteps.
  cbn [p_callback status pairing_bda is_pair_cancel set_flags set_status set_state set_rcvd_cmd_len set_rcvd_cmd_code].
  rewrite Ecall, Ecan, Eb, (proj2 (Z.eqb_neq reason SMP_SUCCESS)) by done. tsteps. split; [done|]. by rewrite <- !app_assoc.
Qed.

Lemma ltk_answered bda (P : world → Prop) w : twp (smp_proc_ltk_request bda) (λ _, P) w → twp (handle (In_ltk_request bda)) (λ _, P) w.
Proof. intros Hp. cbn [handle]. tstep. eapply twp_mono; [exact Hp|]. intros b w' Hw. by apply twp_ret. Qed.
Lemma handle_one i P w : twp (handle i) P w → twp (handle_all [i]) P w.
Proof. intros Hi. cbn [handle_all foldr]. tstep. eapply twp_mono; [exact Hi|]. by intros [] w' ?. Qed.

(** ** Up to the first confirm value, and after the transmission of a command *)

Record slave_ready (s : smp_cb) : Prop := {
  sr_stage : ∃ key, stage x peer HCI_ROLE_SLAVE SMP_STATE_PAIR_REQ_RSP key 0 s;
  sr_random : rand_enc_proc_state s = SMP_GEN_TK; sr_model : selected_association_model s = SMP_MODEL_KEY_NOTIF;
  sr_flags : has (flags s) SMP_PAIR_FLAGS_CMD_CONFIRM = false }.
Record master_ready (s : smp_cb) : Prop := {
  mr_stage : ∃ key, stage x peer HCI_ROLE_MASTER SMP_STATE_WAIT_APP_RSP key 0 s ∧ drop 4 key = zeros 12;
  mr_event : cb_evt s = SMP_PASSKEY_REQ_EVT; mr_model : selected_association_model s = SMP_MODEL_PASSKEY;
  mr_device : is_Some (btm_find_dev peer) }.

Lemma slave_prepares w r0 a b : let k := passkey_of r0 in slave_ready (cb w) → octets 8 r0 → octets 8 a → octets 8 b →
  twp (handle_all [In_rand (number r0); In_rand (number a); In_rand (number b)]) (λ _ w',
    stage x peer HCI_ROLE_SLAVE SMP_STATE_WAIT_CONFIRM (passkey_key k) 0 (cb w') ∧ rand (cb w') = a ++ b ∧
    confirm (cb w') = c1 x (passkey_key k) (a ++ b) ∧
    out w' = out w ++ [AppCallback SMP_PASSKEY_NOTIF_EVT peer (CB_passkey k); RandRequested; RandRequested]) w.
Proof.
  intros k [[key Hs] Ep Em Ef] Hr0 Ha Hb. cbn [handle_all foldr handle]. tstep. eapply twp_mono; [by eapply passkey_made|].
  intros [] w1 (Hs1 & Ep1 & Ef1 & Eo1). tstep. eapply twp_mono; [by eapply first_half|].
  intros [] w2 (Hs2 & Ep2 & Ef2 & Er2 & Eo2). tstep. eapply twp_mono; [apply (slave_confirm w2 a b); [done..|congruence]|].
  intros [] w3 (Hs3 & Er3 & Ec3 & Eo3). tsteps. split_and!; [exact Hs3|exact Er3|exact Ec3|].
  by rewrite Eo3, Eo2, Eo1, <- app_assoc.
Qed.
Lemma master_prepares w k a b : master_ready (cb w) → 0 ≤ k ≤ BTM_MAX_PASSKEY_VAL → octets 8 a → octets 8 b →
  twp (handle_all [In_PasskeyReply peer SMP_SUCCESS k; In_rand (number a); In_rand (number b)]) (λ _ w',
    stage x peer HCI_ROLE_MASTER SMP_STATE_CONFIRM (passkey_key k) 1 (cb w') ∧ rand (cb w') = a ++ b ∧
    out w' = out w ++ [RandRequested; RandRequested; Sent peer (SMP_OPCODE_CONFIRM :: c1 x (passkey_key k) (a ++ b)); StopTimer; StartTimer]) w.
Proof.
  intros [(key & Hs & Hkey) Ee Em Hd] Hk Ha Hb. cbn [handle_all foldr handle]. tstep. eapply twp_mono; [by eapply passkey_entered|].
  intros [] w1 (Hs1 & Ep1 & Eo1). tstep. eapply twp_mono; [by eapply first_half|].
  intros [] w2 (Hs2 & Ep2 & _ & Er2 & Eo2). tstep. eapply twp_mono; [by apply (master_confirm w2 a b)|].
  intros [] w3 (Hs3 & Er3 & Eo3). tsteps. split_and!; [exact Hs3|exact Er3|].
  by rewrite Eo3, Eo2, Eo1, <- !app_assoc.
Qed.
(** The same control block with nothing left to transmit. *)
Definition clear_unacked (w : world) : world := World (set_total_tx_unacked 0 (cb w)) (mem w) (calls w) (out w).
Lemma stage_transmitted w r st key : stage x peer r st key 1 (cb w) →
  twp (handle_all [In_tx_complete 1]) (λ _ w', w' = clear_unacked w) w ∧ stage x peer r st key 0 (cb (clear_unacked w)).
Proof.
  intros Hs. facts Hs. split.
  - cbn [handle_all foldr handle]. tstep. eapply twp_mono; [apply transmitted; [done|by left]|]. by intros [] w' ->.
  - eapply stage_move; [exact Hs|unfold clear_unacked; cbn [cb]; wf|unmoved|done..].
Qed.
Lemma accepts_transmitted w key r p : slave_accepts key r p 1 (cb w) →
  twp (handle_all [In_tx_complete 1]) (λ _ w', w' = clear_unacked w) w ∧ slave_accepts key r p 0 (cb (clear_unacked w)).
Proof.
  intros []. split.
  - cbn [handle_all foldr handle]. tstep. eapply twp_mono; [apply transmitted; [done|by left]|]. by intros [] w' ->.
  - constructor; cbn; try done. wf.
Qed.
Lemma refuses_transmitted w : slave_refuses 1 (cb w) →
  twp (handle_all [In_tx_complete 1]) (λ _ w', w' = clear_unacked w) w ∧ slave_refuses 0 (cb (clear_unacked w)).
Proof.
  intros []. split.
  - cbn [handle_all foldr handle]. tstep. eapply twp_mono; [apply transmitted; [done|by right]|]. by intros [] w' ->.
  - by constructor.
Qed.
End Steps.

(** ** The two devices on a link

    The link carries the commands of each side to the other in the order in which
    they were sent, and reports to the sender that a command has been transmitted
    before the other side gets it. *)

Record talk := { at_m : world; at_s : world; for_slave : list (list Z); for_master : list (list Z) }.

(** The commands sent since [w]. *)
Definition new_commands (w w' : world) : list (list Z) := drop (length (sent w)) (sent w').
Lemma new_commands_out w w' l : out w' = out w ++ l → new_commands w w' = omap (λ e, match e with Sent _ d => Some d | _ => None end) l.
Proof. intros E. unfold new_commands, sent. by rewrite E, omap_app, drop_app_length. Qed.

Section Link.
Context (Hm Hs : Host) `{Fuel}.
(** The addresses of the master and the slave on the link. *)
Context (ma sa : list Z).

Definition master_gets (l : list input) : M talk () := λ t,
  match handle_all (H := Hm) l (at_m t) with
  | Ok (_, w) => Ok ((), {| at_m := w; at_s := at_s t; for_slave := for_slave t ++ new_commands (at_m t) w; for_master := for_master t |})
  | Fault f => Fault f
  end.
Definition slave_gets (l : list input) : M talk () := λ t,
  match handle_all (H := Hs) l (at_s t) with
  | Ok (_, w) => Ok ((), {| at_m := at_m t; at_s := w; for_slave := for_slave t; for_master := for_master t ++ new_commands (at_s t) w |})
  | Fault f => Fault f
  end.
(** Until nothing is left to carry; [n] commands at most. *)
Fixpoint carry (n : nat) : M talk () :=
  t ← gets id;
  match for_slave t, for_master t, n with
  | [], [], _ => mret ()
  | _, _, O => fail OutOfFuel
  | c :: l, _, S n =>
      modify (λ t, {| at_m := at_m t; at_s := at_s t; for_slave := l; for_master := for_master t |});;
      master_gets [In_tx_complete 1];; slave_gets [In_data ma c];; carry n
  | [], c :: l, S n =>
      modify (λ t, {| at_m := at_m t; at_s := at_s t; for_slave := for_slave t; for_master := l |});;
      slave_gets [In_tx_complete 1];; master_gets [In_data sa c];; carry n
  end.

(** The slave gets the random numbers [r0] for the passkey and [sr1], [sr2] for its
    own; the user of the master enters [entered], and the master gets its random
    numbers [mr1] and [mr2].  Then the commands go back and forth, and at last the
    link asks the slave for a key. *)
Definition passkey_entry (r0 sr1 sr2 mr1 mr2 : list Z) (entered : Z) : M talk () :=
  slave_gets [In_rand (number r0); In_rand (number sr1); In_rand (number sr2)];;
  master_gets [In_PasskeyReply sa SMP_SUCCESS entered; In_rand (number mr1); In_rand (number mr2)];;
  carry 4;;
  slave_gets [In_ltk_request ma].

Lemma twp_master_gets l P Q t : twp (handle_all (H := Hm) l) P (at_m t) →
  (∀ w, P () w → Q () {| at_m := w; at_s := at_s t; for_slave := for_slave t ++ new_commands (at_m t) w; for_master := for_master t |}) →
  twp (master_gets l) Q t.
Proof. unfold twp, master_gets. destruct (handle_all _ _) as [[[] w]|]; auto. Qed.
Lemma twp_slave_gets l P Q t : twp (handle_all (H := Hs) l) P (at_s t) →
  (∀ w, P () w → Q () {| at_m := at_m t; at_s := w; for_slave := for_slave t; for_master := for_master t ++ new_commands (at_s t) w |}) →
  twp (slave_gets l) Q t.
Proof. unfold twp, slave_gets. destruct (handle_all _ _) as [[[] w]|]; auto. Qed.
Lemma twp_carry_to_slave c l n m s fm Q :
  twp (master_gets [In_tx_complete 1];; slave_gets [In_data ma c];; carry n) Q {| at_m := m; at_s := s; for_slave := l; for_master := fm |} →
  twp (carry (S n)) Q {| at_m := m; at_s := s; for_slave := c :: l; for_master := fm |}.
Proof. exact (λ H, H). Qed.
Lemma twp_carry_to_master c l n m s Q :
  twp (slave_gets [In_tx_complete 1];; master_gets [In_data sa c];; carry n) Q {| at_m := m; at_s := s; for_slave := []; for_master := l |} →
  twp (carry (S n)) Q {| at_m := m; at_s := s; for_slave := []; for_master := c :: l |}.
Proof. exact (λ H, H). Qed.
Lemma twp_carry_done n m s Q :
  Q () {| at_m := m; at_s := s; for_slave := []; for_master := [] |} →
  twp (carry n) Q {| at_m := m; at_s := s; for_slave := []; for_master := [] |}.
Proof. by destruct n. Qed.
End Link.

(** The keys that a side has given to the link. *)
Definition keys_made (w : world) : list (list Z) :=
  omap (λ e, match e with StartedEncryption _ k => k | LtkReply _ k => Some k | _ => None end) (out w).
(** The application has not been called, and no key has been made, since [w]. *)
Definition quiet (w w' : world) : Prop := told w' = told w ∧ keys_made w' = keys_made w.
Lemma quiet_trans w1 w2 w3 : quiet w1 w2 → quiet w2 w3 → quiet w1 w3.
Proof. intros [? ?] [? ?]. split; congruence. Qed.
Lemma told_out w w' l : out w' = out w ++ l →
  told w' = told w ++ omap (λ e, match e with AppCallback evt _ d => Some (evt, d) | _ => None end) l.
Proof. intros E. unfold told. by rewrite E, omap_app. Qed.
Lemma made_out w w' l : out w' = out w ++ l →
  keys_made w' = keys_made w ++ omap (λ e, match e with StartedEncryption _ k => k | LtkReply _ k => Some k | _ => None end) l.
Proof. intros E. unfold keys_made. by rewrite E, omap_app. Qed.
Lemma quiet_out w w' l : out w' = out w ++ l →
  omap (λ e, match e with AppCallback evt _ d => Some (evt, d) | _ => None end) l = [] →
  omap (λ e, match e with StartedEncryption _ k => k | LtkReply _ k => Some k | _ => None end) l = [] → quiet w w'.
Proof. intros E E1 E2. split; [by rewrite (told_out _ _ _ E), E1, app_nil_r|by rewrite (made_out _ _ _ E), E2, app_nil_r]. Qed.

(** Surroundings in which nothing is refused. *)
Record obliging (h : Host) : Prop := {
  all_available : ∀ n, available n = true; all_sent : ∀ n, L2CA_SendFixedChnlData n = true;
  all_random : ∀ n, btsnd_hcic_ble_rand n = true; all_started : ∀ n, btm_ble_start_encrypt n = BTM_CMD_STARTED }.

Section Conversation.
Context (Hm Hs : Host) (Tm : HostTypes (H := Hm)) (Ts : HostTypes (H := Hs)) (Om : obliging Hm) (Os : obliging Hs).
Context `{Fuel} (Hfuel : (engine_depth ≤ fuel)%nat) (x : exchange) (ma sa : list Z).
Abbreviation master_at := (stage (H := Hm) x sa HCI_ROLE_MASTER).
Abbreviation slave_at := (stage (H := Hs) x ma HCI_ROLE_SLAVE).
Abbreviation carry := (carry Hm Hs ma sa).
Implicit Types m s : world.

(** The confirm values are exchanged, and the master has sent its random number. *)
Lemma confirms_exchanged n m s km ks c Q : master_at SMP_STATE_CONFIRM km 1 (cb m) → slave_at SMP_STATE_WAIT_CONFIRM ks 0 (cb s) →
  block c → block (confirm (cb s)) →
  (∀ m' s', master_at SMP_STATE_RAND km 1 (cb m') → rand (cb m') = rand (cb m) → rconfirm (cb m') = confirm (cb s) → quiet m m' →
    slave_at SMP_STATE_CONFIRM ks 0 (cb s') → rand (cb s') = rand (cb s) → rconfirm (cb s') = c → quiet s s' →
    twp (carry n) Q {| at_m := m'; at_s := s'; for_slave := [SMP_OPCODE_RAND :: rand (cb m)]; for_master := [] |}) →
  twp (carry (S (S n))) Q {| at_m := m; at_s := s; for_slave := [SMP_OPCODE_CONFIRM :: c]; for_master := [] |}.
Proof.
  intros Sm Ss Hc Hcs HQ. destruct Om as [Ma Ms _ _], Os as [Sa Ssent _ _].
  destruct (stage_transmitted Hfuel x sa m _ _ _ Sm) as [Rm Sm1].
  apply twp_carry_to_slave. apply twp_bind. eapply twp_master_gets; [exact Rm|]. intros m1 ->. cbn [at_m at_s for_slave for_master].
  rewrite (new_commands_out m (clear_unacked m) []) by (by rewrite app_nil_r). cbn [omap list_omap app].
  apply twp_bind. eapply twp_slave_gets.
  { exact (handle_one (In_data ma _) _ _ (slave_hears Sa Ssent Hfuel x ma s c ks Ss Hc)). }
  intros s1 (Ss1 & Er1 & Ec1 & Eo1). cbn [at_m at_s for_slave for_master].
  rewrite (new_commands_out s s1 _ Eo1). cbn [omap list_omap app].
  destruct (stage_transmitted Hfuel x ma s1 _ _ _ Ss1) as [Rs Ss2].
  apply twp_carry_to_master. apply twp_bind. eapply twp_slave_gets; [exact Rs|]. intros s2 ->. cbn [at_m at_s for_slave for_master].
  rewrite (new_commands_out s1 (clear_unacked s1) []) by (by rewrite app_nil_r). cbn [omap list_omap app].
  apply twp_bind. eapply twp_master_gets.
  { exact (handle_one (In_data sa _) _ _ (master_hears Ma Ms Hfuel x sa (clear_unacked m) _ km Sm1 Hcs)). }
  intros m2 (Sm2 & Er2 & Ec2 & Eo2). cbn [at_m at_s for_slave for_master].
  rewrite (new_commands_out (clear_unacked m) m2 _ Eo2). cbn [omap list_omap app].
  apply HQ; [exact Sm2|exact Er2|exact Ec2| |exact Ss2|exact Er1|exact Ec1|].
  - by apply (quiet_out m m2 _ Eo2).
  - by apply (quiet_out s (clear_unacked s1) _ Eo1).
Qed.

Lemma stage_rand `{Host} y peer r st key u w : stage y peer r st key u (cb w) → block (rand (cb w)).
Proof. intros S. facts S. apply Hw. Qed.

(** The random numbers are exchanged, and both sides find them right. *)
Lemma numbers_right m s km ks Q : let ra := rand (cb m) in let rb := rand (cb s) in
  master_at SMP_STATE_RAND km 1 (cb m) → slave_at SMP_STATE_CONFIRM ks 0 (cb s) →
  rconfirm (cb s) = c1 x ks ra → rconfirm (cb m) = c1 x km rb →
  (∀ m' s', state (cb m') = SMP_STATE_ENCRYPTION_PENDING → told m' = told m → keys_made m' = keys_made m ++ [shorten (key_size x) (s1 km ra rb)] →
    slave_accepts x ma ks rb ra 0 (cb s') → quiet s s' → Q () {| at_m := m'; at_s := s'; for_slave := []; for_master := [] |}) →
  twp (carry 2) Q {| at_m := m; at_s := s; for_slave := [SMP_OPCODE_RAND :: ra]; for_master := [] |}.
Proof.
  intros ra rb Sm Ss Es Em HQ. destruct Om as [Ma Ms _ Mstart], Os as [Sa Ssent _ _].
  destruct (stage_transmitted Hfuel x sa m _ _ _ Sm) as [Rm Sm1].
  apply twp_carry_to_slave. apply twp_bind. eapply twp_master_gets; [exact Rm|]. intros m1 ->. cbn [at_m at_s for_slave for_master].
  rewrite (new_commands_out m (clear_unacked m) []) by (by rewrite app_nil_r). cbn [omap list_omap app].
  apply twp_bind. eapply twp_slave_gets.
  { exact (handle_one (In_data ma _) _ _ (slave_decides Sa Ssent Hfuel x ma s ra ks Ss (stage_rand _ _ _ _ _ _ _ Sm))). }
  intros s1. rewrite bool_decide_true by exact Es. intros (As1 & Eo1). cbn [at_m at_s for_slave for_master].
  rewrite (new_commands_out s s1 _ Eo1). cbn [omap list_omap app].
  destruct (accepts_transmitted Hfuel x ma s1 _ _ _ As1) as [Rs As2].
  apply twp_carry_to_master. apply twp_bind. eapply twp_slave_gets; [exact Rs|]. intros s2 ->. cbn [at_m at_s for_slave for_master].
  rewrite (new_commands_out s1 (clear_unacked s1) []) by (by rewrite app_nil_r). cbn [omap list_omap app].
  apply twp_bind. eapply twp_master_gets.
  { exact (handle_one (In_data sa _) _ _ (master_accepts Ma Ms Hfuel x sa (clear_unacked m) rb km Sm1 (stage_rand _ _ _ _ _ _ _ Ss) Em Mstart)). }
  intros m2 (E2 & Eo2). cbn [at_m at_s for_slave for_master]. rewrite (new_commands_out (clear_unacked m) m2 _ Eo2). cbn [omap list_omap app].
  apply twp_carry_done. apply HQ; [exact E2| | |exact As2|by apply (quiet_out s (clear_unacked s1) _ Eo1)].
  - rewrite (told_out m m2 _ Eo2). cbn [omap list_omap]. by rewrite app_nil_r.
  - rewrite (made_out m m2 _ Eo2). reflexivity.
Qed.
(** The slave finds the number wrong. *)
Lemma number_wrong m s km ks Q : let ra := rand (cb m) in
  master_at SMP_STATE_RAND km 1 (cb m) → slave_at SMP_STATE_CONFIRM ks 0 (cb s) → rconfirm (cb s) ≠ c1 x ks ra →
  (∀ m' s', state (cb m') = SMP_STATE_IDLE → told m' = told m ++ [(SMP_COMPLT_EVT, CB_cmplt SMP_CONFIRM_VALUE_ERR 0 false)] →
    keys_made m' = keys_made m → slave_refuses ma 0 (cb s') → quiet s s' →
    last (sent s') = Some [SMP_OPCODE_PAIRING_FAILED; SMP_CONFIRM_VALUE_ERR] →
    Q () {| at_m := m'; at_s := s'; for_slave := []; for_master := [] |}) →
  twp (carry 2) Q {| at_m := m; at_s := s; for_slave := [SMP_OPCODE_RAND :: ra]; for_master := [] |}.
Proof.
  intros ra Sm Ss Es HQ. destruct Om as [Ma Ms _ _], Os as [Sa Ssent _ _].
  destruct (stage_transmitted Hfuel x sa m _ _ _ Sm) as [Rm Sm1].
  apply twp_carry_to_slave. apply twp_bind. eapply twp_master_gets; [exact Rm|]. intros m1 ->. cbn [at_m at_s for_slave for_master].
  rewrite (new_commands_out m (clear_unacked m) []) by (by rewrite app_nil_r). cbn [omap list_omap app].
  apply twp_bind. eapply twp_slave_gets.
  { exact (handle_one (In_data ma _) _ _ (slave_decides Sa Ssent Hfuel x ma s ra ks Ss (stage_rand _ _ _ _ _ _ _ Sm))). }
  intros s1. rewrite bool_decide_false by exact Es. intros (As1 & Eo1). cbn [at_m at_s for_slave for_master].
  rewrite (new_commands_out s s1 _ Eo1). cbn [omap list_omap app].
  destruct (refuses_transmitted Hfuel ma s1 As1) as [Rs As2].
  apply twp_carry_to_master. apply twp_bind. eapply twp_slave_gets; [exact Rs|]. intros s2 ->. cbn [at_m at_s for_slave for_master].
  rewrite (new_commands_out s1 (clear_unacked s1) []) by (by rewrite app_nil_r). cbn [omap list_omap app].
  apply twp_bind. eapply twp_master_gets.
  { exact (handle_one (H := Hm) (In_data sa [SMP_OPCODE_PAIRING_FAILED; SMP_CONFIRM_VALUE_ERR]) _ _ (master_told Hfuel x sa (clear_unacked m) km SMP_CONFIRM_VALUE_ERR Sm1 ltac:(discriminate))). }
  intros m2 (E2 & Eo2). cbn [at_m at_s for_slave for_master]. rewrite (new_commands_out (clear_unacked m) m2 _ Eo2). cbn [omap list_omap app].
  apply twp_carry_done. apply HQ; [exact E2|by rewrite (told_out m m2 _ Eo2)| |exact As2|by apply (quiet_out s (clear_unacked s1) _ Eo1)|].
  - rewrite (made_out m m2 _ Eo2). cbn [omap list_omap]. by rewrite app_nil_r.
  - unfold sent. cbn [out clear_unacked]. rewrite Eo1, omap_app. cbn [omap list_omap]. apply last_snoc.
Qed.

(** The confirm values and the master's number are on their way. *)
Lemma both_prepared m s r0 sr1 sr2 mr1 mr2 entered Q : let shown := passkey_of r0 in
  let mr := mr1 ++ mr2 in let sr := sr1 ++ sr2 in
  master_ready (H := Hm) x sa (cb m) → slave_ready (H := Hs) x ma (cb s) → Forall (octets 8) [r0; sr1; sr2; mr1; mr2] →
  0 ≤ entered ≤ BTM_MAX_PASSKEY_VAL →
  (∀ m' s', master_at SMP_STATE_RAND (passkey_key entered) 1 (cb m') → rand (cb m') = mr →
    rconfirm (cb m') = c1 x (passkey_key shown) sr → quiet m m' →
    slave_at SMP_STATE_CONFIRM (passkey_key shown) 0 (cb s') → rand (cb s') = sr →
    rconfirm (cb s') = c1 x (passkey_key entered) mr →
    told s' = told s ++ [(SMP_PASSKEY_NOTIF_EVT, CB_passkey shown)] → keys_made s' = keys_made s →
    twp (carry 2) (λ _, twp (slave_gets Hs [In_ltk_request ma]) Q) {| at_m := m'; at_s := s'; for_slave := [SMP_OPCODE_RAND :: mr]; for_master := [] |}) →
  twp (passkey_entry Hm Hs ma sa r0 sr1 sr2 mr1 mr2 entered) Q {| at_m := m; at_s := s; for_slave := []; for_master := [] |}.
Proof.
  intros shown mr sr Rm Rs Hoct Hk HQ. pose proof Om as [Ma Ms Mr _]. pose proof Os as [Sa _ Sr _].
  rewrite !Forall_cons in Hoct. destruct Hoct as (O0 & O1 & O2 & O3 & O4 & _). unfold passkey_entry.
  apply twp_bind. eapply twp_slave_gets; [exact (slave_prepares Sa Sr Hfuel x ma s r0 sr1 sr2 Rs O0 O1 O2)|].
  intros s1 (Ss & Er1 & Ec1 & Eo1). cbn [at_m at_s for_slave for_master]. rewrite (new_commands_out s s1 _ Eo1). cbn [omap list_omap app].
  apply twp_bind. eapply twp_master_gets; [exact (master_prepares Ma Ms Mr Hfuel x sa m entered mr1 mr2 Rm Hk O3 O4)|].
  intros m1 (Sm & Em1 & Eo2). cbn [at_m at_s for_slave for_master]. rewrite (new_commands_out m m1 _ Eo2). cbn [omap list_omap app].
  apply twp_bind, confirms_exchanged with (passkey_key entered) (passkey_key shown); [exact Sm|exact Ss|..].
  { exact (c1_block (H := Hm) (H0 := Tm) x sa _ _ _ (stage_joins _ _ _ _ _ _ _ Sm) (passkey_key_block _) (octets_app 8 8 _ _ O3 O4)). }
  { facts Ss. apply Hw. }
  intros m2 s2 Sm2 Em2 Ecm Qm Ss2 Es2 Ecs Qs. rewrite Em1. apply HQ; [exact Sm2|exact (eq_trans Em2 Em1)|exact (eq_trans Ecm Ec1)| |exact Ss2|exact (eq_trans Es2 Er1)|exact Ecs| |].
  - eapply quiet_trans; [by apply (quiet_out m m1 _ Eo2)|exact Qm].
  - destruct Qs as [-> _]. by rewrite (told_out s s1 _ Eo1).
  - destruct Qs as [_ ->]. rewrite (made_out s s1 _ Eo1). cbn [omap list_omap]. by rewrite app_nil_r.
Qed.

(** [C22] Passkey entry pairs two devices when the passkey is entered right, and makes
    no key when the confirm values differ: a slave that has answered a pairing request and makes a passkey of a random number
    [r0], and a master whose user is asked for one, well typed and with any
    addresses, features, capabilities and random numbers, in surroundings that
    refuse nothing, on a link that carries their commands.  The slave shows its
    application the passkey that belongs to [r0].

    If the user enters it, both sides end in ENCRYPTION_PENDING, the master has
    started the encryption with a key, and the slave answers the link with the same
    key: s1 of the specification, of the temporary key of the passkey and of both
    random numbers, in the size that was agreed.

    If the user enters a number for which the confirm value function c1 of the
    specification gives another confirm value, neither side makes a key: the slave
    has answered that the confirm value failed, both are idle, and the master has
    told its application of that failure.  Any other number than the passkey has
    another temporary key, with all its bits in it. *)
Theorem passkey_entry_decides m s r0 sr1 sr2 mr1 mr2 entered : let shown := passkey_of r0 in let mr := mr1 ++ mr2 in let sr := sr1 ++ sr2 in
  let run := passkey_entry Hm Hs ma sa r0 sr1 sr2 mr1 mr2 entered in
  let start := {| at_m := m; at_s := s; for_slave := []; for_master := [] |} in
  master_ready (H := Hm) x sa (cb m) → slave_ready (H := Hs) x ma (cb s) → Forall (octets 8) [r0; sr1; sr2; mr1; mr2] →
  0 ≤ entered ≤ BTM_MAX_PASSKEY_VAL →
  (entered = shown → twp run (λ _ t, let key := shorten (key_size x) (s1 (passkey_key shown) mr sr) in
    state (cb (at_m t)) = SMP_STATE_ENCRYPTION_PENDING ∧ state (cb (at_s t)) = SMP_STATE_ENCRYPTION_PENDING ∧
    told (at_m t) = told m ∧ told (at_s t) = told s ++ [(SMP_PASSKEY_NOTIF_EVT, CB_passkey shown)] ∧
    keys_made (at_m t) = keys_made m ++ [key] ∧ keys_made (at_s t) = keys_made s ++ [key]) start) ∧
  (c1 x (passkey_key entered) mr ≠ c1 x (passkey_key shown) mr → twp run (λ _ t,
    state (cb (at_m t)) = SMP_STATE_IDLE ∧ state (cb (at_s t)) = SMP_STATE_IDLE ∧
    told (at_m t) = told m ++ [(SMP_COMPLT_EVT, CB_cmplt SMP_CONFIRM_VALUE_ERR 0 false)] ∧
    told (at_s t) = told s ++ [(SMP_PASSKEY_NOTIF_EVT, CB_passkey shown)] ∧
    keys_made (at_m t) = keys_made m ∧ keys_made (at_s t) = keys_made s ∧
    last (sent (at_s t)) = Some [SMP_OPCODE_PAIRING_FAILED; SMP_CONFIRM_VALUE_ERR]) start) ∧
  (entered ≠ shown → passkey_key entered ≠ passkey_key shown).
Proof.
  intros shown mr sr run start Rm Rs Hoct Hk. split_and!.
  - intros Ek. apply both_prepared; [exact Rm|exact Rs|exact Hoct|exact Hk|]. rewrite Ek. fold shown mr sr.
    intros m1 s1 Sm Em Ecm Qm Ss Es Ecs Ts1 Ks. rewrite <- Em. rewrite <- Em in Ecs. rewrite <- Es in Ecm.
    apply (numbers_right m1 s1 (passkey_key shown) (passkey_key shown)); [exact Sm|exact Ss|exact Ecs|exact Ecm|].
    intros m2 s2 E2 T2 K2 As Qs. eapply twp_slave_gets.
    { exact (handle_one (H := Hs) (In_ltk_request ma) _ _ (ltk_answered (H := Hs) ma _ _ (slave_replies (all_available _ Os) Hfuel x ma s2 _ _ _ As))). }
    intros s3 (E3 & Eo3). cbn [at_m at_s]. destruct Qm as [Tm1 Km1], Qs as [Ts2 Ks2]. split_and!; [exact E2|exact E3|congruence| | |].
    + rewrite (told_out s2 s3 _ Eo3). cbn [omap list_omap]. by rewrite app_nil_r, Ts2.
    + rewrite K2, Km1, Em, Es. reflexivity.
    + rewrite (made_out s2 s3 _ Eo3), Ks2, Ks, Em, Es. reflexivity.
  - intros Hc. apply both_prepared; [exact Rm|exact Rs|exact Hoct|exact Hk|]. fold shown mr sr.
    intros m1 s1 Sm Em Ecm Qm Ss Es Ecs Ts1 Ks. rewrite <- Em.
    apply (number_wrong m1 s1 (passkey_key entered) (passkey_key shown)); [exact Sm|exact Ss|by rewrite Ecs, Em|].
    intros m2 s2 E2 T2 K2 As Qs Hlast. eapply twp_slave_gets.
    { exact (handle_one (H := Hs) (In_ltk_request ma) _ _ (ltk_answered (H := Hs) ma _ _ (slave_silent ma s2 As))). }
    intros s3 ->. cbn [at_m at_s]. destruct Qm as [Tm1 Km1], Qs as [Ts2 Ks2], As as [_ Es2 _ _].
    split_and!; [exact E2|exact Es2|congruence|congruence|congruence|congruence|exact Hlast].
  - intros Hne E. by apply Hne, passkey_key_inj; [lia|apply passkey_of_range|].
Qed.
End Conversation.

(** ** Two concrete devices *)

(** A slave with a display and a master with a keyboard that both wish protection,
    when the features are exchanged and transmitted. *)
Definition protected (io : Z) : tSMP_IO_REQ := capabilities io (SMP_AUTH_BOND + SMP_AUTH_YN_BIT).
Definition keyboard_host : Host := lab HCI_ROLE_MASTER (protected 2).
Definition display_host : Host := lab HCI_ROLE_SLAVE (protected 0).
Definition lab_exchange : exchange := {|
  pairing_request := [SMP_OPCODE_PAIRING_REQ; 2; 0; 5; 16; 3; 3]; pairing_response := [SMP_OPCODE_PAIRING_RSP; 0; 0; 5; 16; 3; 3];
  of_master := (master_address, 0); of_slave := (slave_address, 0); key_size := 16 |}.
Definition after (h : Host) (l : list input) : world :=
  match handle_all (H := h) (H0 := engine_depth) l (started registered) with Ok (_, w) => w | Fault _ => started registered end.
Definition keyboard_master : world := after keyboard_host
  [In_Pair slave_address; In_connect slave_address true; In_tx_complete 1; In_data slave_address (pairing_response lab_exchange)].
Definition display_slave : world := after display_host
  [In_data master_address (pairing_request lab_exchange); In_SecurityGrant master_address SMP_SUCCESS; In_tx_complete 1].

Lemma keyboard_master_ready : master_ready (H := keyboard_host) lab_exchange slave_address (cb keyboard_master).
Proof.
  constructor; [exists (zeros 16); split; [|by vm_compute]|by vm_compute..|by exists slave_address].
  constructor; [|by vm_compute..]. constructor; try by vm_compute. constructor; try (by decide_vm); split; by decide_vm.
Qed.
Lemma display_slave_ready : slave_ready (H := display_host) lab_exchange master_address (cb display_slave).
Proof.
  constructor; [exists (zeros 16)|by vm_compute..].
  constructor; [|by vm_compute..]. constructor; try by vm_compute. constructor; try (by decide_vm); split; by decide_vm.
Qed.

(** The slave shows 123456; 123456 and 857152, which has the same low byte, are entered. *)
Definition lab_number (n : Z) : list Z := [64; 226; 1; n; n + 1; n + 2; n + 3; n + 4].
Lemma passkey_entry_decides_witness :
  passkey_of (lab_number 0) = 123456 ∧
  (let run k := passkey_entry (H := engine_depth) keyboard_host display_host master_address slave_address
      (lab_number 0) (lab_number 10) (lab_number 20) (lab_number 30) (lab_number 40) k in
   let start := {| at_m := keyboard_master; at_s := display_slave; for_slave := []; for_master := [] |} in
   twp (run 123456) (λ _ t, let key := shorten 16 (s1 (passkey_key 123456) (lab_number 30 ++ lab_number 40) (lab_number 10 ++ lab_number 20)) in
     state (cb (at_m t)) = SMP_STATE_ENCRYPTION_PENDING ∧ state (cb (at_s t)) = SMP_STATE_ENCRYPTION_PENDING ∧
     told (at_m t) = told keyboard_master ∧ told (at_s t) = told display_slave ++ [(SMP_PASSKEY_NOTIF_EVT, CB_passkey 123456)] ∧
     keys_made (at_m t) = keys_made keyboard_master ++ [key] ∧ keys_made (at_s t) = keys_made display_slave ++ [key]) start ∧
   twp (run 857152) (λ _ t,
     state (cb (at_m t)) = SMP_STATE_IDLE ∧ state (cb (at_s t)) = SMP_STATE_IDLE ∧
     told (at_m t) = told keyboard_master ++ [(SMP_COMPLT_EVT, CB_cmplt SMP_CONFIRM_VALUE_ERR 0 false)] ∧
     told (at_s t) = told display_slave ++ [(SMP_PASSKEY_NOTIF_EVT, CB_passkey 123456)] ∧
     keys_made (at_m t) = keys_made keyboard_master ∧ keys_made (at_s t) = keys_made display_slave ∧
     last (sent (at_s t)) = Some [SMP_OPCODE_PAIRING_FAILED; SMP_CONFIRM_VALUE_ERR]) start).
Proof.
  assert (Tm : HostTypes (H := keyboard_host)) by (apply lab_types, capabilities_wf; by decide_vm).
  assert (Ts : HostTypes (H := display_host)) by (apply lab_types, capabilities_wf; by decide_vm).
  assert (Om : obliging keyboard_host) by by split. assert (Os : obliging display_host) by by split.
  assert (Hoct : Forall (octets 8) [lab_number 0; lab_number 10; lab_number 20; lab_number 30; lab_number 40]) by by decide_vm.
  assert (E : passkey_of (lab_number 0) = 123456) by by vm_compute.
  pose proof (λ k, passkey_entry_decides keyboard_host display_host Tm Ts Om Os (H := engine_depth) (le_n engine_depth) lab_exchange
    master_address slave_address keyboard_master display_slave (lab_number 0) (lab_number 10) (lab_number 20) (lab_number 30) (lab_number 40) k
    keyboard_master_ready display_slave_ready Hoct) as Hp.
  rewrite E in Hp. split; [exact E|]. split.
  - exact (proj1 (Hp 123456 ltac:(by decide_vm)) eq_refl).
  - refine (proj1 (proj2 (Hp 857152 ltac:(by decide_vm))) _). by vm_compute.
Defined.
