(* ===== verification/SmpModels.v ===== *)
(** * The choice of the association model

    The tables of [src/components/bt/bluedroid/stack/smp/smp_utils.c] against the
    table of the Core Specification, volume 3, part H, 2.3.5.1, and the ways
    through the state tables. *)

From S2P Require Import Prelude Smp SmpTables SmpCb SmpCommands SmpEngine.

(** ** The method of the specification *)

Inductive io_capability := DisplayOnly | DisplayYesNo | KeyboardOnly | NoInputNoOutput | KeyboardDisplay.
Definition io_number (c : io_capability) : Z :=
  match c with DisplayOnly => 0 | DisplayYesNo => 1 | KeyboardOnly => 2 | NoInputNoOutput => 3 | KeyboardDisplay => 4 end.
Inductive pairing_method :=
| JustWorks | OutOfBand | NumericComparison
| InitiatorDisplays (** and the responder inputs *) | ResponderDisplays | BothInput.

(** Table 2.8, by the capabilities of the initiator and the responder. *)
Definition method_of_capabilities (sc : bool) (initiator responder : io_capability) : pairing_method :=
  match responder, initiator with
  | NoInputNoOutput, _ | _, NoInputNoOutput => JustWorks
  | (DisplayOnly | DisplayYesNo), DisplayOnly | DisplayOnly, DisplayYesNo => JustWorks
  | DisplayYesNo, DisplayYesNo => if sc then NumericComparison else JustWorks
  | (DisplayOnly | DisplayYesNo), KeyboardOnly | DisplayOnly, KeyboardDisplay | KeyboardDisplay, KeyboardOnly => ResponderDisplays
  | DisplayYesNo, KeyboardDisplay => if sc then NumericComparison else ResponderDisplays
  | KeyboardOnly, KeyboardOnly => BothInput
  | KeyboardOnly, _ | KeyboardDisplay, DisplayOnly => InitiatorDisplays
  | KeyboardDisplay, (DisplayYesNo | KeyboardDisplay) => if sc then NumericComparison else InitiatorDisplays
  end.
(** A side's out of band data, its wish for protection, and its capability. *)
Record features := { f_oob : bool; f_mitm : bool; f_sc : bool; f_io : io_capability }.
Definition pairing_method_of (initiator responder : features) : pairing_method * bool :=
  let sc := f_sc initiator && f_sc responder in
  (if (if sc then f_oob initiator || f_oob responder else f_oob initiator && f_oob responder) then OutOfBand
   else if negb (f_mitm initiator) && negb (f_mitm responder) then JustWorks
   else method_of_capabilities sc (f_io initiator) (f_io responder), sc).

(** What a side does in a method: a key is displayed ([KEY_NOTIF], [PASSKEY_DISP]) or
    input ([PASSKEY], [PASSKEY_ENT]). *)
Definition model_of (r : role_t) (method : pairing_method) (sc : bool) : association_model :=
  let displays := match method, r with InitiatorDisplays, HCI_ROLE_MASTER | ResponderDisplays, HCI_ROLE_SLAVE => true | _, _ => false end in
  match method with
  | JustWorks => if sc then SMP_MODEL_SEC_CONN_JUSTWORKS else SMP_MODEL_ENCRYPTION_ONLY
  | OutOfBand => if sc then SMP_MODEL_SEC_CONN_OOB else SMP_MODEL_OOB
  | NumericComparison => SMP_MODEL_SEC_CONN_NUM_COMP
  | _ => if sc then (if displays then SMP_MODEL_SEC_CONN_PASSKEY_DISP else SMP_MODEL_SEC_CONN_PASSKEY_ENT)
         else if displays then SMP_MODEL_KEY_NOTIF else SMP_MODEL_PASSKEY
  end.

(** The features in the fields of a control block. *)
Record holds (f : features) (io oob auth : Z) : Prop := {
  holds_io : io = io_number (f_io f);
  holds_oob : (oob =? SMP_OOB_PRESENT) = f_oob f;
  holds_mitm : has auth SMP_AUTH_YN_BIT = f_mitm f;
  holds_sc : has auth SMP_SC_SUPPORT_BIT = f_sc f }.
Definition knows (s : smp_cb) (local peer : features) : Prop :=
  holds local (local_io_capability s) (loc_oob_flag s) (loc_auth_req s) ∧
  holds peer (peer_io_caps s) (peer_oob_flag s) (peer_auth_req s).

(** [C24] The association model is that of the specification: on a control block that
    holds the features of both sides, the model that is selected, and whether
    secure connections are used, are what the table of the specification says for
    the role, so the two sides of a pairing choose the same method and one of them
    displays what the other inputs. *)
Theorem association_model_correct s local peer : knows s local peer →
  select_model s = Ok (
    let '(method, sc) := match role s with HCI_ROLE_MASTER => pairing_method_of local peer | HCI_ROLE_SLAVE => pairing_method_of peer local end in
    (model_of (role s) method sc, sc)).
Proof.
  intros [[Hi1 Ho1 Hm1 Hs1] [Hi2 Ho2 Hm2 Hs2]].
  unfold select_model, smp_select_association_model_secure_connections, smp_select_legacy_association_model, table_model, SMP_NO_MITM_REQUIRED.
  rewrite Ho1, Ho2, Hm1, Hm2, Hs1, Hs2, Hi1, Hi2.
  destruct local as [[] [] [] []], peer as [[] [] [] []], (role s); reflexivity.
Qed.

(** ** The ways through the tables *)

Definition all_places : list place := places both_roles all_states all_events.
Lemma all_places_complete p : p ∈ all_places.
Proof.
  destruct p as [[r s] e]. apply places_complete; [by destruct r; decide_vm|apply all_states_complete|apply all_events_complete].
Qed.

(** The places where an event leads into a state from another one. *)
Definition enters (st : tSMP_STATE) (p : place) : bool :=
  match sm_lookup p.1.1 p.1.2 p.2 with
  | Ok (Some (_, _, st')) => bool_decide (st' = st) && negb (bool_decide (p.1.2 = st))
  | _ => false
  end.
Definition ways_into (st : tSMP_STATE) : list place := filter (λ p, enters st p = true) all_places.

(** A master with a keyboard and a slave with a display, that wish protection. *)
Definition keyboard_master : smp_cb :=
  set_local_io_capability 2 (set_loc_auth_req 5 (set_peer_io_caps 0 (set_peer_auth_req 5 cb_zero))).
Lemma association_model_correct_witness : select_model keyboard_master = Ok (SMP_MODEL_PASSKEY, false).
Proof.
  apply (association_model_correct keyboard_master {| f_oob := false; f_mitm := true; f_sc := false; f_io := KeyboardOnly |}
    {| f_oob := false; f_mitm := true; f_sc := false; f_io := DisplayOnly |}).
  split; by constructor.
Defined.
