(* ===== verification/SmpRuns.v ===== *)
(** * Two devices that pair

    The machines of a master and a slave, each in its own surroundings, joined by a
    link that carries their commands, run from the call of [SMP_Pair] to the
    distribution of the keys. *)

From S2P Require Import Prelude Aes Cmac Smp SmpTables SmpCb SmpCommands SmpAct SmpEvents SmpWf SmpEngine SmpReturns SmpPairing SmpLab.

(** ** The link *)

(** A side: its surroundings, its world, and how many of its effects have been seen. *)
Record side := { host : Host; peer : list Z; at_world : world; seen : nat }.
Definition fresh (p : side) : list effect := drop (seen p) (out (at_world p)).
Definition look (p : side) : side := {| host := host p; peer := peer p; at_world := at_world p; seen := length (out (at_world p)) |}.
#[local] Instance levels : Fuel := engine_depth.
Definition input_to (p : side) (i : input) : outcome side :=
  match handle (H := host p) i (at_world p) with
  | Ok (_, w) => Ok {| host := host p; peer := peer p; at_world := w; seen := seen p |}
  | Fault f => Fault f
  end.

(** The controller answers a request for a random number, each time with another. *)
Definition random_bytes (n : nat) : tSMP_ENC :=
  {| Cmac.status := 0; param_len := 8; Cmac.opcode := 0; param_buf := (λ i, (37 * Z.of_nat n + 91 * i + 5) mod 256) <$> seqZ 0 8 |}.
Definition wants_random (l : list effect) : bool := existsb (λ e, match e with RandRequested => true | _ => false end) l.
Fixpoint give_random (fuel n : nat) (p : side) : outcome side :=
  match fuel with
  | O => Ok p
  | S fuel =>
      if wants_random (fresh p) then q ← input_to (look p) (In_rand (Some (random_bytes n))); give_random fuel (S n) q
      else Ok p
  end.
Definition act (n : nat) (p : side) (i : input) : outcome side := p ← input_to (look p) i; give_random 8 n p.

(** The commands that one side has sent are given to the other one. *)
Definition commands (l : list effect) : list (list Z) := omap (λ e, match e with Sent _ d => Some d | _ => None end) l.
Fixpoint take_commands (n : nat) (p : side) (l : list (list Z)) : outcome (side * list (list Z)) :=
  match l with
  | [] => Ok (p, [])
  | c :: l =>
      let before := length (out (at_world p)) in
      p ← act n p (In_data (peer p) c);
      '(p, sent) ← take_commands (n + 8) p l;
      Ok (p, commands (drop before (out (at_world p))))
  end.
Fixpoint converse (fuel n : nat) (m s : side) (to_slave to_master : list (list Z)) : outcome (side * side) :=
  match fuel with
  | O => Ok (m, s)
  | S fuel =>
      '(s, from_slave) ← take_commands n s to_slave;
      '(m, from_master) ← take_commands (n + 50) m (to_master ++ from_slave);
      converse fuel (n + 100) m s from_master []
  end.
Definition sent_by (before : nat) (p : side) : list (list Z) := commands (drop before (out (at_world p))).
Definition acknowledge (p : side) : outcome side := input_to (look p) (In_tx_complete (total_tx_unacked (cb (at_world p)))).

(** ** A pairing *)

Definition a_master (io auth : Z) : side :=
  {| host := lab HCI_ROLE_MASTER (capabilities io auth); peer := slave_address; at_world := started registered; seen := 0 |}.
Definition a_slave (io auth : Z) : side :=
  {| host := lab HCI_ROLE_SLAVE (capabilities io auth); peer := master_address; at_world := started registered; seen := 0 |}.

(** The master pairs and the application of the slave consents; where the slave
    shows a passkey, [enter] is what the user of the master makes of it. *)
Definition passkey_shown (p : side) : option Z :=
  head (omap (λ e, match e with AppCallback evt _ (CB_passkey k) => if evt =? SMP_PASSKEY_NOTIF_EVT then Some k else None | _ => None end)
    (out (at_world p))).
Definition pair_up (enter : Z → Z) (m s : side) : outcome (side * side) :=
  m ← act 0 m (In_Pair slave_address);
  m ← act 0 m (In_connect slave_address true);
  '(s, _) ← take_commands 0 s (sent_by 0 m);
  s ← act 0 s (In_SecurityGrant master_address SMP_SUCCESS);
  '(m, s) ← converse 4 7 m s [] (sent_by 0 s);
  match passkey_shown s with
  | None => Ok (m, s)
  | Some k =>
      let before := length (out (at_world m)) in
      m ← act 20 m (In_PasskeyReply slave_address SMP_SUCCESS (enter k));
      converse 4 27 m s (sent_by before m) []
  end.
(** The link asks the slave for the key and is encrypted, and the keys go over it. *)
Definition distribute_keys (m s : side) : outcome (side * side) :=
  s ← act 0 s (In_ltk_request master_address);
  m ← acknowledge m;
  s ← acknowledge s;
  let before_m := length (out (at_world m)) in
  let before_s := length (out (at_world s)) in
  m ← act 3 m (In_encrypted slave_address 1);
  s ← act 5 s (In_encrypted master_address 1);
  '(m, s) ← converse 3 11 m s (sent_by before_m m) (sent_by before_s s);
  m ← acknowledge m;
  s ← acknowledge s;
  Ok (m, s).
Definition pairing (enter : Z → Z) (m s : side) : outcome (side * side) := '(m, s) ← pair_up enter m s; distribute_keys m s.

(** ** What they have then *)

Definition own_ltk (p : side) : list (list Z) := omap (λ e, match e with SavedKey _ (LENC k _ _ _) => Some k | _ => None end) (out (at_world p)).
Definition peer_ltk (p : side) : list (list Z) := omap (λ e, match e with SavedKey _ (PENC k _ _ _ _) => Some k | _ => None end) (out (at_world p)).
Definition peer_identity (p : side) : list (list Z) := omap (λ e, match e with SavedKey _ (PID _ _ a) => Some a | _ => None end) (out (at_world p)).
Definition short_term_keys (p : side) : list (list Z) :=
  omap (λ e, match e with StartedEncryption _ k => k | LtkReply _ k => Some k | _ => None end) (out (at_world p)).
Definition finished (level : Z) (p : side) : Prop :=
  state (cb (at_world p)) = SMP_STATE_IDLE ∧ flags (cb (at_world p)) = 0 ∧
  match last (told (at_world p)) with
  | Some (evt, CB_cmplt reason sec_level cancelled) => (evt, reason, sec_level, cancelled) = (SMP_COMPLT_EVT, SMP_SUCCESS, level, false)
  | _ => False
  end.
(** One short term key, the long term key and the identity address of the other, and
    a success that the applications have been told of, at a security level. *)
Definition agreed (level : Z) (m s : side) : Prop :=
  (short_term_keys m = short_term_keys s ∧ length (short_term_keys m) = 1%nat) ∧
  (own_ltk m = peer_ltk s ∧ length (own_ltk m) = 1%nat) ∧ (own_ltk s = peer_ltk m ∧ length (own_ltk s) = 1%nat) ∧
  peer_identity m = [slave_address] ∧ peer_identity s = [master_address] ∧ finished level m ∧ finished level s.
(** No key was made. *)
Definition refused (m s : side) : Prop :=
  short_term_keys m = [] ∧ short_term_keys s = [] ∧ own_ltk m = [] ∧ own_ltk s = [] ∧ peer_ltk m = [] ∧ peer_ltk s = [] ∧
  [SMP_OPCODE_PAIRING_FAILED; SMP_CONFIRM_VALUE_ERR] ∈ commands (out (at_world s)).

#[local] Instance finished_dec level p : Decision (finished level p).
Proof. unfold finished. destruct (last _) as [[? []]|]; apply _. Defined.
#[local] Instance agreed_dec level m s : Decision (agreed level m s).
Proof. unfold agreed. apply _. Defined.
#[local] Instance refused_dec m s : Decision (refused m s).
Proof. unfold refused. apply _. Defined.
Definition ends_in (P : side → side → Prop) `{∀ m s, Decision (P m s)} (r : outcome (side * side)) : bool :=
  match r with Ok (m, s) => bool_decide (P m s) | Fault _ => false end.
Lemma ends_in_spec (P : side → side → Prop) `{∀ m s, Decision (P m s)} r : ends_in P r = true → ∃ m s, r = Ok (m, s) ∧ P m s.
Proof. destruct r as [[m s]|]; [|done]. cbn. intros Hp%bool_decide_eq_true. by exists m, s. Qed.

(** Concrete runs of whole pairings, with the distribution of the keys: whatever
    capabilities they share, a master and a slave that wish no protection, whose commands the link
    carries, with encryption in between, both tell their application of a success;
    they have used one short term key, and each has stored the long term key and the
    address that the other distributed.  With a wish for protection a passkey that
    the slave shows and the master's user enters gives the same at the level of an
    authenticated pairing, while each of the three next numbers gives no key at all, and
    the slave answers that the confirm value failed.  ([passkey_entry_decides] has
    any passkey and any number that is entered.) *)
Example devices_pair :
  (∀ io, 0 ≤ io < 5 → ∃ m s,
    pairing (λ k, k) (a_master io SMP_AUTH_BOND) (a_slave io SMP_AUTH_BOND) = Ok (m, s) ∧ agreed SMP_SEC_UNAUTHENTICATE m s) ∧
  (∃ m s, pairing (λ k, k) (a_master 2 (SMP_AUTH_BOND + SMP_AUTH_YN_BIT)) (a_slave 0 (SMP_AUTH_BOND + SMP_AUTH_YN_BIT)) = Ok (m, s) ∧
    agreed SMP_SEC_AUTHENTICATED m s) ∧
  ∀ d, 1 ≤ d ≤ 3 → ∃ m s,
    pairing (λ k, k + d) (a_master 2 (SMP_AUTH_BOND + SMP_AUTH_YN_BIT)) (a_slave 0 (SMP_AUTH_BOND + SMP_AUTH_YN_BIT)) = Ok (m, s) ∧ refused m s.
Proof.
  split_and!.
  - intros io Hio. eapply ends_in_spec.
    assert (Hall : forallb (λ io, ends_in (agreed SMP_SEC_UNAUTHENTICATE) (pairing (λ k, k) (a_master io SMP_AUTH_BOND) (a_slave io SMP_AUTH_BOND)))
      (seqZ 0 5) = true) by by vm_compute.
    rewrite forallb_forall in Hall. apply Hall, list_elem_of_In, elem_of_seqZ. lia.
  - eapply ends_in_spec. by vm_compute.
  - intros d Hd. eapply ends_in_spec.
    assert (Hall : forallb (λ d, ends_in refused (pairing (λ k, k + d) (a_master 2 (SMP_AUTH_BOND + SMP_AUTH_YN_BIT)) (a_slave 0 (SMP_AUTH_BOND + SMP_AUTH_YN_BIT))))
      (seqZ 1 3) = true) by by vm_compute.
    rewrite forallb_forall in Hall. apply Hall, list_elem_of_In, elem_of_seqZ. lia.
Qed.
