(* ===== verification/CayenneTask.v ===== *)
(** * esp32iot_cayenne.c: the Cayenne task

    Models [src/main/src/Cayenne/esp32iot_cayenne.c]: the connection to the
    Cayenne server and the task that publishes the values of the sensors once
    a second.  The values are the variable [BA5C_data], which the callbacks of
    the Bluetooth stack change in another task: a reading is an operation of
    the class [Scheduler], before which the other tasks may have run. *)

From S2P Require Import Prelude CString MQTTPacket MQTTPublish Timer Network MQTTClient MQTTClientProofs MQTTClientRuns Simulation CayenneUtils CayenneDataArray CayenneMQTTClient CayenneProofs CayenneRuns Double Bluetooth.

Definition CAYENNE_DOMAIN : list Z := bytes "mqtt.mydevices.com".
Definition CAYENNE_PORT : Z := 1883.

Definition TYPE_BAROMETRIC_PRESSURE : list Z := bytes "bp".
Definition TYPE_BATTERY : list Z := bytes "batt".
Definition TYPE_RELATIVE_HUMIDITY : list Z := bytes "rel_hum".
Definition TYPE_TEMPERATURE : list Z := bytes "temp".
Definition TYPE_STATUS : list Z := bytes "digital".
Definition UNIT_HECTOPASCAL : list Z := bytes "hpa".
Definition UNIT_PERCENT : list Z := bytes "p".
Definition UNIT_DIGITAL : list Z := bytes "d".
Definition UNIT_CELSIUS : list Z := bytes "c".

(** Milliseconds per tick at CONFIG_FREERTOS_HZ 100. *)
Definition portTICK_RATE_MS : Z := 10.

(** What the scheduler of FreeRTOS does to the state while the task sleeps for a
    number of ticks, and what the task finds in [BA5C_data] after the other
    tasks have run. *)
Class Scheduler (N Y CH : Type) := {
  vTaskDelay : Z → CState N Y CH → CState N Y CH;
  sensor_values : CState N Y CH → BA5C_data_t * CState N Y CH }.

(** ** The connection *)

Section Connection.
Context {W Y CH : Type} `{!Lwip W, !Clock W, !Fuel, !CayenneCallbacks (Network * W) Y CH}.
Abbreviation CM := (M (CState (Network * W) Y CH)).

Definition CayenneInit (username password clientID : list Z) : CM () :=
  onWorld NetworkInit ;;
  sendbuf ← cget c_buf;
  readbuf ← cget c_readbuf;
  CayenneMQTTClientInit sendbuf readbuf (Some username) (Some password) (Some clientID) None.

Definition connectClient : CM Z :=
  error ← onWorld (NetworkConnect CAYENNE_DOMAIN CAYENNE_PORT);
  if negb (error =? 0) then mret error else
  error ← CayenneMQTTConnect;
  if negb (error =? MQTT_SUCCESS) then
    onWorld NetworkDisconnect ;;
    mret error
  else
    CayenneMQTTPublishData None SYS_VERSION_TOPIC CAYENNE_NO_CHANNEL None None (Some CAYENNE_VERSION) ;;
    CayenneMQTTPublishData None SYS_MODEL_TOPIC CAYENNE_NO_CHANNEL None None (Some (bytes "esp32")) ;;
    mret CAYENNE_SUCCESS.
End Connection.

(** ** The task *)

(** Channel, type, unit and member of the eight published values. *)
Record reading := { r_channel : Z; r_type : list Z; r_unit : list Z; r_member : BA5C_data_t → Z }.
Definition readings : list reading := [
  {| r_channel := 0; r_type := TYPE_TEMPERATURE; r_unit := UNIT_CELSIUS; r_member := HTU21D_temperature |};
  {| r_channel := 1; r_type := TYPE_RELATIVE_HUMIDITY; r_unit := UNIT_PERCENT; r_member := HTU21D_humidity |};
  {| r_channel := 2; r_type := TYPE_STATUS; r_unit := UNIT_DIGITAL; r_member := HTU21D_status |};
  {| r_channel := 3; r_type := TYPE_TEMPERATURE; r_unit := UNIT_CELSIUS; r_member := MS5637_temperature |};
  {| r_channel := 4; r_type := TYPE_BAROMETRIC_PRESSURE; r_unit := UNIT_HECTOPASCAL; r_member := MS5637_pressure |};
  {| r_channel := 5; r_type := TYPE_STATUS; r_unit := UNIT_DIGITAL; r_member := MS5637_status |};
  {| r_channel := 6; r_type := TYPE_BATTERY; r_unit := UNIT_PERCENT; r_member := Battery_level |};
  {| r_channel := 7; r_type := TYPE_STATUS; r_unit := UNIT_DIGITAL; r_member := Battery_status |}].

Section Task.
Context {N Y CH : Type} `{!Clock N, !NetOps N, !Fuel, !CayenneCallbacks N Y CH, !Scheduler N Y CH}.
Abbreviation CM := (M (CState N Y CH)).

Definition delay (ms : Z) : CM () := modify (vTaskDelay (ms / portTICK_RATE_MS)).
Definition read_sensors : CM BA5C_data_t := λ s, Ok (sensor_values s).

Definition publish_reading (r : reading) : CM () :=
  d ← read_sensors;
  CayenneMQTTPublishDataInt None DATA_TOPIC (r_channel r) (Some (r_type r)) (Some (r_unit r)) (r_member r d) ;;
  mret ().

(** The eight calls, in order; their results are not used. *)
Fixpoint publish_readings (l : list reading) : CM () :=
  match l with [] => mret () | r :: l => publish_reading r ;; publish_readings l end.

Definition cayenne_task : CM () := delay 1000 ;; publish_readings readings.

(** [rounds] rounds of the endless loop of the task. *)
Fixpoint cayenne_task_rounds (rounds : nat) : CM () :=
  match rounds with O => mret () | S k => cayenne_task ;; cayenne_task_rounds k end.
End Task.

(** ** What the task puts on the wire *)

(** The topic and the payload of a reading. *)
Definition reading_topic (username clientID : list Z) (r : reading) : list Z :=
  topic_text username clientID (channel_suffix (bytes "data") (r_channel r)).
Definition reading_payload (r : reading) (v : Z) : list Z :=
  r_type r ++ [COMMA] ++ r_unit r ++ bytes "=" ++ sdec v.
Definition reading_packet (username clientID : list Z) (id : Z) (r : reading) (d : BA5C_data_t) : list Z :=
  publish_packet 0 0 1 id (cstring_topic (Some (reading_topic username clientID r)))
    (reading_payload r (r_member r d)).

(** Packets of the readings, each with the values it was read from. *)
Definition task_packets (username clientID : list Z) (id : Z) (ds : list BA5C_data_t) : list Z :=
  concat (zip_with (reading_packet username clientID id) readings ds).

Lemma sdec_length n : zlen (sdec n) ≤ 11.
Proof.
  unfold sdec. destruct (n <? 0); cbn [length]; [pose proof (udec_length (- n))|pose proof (udec_length n)]; lia.
Qed.

(** What a reading must satisfy for its packet to be small enough. *)
Definition reading_ok (r : reading) : Prop :=
  0 ≤ r_channel r < 10 ∧ is_cstring (r_type r) ∧ r_type r ≠ [] ∧ is_cstring (r_unit r) ∧
  zlen (r_type r) + zlen (r_unit r) ≤ 10.
Lemma readings_ok : Forall reading_ok readings.
Proof. apply (bool_decide_unpack _). vm_compute. exact I. Qed.

Lemma reading_payload_text r v :
  data_text (r_type r) [{| unit := Some (r_unit r); value := Some (sdec v) |}] = reading_payload r v.
Proof. unfold data_text, reading_payload, units_text, unit_text. cbn. by rewrite app_nil_r. Qed.

Lemma reading_payload_length r v : reading_ok r → zlen (reading_payload r v) ≤ 23.
Proof.
  intros (_ & _ & _ & _ & Hl). unfold reading_payload. rewrite !length_app. pose proof (sdec_length v).
  change (length (bytes "=")) with 1%nat. cbn [length]. lia.
Qed.

Lemma reading_topic_length u c r : zlen (reading_topic u c r) ≤ zlen u + zlen c + 27.
Proof.
  unfold reading_topic. rewrite topic_text_length. pose proof (channel_suffix_length (bytes "data") (r_channel r)) as H.
  change (zlen (bytes "data")) with 4 in H. lia.
Qed.

Section Publishing.
Context {N Y CH : Type} `{!Clock N, !ClockLaws N, !NetOps N, !ResponsiveNet N, !Fuel}.
Context `{!CayenneCallbacks N Y CH, !Scheduler N Y CH}.
Implicit Types (s : CState N Y CH).

(** What is left alone while other tasks run. *)
Record undisturbed (d : Z) s s' : Prop := {
  un_client : client s' = client s;
  un_username : y_username (user s') = y_username (user s);
  un_clientID : y_clientID (user s') = y_clientID (user s);
  un_sent : sent (world s') = sent (world s);
  un_time : now (world s) ≤ now (world s') ≤ now (world s) + d;
  un_alive : alive (world s) → alive (world s') }.

(** The client can publish until [hi]. *)
Record publishing (username clientID : list Z) (hi : Z) s : Prop := {
  p_username : y_username (user s) = Some username;
  p_clientID : y_clientID (user s) = Some clientID;
  p_connected : c_isconnected (client s) = true;
  p_alive : alive (world s);
  p_buf : buf_ok (client s);
  p_size : c_buf_size (client s) = CAYENNE_MAX_MESSAGE_SIZE;
  p_timeout : 100 ≤ c_command_timeout_ms (client s) < 2147483000;
  p_interval : 0 ≤ c_keepAliveInterval (client s);
  p_now : now (world s) ≤ hi;
  p_time : hi + 1000 * c_command_timeout_ms (client s) + 1000000 * c_keepAliveInterval (client s) + 100000
           < 2147483646000000 }.

(** Other tasks leave the client and the connection alone, do not hold the task
    up for more than ten milliseconds, and the values they leave satisfy [P]. *)
Context (P : BA5C_data_t → Prop).
Hypothesis sensors_quiet : ∀ s, P (sensor_values s).1 ∧ undisturbed 10000 s (sensor_values s).2.
Hypothesis delay_quiet : ∀ s ticks, 0 ≤ ticks → undisturbed ((ticks + 1) * 10000) s (vTaskDelay ticks s).
Hypothesis enough_fuel : (0 < fuel)%nat.

Lemma publishing_later u c hi d s s' :
  publishing u c hi s → undisturbed d s s' → now (world s) + d ≤ hi → publishing u c hi s'.
Proof.
  intros [] [E ? ? ? ? ?] ?. split; rewrite ?E; solve [done|auto|congruence|lia].
Qed.

Lemma publishing_published u c hi s s' :
  publishing u c hi s → published s s' → now (world s) + 5000 ≤ hi → publishing u c hi s'.
Proof.
  intros [] [] ?. split; [congruence|congruence|congruence|done|auto|congruence|congruence|congruence|lia|].
  rewrite pub_timeout, pub_interval. lia.
Qed.

Lemma publish_int_run u c hi r v s :
  publishing u c hi s → reading_ok r → is_cstring u → is_cstring c → zlen u + zlen c ≤ 78 →
  ∃ s', CayenneMQTTPublishDataInt None DATA_TOPIC (r_channel r) (Some (r_type r)) (Some (r_unit r)) v s =
      Ok (MQTT_SUCCESS, s') ∧
    sent (world s') = sent (world s) ++
      publish_packet 0 0 1 stack_packetid (cstring_topic (Some (reading_topic u c r))) (reading_payload r v) ∧
    published s s'.
Proof.
  intros [] Hr Hu Hc Hlen. pose proof (reading_payload_length r v Hr) as Hp. pose proof (reading_topic_length u c r) as Ht.
  destruct Hr as (Hch & Hty & Hne & Hun & Hl).
  pose proof (publish_data_run None u c (r_type r) (bytes "data") {| unit := Some (r_unit r); value := Some (sdec v) |}
    DATA_TOPIC (r_channel r) s) as Hrun. cbv zeta in Hrun. rewrite reading_payload_text in Hrun.
  fold (reading_topic u c r) in Hrun. rewrite publish_body_length in Hrun.
  rewrite (proj2 (Z.leb_le (MQTTPacket_len _) _)) in Hrun.
  2: { rewrite p_size0. unfold MQTTPacket_len, CAYENNE_MAX_MESSAGE_SIZE. repeat case_match; lia. }
  unfold CayenneMQTTPublishDataInt. rewrite snprintf_sdec by lia.
  apply Hrun; unfold CAYENNE_NO_CHANNEL, CAYENNE_ALL_CHANNELS, CAYENNE_MAX_MESSAGE_SIZE;
    [done|done|done|by vm_compute|lia|lia|lia|decide_vm|done|done|done|done| |done|lia|done|done|done| |done|done|lia].
  - split; [exact Hun|apply sdec_cstring].
  - split; [done|lia].
Qed.

(** A list of readings, each of values that were read just before. *)
Lemma publish_readings_run u c hi l s :
  publishing u c hi s → now (world s) + 15000 * zlen l ≤ hi → Forall reading_ok l →
  is_cstring u → is_cstring c → zlen u + zlen c ≤ 78 →
  ∃ s' ds, publish_readings l s = Ok ((), s') ∧ length ds = length l ∧ Forall P ds ∧
    sent (world s') = sent (world s) ++ concat (zip_with (reading_packet u c stack_packetid) l ds) ∧
    publishing u c hi s' ∧ now (world s') ≤ now (world s) + 15000 * zlen l.
Proof.
  intros Hs Ht Hl Hu Hc Hlen. revert s Hs Ht. induction Hl as [|r l Hr _ IH]; intros s Hs Ht; cbn [publish_readings].
  { exists s, []. cbn. rewrite app_nil_r. split_and!; first [done|by apply Forall_nil|lia]. }
  destruct (sensors_quiet s) as [Hd Hq]. cbn [length] in *. destruct (sensor_values s) as [d s1] eqn:E1. cbn [fst snd] in *.
  pose proof (publishing_later _ _ _ _ _ _ Hs Hq ltac:(lia)) as Hs1. destruct Hq as [_ _ _ Hsent1 Ht1 _].
  destruct (publish_int_run u c hi r (r_member r d) s1 Hs1 Hr Hu Hc Hlen) as (s2 & E2 & Hsent2 & Hp).
  pose proof (publishing_published _ _ _ _ _ Hs1 Hp ltac:(lia)) as Hs2. pose proof (pub_time _ _ Hp).
  destruct (IH s2 Hs2 ltac:(lia)) as (s3 & ds & E3 & Hlen3 & HP & Hsent3 & Hs3 & Ht3).
  exists s3, (d :: ds). split_and!; [|cbn; lia|by constructor| |done|lia].
  - unfold publish_reading, read_sensors, mbind, M_bind. rewrite E1, E2. exact E3.
  - cbn [zip_with concat]. rewrite Hsent3, Hsent2, Hsent1. unfold reading_packet. by rewrite <- !app_assoc.
Qed.

(** One round: the packets, and that the client can publish again after at most
    1.13 seconds. *)
Lemma cayenne_task_run (username clientID : list Z) (hi : Z) s :
  publishing username clientID hi s → now (world s) + 1130000 ≤ hi →
  is_cstring username → is_cstring clientID → zlen username + zlen clientID ≤ 78 →
  ∃ s' ds, cayenne_task s = Ok ((), s') ∧ length ds = 8%nat ∧ Forall P ds ∧
    sent (world s') = sent (world s) ++ task_packets username clientID stack_packetid ds ∧
    publishing username clientID hi s' ∧ now (world s') ≤ now (world s) + 1130000.
Proof.
  intros Hs Ht Hu Hc Hlen. pose proof (delay_quiet s 100 ltac:(lia)) as Hq. change ((100 + 1) * 10000) with 1010000 in Hq.
  pose proof (publishing_later _ _ _ _ _ _ Hs Hq ltac:(lia)) as Hs1.
  destruct Hq as [_ _ _ Hsent Ht1 _]. set (s1 := vTaskDelay 100 s) in *.
  destruct (publish_readings_run username clientID hi readings s1 Hs1) as (s' & ds & E & Hl & HP & Hsent' & Hs' & Ht');
    [change (zlen readings) with 8; lia|apply readings_ok|done..|].
  change (zlen readings) with 8 in Ht'. exists s', ds. split_and!; try done; [|lia].
  rewrite Hsent', Hsent. done.
Qed.

(** The Cayenne task publishes the sensors: with a connected client on a
    responsive network, each round of the task returns within 1.13 seconds and
    sends exactly eight retained QoS 0 PUBLISH packets, one for each member of
    the sensor data, on the topics "v1/<user>/things/<client>/data/<channel>"
    with the payloads "<type>,<unit>=<value>".  The value of each packet is
    one that the sensor task had left in the variable when it was read; [P] is
    whatever is known about those. *)
Theorem cayenne_task_publishes (rounds : nat) (username clientID : list Z) (hi : Z) s :
  publishing username clientID hi s → now (world s) + 1130000 * Z.of_nat rounds ≤ hi →
  is_cstring username → is_cstring clientID → zlen username + zlen clientID ≤ 78 →
  ∃ s' dss, cayenne_task_rounds rounds s = Ok ((), s') ∧ length dss = rounds ∧
    Forall (λ ds, length ds = 8%nat ∧ Forall P ds) dss ∧
    sent (world s') = sent (world s) ++ concat (map (task_packets username clientID stack_packetid) dss) ∧
    publishing username clientID hi s' ∧ now (world s') ≤ now (world s) + 1130000 * Z.of_nat rounds.
Proof.
  intros Hs Ht Hu Hc Hlen. revert s Hs Ht. induction rounds as [|k IH]; intros s Hs Ht; cbn [cayenne_task_rounds].
  { exists s, []. cbn. rewrite app_nil_r. split_and!; first [done|by apply Forall_nil|lia]. }
  destruct (cayenne_task_run username clientID hi s Hs) as (s1 & ds & E1 & Hl & HP & Hsent1 & Hs1 & Ht1); [lia|done..|].
  destruct (IH s1 Hs1 ltac:(lia)) as (s' & dss & E & Hls & HPs & Hsent & Hs' & Ht').
  exists s', (ds :: dss). unfold mbind, M_bind. rewrite E1. split_and!; [done|cbn; lia|by constructor| |done|lia].
  cbn [map concat]. by rewrite Hsent, Hsent1, <- app_assoc.
Qed.
End Publishing.

(** ** The task without a connection *)

Section Offline.
Context {N Y CH : Type} `{!Clock N, !NetOps N, !Fuel, !CayenneCallbacks N Y CH, !Scheduler N Y CH}.
Implicit Types (s : CState N Y CH).

(** Other tasks do not connect the client, and put nothing on its connection. *)
Context (wire : N → list Z).
Hypothesis sensors_offline : ∀ s, client (sensor_values s).2 = client s ∧ wire (world (sensor_values s).2) = wire (world s).
Hypothesis delay_offline : ∀ s ticks, client (vTaskDelay ticks s) = client s ∧ wire (world (vTaskDelay ticks s)) = wire (world s).

(** A client that is not connected. *)
Definition offline (c : MQTTClient mqtt_handler) (o : list Z) s : Prop := client s = c ∧ wire (world s) = o.

Lemma publish_offline cid t ch ty v c o s :
  offline c o s → c_isconnected c = false →
  wp (CayenneMQTTPublishDataArray cid t ch ty v) (λ _ s', offline c o s') s.
Proof.
  intros Hs Hc. unfold CayenneMQTTPublishDataArray, build_topic, or_own, yget.
  apply wp_bind, wp_bind, wp_gets, wp_bind, wp_bind, wp_gets, wp_ret, wp_bind, wp_lift.
  pose proof (CayenneBuildTopic_fault (Some (replicate (Z.to_nat (CAYENNE_MAX_MESSAGE_SIZE + 1)) 0))
    (CAYENNE_MAX_MESSAGE_SIZE + 1) (y_username (user s)) (match cid with Some c0 => Some c0 | None => y_clientID (user s) end) t ch) as Hb.
  destruct (CayenneBuildTopic _ _ _ _ _ _) as [[r b]|f]; [|by intros ->]. apply wp_ret.
  destruct (r =? _); [|by apply wp_ret]. unfold publish_built. apply wp_bind, wp_lift.
  pose proof (cstr_fault (default [] b)). destruct (cstr _) as [name|f]; [|by intros ->].
  apply wp_bind, wp_lift. match goal with |- context [CayenneBuildDataPayload ?p ?n ?t ?v] =>
    pose proof (CayenneBuildDataPayload_fault p n t v); destruct (CayenneBuildDataPayload p n t v) as [[[r' sz] p']|f] end;
    [|by intros ->]. destruct (r' =? _); [|by apply wp_ret].
  apply wp_bind. unfold MQTTPublish. apply wp_bind, wp_gets. destruct Hs as [E Ho]. rewrite E, Hc. cbn [negb].
  apply wp_ret, wp_ret. done.
Qed.

(** The Cayenne task never reconnects: while the client is not connected,
    any number of rounds of the task returns without a change to the client
    and without a byte on the wire (the results of the publications are not
    looked at). *)
Theorem cayenne_task_offline (rounds : nat) s :
  c_isconnected (client s) = false →
  match cayenne_task_rounds rounds s with
  | Ok (_, s') => client s' = client s ∧ wire (world s') = wire (world s)
  | Fault f => f ≠ OutOfFuel
  end.
Proof.
  intros Hc. enough (G : ∀ s0, offline (client s) (wire (world s)) s0 →
    wp (cayenne_task_rounds rounds) (λ _ s', offline (client s) (wire (world s)) s') s0) by (by apply (G s)).
  induction rounds as [|k IH]; intros s0 Hs0; cbn [cayenne_task_rounds]; [by apply wp_ret|].
  apply wp_bind. unfold cayenne_task. apply wp_bind, wp_modify.
  enough (Hr : ∀ l s1, offline (client s) (wire (world s)) s1 →
    wp (publish_readings l) (λ _ s', offline (client s) (wire (world s)) s') s1).
  { destruct Hs0 as [E Ho]. destruct (delay_offline s0 (1000 / portTICK_RATE_MS)) as [E1 Ho1].
    eapply wp_mono; [apply (Hr readings); split; congruence|]. intros [] s2. apply IH. }
  induction l as [|r l IHl]; intros s1 [E Ho]; cbn [publish_readings]; [by apply wp_ret|].
  unfold publish_reading, read_sensors. apply wp_bind, wp_bind. unfold wp at 1.
  destruct (sensors_offline s1) as [E1 Ho1]. destruct (sensor_values s1) as [d s2]. cbn [snd] in *.
  apply wp_bind. unfold CayenneMQTTPublishDataInt, CayenneMQTTPublishData.
  eapply wp_mono; [apply (publish_offline _ _ _ _ _ (client s) (wire (world s))); [split; congruence|done]|].
  intros a s3 Hs3. cbn beta in Hs3. apply wp_ret. by apply IHl.
Qed.
End Offline.

(** ** Runs in the concrete world *)

Definition sim_values : BA5C_data_t := {|
  HTU21D_recived_notification_counter := 0; HTU21D_temperature := 24; HTU21D_humidity := 54; HTU21D_status := 1;
  MS5637_recived_notification_counter := 0; MS5637_D1 := 0; MS5637_D2 := 0; MS5637_temperature := 20;
  MS5637_pressure := 1100; MS5637_status := 1; Battery_level := 87; Battery_status := 0 |}.

#[export] Instance sim_scheduler : Scheduler sim (list (Z * Z)) Z := {|
  vTaskDelay ticks s := MkSt (client s)
    {| sim_time := Z.max 0 (sim_time (world s)) + 10000 * ticks; sim_in := sim_in (world s);
       sim_out := sim_out (world s) |} (user s);
  sensor_values s := (sim_values, s) |}.
#[local] Instance task_fuel : Fuel := 10%nat.

Lemma cayenne_task_publishes_witness :
  let s := sim_cstate true [] in
  ∃ s' dss, cayenne_task_rounds 3 s = Ok ((), s') ∧ length dss = 3%nat ∧
    Forall (λ ds, length ds = 8%nat ∧ Forall (λ d, d = sim_values) ds) dss ∧
    sent (world s') = sent (world s) ++ concat (map (task_packets (bytes "u") (bytes "d") 0) dss) ∧
    publishing (bytes "u") (bytes "d") 10000000 s' ∧ now (world s') ≤ now (world s) + 1130000 * Z.of_nat 3.
Proof.
  intros s. apply (cayenne_task_publishes (N := sim) (Y := list (Z * Z)) (CH := Z) (λ d, d = sim_values)).
  - intros s1. split; [reflexivity|]. split; try reflexivity. cbn. lia.
  - intros s1 ticks Ht. split; try reflexivity. cbn. lia.
  - unfold fuel, task_fuel. lia.
  - split; try reflexivity; vm_compute; intuition discriminate.
  - vm_compute. discriminate.
  - decide_vm.
  - decide_vm.
  - vm_compute. discriminate.
Defined.

(** The first packet of a round. *)
Example first_packet : take 33 (match cayenne_task (sim_cstate true []) with
    | Ok (_, s') => sim_out (world s') | Fault _ => [] end) =
  [49; 31; 0; 20] ++ bytes "v1/u/things/d/data/0" ++ bytes "temp,c=24".
Proof. vm_compute. reflexivity. Qed.

Lemma cayenne_task_offline_witness :
  match cayenne_task_rounds 3 (sim_cstate false []) with
  | Ok (_, s') => client s' = client (sim_cstate false []) ∧ sim_out (world s') = []
  | Fault f => f ≠ OutOfFuel
  end.
Proof.
  apply (cayenne_task_offline sim_out).
  - intros s. split; reflexivity.
  - intros s ticks. split; reflexivity.
  - reflexivity.
Defined.
