(* ===== verification/LiveSocket.v ===== *)
(** * A connected socket is a responsive network

    The theorems on the MQTT and the Cayenne client assume a network that has
    the bytes of the peer ready (class [ResponsiveNet]).  Here this is proved of
    Network.c on a socket that is connected, and the session with the Cayenne
    server is followed from the resolution of its name on. *)

From S2P Require Import Prelude CString MQTTPacket MQTTConnect MQTTPublish Timer Network MQTTClient MQTTClientRuns CayenneUtils CayenneDataArray CayenneMQTTClient CayenneRuns Double Bluetooth CayenneTask.

(** What lwIP does on a connected socket: bytes that have arrived are received at
    once, up to the number asked for, everything is written, the error number is
    not one of a lost connection, and each call takes less than half a
    millisecond. *)
Class LiveSocket (W : Type) `{!Clock W, !ClockLaws W, !Lwip W} := {
  incoming : W → list Z;
  outgoing : W → list Z;
  established : Z → W → Prop;
  errno_live s w : established s w → errno w ≠ ENOTCONN ∧ errno w ≠ ECONNRESET ∧ errno w ≠ EPIPE;
  setsockopt_live s o v w : let w' := setsockopt s o v w in
    incoming w' = incoming w ∧ outgoing w' = outgoing w ∧ now w ≤ now w' ≤ now w + 500 ∧
    (established s w → established s w');
  recv_live s n w : established s w → 0 < n ≤ zlen (incoming w) →
    let '(rc, d, w') := recv s n w in
    rc = n ∧ d = take (Z.to_nat n) (incoming w) ∧ incoming w' = drop (Z.to_nat n) (incoming w) ∧
    outgoing w' = outgoing w ∧ now w ≤ now w' ≤ now w + 500 ∧ established s w';
  write_live s d w : established s w →
    let '(rc, w') := sock_write s d w in
    rc = zlen d ∧ incoming w' = incoming w ∧ outgoing w' = outgoing w ++ d ∧ now w ≤ now w' ≤ now w + 500 ∧
    established s w';
  clock_live w : let w' := (gettimeofday w).2 in
    incoming w' = incoming w ∧ outgoing w' = outgoing w ∧ now w' ≤ now w + 1000 ∧
    ∀ s, established s w → established s w' }.

Section Live.
Context {W : Type} `{!Clock W, !ClockLaws W, !Lwip W, !LiveSocket W, !Fuel}.

(** The connection of the structure is open. *)
Definition open_net (s : Network * W) : Prop := connected s.1 ≠ 0 ∧ established (my_socket s.1) s.2.

(** One receive is enough for bytes that are there. *)
Lemma read_live len n w :
  (0 < fuel)%nat → open_net (n, w) → 0 ≤ len ≤ zlen (incoming w) →
  ∃ w', read_loop fuel len 0 [] (n, w) = Ok ((len, take (Z.to_nat len) (incoming w)), (n, w')) ∧
    incoming w' = drop (Z.to_nat len) (incoming w) ∧ outgoing w' = outgoing w ∧
    now w ≤ now w' ≤ now w + 500 ∧ open_net (n, w').
Proof.
  intros Hf [Hc He] Hl. cbn [fst snd] in *. destruct fuel as [|k]; [lia|]. cbn [read_loop].
  destruct (Z.ltb_spec 0 len) as [Hpos|Hz]; cbn [andb].
  2: { replace len with 0 by lia. change (Z.to_nat 0) with 0%nat. rewrite take_0, drop_0.
       exists w. split_and!; solve [done | lia | by split]. }
  rewrite (proj2 (Z.eqb_neq _ _) Hc). cbn [negb]. rewrite Z.sub_0_r.
  pose proof (recv_live (my_socket n) len w He ltac:(lia)) as Hr.
  destruct (recv (my_socket n) len w) as [[rc d] w']. destruct Hr as (-> & -> & Hi & Ho & Ht & He').
  destruct (errno_live _ _ He') as (E1 & E2 & E3). change (Z.to_nat 0) with 0%nat. rewrite take_0. cbn [app].
  rewrite (proj2 (Z.eqb_neq len (-1))), (proj2 (Z.eqb_neq len 0)) by lia. cbn [andb orb].
  rewrite !(proj2 (Z.eqb_neq _ _)) by done. cbn [orb]. rewrite Z.add_0_l. exists w'.
  destruct k; cbn [read_loop]; rewrite Z.ltb_irrefl; cbn [andb]; split_and!; solve [done | lia | by split].
Qed.

(** Network.c on an open connection, given one round of fuel. *)
#[program] Definition live_net (Hf : (0 < fuel)%nat) : ResponsiveNet (Network * W) := {|
  pending s := incoming s.2; sent s := outgoing s.2; alive := open_net |}.
Next Obligation.
  intros Hf n t [net w] [Hc He] Hn. cbn [fst snd] in *. unfold twp. cbn [mqttread esp32_net]. unfold esp32_read.
  destruct (setsockopt_live (my_socket net) SO_RCVTIMEO (socket_interval t) w) as (Hi & Ho & Ht & He').
  set (w1 := setsockopt _ _ _ w) in *.
  destruct (read_live n net w1) as (w2 & -> & Hi2 & Ho2 & Ht2 & Hop); [done|by split; auto|by rewrite Hi|].
  cbn. rewrite Hi in *. rewrite Hi2, Ho2, Ho. split_and!; solve [done | lia].
Qed.
Next Obligation.
  intros Hf d t [net w] [Hc He]. cbn [fst snd] in *. unfold twp. cbn [mqttwrite esp32_net]. unfold esp32_write.
  destruct (setsockopt_live (my_socket net) SO_SNDTIMEO (socket_interval t) w) as (Hi & Ho & Ht & He').
  set (w1 := setsockopt _ _ _ w) in *. pose proof (write_live (my_socket net) d w1 (He' He)) as Hw.
  destruct (sock_write (my_socket net) d w1) as [rc w2]. destruct Hw as (-> & Hi2 & Ho2 & Ht2 & He2).
  rewrite (proj2 (Z.eqb_neq (zlen d) (-1))) by lia. cbn [andb]. cbn. rewrite Hi2, Ho2, Hi, Ho. split_and!; solve [done | lia | by split].
Qed.
Next Obligation.
  intros Hf [net w]. destruct (clock_live w) as (Hi & Ho & Ht & He). cbn. split_and!; try done.
  intros [Hc Hes]. split; [done|by apply He].
Qed.
End Live.

(** ** The session with the Cayenne server *)

(** The options of [CayenneMQTTConnect] for an account. *)
Definition account_options (u p c : list Z) : MQTTPacket_connectData := {|
  struct_id := struct_id MQTTPacket_connectData_initializer;
  struct_version := struct_version MQTTPacket_connectData_initializer;
  MQTTVersion := 3;
  MQTTConnect.clientID := cstring_topic (Some c);
  keepAliveInterval := keepAliveInterval MQTTPacket_connectData_initializer;
  cleansession := cleansession MQTTPacket_connectData_initializer;
  willFlag := willFlag MQTTPacket_connectData_initializer;
  will := will MQTTPacket_connectData_initializer;
  MQTTConnect.username := cstring_topic (Some u);
  MQTTConnect.password := cstring_topic (Some p) |}.

(** A retained message with a text alone. *)
Definition info_packet (u c topic : list Z) (id : Z) (val : list Z) : list Z :=
  publish_packet 0 0 1 id (cstring_topic (Some (topic_text u c topic))) val.

(** What a client puts on the wire when its account is accepted. *)
Definition session_start (u p c : list Z) (id : Z) : list Z :=
  connect_packet (account_options u p c) ++
  info_packet u c (bytes "sys/version") id CAYENNE_VERSION ++ info_packet u c (bytes "sys/model") id (bytes "esp32").

Lemma account_options_ok u p c : connect_ok (account_options u p c).
Proof. split_and!; [by left|apply cstring_topic_ok|decide_vm|decide_vm|apply cstring_topic_ok|apply cstring_topic_ok]. Qed.

Lemma account_connect_length u p c : zlen (connect_body (account_options u p c)) = 18 + zlen u + zlen p + zlen c.
Proof.
  rewrite <- connectLength_body by apply account_options_ok. 
  change (12 + (zlen c + 2) + (zlen u + 2) + (zlen p + 2) = 18 + zlen u + zlen p + zlen c). lia.
Qed.

Lemma MQTTPacket_len_small n : 0 ≤ n < 16383 → MQTTPacket_len n ≤ n + 3.
Proof. intros Hn. unfold MQTTPacket_len. cbv zeta.
  destruct (Z.ltb_spec (n + 1) 128), (Z.ltb_spec (n + 1) 16384); lia.
Qed.

Section Session.
Context {W Y CH : Type} `{!Clock W, !ClockLaws W, !Lwip W, !LiveSocket W, !Fuel, !CayenneCallbacks (Network * W) Y CH}.
Implicit Types (s : CState (Network * W) Y CH).

(** The name resolves to an IPv4 address, and the server there accepts the
    connection: the world is [w4] then. *)
Record dials (addr : list Z) (port : Z) (w : W) (sock : Z) (w4 : W) : Prop := {
  dialled : ∃ res a l w1 w3, getaddrinfo addr w = (0, res, w1) ∧ prefer_ip4 res = Some (a :: l) ∧
    socket AF_INET SOCK_STREAM (freeaddrinfo (a :: l) w1) = (sock, w3) ∧
    connect sock {| sin_family := AF_INET; sin_port := htons port; sin_addr := ai_addr a |} w3 = (0, w4);
  dialled_socket : sock ≠ -1;
  dialled_open : established sock w4 }.

Lemma prefer_ip4_family res a l : prefer_ip4 res = Some (a :: l) → ai_family a = AF_INET.
Proof.
  induction res as [|b res IH]; cbn [prefer_ip4]; [done|].
  destruct (Z.eqb_spec (ai_family b) AF_INET); [by intros [= <- _]|done].
Qed.

Lemma NetworkConnect_dials addr port n w sock w4 :
  dials addr port w sock w4 → NetworkConnect addr port (n, w) = Ok (0, ({| my_socket := sock; connected := 1 |}, w4)).
Proof.
  intros [(res & a & l & w1 & w3 & E1 & E2 & E3 & E4) Hs _]. pose proof (prefer_ip4_family _ _ _ E2) as Ef.
  unfold NetworkConnect. rewrite E1. change (0 =? 0) with true. cbv iota. rewrite E2. cbn [default from_option id].
  rewrite Ef, Z.eqb_refl, bind_ok. change (0 =? 0) with true. cbv iota. rewrite E3.
  rewrite (proj2 (Z.eqb_neq _ _) Hs). cbn [negb]. by rewrite E4.
Qed.

Hypothesis enough_fuel : (0 < fuel)%nat.
#[local] Instance socket_net : ResponsiveNet (Network * W) := live_net enough_fuel.

(** An account whose CONNECT packet and topics fit the buffers. *)
Record account (u p c : list Z) : Prop := {
  acc_username : is_cstring u;
  acc_password : is_cstring p;
  acc_clientID : is_cstring c;
  acc_connect : zlen u + zlen p + zlen c ≤ 113;
  acc_topics : zlen u + zlen c ≤ 78 }.

(** A client as [CayenneInit] leaves it for that account. *)
Record initialised (u p c : list Z) s : Prop := {
  ini_username : y_username (user s) = Some u;
  ini_password : y_password (user s) = Some p;
  ini_clientID : y_clientID (user s) = Some c;
  ini_connected : c_isconnected (client s) = false;
  ini_buf : buf_ok (client s);
  ini_size : c_buf_size (client s) = CAYENNE_MAX_MESSAGE_SIZE;
  ini_readbuf : 4 ≤ zlen (c_readbuf (client s));
  ini_timeout : c_command_timeout_ms (client s) = 30000 }.

Lemma init_run u p c s :
  CAYENNE_MAX_MESSAGE_SIZE ≤ zlen (c_buf (client s)) → 4 ≤ zlen (c_readbuf (client s)) →
  ∃ s', CayenneInit u p c s = Ok ((), s') ∧ initialised u p c s' ∧ (world s').2 = (world s).2.
Proof.
  intros Hb Hr. destruct s as [cl [n w] y]. eexists. split; [done|]. split; [|done]. cbn [client] in *.
  by split.
Qed.

(** The client can publish for the time a session takes. *)
Lemma info_run u c hi topic tstr val s :
  publishing u c hi s → is_cstring u → is_cstring c → zlen u + zlen c ≤ 78 → now (world s) + 5000 ≤ hi →
  topic_string topic = Some tstr → topic ≠ COMMAND_TOPIC → is_cstring tstr → is_cstring val →
  zlen tstr ≤ 11 → zlen val ≤ 5 →
  ∃ s', CayenneMQTTPublishData None topic CAYENNE_NO_CHANNEL None None (Some val) s = Ok (MQTT_SUCCESS, s') ∧
    sent (world s') = sent (world s) ++ info_packet u c tstr stack_packetid val ∧ user s' = user s ∧
    publishing u c hi s' ∧ now (world s') ≤ now (world s) + 5000.
Proof.
  intros Hs Hu Hc Hlen Ht Htop Hcmd Hts Hv Hl1 Hl2. pose proof Hs as []. pose proof (topic_text_length u c tstr) as Hl.
  destruct (publish_plain_run u c tstr val topic s) as (s' & E & Hsent & Hp); try done; try lia.
  - unfold CAYENNE_MAX_MESSAGE_SIZE. lia.
  - rewrite p_size, publish_body_length. etransitivity; [apply MQTTPacket_len_small; lia|].
    unfold CAYENNE_MAX_MESSAGE_SIZE. lia.
  - split; lia.
  - exists s'. split_and!; [done|done|apply Hp|by eapply publishing_published|]. pose proof (pub_time _ _ Hp). lia.
Qed.

(** What holds of the socket after [NetworkConnect]. *)
Definition dialled_state (sock : Z) (w4 : W) s : CState (Network * W) Y CH :=
  MkSt (client s) ({| my_socket := sock; connected := 1 |}, w4) (user s).

Lemma connect_run u p c sock w4 h fl code rest s :
  account u p c → initialised u p c s → established sock w4 →
  incoming w4 = [h; 2; fl; code] ++ rest → is_byte h → header_type h = CONNACK_MSG →
  now w4 < 2000000000000000 →
  let s1 := dialled_state sock w4 s in
  ∃ s2, CayenneMQTTConnect s1 = Ok (code, s2) ∧ handshaken (account_options u p c) code rest s1 s2.
Proof.
  intros [] [] He Hi Hh Hty Hnow s1. pose proof (account_connect_length u p c) as Hl.
  assert (E : CayenneMQTTConnect s1 = MQTTConnect (Some (account_options u p c)) s1).
  { unfold CayenneMQTTConnect, mbind, M_bind, gets, account_options. cbn [s1 dialled_state user].
    by rewrite ini_username0, ini_password0, ini_clientID0. }
  rewrite E. unfold CAYENNE_MAX_MESSAGE_SIZE in *.
  pose proof (MQTTPacket_len_small (18 + zlen u + zlen p + zlen c) ltac:(lia)).
  destruct (twp_run _ _ _ (twp_handshake (account_options u p c) h fl code rest s1 ini_connected0 (account_options_ok u p c)
    ltac:(rewrite Hl; lia) ltac:(rewrite Hl; cbn; lia) ini_buf0 ini_readbuf0 ltac:(split; cbn; lia) enough_fuel
    ltac:(cbn; lia) Hnow ltac:(by split) Hi Hh Hty)) as (r & s2 & E2 & -> & H2). by exists s2.
Qed.

Lemma connectClient_dialled sock w4 s :
  dials CAYENNE_DOMAIN CAYENNE_PORT (world s).2 sock w4 →
  connectClient s =
    (error ← CayenneMQTTConnect;
     if negb (error =? MQTT_SUCCESS) then onWorld NetworkDisconnect ;; mret error
     else
       CayenneMQTTPublishData None SYS_VERSION_TOPIC CAYENNE_NO_CHANNEL None None (Some CAYENNE_VERSION) ;;
       CayenneMQTTPublishData None SYS_MODEL_TOPIC CAYENNE_NO_CHANNEL None None (Some (bytes "esp32")) ;;
       mret CAYENNE_SUCCESS) (dialled_state sock w4 s).
Proof.
  intros Hd. unfold connectClient. rewrite (bind_run _ _ 0 s (dialled_state sock w4 s)); [done|].
  unfold onWorld. destruct s as [cl [n w] y]. cbn [world snd] in Hd |- *. by rewrite (NetworkConnect_dials _ _ _ _ _ _ Hd).
Qed.

(** What [connectClient] leaves: an open session with both informations on the
    wire, or a connection that was closed after the CONNECT packet. *)
Definition session_open (u p c : list Z) (w4 : W) (hi : Z) (s s' : CState (Network * W) Y CH) : Prop :=
  outgoing (world s').2 = outgoing w4 ++ session_start u p c stack_packetid ∧ user s' = user s ∧
  publishing u c hi s' ∧ now (world s').2 ≤ now w4 + 30000.
Definition session_closed (u p c : list Z) (w4 : W) (s' : CState (Network * W) Y CH) : Prop :=
  c_isconnected (client s') = false ∧ connected (world s').1 = 0 ∧
  ∃ w5, (world s').2 = close (my_socket (world s').1) w5 ∧
    outgoing w5 = outgoing w4 ++ connect_packet (account_options u p c).

Lemma handshaken_publishing u p c sock w4 rest hi s s2 :
  initialised u p c s → handshaken (account_options u p c) CAYENNE_SUCCESS rest (dialled_state sock w4 s) s2 →
  now w4 + 20000 ≤ hi → hi < 2000000000000000 → publishing u c hi s2.
Proof.
  intros [] [] Ht Hhi. change (keepAliveInterval (account_options u p c)) with 60 in hs_interval.
  change (user (dialled_state sock w4 s)) with (user s) in *. change (client (dialled_state sock w4 s)) with (client s) in *.
  change (now (world (dialled_state sock w4 s))) with (now w4) in *. rewrite ini_timeout0 in hs_timeout.
  split; rewrite ?hs_user, ?hs_timeout, ?hs_interval; solve [done|congruence|lia].
Qed.

Lemma connectClient_answered u p c sock w4 h fl code rest hi s :
  account u p c → initialised u p c s → dials CAYENNE_DOMAIN CAYENNE_PORT (world s).2 sock w4 →
  incoming w4 = [h; 2; fl; code] ++ rest → is_byte h → header_type h = CONNACK_MSG →
  now w4 + 30000 ≤ hi → hi < 2000000000000000 →
  ∃ s', connectClient s = Ok (code, s') ∧
    if code =? CAYENNE_SUCCESS then session_open u p c w4 hi s s' else session_closed u p c w4 s'.
Proof.
  intros Ha Hs Hd Hi Hh Hty Ht Hhi. rewrite (connectClient_dialled _ _ _ Hd).
  destruct (connect_run u p c sock w4 h fl code rest s Ha Hs (dialled_open _ _ _ _ _ Hd) Hi Hh Hty ltac:(lia)) as (s2 & E2 & H2).
  cbv zeta in E2. rewrite (bind_run _ _ _ _ _ E2). change MQTT_SUCCESS with CAYENNE_SUCCESS.
  destruct (Z.eqb_spec code CAYENNE_SUCCESS) as [->|Hcode]; cbn [negb].
  - pose proof (handshaken_publishing _ _ _ _ _ _ hi _ _ Hs H2 ltac:(lia) Hhi) as Hp2. destruct Ha, H2.
    change (now (world (dialled_state sock w4 s))) with (now w4) in *.
    destruct (info_run u c hi SYS_VERSION_TOPIC (bytes "sys/version") CAYENNE_VERSION s2) as (s3 & E3 & Ho3 & Hu3 & Hp3 & Ht3);
      try done; try decide_vm; [lia|].
    destruct (info_run u c hi SYS_MODEL_TOPIC (bytes "sys/model") (bytes "esp32") s3) as (s4 & E4 & Ho4 & Hu4 & Hp4 & Ht4);
      try done; try decide_vm; [lia|].
    exists s4. rewrite (bind_run _ _ _ _ _ E3), (bind_run _ _ _ _ _ E4). split; [done|].
    split_and!; [|by rewrite Hu4, Hu3|done|change (now (world s4) ≤ now w4 + 30000); lia].
    change (sent (world s4) = sent (world (dialled_state sock w4 s)) ++ session_start u p c stack_packetid).
    unfold session_start. by rewrite Ho4, Ho3, hs_sent, <- !app_assoc.
  - destruct H2. destruct s2 as [cl [n w] y]. eexists. split; [done|]. split; [|split; [done|]].
    + cbn [client] in *. rewrite hs_connected. by apply Z.eqb_neq.
    + exists w. split; [done|]. exact hs_sent.
Qed.

(** The other tasks, as for the Cayenne task alone. *)
Context `{!Scheduler (Network * W) Y CH} (P : BA5C_data_t → Prop).
Hypothesis sensors_quiet : ∀ s, P (sensor_values s).1 ∧ undisturbed 10000 s (sensor_values s).2.
Hypothesis delay_quiet : ∀ s ticks, 0 ≤ ticks → undisturbed ((ticks + 1) * 10000) s (vTaskDelay ticks s).

(** [C21] A session with the Cayenne server: the client is initialised for an
    account whose strings fit the buffers, the name of the server resolves, the
    socket connects and the server answers the CONNECT packet.  If it accepts,
    [connectClient] succeeds, and any number of rounds of the task return in
    time; all that went over the socket is, in this order, the CONNECT packet
    with the client id, the user name and the password, the version and the
    model, and eight PUBLISH packets per round, one for each member of the
    sensor data, with values that were there when they were read ([P] is
    whatever is known about those).  If the server refuses, the result is its
    return code, and the socket is closed after the CONNECT packet. *)
Theorem cayenne_session (rounds : nat) (u p c : list Z) (sock : Z) (w4 : W) (h fl code : Z) (rest : list Z) s :
  account u p c → CAYENNE_MAX_MESSAGE_SIZE ≤ zlen (c_buf (client s)) → 4 ≤ zlen (c_readbuf (client s)) →
  dials CAYENNE_DOMAIN CAYENNE_PORT (world s).2 sock w4 →
  incoming w4 = [h; 2; fl; code] ++ rest → is_byte h → header_type h = CONNACK_MSG →
  now w4 + 30000 + 1130000 * Z.of_nat rounds < 2000000000000000 →
  ∃ s1, (CayenneInit u p c ;; connectClient) s = Ok (code, s1) ∧
    if code =? CAYENNE_SUCCESS then
      ∃ s2 dss, cayenne_task_rounds rounds s1 = Ok ((), s2) ∧ length dss = rounds ∧
        Forall (λ ds, length ds = 8%nat ∧ Forall P ds) dss ∧
        outgoing (world s2).2 = outgoing w4 ++ session_start u p c stack_packetid ++
          concat (map (task_packets u c stack_packetid) dss) ∧
        c_isconnected (client s2) = true ∧
        now (world s2).2 ≤ now w4 + 30000 + 1130000 * Z.of_nat rounds
    else session_closed u p c w4 s1.
Proof.
  intros Ha Hb Hr Hd Hi Hh Hty Ht. set (hi' := now w4 + 30000 + 1130000 * Z.of_nat rounds) in *.
  destruct (init_run u p c s Hb Hr) as (s0 & E0 & Hs0 & Ew). rewrite <- Ew in Hd.
  destruct (connectClient_answered u p c sock w4 h fl code rest hi' s0 Ha Hs0 Hd Hi Hh Hty) as (s1 & E1 & H1); [lia..|].
  exists s1. rewrite (bind_run _ _ _ _ _ E0). split; [done|]. destruct (code =? CAYENNE_SUCCESS); [|done].
  destruct H1 as (Ho & _ & Hp & Ht1). destruct Ha.
  destruct (cayenne_task_publishes P sensors_quiet delay_quiet enough_fuel rounds u c hi' s1 Hp)
    as (s2 & dss & E2 & Hl & Hf & Ho2 & Hp2 & Ht2); try done; [unfold hi'; cbn; lia|].
  exists s2, dss. split_and!; try done.
  - change (sent (world s2)) with (outgoing (world s2).2) in Ho2. change (sent (world s1)) with (outgoing (world s1).2) in Ho2.
    by rewrite Ho2, Ho, <- app_assoc.
  - apply Hp2.
  - cbn in *. lia.
Qed.
End Session.

(** ** A run on a concrete socket *)

#[local] Instance live_lwip : Lwip peer := peer_lwip 11.
#[local] Instance live_fuel : Fuel := 4%nat.
#[local] Instance live_peer : LiveSocket peer.
Proof.
  refine {| incoming := inbox; outgoing := outbox; established _ _ := True |}.
  - done.
  - intros s o v w. cbn. split_and!; solve [done | lia].
  - intros s n w _ Hn. cbn. destruct (inbox w) as [|x l] eqn:E; [cbn in Hn; lia|].
    cbn. rewrite length_take. split_and!; solve [done | lia].
  - intros s d w _. cbn. split_and!; solve [done | lia].
  - intros w. cbn. split_and!; solve [done | lia].
Defined.

#[local] Instance live_callbacks : CayenneCallbacks (Network * peer) () () := {|
  run_cayenne _ _ := mret ();
  stack_message := {| cm_clientID := None; cm_topic := UNDEFINED_TOPIC; cm_channel := 0; cm_id := None;
                      cm_type := None; cm_values := replicate 4 no_pair; cm_valueCount := 0 |};
  stack_publish := Build_publish_out 0 0 0 0 MQTTString_initializer 0 0;
  stack_packetid := 0 |}.

(** Sleeping takes time. *)
#[local] Instance live_scheduler : Scheduler (Network * peer) () () := {|
  vTaskDelay ticks s := MkSt (client s) (fst (world s),
    {| ptime := Z.max 0 (ptime (snd (world s))) + 10000 * ticks; inbox := inbox (snd (world s));
       outbox := outbox (snd (world s)) |}) (user s);
  sensor_values s := (sim_values, s) |}.

(** A device before [CayenneInit], and a server that answers with [code]. *)
Definition live_start (code : Z) : CState (Network * peer) () () :=
  MkSt (MQTTClientInit 0 (replicate 135 0) 135 (replicate 135 0) 135 0)
    ({| my_socket := 0; connected := 0 |}, {| ptime := 0; inbox := [32; 2; 0; code]; outbox := [] |})
    (Build_CayenneData None None None [] None ()).

Lemma live_dials code : dials CAYENNE_DOMAIN CAYENNE_PORT (world (live_start code)).2 3 (world (live_start code)).2.
Proof. split; [|done|exact I]. by exists [{| ai_family := AF_INET; ai_addr := 7 |}], {| ai_family := AF_INET; ai_addr := 7 |}, [],
  (world (live_start code)).2, (world (live_start code)).2. Qed.

Lemma live_fuel_enough : (0 < live_fuel)%nat.
Proof. apply Nat.lt_0_succ. Qed.

Lemma cayenne_session_witness :
  let w := (world (live_start 0)).2 in
  ∃ s1, (CayenneInit (bytes "u") (bytes "p") (bytes "d") ;; connectClient) (live_start 0) = Ok (CAYENNE_SUCCESS, s1) ∧
  ∃ s2 dss, cayenne_task_rounds 2 s1 = Ok ((), s2) ∧ length dss = 2%nat ∧
    Forall (λ ds, length ds = 8%nat ∧ Forall (λ d, d = sim_values) ds) dss ∧
    outbox (world s2).2 = [] ++ session_start (bytes "u") (bytes "p") (bytes "d") 0 ++
      concat (map (task_packets (bytes "u") (bytes "d") 0) dss) ∧
    c_isconnected (client s2) = true ∧ now (world s2).2 ≤ 0 + 30000 + 1130000 * 2.
Proof.
  intros w. refine (cayenne_session (W := peer) (Y := ()) (CH := ()) live_fuel_enough (λ d, d = sim_values) _ _ 2
    (bytes "u") (bytes "p") (bytes "d") 3 w 32 0 0 [] (live_start 0) _ _ _ (live_dials 0) eq_refl _ _ _).
  - intros s1. split; [reflexivity|]. split; try reflexivity; [|done]. cbn. lia.
  - intros s1 ticks Ht. split; try reflexivity; [|done]. cbn. lia.
  - split; [decide_vm..| |]; vm_compute; discriminate.
  - vm_compute. discriminate.
  - vm_compute. discriminate.
  - decide_vm.
  - reflexivity.
  - reflexivity.
Defined.

(** What goes over the socket before the first round. *)
Example session_bytes :
  match (CayenneInit (bytes "u") (bytes "p") (bytes "d") ;; connectClient) (live_start 0) with
  | Ok (r, s) => r = 0 ∧ outbox (world s).2 =
      [16; 21; 0; 6] ++ bytes "MQIsdp" ++ [3; 194; 0; 60; 0; 1] ++ bytes "d" ++ [0; 1] ++ bytes "u" ++ [0; 1] ++ bytes "p" ++
      [49; 29; 0; 25] ++ bytes "v1/u/things/d/sys/version" ++ bytes "v1" ++
      [49; 30; 0; 23] ++ bytes "v1/u/things/d/sys/model" ++ bytes "esp32"
  | Fault _ => False
  end.
Proof. vm_compute. by split. Qed.

(** A refused account. *)
Example session_refused :
  match (CayenneInit (bytes "u") (bytes "p") (bytes "d") ;; connectClient) (live_start 5) with
  | Ok (r, s) => r = 5 ∧ c_isconnected (client s) = false ∧ connected (world s).1 = 0
  | Fault _ => False
  end.
Proof. vm_compute. by split_and!. Qed.
