(* ===== verification/Frame.v ===== *)
(** * What the MQTT and Cayenne clients leave alone

    The calls of the two clients that the application makes change the client
    structure and the network, and the user's data only through the message
    handlers.  If those leave it alone, so do the calls. *)

From S2P Require Import Prelude CString MQTTPacket MQTTConnect MQTTPublish Timer Network MQTTClient CayenneUtils CayenneDataArray CayenneMQTTClient.

Create HintDb frame discriminated.

(** Every run of [m] that finishes relates the states before and after it. *)
Definition frames {S A} (R : S → S → Prop) (m : M S A) : Prop := ∀ s a s', m s = Ok (a, s') → R s s'.

Section Rules.
Context {S : Type} (R : S → S → Prop) `{!PreOrder R}.

Lemma frames_ret {A} (a : A) : frames R (mret a).
Proof. by intros s ? s' [= _ <-]. Qed.
Lemma frames_fail {A} e : frames R (fail e : M S A).
Proof. done. Qed.
Lemma frames_gets {A} (g : S → A) : frames R (gets g).
Proof. by intros s ? s' [= _ <-]. Qed.
Lemma frames_lift {A} (o : outcome A) : frames R (lift o).
Proof. intros s a s'. unfold lift. destruct o; [|done]. by intros [= _ <-]. Qed.
Lemma frames_modify g : (∀ s, R s (g s)) → frames R (modify g).
Proof. by intros Hg s [] s' [= <-]. Qed.
Lemma frames_bind {A B} (m : M S A) (k : A → M S B) : frames R m → (∀ a, frames R (k a)) → frames R (m ≫= k).
Proof.
  intros Hm Hk s b s'. unfold mbind, M_bind. destruct (m s) as [[a s1]|f] eqn:E; [|done].
  intros E'. transitivity s1; [by eapply Hm|by eapply Hk].
Qed.
End Rules.

(** The user's data is the same. *)
Definition same_user {N X H} (s s' : St N X H) : Prop := user s' = user s.
#[export] Instance same_user_preorder {N X H} : PreOrder (@same_user N X H).
Proof. split; unfold same_user; [done|]. intros s s' s'' E E'. congruence. Qed.

(** One step: a construct of the monad, or a call with a lemma of its own. *)
Ltac frame_step :=
  match goal with
  | |- frames _ (mret _) => apply frames_ret; apply _
  | |- frames _ (fail _) => apply frames_fail
  | |- frames _ (gets _) => apply frames_gets; apply _
  | |- frames _ (cget _) => apply frames_gets; apply _
  | |- frames _ (yget _) => apply frames_gets; apply _
  | |- frames _ (lift _) => apply frames_lift; apply _
  | |- frames _ (_ ≫= _) => apply frames_bind; [apply _| |intros ?]
  | |- frames _ (let '_ := ?p in _) => destruct p
  | |- frames _ (match ?p with _ => _ end) => destruct p
  | |- frames _ _ => solve [eauto with frame]
  end.
Ltac frame_steps := repeat (cbv zeta; frame_step).

Section Client.
Context {N X H : Type} `{!Clock N, !NetOps N, !Fuel, !Callbacks N X H}.
Abbreviation same := (@same_user N X H).
Hypothesis handlers_keep : ∀ h t m, frames same (run_handler h t m).

Lemma frames_world {A} (m : M N A) : frames same (onWorld m).
Proof. intros s a s'. unfold onWorld. destruct (m (world s)) as [[? ?]|]; [|done]. by intros [= _ <-]. Qed.
Lemma frames_cset g : frames same (cset g).
Proof. by apply frames_modify. Qed.
#[local] Hint Resolve handlers_keep frames_world frames_cset : frame.

Lemma frames_next_id : frames same getNextPacketId.
Proof. unfold getNextPacketId. frame_steps. Qed.
Lemma frames_send_loop k n t c : frames same (send_loop k n t c).
Proof. revert c. induction k; intros c; cbn [send_loop]; frame_steps. Qed.
#[local] Hint Resolve frames_send_loop frames_next_id : frame.
Lemma frames_sendPacket n t : frames same (sendPacket n t).
Proof. unfold sendPacket. frame_steps. Qed.
Lemma frames_read_into o n t : frames same (read_into o n t).
Proof. unfold read_into. frame_steps. Qed.
Lemma frames_serialize f : frames same (serialize f).
Proof. unfold serialize. frame_steps. Qed.
#[local] Hint Resolve frames_sendPacket frames_read_into frames_serialize : frame.
Lemma frames_readPacket t : frames same (readPacket t).
Proof. unfold readPacket, readPacket_body, decodePacket. frame_steps. Qed.
Lemma frames_deliver_loop k i t m rc : frames same (deliver_loop k i t m rc).
Proof. revert i rc. induction k; intros i rc; cbn [deliver_loop]; frame_steps. Qed.
#[local] Hint Resolve frames_readPacket frames_deliver_loop : frame.
Lemma frames_deliver t m : frames same (deliverMessage t m).
Proof. unfold deliverMessage. frame_steps. Qed.
Lemma frames_keepalive : frames same keepalive.
Proof. unfold keepalive, send_ping. frame_steps. Qed.
#[local] Hint Resolve frames_deliver frames_keepalive : frame.
Lemma frames_cycle t : frames same (cycle t).
Proof. unfold cycle, cycle_work, cycle_dispatch, cycle_publish, cycle_pubrec. frame_steps. Qed.
#[local] Hint Resolve frames_cycle : frame.
Lemma frames_waitfor_loop k p t : frames same (waitfor_loop k p t).
Proof. induction k; cbn [waitfor_loop]; frame_steps. Qed.
#[local] Hint Resolve frames_waitfor_loop : frame.
Lemma frames_waitfor p t : frames same (waitfor p t).
Proof. unfold waitfor. frame_steps. Qed.
#[local] Hint Resolve frames_waitfor : frame.
Lemma frames_connect o : frames same (MQTTConnect o).
Proof. unfold MQTTConnect, connect_await. frame_steps. Qed.
Lemma frames_publish t m : frames same (MQTTPublish t m).
Proof. unfold MQTTPublish, await_ack. frame_steps. Qed.
End Client.

Section Cayenne.
Context {N Y CH : Type} `{!Clock N, !NetOps N, !Fuel, !CayenneCallbacks N Y CH}.
Abbreviation same := (@same_user N (CayenneData CH Y) mqtt_handler).
Hypothesis app_keeps : ∀ g m, frames same (run_cayenne g m).

Lemma frames_write_memory o m : frames same (write_memory o m : M (CState N Y CH) ()).
Proof. by apply frames_modify. Qed.
Lemma frames_readbuf b :
  frames same (modify (λ s : CState N Y CH, MkSt (set_readbuf b (client s)) (world s) (user s))).
Proof. by apply frames_modify. Qed.
#[local] Hint Resolve app_keeps frames_write_memory frames_readbuf : frame.

Lemma frames_arrived_loop k i m r : frames same (arrived_loop k i m r).
Proof. revert i r. induction k; intros i r; cbn [arrived_loop]; unfold message_string; frame_steps. Qed.
#[local] Hint Resolve frames_arrived_loop : frame.
Lemma frames_arrived h t m : frames same (run_handler h t m : M (CState N Y CH) ()).
Proof.
  destruct h. cbn. unfold MQTTMessageArrived, arrived_topic, arrived_payload, arrived_dispatch, read_memory. frame_steps.
Qed.

Let connect_keeps := frames_connect frames_arrived.
Let publish_keeps := frames_publish frames_arrived.
#[local] Hint Resolve connect_keeps publish_keeps : frame.

Lemma frames_cayenne_connect : frames same (CayenneMQTTConnect : M (CState N Y CH) Z).
Proof. unfold CayenneMQTTConnect. frame_steps. Qed.
Lemma frames_cayenne_publish c t ch ty u v : frames same (CayenneMQTTPublishData c t ch ty u v : M (CState N Y CH) Z).
Proof.
  unfold CayenneMQTTPublishData, CayenneMQTTPublishDataArray, build_topic, or_own, publish_built. frame_steps.
Qed.
End Cayenne.
