(* ===== verification/WiFi.v ===== *)
(** * esp32iot_wifi.c: the WiFi component

    Models [src/main/src/WiFi/esp32iot_wifi.c]: the configuration of the WiFi
    driver, the start of the network and the handler of its events, which ties
    the settings in flash, the Cayenne client and the Bluetooth client together.

    The state of the application is the part [y_app] of the state of the Cayenne
    client: the credentials of the network, the flash, the Bluetooth client and
    the drivers of the ESP-IDF, which are the class [Idf] on a world [D].  An
    error that [ESP_ERROR_CHECK] sees stops the program with [EspAbort].  Log
    output is left out. *)

From S2P Require Import Prelude CString Timer Network MQTTClient CayenneUtils CayenneDataArray CayenneMQTTClient Storage Double Bluetooth CayenneTask.

(** ** Data *)

(** Both strings are arrays, of 33 and 64 bytes. *)
Record wifi_evidence_t := { ssid : list Z; password : list Z }.
Definition actual_wifi_initializer : wifi_evidence_t := {| ssid := replicate 33 0; password := replicate 64 0 |}.

Definition DEFAULT_AP_SSID : list Z := bytes "S/M/H_Beacon".
Definition DEFAULT_AP_PASSWORD : list Z := bytes "smh_322aq".

Inductive wifi_auth_mode := WIFI_AUTH_OPEN | WIFI_AUTH_WPA2_PSK.
Inductive wifi_mode := WIFI_MODE_STA | WIFI_MODE_AP | WIFI_MODE_APSTA.

(** [wifi_config_t] of the driver is a union; its strings are arrays of 32 and
    64 bytes. *)
Record wifi_ap_config := {
  ap_ssid : list Z; ap_password : list Z; ap_channel : Z; ap_authmode : wifi_auth_mode; ap_ssid_hidden : Z;
  ap_max_connection : Z; ap_beacon_interval : Z }.
Record wifi_sta_config := { sta_ssid : list Z; sta_password : list Z; sta_bssid_set : bool; sta_channel : Z }.
Inductive wifi_config := ap (c : wifi_ap_config) | sta (c : wifi_sta_config).

(** A string in a zeroed array of [n] bytes. *)
Definition array_of (n : nat) (s : list Z) : list Z := take n (s ++ replicate n 0).

(** The tasks the program creates. *)
Inductive task := cayenne_task_handler | http_server_task.

(** Calls of the ESP-IDF that return a code. *)
Inductive idf_request :=
| tcpip_adapter_init
| tcpip_adapter_dhcps_stop
| tcpip_adapter_set_ip_info (ip gw netmask : list Z)
| tcpip_adapter_dhcps_start
| esp_event_loop_init
| esp_wifi_init
| esp_wifi_set_storage_ram
| esp_wifi_set_mode (m : wifi_mode)
| esp_wifi_set_config (c : wifi_config)
| esp_wifi_start
| esp_wifi_connect
| esp_wifi_scan_start
| xTaskCreate (t : task) (stack : Z).

(** [scan_ap_num]: the number of networks the last scan found; [scan_malloc]:
    whether there is memory for so many records; [scan_records]: the code of the
    call that copies them.  [stack_arrays]: what is in the three local arrays of
    100 bytes of the event handler before they are written. *)
Class Idf (D : Type) := {
  idf_call : idf_request → D → Z * D;
  scan_ap_num : D → Z;
  scan_malloc : Z → D → bool;
  scan_records : Z → D → Z * D;
  stack_arrays : D → list Z * list Z * list Z }.

(** The strings the form of the HTTP server sets, with their terminators. *)
Record form_t := { f_username : list Z; f_password : list Z; f_clientID : list Z }.

(** The state of the application besides the Cayenne client. *)
Record App (F B D : Type) := MkApp {
  actual_wifi : wifi_evidence_t;
  form : form_t;
  flash : F;
  bluetooth : Bt * B;
  idf : D }.
Arguments MkApp {F B D}.
Arguments actual_wifi {F B D}.
Arguments form {F B D}.
Arguments flash {F B D}.
Arguments bluetooth {F B D}.
Arguments idf {F B D}.

(** The codes the source names, and the others by number. *)
Inductive wifi_err :=
| ESP_ERR_WIFI_OK | ESP_ERR_WIFI_FAIL | ESP_ERR_WIFI_NO_MEM | ESP_ERR_WIFI_ARG | ESP_ERR_WIFI_NOT_SUPPORT
| ESP_ERR_WIFI_NOT_INIT | ESP_ERR_WIFI_NOT_STARTED | ESP_ERR_WIFI_NOT_STOPPED | ESP_ERR_WIFI_IF
| ESP_ERR_WIFI_MODE | ESP_ERR_WIFI_STATE | ESP_ERR_WIFI_CONN | ESP_ERR_WIFI_NVS | ESP_ERR_WIFI_MAC
| ESP_ERR_WIFI_SSID | ESP_ERR_WIFI_PASSWORD | ESP_ERR_WIFI_TIMEOUT | ESP_ERR_WIFI_WAKE_FAIL
| ESP_ERR_WIFI_WOULD_BLOCK | ESP_ERR_WIFI_NOT_CONNECT
| WIFI_ERR_OTHER (code : Z).

Definition wifi_err_to_string (ev : wifi_err) : list Z :=
  match ev with
  | ESP_ERR_WIFI_OK => bytes "ESP_ERR_WIFI_OK"
  | ESP_ERR_WIFI_FAIL => bytes "ESP_ERR_WIFI_FAIL"
  | ESP_ERR_WIFI_NO_MEM => bytes "ESP_ERR_WIFI_NO_MEM"
  | ESP_ERR_WIFI_ARG => bytes "ESP_ERR_WIFI_ARG"
  | ESP_ERR_WIFI_NOT_SUPPORT => bytes "ESP_ERR_WIFI_NOT_SUPPORT"
  | ESP_ERR_WIFI_NOT_INIT => bytes "ESP_ERR_WIFI_NOT_INIT"
  | ESP_ERR_WIFI_NOT_STARTED => bytes "ESP_ERR_WIFI_NOT_STARTED"
  | ESP_ERR_WIFI_NOT_STOPPED => bytes "ESP_ERR_WIFI_NOT_STOPPED"
  | ESP_ERR_WIFI_IF => bytes "ESP_ERR_WIFI_IF"
  | ESP_ERR_WIFI_MODE => bytes "ESP_ERR_WIFI_MODE"
  | ESP_ERR_WIFI_STATE => bytes "ESP_ERR_WIFI_STATE"
  | ESP_ERR_WIFI_CONN => bytes "ESP_ERR_WIFI_CONN"
  | ESP_ERR_WIFI_NVS => bytes "ESP_ERR_WIFI_NVS"
  | ESP_ERR_WIFI_MAC => bytes "ESP_ERR_WIFI_MAC"
  | ESP_ERR_WIFI_SSID => bytes "ESP_ERR_WIFI_SSID"
  | ESP_ERR_WIFI_PASSWORD => bytes "ESP_ERR_WIFI_PASSWORD"
  | ESP_ERR_WIFI_TIMEOUT => bytes "ESP_ERR_WIFI_TIMEOUT"
  | ESP_ERR_WIFI_WAKE_FAIL => bytes "ESP_ERR_WIFI_WAKE_FAIL"
  | ESP_ERR_WIFI_WOULD_BLOCK => bytes "ESP_ERR_WIFI_WOULD_BLOCK"
  | ESP_ERR_WIFI_NOT_CONNECT => bytes "ESP_ERR_WIFI_NOT_CONNECT"
  | WIFI_ERR_OTHER code => bytes "Unknown event: " ++ sdec code
  end.

(** The events; the ones that are only logged are [SYSTEM_EVENT_LOGGED]. *)
Inductive logged_event :=
| SYSTEM_EVENT_WIFI_READY | SYSTEM_EVENT_STA_STOP | SYSTEM_EVENT_STA_AUTHMODE_CHANGE | SYSTEM_EVENT_STA_LOST_IP
| SYSTEM_EVENT_STA_WPS_ER_SUCCESS | SYSTEM_EVENT_STA_WPS_ER_FAILED | SYSTEM_EVENT_STA_WPS_ER_TIMEOUT
| SYSTEM_EVENT_STA_WPS_ER_PIN | SYSTEM_EVENT_AP_START | SYSTEM_EVENT_AP_STOP | SYSTEM_EVENT_AP_STADISCONNECTED
| SYSTEM_EVENT_AP_STACONNECTED | SYSTEM_EVENT_AP_PROBEREQRECVED | SYSTEM_EVENT_GOT_IP6 | SYSTEM_EVENT_ETH_START
| SYSTEM_EVENT_ETH_STOP | SYSTEM_EVENT_ETH_CONNECTED | SYSTEM_EVENT_ETH_DISCONNECTED | SYSTEM_EVENT_ETH_GOT_IP
| SYSTEM_EVENT_MAX | SYSTEM_EVENT_OTHER (id : Z).
Inductive system_event :=
| SYSTEM_EVENT_SCAN_DONE
| SYSTEM_EVENT_STA_START
| SYSTEM_EVENT_STA_CONNECTED
| SYSTEM_EVENT_STA_DISCONNECTED
| SYSTEM_EVENT_STA_GOT_IP
| SYSTEM_EVENT_LOGGED (e : logged_event).

(** ** Operations *)

Section WiFi.
Context {W F B D CH : Type} `{!Lwip W, !Clock W, !Fuel, !Nvs F, !Bluedroid B, !Idf D}.
Context `{!CayenneCallbacks (Network * W) (App F B D) CH, !Scheduler (Network * W) (App F B D) CH}.
Abbreviation State := (CState (Network * W) (App F B D) CH).
Abbreviation CM := (M State).

Definition app_of (s : State) : App F B D := y_app (user s).
Definition set_app (a : App F B D) (s : State) : State :=
  MkSt (client s) (world s)
    (Build_CayenneData (y_username (user s)) (y_password (user s)) (y_clientID (user s))
       (y_messageHandlers (user s)) (y_defaultMessageHandler (user s)) a).

(** Running an operation of a component on its part of the state. *)
Definition on_flash {A} (m : M F A) : CM A := λ s,
  let a := app_of s in
  '(r, f) ← m (flash a); Ok (r, set_app (MkApp (actual_wifi a) (form a) f (bluetooth a) (idf a)) s).
Definition on_bluetooth {A} (m : M (Bt * B) A) : CM A := λ s,
  let a := app_of s in
  '(r, b) ← m (bluetooth a); Ok (r, set_app (MkApp (actual_wifi a) (form a) (flash a) b (idf a)) s).
Definition on_idf {A} (m : M D A) : CM A := λ s,
  let a := app_of s in
  '(r, d) ← m (idf a); Ok (r, set_app (MkApp (actual_wifi a) (form a) (flash a) (bluetooth a) d) s).
Definition set_actual_wifi (w : wifi_evidence_t) : CM () := modify (λ s,
  let a := app_of s in set_app (MkApp w (form a) (flash a) (bluetooth a) (idf a)) s).

Definition idf_do (r : idf_request) : CM Z := on_idf (λ d, Ok (idf_call r d)).

(** [ESP_ERROR_CHECK] of a code and of a call. *)
Definition check (err : Z) : CM () := if err =? 0 then mret () else fail EspAbort.
Definition idf_check (r : idf_request) : CM () := err ← idf_do r; check err.
(** The same for the codes of the flash. *)
Definition check_flash (err : esp_err) : CM () := if bool_decide (err = ESP_OK) then mret () else fail EspAbort.

Definition wifi_scan_start : CM Z := idf_check esp_wifi_scan_start ;; mret 0.

(** The printing of the records is left out. *)
Definition wifi_scan_get : CM Z :=
  apCount ← gets (λ s, scan_ap_num (idf (app_of s)));
  if apCount =? 0 then mret 6 else
  ok ← gets (λ s, scan_malloc apCount (idf (app_of s)));
  if negb ok then mret 7 else
  err ← on_idf (λ d, Ok (scan_records apCount d));
  check err ;;
  mret 0.

Definition wifi_initialize : CM Z :=
  idf_do tcpip_adapter_init ;;
  idf_check tcpip_adapter_dhcps_stop ;;
  idf_check (tcpip_adapter_set_ip_info [192; 168; 4; 1] [192; 168; 4; 1] [255; 255; 255; 0]) ;;
  idf_check tcpip_adapter_dhcps_start ;;
  idf_check esp_event_loop_init ;;
  idf_check esp_wifi_init ;;
  idf_check esp_wifi_set_storage_ram ;;
  mret 0.

Definition default_ap : wifi_ap_config := {|
  ap_ssid := array_of 32 DEFAULT_AP_SSID; ap_password := array_of 64 DEFAULT_AP_PASSWORD; ap_channel := 0;
  ap_authmode := WIFI_AUTH_WPA2_PSK; ap_ssid_hidden := 0; ap_max_connection := 4; ap_beacon_interval := 100 |}.

Definition wifi_ap_configure : CM Z :=
  idf_check (esp_wifi_set_mode WIFI_MODE_AP) ;;
  idf_check (esp_wifi_set_config (ap default_ap)) ;;
  mret 0.

(** The loops that copy the two strings with their terminators. *)
Definition sta_copy (id pass : list Z) : outcome wifi_sta_config :=
  i ← strcpy (replicate 32 0) id;
  p ← strcpy (replicate 64 0) pass;
  Ok {| sta_ssid := i; sta_password := p; sta_bssid_set := false; sta_channel := 1 |}.

Definition wifi_sta_configure (id pass : list Z) : CM Z :=
  idf_check (esp_wifi_set_mode WIFI_MODE_STA) ;;
  c ← lift (sta_copy id pass);
  idf_check (esp_wifi_set_config (sta c)) ;;
  mret 0.

(** The initializer names both members of the union; the last one counts. *)
Definition wifi_apsta_configure (id pass : list Z) : CM Z :=
  idf_check (esp_wifi_set_mode WIFI_MODE_APSTA) ;;
  c ← lift (sta_copy id pass);
  idf_check (esp_wifi_set_config (sta c)) ;;
  mret 0.

(** [strcmp(a, "") && strcmp(b, "") && ...]: the first byte of each array, up to
    the first empty string. *)
Fixpoint all_nonempty (l : list (list Z)) : outcome bool :=
  match l with
  | [] => Ok true
  | a :: l => c ← load a 0; if c =? 0 then Ok false else all_nonempty l
  end.

(** The strings in [actual_wifi]. *)
Definition wifi_strings : CM (list Z * list Z) :=
  w ← gets (λ s, actual_wifi (app_of s));
  i ← lift (cstr (ssid w));
  p ← lift (cstr (password w));
  mret (i, p).

Definition wifi_start : CM Z :=
  err ← wifi_initialize;
  check err ;;
  w ← gets (λ s, actual_wifi (app_of s));
  '(err, i, p) ← on_flash (get_last_connected_wifi (ssid w) (password w));
  set_actual_wifi {| ssid := i; password := p |} ;;
  check_flash err ;;
  known ← lift (all_nonempty [i; p]);
  err ← (if known : bool then '(i, p) ← wifi_strings; wifi_sta_configure i p else wifi_ap_configure);
  check err ;;
  idf_check esp_wifi_start ;;
  mret 0.

(** [while(connectClient() != CAYENNE_SUCCESS) delay(2000);] *)
Fixpoint connect_loop (k : nat) : CM () :=
  match k with
  | O => fail OutOfFuel
  | S k =>
      err ← connectClient;
      if err =? CAYENNE_SUCCESS then mret () else delay 2000 ;; connect_loop k
  end.

(** [while(1) cayenne_task();] *)
Fixpoint task_loop (k : nat) : CM () :=
  match k with
  | O => fail OutOfFuel
  | S k => cayenne_task ;; task_loop k
  end.

(** The account in flash, if each of its strings is there and not empty. *)
Definition stored_account : CM (option (list Z * list Z * list Z)) :=
  '(u, p, c) ← gets (λ s, stack_arrays (idf (app_of s)));
  '(err, u, p, c) ← on_flash (get_last_connected_mqtt u p c);
  check_flash err ;;
  known ← lift (all_nonempty [u; p; c]);
  if known : bool then
    u ← lift (cstr u); p ← lift (cstr p); c ← lift (cstr c);
    mret (Some (u, p, c))
  else mret None.

(** The Cayenne client starts once there is an address; [junk] is the result
    register of [bluetooth_initialize]. *)
Definition got_ip (junk : Z) : CM () :=
  account ← stored_account;
  match account with
  | None => mret ()
  | Some (u, p, c) =>
      delay 1000 ;;
      CayenneInit u p c ;;
      connected ← CayenneMQTTConnected;
      if negb connected then
        err ← connectClient;
        if negb (err =? CAYENNE_SUCCESS) then
          connect_loop fuel ;;
          idf_do (xTaskCreate cayenne_task_handler (36 * 1024)) ;;
          mret ()
        else
          err ← on_bluetooth (bluetooth_initialize junk);
          check err ;;
          task_loop fuel
      else
        idf_do (xTaskCreate cayenne_task_handler (36 * 1024)) ;;
        mret ()
  end.

Definition wifi_event_handler (junk : Z) (e : system_event) : CM Z :=
  match e with
  | SYSTEM_EVENT_SCAN_DONE => err ← wifi_scan_get; check err
  | SYSTEM_EVENT_STA_START => idf_check esp_wifi_connect
  | SYSTEM_EVENT_STA_CONNECTED =>
      '(i, p) ← wifi_strings;
      on_flash (save_last_connected_wifi i p) ;;
      on_flash (save_wifi i p) ;;
      mret ()
  | SYSTEM_EVENT_STA_DISCONNECTED =>
      err ← wifi_ap_configure;
      check err ;;
      idf_check esp_wifi_start
  | SYSTEM_EVENT_STA_GOT_IP => got_ip junk
  | SYSTEM_EVENT_LOGGED _ => mret ()
  end ;;
  mret 0.
End WiFi.
