(* ===== verification/WiFiProofs.v ===== *)
(** * The WiFi component: starting, remembering, blocking

    Which network the device starts, that a network it was connected to is
    found again after a restart, and what the event handler does once there is
    an address. *)

From S2P Require Import Prelude CString Timer Network MQTTClient CayenneUtils CayenneDataArray CayenneMQTTClient Storage Double Bluetooth CayenneTask WiFi.

(** ** Strings in arrays *)

Lemma copied_array n s : zlen s < Z.of_nat n → copied (replicate n 0) s = array_of n s.
Proof.
  intros Hl. unfold copied, array_of. rewrite take_app_ge by lia. f_equal.
  rewrite drop_replicate, take_replicate, Nat.min_l by lia.
  by replace (n - length s)%nat with (S (n - S (length s))) by lia.
Qed.

Lemma cstr_array n s : is_cstring s → zlen s < Z.of_nat n → cstr (array_of n s) = Ok s.
Proof. intros Hs Hl. rewrite <- copied_array by done. by apply cstr_app. Qed.

Lemma sta_copy_fits i p :
  zlen i < 32 → zlen p < 64 →
  sta_copy i p = Ok {| sta_ssid := array_of 32 i; sta_password := array_of 64 p; sta_bssid_set := false; sta_channel := 1 |}.
Proof.
  intros Hi Hp. unfold sta_copy. rewrite !strcpy_fits by (rewrite length_replicate; lia).
  rewrite !bind_ok. by rewrite !copied_array by lia.
Qed.

Lemma sta_copy_long i p : 32 ≤ zlen i → sta_copy i p = Fault OobWrite.
Proof.
  intros Hi. unfold sta_copy, strcpy. rewrite (store_bytes_oob (replicate 32 0) 0 (i ++ [0])); [done|].
  rewrite length_app, length_replicate. cbn [length]. lia.
Qed.

(** A stored string that is there and not empty. *)
Definition given (o : option (list Z)) : bool := match o with Some (_ :: _) => true | _ => false end.

Lemma array_first n o : string_ok (Z.of_nat (S n)) o →
  ∃ c, load (copied_from (replicate (S n) 0) o) 0 = Ok c ∧ (c =? 0) = negb (given o).
Proof.
  destruct o as [[|c s]|]; cbn [copied_from given negb].
  - intros _. by exists 0.
  - intros [Hs _]. exists c. split; [apply load_head|]. apply Forall_cons in Hs as [Hc _]. by apply Z.eqb_neq; lia.
  - intros _. exists 0. split; [apply load_head|done].
Qed.

Lemma all_nonempty_given n m os op :
  string_ok (Z.of_nat (S n)) os → string_ok (Z.of_nat (S m)) op →
  all_nonempty [copied_from (replicate (S n) 0) os; copied_from (replicate (S m) 0) op] = Ok (given os && given op).
Proof.
  intros Hs Hp. destruct (array_first n os Hs) as (c & E & Hc). destruct (array_first m op Hp) as (c' & E' & Hc').
  cbn [all_nonempty]. rewrite E, bind_ok, Hc. destruct (given os); [|done]. cbn [negb].
  rewrite E', bind_ok, Hc'. by destruct (given op).
Qed.

(** ** The driver *)

(** The calls made so far; the driver accepts each of them. *)
Class TracedIdf (D : Type) `{!Idf D} := {
  idf_trace : D → list idf_request;
  idf_call_trace r d : idf_trace (idf_call r d).2 = idf_trace d ++ [r];
  idf_call_ok r d : (idf_call r d).1 = 0 }.

Definition init_calls : list idf_request :=
  [tcpip_adapter_init; tcpip_adapter_dhcps_stop;
   tcpip_adapter_set_ip_info [192; 168; 4; 1] [192; 168; 4; 1] [255; 255; 255; 0]; tcpip_adapter_dhcps_start;
   esp_event_loop_init; esp_wifi_init; esp_wifi_set_storage_ram].

Definition station (i p : list Z) : wifi_config :=
  sta {| sta_ssid := array_of 32 i; sta_password := array_of 64 p; sta_bssid_set := false; sta_channel := 1 |}.

(** Joining the network [i], or opening the device's own. *)
Definition join_calls (i p : list Z) : list idf_request :=
  [esp_wifi_set_mode WIFI_MODE_STA; esp_wifi_set_config (station i p); esp_wifi_start].
Definition beacon_calls : list idf_request :=
  [esp_wifi_set_mode WIFI_MODE_AP; esp_wifi_set_config (ap default_ap); esp_wifi_start].
Definition start_calls (os op : option (list Z)) : list idf_request :=
  match os, op with Some (c :: i), Some (d :: p) => join_calls (c :: i) (d :: p) | _, _ => beacon_calls end.

Section Starting.
Context {W F B D CH : Type} `{!Lwip W, !Clock W, !Fuel, !Nvs F, !NvsLaws F, !Bluedroid B, !Idf D, !TracedIdf D}.
Context `{!CayenneCallbacks (Network * W) (App F B D) CH, !Scheduler (Network * W) (App F B D) CH}.
Abbreviation State := (CState (Network * W) (App F B D) CH).
Implicit Types (s : State).

(** The application's state in [s] is [w], [f] and [b], the calls to the driver
    are [l], and the rest is that of [s0]. *)
Definition at_app (w : wifi_evidence_t) (f : F) (b : Bt * B) (l : list idf_request) (s0 s : State) : Prop :=
  ∃ d, s = set_app (MkApp w (form (app_of s0)) f b d) s0 ∧ idf_trace d = l.

Lemma at_app_here s :
  at_app (actual_wifi (app_of s)) (flash (app_of s)) (bluetooth (app_of s)) (idf_trace (idf (app_of s))) s s.
Proof. exists (idf (app_of s)). split; [|done]. destruct s as [c w [u p i h d [? ? ? ? ?]]]. done. Qed.

Lemma twp_idf_do {A} r (k : Z → M State A) Q w f b l s0 s :
  at_app w f b l s0 s → (∀ s', at_app w f b (l ++ [r]) s0 s' → twp (k 0) Q s') → twp (idf_do r ≫= k) Q s.
Proof.
  intros (d & -> & Hd) HQ. apply twp_bind. unfold twp at 1, idf_do, on_idf. cbn.
  pose proof (idf_call_ok r d) as E. pose proof (idf_call_trace r d) as Et.
  destruct (idf_call r d) as [e d']. cbn in E, Et. subst e. apply HQ. exists d'. by rewrite Et, Hd.
Qed.

Lemma twp_idf_check {A} r (k : () → M State A) Q w f b l s0 s :
  at_app w f b l s0 s → (∀ s', at_app w f b (l ++ [r]) s0 s' → twp (k ()) Q s') → twp (idf_check r ≫= k) Q s.
Proof.
  intros Hs HQ. apply twp_bind. unfold idf_check. eapply twp_idf_do; [exact Hs|]. intros s' Hs'. by apply HQ.
Qed.

Lemma twp_idf_check_last r (Q : () → State → Prop) w f b l s0 s :
  at_app w f b l s0 s → (∀ s', at_app w f b (l ++ [r]) s0 s' → Q () s') → twp (idf_check r) Q s.
Proof. intros Hs HQ. unfold idf_check. eapply twp_idf_do; [exact Hs|]. intros s' Hs'. by apply HQ. Qed.

Lemma twp_on_flash {A} (m : M F A) P (Q : A → State → Prop) w f b l s0 s :
  at_app w f b l s0 s → twp m P f → (∀ a f' s', P a f' → at_app w f' b l s0 s' → Q a s') → twp (on_flash m) Q s.
Proof.
  intros (d & -> & Hd) Hm HQ. apply twp_run in Hm as (a & f' & E & HP).
  unfold twp, on_flash. cbn. rewrite E. cbn. apply (HQ a f'); [done|]. by exists d.
Qed.

Lemma twp_flash {A C} (m : M F A) (k : A → M State C) Q w f b l s0 s P :
  at_app w f b l s0 s → twp m P f → (∀ a f' s', P a f' → at_app w f' b l s0 s' → twp (k a) Q s') →
  twp (on_flash m ≫= k) Q s.
Proof. intros Hs Hm HQ. apply twp_bind. by eapply twp_on_flash. Qed.

Lemma twp_set_wifi {A} w' (k : () → M State A) Q w f b l s0 s :
  at_app w f b l s0 s → (∀ s', at_app w' f b l s0 s' → twp (k ()) Q s') → twp (set_actual_wifi w' ≫= k) Q s.
Proof. intros (d & -> & Hd) HQ. apply twp_bind, twp_modify, HQ. by exists d. Qed.

Lemma twp_initialize (Q : Z → State → Prop) w f b l s0 s :
  at_app w f b l s0 s → (∀ s', at_app w f b (l ++ init_calls) s0 s' → Q 0 s') → twp wifi_initialize Q s.
Proof.
  intros Hs HQ. unfold wifi_initialize. eapply twp_idf_do; [exact Hs|]. clear s Hs.
  do 6 (intros s Hs; eapply twp_idf_check; [exact Hs|]; clear s Hs). intros s Hs. apply twp_ret, HQ.
  unfold init_calls. by rewrite <- !app_assoc in Hs.
Qed.

(** Joining a network, and opening one; both return zero. *)
Lemma twp_sta_configure i p (Q : Z → State → Prop) w f b l s0 s :
  at_app w f b l s0 s → zlen i < 32 → zlen p < 64 →
  (∀ s', at_app w f b (l ++ [esp_wifi_set_mode WIFI_MODE_STA; esp_wifi_set_config (station i p)]) s0 s' → Q 0 s') →
  twp (wifi_sta_configure i p) Q s.
Proof.
  intros Hs Hi Hp HQ. unfold wifi_sta_configure. eapply twp_idf_check; [exact Hs|]. clear s Hs.
  intros s Hs. apply twp_bind. eapply twp_lift; [by apply sta_copy_fits|].
  eapply twp_idf_check; [exact Hs|]. clear s Hs. intros s Hs. apply twp_ret, HQ. by rewrite <- app_assoc in Hs.
Qed.

Lemma twp_apsta_configure i p (Q : Z → State → Prop) w f b l s0 s :
  at_app w f b l s0 s → zlen i < 32 → zlen p < 64 →
  (∀ s', at_app w f b (l ++ [esp_wifi_set_mode WIFI_MODE_APSTA; esp_wifi_set_config (station i p)]) s0 s' → Q 0 s') →
  twp (wifi_apsta_configure i p) Q s.
Proof.
  intros Hs Hi Hp HQ. unfold wifi_apsta_configure. eapply twp_idf_check; [exact Hs|]. clear s Hs.
  intros s Hs. apply twp_bind. eapply twp_lift; [by apply sta_copy_fits|].
  eapply twp_idf_check; [exact Hs|]. clear s Hs. intros s Hs. apply twp_ret, HQ. by rewrite <- app_assoc in Hs.
Qed.

Lemma twp_ap_configure (Q : Z → State → Prop) w f b l s0 s :
  at_app w f b l s0 s →
  (∀ s', at_app w f b (l ++ [esp_wifi_set_mode WIFI_MODE_AP; esp_wifi_set_config (ap default_ap)]) s0 s' → Q 0 s') →
  twp wifi_ap_configure Q s.
Proof.
  intros Hs HQ. unfold wifi_ap_configure. eapply twp_idf_check; [exact Hs|]. clear s Hs.
  intros s Hs. eapply twp_idf_check; [exact Hs|]. clear s Hs. intros s Hs. apply twp_ret, HQ. by rewrite <- app_assoc in Hs.
Qed.

Lemma twp_wifi_strings i p (Q : list Z * list Z → State → Prop) w f b l s0 s :
  at_app w f b l s0 s → cstr (ssid w) = Ok i → cstr (password w) = Ok p → Q (i, p) s → twp wifi_strings Q s.
Proof.
  intros (d & -> & _) Ei Ep HQ. unfold wifi_strings. apply twp_bind, twp_gets. cbn.
  eapply twp_bind, twp_lift; [exact Ei|]. eapply twp_bind, twp_lift; [exact Ep|]. by apply twp_ret.
Qed.

(** Reading the credentials at the start. *)
Lemma twp_start_with {A} os op (k : list Z * list Z → M State A) Q b l s0 s f :
  at_app actual_wifi_initializer f b l s0 s → healthy f →
  holds (items f) WIFI (bytes "last_ssid") os → holds (items f) WIFI (bytes "last_password") op →
  string_ok 33 os → string_ok 64 op →
  let w := {| ssid := copied_from (replicate 33 0) os; password := copied_from (replicate 64 0) op |} in
  (∀ f' s', at_app w f' b l s0 s' → items f' = items f → healthy f' → twp (k (ssid w, password w)) Q s') →
  twp (w ← gets (λ s, actual_wifi (app_of s));
       '(err, i, p) ← on_flash (get_last_connected_wifi (ssid w) (password w));
       set_actual_wifi {| ssid := i; password := p |} ;;
       check_flash err ;; k (i, p)) Q s.
Proof.
  intros Hs Hh Ho Hp Hs1 Hp1 w HQ. apply twp_bind, twp_gets.
  replace (actual_wifi (app_of s)) with actual_wifi_initializer by (by destruct Hs as (d & -> & _)).
  eapply twp_flash; [exact Hs|by apply (twp_get_last_wifi os op)|]. cbn beta.
  intros [[e i] p] f' s' (E & Hi & Hh') Hs'. injection E as -> -> ->.
  eapply twp_set_wifi; [exact Hs'|]. intros s2 Hs2. apply twp_bind, twp_ret. by apply (HQ f').
Qed.

(** What [wifi_start] does with the credentials it finds. *)
Lemma twp_wifi_start os op b l s0 s f :
  at_app actual_wifi_initializer f b l s0 s → healthy f →
  holds (items f) WIFI (bytes "last_ssid") os → holds (items f) WIFI (bytes "last_password") op →
  string_ok 32 os → string_ok 64 op →
  twp wifi_start (λ r s', r = 0 ∧ ∃ w f', at_app w f' b (l ++ init_calls ++ start_calls os op) s0 s' ∧
    items f' = items f ∧ healthy f') s.
Proof.
  intros Hs Hh Ho Hp Hs1 Hp1.
  assert (Hs33 : string_ok 33 os) by (destruct os; [destruct Hs1; split; [done|lia]|done]).
  unfold wifi_start. apply twp_bind. eapply twp_initialize; [exact Hs|]. clear s Hs. intros s Hs. apply twp_bind, twp_ret.
  eapply (twp_start_with os op (λ '(i, p), known ← lift (all_nonempty [i; p]);
    err ← (if known : bool then '(i, p) ← wifi_strings; wifi_sta_configure i p else wifi_ap_configure);
    check err ;; idf_check esp_wifi_start ;; mret 0)); [exact Hs|done..|].
  clear s Hs. intros f' s Hs Hi Hh'. eapply twp_bind, twp_lift; [by apply (all_nonempty_given 32 63)|].
  assert (Hend : ∀ w l' s2, at_app w f' b l' s0 s2 → l' ++ [esp_wifi_start] = l ++ init_calls ++ start_calls os op →
    twp (check 0 ;; idf_check esp_wifi_start ;; mret 0) (λ r s', r = 0 ∧ ∃ w f'',
      at_app w f'' b (l ++ init_calls ++ start_calls os op) s0 s' ∧ items f'' = items f ∧ healthy f'') s2).
  { intros w l' s2 Hs2 El. apply twp_bind, twp_ret. eapply twp_idf_check; [exact Hs2|]. intros s3 Hs3.
    apply twp_ret. split; [done|]. exists w, f'. by rewrite <- El. }
  apply twp_bind. destruct (given os && given op) eqn:Eg.
  - apply andb_true_iff in Eg as [Eo Ep]. destruct os as [[|c i]|], op as [[|c' p]|]; try done.
    destruct Hs1 as [Hs1 Hs2], Hp1 as [Hp1 Hp2].
    apply twp_bind. eapply (twp_wifi_strings (c :: i) (c' :: p)); [exact Hs|by apply cstr_app|by apply cstr_app|].
    eapply twp_sta_configure; [exact Hs|done..|]. intros s2 Hs2'. eapply Hend; [exact Hs2'|]. by rewrite <- !app_assoc.
  - assert (Ec : start_calls os op = beacon_calls) by (destruct os as [[|c i]|], op as [[|c' p]|]; done).
    eapply twp_ap_configure; [exact Hs|]. intros s2 Hs2. eapply Hend; [exact Hs2|]. rewrite Ec. by rewrite <- !app_assoc.
Qed.

Lemma at_app_keeps w f b l s0 s :
  at_app w f b l s0 s → idf_trace (idf (app_of s)) = l ∧ flash (app_of s) = f ∧ bluetooth (app_of s) = b ∧
    client s = client s0 ∧ world s = world s0.
Proof. by intros (d & -> & <-). Qed.

(** The device starts the right network: [wifi_start] initialises the
    drivers in order and then, if the flash holds the name and the password of
    a network and neither is empty, configures the station with exactly these
    and starts it; otherwise it opens its own access point.  The flash, the
    Bluetooth client and the Cayenne client are left as they were. *)
Theorem wifi_start_modes (os op : option (list Z)) s :
  let f := flash (app_of s) in
  healthy f → actual_wifi (app_of s) = actual_wifi_initializer →
  holds (items f) WIFI (bytes "last_ssid") os → holds (items f) WIFI (bytes "last_password") op →
  string_ok 32 os → string_ok 64 op →
  twp wifi_start (λ r s', r = 0 ∧
    idf_trace (idf (app_of s')) = idf_trace (idf (app_of s)) ++ init_calls ++ start_calls os op ∧
    items (flash (app_of s')) = items f ∧ bluetooth (app_of s') = bluetooth (app_of s) ∧
    client s' = client s ∧ world s' = world s) s.
Proof.
  intros f Hh Hw Ho Hp Hs1 Hp1. pose proof (at_app_here s) as Hs. rewrite Hw in Hs.
  eapply twp_mono; [exact (twp_wifi_start os op _ _ s s f Hs Hh Ho Hp Hs1 Hp1)|]. cbn beta.
  intros r s' (-> & w & f' & Hs' & Hi & _). apply at_app_keeps in Hs' as (-> & -> & -> & -> & ->). done.
Qed.

(** A name or a password that does not fit is written past the driver's array. *)
Lemma configure_long (i p : list Z) s :
  (zlen i <? 32) && (zlen p <? 64) = false →
  wifi_sta_configure i p s = Fault OobWrite ∧ wifi_apsta_configure i p s = Fault OobWrite.
Proof.
  intros E. assert (Ec : sta_copy i p = Fault OobWrite).
  { destruct (Z.ltb_spec (zlen i) 32) as [Hi|Hi]; [|by apply sta_copy_long].
    cbn [andb] in E. apply Z.ltb_ge in E. unfold sta_copy. rewrite (strcpy_fits (replicate 32 0) i) by (rewrite length_replicate; lia).
    rewrite bind_ok. unfold strcpy. rewrite store_bytes_oob; [done|]. rewrite length_app, length_replicate. cbn [length].
    change (Z.of_nat 64) with 64. lia. }
  pose proof (at_app_here s) as Hs.
  unfold wifi_sta_configure, wifi_apsta_configure. split; apply twp_then_fault;
    (eapply twp_idf_check_last; [exact Hs|]); intros s' _; unfold mbind, M_bind, lift; by rewrite Ec.
Qed.

(** The driver's arrays hold names of 31 bytes: [wifi_sta_configure] and
    [wifi_apsta_configure] hand exactly the name and the password, padded with
    zeros, to the driver if the name has less than 32 bytes and the password
    less than 64; a name of 32 bytes, which the standard allows and
    [actual_wifi] has room for, is written past the array. *)
Theorem station_bounds (i p : list Z) s :
  let fits := (zlen i <? 32) && (zlen p <? 64) in
  let configured m r s' := r = 0 ∧ idf_trace (idf (app_of s')) =
    idf_trace (idf (app_of s)) ++ [esp_wifi_set_mode m; esp_wifi_set_config (station i p)] in
  if fits
  then twp (wifi_sta_configure i p) (configured WIFI_MODE_STA) s ∧
       twp (wifi_apsta_configure i p) (configured WIFI_MODE_APSTA) s
  else wifi_sta_configure i p s = Fault OobWrite ∧ wifi_apsta_configure i p s = Fault OobWrite.
Proof.
  intros fits configured. unfold fits. pose proof (at_app_here s) as Hs.
  destruct ((zlen i <? 32) && (zlen p <? 64)) eqn:E; [|by apply configure_long].
  apply andb_true_iff in E as [E1%Z.ltb_lt E2%Z.ltb_lt]. split.
  - eapply twp_sta_configure; [exact Hs|done..|]. intros s' Hs'%at_app_keeps. by split; [|apply Hs'].
  - eapply twp_apsta_configure; [exact Hs|done..|]. intros s' Hs'%at_app_keeps. by split; [|apply Hs'].
Qed.

(** Saving the network that was joined. *)
Lemma connected_saved junk i p w f b l s0 s :
  at_app w f b l s0 s → cstr (ssid w) = Ok i → cstr (password w) = Ok p → healthy f →
  str_key (items f) WIFI (bytes "last_ssid") → str_key (items f) WIFI (bytes "last_password") →
  str_key (items f) WIFI i → zlen i < NVS_MAX_STRING → zlen p < NVS_MAX_STRING →
  if zlen i <=? 15
  then twp (wifi_event_handler junk SYSTEM_EVENT_STA_CONNECTED) (λ r s', r = 0 ∧ ∃ f', at_app w f' b l s0 s' ∧
         healthy f' ∧ items f' = <[(WIFI, i) := NStr p]> (<[(WIFI, bytes "last_password") := NStr p]>
           (<[(WIFI, bytes "last_ssid") := NStr i]> (items f)))) s
  else wifi_event_handler junk SYSTEM_EVENT_STA_CONNECTED s = Fault EspAbort.
Proof.
  intros Hs Ei Ep Hh K1 K2 K3 Hi Hp.
  assert (K : ∀ f', items f' = <[(WIFI, bytes "last_password") := NStr p]>
    (<[(WIFI, bytes "last_ssid") := NStr i]> (items f)) → str_key (items f') WIFI i).
  { intros f' -> v. destruct (decide (i = bytes "last_password")) as [->|]; [by rewrite lookup_insert_eq|].
    rewrite lookup_insert_ne by congruence. destruct (decide (i = bytes "last_ssid")) as [->|]; [by rewrite lookup_insert_eq|].
    rewrite lookup_insert_ne by congruence. apply K3. }
  unfold wifi_event_handler. destruct (Z.leb_spec (zlen i) 15) as [Hl|Hl].
  - apply twp_bind, twp_bind. eapply twp_wifi_strings; [exact Hs|done..|].
    eapply twp_flash; [exact Hs|by apply twp_save_last_wifi|]. cbn beta. intros e f1 s1 (_ & Hh1 & Hi1) Hs1.
    eapply twp_flash; [exact Hs1|by apply twp_save_wifi; [|apply K|..]|]. cbn beta. intros e2 f2 s2 (_ & Hh2 & Hi2) Hs2.
    apply twp_ret, twp_ret. split; [done|]. exists f2. by rewrite Hi2, Hi1.
  - unfold mbind at 1, M_bind at 1. rewrite (twp_then_fault _ _ EspAbort); [done|].
    eapply twp_wifi_strings; [exact Hs|done..|]. cbn beta iota. apply twp_then_fault.
    eapply twp_on_flash; [exact Hs|by apply twp_save_last_wifi|]. cbn beta. intros e f1 s1 (_ & Hh1 & Hi1) (d & -> & _).
    unfold mbind, M_bind, on_flash. cbn [app_of set_app user y_app flash]. unfold app_of, set_app. cbn [user y_app flash].
    by rewrite (save_wifi_long i p f1 Hh1 (K f1 Hi1) Hl).
Qed.

(** [C16] A network the device was connected to is joined again after a restart:
    when the station is connected, the event handler saves the name and the
    password in use; whatever the memory holds after the restart, if the flash
    is as it was left, [wifi_start] configures the station with exactly these.
    A name of more than 15 characters makes the handler abort the program
    instead, each time the device gets as far. *)
Theorem network_remembered (junk : Z) (i p : list Z) s :
  let f := flash (app_of s) in
  healthy f → cstr (ssid (actual_wifi (app_of s))) = Ok i → cstr (password (actual_wifi (app_of s))) = Ok p →
  str_key (items f) WIFI (bytes "last_ssid") → str_key (items f) WIFI (bytes "last_password") →
  str_key (items f) WIFI i → is_cstring i → is_cstring p → i ≠ [] → p ≠ [] → i ≠ bytes "last_ssid" →
  zlen i < 32 → zlen p < 64 →
  if zlen i <=? 15
  then twp (wifi_event_handler junk SYSTEM_EVENT_STA_CONNECTED) (λ r s1, r = 0 ∧
         ∀ s2 : State, flash (app_of s2) = flash (app_of s1) → actual_wifi (app_of s2) = actual_wifi_initializer →
           twp wifi_start (λ r' s3, r' = 0 ∧
             idf_trace (idf (app_of s3)) = idf_trace (idf (app_of s2)) ++ init_calls ++ join_calls i p) s2) s
  else wifi_event_handler junk SYSTEM_EVENT_STA_CONNECTED s = Fault EspAbort.
Proof.
  intros f Hh Ei Ep K1 K2 K3 Hi Hp Hi0 Hp0 Hne Hil Hpl.
  pose proof (connected_saved junk i p _ _ _ _ s s (at_app_here s) Ei Ep Hh K1 K2 K3
    ltac:(unfold NVS_MAX_STRING; lia) ltac:(unfold NVS_MAX_STRING; lia)) as H'.
  destruct (zlen i <=? 15); [|exact H'].
  eapply twp_mono; [exact H'|]. cbn beta. intros r s1 (-> & f1 & Hs1 & Hh1 & Hi1). split; [done|].
  apply at_app_keeps in Hs1 as (_ & Ef & _). intros s2 Ef2 Ew2. pose proof (at_app_here s2) as Hs2. rewrite Ew2, Ef2, Ef in Hs2.
  eapply twp_mono; [apply (twp_wifi_start (Some i) (Some p) _ _ _ _ _ Hs2 Hh1); try done|].
  - unfold holds. rewrite Hi1. rewrite lookup_insert_ne by congruence. rewrite lookup_insert_ne by done. apply lookup_insert_eq.
  - unfold holds. rewrite Hi1. destruct (decide (i = bytes "last_password")) as [->|]; [by rewrite lookup_insert_eq|].
    rewrite lookup_insert_ne by congruence. apply lookup_insert_eq.
  - cbn beta. intros r' s3 (-> & w & f' & Hs3 & _). apply at_app_keeps in Hs3 as (-> & _). split; [done|].
    destruct i, p; done.
Qed.
End Starting.

(** ** Waiting for ever *)

Section Blocking.
Context {W F B D CH : Type} `{!Lwip W, !Clock W, !Fuel, !Nvs F, !Bluedroid B, !Idf D}.
Context `{!CayenneCallbacks (Network * W) (App F B D) CH, !Scheduler (Network * W) (App F B D) CH}.
Abbreviation State := (CState (Network * W) (App F B D) CH).
Implicit Types (s : State).

(** A computation that does not finish. *)
Definition endless {A} (m : M State A) : Prop := ∀ s r, m s ≠ Ok r.

Lemma endless_bind {A C} (m : M State A) (k : A → M State C) : (∀ a, endless (k a)) → endless (m ≫= k).
Proof. intros Hk s r. unfold mbind, M_bind. destruct (m s) as [[a s']|f]; [apply Hk|done]. Qed.

Lemma task_loop_endless k : endless (task_loop k).
Proof. induction k as [|k IH]; cbn [task_loop]; [done|]. by apply endless_bind. Qed.

(** Initialisation leaves the client unconnected, so the test behind it always
    takes the same branch. *)
Lemma init_not_connected {A} u p c (k : bool → M State A) s :
  (CayenneInit u p c ;; connected ← CayenneMQTTConnected; k connected) s = (CayenneInit u p c ;; k false) s.
Proof. by destruct s as [cl [n w] us]. Qed.

(** The event handler does not come back once the client is connected: if
    the flash holds an account and the first attempt to connect succeeds, the
    handler of [SYSTEM_EVENT_STA_GOT_IP] runs the Cayenne task for ever, so that
    no later event, a lost connection for one, is handled. *)
Theorem got_ip_blocks (junk : Z) (u p c : list Z) s s1 s2 :
  stored_account s = Ok (Some (u, p, c), s1) →
  (delay 1000 ;; CayenneInit u p c ;; connectClient) s1 = Ok (CAYENNE_SUCCESS, s2) →
  ∀ r, wifi_event_handler junk SYSTEM_EVENT_STA_GOT_IP s ≠ Ok r.
Proof.
  intros Ea Ec r. unfold wifi_event_handler, got_ip. unfold mbind at 1 2, M_bind at 1 2. rewrite Ea.
  unfold mbind at 1, M_bind at 1. unfold mbind at 1, M_bind at 1 in Ec.
  destruct (delay 1000 s1) as [[[] s3]|f]; [|done]. rewrite init_not_connected. cbn [negb].
  unfold mbind at 1 2, M_bind at 1 2. unfold mbind at 1, M_bind at 1 in Ec.
  destruct (CayenneInit u p c s3) as [[[] s4]|f]; [|done]. rewrite Ec.
  change (negb (CAYENNE_SUCCESS =? CAYENNE_SUCCESS)) with false. cbv iota.
  match goal with |- context [match ?m s2 with _ => _ end] => assert (He : endless m) end.
  { apply endless_bind. intros e. apply endless_bind. intros _. apply task_loop_endless. }
  match goal with |- match ?o with _ => _ end ≠ _ => destruct o as [[[] s5]|f] eqn:E end; [|done].
  by apply He in E.
Qed.
End Blocking.
