(* ===== verification/HttpDispatch.v ===== *)
(** * esp32iot_http_server.c: serving requests

    Models [http_server_netconn_serve], [http_server] and [http_server_init] of
    [src/main/src/HttpServer/esp32iot_http_server.c]: the dispatch of a request
    to a page or to an action on the settings, the WiFi, Cayenne and Bluetooth
    components.  The netconn interface of lwIP is the class [Netconn]; the pages
    are data and appear by name.  [err_t] is a signed byte, so the codes of other
    components are cut to eight bits before they are looked at. *)

From S2P Require Import Prelude CString Timer Network MQTTClient CayenneUtils CayenneDataArray CayenneMQTTClient Storage HttpServer Double Bluetooth CayenneTask WiFi.

Inductive page :=
| index_html | wifi_setup_html | mqtt_setup_html | not_found_error_html | success_html | empty_field_form_html.

(** The listening connection [conn] and the accepted one [newconn]. *)
Inductive connection := conn | newconn.
#[export] Instance connection_eq_dec : EqDecision connection.
Proof. solve_decision. Defined.

Inductive conn_request :=
| netconn_new
| netconn_bind (port : Z)
| netconn_listen
| netconn_accept
| netconn_write_header (p : page)
| netconn_write_page (p : page)
| netconn_close (c : connection)
| netconn_delete (c : connection)
| netbuf_delete.

(** [netconn_recv]: the code, and the memory from the received data to the end
    of its buffer.  [form_arrays]: what is in the two local arrays of the server
    before they are written; [form_malloc]: whether [malloc] succeeds. *)
Class Netconn (D : Type) := {
  netconn_call : conn_request → D → Z * D;
  netconn_recv : D → Z * list Z * D;
  form_arrays : D → list Z * list Z;
  form_malloc : D → Z → bool }.

Definition s8 (z : Z) : Z := (z + 128) mod 256 - 128.

Section Serve.
Context {W F B D CH : Type} `{!Lwip W, !Clock W, !Fuel, !Nvs F, !Bluedroid B, !Idf D, !Netconn D, !StackPad}.
Context `{!CayenneCallbacks (Network * W) (App F B D) CH, !Scheduler (Network * W) (App F B D) CH}.
Abbreviation State := (CState (Network * W) (App F B D) CH).
Abbreviation CM := (M State).

Definition nc (r : conn_request) : CM Z := on_idf (λ d, Ok (netconn_call r d)).
Definition set_form (g : form_t → form_t) : CM () := modify (λ s,
  let a := app_of s in set_app (MkApp (actual_wifi a) (g (form a)) (flash a) (bluetooth a) (idf a)) s).

(** A page with its header; the result of the header is not looked at. *)
Definition respond (p : page) : CM () :=
  nc (netconn_write_header p) ;;
  err ← nc (netconn_write_page p);
  check err.

(** [strstr(recv_buf, key)] as a condition. *)
Definition has (recv_buf key : list Z) : outcome bool :=
  o ← strstr recv_buf key; Ok (bool_decide (is_Some o)).

(** The first entry whose text is in the request. *)
Fixpoint find_route {A} (recv_buf : list Z) (l : list (list Z * A)) : outcome (option A) :=
  match l with
  | [] => Ok None
  | (key, a) :: l => b ← has recv_buf key; if b : bool then Ok (Some a) else find_route recv_buf l
  end.

Definition get_routes : list (list Z * page) :=
  [(bytes "/ ", index_html); (bytes "/index ", index_html); (bytes "/wifi-setup-menu ", wifi_setup_html);
   (bytes "/mqtt-setup-menu ", mqtt_setup_html)].

Definition serve_get (recv_buf : list Z) : CM () :=
  p ← lift (find_route recv_buf get_routes);
  respond (default not_found_error_html p).

(** The forms close the connection themselves and return: the result says so. *)
Definition close_all : CM () := nc (netconn_close newconn) ;; nc netbuf_delete ;; mret ().

Definition serve_wifi_setup (recv_buf : list Z) : CM bool :=
  '(id, pass) ← gets (λ s, form_arrays (idf (app_of s)));
  '(_, id) ← lift (parse_http_request recv_buf (bytes "ssid") id);
  known ← lift (all_nonempty [id]);
  if known : bool then
    '(_, pass) ← lift (parse_http_request recv_buf (bytes "password") pass);
    w ← gets (λ s, actual_wifi (app_of s));
    i ← lift (cstr id);
    w_id ← lift (strcpy (ssid w) i);
    p ← lift (cstr pass);
    w_pass ← lift (strcpy (password w) p);
    set_actual_wifi {| ssid := w_id; password := w_pass |} ;;
    respond success_html ;;
    close_all ;;
    '(i, p) ← wifi_strings;
    err ← wifi_apsta_configure i p;
    check (s8 err) ;;
    err ← idf_do esp_wifi_connect;
    check (s8 err) ;;
    mret true
  else
    respond empty_field_form_html ;;
    mret false.

(** [parse_http_request2] into one of the static pointers. *)
Definition parse_field (recv_buf key : list Z) (get : form_t → list Z) (set : list Z → form_t → form_t) : CM () :=
  old ← gets (λ s, get (form (app_of s)));
  heap ← gets (λ s, form_malloc (idf (app_of s)));
  '(_, v) ← lift (parse_http_request2 heap recv_buf key (Some old));
  match v with
  | Some v => set_form (set v)
  | None => fail NullDeref
  end.

Definition set_f_username (v : list Z) (f : form_t) : form_t :=
  {| f_username := v; f_password := f_password f; f_clientID := f_clientID f |}.
Definition set_f_password (v : list Z) (f : form_t) : form_t :=
  {| f_username := f_username f; f_password := v; f_clientID := f_clientID f |}.
Definition set_f_clientID (v : list Z) (f : form_t) : form_t :=
  {| f_username := f_username f; f_password := f_password f; f_clientID := v |}.

Definition serve_mqtt_setup (recv_buf : list Z) : CM bool :=
  parse_field recv_buf (bytes "username") f_username set_f_username ;;
  parse_field recv_buf (bytes "password") f_password set_f_password ;;
  parse_field recv_buf (bytes "clientID") f_clientID set_f_clientID ;;
  f ← gets (λ s, form (app_of s));
  known ← lift (all_nonempty [f_username f; f_password f; f_clientID f]);
  if known : bool then
    u ← lift (cstr (f_username f)); p ← lift (cstr (f_password f)); c ← lift (cstr (f_clientID f));
    CayenneInit u p c ;;
    err ← connectClient;
    (if negb (s8 err =? CAYENNE_SUCCESS) then check (s8 err)
     else on_flash (save_last_connected_mqtt u p c) ;; mret ()) ;;
    respond success_html ;;
    close_all ;;
    mret true
  else
    respond empty_field_form_html ;;
    mret false.

(** The actions of the POST requests. *)
Inductive action := wifi_setup | mqtt_setup | erase_wifi_data | reset_counter | ble_test | restart.
Definition post_routes : list (list Z * action) :=
  [(bytes "/wifi-setup", wifi_setup); (bytes "/mqtt-setup", mqtt_setup); (bytes "/erase-wifi-data ", erase_wifi_data);
   (bytes "/reset_restart_counter ", reset_counter); (bytes "/ble_test ", ble_test); (bytes "/restart ", restart)].

Definition serve_post (junk : Z) (recv_buf : list Z) : CM bool :=
  a ← lift (find_route recv_buf post_routes);
  match a with
  | Some wifi_setup => serve_wifi_setup recv_buf
  | Some mqtt_setup => serve_mqtt_setup recv_buf
  | Some erase_wifi_data => err ← on_flash erase_storage; check_flash err ;; respond success_html ;; mret false
  | Some reset_counter => err ← on_flash reset_restart_counter; check_flash err ;; respond success_html ;; mret false
  | Some ble_test =>
      err ← on_bluetooth (bluetooth_initialize junk); check (s8 err) ;; respond success_html ;; mret false
  | Some restart => respond success_html ;; fail EspRestart
  | None => respond not_found_error_html ;; mret false
  end.

(** [A && strstr(recv_buf, " HTTP/1.1")] *)
Definition is_request (recv_buf method : list Z) : outcome bool :=
  m ← has recv_buf method;
  if m : bool then has recv_buf (bytes " HTTP/1.1") else Ok false.

Definition serve_request (junk : Z) (recv_buf : list Z) : CM bool :=
  g ← lift (is_request recv_buf (bytes "GET "));
  if g : bool then serve_get recv_buf ;; mret false else
  p ← lift (is_request recv_buf (bytes "POST "));
  if p : bool then serve_post junk recv_buf else mret false.

Definition http_server_netconn_serve (junk : Z) : CM () :=
  '(err, recv_buf) ← on_idf (λ d, let '(e, m, d) := netconn_recv d in Ok ((e, m), d));
  returned ← (if err =? 0 then serve_request junk recv_buf else mret false);
  if returned : bool then mret () else close_all.

(** [k] bounds the number of connections of the [do] loop. *)
Fixpoint accept_loop (junk : Z) (k : nat) : CM () :=
  match k with
  | O => fail OutOfFuel
  | S k =>
      err ← nc netconn_accept;
      if err =? 0 then
        http_server_netconn_serve junk ;;
        nc (netconn_delete newconn) ;;
        accept_loop junk k
      else mret ()
  end.

Definition http_server (junk : Z) : CM () :=
  nc netconn_new ;;
  nc (netconn_bind 80) ;;
  nc netconn_listen ;;
  accept_loop junk fuel ;;
  nc (netconn_close conn) ;;
  nc (netconn_delete conn) ;;
  mret ().

(** The code of [xTaskCreate] is only logged. *)
Definition http_server_init : CM () := idf_do (xTaskCreate http_server_task 2048) ;; mret ().
End Serve.
