(* ===== verification/HttpProofs.v ===== *)
(** * Serving requests: one answer, one close

    What the server puts on a connection, whatever the request is, and which
    page answers which request. *)

From S2P Require Import Prelude CString Timer Network MQTTClient CayenneUtils CayenneDataArray CayenneMQTTClient Frame Storage HttpServer Double Bluetooth CayenneTask WiFi WiFiProofs HttpDispatch.

(** The calls of the netconn interface so far; the other calls are not of it. *)
Class TracedConn (D : Type) `{!Idf D, !Netconn D} := {
  conn_trace : D → list conn_request;
  netconn_call_trace r d : conn_trace (netconn_call r d).2 = conn_trace d ++ [r];
  netconn_recv_trace d : conn_trace (netconn_recv d).2 = conn_trace d;
  idf_conn_trace r d : conn_trace (idf_call r d).2 = conn_trace d }.

(** A page on the connection, and its end. *)
Definition answer (p : page) : list conn_request := [netconn_write_header p; netconn_write_page p].
Definition closing : list conn_request := [netconn_close newconn; netbuf_delete].

Section Answers.
Context {W F B D CH : Type} `{!Lwip W, !Clock W, !Fuel, !Nvs F, !Bluedroid B, !Idf D, !Netconn D, !TracedConn D, !StackPad}.
Context `{!CayenneCallbacks (Network * W) (App F B D) CH, !Scheduler (Network * W) (App F B D) CH}.
Abbreviation State := (CState (Network * W) (App F B D) CH).
Implicit Types (s : State).

(** The handlers of messages leave the application's data alone. *)
Hypothesis app_keeps : ∀ g m, frames same_user (run_cayenne g m : M State ()).

(** Nothing happens on the connections. *)
Definition silent s s' : Prop := conn_trace (idf (app_of s')) = conn_trace (idf (app_of s)).
#[local] Instance silent_preorder : PreOrder silent.
Proof. split; unfold silent; [done|]. intros s s' s'' E E'. congruence. Qed.

Lemma silent_user {A} (m : M State A) : frames same_user m → frames silent m.
Proof. intros Hm s a s' E. apply Hm in E. unfold silent, app_of. by rewrite E. Qed.

Lemma silent_world {A} (m : M (Network * W) A) : frames silent (onWorld m : M State A).
Proof. apply silent_user, frames_world. Qed.
Lemma silent_connect : frames silent (CayenneMQTTConnect : M State Z).
Proof. apply silent_user, frames_cayenne_connect, app_keeps. Qed.
Lemma silent_publish c t ch ty u v : frames silent (CayenneMQTTPublishData c t ch ty u v : M State Z).
Proof. apply silent_user, frames_cayenne_publish, app_keeps. Qed.
Lemma silent_flash {A} (m : M F A) : frames silent (on_flash m : M State A).
Proof. intros s a s'. unfold on_flash. cbv zeta. intros E. apply bind_inv in E as ([r f] & _ & E). by injection E as _ <-. Qed.
Lemma silent_bluetooth {A} (m : M (Bt * B) A) : frames silent (on_bluetooth m : M State A).
Proof. intros s a s'. unfold on_bluetooth. cbv zeta. intros E. apply bind_inv in E as ([r f] & _ & E). by injection E as _ <-. Qed.
Lemma silent_idf r : frames silent (idf_do r : M State Z).
Proof.
  intros s a s'. unfold idf_do, on_idf. cbv zeta. rewrite bind_ok. pose proof (idf_conn_trace r (idf (app_of s))) as E.
  destruct (idf_call r _) as [e d]. by intros [= _ <-].
Qed.
Lemma silent_set_wifi w : frames silent (set_actual_wifi w : M State ()).
Proof. by apply frames_modify. Qed.
Lemma silent_set_form g : frames silent (set_form g : M State ()).
Proof. by apply frames_modify. Qed.
Lemma silent_init sb rb u p c d : frames silent (CayenneMQTTClientInit sb rb u p c d : M State ()).
Proof. by apply frames_modify. Qed.
#[local] Hint Resolve silent_world silent_connect silent_publish silent_flash silent_bluetooth silent_idf
  silent_set_wifi silent_set_form silent_init : frame.

Lemma silent_check e : frames silent (check e : M State ()).
Proof. unfold check. frame_steps. Qed.
Lemma silent_check_flash e : frames silent (check_flash e : M State ()).
Proof. unfold check_flash. frame_steps. Qed.
#[local] Hint Resolve silent_check silent_check_flash : frame.
Lemma silent_connectClient : frames silent (connectClient : M State Z).
Proof. unfold connectClient. frame_steps. Qed.
Lemma silent_CayenneInit u p c : frames silent (CayenneInit u p c : M State ()).
Proof. unfold CayenneInit. frame_steps. Qed.
Lemma silent_apsta i p : frames silent (wifi_apsta_configure i p : M State Z).
Proof. unfold wifi_apsta_configure, idf_check. frame_steps. Qed.
Lemma silent_strings : frames silent (wifi_strings : M State _).
Proof. unfold wifi_strings. frame_steps. Qed.
Lemma silent_parse_field r k g st : frames silent (parse_field r k g st : M State ()).
Proof. unfold parse_field. frame_steps. Qed.
#[local] Hint Resolve silent_connectClient silent_CayenneInit silent_apsta silent_strings silent_parse_field : frame.

(** [m] adds a list of calls that satisfies [T], given its result. *)
Definition writes {A} (T : A → list conn_request → Prop) (m : M State A) : Prop := ∀ s a s', m s = Ok (a, s') →
  ∃ l, T a l ∧ conn_trace (idf (app_of s')) = conn_trace (idf (app_of s)) ++ l.

Lemma writes_silent {A} (T : A → list conn_request → Prop) (m : M State A) :
  frames silent m → (∀ a, T a []) → writes T m.
Proof. intros Hm HT s a s' E. exists []. rewrite app_nil_r. split; [done|]. by eapply Hm. Qed.

Lemma writes_bind {A C} (T1 : list conn_request → Prop) (T : C → list conn_request → Prop)
    (m : M State A) (k : A → M State C) :
  writes (λ _, T1) m → (∀ a, writes (λ c l, ∀ l1, T1 l1 → T c (l1 ++ l)) (k a)) → writes T (m ≫= k).
Proof.
  intros Hm Hk s c s' E. unfold mbind, M_bind in E. destruct (m s) as [[a s1]|f] eqn:E1; [|done].
  apply Hm in E1 as (l1 & H1 & E1). apply Hk in E as (l & HT & E). exists (l1 ++ l). split; [by apply HT|].
  by rewrite E, E1, <- app_assoc.
Qed.

(** A silent part in front. *)
Lemma writes_after {A C} (T : C → list conn_request → Prop) (m : M State A) (k : A → M State C) :
  frames silent m → (∀ a, writes T (k a)) → writes T (m ≫= k).
Proof.
  intros Hm Hk. apply (writes_bind (λ l, l = [])); [by apply writes_silent|]. intros a s c s' E.
  apply Hk in E as (l & HT & E). exists l. split; [|done]. by intros l1 ->.
Qed.

Lemma writes_nc r : writes (λ _ l, l = [r]) (nc r : M State Z).
Proof.
  intros s a s'. unfold nc, on_idf. cbv zeta. rewrite bind_ok. pose proof (netconn_call_trace r (idf (app_of s))) as E.
  destruct (netconn_call r _) as [e d]. intros [= _ <-]. by exists [r].
Qed.

Lemma writes_mono {A} (T T' : A → list conn_request → Prop) (m : M State A) :
  writes T m → (∀ a l, T a l → T' a l) → writes T' m.
Proof. intros Hm HT s a s' E. apply Hm in E as (l & Hl & E). exists l. auto. Qed.

Lemma writes_nc_bind {C} r (T : C → list conn_request → Prop) (k : Z → M State C) :
  (∀ a, writes (λ c l, T c (r :: l)) (k a)) → writes T (nc r ≫= k).
Proof.
  intros Hk. eapply writes_bind; [apply writes_nc|]. intros a. eapply writes_mono; [apply Hk|]. by intros c l Hl l1 ->.
Qed.

Lemma writes_respond_only p : writes (λ _ l, l = answer p) (respond p : M State ()).
Proof.
  unfold respond. do 2 (apply writes_nc_bind; intros ?). apply writes_silent; [apply silent_check|done].
Qed.
Lemma writes_close_only : writes (λ _ l, l = closing) (close_all : M State ()).
Proof.
  unfold close_all. do 2 (apply writes_nc_bind; intros ?). by apply writes_silent; [apply frames_ret; apply _|].
Qed.

Lemma writes_respond {C} p (T : C → list conn_request → Prop) (k : () → M State C) :
  (∀ a, writes (λ c l, T c (answer p ++ l)) (k a)) → writes T (respond p ≫= k).
Proof.
  intros Hk. eapply writes_bind; [apply writes_respond_only|].
  intros a. eapply writes_mono; [apply Hk|]. by intros c l Hl l1 ->.
Qed.

Lemma writes_close {C} (T : C → list conn_request → Prop) (k : () → M State C) :
  (∀ a, writes (λ c l, T c (closing ++ l)) (k a)) → writes T (close_all ≫= k).
Proof.
  intros Hk. eapply writes_bind; [apply writes_close_only|].
  intros a. eapply writes_mono; [apply Hk|]. by intros c l Hl l1 ->.
Qed.

Lemma writes_ret {A} (T : A → list conn_request → Prop) (a : A) : T a [] → writes T (mret a).
Proof. intros HT s b s' [= <- <-]. exists []. by rewrite app_nil_r. Qed.

(** What a request may leave on the connection: at most one page, and the end if
    the handler has closed it. *)
Definition served (closed : bool) (l : list conn_request) : Prop :=
  ∃ o, l = match o with Some p => answer p | None => [] end ++ if closed then closing else [].

(** One step of a proof about an answer. *)
#[local] Ltac write_step :=
  match goal with
  | |- writes _ (mret _) => apply writes_ret
  | |- writes _ (fail _) => by intros ? ?
  | |- writes _ (respond _ ≫= _) => apply writes_respond; intros ?
  | |- writes _ (close_all ≫= _) => apply writes_close; intros ?
  | |- writes _ (_ ≫= _) => apply writes_after; [by frame_steps|intros ?]
  | |- writes _ (let '_ := ?p in _) => destruct p
  | |- writes _ (match ?p with _ => _ end) => destruct p
  end.
#[local] Ltac write_steps := repeat (cbv zeta; write_step).

Lemma writes_wifi_setup r : writes served (serve_wifi_setup r).
Proof.
  unfold serve_wifi_setup. write_steps; cbn [served]; [by exists (Some success_html)|by exists (Some empty_field_form_html)].
Qed.
Lemma writes_mqtt_setup r : writes served (serve_mqtt_setup r).
Proof.
  unfold serve_mqtt_setup. write_steps; [by exists (Some success_html)|by exists (Some empty_field_form_html)].
Qed.

Lemma writes_post junk r : writes served (serve_post junk r).
Proof.
  unfold serve_post. apply writes_after; [by frame_steps|].
  intros [[]|]; [apply writes_wifi_setup|apply writes_mqtt_setup|..]; write_steps;
    first [by exists (Some success_html) | by exists (Some not_found_error_html)].
Qed.

Lemma writes_get r : writes (λ _ l, ∃ p, l = answer p) (serve_get r : M State ()).
Proof.
  unfold serve_get. apply writes_after; [by frame_steps|]. intros p.
  eapply writes_mono; [apply writes_respond_only|]. intros _ l ->. by eexists.
Qed.

Lemma writes_request junk r : writes served (serve_request junk r).
Proof.
  unfold serve_request. apply writes_after; [by frame_steps|]. intros [].
  - eapply writes_bind; [apply writes_get|]. intros []. apply writes_ret.
    intros l [p ->]. exists (Some p). done.
  - apply writes_after; [by frame_steps|]. intros []; [apply writes_post|apply writes_ret; by exists None].
Qed.

(** [C19] Every request is answered once and closed once: whatever is received,
    a run of [http_server_netconn_serve] that returns has put at most one page,
    with its header, on the connection, and then closed it and freed the
    buffer, each exactly once, on the paths of the forms, which return early,
    as on the others. *)
Theorem connection_closed_once (junk : Z) s s' :
  http_server_netconn_serve junk s = Ok ((), s') →
  ∃ o, conn_trace (idf (app_of s')) = conn_trace (idf (app_of s)) ++ match o with Some p => answer p | None => [] end ++ closing.
Proof.
  enough (Hw : writes (λ _ l, ∃ o, l = match o with Some p => answer p | None => [] end ++ closing)
    (http_server_netconn_serve junk : M State ())).
  { intros E. apply Hw in E as (l & [o ->] & E). by exists o. }
  unfold http_server_netconn_serve. apply writes_after.
  { intros s0 a s1. unfold on_idf. cbv zeta. pose proof (netconn_recv_trace (idf (app_of s0))) as E.
    destruct (netconn_recv _) as [[e m] d]. by intros [= _ <-]. }
  intros [err r]. intros s0 u s1 E. unfold mbind, M_bind in E.
  assert (Hr : writes served (if err =? 0 then serve_request junk r else mret false)).
  { destruct (err =? 0); [apply writes_request|apply writes_ret; by exists None]. }
  destruct ((if err =? 0 then serve_request junk r else mret false) s0) as [[b s2]|f] eqn:E2; [|done]. apply Hr in E2 as (l & [o ->] & E2).
  destruct b; cbn [app] in *.
  - injection E as <- <-. eexists. split; [by exists o|exact E2].
  - apply writes_close_only in E as (l & -> & E). eexists. split; [by exists o|]. by rewrite E, E2, app_nil_r, <- app_assoc.
Qed.
End Answers.

(** ** Substrings *)

Definition occurs (key text : list Z) : Prop := ∃ pre post, text = pre ++ key ++ post.

Lemma find_sub_here key s : has_prefix key s = true → find_sub s key = Some 0.
Proof. intros E. destruct s; unfold find_sub; by rewrite E. Qed.

Lemma find_sub_occurs text key : is_Some (find_sub text key) ↔ occurs key text.
Proof.
  split.
  - intros [i Hi]. apply find_sub_first in Hi as (pre & post & -> & _). by exists pre, post.
  - intros (pre & post & ->). induction pre as [|c pre IH]; cbn [app].
    + rewrite (find_sub_here key (key ++ post) (has_prefix_app _ _)). by eexists.
    + cbn [find_sub]. destruct (has_prefix key _); [by eexists|]. destruct IH as [j Hj].
      cbn [app] in Hj. rewrite Hj. by eexists.
Qed.

Lemma has_occurs text pad key : is_cstring text →
  has (text ++ 0 :: pad) key = Ok (bool_decide (is_Some (find_sub text key))).
Proof. intros Ht. unfold has. by rewrite strstr_text, bind_ok. Qed.

(** A word followed by a space, in a text that is split at a space. *)
Lemma occurs_word k a b : Forall (λ c, c ≠ 32) k →
  occurs (k ++ [32]) (a ++ 32 :: b) ↔ (∃ x, a = x ++ k) ∨ occurs (k ++ [32]) a ∨ occurs (k ++ [32]) b.
Proof.
  intros Hk. split.
  - intros (pre & post & E). rewrite <- app_assoc in E. cbn [app] in E. rewrite app_assoc in E.
    apply app_eq_inv in E as [(l & Ea & E)|(l & Ea & E)]; destruct l as [|c l]; cbn [app] in E.
    + left. exists pre. by rewrite Ea, app_nil_r.
    + injection E as <- ->. right. left. exists pre, l. rewrite Ea, <- !app_assoc. done.
    + left. exists pre. by rewrite app_nil_r in Ea.
    + injection E as <- ->. right. right.
      apply app_eq_inv in Ea as [(m & Ea & E)|(m & Ea & E)].
      2: { subst k. rewrite Forall_app, Forall_cons in Hk. tauto. }
      destruct m as [|c m]; cbn [app] in E.
      { subst k. apply Forall_cons in Hk as [? _]. done. }
      injection E as <- ->. exists m, post. by rewrite <- !app_assoc.
  - intros [[x ->]|[(pre & post & ->)|(pre & post & ->)]].
    + exists x, b. by rewrite <- !app_assoc.
    + exists pre, (post ++ 32 :: b). by rewrite <- !app_assoc.
    + exists (a ++ 32 :: pre), post. by rewrite <- !app_assoc.
Qed.

(** ** Pages *)

(** The pages by the end of the path. *)
Definition page_table : list (list Z * page) :=
  [(bytes "/", index_html); (bytes "/index", index_html); (bytes "/wifi-setup-menu", wifi_setup_html);
   (bytes "/mqtt-setup-menu", mqtt_setup_html)].
Fixpoint lookup_page (l : list (list Z * page)) (path : list Z) : page :=
  match l with
  | [] => not_found_error_html
  | (k, p) :: l => if bool_decide (k `suffix_of` path) then p else lookup_page l path
  end.

Definition get_request (path rest : list Z) : list Z := bytes "GET " ++ path ++ bytes " HTTP/1.1" ++ rest.

(** The headers do not contain a path and a space. *)
Definition plain (rest : list Z) : Prop := Forall (λ e, ¬ occurs (e.1 ++ [32]) (bytes "HTTP/1.1" ++ rest)) page_table.

Lemma get_request_cstring path rest : is_cstring path → is_cstring rest → is_cstring (get_request path rest).
Proof. intros. unfold get_request. rewrite !is_cstring_app. split_and!; try done; decide_vm. Qed.

(** A path with the key at its end, and nothing else, matches. *)
Lemma occurs_request k path rest :
  Forall (λ c, c ≠ 32) k → Forall (λ c, c ≠ 32) path → k ≠ [] → last k ≠ last (bytes "GET") →
  ¬ occurs (k ++ [32]) (bytes "HTTP/1.1" ++ rest) →
  occurs (k ++ [32]) (get_request path rest) ↔ k `suffix_of` path.
Proof.
  intros Hk Hp Hne Hl Hr.
  change (get_request path rest) with (bytes "GET" ++ 32 :: path ++ 32 :: bytes "HTTP/1.1" ++ rest).
  assert (Hnone : ∀ t, Forall (λ c, c ≠ 32) t → ¬ occurs (k ++ [32]) t).
  { intros t Ht (pre & post & ->). rewrite !Forall_app in Ht. destruct Ht as (_ & (_ & Ht) & _).
    by apply Forall_cons in Ht as [? _]. }
  assert (Hget : Forall (λ c, c ≠ 32) (bytes "GET")) by (by repeat constructor).
  rewrite !occurs_word by done. split.
  - intros [[x E]|[H1|[H2|[H1|H1]]]]; [|by apply Hnone in H1|done|by apply Hnone in H1|done].
    destruct Hl. rewrite E, last_app. destruct (last k) eqn:El; [done|]. by apply last_None in El.
  - intros H1. right. right. left. exact H1.
Qed.

Section Pages.
Context {W F B D CH : Type} `{!Lwip W, !Clock W, !Fuel, !Nvs F, !Bluedroid B, !Idf D, !Netconn D, !TracedConn D, !StackPad}.
Context `{!CayenneCallbacks (Network * W) (App F B D) CH, !Scheduler (Network * W) (App F B D) CH}.
Abbreviation State := (CState (Network * W) (App F B D) CH).
Implicit Types (s : State).
Hypothesis conn_ok : ∀ r d, (netconn_call r d).1 = 0.

(** Only the drivers of [s0] have changed, and the calls on the connections are [l]. *)
Definition at_conn (l : list conn_request) (s0 s : State) : Prop :=
  ∃ d, s = set_app (MkApp (actual_wifi (app_of s0)) (form (app_of s0)) (flash (app_of s0)) (bluetooth (app_of s0)) d) s0 ∧
    conn_trace d = l.

Lemma twp_nc r (Q : Z → State → Prop) l s0 s :
  at_conn l s0 s → (∀ s', at_conn (l ++ [r]) s0 s' → Q 0 s') → twp (nc r) Q s.
Proof.
  intros (d & -> & Hd) HQ. unfold twp, nc, on_idf. cbn.
  pose proof (conn_ok r d) as E. pose proof (netconn_call_trace r d) as Et.
  destruct (netconn_call r d) as [e d']. cbn in E, Et. subst e. apply HQ. exists d'. by rewrite Et, Hd.
Qed.

Lemma twp_respond p (Q : () → State → Prop) l s0 s :
  at_conn l s0 s → (∀ s', at_conn (l ++ answer p) s0 s' → Q () s') → twp (respond p) Q s.
Proof.
  intros Hs HQ. unfold respond. apply twp_bind. eapply twp_nc; [exact Hs|]. clear s Hs. intros s Hs.
  apply twp_bind. eapply twp_nc; [exact Hs|]. clear s Hs. intros s Hs. apply HQ. by rewrite <- app_assoc in Hs.
Qed.

Lemma twp_close_conn (Q : () → State → Prop) l s0 s :
  at_conn l s0 s → (∀ s', at_conn (l ++ closing) s0 s' → Q () s') → twp close_all Q s.
Proof.
  intros Hs HQ. unfold close_all. apply twp_bind. eapply twp_nc; [exact Hs|]. clear s Hs. intros s Hs.
  apply twp_bind. eapply twp_nc; [exact Hs|]. clear s Hs. intros s Hs. apply twp_ret, HQ. by rewrite <- app_assoc in Hs.
Qed.

Lemma route_found path rest pad :
  is_cstring path → is_cstring rest → Forall (λ c, c ≠ 32) path → plain rest →
  ∃ o, find_route (get_request path rest ++ 0 :: pad) get_routes = Ok o ∧
    default not_found_error_html o = lookup_page page_table path.
Proof.
  intros Hp Hr Hs Hplain. pose proof (get_request_cstring path rest Hp Hr) as Hc.
  assert (Hone : ∀ k, is_cstring k → Forall (λ c, c ≠ 32) k → k ≠ [] → last k ≠ last (bytes "GET") →
    ¬ occurs (k ++ [32]) (bytes "HTTP/1.1" ++ rest) →
    has (get_request path rest ++ 0 :: pad) (k ++ [32]) = Ok (bool_decide (k `suffix_of` path))).
  { intros k H1 H2 H3 H4 H5. rewrite has_occurs by done. f_equal. apply bool_decide_ext.
    by rewrite find_sub_occurs, occurs_request. }
  unfold plain, page_table in Hplain. rewrite !Forall_cons in Hplain. destruct Hplain as (P1 & P2 & P3 & P4 & _).
  change get_routes with (map (λ e, (e.1 ++ [32], e.2)) page_table). unfold page_table. cbn [map find_route lookup_page fst snd].
  rewrite (Hone (bytes "/")), bind_ok by (done || by repeat constructor).
  destruct (bool_decide (bytes "/" `suffix_of` path)); [by eexists|].
  rewrite (Hone (bytes "/index")), bind_ok by (done || by repeat constructor).
  destruct (bool_decide (bytes "/index" `suffix_of` path)); [by eexists|].
  rewrite (Hone (bytes "/wifi-setup-menu")), bind_ok by (done || by repeat constructor).
  destruct (bool_decide (bytes "/wifi-setup-menu" `suffix_of` path)); [by eexists|].
  rewrite (Hone (bytes "/mqtt-setup-menu")), bind_ok by (done || by repeat constructor).
  destruct (bool_decide (bytes "/mqtt-setup-menu" `suffix_of` path)); by eexists.
Qed.

(** [C20] A GET request is answered with the page its path ends with: for any
    path without spaces, followed by headers that do not contain one of the
    paths and a space, the server sends the page of the first entry of the
    table that the path ends with, the error page if there is none, closes the
    connection, and changes nothing else. *)
Theorem http_get_page (junk : Z) (path rest pad : list Z) (d : D) s :
  netconn_recv (idf (app_of s)) = (0, get_request path rest ++ 0 :: pad, d) →
  is_cstring path → is_cstring rest → Forall (λ c, c ≠ 32) path → plain rest →
  twp (http_server_netconn_serve junk) (λ _ s',
    at_conn (conn_trace (idf (app_of s)) ++ answer (lookup_page page_table path) ++ closing) s s') s.
Proof.
  intros Er Hp Hr Hs Hplain. pose proof (get_request_cstring path rest Hp Hr) as Hc.
  unfold http_server_netconn_serve. apply twp_bind. unfold twp at 1, on_idf. cbv zeta. rewrite Er, bind_ok.
  assert (Hs1 : at_conn (conn_trace (idf (app_of s))) s
    (set_app (MkApp (actual_wifi (app_of s)) (form (app_of s)) (flash (app_of s)) (bluetooth (app_of s)) d) s)).
  { exists d. split; [done|]. pose proof (netconn_recv_trace (idf (app_of s))) as E. by rewrite Er in E. }
  set (s1 := set_app _ s) in *. clearbody s1. change (0 =? 0) with true. cbv iota.
  assert (Hreq : is_request (get_request path rest ++ 0 :: pad) (bytes "GET ") = Ok true).
  { unfold is_request. rewrite !has_occurs by done. rewrite bind_ok, !bool_decide_eq_true_2; [done| |];
      apply find_sub_occurs.
    - exists (bytes "GET " ++ path), rest. unfold get_request. by rewrite <- !app_assoc.
    - by exists [], (path ++ bytes " HTTP/1.1" ++ rest). }
  destruct (route_found path rest pad Hp Hr Hs Hplain) as (o & Eo & <-).
  apply twp_bind. unfold serve_request. eapply twp_bind, twp_lift; [exact Hreq|]. apply twp_bind.
  unfold serve_get. eapply twp_bind, twp_lift; [exact Eo|]. eapply twp_respond; [exact Hs1|].
  intros s2 Hs2. apply twp_ret. eapply twp_close_conn; [exact Hs2|]. intros s3 Hs3. by rewrite <- app_assoc in Hs3.
Qed.
End Pages.
