(* ===== verification/HttpForms.v ===== *)
(** * The forms of the configuration pages

    What a submitted form does: the network of the WiFi form is joined, and the
    account of the MQTT form is stored once the server has accepted it. *)

From S2P Require Import Prelude CString Timer Network MQTTClient CayenneUtils CayenneDataArray CayenneMQTTClient Frame Storage HttpServer Double Bluetooth CayenneTask WiFi WiFiProofs HttpDispatch HttpProofs.

(** The first occurrence of [key] in the request starts a field with the value
    [v], up to the next '&' or the end. *)
Definition has_field (text key v : list Z) : Prop := ∃ pre sep rest,
  text = pre ++ (key ++ sep :: v) ++ rest ∧ find_sub text key = Some (zlen pre) ∧
  field_ok (key ++ sep :: v) ∧ field_end rest ∧ zlen (key ++ sep :: v) ≤ HTTP_SERVER_STACK.

(** A POST request for the path [path]. *)
Definition post_request (text path : list Z) : Prop :=
  is_cstring text ∧ ¬ occurs (bytes "GET ") text ∧ occurs (bytes "POST ") text ∧
  occurs (bytes " HTTP/1.1") text ∧ occurs path text.

Section Fields.
Context `{pad : StackPad}.
Hypothesis padded_stack : stack_pad ≠ 0%nat.

Lemma has_field_value text key v : has_field text key v → is_cstring text → is_cstring v ∧ field_ok key.
Proof.
  intros (pre & sep & rest & -> & _ & Hf & _ & _) _. apply field_ok_app in Hf as [Hk Hv].
  apply Forall_cons in Hv as [_ Hv]. split; [by apply field_cstring|done].
Qed.

Lemma parse_field_value text key v junk {A} (k : Z * list Z → outcome A) :
  is_cstring text → has_field text key v →
  ∃ start z, find_sub text key = Some start ∧
  (tmp ← field_copy (drop (Z.to_nat start) (text ++ 0 :: junk)); x ← field_value key tmp; k x) = k (zlen v, v ++ 0 :: z).
Proof.
  intros Ht (pre & sep & rest & -> & Hfind & Hf & Hr & Hs). pose proof Hf as Hf'.
  apply field_ok_app in Hf' as [Hk _].
  pose proof (parse_at key pre (key ++ sep :: v) rest junk k) as E. cbv zeta in E.
  destruct stack_pad as [|n] eqn:Ep; [done|].
  exists (zlen pre), (replicate n 0). split; [done|]. rewrite E by done. unfold field_param.
  rewrite drop_app_length. unfold padded. rewrite Ep, bind_ok. by rewrite bind_ok.
Qed.

Lemma parse_request_value text key v junk value :
  is_cstring text → has_field text key v →
  parse_http_request (text ++ 0 :: junk) key value =
  if zlen v <? zlen value then Ok (0, v ++ 0 :: drop (S (length v)) value) else Fault OobWrite.
Proof.
  intros Ht Hf. unfold parse_http_request. rewrite strstr_text, bind_ok by done.
  destruct (parse_field_value text key v junk (λ '(n, param),
    value ← copy_loop (S (Z.to_nat n)) 0 0 param value; Ok (0, value)) Ht Hf) as (start & z & -> & E).
  rewrite E, copy_value. by destruct (zlen v <? zlen value).
Qed.

Lemma parse_request2_value (heap : Z → bool) text key v junk old :
  is_cstring text → has_field text key v → (∀ n, heap n = true) →
  parse_http_request2 heap (text ++ 0 :: junk) key old = Ok (0, Some (v ++ [0])).
Proof.
  intros Ht Hf Hheap. unfold parse_http_request2. rewrite strstr_text, bind_ok by done.
  destruct (parse_field_value text key v junk (λ '(_, param),
    s ← cstr param; if heap (zlen s + 1) then v ← strcpy (replicate (Z.to_nat (zlen s + 1)) 0) s; Ok (0, Some v)
    else Fault NullDeref) Ht Hf) as (start & z & -> & E).
  rewrite E, cstr_app, bind_ok, Hheap by (by eapply has_field_value). rewrite strcpy_fits, bind_ok.
  - unfold copied. rewrite drop_ge; [done|]. rewrite length_replicate. lia.
  - rewrite length_replicate. lia.
Qed.
End Fields.

Lemma has_true text junk key : is_cstring text → occurs key text → has (text ++ 0 :: junk) key = Ok true.
Proof. intros Ht Ho. rewrite has_occurs by done. by rewrite bool_decide_eq_true_2 by (by apply find_sub_occurs). Qed.
Lemma has_false text junk key : is_cstring text → ¬ occurs key text → has (text ++ 0 :: junk) key = Ok false.
Proof.
  intros Ht Ho. rewrite has_occurs by done. rewrite bool_decide_eq_false_2; [done|]. by rewrite find_sub_occurs.
Qed.

(** ** The state while a form is served *)

Section Forms.
Context {W F B D CH : Type} `{!Lwip W, !Clock W, !Fuel, !Nvs F, !NvsLaws F, !Bluedroid B, !Idf D, !TracedIdf D}.
Context `{!Netconn D, !TracedConn D, pad : !StackPad}.
Context `{!CayenneCallbacks (Network * W) (App F B D) CH, !Scheduler (Network * W) (App F B D) CH}.
Abbreviation State := (CState (Network * W) (App F B D) CH).
Implicit Types (s : State).

Hypothesis padded_stack : stack_pad ≠ 0%nat.
(** The connections work, and are not WiFi calls. *)
Hypothesis conn_ok : ∀ r d, (netconn_call r d).1 = 0.
Hypothesis conn_idf : ∀ r d, idf_trace (netconn_call r d).2 = idf_trace d.
Hypothesis recv_idf : ∀ d, idf_trace (netconn_recv d).2 = idf_trace d.

(** The state [s0] with other network credentials and calls [li] to the drivers
    and [lc] on the connections. *)
Definition at_sys (w : wifi_evidence_t) (li : list idf_request) (lc : list conn_request) (s0 s : State) : Prop :=
  ∃ d, s = set_app (MkApp w (form (app_of s0)) (flash (app_of s0)) (bluetooth (app_of s0)) d) s0 ∧
    idf_trace d = li ∧ conn_trace d = lc.

Lemma twp_sys_nc r (Q : Z → State → Prop) w li lc s0 s :
  at_sys w li lc s0 s → (∀ s', at_sys w li (lc ++ [r]) s0 s' → Q 0 s') → twp (nc r) Q s.
Proof.
  intros (d & -> & Hi & Hc) HQ. unfold twp, nc, on_idf. cbn. pose proof (conn_ok r d) as E.
  pose proof (netconn_call_trace r d) as Et. pose proof (conn_idf r d) as Ei.
  destruct (netconn_call r d) as [e d']. cbn in E, Et, Ei. subst e. apply HQ. exists d'. by rewrite Et, Ei, Hi, Hc.
Qed.

Lemma twp_sys_idf r (Q : Z → State → Prop) w li lc s0 s :
  at_sys w li lc s0 s → (∀ s', at_sys w (li ++ [r]) lc s0 s' → Q 0 s') → twp (idf_do r) Q s.
Proof.
  intros (d & -> & Hi & Hc) HQ. unfold twp, idf_do, on_idf. cbn. pose proof (idf_call_ok r d) as E.
  pose proof (idf_call_trace r d) as Et. pose proof (idf_conn_trace r d) as Ec.
  destruct (idf_call r d) as [e d']. cbn in E, Et, Ec. subst e. apply HQ. exists d'. by rewrite Et, Ec, Hi, Hc.
Qed.

Lemma twp_sys_respond p (Q : () → State → Prop) w li lc s0 s :
  at_sys w li lc s0 s → (∀ s', at_sys w li (lc ++ answer p) s0 s' → Q () s') → twp (respond p) Q s.
Proof.
  intros Hs HQ. unfold respond. apply twp_bind. eapply twp_sys_nc; [exact Hs|]. clear s Hs. intros s Hs.
  apply twp_bind. eapply twp_sys_nc; [exact Hs|]. clear s Hs. intros s Hs. apply HQ. by rewrite <- app_assoc in Hs.
Qed.

Lemma twp_sys_close (Q : () → State → Prop) w li lc s0 s :
  at_sys w li lc s0 s → (∀ s', at_sys w li (lc ++ closing) s0 s' → Q () s') → twp close_all Q s.
Proof.
  intros Hs HQ. unfold close_all. apply twp_bind. eapply twp_sys_nc; [exact Hs|]. clear s Hs. intros s Hs.
  apply twp_bind. eapply twp_sys_nc; [exact Hs|]. clear s Hs. intros s Hs. apply twp_ret, HQ. by rewrite <- app_assoc in Hs.
Qed.

Lemma twp_sys_check r (Q : () → State → Prop) w li lc s0 s :
  at_sys w li lc s0 s → (∀ s', at_sys w (li ++ [r]) lc s0 s' → Q () s') → twp (idf_check r) Q s.
Proof.
  intros Hs HQ. unfold idf_check. apply twp_bind. eapply twp_sys_idf; [exact Hs|]. intros s' Hs'. by apply HQ.
Qed.

(** The state after the request has been received. *)
Definition received (d : D) (s : State) : State :=
  let a := app_of s in set_app (MkApp (actual_wifi a) (form a) (flash a) (bluetooth a) d) s.

Lemma received_sys d m s : netconn_recv (idf (app_of s)) = (0, m, d) →
  at_sys (actual_wifi (app_of s)) (idf_trace (idf (app_of s))) (conn_trace (idf (app_of s))) s (received d s).
Proof.
  intros E. exists d. pose proof (recv_idf (idf (app_of s))) as Ei. pose proof (netconn_recv_trace (idf (app_of s))) as Ec.
  rewrite E in Ei, Ec. done.
Qed.

(** The server returns where the form did. *)
Lemma serve_received junk m d (Q : State → Prop) s :
  netconn_recv (idf (app_of s)) = (0, m, d) →
  twp (serve_request junk m) (λ b s', b = true ∧ Q s') (received d s) →
  twp (http_server_netconn_serve junk) (λ _, Q) s.
Proof.
  intros E Ht. unfold http_server_netconn_serve. apply twp_bind. unfold twp at 1, on_idf. cbv zeta. rewrite E, bind_ok.
  change (0 =? 0) with true. cbv iota. apply twp_bind. eapply twp_mono; [exact Ht|]. cbn beta.
  intros b s' [-> HQ]. by apply twp_ret.
Qed.

Lemma serve_received_fault junk m d e s :
  netconn_recv (idf (app_of s)) = (0, m, d) → serve_request junk m (received d s) = Fault e →
  http_server_netconn_serve junk s = Fault e.
Proof.
  intros E Ef. unfold http_server_netconn_serve. unfold mbind at 1, M_bind at 1, on_idf. cbv zeta. rewrite E, bind_ok.
  change (0 =? 0) with true. cbv iota. unfold received in Ef. cbv zeta in Ef. unfold mbind, M_bind. by rewrite Ef.
Qed.

Lemma wifi_routed text junk : is_cstring text → occurs (bytes "/wifi-setup") text →
  find_route (text ++ 0 :: junk) post_routes = Ok (Some wifi_setup).
Proof. intros. unfold post_routes. cbn [find_route].
  by rewrite (has_true text junk (bytes "/wifi-setup")), bind_ok.
Qed.

Lemma first_nonempty v rest : is_cstring v → v ≠ [] → all_nonempty [v ++ rest] = Ok true.
Proof.
  intros Hv Hne. destruct v as [|c v]; [done|]. apply Forall_cons in Hv as [Hc _].
  cbn [all_nonempty app]. rewrite load_head, bind_ok, (proj2 (Z.eqb_neq c 0)) by lia. done.
Qed.

(** What follows once the form has been answered. *)
Definition join_network (i p : list Z) : M State bool :=
  err ← wifi_apsta_configure i p;
  check (s8 err) ;;
  err ← idf_do esp_wifi_connect;
  check (s8 err) ;;
  mret true.

(** The WiFi form up to there: the credentials are taken over and the page is
    sent. *)
Lemma wifi_form_run text junk i p arr_i arr_p w li lc s0 s :
  is_cstring text → has_field text (bytes "ssid") i → has_field text (bytes "password") p → i ≠ [] →
  form_arrays (idf (app_of s)) = (arr_i, arr_p) → at_sys w li lc s0 s →
  zlen i < zlen arr_i → zlen p < zlen arr_p → zlen i < zlen (ssid w) → zlen p < zlen (password w) →
  ∃ s', at_sys {| ssid := copied (ssid w) i; password := copied (password w) p |} li
          (lc ++ answer success_html ++ closing) s0 s' ∧
    serve_wifi_setup (text ++ 0 :: junk) s = join_network i p s'.
Proof.
  intros Ht Hi Hp Hne Harr Hs Hi1 Hp1 Hi2 Hp2.
  pose proof (proj1 (has_field_value text _ i Hi Ht)) as Ci. pose proof (proj1 (has_field_value text _ p Hp Ht)) as Cp.
  set (w' := {| ssid := copied (ssid w) i; password := copied (password w) p |}).
  assert (Hset : ∃ s1, set_actual_wifi w' s = Ok ((), s1) ∧ at_sys w' li lc s0 s1).
  { destruct Hs as (d & -> & Hd). eexists. split; [done|]. by exists d. }
  destruct Hset as (s1 & E1 & Hs1).
  assert (Hresp : twp (respond success_html) (λ _, at_sys w' li (lc ++ answer success_html) s0) s1)
    by (by eapply twp_sys_respond; [exact Hs1|]).
  apply twp_run in Hresp as ([] & s2 & E2 & Hs2).
  assert (Hclose : twp close_all (λ _, at_sys w' li (lc ++ answer success_html ++ closing) s0) s2).
  { eapply twp_sys_close; [exact Hs2|]. intros s3 Hs3. by rewrite <- app_assoc in Hs3. }
  apply twp_run in Hclose as ([] & s3 & E3 & Hs3). exists s3. split; [exact Hs3|].
  unfold serve_wifi_setup. rewrite (bind_run _ _ (arr_i, arr_p) s s) by (unfold gets; by rewrite Harr). cbv beta iota.
  rewrite (lift_run _ _ (0, i ++ 0 :: drop (S (length i)) arr_i)).
  2: { rewrite parse_request_value with (v := i) by done. by rewrite (proj2 (Z.ltb_lt _ _)). }
  rewrite (lift_run _ _ true) by (by apply first_nonempty).
  rewrite (lift_run _ _ (0, p ++ 0 :: drop (S (length p)) arr_p)).
  2: { rewrite parse_request_value with (v := p) by done. by rewrite (proj2 (Z.ltb_lt _ _)). }
  rewrite (bind_run _ _ w s s) by (by destruct Hs as (d & -> & _)).
  rewrite (lift_run _ _ i) by (by apply cstr_app). rewrite (lift_run _ _ (copied (ssid w) i)) by (apply strcpy_fits; lia).
  rewrite (lift_run _ _ p) by (by apply cstr_app). rewrite (lift_run _ _ (copied (password w) p)) by (apply strcpy_fits; lia).
  rewrite (bind_run _ _ () s s1) by exact E1. rewrite (bind_run _ _ () s1 s2) by exact E2.
  rewrite (bind_run _ _ () s2 s3) by exact E3.
  rewrite (bind_run _ _ (i, p) s3 s3); [done|]. unfold wifi_strings.
  rewrite (bind_run _ _ w' s3 s3) by (by destruct Hs3 as (d & -> & _)).
  rewrite (lift_run _ _ i) by (by apply cstr_app). by rewrite (lift_run _ _ p) by (by apply cstr_app).
Qed.

Lemma twp_join_network i p (Q : bool → State → Prop) w li lc s0 s :
  at_sys w li lc s0 s → zlen i < 32 → zlen p < 64 →
  (∀ s', at_sys w (li ++ [esp_wifi_set_mode WIFI_MODE_APSTA; esp_wifi_set_config (station i p); esp_wifi_connect]) lc s0 s' →
    Q true s') →
  twp (join_network i p) Q s.
Proof.
  intros Hs Hi Hp HQ. unfold join_network, wifi_apsta_configure. apply twp_bind.
  apply twp_bind. eapply twp_sys_check; [exact Hs|]. clear s Hs. intros s Hs.
  eapply twp_bind, twp_lift; [by apply sta_copy_fits|].
  apply twp_bind. eapply twp_sys_check; [exact Hs|]. clear s Hs. intros s Hs. apply twp_ret.
  apply twp_bind, twp_ret. apply twp_bind. eapply twp_sys_idf; [exact Hs|]. clear s Hs. intros s Hs.
  apply twp_bind, twp_ret, twp_ret, HQ. by rewrite <- !app_assoc in Hs.
Qed.

Lemma wifi_posted junk text rest s :
  post_request text (bytes "/wifi-setup") →
  serve_request junk (text ++ 0 :: rest) s = serve_wifi_setup (text ++ 0 :: rest) s.
Proof.
  intros (Ht & Hget & Hp & Hh & Hpath). unfold serve_request, is_request. rewrite (has_false text rest (bytes "GET ")) by done.
  rewrite (has_true text rest (bytes "POST ")), (has_true text rest (bytes " HTTP/1.1")), !bind_ok by done.
  rewrite (lift_run _ _ false), (lift_run _ _ true) by done. unfold serve_post.
  by rewrite (lift_run _ _ (Some wifi_setup)) by (by apply wifi_routed).
Qed.

(** A field that is longer than its local array overruns it. *)
Lemma wifi_form_long text rest i p arr_i arr_p s :
  is_cstring text → has_field text (bytes "ssid") i → has_field text (bytes "password") p → i ≠ [] →
  form_arrays (idf (app_of s)) = (arr_i, arr_p) → zlen arr_i ≤ zlen i ∨ zlen arr_p ≤ zlen p →
  serve_wifi_setup (text ++ 0 :: rest) s = Fault OobWrite.
Proof.
  intros Ht Hi Hp Hne Harr Hlong. pose proof (proj1 (has_field_value text _ i Hi Ht)) as Ci. unfold serve_wifi_setup.
  rewrite (bind_run _ _ (arr_i, arr_p) s s) by (unfold gets; by rewrite Harr). cbv beta iota.
  destruct (Z.ltb_spec (zlen i) (zlen arr_i)) as [Hl|Hl].
  - rewrite (lift_run _ _ (0, i ++ 0 :: drop (S (length i)) arr_i)).
    2: { rewrite parse_request_value with (v := i) by done. by rewrite (proj2 (Z.ltb_lt _ _)) by lia. }
    rewrite (lift_run _ _ true) by (by apply first_nonempty).
    apply lift_fault. rewrite parse_request_value with (v := p) by done. by rewrite (proj2 (Z.ltb_ge _ _)) by lia.
  - apply lift_fault. rewrite parse_request_value with (v := i) by done. by rewrite (proj2 (Z.ltb_ge _ _)) by lia.
Qed.

(** The WiFi form joins the network it names: a POST request for
    "/wifi-setup" with a name and a password is answered with the success page
    and an end of the connection; both strings are then in [actual_wifi], and
    the driver is switched to access point and station, given exactly these,
    and told to connect.  Nothing limits what the form sends: a name of 32 or a
    password of 64 bytes or more is written past an array. *)
Theorem wifi_form_joins (junk : Z) (text rest i p arr_i arr_p : list Z) (d : D) s :
  let w := actual_wifi (app_of s) in
  netconn_recv (idf (app_of s)) = (0, text ++ 0 :: rest, d) → post_request text (bytes "/wifi-setup") →
  has_field text (bytes "ssid") i → has_field text (bytes "password") p → i ≠ [] →
  form_arrays d = (arr_i, arr_p) → length arr_i = 33%nat → length arr_p = 64%nat →
  length (ssid w) = 33%nat → length (password w) = 64%nat →
  if (zlen i <? 32) && (zlen p <? 64)
  then twp (http_server_netconn_serve junk) (λ _, at_sys
         {| ssid := copied (ssid w) i; password := copied (password w) p |}
         (idf_trace (idf (app_of s)) ++
            [esp_wifi_set_mode WIFI_MODE_APSTA; esp_wifi_set_config (station i p); esp_wifi_connect])
         (conn_trace (idf (app_of s)) ++ answer success_html ++ closing) s) s
  else http_server_netconn_serve junk s = Fault OobWrite.
Proof.
  intros w Er Hpost Hi Hp Hne Harr L1 L2 L3 L4. pose proof (received_sys _ _ _ Er) as Hs. fold w in Hs.
  pose proof (proj1 Hpost) as Ht. set (fits := _ && _). destruct ((zlen i <? 33) && (zlen p <? 64)) eqn:E.
  2: { assert (fits = false) as -> by (unfold fits; lia). eapply serve_received_fault; [exact Er|].
       rewrite wifi_posted by done. apply (wifi_form_long _ _ i p arr_i arr_p); try done. lia. }
  apply andb_true_iff in E as [Hi33%Z.ltb_lt Hp64%Z.ltb_lt].
  destruct (wifi_form_run text rest i p arr_i arr_p w _ _ s (received d s) Ht Hi Hp Hne Harr Hs) as (s1 & Hs1 & E1); [lia..|].
  destruct fits eqn:Ef; unfold fits in Ef.
  - apply andb_true_iff in Ef as [Hi32%Z.ltb_lt _].
    eapply serve_received; [exact Er|]. eapply twp_eq; [rewrite wifi_posted by done; exact E1|].
    by eapply (twp_join_network i p); [exact Hs1|..].
  - eapply serve_received_fault; [exact Er|]. rewrite wifi_posted, E1 by done. unfold join_network, mbind at 1, M_bind at 1.
    by rewrite (proj2 (configure_long i p s1 Ef)).
Qed.

(** ** The MQTT form *)

(** The handlers of messages leave the application's data alone. *)
Hypothesis app_keeps : ∀ g m, frames same_user (run_cayenne g m : M State ()).

(** The state with the strings of a form in the static variables. *)
Definition with_form (f : form_t) s : State :=
  let a := app_of s in set_app (MkApp (actual_wifi a) f (flash a) (bluetooth a) (idf a)) s.
Definition account_form (u p c : list Z) : form_t :=
  {| f_username := u ++ [0]; f_password := p ++ [0]; f_clientID := c ++ [0] |}.

Lemma parse_field_run text rest key v get set s :
  is_cstring text → has_field text key v → (∀ n, form_malloc (idf (app_of s)) n = true) →
  parse_field (text ++ 0 :: rest) key get set s = Ok ((), with_form (set (v ++ [0]) (form (app_of s))) s).
Proof.
  intros Ht Hf Hm. unfold parse_field. rewrite (bind_run _ _ (get (form (app_of s))) s s) by done.
  rewrite (bind_run _ _ (form_malloc (idf (app_of s))) s s) by done.
  rewrite (lift_run _ _ (0, Some (v ++ [0]))) by (by apply parse_request2_value). done.
Qed.

Lemma account_nonempty u p c ru rp rc :
  is_cstring u → is_cstring p → is_cstring c → u ≠ [] → p ≠ [] → c ≠ [] →
  all_nonempty [u ++ ru; p ++ rp; c ++ rc] = Ok true.
Proof.
  intros Hu Hp Hc Hu0 Hp0 Hc0. pose proof (first_nonempty u ru Hu Hu0) as Eu. pose proof (first_nonempty p rp Hp Hp0) as Ep.
  pose proof (first_nonempty c rc Hc Hc0) as Ec. cbn [all_nonempty] in *.
  destruct (load (u ++ ru) 0) as [x|]; [|done]. rewrite bind_ok in Eu |- *. destruct (x =? 0); [done|].
  destruct (load (p ++ rp) 0) as [y|]; [|done]. rewrite bind_ok in Ep |- *. by destruct (y =? 0).
Qed.

Lemma connect_app u p c rc s s' :
  (CayenneInit u p c ;; connectClient) s = Ok (rc, s') → app_of s' = app_of s.
Proof.
  set (R := λ s s' : State, app_of s' = app_of s).
  assert (HR : PreOrder R) by (split; unfold R; [done|]; intros ? ? ? E1 E2; congruence).
  assert (Huser : ∀ A (m : M State A), frames same_user m → frames R m).
  { intros A m Hm t a t' E. apply Hm in E. unfold R, app_of. by rewrite E. }
  assert (Hf : frames R (CayenneInit u p c ;; connectClient)).
  { pose proof (λ A (m : M (Network * W) A), Huser _ _ (frames_world (H := mqtt_handler) (X := CayenneData CH (App F B D)) m)) as Hworld.
    pose proof (Huser _ _ (frames_cayenne_connect app_keeps)) as Hcon.
    pose proof (λ c t ch ty u v, Huser _ _ (frames_cayenne_publish app_keeps c t ch ty u v)) as Hpub.
    unfold CayenneInit, connectClient. frame_steps. by apply frames_modify. }
  apply Hf.
Qed.

Lemma mqtt_posted junk text rest s :
  post_request text (bytes "/mqtt-setup") → ¬ occurs (bytes "/wifi-setup") text →
  serve_request junk (text ++ 0 :: rest) s = serve_mqtt_setup (text ++ 0 :: rest) s.
Proof.
  intros (Ht & Hget & Hp & Hh & Hpath) Hw. unfold serve_request, is_request. rewrite (has_false text rest (bytes "GET ")) by done.
  rewrite (has_true text rest (bytes "POST ")), (has_true text rest (bytes " HTTP/1.1")), !bind_ok by done.
  rewrite (lift_run _ _ false), (lift_run _ _ true) by done. unfold serve_post.
  rewrite (lift_run _ _ (Some mqtt_setup)); [done|]. unfold post_routes. cbn [find_route].
  by rewrite (has_false text rest (bytes "/wifi-setup")), bind_ok, (has_true text rest (bytes "/mqtt-setup")), bind_ok by done.
Qed.

(** The form up to the answer of the server. *)
Lemma mqtt_form_run text rest u p c s rc s2 :
  is_cstring text → has_field text (bytes "username") u → has_field text (bytes "password") p →
  has_field text (bytes "clientID") c → u ≠ [] → p ≠ [] → c ≠ [] →
  (∀ n, form_malloc (idf (app_of s)) n = true) →
  (CayenneInit u p c ;; connectClient) (with_form (account_form u p c) s) = Ok (rc, s2) →
  serve_mqtt_setup (text ++ 0 :: rest) s =
  ((if negb (s8 rc =? CAYENNE_SUCCESS) then check (s8 rc)
    else on_flash (save_last_connected_mqtt u p c) ;; mret ()) ;;
   respond success_html ;; close_all ;; mret true) s2.
Proof.
  intros Ht Fu Fp Fc Hu Hp Hc Hm Econ. unfold serve_mqtt_setup.
  pose proof (proj1 (has_field_value text _ u Fu Ht)) as Cu. pose proof (proj1 (has_field_value text _ p Fp Ht)) as Cp.
  pose proof (proj1 (has_field_value text _ c Fc Ht)) as Cc.
  erewrite bind_run by (by apply (parse_field_run text rest _ u)).
  erewrite bind_run by (by apply (parse_field_run text rest _ p)).
  erewrite bind_run by (by apply (parse_field_run text rest _ c)).
  match goal with |- _ ?s1 = _ => change s1 with (with_form (account_form u p c) s) end.
  rewrite (bind_run _ _ (account_form u p c) _ (with_form (account_form u p c) s)) by done. cbn [account_form f_username f_password f_clientID].
  rewrite (lift_run _ _ true) by (by apply account_nonempty).
  rewrite (lift_run _ _ u), (lift_run _ _ p), (lift_run _ _ c) by (by apply cstr_app).
  unfold mbind at 1, M_bind at 1 in Econ. unfold mbind at 1, M_bind at 1.
  destruct (CayenneInit u p c _) as [[[] s1]|f]; [|done]. by rewrite (bind_run _ _ rc s1 s2).
Qed.

(** The credentials and the trace of the state itself. *)
Lemma at_sys_here s :
  at_sys (actual_wifi (app_of s)) (idf_trace (idf (app_of s))) (conn_trace (idf (app_of s))) s s.
Proof. exists (idf (app_of s)). split; [|done]. by destruct s as [cl w [us pw id h d [? ? ? ? ?]]]. Qed.

(** Reading the account back, into arrays that are long enough. *)
Lemma stored_account_run u p c s :
  (∀ n (f : F), malloc_ok n f = true) → healthy (flash (app_of s)) →
  items (flash (app_of s)) !! (WIFI, bytes "mqtt_user") = Some (NStr u) →
  items (flash (app_of s)) !! (WIFI, bytes "mqtt_pass") = Some (NStr p) →
  items (flash (app_of s)) !! (WIFI, bytes "mqtt_id") = Some (NStr c) →
  is_cstring u → is_cstring p → is_cstring c → u ≠ [] → p ≠ [] → c ≠ [] →
  let '(ua, pa, ca) := stack_arrays (idf (app_of s)) in
  zlen u < zlen ua → zlen p < zlen pa → zlen c < zlen ca →
  ∃ s', stored_account s = Ok (Some (u, p, c), s').
Proof.
  intros Hma Hh M1 M2 M3 Cu Cp Cc Hu Hp Hc. destruct (stack_arrays (idf (app_of s))) as [[ua pa] ca] eqn:Ea.
  intros L1 L2 L3. pose proof (twp_get_mqtt u p c ua pa ca (flash (app_of s)) Hma Hh M1 M2 M3 Cu Cp Cc L1 L2 L3) as Hg.
  apply twp_run in Hg as (r & f' & Eg & -> & _). unfold stored_account.
  rewrite (bind_run _ _ (ua, pa, ca) s s) by (unfold gets; by rewrite Ea). cbv beta iota.
  erewrite bind_run by (unfold on_flash; cbv zeta; by rewrite Eg, bind_ok). cbv beta iota.
  erewrite bind_run by done. rewrite (lift_run _ _ true) by (by apply account_nonempty).
  rewrite (lift_run _ _ u), (lift_run _ _ p), (lift_run _ _ c) by (by apply cstr_app). by eexists.
Qed.

(** An operation on the flash leaves the drivers alone. *)
Lemma twp_sys_flash {A} (m : M F A) P (Q : A → State → Prop) s :
  twp m P (flash (app_of s)) →
  (∀ a f' s', P a f' → flash (app_of s') = f' → idf (app_of s') = idf (app_of s) → Q a s') → twp (on_flash m) Q s.
Proof.
  intros Hm HQ. apply twp_run in Hm as (a & f' & E & HP). unfold twp, on_flash. cbv zeta. rewrite E, bind_ok.
  by apply (HQ a f').
Qed.

End Forms.

(** A refused account ends the server, on any flash. *)
Lemma mqtt_form_refused {W F B D CH : Type} `{!Lwip W, !Clock W, !Fuel, N : !Nvs F, !Bluedroid B, !Idf D, !Netconn D, pad : !StackPad}
    `{!CayenneCallbacks (Network * W) (App F B D) CH}
    junk text rest u p c d rc (s s2 : CState (Network * W) (App F B D) CH) : stack_pad ≠ 0%nat →
  netconn_recv (idf (app_of s)) = (0, text ++ 0 :: rest, d) →
  post_request text (bytes "/mqtt-setup") → ¬ occurs (bytes "/wifi-setup") text →
  has_field text (bytes "username") u → has_field text (bytes "password") p → has_field text (bytes "clientID") c →
  u ≠ [] → p ≠ [] → c ≠ [] → (∀ n, form_malloc d n = true) →
  (CayenneInit u p c ;; connectClient) (with_form (account_form u p c) (received d s)) = Ok (rc, s2) →
  (s8 rc =? CAYENNE_SUCCESS) = false → http_server_netconn_serve junk s = Fault EspAbort.
Proof.
  intros Hpad Er Hpost Hnw Fu Fp Fc Hu Hp Hc Hm Econ Erc. eapply serve_received_fault; [exact Er|].
  pose proof (mqtt_form_run Hpad text rest u p c (received d s) rc s2 (proj1 Hpost) Fu Fp Fc Hu Hp Hc Hm Econ) as E.
  rewrite mqtt_posted, E by done. rewrite Erc. cbn [negb]. unfold check.
  change CAYENNE_SUCCESS with 0 in Erc. by rewrite Erc.
Qed.

Section Remembered.
Context {W F B D CH : Type} `{!Lwip W, !Clock W, !Fuel, Nvs0 : !Nvs F, !NvsLaws F, !Bluedroid B, !Idf D, !TracedIdf D}.
Context `{!Netconn D, !TracedConn D, pad : !StackPad}.
Context `{!CayenneCallbacks (Network * W) (App F B D) CH, !Scheduler (Network * W) (App F B D) CH}.
Abbreviation State := (CState (Network * W) (App F B D) CH).
Implicit Types (s : State).

Hypothesis padded_stack : stack_pad ≠ 0%nat.
Hypothesis conn_ok : ∀ r d, (netconn_call r d).1 = 0.
Hypothesis conn_idf : ∀ r d, idf_trace (netconn_call r d).2 = idf_trace d.
Hypothesis recv_idf : ∀ d, idf_trace (netconn_recv d).2 = idf_trace d.
(** The handlers of messages leave the application's data alone. *)
Hypothesis app_keeps : ∀ g m, frames same_user (run_cayenne g m : M State ()).

(** [C17] The account of the MQTT form is remembered exactly when it works: a
    POST request for "/mqtt-setup" with a user name, a password and a client id
    initialises the client with these and connects.  If that succeeds, the
    three strings are stored, the success page is sent and the connection
    closed, and whatever happens to the memory after that, with the flash as it
    was left the WiFi component finds this account again.  If it fails, the
    program is aborted and nothing is stored: it is aborted as well, and in the
    same way, with a flash on which any call that writes would end the run with
    a fault [e] of its own, so none of them is reached. *)
Theorem mqtt_form_remembered (junk : Z) (text rest u p c : list Z) (d : D) (rc : Z) s s2 :
  let f := flash (app_of s) in
  netconn_recv (idf (app_of s)) = (0, text ++ 0 :: rest, d) →
  post_request text (bytes "/mqtt-setup") → ¬ occurs (bytes "/wifi-setup") text →
  has_field text (bytes "username") u → has_field text (bytes "password") p → has_field text (bytes "clientID") c →
  u ≠ [] → p ≠ [] → c ≠ [] → zlen u < 100 → zlen p < 100 → zlen c < 100 →
  (∀ n, form_malloc d n = true) → (∀ n (f : F), malloc_ok n f = true) →
  healthy f → str_key (items f) WIFI (bytes "mqtt_user") → str_key (items f) WIFI (bytes "mqtt_pass") →
  str_key (items f) WIFI (bytes "mqtt_id") →
  (CayenneInit u p c ;; connectClient) (with_form (account_form u p c) (received d s)) = Ok (rc, s2) →
  if s8 rc =? CAYENNE_SUCCESS
  then twp (http_server_netconn_serve junk) (λ _ s3,
    conn_trace (idf (app_of s3)) = conn_trace (idf (app_of s)) ++ answer success_html ++ closing ∧
    ∀ s4 : State, flash (app_of s4) = flash (app_of s3) →
      (let '(ua, pa, ca) := stack_arrays (idf (app_of s4)) in zlen ua = 100 ∧ zlen pa = 100 ∧ zlen ca = 100) →
      ∃ s5, stored_account s4 = Ok (Some (u, p, c), s5)) s
  else http_server_netconn_serve junk s = Fault EspAbort ∧
    ∀ e, http_server_netconn_serve (Nvs0 := cut_off Nvs0 e) junk s = Fault EspAbort.
Proof.
  intros f Er Hpost Hnw Fu Fp Fc Hu Hp Hc Lu Lp Lc Hm Hma Hh K1 K2 K3 Econ.
  pose proof (proj1 Hpost) as Ht. pose proof (received_sys recv_idf _ _ _ Er) as (d0 & Ed & _ & Htr).
  pose proof (mqtt_form_run padded_stack text rest u p c (received d s) rc s2 Ht Fu Fp Fc Hu Hp Hc Hm Econ) as E.
  destruct (s8 rc =? CAYENNE_SUCCESS) eqn:Erc; cbn [negb] in E.
  2: { split; [by eapply mqtt_form_refused|]. intros e. by eapply mqtt_form_refused. }
  eapply serve_received; [exact Er|]. eapply twp_eq; [rewrite mqtt_posted by done; exact E|]. clear E.
  apply (connect_app app_keeps) in Econ.
  assert (Ef : flash (app_of s2) = f) by (by rewrite Econ).
  assert (Et : conn_trace (idf (app_of s2)) = conn_trace (idf (app_of s))).
  { rewrite Econ. change (idf (app_of (with_form (account_form u p c) (received d s)))) with d.
    pose proof (netconn_recv_trace (idf (app_of s))) as En. by rewrite Er in En. }
  apply twp_bind, twp_bind. eapply twp_sys_flash.
  { rewrite Ef. apply (twp_save_mqtt u p c f); try done; unfold NVS_MAX_STRING; lia. }
  cbn beta. intros e f3 s3 (_ & Hh3 & M1 & M2 & M3) Ef3 Ei3. apply twp_ret.
  apply twp_bind. eapply (twp_sys_respond conn_ok conn_idf); [exact (at_sys_here s3)|]. intros s4 Hs4.
  apply twp_bind. eapply (twp_sys_close conn_ok conn_idf); [exact Hs4|]. clear s4 Hs4. intros s4 (d4 & -> & _ & Hd4). apply twp_ret.
  split; [done|]. split.
  { unfold set_app, app_of. cbn [user y_app idf]. by rewrite Hd4, Ei3, Et, <- app_assoc. }
  unfold set_app. unfold app_of at 2. cbn [user y_app flash]. rewrite Ef3. intros s5 Ef5 Harr.
  pose proof (proj1 (has_field_value text _ u Fu Ht)). pose proof (proj1 (has_field_value text _ p Fp Ht)).
  pose proof (proj1 (has_field_value text _ c Fc Ht)).
  pose proof (stored_account_run padded_stack u p c s5 Hma) as Hrun. rewrite Ef5 in Hrun.
  destruct (stack_arrays (idf (app_of s5))) as [[ua pa] ca]. destruct Harr as (E1 & E2 & E3).
  apply Hrun; (done || lia).
Qed.
End Remembered.
