(* ===== verification/Main.v ===== *)
(** * main.c: starting the firmware

    Models [app_main] of [src/main/main.c]: the flash is mounted, the restart
    counter shown and counted up, the network started and the task of the
    configuration server created.  The output on the console is left out. *)

From S2P Require Import Prelude CString Timer Network MQTTClient CayenneUtils CayenneDataArray CayenneMQTTClient Storage HttpServer Double Bluetooth CayenneTask WiFi WiFiProofs HttpDispatch.

Section Main.
Context {W F B D CH : Type} `{!Lwip W, !Clock W, !Fuel, !Nvs F, !Bluedroid B, !Idf D}.
Context `{!CayenneCallbacks (Network * W) (App F B D) CH, !Scheduler (Network * W) (App F B D) CH}.
Abbreviation State := (CState (Network * W) (App F B D) CH).

Definition app_main : M State () :=
  err ← on_flash storage_init;
  check_flash err ;;
  '(err, _) ← on_flash get_restart_counter;
  check_flash err ;;
  err ← on_flash save_restart_counter;
  check_flash err ;;
  err ← wifi_start;
  check err ;;
  http_server_init.

(** ** Correctness *)

Context `{!NvsLaws F, !TracedIdf D}.
Implicit Types (s : State) (f : F).

(** What is mounted: the flash as it is, or an erased one if it is full. *)
Definition mounted f f0 : Prop :=
  nvs_flash_init f = (ESP_OK, f0) ∨
  ∃ f1 f2, nvs_flash_init f = (ESP_ERR_NVS_NO_FREE_PAGES, f1) ∧ nvs_flash_erase f1 = Ok (ESP_OK, f2) ∧
    nvs_flash_init f2 = (ESP_OK, f0).

Lemma twp_storage_init f f0 : mounted f f0 → twp storage_init (λ e f', e = ESP_OK ∧ f' = f0) f.
Proof.
  unfold storage_init. intros [E|(f1 & f2 & E1 & E2 & E3)]; apply twp_bind; unfold twp at 1, call.
  - rewrite E. change (bool_decide _) with false. by apply twp_check, twp_ret.
  - rewrite E1. change (bool_decide _) with true. apply twp_bind. unfold twp at 1. rewrite E2. apply twp_check; [done|].
    apply twp_bind. unfold twp at 1. rewrite E3. by apply twp_check, twp_ret.
Qed.

(** Up to the counting. *)
Definition counted : M State () :=
  err ← on_flash save_restart_counter;
  check_flash err ;;
  err ← wifi_start;
  check err ;;
  http_server_init.

Lemma main_shown v b l s0 s f f0 :
  at_app actual_wifi_initializer f b l s0 s → mounted f f0 → healthy f0 → counter (items f0) v →
  ∃ s1 f1, at_app actual_wifi_initializer f1 b l s0 s1 ∧ healthy f1 ∧ items f1 = items f0 ∧ app_main s = counted s1.
Proof.
  intros Hs Hm Hh Hc. unfold app_main.
  assert (H1 : twp (on_flash storage_init) (λ e s1, e = ESP_OK ∧ at_app actual_wifi_initializer f0 b l s0 s1) s).
  { eapply twp_on_flash; [exact Hs|by apply (twp_storage_init f f0)|]. by intros e f' s' [-> ->]. }
  apply twp_run in H1 as (e & s1 & E1 & -> & Hs1). rewrite (bind_run _ _ _ _ _ E1), (bind_run _ _ () s1 s1) by done.
  assert (H2 : twp (on_flash get_restart_counter) (λ r s2, r = (ESP_OK, v) ∧ ∃ f2,
    at_app actual_wifi_initializer f2 b l s0 s2 ∧ healthy f2 ∧ items f2 = items f0) s1).
  { eapply twp_on_flash; [exact Hs1|by apply (twp_get_counter v f0)|]. cbn beta. intros r f' s' (-> & Hi & Hh') Hs'. eauto. }
  apply twp_run in H2 as (r & s2 & E2 & -> & f2 & Hs2 & Hh2 & Hi2). exists s2, f2. split_and!; try done.
  by rewrite (bind_run _ _ _ _ _ E2), (bind_run _ _ () s2 s2) by done.
Qed.

Lemma on_flash_fault {A C} (m : M F A) (k : A → M State C) e s :
  m (flash (app_of s)) = Fault e → (on_flash m ≫= k) s = Fault e.
Proof. intros E. unfold mbind, M_bind, on_flash. cbv zeta. by rewrite E. Qed.

(** [C15] What a start of the firmware does: when the flash can be mounted,
    [app_main] counts the start in flash, initialises the drivers in order,
    starts the network it was last connected to, or its own access point if
    there is none, and only then creates the task of the configuration server.
    The rest of the flash and the Cayenne and Bluetooth clients are as they
    were.  The start number 2147483648 is an overflow of a signed integer. *)
Theorem app_main_boot (f0 : F) (os op : option (list Z)) (v : Z) s :
  mounted (flash (app_of s)) f0 → healthy f0 → actual_wifi (app_of s) = actual_wifi_initializer →
  counter (items f0) v → INT_MIN ≤ v ≤ INT_MAX →
  holds (items f0) WIFI (bytes "last_ssid") os → holds (items f0) WIFI (bytes "last_password") op →
  string_ok 32 os → string_ok 64 op →
  if v <? INT_MAX
  then twp app_main (λ _ s',
    items (flash (app_of s')) = <[COUNTER := NI32 (v + 1)]> (items f0) ∧
    idf_trace (idf (app_of s')) =
      idf_trace (idf (app_of s)) ++ init_calls ++ start_calls os op ++ [xTaskCreate http_server_task 2048] ∧
    bluetooth (app_of s') = bluetooth (app_of s) ∧ client s' = client s ∧ world s' = world s) s
  else app_main s = Fault IntOverflow.
Proof.
  intros Hm Hh Hw Hc Hv Hos Hop Hs1 Hp1. pose proof (at_app_here s) as Hs. rewrite Hw in Hs.
  destruct (main_shown v _ _ s s _ f0 Hs Hm Hh Hc) as (s1 & f1 & Hs1' & Hh1 & Hi1 & E).
  destruct (Z.ltb_spec v INT_MAX) as [Hlt|Hge].
  2: { rewrite E. unfold counted. apply on_flash_fault, save_counter_overflow.
       - by apply at_app_keeps in Hs1' as (_ & -> & _).
       - apply at_app_keeps in Hs1' as (_ & -> & _). rewrite Hi1. by replace INT_MAX with v by lia. }
  eapply twp_eq; [exact E|]. unfold counted. rewrite <- Hi1 in Hc.
  eapply twp_flash; [exact Hs1'|by apply twp_save_counter; [|exact Hc|lia]|]. cbn beta.
  intros e f2 s2 (-> & Hh2 & Hi2) Hs2. apply twp_bind, twp_ret. rewrite Hi1 in Hi2.
  assert (Hkeep : ∀ key o, holds (items f0) WIFI key o → holds (items f2) WIFI key o).
  { intros key o. unfold holds. rewrite Hi2. by rewrite lookup_insert_ne by done. }
  apply twp_bind. eapply twp_mono; [apply (twp_wifi_start os op _ _ _ _ _ Hs2 Hh2); auto|].
  cbn beta. intros r s3 (-> & w & f3 & Hs3 & Hi3 & _). apply twp_bind, twp_ret. unfold http_server_init.
  eapply twp_idf_do; [exact Hs3|]. intros s4 Hs4. apply twp_ret.
  apply at_app_keeps in Hs4 as (-> & -> & -> & -> & ->). split_and!; try done.
  - by rewrite Hi3.
  - by rewrite <- !app_assoc.
Qed.
End Main.
