(* ===== verification/SystemRuns.v ===== *)
(** * Runs of the whole device

    The device on concrete drivers: a peer that answers the connection to the
    Cayenne server, a flash in memory, a Bluetooth stack that takes every
    request, and drivers and connections that record the calls.  The theorems
    on the WiFi component, on the configuration server and on the start are
    applied to it. *)

From S2P Require Import Prelude CString Timer Network MQTTClient CayenneUtils CayenneDataArray CayenneMQTTClient Frame Storage HttpServer Double Bluetooth BluetoothProofs BluetoothRuns CayenneTask WiFi WiFiProofs HttpDispatch HttpProofs HttpForms Main.

(** The calls so far, and the request that is received on every connection. *)
Record drivers := { d_idf : list idf_request; d_conn : list conn_request; d_request : list Z }.

#[local] Instance sys_idf : Idf drivers := {
  idf_call r d := (0, {| d_idf := d_idf d ++ [r]; d_conn := d_conn d; d_request := d_request d |});
  scan_ap_num _ := 0;
  scan_malloc _ _ := true;
  scan_records _ d := (0, d);
  stack_arrays _ := (replicate 100 170, replicate 100 170, replicate 100 170) }.
#[local] Instance sys_traced : TracedIdf drivers.
Proof. by refine {| idf_trace := d_idf |}. Defined.
#[local] Instance sys_netconn : Netconn drivers := {
  netconn_call r d := (0, {| d_idf := d_idf d; d_conn := d_conn d ++ [r]; d_request := d_request d |});
  netconn_recv d := (0, d_request d, d);
  form_arrays _ := (replicate 33 170, replicate 64 170);
  form_malloc _ _ := true }.
#[local] Instance sys_conn : TracedConn drivers.
Proof. by refine {| conn_trace := d_conn |}. Defined.

#[local] Instance sys_lwip : Lwip peer := peer_lwip 11.
#[local] Existing Instance Tag.stack.
#[local] Instance sys_fuel : Fuel := 20%nat.
#[local] Instance sys_pad : StackPad := 1%nat.

Abbreviation SysApp := (App sim_flash Tag.World drivers).
Abbreviation Sys := (CState (Network * peer) SysApp ()).

#[local] Instance sys_callbacks : CayenneCallbacks (Network * peer) SysApp () := {|
  run_cayenne _ _ := mret ();
  stack_message := {| cm_clientID := None; cm_topic := UNDEFINED_TOPIC; cm_channel := 0; cm_id := None;
                      cm_type := None; cm_values := replicate 4 no_pair; cm_valueCount := 0 |};
  stack_publish := MQTTPublish.Build_publish_out 0 0 0 0 MQTTPacket.MQTTString_initializer 0 0;
  stack_packetid := 0 |}.

(** Sleeping takes time. *)
#[local] Instance sys_scheduler : Scheduler (Network * peer) SysApp () := {|
  vTaskDelay ticks s := MkSt (client s) (fst (world s),
    {| ptime := Z.max 0 (ptime (snd (world s))) + 10000 * ticks; inbox := inbox (snd (world s));
       outbox := outbox (snd (world s)) |}) (user s);
  sensor_values s := (BA5C_data (fst (bluetooth (app_of s))), s) |}.

(** A device whose buffers have 135 bytes, with the flash [f], the credentials
    [w], the request [r] and the bytes [i] from the Cayenne server. *)
Definition sys (f : sim_flash) (w : wifi_evidence_t) (r i : list Z) : Sys :=
  MkSt (MQTTClientInit 0 (replicate 135 0) 135 (replicate 135 0) 135 0)
    ({| my_socket := 0; connected := 0 |}, {| ptime := 0; inbox := i; outbox := [] |})
    (Build_CayenneData None None None [] None
       (MkApp w {| f_username := [0]; f_password := [0]; f_clientID := [0] |} f (Bt_initializer, [])
          {| d_idf := []; d_conn := []; d_request := r |})).
Definition fresh (f : sim_flash) : Sys := sys f actual_wifi_initializer [] [].

(** A flash with the given strings and a counter of 4. *)
Definition flash_of (l : list (list Z * list Z)) : sim_flash :=
  {| sf_items := <[COUNTER := NI32 4]> (list_to_map (map (λ e, ((WIFI, e.1), NStr e.2)) l)); sf_handles := [] |}.
Definition home_flash : sim_flash := flash_of [(bytes "last_ssid", bytes "home"); (bytes "last_password", bytes "secret")].
Definition in_use (i p : list Z) : wifi_evidence_t := {| ssid := array_of 33 i; password := array_of 64 p |}.

Lemma flash_str_key l key : str_key (items (flash_of l)) WIFI key.
Proof.
  intros v E. cbn in E. rewrite lookup_insert_ne in E by done. apply elem_of_list_to_map_2 in E.
  apply list_elem_of_fmap in E as (e & E & _). done.
Qed.

Definition idf_calls (r : outcome (() * Sys)) : list idf_request :=
  match r with Ok (_, s) => idf_trace (idf (app_of s)) | Fault _ => [] end.
Definition conn_calls (r : outcome (() * Sys)) : list conn_request :=
  match r with Ok (_, s) => conn_trace (idf (app_of s)) | Fault _ => [] end.

(** ** Starting *)

Example boot_calls : idf_calls (app_main (fresh home_flash)) =
  init_calls ++ join_calls (bytes "home") (bytes "secret") ++ [xTaskCreate http_server_task 2048].
Proof. vm_compute. reflexivity. Qed.

Lemma wifi_start_modes_witness :
  let s := fresh home_flash in
  twp wifi_start (λ r s', r = 0 ∧
    idf_trace (idf (app_of s')) = idf_trace (idf (app_of s)) ++ init_calls ++ start_calls (Some (bytes "home")) (Some (bytes "secret")) ∧
    items (flash (app_of s')) = items (flash (app_of s)) ∧ bluetooth (app_of s') = bluetooth (app_of s) ∧
    client s' = client s ∧ world s' = world s) s.
Proof.
  intros s. refine (wifi_start_modes (Some (bytes "home")) (Some (bytes "secret")) s I eq_refl _ _ _ _).
  - vm_compute. reflexivity.
  - vm_compute. reflexivity.
  - split; decide_vm.
  - split; decide_vm.
Defined.

Lemma app_main_boot_witness :
  let s := fresh home_flash in
  twp app_main (λ _ s',
    items (flash (app_of s')) = <[COUNTER := NI32 (4 + 1)]> (items home_flash) ∧
    idf_trace (idf (app_of s')) =
      idf_trace (idf (app_of s)) ++ init_calls ++ start_calls (Some (bytes "home")) (Some (bytes "secret")) ++
      [xTaskCreate http_server_task 2048] ∧
    bluetooth (app_of s') = bluetooth (app_of s) ∧ client s' = client s ∧ world s' = world s) s.
Proof.
  intros s. refine (app_main_boot home_flash (Some (bytes "home")) (Some (bytes "secret")) 4 s _ I eq_refl _ _ _ _ _ _).
  - left. reflexivity.
  - left. vm_compute. reflexivity.
  - split; discriminate.
  - vm_compute. reflexivity.
  - vm_compute. reflexivity.
  - split; decide_vm.
  - split; decide_vm.
Defined.

Lemma network_remembered_witness :
  let s := sys (flash_of []) (in_use (bytes "home") (bytes "secret")) [] [] in
  twp (wifi_event_handler 0 SYSTEM_EVENT_STA_CONNECTED) (λ r s1, r = 0 ∧
    ∀ s2 : Sys, flash (app_of s2) = flash (app_of s1) → actual_wifi (app_of s2) = actual_wifi_initializer →
      twp wifi_start (λ r' s3, r' = 0 ∧
        idf_trace (idf (app_of s3)) = idf_trace (idf (app_of s2)) ++ init_calls ++ join_calls (bytes "home") (bytes "secret")) s2) s.
Proof.
  intros s. refine (network_remembered 0 (bytes "home") (bytes "secret") s I _ _ (flash_str_key _ _) (flash_str_key _ _)
    (flash_str_key _ _) _ _ _ _ _ _ _); first [by vm_compute | decide_vm].
Defined.

(** A name of 24 letters: the device aborts when it has joined the network. *)
Lemma long_name_aborts :
  wifi_event_handler 0 SYSTEM_EVENT_STA_CONNECTED
    (sys (flash_of []) (in_use (bytes "a network of 24 letters.") (bytes "secret")) [] []) = Fault EspAbort.
Proof. vm_compute. reflexivity. Qed.

(** ** An address, an account and a server that accepts it *)

Definition account_flash : sim_flash :=
  flash_of [(bytes "mqtt_user", bytes "u"); (bytes "mqtt_pass", bytes "p"); (bytes "mqtt_id", bytes "d")].
Definition connack : list Z := [32; 2; 0; 0].
Definition with_address : Sys := sys account_flash actual_wifi_initializer [] connack.

(** The result of a computation, without the state. *)
Definition result {A} (r : outcome (A * Sys)) : option A := match r with Ok (a, _) => Some a | Fault _ => None end.
Lemma result_run {A} (r : outcome (A * Sys)) a : result r = Some a → ∃ s, r = Ok (a, s).
Proof. destruct r as [[a' s]|]; [|done]. intros [= ->]. by exists s. Qed.

Lemma address_account : ∃ s1, stored_account with_address = Ok (Some (bytes "u", bytes "p", bytes "d"), s1).
Proof. apply result_run. vm_compute. reflexivity. Qed.
Lemma address_connects s1 : stored_account with_address = Ok (Some (bytes "u", bytes "p", bytes "d"), s1) →
  ∃ s2, (delay 1000 ;; CayenneInit (bytes "u") (bytes "p") (bytes "d") ;; connectClient) s1 = Ok (CAYENNE_SUCCESS, s2).
Proof.
  intros E. apply result_run.
  assert (C : match stored_account with_address with
    | Ok (_, s1) => result ((delay 1000 ;; CayenneInit (bytes "u") (bytes "p") (bytes "d") ;; connectClient) s1)
    | Fault _ => None end = Some CAYENNE_SUCCESS) by (vm_compute; reflexivity).
  by rewrite E in C.
Qed.

Lemma got_ip_blocks_witness : ¬ ∃ r, wifi_event_handler 0 SYSTEM_EVENT_STA_GOT_IP with_address = Ok r.
Proof.
  destruct address_account as (s1 & E1). destruct (address_connects s1 E1) as (s2 & E2).
  intros [r Er]. exact (got_ip_blocks 0 (bytes "u") (bytes "p") (bytes "d") with_address s1 s2 E1 E2 r Er).
Defined.

(** ** Requests *)

Definition serving (r i : list Z) : Sys := sys (flash_of []) actual_wifi_initializer (r ++ [0]) i.
Definition served_calls (r i : list Z) : list conn_request := conn_calls (http_server_netconn_serve 0 (serving r i)).

Definition crlf : list Z := [13; 10].
Definition headers : list Z := crlf ++ bytes "Host: 192.168.4.1" ++ crlf ++ crlf.
Definition get_index : list Z := get_request (bytes "/any/index") headers.
Definition wifi_post : list Z := bytes "POST /wifi-setup HTTP/1.1" ++ headers ++ bytes "ssid=home&password=secret".
Definition mqtt_post : list Z := bytes "POST /mqtt-setup HTTP/1.1" ++ headers ++ bytes "username=u&password=p&clientID=d".

Example serve_index : served_calls get_index [] = answer index_html ++ closing.
Proof. vm_compute. reflexivity. Qed.
Example serve_no_method : served_calls (bytes "PUT /index HTTP/1.1") [] = closing.
Proof. vm_compute. reflexivity. Qed.
Example serve_wifi : served_calls wifi_post [] = answer success_html ++ closing.
Proof. vm_compute. reflexivity. Qed.
Example serve_mqtt : served_calls mqtt_post connack = answer success_html ++ closing.
Proof. vm_compute. reflexivity. Qed.

Lemma has_field_at text key v pre sep rest :
  text = pre ++ (key ++ sep :: v) ++ rest → bool_decide (find_sub text key = Some (zlen pre)) = true →
  field_ok (key ++ sep :: v) → field_end rest → zlen (key ++ sep :: v) ≤ HTTP_SERVER_STACK → has_field text key v.
Proof. intros E Ef%bool_decide_eq_true_1 Hf He Hl. by exists pre, sep, rest. Qed.

Lemma not_occurs key text : find_sub text key = None → ¬ occurs key text.
Proof. intros E Ho. apply find_sub_occurs in Ho as [i Ei]. congruence. Qed.
Lemma does_occur key text i : find_sub text key = Some i → occurs key text.
Proof. intros E. apply find_sub_occurs. by exists i. Qed.

Lemma sys_app_keeps : ∀ g m, frames same_user (run_cayenne g m : M Sys ()).
Proof. intros g m. apply frames_ret. apply _. Qed.

Lemma connection_closed_once_witness :
  ∃ s', http_server_netconn_serve 0 (serving get_index []) = Ok ((), s') ∧
  ∃ o, conn_trace (idf (app_of s')) = conn_trace (idf (app_of (serving get_index []))) ++
    match o with Some p => answer p | None => [] end ++ closing.
Proof.
  assert (E : ∃ s', http_server_netconn_serve 0 (serving get_index []) = Ok ((), s'))
    by (apply result_run; vm_compute; reflexivity).
  destruct E as [s' E]. exists s'. split; [exact E|]. exact (connection_closed_once sys_app_keeps 0 _ s' E).
Defined.

Lemma http_get_page_witness :
  let s := serving get_index [] in
  twp (http_server_netconn_serve 0) (λ _ s',
    at_conn (conn_trace (idf (app_of s)) ++ answer (lookup_page page_table (bytes "/any/index")) ++ closing) s s') s.
Proof.
  intros s. refine (http_get_page _ 0 (bytes "/any/index") headers [] (idf (app_of s)) s _ _ _ _ _).
  - reflexivity.
  - reflexivity.
  - decide_vm.
  - decide_vm.
  - decide_vm.
  - repeat constructor; apply not_occurs; vm_compute; reflexivity.
Defined.

Lemma wifi_fields : post_request wifi_post (bytes "/wifi-setup") ∧
  has_field wifi_post (bytes "ssid") (bytes "home") ∧ has_field wifi_post (bytes "password") (bytes "secret").
Proof.
  split_and!.
  - split_and!; [decide_vm|apply not_occurs; vm_compute; reflexivity|..]; eapply does_occur; vm_compute; reflexivity.
  - apply (has_field_at _ _ _ (bytes "POST /wifi-setup HTTP/1.1" ++ headers) 61 (bytes "&password=secret"));
      [vm_compute; reflexivity|vm_compute; reflexivity|decide_vm..].
  - apply (has_field_at _ _ _ (bytes "POST /wifi-setup HTTP/1.1" ++ headers ++ bytes "ssid=home&") 61 []);
      [vm_compute; reflexivity|vm_compute; reflexivity|decide_vm..].
Qed.

Lemma wifi_form_joins_witness :
  let s := serving wifi_post [] in let w := actual_wifi (app_of s) in
  twp (http_server_netconn_serve 0) (λ _, at_sys
    {| ssid := copied (ssid w) (bytes "home"); password := copied (password w) (bytes "secret") |}
    (idf_trace (idf (app_of s)) ++ [esp_wifi_set_mode WIFI_MODE_APSTA;
       esp_wifi_set_config (station (bytes "home") (bytes "secret")); esp_wifi_connect])
    (conn_trace (idf (app_of s)) ++ answer success_html ++ closing) s) s.
Proof.
  intros s w. destruct wifi_fields as (Hr & Hi & Hp).
  assert (E : (zlen (bytes "home") <? 32) && (zlen (bytes "secret") <? 64) = true) by (vm_compute; reflexivity).
  assert (Hne : bytes "home" ≠ []) by discriminate. assert (Hpad : stack_pad ≠ 0%nat) by discriminate.
  pose proof (wifi_form_joins Hpad (λ _ _, eq_refl) (λ _ _, eq_refl) (λ _, eq_refl) 0 wifi_post [] (bytes "home") (bytes "secret")
    (replicate 33 170) (replicate 64 170) (idf (app_of s)) s eq_refl Hr Hi Hp Hne eq_refl eq_refl eq_refl eq_refl eq_refl) as Hj.
  cbv zeta in Hj. rewrite E in Hj. exact Hj.
Defined.

Lemma mqtt_fields : post_request mqtt_post (bytes "/mqtt-setup") ∧ ¬ occurs (bytes "/wifi-setup") mqtt_post ∧
  has_field mqtt_post (bytes "username") (bytes "u") ∧ has_field mqtt_post (bytes "password") (bytes "p") ∧
  has_field mqtt_post (bytes "clientID") (bytes "d").
Proof.
  split_and!.
  - split_and!; [decide_vm|apply not_occurs; vm_compute; reflexivity|..]; eapply does_occur; vm_compute; reflexivity.
  - apply not_occurs. vm_compute. reflexivity.
  - apply (has_field_at _ _ _ (bytes "POST /mqtt-setup HTTP/1.1" ++ headers) 61 (bytes "&password=p&clientID=d"));
      [vm_compute; reflexivity|vm_compute; reflexivity|decide_vm..].
  - apply (has_field_at _ _ _ (bytes "POST /mqtt-setup HTTP/1.1" ++ headers ++ bytes "username=u&") 61 (bytes "&clientID=d"));
      [vm_compute; reflexivity|vm_compute; reflexivity|decide_vm..].
  - apply (has_field_at _ _ _ (bytes "POST /mqtt-setup HTTP/1.1" ++ headers ++ bytes "username=u&password=p&") 61 []);
      [vm_compute; reflexivity|vm_compute; reflexivity|decide_vm..].
Qed.

(** The answer of a server that does not accept the account. *)
Definition connack_refused : list Z := [32; 2; 0; 5].

Lemma mqtt_connects answer rc : let s := serving mqtt_post answer in
  result ((CayenneInit (bytes "u") (bytes "p") (bytes "d") ;; connectClient)
    (with_form (account_form (bytes "u") (bytes "p") (bytes "d")) (received (idf (app_of s)) s))) = Some rc →
  ∃ s2, (CayenneInit (bytes "u") (bytes "p") (bytes "d") ;; connectClient)
    (with_form (account_form (bytes "u") (bytes "p") (bytes "d")) (received (idf (app_of s)) s)) = Ok (rc, s2).
Proof. apply result_run. Qed.

Lemma mqtt_form_remembered_witness :
  (let s := serving mqtt_post connack in
   twp (http_server_netconn_serve 0) (λ _ s3,
    conn_trace (idf (app_of s3)) = conn_trace (idf (app_of s)) ++ answer success_html ++ closing ∧
    ∀ s4 : Sys, flash (app_of s4) = flash (app_of s3) →
      (let '(ua, pa, ca) := stack_arrays (idf (app_of s4)) in zlen ua = 100 ∧ zlen pa = 100 ∧ zlen ca = 100) →
      ∃ s5, stored_account s4 = Ok (Some (bytes "u", bytes "p", bytes "d"), s5)) s) ∧
  (let s := serving mqtt_post connack_refused in
   http_server_netconn_serve 0 s = Fault EspAbort ∧
   ∀ e, http_server_netconn_serve (Nvs0 := cut_off sim_nvs e) 0 s = Fault EspAbort).
Proof.
  destruct mqtt_fields as (Hr & Hw & Hu & Hp & Hc).
  assert (Hpad : stack_pad ≠ 0%nat) by discriminate. assert (Hlt : ∀ c, zlen (bytes (String c "")) < 100) by done.
  assert (H0 : ∀ c, bytes (String c "") ≠ []) by discriminate.
  pose proof (λ i rc s2, let s := serving mqtt_post i in
    mqtt_form_remembered Hpad (λ _ _, eq_refl) (λ _ _, eq_refl) (λ _, eq_refl) sys_app_keeps 0 mqtt_post []
    (bytes "u") (bytes "p") (bytes "d") (idf (app_of s)) rc s s2 eq_refl Hr Hw Hu Hp Hc (H0 _) (H0 _) (H0 _)
    (Hlt _) (Hlt _) (Hlt _) (λ _, eq_refl) (λ _ _, eq_refl) I (flash_str_key _ _) (flash_str_key _ _) (flash_str_key _ _)) as Hj.
  assert (Ea : (s8 CAYENNE_SUCCESS =? CAYENNE_SUCCESS) = true) by (vm_compute; reflexivity).
  assert (Er : (s8 5 =? CAYENNE_SUCCESS) = false) by (vm_compute; reflexivity).
  cbv zeta in Hj. split.
  - destruct (mqtt_connects connack CAYENNE_SUCCESS) as [s2 E]; [vm_compute; reflexivity|].
    specialize (Hj _ _ _ E). rewrite Ea in Hj. exact Hj.
  - destruct (mqtt_connects connack_refused 5) as [s2 E]; [vm_compute; reflexivity|].
    specialize (Hj _ _ _ E). rewrite Er in Hj. exact Hj.
Defined.
